(* ===== verification/_CoqProject ===== *)
-Q . S2P
Prelude.v
CText.v
Ring.v
InetAddr.v
PtonFacts.v
Inet6Facts.v
InetClaims.v
Cksum.v
Sys.v
Traces.v
Error.v
Ownership.v
Wrappers.v
RobustIO.v
StreamFacts.v
StreamClaims.v
Servers.v
ClientTable.v
SelectServer.v
SelectFacts.v
SelectClaims.v
SockUtil.v
SockClaims.v
Rtt.v
Packet.v
OpenFds.v
Words.v
Mcast.v
Gai.v
GaiFacts.v
GaiClaims.v
FreeGai.v
FreeGaiClaims.v
Connect.v
ConnectClaims.v
NonblockCli.v
NonblockFacts.v
NonblockClaims.v
SelectCli.v
SockTool.v
SockToolClaims.v
SourceRoute.v
Sigio.v
SigioClaims.v
UdpCksum.v
UdpClaims.v
RttClaims.v
ThreadPool.v
ThreadPoolFacts.v
ThreadPoolClaims.v
WebServer.v
WebServerFacts.v
WebServerClaims.v
PassServer.v
PassClaims.v
Traceroute.v
TracerouteClaims.v
Icmpd.v
IcmpdClaims.v
Ping.v
PingClaims.v
WebClient.v
WebClientFacts.v
WebClientClaims.v
ThreadWeb.v
ThreadWebFacts.v
ThreadWebClaims.v
ThreadExamples.v
ThreadExamplesClaims.v
Bcast.v
BcastClaims.v
Route.v
RouteFacts.v
RouteClaims.v
Ifi.v
IfiFacts.v
IfiClaims.v
IfConf.v
IfConfFacts.v
IfConfClaims.v
