(* ===== verification/Prelude.v ===== *)
(** A verification of the networking library and programs of [src/unpv13e].

    * The program

    [src/unpv13e] is a library for network programs ([lib/], with the replacements for missing
    library functions in [libfree/], the resolver in [libgai/] and the routing-socket functions
    in [libroute/]) and a collection of clients and servers, one directory per subject.  At the
    bottom are wrapper functions that make one call of the operating system and end the process
    with a message when it fails ([lib/wrap*.c], [lib/error.c]).  On them stand functions that
    hide the partial results of calls ([lib/readn.c], [lib/writen.c], [lib/readline.c]) and the
    differences between protocols ([lib/sock_*.c], [lib/mcast_*.c], [lib/tcp_connect.c] and its
    relatives, which call the resolver).  The servers and clients combine them: iterative,
    preforked, prethreaded, driven by [select] or by signals, and with their own reliability
    on top of UDP.

    * Files

    - [Prelude]: notation, bytes and C strings, checked access to arrays, machine-width
      integers, the lemmas and tactics all files share.  [CText]: number formatting and parsing
      as [printf], [atoi] and the string functions do them.  [Ring]: circular buffers.
    - [InetAddr] ([libfree/inet_pton.c], [inet_ntop.c], [inet_aton.c] and the IPv4-only
      variants), with its facts in [PtonFacts], [Inet6Facts] and its
      properties in [InetClaims].  [Cksum] ([libfree/in_cksum.c]).
    - [Sys]: system calls, the environment that answers them, the monad of programs, weakest
      preconditions.  [Traces]: what a history says about the bytes on a descriptor.
      [Ownership]: a small program logic for handles (memory, descriptors) that are obtained
      and given back.
    - [Error] ([lib/error.c]), [Wrappers] ([lib/wrapunix.c], [wrapsock.c], [wrapstdio.c],
      [wrappthread.c], [wraplib.c]).
    - [RobustIO] ([lib/readn.c], [writen.c], [readline.c], [str_echo.c], [str_cli.c],
      [dg_echo.c], [dg_cli.c], [read_fd.c], [write_fd.c], [readable_timeo.c],
      [writable_timeo.c]) with [StreamFacts], [StreamClaims].
    - [SockUtil] ([lib/sock_*.c], [family_to_level.c], [sockfd_to_family.c], [tv_sub.c],
      [hstrerror.c], [gf_time.c], [signal.c], [signal_intr.c], [pselect.c], [sockatmark.c])
      with [SockClaims]; [Mcast] ([lib/mcast_*.c]).
    - [Gai] (all of [libgai/]) with [GaiFacts], [GaiClaims]; [FreeGai]
      ([libfree/getaddrinfo.c], [libfree/getnameinfo.c]) with [FreeGaiClaims]; [Connect]
      ([lib/tcp_connect.c], [tcp_listen.c], [udp_*.c], [host_serv.c], [connect_*.c],
      [daemon_*.c], [my_addrs.c]) with [ConnectClaims].
    - [Servers]: descriptor sets and the logic of endless loops.  [SelectServer]
      ([tcpcliserv/tcpservselect01.c]), [NonblockCli] ([nonblock/strclinonb.c]),
      [SelectCli] ([select/strcliselect01.c], [strcliselect02.c]), [Sigio]
      ([sigio/dgecho01.c]), [UdpCksum] ([udpcksum/]), [Rtt] ([lib/rtt.c],
      [rtt/dg_send_recv.c]), [ThreadPool] ([server/serv08.c], [pthread08.c]), [WebServer]
      ([server/web_child.c], [web_child_r.c], [readline.c], [readline_r.c], the accept loops),
      [PassServer] ([server/serv05.c], [child05.c]), each with its facts and properties in
      the files that carry its name with [Facts] and [Claims], or at its end.  [ClientTable]: the array of
      clients that several servers keep; [OpenFds]: which descriptors a history leaves open.
    - [Packet]: fields and checksums of IP packets; on it [Traceroute] ([traceroute/]), [Icmpd]
      ([icmpd/]) and [Ping] ([ping/], without [bsdping.c]), with their [Facts] and [Claims].
    - [WebClient] ([nonblock/web.c] and its parts) with [WebClientFacts], [WebClientClaims];
      [ThreadWeb] ([threads/web01.c], [web02.c], [web03.c]) with the moves as rules
      and the invariants in [ThreadWebFacts] and the properties in [ThreadWebClaims];
      [ThreadExamples] ([threads/example01.c] to [example03.c]) with [ThreadExamplesClaims];
      [Bcast] ([bcast/dgclibcast1.c] to [dgclibcast6.c]) with [BcastClaims].
    - [Words]: C integers and structures in byte arrays; on it [Route] ([libroute/],
      [route/prif*.c]) with [RouteFacts], [RouteClaims]; [Ifi]
      ([route/get_ifi_info.c]) with [IfiFacts], [IfiClaims]; [IfConf]
      ([lib/get_ifi_info.c]) with [IfConfFacts], [IfConfClaims].
    - [SockTool] (the TCP programs of the tool [sock/]: [looptcp.c], [sourcetcp.c], [sinktcp.c] and
      what they use, with an [error.c] of its own) with [SockToolClaims]; [SourceRoute]
      ([ipopts/sourceroute.c], [sock/sourceroute.c]).

    * How the code is translated

    A function keeps its name; a wrapper [Foo] and the function [foo] it calls are two
    definitions.  Values of a machine type are integers with the wrap-around written out where
    it can happen.  An array is a list of its length, a pointer into it an offset, and each
    access is checked: reading or writing outside is [None], or the outcome [Undefined] in the
    monad, so that every theorem that excludes it is a theorem about memory safety.  Programs
    that call the operating system are terms of the monad [M] of [Sys]: a state with the history
    of calls, and an outcome (a value, the end of the process with a status, [abort],
    undefined behaviour, or no fuel left).  The operating system is the class [OS]: any function
    from the history to the next answer.  What the documentation of a call promises is a law
    class ([ReadLaw], [WriteLaw], [SelectLaw], [DescriptorLaw], ...), assumed only where it is
    needed; the witnesses show that the laws can hold.  What [configure] decides is a class
    too ([Config], [McastConfig], [GaiConfig]), as are the databases of names ([Netdb]) and
    what one component promises to another ([Resolver] with [ResolverLaws], [LineReader] with
    [LineReaderLaw]): clients are proved against the class, implementations are instances.

    Concurrency is a step relation: in [Sigio] the signal handler interleaves with the main
    loop where the signal is not blocked, in [ThreadPool], [ThreadWeb] and [ThreadExamples] every
    statement of every thread is a step, in [Bcast] the alarm may go off between any two
    statements.  The bounds on such runs come from the lemmas on schedules in this file.  What is proved of them is proved of all reachable configurations.

    * Fuel

    Loops that end only by what the environment does take fuel, one unit for each iteration.
    A theorem about such a loop either says how much is enough, or says of the outcome
    [OutOfFuel] what the environment has done to use it up (so many interrupted or aborted
    calls, so many requests), which bounds the iterations by events that are visible in the
    history.  Endless loops are observed after any number of rounds.

    * What is proved

    - Addresses: [inet_ntop] and [inet_pton] are inverse on every IPv6 address; [inet_pton4]
      accepts exactly the dotted quads; no text makes either leave its buffers; the variants
      agree.  The checksum is the ones-complement sum, verifies at the receiver, and does not
      depend on the byte order of the host.
    - Calls: each wrapper returns the result of a successful call and ends the process
      otherwise; [Accept] retries aborted connections; error messages stay in their buffer
      (without [vsnprintf] only the short ones, and a daemon logs them as a format).
    - Streams: [readn], [writen], [readline] transfer exactly the bytes of the stream,
      interrupted calls included; [readline_r] is [readline] with its state made explicit;
      the echo server, the nonblocking client and the client with [select] neither lose, repeat
      nor reorder a byte (but for the end of the reply that the nonblocking client drops when it returns); [loop_tcp] of the tool [sock/] does the same with the line ends
      translated and the data cut in chunks, and its source sends the copies of its pattern.
    - Source routes: the option that is built is well formed, inside its block, and is printed
      back as the addresses of the hosts.
    - Resolver and set-up: outside the Unix domain [getaddrinfo] leaks nothing but a canonical name and
      never frees twice; it expands services as
      documented, is inverse to [getnameinfo] on numeric addresses; the resolver of [libfree/]
      gives the same lists after the same calls, for the requests that both understand alike; [tcp_connect] and its relatives close every
      descriptor but the one they return.
    - Servers: the tables of the [select] server describe exactly its open connections, and
      each client gets its own bytes back; the signal-driven server and the thread pool answer
      in order under every interleaving, the pool without deadlock or lost wake-up; the
      descriptor-passing server hands each connection to one available child; [web_child]
      cuts the stream into lines and sends exactly what each asks for.
    - Web clients: the client with nonblocking connects and the threaded ones fetch each file
      once, to the end, and keep to their number of connections; the threaded ones can always finish except
      from one deadlock, which is described exactly and shown to happen.
    - Threads and signals: the bounded buffer hands over all items in order and always ends; the
      counter with a mutex counts every iteration, without one it is only bounded; the broadcast
      clients print the replies in order (the one with [siglongjmp] may lose one for each line sent), and those with [pselect], [siglongjmp] or a pipe cannot
      miss the alarm, while the others can.
    - Interfaces: [if_nametoindex], [if_indextoname], [if_nameindex] and the two versions of
      [get_ifi_info] return what the messages of the kernel say, without leaving their buffers,
      for the lists and hosts that their theorems name;
      [get_ifi_info] refines a list of interfaces computed from the kernel's answer.
    - Datagrams: the packets of [udpcksum] are valid and only valid ones are accepted;
      [dg_send_recv] returns only the reply to its own request, after at most four
      transmissions.  [traceroute] recognises the answers to its probes and no others and, for IPv4, ends unless it is
      kept waiting by other packets;
      [icmpd] reports an error to the entries that hold the port and loses no descriptor that comes
      alone; [ping] answers belong to its requests, and the time printed is the one since the request
      was sent, unless the reply is forged.

    Where the code does not do what it means to, a lemma shows it on a concrete input or for
    all inputs of a kind; these lemmas are at the ends of the files that
    hold the properties.

    * What is not modelled

    Command lines and [main] functions that only call the library; output of statistics and
    debugging text; programs whose behaviour is that of the kernel (SCTP, key-management
    sockets, STREAMS, out-of-band data); the headers that only declare; [libgai/old] and other
    unused copies; [bsdping.c], which is another project's program.  Of the directories that are
    modelled in part, the programs left out repeat what is modelled with another call around it:
    the servers of [server/] that fork or lock differently, the server with [poll] of
    [tcpcliserv/], the clients of [advio/] and [threads/], the UDP programs and socket options of
    [sock/], the clock of [ssntp/], which reckons in floating point. *)

From stdpp Require Export base list numbers strings gmap.
From Stdlib Require Export ZArith Lia.

#[export] Set Default Goal Selector "!".
Open Scope Z_scope.

(** * Notations of the development *)

Declare Scope unp_scope.
Delimit Scope unp_scope with unp.

(** * Bytes, characters and C strings

    A [char] is its code as a [Z]; a C string is the list of its characters up to, and
    without, the terminating NUL.  [cstr] turns a literal into such a list. *)

Abbreviation cstring := (list Z) (only parsing).

Definition char_code (a : Ascii.ascii) : Z := Z.of_N (Ascii.N_of_ascii a).

Fixpoint cstr (s : string) : cstring :=
  match s with
  | EmptyString => []
  | String a s' => char_code a :: cstr s'
  end.

Notation "'c[' s ]" := (cstr s) (at level 0, s at level 200, format "'c[' s ]") : unp_scope.
Open Scope unp_scope.

Definition is_byte (z : Z) : bool := (0 <=? z) && (z <? 256).

Abbreviation bytes_ok l := (Forall (fun z => 0 <= z < 256) l).

(** [strchr]: the offset of the first occurrence of [c]. *)
Fixpoint strchr (s : cstring) (c : Z) : option nat :=
  match s with
  | [] => None
  | x :: r => if x =? c then Some 0%nat else S <$> strchr r c
  end.

Definition isdigit (c : Z) : bool := (48 <=? c) && (c <=? 57).

Definition isxdigit (c : Z) : bool :=
  isdigit c || ((97 <=? c) && (c <=? 102)) || ((65 <=? c) && (c <=? 70)).

(** [memcmp]/[strcmp] on byte lists: the sign of the first difference.  [strcmp] compares the
    terminating NUL too, which is what the shorter-is-smaller cases do. *)
Fixpoint memcmp (a b : list Z) : Z :=
  match a, b with
  | [], [] => 0
  | [], _ :: _ => -1
  | _ :: _, [] => 1
  | x :: a', y :: b' => if x =? y then memcmp a' b' else if x <? y then -1 else 1
  end.

(** * Machine integers *)

Definition wrap (w z : Z) : Z := z mod 2 ^ w.
Abbreviation u8 := (wrap 8).
Abbreviation u16 := (wrap 16).
Abbreviation u32 := (wrap 32).
Abbreviation u64 := (wrap 64).

(** Two's complement reading of the low [w] bits. *)
Definition swrap (w z : Z) : Z := (z + 2 ^ (w - 1)) mod 2 ^ w - 2 ^ (w - 1).
Abbreviation s32 := (swrap 32).

(** * Checked memory accesses

    An array is a list; an access outside it is undefined behaviour in C and [None] here, so
    that "never [None]" is memory safety. *)

Definition store {A} (a : list A) (i : nat) (v : A) : option (list A) :=
  if decide (i < length a)%nat then Some (<[i := v]> a) else None.

(** [memcpy (buf + off, src, length src)]. *)
Definition memcpy {A} (buf : list A) (off : nat) (src : list A) : option (list A) :=
  if decide (off + length src <= length buf)%nat
  then Some (take off buf ++ src ++ drop (off + length src) buf)
  else None.

(** Control flow of a loop body: go on with a new state, leave the loop, or return from the
    function. *)
Inductive flow (S R : Type) : Type :=
| Next (s : S)
| Break (s : S)
| Return (r : R).
Arguments Next {S R} s.
Arguments Break {S R} s.
Arguments Return {S R} r.

(** * Automation

    [blia]: arithmetic goals whose comparisons are boolean. *)
Ltac bool_to_prop :=
  repeat progress rewrite ?Z.gtb_ltb, ?Z.geb_leb, ?negb_true_iff, ?negb_false_iff, ?andb_true_iff, ?andb_false_iff, ?orb_true_iff,
    ?orb_false_iff, ?Z.eqb_eq, ?Z.eqb_neq, ?Z.leb_le, ?Z.leb_gt, ?Z.ltb_lt, ?Z.ltb_ge in *.
Ltac blia := bool_to_prop; lia.

(** [llia]: arithmetic over list lengths. *)
Ltac simpl_length :=
  rewrite ?length_app, ?length_replicate, ?length_insert, ?length_take, ?length_drop,
    ?length_fmap in *; cbn [length] in *.
Ltac llia := do 2 simpl_length; lia.

(** * Shared list lemmas *)

Lemma forallb_pointwise {A} (f g : A -> bool) l :
  (forall x, f x = g x) -> forallb f l = forallb g l.
Proof. intros H. induction l as [|x l IH]; cbn; [done|]. by rewrite H, IH. Qed.

Lemma bytes_ok_bool l : forallb is_byte l = true -> bytes_ok l.
Proof.
  rewrite forallb_forall. intros H. apply Forall_forall. intros x Hx%list_elem_of_In.
  specialize (H x Hx). unfold is_byte in H. blia.
Qed.

Lemma insert_at_length {A} (a b : list A) x v : <[length a := v]> (a ++ x :: b) = a ++ v :: b.
Proof. induction a as [|y a IH]; [done|]. cbn. f_equal. apply IH. Qed.

Lemma insert_at_length_S {A} (a b : list A) x y v :
  <[S (length a) := v]> (a ++ x :: y :: b) = a ++ x :: v :: b.
Proof. induction a as [|z a IH]; [done|]. cbn. f_equal. apply IH. Qed.

Lemma memcpy_ok {A} (buf src : list A) off :
  (off + length src <= length buf)%nat ->
  memcpy buf off src = Some (take off buf ++ src ++ drop (off + length src) buf).
Proof. intros H. unfold memcpy. by rewrite decide_True. Qed.

(** * Constants of the system headers (Linux values)

    The sources name these symbolically; no theorem depends on more than that the values are
    distinct and that error codes are positive. *)

Definition AF_UNSPEC : Z := 0.
Definition AF_LOCAL : Z := 1.
Definition AF_INET : Z := 2.
Definition AF_INET6 : Z := 10.
Definition AF_LINK : Z := 18.

Definition SOCK_STREAM : Z := 1.
Definition SOCK_DGRAM : Z := 2.
Definition SOCK_RAW : Z := 3.

Definition EINTR : Z := 4.
Definition ENXIO : Z := 6.
Definition EINVAL : Z := 22.
Definition ENOSPC : Z := 28.
Definition EWOULDBLOCK : Z := 11.
Definition EPROTO : Z := 71.
Definition EAFNOSUPPORT : Z := 97.
Definition ECONNABORTED : Z := 103.
Definition ECONNRESET : Z := 104.
Definition ETIMEDOUT : Z := 110.
Definition EINPROGRESS : Z := 115.

(** [unp.h] *)
Definition MAXLINE : Z := 4096.
Definition LISTENQ : Z := 1024.
Definition INET_ADDRSTRLEN : Z := 16.
Definition INET6_ADDRSTRLEN : Z := 46.
Definition SERV_PORT : Z := 9877.

(** * Schedules

    [cost m] bounds by how much a move may add to the work that is left; a move without cost
    leaves less to do. *)

Section Schedules.
Context {config move : Type} (fire : move -> config -> option config).
Context (inv : config -> Prop) (work : config -> nat) (cost : move -> nat).
Hypothesis inv_step : forall m c c', inv c -> fire m c = Some c' -> inv c'.
Hypothesis work_step : forall m c c', inv c -> fire m c = Some c' -> (S (work c') <= work c + cost m)%nat.

Definition runs (ms : list move) (c : config) : option config := foldl (fun c m => c ≫= fire m) (Some c) ms.

Lemma runs_none ms : foldl (fun c m => c ≫= fire m) None ms = None.
Proof using Type. by induction ms. Qed.

Lemma runs_cons m ms c c' : runs (m :: ms) c = Some c' -> exists c1, fire m c = Some c1 /\ runs ms c1 = Some c'.
Proof using Type.
  unfold runs. cbn [foldl mbind option_bind]. destruct (fire m c) as [c1|]; [by exists c1|]. by rewrite runs_none.
Qed.

Lemma runs_inv ms : forall c c', inv c -> runs ms c = Some c' -> inv c'.
Proof using inv_step.
  induction ms as [|m ms IH]; intros c c' Hi H; [by injection H as <-|].
  apply runs_cons in H as (c1 & E & H). eapply IH; [by eapply inv_step|done].
Qed.

Lemma runs_bounded ms : forall c c', inv c -> runs ms c = Some c' ->
  (length ms + work c' <= work c + sum_list_with cost ms)%nat.
Proof using inv_step work_step.
  induction ms as [|m ms IH]; intros c c' Hi H; [injection H as <-; cbn; lia|].
  apply runs_cons in H as (c1 & E & H). pose proof (work_step _ _ _ Hi E).
  specialize (IH c1 c' (inv_step _ _ _ Hi E) H). cbn [length sum_list_with]. lia.
Qed.

(** Where a move without cost is always possible before the end, the end is reached. *)
Context (live final : config -> Prop).
Context {final_dec : forall c, Decision (final c)}.
Hypothesis live_step : forall m c c', live c -> ~ final c -> cost m = 0%nat -> fire m c = Some c' -> live c'.
Hypothesis progress : forall c, inv c -> live c -> ~ final c -> exists m c', fire m c = Some c' /\ cost m = 0%nat.

Lemma runs_complete c :
  inv c -> live c -> exists ms c', runs ms c = Some c' /\ final c' /\ live c' /\ sum_list_with cost ms = 0%nat.
Proof using inv_step work_step live_step progress final_dec.
  remember (work c) as k eqn:Ek. assert (Hk : (work c <= k)%nat) by lia. clear Ek. revert c Hk.
  induction k as [|k IH]; intros c Hk Hi Hl; (destruct (decide (final c)) as [Hf|Hf]; [by exists [], c|]).
  all: destruct (progress c Hi Hl Hf) as (m & c1 & E & Hm); pose proof (work_step _ _ _ Hi E); try (exfalso; lia).
  destruct (IH c1) as (ms & c' & H' & Hf' & Hl' & Hc); [lia|by eapply inv_step|by eapply live_step|].
  exists (m :: ms), c'. unfold runs. cbn [foldl mbind option_bind sum_list_with]. rewrite E, Hm. by split_and!.
Qed.
End Schedules.

Lemma seqZ_snoc m n : 0 <= n -> seqZ m (n + 1) = seqZ m n ++ [m + n].
Proof. intros Hn. rewrite seqZ_app by lia. done. Qed.
