(* ===== verification/CText.v ===== *)
(** C text formatting and numeric parsing: the parts of [printf], [atoi] and the string
    functions of the C library that the sources use, with the lemmas that relate a printed
    number to its value. *)

From S2P Require Import Prelude.

(** * Printing: [%u], [%d], [%x] *)

Fixpoint digits_of (fuel : nat) (base n : Z) (acc : list Z) : list Z :=
  match fuel with
  | O => acc
  | S f =>
      let acc' := n mod base :: acc in
      if n <? base then acc' else digits_of f base (n / base) acc'
  end.

Definition digit_char (d : Z) : Z := if d <? 10 then 48 + d else 87 + d.

(** The fuel is the number of bits of [n], which bounds the number of its digits. *)
Definition print_u (base n : Z) : cstring :=
  digit_char <$> digits_of (S (Z.to_nat (Z.log2 n))) base n [].

Definition print_d (n : Z) : cstring :=
  if n <? 0 then 45 :: print_u 10 (- n) else print_u 10 n.

(** * Parsing: the value of a digit string, [atoi] *)

Definition value_of (base : Z) (ds : list Z) : Z := foldl (fun a d => a * base + d) 0 ds.

Definition dec_value (s : cstring) : Z := value_of 10 ((fun c => c - 48) <$> s).

Definition isspace (c : Z) : bool := (c =? 32) || ((9 <=? c) && (c <=? 13)).

Fixpoint skip_spaces (s : cstring) : cstring :=
  match s with
  | c :: r => if isspace c then skip_spaces r else s
  | [] => []
  end.

Fixpoint digit_prefix (s : cstring) : cstring :=
  match s with
  | c :: r => if isdigit c then c :: digit_prefix r else []
  | [] => []
  end.

(** [(int) strtol(s, NULL, 10)]: the magnitude saturates at the range of [long]. *)
Definition atoi (s : cstring) : Z :=
  let clamp z := Z.max (- 2 ^ 63) (Z.min (2 ^ 63 - 1) z) in
  match skip_spaces s with
  | 45 :: r => s32 (clamp (- dec_value (digit_prefix r)))
  | 43 :: r => s32 (clamp (dec_value (digit_prefix r)))
  | r => s32 (clamp (dec_value (digit_prefix r)))
  end.

(** [snprintf (buf, size, "%s", text)]: what is stored, NUL excluded.  [size > 0]. *)
Definition snprintf_text (size : Z) (text : cstring) : cstring :=
  take (Z.to_nat (size - 1)) text.

(** [vsnprintf] with the conversions the sources use: [%s], [%d], [%u], [%x], [%ld], [%%].  A
    conversion without a matching argument, or an unknown one, is undefined behaviour. *)
Inductive arg : Type :=
| AStr (s : cstring)
| AInt (n : Z).

Fixpoint vformat (fmt : cstring) (args : list arg) : option cstring :=
  match fmt with
  | [] => Some []
  | 37 :: r =>
      match r, args with
      | 37 :: r', _ => cons 37 <$> vformat r' args
      | 115 :: r', AStr s :: args' => app s <$> vformat r' args'
      | 100 :: r', AInt n :: args' => app (print_d n) <$> vformat r' args'
      | 108 :: 100 :: r', AInt n :: args' => app (print_d n) <$> vformat r' args'
      | 117 :: r', AInt n :: args' => app (print_u 10 (u32 n)) <$> vformat r' args'
      | 120 :: r', AInt n :: args' => app (print_u 16 (u32 n)) <$> vformat r' args'
      | _, _ => None
      end
  | c :: r => cons c <$> vformat r args
  end.

(** Text without conversions formats to itself. *)
Lemma vformat_plain fmt args : 37 ∉ fmt -> vformat fmt args = Some fmt.
Proof.
  induction fmt as [|c fmt IH]; intros H; [done|]. cbn [vformat].
  assert (c <> 37) by set_solver. rewrite IH by set_solver.
  repeat case_match; subst; done.
Qed.

Lemma vformat_app_plain t fmt args :
  37 ∉ t -> vformat (t ++ fmt) args = app t <$> vformat fmt args.
Proof.
  induction t as [|c t IH]; intros H; cbn [app].
  - by destruct (vformat fmt args).
  - cbn [vformat]. assert (c <> 37) by set_solver. rewrite IH by set_solver.
    destruct (vformat fmt args); repeat case_match; subst; done.
Qed.

Lemma vformat_one_string t s :
  37 ∉ t -> vformat (t ++ c["%s"]) [AStr s] = Some (t ++ s).
Proof.
  intros H. rewrite vformat_app_plain by done.
  change (vformat c["%s"] [AStr s]) with (app s <$> vformat [] []). cbn.
  by rewrite app_nil_r.
Qed.

(** * Text in buffers *)

(** [strcpy (buf + off, text)] and [sprintf (buf + off, ...)]: the text and its NUL. *)
Definition put_text (buf : list Z) (off : nat) (text : cstring) : option (list Z) :=
  memcpy buf off (text ++ [0]).

(** The C string stored at [buf + off]. *)
Fixpoint until_nul (l : list Z) : cstring :=
  match l with
  | [] => []
  | c :: r => if c =? 0 then [] else c :: until_nul r
  end.
Definition cstring_at (buf : list Z) (off : nat) : cstring := until_nul (drop off buf).

(** * Printed numbers denote their value *)

Lemma foldl_digits_of base fuel n acc :
  2 <= base -> (0 < fuel)%nat -> 0 <= n < 2 ^ Z.of_nat fuel ->
  foldl (fun a d => a * base + d) 0 (digits_of fuel base n acc)
  = foldl (fun a d => a * base + d) n acc.
Proof.
  intros Hb. revert n acc. induction fuel as [|f IH]; intros n acc Hf Hn; [lia|].
  cbn [digits_of]. destruct (n <? base) eqn:E.
  - apply Z.ltb_lt in E. cbn. rewrite Z.mod_small by lia. done.
  - apply Z.ltb_ge in E.
    assert (f <> 0%nat) by (intros ->; change (2 ^ Z.of_nat 1) with 2 in Hn; lia).
    rewrite IH.
    + cbn. f_equal. rewrite Z.mul_comm. symmetry. apply Z.div_mod. lia.
    + lia.
    + rewrite Nat2Z.inj_succ, Z.pow_succ_r in Hn by lia.
      split; [apply Z.div_pos; lia|]. apply Z.div_lt_upper_bound; nia.
Qed.

Lemma log2_fuel n : 0 <= n -> 0 <= n < 2 ^ Z.of_nat (S (Z.to_nat (Z.log2 n))).
Proof.
  intros Hn. rewrite Nat2Z.inj_succ, Z2Nat.id by apply Z.log2_nonneg.
  split; [done|]. destruct (decide (n = 0)) as [->|]; [done|].
  apply Z.log2_spec. lia.
Qed.

Lemma value_digits_of base n :
  2 <= base -> 0 <= n -> value_of base (digits_of (S (Z.to_nat (Z.log2 n))) base n []) = n.
Proof.
  intros Hb Hn. unfold value_of. rewrite foldl_digits_of; [done|done|lia|by apply log2_fuel].
Qed.

Lemma digits_of_range base fuel n acc :
  2 <= base -> Forall (fun d => 0 <= d < base) acc ->
  Forall (fun d => 0 <= d < base) (digits_of fuel base n acc).
Proof.
  intros Hb. revert n acc. induction fuel as [|f IH]; intros n acc Ha; cbn; [done|].
  assert (0 <= n mod base < base) by (apply Z.mod_pos_bound; lia).
  destruct (n <? base); [by constructor|]. apply IH. by constructor.
Qed.

Lemma digits_of_length_acc base fuel n acc :
  (length acc <= length (digits_of fuel base n acc))%nat.
Proof.
  revert n acc. induction fuel as [|f IH]; intros n acc; cbn; [done|].
  destruct (n <? base); cbn; [lia|]. etrans; [|apply IH]. cbn. lia.
Qed.

Lemma print_u_nonempty base n : print_u base n <> [].
Proof.
  unfold print_u. intros H%fmap_nil_inv. revert H. cbn.
  destruct (n <? base); [done|]. intros H.
  pose proof (digits_of_length_acc base (Z.to_nat (Z.log2 n)) (n / base) [n mod base]) as L.
  rewrite H in L. cbn in L. lia.
Qed.

(** A number below [base ^ k] has at most [k] digits. *)
Lemma digits_of_length base fuel n acc k :
  2 <= base -> 0 <= n < base ^ Z.of_nat (S k) ->
  (length (digits_of fuel base n acc) <= S k + length acc)%nat.
Proof.
  intros Hb. revert n acc k. induction fuel as [|f IH]; intros n acc k Hn; cbn; [lia|].
  destruct (n <? base) eqn:E; cbn; [lia|]. apply Z.ltb_ge in E.
  destruct k as [|k].
  - change (Z.of_nat 1) with 1 in Hn. rewrite Z.pow_1_r in Hn. lia.
  - specialize (IH (n / base) (n mod base :: acc) k). cbn in IH. etrans; [apply IH|lia].
    rewrite Nat2Z.inj_succ, Z.pow_succ_r in Hn by lia.
    split; [apply Z.div_pos; lia|]. apply Z.div_lt_upper_bound; lia.
Qed.

Lemma print_u_length base n k :
  2 <= base -> 0 <= n < base ^ Z.of_nat (S k) -> (length (print_u base n) <= S k)%nat.
Proof.
  intros Hb Hn. unfold print_u. rewrite length_fmap.
  etrans; [by apply (digits_of_length base _ n [] k)|]. cbn. lia.
Qed.

Lemma print_u_dec_digits n : Forall (fun c => isdigit c = true) (print_u 10 n).
Proof.
  unfold print_u. apply Forall_fmap. eapply Forall_impl.
  - apply digits_of_range; [lia|constructor].
  - intros d Hd. cbn in *. unfold isdigit, digit_char. destruct (Z.ltb_spec d 10); lia.
Qed.

Lemma dec_value_print_u n : 0 <= n -> dec_value (print_u 10 n) = n.
Proof.
  intros Hn. unfold dec_value, print_u. rewrite <- list_fmap_compose.
  etrans; [|by apply (value_digits_of 10 n)]. f_equal.
  etrans; [|apply list_fmap_id]. apply list_fmap_ext. intros i d Hd.
  pose proof (digits_of_range 10 (S (Z.to_nat (Z.log2 n))) n [] ltac:(lia) ltac:(constructor)) as F.
  rewrite Forall_lookup in F. specialize (F i d Hd).
  cbn in *. unfold digit_char. destruct (Z.ltb_spec d 10); lia.
Qed.

(** * [strchr] on the digit tables *)

Lemma strchr_Some s c i : strchr s c = Some i -> s !! i = Some c.
Proof.
  revert i. induction s as [|x s IH]; intros i H; cbn in H; [done|].
  destruct (Z.eqb_spec x c) as [->|]; [by injection H as <-|].
  destruct (strchr s c) as [j|]; cbn in H; [injection H as <-|done]. cbn. by apply IH.
Qed.

Lemma strchr_None s c : strchr s c = None <-> c ∉ s.
Proof.
  induction s as [|x s IH]; cbn; [set_solver|].
  destruct (Z.eqb_spec x c) as [->|]; [set_solver|].
  destruct (strchr s c); cbn; set_solver.
Qed.

(** * Text stored in a buffer *)

Abbreviation nul_free t := (Forall (fun c : Z => c <> 0) t).

Lemma until_nul_text t rest : nul_free t -> until_nul (t ++ 0 :: rest) = t.
Proof.
  induction 1 as [|c t Hc Ht IH]; cbn; [done|].
  destruct (Z.eqb_spec c 0); [done|]. by rewrite IH.
Qed.

Lemma put_text_ok buf off t :
  (off + length t < length buf)%nat ->
  put_text buf off t = Some (take off buf ++ t ++ 0 :: drop (off + length t + 1) buf).
Proof.
  intros H. unfold put_text. rewrite memcpy_ok by (rewrite length_app; cbn; lia).
  rewrite length_app. cbn. by rewrite <- app_assoc, Nat.add_assoc.
Qed.

Lemma cstring_at_text a t rest off :
  nul_free t -> length a = off -> cstring_at (a ++ t ++ 0 :: rest) off = t.
Proof.
  intros Ht <-. unfold cstring_at. rewrite drop_app_length. by apply until_nul_text.
Qed.

Lemma until_nul_nul_free l : nul_free (until_nul l).
Proof. induction l as [|c l IH]; cbn; [done|]. destruct (Z.eqb_spec c 0); by constructor. Qed.

Lemma until_nul_prefix l : take (length (until_nul l)) l = until_nul l.
Proof. induction l as [|c l IH]; cbn; [done|]. destruct (c =? 0); cbn; [done|]. by rewrite IH. Qed.

(** Text stored where the present text ends is appended to it. *)
Lemma append_text buf t u :
  cstring_at buf 0 = t -> nul_free u -> (length t + length u < length buf)%nat ->
  exists buf', put_text buf (length t) u = Some buf' /\
    length buf' = length buf /\ cstring_at buf' 0 = t ++ u.
Proof.
  intros Hc Hu Hl. unfold cstring_at in Hc. cbn [drop] in Hc.
  rewrite put_text_ok by lia. eexists. split; [done|]. split; [llia|].
  subst t. rewrite until_nul_prefix, app_assoc. apply (cstring_at_text []); [|done].
  apply Forall_app. split; [apply until_nul_nul_free|done].
Qed.

Lemma digit_char_nonzero base n : 2 <= base <= 16 -> nul_free (print_u base n).
Proof.
  intros Hb. unfold print_u. apply Forall_fmap. eapply Forall_impl.
  - apply digits_of_range; [lia|constructor].
  - intros d Hd. cbn in *. unfold digit_char. destruct (d <? 10); lia.
Qed.
