(* ===== verification/Ring.v ===== *)
(** Circular buffers: an array of [K] entries of which [n] are in use, from index [i] on.  The
    signal-driven server keeps its datagrams in one, the thread pool its connections. *)

From S2P Require Import Prelude.

Section Ring.
Context {A : Type} (K : nat).
Hypothesis K_pos : (0 < K)%nat.

(** The [n] entries from index [i] on. *)
Definition window (ring : list A) (i n : nat) : list A :=
  omap (fun k => ring !! ((i + k) mod K)%nat) (seq 0 n).

Lemma window_S ring i n :
  window ring i (S n) = window ring i n ++
    match ring !! ((i + n) mod K)%nat with Some d => [d] | None => [] end.
Proof using Type. unfold window. rewrite seq_S, omap_app. done. Qed.

Lemma window_full ring i n : length ring = K -> length (window ring i n) = n.
Proof using K_pos.
  intros Hl. induction n as [|n IH]; [done|]. rewrite window_S, length_app, IH.
  destruct (lookup_lt_is_Some_2 ring ((i + n) mod K)%nat) as [d ->]; [|cbn; lia].
  rewrite Hl. apply Nat.mod_upper_bound. lia.
Qed.

Lemma window_lookup ring s n i :
  length ring = K -> (i < n)%nat -> window ring s n !! i = ring !! ((s + i) mod K)%nat.
Proof using K_pos.
  intros Hl. induction n as [|n IH]; intros Hi; [lia|]. rewrite window_S.
  pose proof (window_full ring s n Hl) as Hf. destruct (decide (i = n)) as [->|Hne].
  - rewrite lookup_app_r, Hf, Nat.sub_diag by lia. by destruct (ring !! _).
  - rewrite lookup_app_l by lia. apply IH. lia.
Qed.

(** Distinct places of a window are distinct entries. *)
Lemma place_ne i k n : (k < n < K)%nat -> ((i + n) mod K <> (i + k) mod K)%nat.
Proof using K_pos.
  intros Hk E. pose proof (Nat.div_mod_eq (i + n) K) as E1. pose proof (Nat.div_mod_eq (i + k) K) as E2.
  assert ((K * ((i + n) / K) - K * ((i + k) / K) = n - k)%nat) as E3 by lia.
  rewrite <- Nat.mul_sub_distr_l in E3. destruct ((i + n) / K - (i + k) / K)%nat; nia.
Qed.

(** An entry stored behind the window does not change it. *)
Lemma window_store ring i n d :
  (n < K)%nat -> window (<[((i + n) mod K)%nat := d]> ring) i n = window ring i n.
Proof using K_pos.
  intros Hn. unfold window.
  assert (H : Forall (fun k => (k < n)%nat) (seq 0 n))
    by (apply Forall_forall; intros k Hk%elem_of_seq; lia).
  induction H as [|k l Hk _ IH]; [done|]. cbn [omap list_omap].
  rewrite list_lookup_insert_ne by (apply place_ne; lia).
  change (list_omap ?f ?x) with (omap f x). by rewrite IH.
Qed.

Lemma window_push ring i n d :
  (n < K)%nat -> length ring = K ->
  window (<[((i + n) mod K)%nat := d]> ring) i (S n) = window ring i n ++ [d].
Proof using K_pos.
  intros Hn Hl. rewrite window_S, window_store by done.
  rewrite list_lookup_insert_eq; [done|]. rewrite Hl. apply Nat.mod_upper_bound. lia.
Qed.

(** The first entry of a window. *)
Lemma window_pop ring i n d :
  (i < K)%nat -> ring !! i = Some d ->
  window ring i (S n) = d :: window ring (S i mod K) n.
Proof using K_pos.
  intros Hi Hd. unfold window. cbn [seq omap list_omap].
  rewrite Nat.add_0_r, Nat.mod_small, Hd by done. f_equal.
  change (list_omap ?f ?x) with (omap f x). rewrite <- fmap_S_seq.
  generalize (seq 0 n). intros l. induction l as [|k l IH]; [done|]. cbn [fmap list_fmap omap list_omap].
  change (list_omap ?f ?x) with (omap f x). change (list_fmap ?f ?x) with (f <$> x).
  replace ((i + S k) mod K)%nat with ((S i mod K + k) mod K)%nat
    by (rewrite Nat.Div0.add_mod_idemp_l; f_equal; lia).
  by rewrite IH.
Qed.

(** [if (++i == K) i = 0;] *)
Lemma wrap_index i : (i < K)%nat -> (if (S i =? K)%nat then 0%nat else S i) = (S i mod K)%nat.
Proof using K_pos.
  intros Hi. destruct (Nat.eqb_spec (S i) K) as [->|]; [by rewrite Nat.Div0.mod_same|].
  rewrite Nat.mod_small by lia. done.
Qed.
End Ring.
