(* ===== verification/InetAddr.v ===== *)
(** Address conversion (src/unpv13e/libfree): [inet_pton.c], [inet_ntop.c], [inet_aton.c] and
    the IPv4-only variants [inet_pton_ipv4.c] and [inet_ntop_ipv4.c].

    Every array of the C code is a list and every store into it is checked ([None] is an access
    out of bounds), so memory safety is a theorem and not a convention. *)

From S2P Require Import Prelude CText.

(** * inet_pton.c *)

Module Pton.

Definition digits : cstring := c["0123456789"].
Definition xdigits_l : cstring := c["0123456789abcdef"].
Definition xdigits_u : cstring := c["0123456789ABCDEF"].

Definition INADDRSZ : nat := 4.
Definition IN6ADDRSZ : nat := 16.
Definition INT16SZ : nat := 2.

(** The local variables of [inet_pton4]; [tp] is an index into [tmp]. *)
Record pton4_state := P4 { tmp4 : list Z; tp4 : nat; saw_digit : bool; octets : Z }.

(** The bytes of [tmp] after the first are uninitialised in C; each is zeroed by [*++tp = 0]
    before it is read. *)
Definition pton4_init : pton4_state := P4 [0; 0; 0; 0] 0 false 0.

(** One iteration of the [while] loop of [inet_pton4]. *)
Definition pton4_step (ch : Z) (s : pton4_state) : option (flow pton4_state Z) :=
  match strchr digits ch with
  | Some d =>
      cur ← tmp4 s !! tp4 s;
      let new := u32 (cur * 10 + Z.of_nat d) in
      if new >? 255 then Some (Return 0) else
      tmp' ← store (tmp4 s) (tp4 s) (u8 new);
      if negb (saw_digit s) then
        let octets' := octets s + 1 in
        if octets' >? 4 then Some (Return 0)
        else Some (Next (P4 tmp' (tp4 s) true octets'))
      else Some (Next (P4 tmp' (tp4 s) true (octets s)))
  | None =>
      if (ch =? 46) && saw_digit s then
        if octets s =? 4 then Some (Return 0) else
        tmp' ← store (tmp4 s) (S (tp4 s)) 0;
        Some (Next (P4 tmp' (S (tp4 s)) false (octets s)))
      else Some (Return 0)
  end.

Fixpoint pton4_loop (src : cstring) (s : pton4_state) : option (flow pton4_state Z) :=
  match src with
  | [] => Some (Next s)
  | ch :: src' =>
      r ← pton4_step ch s;
      match r with
      | Next s' => pton4_loop src' s'
      | _ => Some r
      end
  end.

(** [inet_pton4 (src, dst + off)]: the return value and the contents of [dst] afterwards. *)
Definition inet_pton4 (src : cstring) (dst : list Z) (off : nat) : option (Z * list Z) :=
  r ← pton4_loop src pton4_init;
  match r with
  | Return rc => Some (rc, dst)
  | Next s | Break s =>
      if octets s <? 4 then Some (0, dst) else
      dst' ← memcpy dst off (tmp4 s);
      Some (1, dst')
  end.

(** The local variables of [inet_pton6]; pointers into [tmp] are indices, [curtok] is the rest
    of the source string from the current token on. *)
Record pton6_state := P6 {
  tmp6 : list Z; tp6 : nat; colonp : option nat;
  curtok : cstring; saw_xdigit : bool; val : Z }.

Definition xdigit_val (ch : Z) : option nat :=
  match strchr xdigits_l ch with
  | Some d => Some d
  | None => strchr xdigits_u ch
  end.

(** [*tp++ = (u_char) (val >> 8) & 0xff; *tp++ = (u_char) val & 0xff;] *)
Definition put_word (tmp : list Z) (tp : nat) (v : Z) : option (list Z) :=
  tmp1 ← store tmp tp (Z.land (u8 (Z.shiftr v 8)) 255);
  store tmp1 (S tp) (Z.land (u8 v) 255).

(** One iteration of the [while] loop of [inet_pton6] on the character [ch]; [src'] is [src]
    after the increment. *)
Definition pton6_step (ch : Z) (src' : cstring) (s : pton6_state)
    : option (flow pton6_state Z) :=
  match xdigit_val ch with
  | Some d =>
      let v := Z.lor (u32 (Z.shiftl (val s) 4)) (Z.of_nat d) in
      if v >? 65535 then Some (Return 0)
      else Some (Next (P6 (tmp6 s) (tp6 s) (colonp s) (curtok s) true v))
  | None =>
      if ch =? 58 then
        if negb (saw_xdigit s) then
          match colonp s with
          | Some _ => Some (Return 0)
          | None => Some (Next (P6 (tmp6 s) (tp6 s) (Some (tp6 s)) src' false (val s)))
          end
        else if (IN6ADDRSZ <? tp6 s + INT16SZ)%nat then Some (Return 0)
        else
          tmp' ← put_word (tmp6 s) (tp6 s) (val s);
          Some (Next (P6 tmp' (tp6 s + 2) (colonp s) src' false 0))
      else if (ch =? 46) && (tp6 s + INADDRSZ <=? IN6ADDRSZ)%nat then
        r ← inet_pton4 (curtok s) (tmp6 s) (tp6 s);
        let '(rc, tmp') := r in
        if rc >? 0
        then Some (Break (P6 tmp' (tp6 s + INADDRSZ) (colonp s) (curtok s) false (val s)))
        else Some (Return 0)
      else Some (Return 0)
  end.

Fixpoint pton6_loop (src : cstring) (s : pton6_state) : option (flow pton6_state Z) :=
  match src with
  | [] => Some (Next s)
  | ch :: src' =>
      r ← pton6_step ch src' s;
      match r with
      | Next s' => pton6_loop src' s'
      | _ => Some r
      end
  end.

(** The [for (i = 1; i <= n; i++)] loop that shifts the words after the [::] to the end. *)
Fixpoint pton6_shift (todo : nat) (i : nat) (n colon : nat) (tmp : list Z) : option (list Z) :=
  match todo with
  | O => Some tmp
  | S todo' =>
      x ← tmp !! (colon + n - i)%nat;
      tmp1 ← store tmp (IN6ADDRSZ - i) x;
      tmp2 ← store tmp1 (colon + n - i) 0;
      pton6_shift todo' (S i) n colon tmp2
  end.

(** The statements of [inet_pton6] after the loop. *)
Definition pton6_finish (dst : list Z) (s : pton6_state) : option (Z * list Z) :=
  let finish (tmp : list Z) (tp : nat) :=
    if negb (tp =? IN6ADDRSZ)%nat then Some (0, dst)
    else dst' ← memcpy dst 0 tmp; Some (1, dst') in
  let after_word (tmp : list Z) (tp : nat) :=
    match colonp s with
    | Some c =>
        let n := (tp - c)%nat in
        tmp' ← pton6_shift n 1 n c tmp;
        finish tmp' IN6ADDRSZ
    | None => finish tmp tp
    end in
  if saw_xdigit s then
    if (IN6ADDRSZ <? tp6 s + INT16SZ)%nat then Some (0, dst)
    else tmp' ← put_word (tmp6 s) (tp6 s) (val s); after_word tmp' (tp6 s + 2)%nat
  else after_word (tmp6 s) (tp6 s).

Definition pton6_init (src : cstring) : pton6_state :=
  P6 (replicate IN6ADDRSZ 0) 0 None src false 0.

(** [inet_pton6]; the leading [:] of [::] is dropped first. *)
Definition inet_pton6 (src : cstring) (dst : list Z) : option (Z * list Z) :=
  let body src :=
    r ← pton6_loop src (pton6_init src);
    match r with
    | Return rc => Some (rc, dst)
    | Next s | Break s => pton6_finish dst s
    end in
  match src with
  | 58 :: src' =>
      match src' with
      | 58 :: _ => body src'
      | _ => Some (0, dst)
      end
  | _ => body src
  end.

(** [inet_pton]: the return value, [dst] afterwards and the value given to [errno], if any. *)
Definition inet_pton (af : Z) (src : cstring) (dst : list Z) : option (Z * list Z * option Z) :=
  if af =? AF_INET then r ← inet_pton4 src dst 0; Some (r, None)
  else if af =? AF_INET6 then r ← inet_pton6 src dst; Some (r, None)
  else Some (-1, dst, Some EAFNOSUPPORT).

End Pton.

(** * inet_ntop.c *)

Module Ntop.

Definition IN6ADDRSZ : nat := 16.
Definition NWORDS : nat := 8.

(** [sprintf (_, "%u.%u.%u.%u", src[0], src[1], src[2], src[3])] *)
Definition quad_text (a b c d : Z) : cstring :=
  print_u 10 a ++ [46] ++ print_u 10 b ++ [46] ++ print_u 10 c ++ [46] ++ print_u 10 d.

(** [inet_ntop4 (src, dst + off, size)]: [inl] the value given to [errno] when it returns NULL,
    [inr] the buffer afterwards when it returns [dst].  [tmp] has [sizeof "255.255.255.255"]
    bytes. *)
Definition inet_ntop4 (src : list Z) (dst : list Z) (off : nat) (size : Z)
    : option (Z + list Z) :=
  a ← src !! 0%nat; b ← src !! 1%nat; c ← src !! 2%nat; d ← src !! 3%nat;
  tmp ← put_text (replicate 16 0) 0 (quad_text a b c d);
  let text := cstring_at tmp 0 in
  if Z.of_nat (length text) >? size then Some (inl ENOSPC)
  else dst' ← put_text dst off text; Some (inr dst').

(** [for (i = 0; i < IN6ADDRSZ; i++) words[i / 2] |= src[i] << ((1 - (i % 2)) << 3);] *)
Fixpoint fill_words (idx : list nat) (src words : list Z) : option (list Z) :=
  match idx with
  | [] => Some words
  | i :: idx' =>
      x ← src !! i;
      w ← words !! (i / 2)%nat;
      let sh := Z.shiftl (1 - Z.of_nat i mod 2) 3 in
      words' ← store words (i / 2) (Z.lor w (Z.shiftl x sh));
      fill_words idx' src words'
  end.

Definition words_of (src : list Z) : option (list Z) :=
  fill_words (seq 0 IN6ADDRSZ) src (replicate NWORDS 0).

Record run := Run { base : Z; len : Z }.

(** The loop that looks for the longest run of zero words: [best] and [cur] after the word
    [w] at index [i]. *)
Definition run_step (i w : Z) (best cur : run) : run * run :=
  if w =? 0 then
    if base cur =? -1 then (best, Run i 1) else (best, Run (base cur) (len cur + 1))
  else if negb (base cur =? -1) then
    (if (base best =? -1) || (len cur >? len best) then cur else best, Run (-1) (len cur))
  else (best, cur).

Fixpoint run_loop (i : Z) (words : list Z) (best cur : run) : run * run :=
  match words with
  | [] => (best, cur)
  | w :: ws => let '(b, c) := run_step i w best cur in run_loop (i + 1) ws b c
  end.

(** [best.len] and [cur.len] are uninitialised in C until the matching [base] is set; the model
    starts them at 0 and, like the code, never reads them before. *)
Definition best_run (words : list Z) : run :=
  let '(best, cur) := run_loop 0 words (Run (-1) 0) (Run (-1) 0) in
  let best := if negb (base cur =? -1) && ((base best =? -1) || (len cur >? len best))
              then cur else best in
  if negb (base best =? -1) && (len best <? 2) then Run (-1) (len best) else best.

Definition in_run (best : run) (i : Z) : bool :=
  negb (base best =? -1) && (base best <=? i) && (i <? base best + len best).

Definition encapsulated_ipv4 (best : run) (i w5 : Z) : bool :=
  (i =? 6) && (base best =? 0) &&
  ((len best =? 6) || ((len best =? 5) && (w5 =? 65535))).

(** The formatting loop; the state is [tmp] and the index [tp] into it.  [None] inside
    [Return] stands for the NULL that [inet_ntop6] hands on from [inet_ntop4]. *)
Fixpoint format_loop (idx : list nat) (src words : list Z) (best : run)
    (tmp : list Z) (tp : nat) : option (flow (list Z * nat) Z) :=
  match idx with
  | [] => Some (Next (tmp, tp))
  | i :: idx' =>
      if in_run best (Z.of_nat i) then
        if Z.of_nat i =? base best
        then tmp' ← store tmp tp 58; format_loop idx' src words best tmp' (S tp)
        else format_loop idx' src words best tmp tp
      else
        r ← (if negb (i =? 0)%nat then tmp' ← store tmp tp 58; Some (tmp', S tp)
             else Some (tmp, tp));
        let '(tmp1, tp1) := r in
        w5 ← words !! 5%nat;
        if encapsulated_ipv4 best (Z.of_nat i) w5 then
          q ← inet_ntop4 (drop 12 src) tmp1 tp1 (46 - Z.of_nat tp1);
          match q with
          | inl e => Some (Return e)
          | inr tmp2 =>
              Some (Break (tmp2, (tp1 + length (cstring_at tmp2 tp1))%nat))
          end
        else
          w ← words !! i;
          tmp2 ← put_text tmp1 tp1 (print_u 16 w);
          format_loop idx' src words best tmp2 (tp1 + length (cstring_at tmp2 tp1))%nat
  end.

(** [inet_ntop6 (src, dst, size)].  [tmp] has
    [sizeof "ffff:ffff:ffff:ffff:ffff:ffff:255.255.255.255"] bytes. *)
Definition inet_ntop6 (src dst : list Z) (size : Z) : option (Z + list Z) :=
  words ← words_of src;
  let best := best_run words in
  r ← format_loop (seq 0 NWORDS) src words best (replicate 46 0) 0;
  match r with
  | Return e => Some (inl e)
  | Next (tmp, tp) | Break (tmp, tp) =>
      t ← (if negb (base best =? -1) && (base best + len best =? Z.of_nat NWORDS)
           then tmp' ← store tmp tp 58; Some (tmp', S tp)
           else Some (tmp, tp));
      let '(tmp, tp) := t in
      tmp ← store tmp tp 0;
      let tp := S tp in
      if Z.of_nat tp >? size then Some (inl ENOSPC)
      else dst' ← put_text dst 0 (cstring_at tmp 0); Some (inr dst')
  end.

Definition inet_ntop (af : Z) (src dst : list Z) (size : Z) : option (Z + list Z) :=
  if af =? AF_INET then inet_ntop4 src dst 0 size
  else if af =? AF_INET6 then inet_ntop6 src dst size
  else Some (inl EAFNOSUPPORT).

End Ntop.

(** * inet_aton.c *)

Module Aton.

(** The local variables of [inet_aton]; [acc] and [addr] are [u_long], 64 bits wide. *)
Record aton_state := AS { dots : Z; acc : Z; addr : Z }.

(** The cases ['.'] and ['\0'], which share the code after the fall-through. *)
Definition aton_octet (dots' : Z) (s : aton_state) : flow aton_state Z :=
  if acc s >? 255 then Return 0
  else Next (AS dots' 0 (Z.lor (u64 (Z.shiftl (addr s) 8)) (acc s))).

Definition aton_step (cc : Z) (s : aton_state) : flow aton_state Z :=
  if isdigit cc then Next (AS (dots s) (u64 (acc s * 10 + (cc - 48))) (addr s))
  else if cc =? 46 then
    let dots' := dots s + 1 in
    if dots' >? 3 then Return 0 else aton_octet dots' s
  else if cc =? 0 then aton_octet (dots s) s
  else Return 0.

(** The [do ... while ( *cp++)] loop: the NUL is processed too, then the loop ends. *)
Fixpoint aton_loop (cp : cstring) (s : aton_state) : flow aton_state Z :=
  match cp with
  | [] => aton_step 0 s
  | cc :: cp' =>
      match aton_step cc s with
      | Next s' => aton_loop cp' s'
      | r => r
      end
  end.

(** [inet_aton]: [None] when it returns 0, otherwise the value of [addr] that is stored with
    [htonl], that is, whose bytes in network order become [ap->s_addr]. *)
Definition inet_aton (cp : cstring) : option Z :=
  match aton_loop cp (AS 0 0 0) with
  | Return _ => None
  | Next s | Break s =>
      Some (if dots s <? 3 then u64 (Z.shiftl (addr s) (8 * (3 - dots s))) else addr s)
  end.

(** The four bytes of [htonl (addr)] in memory, most significant first. *)
Definition be32_bytes (a : Z) : list Z :=
  [u8 (Z.shiftr a 24); u8 (Z.shiftr a 16); u8 (Z.shiftr a 8); u8 a].

End Aton.

(** * inet_pton_ipv4.c and inet_ntop_ipv4.c *)

Module Ipv4Only.

Definition inet_pton (family : Z) (strptr : cstring) (dst : list Z)
    : option (Z * list Z * option Z) :=
  if family =? AF_INET then
    match Aton.inet_aton strptr with
    | Some a => dst' ← memcpy dst 0 (Aton.be32_bytes a); Some (1, dst', None)
    | None => Some (0, dst, None)
    end
  else Some (-1, dst, Some EAFNOSUPPORT).

Definition inet_ntop (family : Z) (p dst : list Z) (len : Z) : option (Z + list Z) :=
  if family =? AF_INET then
    a ← p !! 0%nat; b ← p !! 1%nat; c ← p !! 2%nat; d ← p !! 3%nat;
    let temp := snprintf_text INET_ADDRSTRLEN (Ntop.quad_text a b c d) in
    if Z.of_nat (length temp) >=? len then Some (inl ENOSPC)
    else dst' ← put_text dst 0 temp; Some (inr dst')
  else Some (inl EAFNOSUPPORT).

End Ipv4Only.
