(* ===== verification/PtonFacts.v ===== *)
(** Correctness of [inet_pton4] (src/unpv13e/libfree/inet_pton.c): it accepts exactly the dotted
    quads, stores their four octets, never leaves its buffers and does not touch [dst] when it
    fails; and the texts that [inet_ntop.c] produces. *)

From S2P Require Import Prelude CText InetAddr.
Import Pton.

(** * Specification: dotted quads *)

Definition field_ok (f : cstring) : Prop :=
  f <> [] /\ Forall (fun c => isdigit c = true) f /\ dec_value f <= 255.

Definition dotted_quad (s : cstring) (q : list Z) : Prop :=
  exists a b c d,
    s = a ++ 46 :: b ++ 46 :: c ++ 46 :: d /\
    Forall field_ok [a; b; c; d] /\
    q = [dec_value a; dec_value b; dec_value c; dec_value d].

(** * Values of digit strings *)

Lemma value_of_snoc base ds d : value_of base (ds ++ [d]) = value_of base ds * base + d.
Proof. unfold value_of. by rewrite foldl_app. Qed.

Lemma dec_value_snoc s c : dec_value (s ++ [c]) = dec_value s * 10 + (c - 48).
Proof. unfold dec_value. rewrite fmap_app. apply value_of_snoc. Qed.

Lemma isdigit_range c : isdigit c = true <-> 48 <= c <= 57.
Proof. unfold isdigit. lia. Qed.

Lemma foldl_dec_nonneg s v :
  0 <= v -> Forall (fun c => isdigit c = true) s ->
  v <= foldl (fun a d => a * 10 + d) v ((fun c => c - 48) <$> s).
Proof.
  intros Hv Hs. revert v Hv. induction Hs as [|c s Hc Hs IH]; intros v Hv; cbn; [lia|].
  apply isdigit_range in Hc. etrans; [|apply IH]; lia.
Qed.

Lemma dec_value_nonneg s : Forall (fun c => isdigit c = true) s -> 0 <= dec_value s.
Proof. intros H. by apply (foldl_dec_nonneg s 0). Qed.

Lemma strchr_digits c :
  strchr digits c = if isdigit c then Some (Z.to_nat (c - 48)) else None.
Proof.
  destruct (isdigit c) eqn:E.
  - apply isdigit_range in E.
    assert (c = 48 \/ c = 49 \/ c = 50 \/ c = 51 \/ c = 52 \/ c = 53 \/ c = 54 \/ c = 55 \/
            c = 56 \/ c = 57) as H by lia.
    by destruct_or! H; subst.
  - apply strchr_None. intros H.
    change digits with [48; 49; 50; 51; 52; 53; 54; 55; 56; 57] in H.
    rewrite !elem_of_cons, elem_of_nil in H. unfold isdigit in E. lia.
Qed.

Lemma store_ok {A} (l : list A) i v : (i < length l)%nat -> store l i v = Some (<[i := v]> l).
Proof. intros H. unfold store. by rewrite decide_True. Qed.

Lemma wrap_small w z : 0 <= z < 2 ^ w -> wrap w z = z.
Proof. intros H. by apply Z.mod_small. Qed.

(** * The loop invariant

    After the prefix [p] of the source: complete fields [fs], the digits [cur] of the field
    being read. *)

Definition pton4_inv (p : cstring) (s : pton4_state) : Prop :=
  exists (fs : list cstring) (cur : cstring),
    p = concat ((fun f => f ++ [46]) <$> fs) ++ cur /\
    Forall field_ok fs /\ Forall (fun c => isdigit c = true) cur /\ dec_value cur <= 255 /\
    length (tmp4 s) = 4%nat /\ tp4 s = length fs /\
    take (tp4 s) (tmp4 s) = dec_value <$> fs /\
    tmp4 s !! tp4 s = Some (dec_value cur) /\
    saw_digit s = negb (bool_decide (cur = [])) /\
    octets s = Z.of_nat (length fs) + (if saw_digit s then 1 else 0).

Lemma pton4_inv_init : pton4_inv [] pton4_init.
Proof. exists [], []. repeat split; try done; constructor. Qed.

(** What a single iteration does, with the table lookup and the checks resolved. *)
Lemma pton4_step_digit tmp tp saw oct c v :
  isdigit c = true -> tmp !! tp = Some v -> 0 <= v <= 255 ->
  pton4_step c (P4 tmp tp saw oct) =
    if v * 10 + (c - 48) >? 255 then Some (Return 0)
    else if negb saw && (oct + 1 >? 4) then Some (Return 0)
    else Some (Next (P4 (<[tp := v * 10 + (c - 48)]> tmp) tp true
                        (if saw then oct else oct + 1))).
Proof.
  intros Hc Ht Hv. apply isdigit_range in Hc as Hr.
  unfold pton4_step. rewrite strchr_digits, Hc. cbn. rewrite Ht. cbn.
  rewrite Z2Nat.id by lia. rewrite (wrap_small 32) by lia.
  destruct (_ >? 255) eqn:E; [done|]. rewrite (wrap_small 8) by lia.
  rewrite store_ok by (by eapply lookup_lt_Some). cbn.
  destruct saw; cbn; [done|]. by destruct (_ >? 4).
Qed.

Lemma pton4_step_inv p s ch :
  pton4_inv p s ->
  pton4_step ch s = Some (Return 0) \/
  exists s', pton4_step ch s = Some (Next s') /\ pton4_inv (p ++ [ch]) s'.
Proof.
  destruct s as [tmp tp saw oct].
  intros (fs & cur & -> & Hfs & Hcur & Hv & Hl & Htp & Htk & Hlk & Hsaw & Hoct). cbn in *.
  pose proof (dec_value_nonneg _ Hcur) as Hnn.
  destruct (isdigit ch) eqn:Ed.
  - rewrite (pton4_step_digit _ _ _ _ _ (dec_value cur)) by (done || lia).
    destruct (_ >? 255) eqn:E1; [by left|].
    destruct (_ && _) eqn:E2; [by left|]. right. eexists. split; [done|].
    exists fs, (cur ++ [ch]). cbn. rewrite dec_value_snoc, length_insert.
    repeat split; try done.
    + by rewrite app_assoc.
    + apply Forall_app. auto.
    + lia.
    + by rewrite take_insert_ge by lia.
    + apply list_lookup_insert_eq. by eapply lookup_lt_Some.
    + rewrite bool_decide_false; [done|]. by destruct cur.
    + destruct saw; lia.
  - unfold pton4_step. rewrite strchr_digits, Ed. cbn.
    destruct (_ && _) eqn:E1; [|by left]. apply andb_true_iff in E1 as [->%Z.eqb_eq ->].
    symmetry in Hsaw. apply negb_true_iff, bool_decide_eq_false in Hsaw.
    destruct (oct =? 4) eqn:E2; [by left|]. right.
    apply lookup_lt_Some in Hlk as Hlt.
    rewrite store_ok by lia. cbn.
    eexists. split; [done|]. exists (fs ++ [cur]), []. cbn.
    rewrite length_insert, length_app. cbn. repeat split; try done.
    + rewrite fmap_app, concat_app. cbn. by rewrite !app_nil_r, <- !app_assoc.
    + apply Forall_app. split; [done|]. by repeat constructor.
    + lia.
    + rewrite take_insert_ge by lia. erewrite take_S_r by done. rewrite Htk, fmap_app. done.
    + apply list_lookup_insert_eq. lia.
    + lia.
Qed.

Lemma pton4_loop_inv src p s :
  pton4_inv p s ->
  pton4_loop src s = Some (Return 0) \/
  exists s', pton4_loop src s = Some (Next s') /\ pton4_inv (p ++ src) s'.
Proof.
  revert p s. induction src as [|ch src IH]; intros p s Hs; cbn.
  - right. exists s. by rewrite app_nil_r.
  - destruct (pton4_step_inv p s ch Hs) as [->|(s' & -> & Hs')]; cbn; [by left|].
    destruct (IH _ _ Hs') as [->|(s2 & -> & H2)]; [by left|].
    right. exists s2. by rewrite <- app_assoc in H2.
Qed.

(** A final state with four octets holds a dotted quad. *)
Lemma pton4_inv_quad p s :
  pton4_inv p s -> octets s = 4 -> dotted_quad p (tmp4 s).
Proof.
  destruct s as [tmp tp saw oct].
  intros (fs & cur & -> & Hfs & Hcur & Hv & Hl & Htp & Htk & Hlk & Hsaw & Hoct) H4. cbn in *.
  apply lookup_lt_Some in Hlk as Hlt. destruct saw; [|lia].
  symmetry in Hsaw. apply negb_true_iff, bool_decide_eq_false in Hsaw.
  assert (length fs = 3%nat) as H3 by lia. rewrite H3 in Htp. subst tp.
  destruct fs as [|a [|b [|c [|]]]]; try done.
  destruct tmp as [|t0 [|t1 [|t2 [|t3 [|]]]]]; try done. cbn in *.
  injection Htk as -> -> ->. injection Hlk as ->.
  exists a, b, c, cur. split_and!.
  - cbn. by rewrite app_nil_r, <- !app_assoc.
  - rewrite !Forall_cons in Hfs |- *. destruct Hfs as (? & ? & ? & _).
    assert (field_ok cur) by done. auto using Forall_nil_2.
  - done.
Qed.

(** * Completeness: a field is consumed as a block *)

Lemma pton4_loop_digits ds rest tmp tp oct v :
  Forall (fun c => isdigit c = true) ds -> tmp !! tp = Some v -> 0 <= v ->
  foldl (fun a d => a * 10 + d) v ((fun c => c - 48) <$> ds) <= 255 ->
  pton4_loop (ds ++ rest) (P4 tmp tp true oct) =
  pton4_loop rest
    (P4 (<[tp := foldl (fun a d => a * 10 + d) v ((fun c => c - 48) <$> ds)]> tmp) tp true oct).
Proof.
  intros Hds. revert tmp v. induction Hds as [|c ds Hc Hds IH]; intros tmp v Ht Hv Hle; cbn in *.
  - by rewrite list_insert_id.
  - apply isdigit_range in Hc as Hr.
    pose proof (foldl_dec_nonneg ds (v * 10 + (c - 48)) ltac:(lia) Hds) as Hmono.
    rewrite (pton4_step_digit _ _ _ _ _ v) by (done || lia).
    destruct (_ >? 255) eqn:E; [lia|]. cbn.
    rewrite (IH _ (v * 10 + (c - 48))); [|by apply list_lookup_insert_eq, (lookup_lt_Some _ _ v)|lia|done].
    by rewrite list_insert_insert_eq.
Qed.

Lemma pton4_loop_field f rest tmp tp oct :
  field_ok f -> tmp !! tp = Some 0 -> oct < 4 ->
  pton4_loop (f ++ rest) (P4 tmp tp false oct) =
  pton4_loop rest (P4 (<[tp := dec_value f]> tmp) tp true (oct + 1)).
Proof.
  intros (Hne & Hd & Hv) Ht Ho. destruct f as [|c f]; [done|]. inv Hd. cbn.
  apply isdigit_range in H1 as Hr.
  unfold dec_value, value_of in *. cbn in Hv |- *.
  pose proof (foldl_dec_nonneg f (c - 48) ltac:(lia) H2) as Hmono.
  rewrite (pton4_step_digit _ _ _ _ _ 0) by (done || lia).
  destruct (_ >? 255) eqn:E; [lia|]. destruct (_ && _) eqn:E2; [lia|]. cbn.
  rewrite (pton4_loop_digits f rest _ _ _ (c - 48)); [|done| |lia|done].
  - by rewrite list_insert_insert_eq.
  - by apply list_lookup_insert_eq, (lookup_lt_Some _ _ 0).
Qed.

Lemma pton4_loop_dot rest tmp tp oct :
  (S tp < length tmp)%nat -> oct <> 4 ->
  pton4_loop (46 :: rest) (P4 tmp tp true oct) =
  pton4_loop rest (P4 (<[S tp := 0]> tmp) (S tp) false oct).
Proof.
  intros Hl Ho. cbn. unfold pton4_step. rewrite strchr_digits. cbn.
  destruct (Z.eqb_spec oct 4); [done|]. by rewrite store_ok.
Qed.

Lemma pton4_loop_quad s q :
  dotted_quad s q -> pton4_loop s pton4_init = Some (Next (P4 q 3 true 4)).
Proof.
  intros (a & b & c & d & -> & Hok & ->).
  rewrite !Forall_cons in Hok. destruct Hok as (Ha & Hb & Hc & Hd & _).
  unfold pton4_init.
  rewrite pton4_loop_field by (done || lia). rewrite pton4_loop_dot by (cbn; lia).
  rewrite pton4_loop_field by (done || lia). rewrite pton4_loop_dot by (cbn; lia).
  rewrite pton4_loop_field by (done || lia). rewrite pton4_loop_dot by (cbn; lia).
  rewrite <- (app_nil_r d) at 1.
  rewrite pton4_loop_field by (done || lia). done.
Qed.

Lemma dotted_quad_length s q : dotted_quad s q -> length q = 4%nat.
Proof. by intros (? & ? & ? & ? & ? & ? & ->). Qed.

Lemma inet_pton4_accept s q dst off :
  dotted_quad s q -> (off + 4 <= length dst)%nat ->
  inet_pton4 s dst off = Some (1, take off dst ++ q ++ drop (off + 4) dst).
Proof.
  intros Hq Hl. unfold inet_pton4. rewrite (pton4_loop_quad s q Hq). cbn.
  pose proof (dotted_quad_length s q Hq) as L.
  by rewrite memcpy_ok, L by (rewrite L; done).
Qed.

Lemma inet_pton4_reject s dst off :
  (forall q, ~ dotted_quad s q) -> inet_pton4 s dst off = Some (0, dst).
Proof.
  intros Hn. unfold inet_pton4.
  destruct (pton4_loop_inv s [] pton4_init pton4_inv_init) as [->|(s' & -> & Hs')]; cbn; [done|].
  destruct (Z.ltb_spec (octets s') 4); [done|]. exfalso. apply (Hn (tmp4 s')).
  apply pton4_inv_quad; [done|].
  destruct Hs' as (fs & cur & _ & _ & _ & _ & Hl & Htp & _ & Hlk & _ & Hoct).
  apply lookup_lt_Some in Hlk. destruct (saw_digit s'); lia.
Qed.

(** * Formatting

    Facts about [inet_ntop.c]: memory safety of the formatting code, the run of zero words that
    [::] stands for, and the text that [inet_ntop4] and [inet_ntop6] produce. *)

Import Pton Ntop.

Lemma quad_text_nul_free a b c d : nul_free (quad_text a b c d).
Proof.
  unfold quad_text. rewrite !Forall_app. repeat split;
    first [by apply digit_char_nonzero | by repeat constructor].
Qed.

Lemma quad_text_length a b c d :
  bytes_ok [a; b; c; d] -> (length (quad_text a b c d) <= 15)%nat.
Proof.
  rewrite !Forall_cons. intros (Ha & Hb & Hc & Hd & _). unfold quad_text. rewrite !length_app.
  pose proof (print_u_length 10 a 2 ltac:(lia) ltac:(cbn; lia)).
  pose proof (print_u_length 10 b 2 ltac:(lia) ltac:(cbn; lia)).
  pose proof (print_u_length 10 c 2 ltac:(lia) ltac:(cbn; lia)).
  pose proof (print_u_length 10 d 2 ltac:(lia) ltac:(cbn; lia)).
  change (length [46]) with 1%nat. lia.
Qed.

Lemma print_u_field n : 0 <= n < 256 -> field_ok (print_u 10 n).
Proof.
  intros H. split_and!; [apply print_u_nonempty|apply print_u_dec_digits|].
  rewrite dec_value_print_u; lia.
Qed.

Lemma quad_text_dotted a b c d :
  bytes_ok [a; b; c; d] -> dotted_quad (quad_text a b c d) [a; b; c; d].
Proof.
  rewrite !Forall_cons. intros (Ha & Hb & Hc & Hd & _).
  exists (print_u 10 a), (print_u 10 b), (print_u 10 c), (print_u 10 d). split_and!.
  - unfold quad_text. done.
  - repeat constructor; by apply print_u_field.
  - by rewrite !dec_value_print_u by lia.
Qed.

(** * inet_ntop4 *)

(** With four bytes of input the local buffer never overflows, and what remains is the size
    check and the copy. *)
Lemma inet_ntop4_spec a b c d rest dst off size :
  bytes_ok [a; b; c; d] ->
  inet_ntop4 (a :: b :: c :: d :: rest) dst off size =
    if Z.of_nat (length (quad_text a b c d)) >? size then Some (inl ENOSPC)
    else inr <$> put_text dst off (quad_text a b c d).
Proof.
  intros H. unfold inet_ntop4. cbn [lookup list_lookup mbind option_bind].
  pose proof (quad_text_length a b c d H) as L.
  rewrite put_text_ok by (rewrite length_replicate; lia). cbn [mbind option_bind].
  rewrite (cstring_at_text [] (quad_text a b c d)) by (apply quad_text_nul_free || done).
  destruct (_ >? size); [done|]. by destruct (put_text dst off _).
Qed.

(** * The run of zero words *)

(** [best_run] depends only on which words are zero. *)
Definition norm_word (w : Z) : Z := if w =? 0 then 0 else 1.

Lemma run_loop_norm words i best cur :
  run_loop i (norm_word <$> words) best cur = run_loop i words best cur.
Proof.
  revert i best cur. induction words as [|w ws IH]; intros i best cur; cbn; [done|].
  assert (run_step i (norm_word w) best cur = run_step i w best cur) as ->.
  { unfold run_step, norm_word. by destruct (w =? 0). }
  destruct (run_step i w best cur). apply IH.
Qed.

Lemma best_run_norm words : best_run (norm_word <$> words) = best_run words.
Proof. unfold best_run. by rewrite run_loop_norm. Qed.

(** All 256 patterns of zero words. *)
Fixpoint patterns (n : nat) : list (list Z) :=
  match n with
  | O => [[]]
  | S n' => ((cons 0) <$> patterns n') ++ ((cons 1) <$> patterns n')
  end.

Lemma patterns_complete words :
  norm_word <$> words ∈ patterns (length words).
Proof.
  induction words as [|w ws IH]; cbn; [set_solver|].
  rewrite elem_of_app, !list_elem_of_fmap. unfold norm_word at 1 3.
  destruct (w =? 0); [left|right]; eauto.
Qed.

(** Words [b .. b + l - 1] exist and are zero. *)
Definition zero_run (words : list Z) (b l : nat) : bool :=
  (b + l <=? length words)%nat && forallb (fun w => w =? 0) (take l (drop b words)).

Lemma zero_run_norm words b l : zero_run (norm_word <$> words) b l = zero_run words b l.
Proof.
  unfold zero_run. rewrite length_fmap, <- fmap_drop, <- fmap_take. f_equal.
  induction (take l (drop b words)) as [|w ws IH]; cbn; [done|].
  rewrite IH. f_equal. unfold norm_word. by destruct (w =? 0) eqn:E.
Qed.

Definition best_run_ok (words : list Z) : bool :=
  let r := best_run words in
  let runs := b ← seq 0 9; l ← seq 2 8; [(b, l)] in
  if base r =? -1 then
    forallb (fun '(b, l) => negb (zero_run words b l)) runs
  else
    (0 <=? base r) && (2 <=? len r) && (base r + len r <=? 8) &&
    zero_run words (Z.to_nat (base r)) (Z.to_nat (len r)) &&
    forallb (fun '(b, l) => negb (zero_run words b l) ||
               (Z.of_nat l <? len r) ||
               ((Z.of_nat l =? len r) && (base r <=? Z.of_nat b))) runs.

Lemma best_run_ok_all : forallb best_run_ok (patterns 8) = true.
Proof. vm_compute. reflexivity. Qed.

Lemma best_run_ok_words words : length words = 8%nat -> best_run_ok words = true.
Proof.
  intros H. pose proof best_run_ok_all as Hall.
  rewrite forallb_forall in Hall. specialize (Hall (norm_word <$> words)).
  rewrite <- Hall.
  - unfold best_run_ok. rewrite best_run_norm.
    destruct (base (best_run words) =? -1).
    + apply forallb_pointwise. intros [b l]. by rewrite zero_run_norm.
    + rewrite zero_run_norm. f_equal. apply forallb_pointwise. intros [b l]. by rewrite zero_run_norm.
  - apply list_elem_of_In. rewrite <- H. apply patterns_complete.
Qed.

Lemma zero_run_split words b l :
  zero_run words b l = true ->
  exists pre post, words = pre ++ replicate l 0 ++ post /\ length pre = b.
Proof.
  unfold zero_run. intros [Hl Hz]%andb_true_iff. apply Nat.leb_le in Hl.
  exists (take b words), (drop (b + l) words). split; [|rewrite length_take; lia].
  rewrite <- (take_drop b words) at 1. f_equal.
  rewrite <- (take_drop l (drop b words)) at 1. rewrite drop_drop. f_equal.
  assert (length (take l (drop b words)) = l) as Hlen by (rewrite length_take, length_drop; lia).
  apply (list_eq_same_length _ _ l); [by rewrite length_replicate|done|].
  intros i x y Hi Hx Hy. apply lookup_replicate in Hy as [-> _].
  rewrite forallb_forall in Hz. apply Z.eqb_eq, Hz.
  apply list_elem_of_In, list_elem_of_lookup. eauto.
Qed.

(** The two shapes of the words that [inet_ntop6] formats. *)
Lemma best_run_cases words :
  length words = 8%nat ->
  base (best_run words) = -1 \/
  exists pre l post,
    words = pre ++ replicate l 0 ++ post /\ (2 <= l)%nat /\
    base (best_run words) = Z.of_nat (length pre) /\ len (best_run words) = Z.of_nat l.
Proof.
  intros H. pose proof (best_run_ok_words words H) as Hok. unfold best_run_ok in Hok.
  destruct (Z.eqb_spec (base (best_run words)) (-1)) as [|Hb]; [by left|right].
  rewrite !andb_true_iff in Hok. destruct Hok as [[[[H0 H1] H2] H3] _].
  apply zero_run_split in H3 as (pre & post & Hw & Hp).
  exists pre, (Z.to_nat (len (best_run words))), post. split_and!; [done|lia|lia|lia].
Qed.
