(* ===== verification/Inet6Facts.v ===== *)
(** IPv6 text conversion (src/unpv13e/libfree): the text that [inet_ntop6] produces, how
    [inet_pton6] reads it back, and the memory safety of both. *)

From S2P Require Import Prelude CText InetAddr PtonFacts.
Import Pton Ntop.

(** * Words and bytes *)

Definition word_bytes (w : Z) : list Z := [w / 256; w mod 256].
Definition words_bytes (ws : list Z) : list Z := w ← ws; word_bytes w.

Abbreviation words_ok ws := (Forall (fun w => 0 <= w < 65536) ws).

Lemma words_bytes_cons w ws : words_bytes (w :: ws) = w / 256 :: w mod 256 :: words_bytes ws.
Proof. done. Qed.

Lemma length_words_bytes ws : length (words_bytes ws) = (2 * length ws)%nat.
Proof. induction ws as [|w ws IH]; [done|]. rewrite words_bytes_cons. cbn [length]. lia. Qed.

Lemma words_bytes_app a b : words_bytes (a ++ b) = words_bytes a ++ words_bytes b.
Proof. induction a as [|w a IH]; [done|]. cbn [app]. rewrite !words_bytes_cons. by rewrite IH. Qed.

Lemma words_bytes_zeros n : words_bytes (replicate n 0) = replicate (2 * n) 0.
Proof.
  induction n as [|n IH]; [done|]. replace (2 * S n)%nat with (S (S (2 * n))) by lia.
  cbn [replicate]. rewrite words_bytes_cons. by rewrite IH.
Qed.

Lemma land_shift_low x y k : 0 <= k -> 0 <= y < 2 ^ k -> Z.land (Z.shiftl x k) y = 0.
Proof.
  intros Hk Hy. apply Z.bits_inj'. intros n Hn. rewrite Z.land_spec, Z.bits_0.
  destruct (Z.ltb_spec n k).
  - by rewrite Z.shiftl_spec_low.
  - assert (Z.testbit y n = false) as ->; [|by rewrite andb_false_r].
    destruct (decide (y = 0)) as [->|]; [by rewrite Z.bits_0|].
    apply Z.bits_above_log2; [lia|].
    eapply Z.lt_le_trans; [|done]. by apply Z.log2_lt_pow2; lia.
Qed.

Lemma lor_shift x y k : 0 <= k -> 0 <= y < 2 ^ k -> Z.lor (Z.shiftl x k) y = x * 2 ^ k + y.
Proof.
  intros Hk Hy. rewrite <- Z.shiftl_mul_pow2 by done.
  symmetry. by apply Z.add_nocarry_lor, land_shift_low.
Qed.

Lemma word_of_bytes x y :
  0 <= x < 256 -> 0 <= y < 256 ->
  Z.lor (Z.lor 0 (Z.shiftl x (Z.shiftl 1 3))) (Z.shiftl y (Z.shiftl 0 3)) = x * 256 + y.
Proof.
  intros Hx Hy. change (Z.shiftl 0 3) with 0. change (Z.shiftl 1 3) with 8.
  rewrite Z.lor_0_l, Z.shiftl_0_r. by apply (lor_shift x y 8).
Qed.

Lemma word_bytes_of x y :
  0 <= x < 256 -> 0 <= y < 256 -> (x * 256 + y) / 256 = x /\ (x * 256 + y) mod 256 = y.
Proof.
  intros Hx Hy. rewrite Z.add_comm. split.
  - rewrite Z.div_add by lia. rewrite Z.div_small; lia.
  - rewrite Z.mod_add by lia. by apply Z.mod_small.
Qed.

(** [fill_words] packs the 16 bytes into 8 words. *)
Lemma words_of_spec src :
  length src = 16%nat -> bytes_ok src ->
  exists ws, words_of src = Some ws /\ words_bytes ws = src /\ words_ok ws /\ length ws = 8%nat.
Proof.
  intros Hl Hb.
  do 16 (destruct src as [|? src]; [done|]). destruct src; [|done]. clear Hl.
  rewrite !Forall_cons in Hb. destruct_and! Hb.
  eexists. split; [cbv -[Z.shiftl Z.lor]; reflexivity|].
  rewrite !word_of_bytes by done. split_and!.
  - rewrite !words_bytes_cons.
    repeat match goal with |- context [(?x * 256 + ?y) / 256] =>
      destruct (word_bytes_of x y) as [-> ->]; [done..|] end.
    done.
  - repeat constructor; lia.
  - done.
Qed.

(** * The text produced by the formatting loop *)

(** [tmp] holds the text [t] and [tp] points behind it. *)
Definition rep (tmp : list Z) (t : cstring) : Prop :=
  length tmp = 46%nat /\ exists rest, tmp = t ++ rest.

Lemma rep_length tmp t : rep tmp t -> (length t <= 46)%nat.
Proof. intros [H [rest ->]]. rewrite length_app in H. lia. Qed.

Lemma store_rep tmp t c :
  rep tmp t -> (length t < 46)%nat ->
  exists tmp', store tmp (length t) c = Some tmp' /\ rep tmp' (t ++ [c]).
Proof.
  intros [Hl [rest ->]] Ht. rewrite length_app in Hl.
  rewrite store_ok by (rewrite length_app; lia). eexists. split; [done|]. split.
  - rewrite length_insert, length_app. lia.
  - destruct rest as [|x rest]; [cbn in Hl; lia|]. exists rest.
    rewrite <- (Nat.add_0_r (length t)) at 1. rewrite insert_app_r. cbn. by rewrite <- app_assoc.
Qed.

Lemma put_text_rep tmp t u :
  rep tmp t -> nul_free u -> (length t + length u < 46)%nat ->
  exists tmp', put_text tmp (length t) u = Some tmp' /\ rep tmp' (t ++ u) /\
    cstring_at tmp' (length t) = u.
Proof.
  intros [Hl [rest ->]] Hu Ht. rewrite length_app in Hl.
  rewrite put_text_ok by (rewrite length_app; lia). rewrite take_app_length.
  eexists. split; [done|]. split; [split|].
  - rewrite !length_app. cbn [length]. rewrite length_drop, length_app. lia.
  - eexists. by rewrite <- app_assoc.
  - by apply cstring_at_text.
Qed.

(** The text of the word at index [i], with the separator in front of it. *)
Definition piece (i : nat) (w : Z) : cstring :=
  (if (i =? 0)%nat then [] else [58]) ++ print_u 16 w.

Definition pieces (i : nat) (ws : list Z) : cstring :=
  concat (imap (fun k w => piece (i + k) w) ws).

Lemma pieces_cons i w ws : pieces i (w :: ws) = piece i w ++ pieces (S i) ws.
Proof.
  unfold pieces. cbn. rewrite Nat.add_0_r. do 2 f_equal. apply imap_ext.
  intros k x _. cbn. by rewrite Nat.add_succ_r.
Qed.

Lemma piece_length i w : 0 <= w < 65536 -> (length (piece i w) <= 5)%nat.
Proof.
  intros H. unfold piece. rewrite length_app.
  pose proof (print_u_length 16 w 3 ltac:(lia) ltac:(cbn; lia)).
  destruct (i =? 0)%nat; cbn [length]; lia.
Qed.

Lemma pieces_length i ws : words_ok ws -> (length (pieces i ws) <= 5 * length ws)%nat.
Proof.
  intros H. revert i. induction H as [|w ws Hw Hws IH]; intros i; [done|].
  rewrite pieces_cons, length_app. pose proof (piece_length i w Hw). specialize (IH (S i)).
  cbn [length]. lia.
Qed.

(** One iteration on a word outside the run. *)
Lemma format_word i idx src words best tmp t w w5 :
  rep tmp t -> in_run best (Z.of_nat i) = false ->
  words !! 5%nat = Some w5 -> encapsulated_ipv4 best (Z.of_nat i) w5 = false ->
  words !! i = Some w -> 0 <= w < 65536 -> (length t < 41)%nat ->
  exists tmp', rep tmp' (t ++ piece i w) /\
    format_loop (i :: idx) src words best tmp (length t) =
    format_loop idx src words best tmp' (length (t ++ piece i w)).
Proof.
  intros Hr Hin H5 Henc Hw Hwr Ht. cbn [format_loop]. rewrite Hin.
  pose proof (print_u_length 16 w 3 ltac:(lia) ltac:(cbn; lia)) as Hp.
  assert (nul_free (print_u 16 w)) by (apply digit_char_nonzero; lia).
  assert (exists tmp1, (if negb (i =? 0)%nat then tmp' ← store tmp (length t) 58; Some (tmp', S (length t))
      else Some (tmp, length t)) = Some (tmp1, length (t ++ if (i =? 0)%nat then [] else [58]))
      /\ rep tmp1 (t ++ if (i =? 0)%nat then [] else [58])) as (tmp1 & -> & Hr1).
  { destruct (i =? 0)%nat; cbn [negb].
    - rewrite app_nil_r. eauto.
    - destruct (store_rep tmp t 58 Hr ltac:(lia)) as (tmp1 & -> & Hr1). exists tmp1.
      cbn. rewrite length_app, Nat.add_1_r. eauto. }
  cbn [mbind option_bind]. rewrite H5. cbn [mbind option_bind]. rewrite Henc, Hw. cbn [mbind option_bind].
  destruct (put_text_rep tmp1 _ (print_u 16 w) Hr1) as (tmp2 & -> & Hr2 & Hc); [done| |].
  { rewrite length_app. destruct (i =? 0)%nat; cbn [length]; lia. }
  exists tmp2. unfold piece. rewrite app_assoc. split; [done|].
  cbn [mbind option_bind]. rewrite Hc. by rewrite (length_app (_ ++ _) (print_u 16 w)).
Qed.

(** A block of consecutive words outside the run. *)
Lemma format_words ws i idx src words best tmp t w5 :
  rep tmp t -> words !! 5%nat = Some w5 -> words_ok ws ->
  (forall k, (k < length ws)%nat ->
     in_run best (Z.of_nat (i + k)) = false /\
     encapsulated_ipv4 best (Z.of_nat (i + k)) w5 = false /\
     words !! (i + k)%nat = ws !! k) ->
  (length t + 5 * length ws <= 45)%nat ->
  exists tmp', rep tmp' (t ++ pieces i ws) /\
    format_loop (seq i (length ws) ++ idx) src words best tmp (length t) =
    format_loop idx src words best tmp' (length (t ++ pieces i ws)).
Proof.
  intros Hr H5 Hws. revert i tmp t Hr.
  induction Hws as [|w ws Hw Hws IH]; intros i tmp t Hr Hk Hl.
  - exists tmp. by rewrite app_nil_r.
  - destruct (Hk 0%nat ltac:(cbn; lia)) as (Hin & Henc & Hlk). rewrite Nat.add_0_r in *.
    cbn [length seq app] in *.
    destruct (format_word i (seq (S i) (length ws) ++ idx) src words best tmp t w w5)
      as (tmp1 & Hr1 & ->); try done; [lia|].
    pose proof (piece_length i w Hw).
    destruct (IH (S i) tmp1 (t ++ piece i w)) as (tmp2 & Hr2 & ->); [done| |rewrite length_app; lia|].
    + intros k Hlt. destruct (Hk (S k) ltac:(lia)) as (? & ? & ?).
      replace (S i + k)%nat with (i + S k)%nat by lia. done.
    + exists tmp2. rewrite pieces_cons, app_assoc. done.
Qed.

(** The run itself prints a single colon. *)
Lemma format_run_tail l i idx src words best tmp tp :
  (forall k, (k < l)%nat -> in_run best (Z.of_nat (i + k)) = true) ->
  base best < Z.of_nat i ->
  format_loop (seq i l ++ idx) src words best tmp tp = format_loop idx src words best tmp tp.
Proof.
  revert i. induction l as [|l IH]; intros i Hk Hb; [done|]. cbn [seq app format_loop].
  pose proof (Hk 0%nat ltac:(lia)) as H0. rewrite Nat.add_0_r in H0. rewrite H0.
  destruct (Z.eqb_spec (Z.of_nat i) (base best)); [lia|]. apply IH; [|lia].
  intros k Hlt. replace (S i + k)%nat with (i + S k)%nat by lia. apply Hk. lia.
Qed.

Lemma format_run b l idx src words tmp t :
  rep tmp t -> (length t < 46)%nat ->
  exists tmp', rep tmp' (t ++ [58]) /\
    format_loop (seq b (S l) ++ idx) src words (Run (Z.of_nat b) (Z.of_nat (S l))) tmp (length t) =
    format_loop idx src words (Run (Z.of_nat b) (Z.of_nat (S l))) tmp' (length (t ++ [58])).
Proof.
  intros Hr Ht. cbn [seq app format_loop].
  assert (forall k, (k < S l)%nat ->
    in_run (Run (Z.of_nat b) (Z.of_nat (S l))) (Z.of_nat (b + k)) = true) as Hin.
  { intros k Hk. unfold in_run. cbn [base len]. blia. }
  pose proof (Hin 0%nat ltac:(lia)) as H0. rewrite Nat.add_0_r in H0. rewrite H0.
  cbn [base]. rewrite Z.eqb_refl.
  destruct (store_rep tmp t 58 Hr Ht) as (tmp1 & -> & Hr1). cbn [mbind option_bind].
  exists tmp1. split; [done|]. rewrite length_app, Nat.add_1_r.
  apply format_run_tail; [|cbn; lia].
  intros k Hk. replace (S b + k)%nat with (b + S k)%nat by lia. apply Hin. lia.
Qed.

Definition quad_of (w6 w7 : Z) : cstring :=
  quad_text (w6 / 256) (w6 mod 256) (w7 / 256) (w7 mod 256).

Arguments quad_of : simpl never.

(** What the format loop leaves in [tmp], before the final colon and the NUL. *)
Inductive ntop6_shape (ws : list Z) : cstring -> Prop :=
| shape_plain :
    base (best_run ws) = -1 -> ntop6_shape ws (pieces 0 ws)
| shape_run pre l post :
    ws = pre ++ replicate l 0 ++ post -> (2 <= l)%nat ->
    best_run ws = Run (Z.of_nat (length pre)) (Z.of_nat l) ->
    ntop6_shape ws
      (pieces 0 pre ++ [58] ++ pieces (length pre + l) post ++
       (if bool_decide (post = []) then [58] else []))
| shape_quad mid w6 w7 l :
    ws = replicate l 0 ++ mid ++ [w6; w7] -> (l = 6%nat /\ mid = [] \/ l = 5%nat /\ mid = [65535]) ->
    ntop6_shape ws ([58] ++ pieces l mid ++ [58] ++ quad_of w6 w7).

Lemma encapsulated_not_6 best i w5 : i <> 6 -> encapsulated_ipv4 best i w5 = false.
Proof. intros H. unfold encapsulated_ipv4. by destruct (Z.eqb_spec i 6). Qed.

(** The loop followed by the trailing-run colon, for each shape. *)
Definition format_all (src ws : list Z) : option (flow (list Z * nat) Z) :=
  r ← format_loop (seq 0 NWORDS) src ws (best_run ws) (replicate 46 0) 0;
  match r with
  | Return e => Some (Return e)
  | Next (tmp, tp) | Break (tmp, tp) =>
      t ← (if negb (base (best_run ws) =? -1) &&
              (base (best_run ws) + len (best_run ws) =? Z.of_nat NWORDS)
           then tmp' ← store tmp tp 58; Some (tmp', S tp)
           else Some (tmp, tp));
      Some (Next t)
  end.

Lemma inet_ntop6_format src dst size ws :
  words_of src = Some ws ->
  inet_ntop6 src dst size =
    (r ← format_all src ws;
     match r with
     | Return e => Some (inl e)
     | Next (tmp, tp) | Break (tmp, tp) =>
         tmp ← store tmp tp 0;
         if Z.of_nat (S tp) >? size then Some (inl ENOSPC)
         else dst' ← put_text dst 0 (cstring_at tmp 0); Some (inr dst')
     end).
Proof.
  intros H. unfold inet_ntop6, format_all. rewrite H. cbn [mbind option_bind].
  destruct (format_loop _ _ _ _ _ _) as [[[tmp tp]|[tmp tp]|e]|]; cbn [mbind option_bind]; try done.
  all: destruct (_ && _); [|done]; destruct (store _ _ _); done.
Qed.

Lemma rep_init : rep (replicate 46 0) [].
Proof. split; [done|]. by exists (replicate 46 0). Qed.

Lemma format_all_plain src ws :
  words_ok ws -> length ws = 8%nat -> base (best_run ws) = -1 ->
  exists tmp, format_all src ws = Some (Next (tmp, length (pieces 0 ws))) /\ rep tmp (pieces 0 ws).
Proof.
  intros Hok Hl Hb. unfold format_all. rewrite Hb.
  destruct (ws !! 5%nat) as [w5|] eqn:E5; [|apply lookup_ge_None in E5; lia].
  destruct (format_words ws 0 [] src ws (best_run ws) (replicate 46 0) [] w5)
    as (tmp & Hr & E); [apply rep_init|done|done| |cbn; lia|].
  - intros k Hk. split_and!; [|unfold encapsulated_ipv4; rewrite Hb|done].
    + unfold in_run. by rewrite Hb.
    + by rewrite andb_false_r.
  - rewrite app_nil_r, Hl in E. change (length (@nil Z)) with 0%nat in E.
    unfold NWORDS. rewrite E. cbn. eauto.
Qed.

Lemma format_all_run src ws pre l post :
  words_ok ws -> length ws = 8%nat -> ws = pre ++ replicate l 0 ++ post -> (2 <= l)%nat ->
  best_run ws = Run (Z.of_nat (length pre)) (Z.of_nat l) ->
  (forall w5, ws !! 5%nat = Some w5 -> encapsulated_ipv4 (best_run ws) 6 w5 = false) ->
  let t := pieces 0 pre ++ [58] ++ pieces (length pre + l) post ++
           (if bool_decide (post = []) then [58] else []) in
  exists tmp, format_all src ws = Some (Next (tmp, length t)) /\ rep tmp t.
Proof.
  intros Hok Hl Hws Hl2 Hb Henc t. unfold format_all.
  destruct (ws !! 5%nat) as [w5|] eqn:E5; [|apply lookup_ge_None in E5; lia].
  specialize (Henc w5 eq_refl).
  assert (forall i, encapsulated_ipv4 (best_run ws) i w5 = false) as Henc'.
  { intros i. destruct (decide (i = 6)) as [->|]; [done|]. by apply encapsulated_not_6. }
  assert (length pre + l + length post = 8)%nat as Hsum.
  { rewrite Hws, !length_app, length_replicate in Hl. lia. }
  rewrite Hws, !Forall_app in Hok. destruct Hok as (Hpre & _ & Hpost).
  pose proof (pieces_length 0 pre Hpre) as L1. pose proof (pieces_length (length pre + l) post Hpost) as L2.
  assert (seq 0 NWORDS = seq 0 (length pre) ++ seq (length pre) l ++ seq (length pre + l) (length post) ++ [])
    as ->.
  { rewrite app_nil_r, <- seq_app. rewrite <- seq_app. unfold NWORDS. f_equal. lia. }
  destruct (format_words pre 0 (seq (length pre) l ++ seq (length pre + l) (length post) ++ []) src ws
    (best_run ws) (replicate 46 0) [] w5) as (tmp1 & Hr1 & E1);
    [apply rep_init|done|done| |cbn; lia|].
  { intros k Hk. split_and!; [|done|].
    - rewrite Hb. unfold in_run. cbn [base len]. blia.
    - rewrite Hws, lookup_app_l by (cbn; lia). done. }
  change (length (@nil Z)) with 0%nat in E1. rewrite E1. clear E1. cbn [app] in *.
  rewrite Hb. destruct l as [|l]; [lia|].
  destruct (format_run (length pre) l (seq (length pre + S l) (length post) ++ []) src ws tmp1 (pieces 0 pre))
    as (tmp2 & Hr2 & ->); [done|lia|].
  rewrite <- Hb.
  destruct (format_words post (length pre + S l) [] src ws (best_run ws) tmp2 (pieces 0 pre ++ [58]) w5)
    as (tmp3 & Hr3 & ->); [done|done|done| |rewrite length_app; cbn [length]; lia|].
  { intros k Hk. split_and!; [|done|].
    - rewrite Hb. unfold in_run. cbn [base len]. blia.
    - rewrite Hws, !lookup_app_r, length_replicate by (rewrite ?length_replicate; lia). f_equal. lia. }
  cbn [format_loop mbind option_bind]. rewrite Hb. cbn [base len].
  pose proof (length_app (pieces 0 pre) [58]) as L3. cbn [length] in L3.
  destruct (Z.eqb_spec (Z.of_nat (length pre)) (-1)); [lia|]. cbn [negb andb].
  subst t. case_bool_decide as Hp.
  - subst post. destruct (Z.eqb_spec (Z.of_nat (length pre) + Z.of_nat (S l)) (Z.of_nat NWORDS)) as [|Hne];
      [|exfalso; apply Hne; unfold NWORDS; cbn [length] in Hsum; lia].
    destruct (store_rep tmp3 _ 58 Hr3) as (tmp4 & -> & Hr4);
      [rewrite !length_app; cbn [length] in *; lia|].
    exists tmp4. cbn [mbind option_bind]. rewrite <- !app_assoc in *. split; [|done].
    do 3 f_equal. rewrite !length_app. cbn [length]. rewrite ?length_app. cbn [length]. lia.
  - destruct (Z.eqb_spec (Z.of_nat (length pre) + Z.of_nat (S l)) (Z.of_nat NWORDS)) as [E|].
    { destruct post; [done|]. cbn [length] in Hsum. change (Z.of_nat NWORDS) with 8 in E. lia. }
    exists tmp3. cbn [mbind option_bind]. rewrite app_nil_r, <- app_assoc in *. done.
Qed.

Lemma quad_of_bytes w6 w7 :
  0 <= w6 < 65536 -> 0 <= w7 < 65536 ->
  bytes_ok [w6 / 256; w6 mod 256; w7 / 256; w7 mod 256].
Proof.
  intros H6 H7.
  assert (forall w, 0 <= w < 65536 -> 0 <= w / 256 < 256 /\ 0 <= w mod 256 < 256) as E.
  { intros w Hw. split; [|apply Z.mod_pos_bound; lia].
    split; [apply Z.div_pos; lia|apply Z.div_lt_upper_bound; lia]. }
  destruct (E w6 H6), (E w7 H7). rewrite !Forall_cons. auto using Forall_nil_2.
Qed.

(** The iteration that prints the last four bytes as a dotted quad. *)
Lemma format_quad idx src words best tmp t w5 w6 w7 :
  rep tmp t -> (length t <= 10)%nat -> in_run best 6 = false ->
  words !! 5%nat = Some w5 -> encapsulated_ipv4 best 6 w5 = true ->
  drop 12 src = word_bytes w6 ++ word_bytes w7 ->
  0 <= w6 < 65536 -> 0 <= w7 < 65536 ->
  exists tmp', rep tmp' (t ++ [58] ++ quad_of w6 w7) /\
    format_loop (6%nat :: idx) src words best tmp (length t) =
    Some (Break (tmp', length (t ++ [58] ++ quad_of w6 w7))).
Proof.
  intros Hr Ht Hin H5 Henc Hd H6 H7. cbn [format_loop].
  change (Z.of_nat 6) with 6. rewrite Hin. cbn [Nat.eqb negb].
  destruct (store_rep tmp t 58 Hr ltac:(lia)) as (tmp1 & -> & Hr1). cbn [mbind option_bind].
  rewrite H5. cbn [mbind option_bind]. rewrite Henc, Hd. unfold word_bytes. cbn [app].
  rewrite inet_ntop4_spec by (by apply quad_of_bytes). fold (quad_of w6 w7).
  pose proof (quad_text_length _ _ _ _ (quad_of_bytes w6 w7 H6 H7)) as L. fold (quad_of w6 w7) in L.
  assert ((Z.of_nat (length (quad_of w6 w7)) >? 46 - Z.of_nat (S (length t))) = false) as -> by blia.
  destruct (put_text_rep tmp1 (t ++ [58]) (quad_of w6 w7) Hr1) as (tmp2 & E & Hr2 & Hc);
    [apply quad_text_nul_free|llia|].
  rewrite length_app, Nat.add_1_r in E, Hc. rewrite E. cbn [mbind option_bind fmap option_fmap option_map]. rewrite Hc.
  exists tmp2. rewrite <- app_assoc in Hr2. split; [done|].
  do 3 f_equal. llia.
Qed.

Lemma format_all_quad src ws mid l w6 w7 :
  words_ok ws -> words_bytes ws = src -> ws = replicate l 0 ++ mid ++ [w6; w7] ->
  (l = 6%nat /\ mid = [] \/ l = 5%nat /\ mid = [65535]) -> best_run ws = Run 0 (Z.of_nat l) ->
  let t := [58] ++ pieces l mid ++ [58] ++ quad_of w6 w7 in
  exists tmp, format_all src ws = Some (Next (tmp, length t)) /\ rep tmp t.
Proof.
  intros Hok Hsrc Hws Hl Hb t. unfold format_all. rewrite Hb.
  assert (seq 0 NWORDS = seq 0 (S (pred l)) ++ seq l (length mid) ++ [6%nat; 7%nat]) as ->
    by (by destruct Hl as [[-> ->]|[-> ->]]).
  assert (Z.of_nat l = Z.of_nat (S (pred l))) as El by lia.
  rewrite El.
  destruct (format_run 0 (pred l) (seq l (length mid) ++ [6%nat; 7%nat]) src ws (replicate 46 0) [])
    as (tmp1 & Hr1 & E1); [apply rep_init|cbn; lia|].
  change (length (@nil Z)) with 0%nat in E1. change (Z.of_nat 0) with 0 in E1. rewrite E1. clear E1.
  assert (exists w5, ws !! 5%nat = Some w5 /\ encapsulated_ipv4 (Run 0 (Z.of_nat l)) 6 w5 = true)
    as (w5 & H5 & Henc).
  { destruct Hl as [[-> ->]|[-> ->]]; rewrite Hws; by eexists. }
  rewrite Hws, !Forall_app, !Forall_cons in Hok. destruct Hok as (_ & Hmid & H6 & H7 & _).
  rewrite <- El.
  destruct (format_words mid l [6%nat; 7%nat] src ws (Run 0 (Z.of_nat l)) tmp1 ([] ++ [58]) w5)
    as (tmp2 & Hr2 & ->); [done|done|done| |destruct Hl as [[-> ->]|[-> ->]]; cbn; lia|].
  { intros k Hk. destruct Hl as [[-> ->]|[-> ->]]; [cbn in Hk; lia|].
    assert (k = 0)%nat as -> by (cbn in Hk; lia). split_and!; [done|done|]. by rewrite Hws. }
  pose proof (pieces_length l mid Hmid) as L.
  destruct (format_quad [7%nat] src ws (Run 0 (Z.of_nat l)) tmp2 (([] ++ [58]) ++ pieces l mid) w5 w6 w7)
    as (tmp3 & Hr3 & ->); try done.
  - rewrite !length_app. destruct Hl as [[-> ->]|[-> ->]]; cbn [length] in *; lia.
  - by destruct Hl as [[-> ->]|[-> ->]].
  - rewrite <- Hsrc, Hws. by destruct Hl as [[-> ->]|[-> ->]].
  - exists tmp3. split; [|done]. by destruct Hl as [[-> ->]|[-> ->]].
Qed.

Lemma pieces_nul_free i ws : nul_free (pieces i ws).
Proof.
  revert i. induction ws as [|w ws IH]; intros i; [apply Forall_nil_2|].
  rewrite pieces_cons. apply Forall_app. split; [|done]. unfold piece.
  apply Forall_app. split; [|apply digit_char_nonzero; lia].
  destruct (i =? 0)%nat; [apply Forall_nil_2|]. by apply Forall_cons.
Qed.

Lemma ntop6_shape_text ws t :
  words_ok ws -> length ws = 8%nat -> ntop6_shape ws t -> nul_free t /\ (length t <= 45)%nat.
Proof.
  intros Hok Hl H.
  destruct H as [Hb|pre l post -> Hl2 Hb|mid w6 w7 l -> Hm].
  - pose proof (pieces_length 0 ws Hok). split; [apply pieces_nul_free|lia].
  - rewrite !Forall_app in Hok. destruct Hok as (Hpre & _ & Hpost).
    pose proof (pieces_length 0 pre Hpre). pose proof (pieces_length (length pre + l) post Hpost).
    split.
    + rewrite !Forall_app, Forall_singleton. split_and!; try apply pieces_nul_free; [done|].
      case_bool_decide; [by apply Forall_singleton|apply Forall_nil_2].
    + case_bool_decide; llia.
  - rewrite !Forall_app, !Forall_cons in Hok. destruct Hok as (_ & Hmid & H6 & H7 & _).
    pose proof (quad_text_length _ _ _ _ (quad_of_bytes w6 w7 H6 H7)) as L. fold (quad_of w6 w7) in L.
    pose proof (pieces_length l mid Hmid). split.
    + rewrite !Forall_app, !Forall_singleton.
      split_and!; try done; [apply pieces_nul_free|apply quad_text_nul_free].
    + destruct Hm as [[-> ->]|[-> ->]]; llia.
Qed.

(** The two formats of a run, told apart by the code's test for an encapsulated IPv4. *)
Lemma format_all_shape src ws :
  words_ok ws -> length ws = 8%nat -> words_bytes ws = src ->
  exists t tmp, ntop6_shape ws t /\ format_all src ws = Some (Next (tmp, length t)) /\ rep tmp t.
Proof.
  intros Hok Hl Hsrc. destruct (best_run_cases ws Hl) as [Hb|(pre & l & post & Hws & Hl2 & Hb1 & Hb2)].
  { destruct (format_all_plain src ws Hok Hl Hb) as (tmp & ? & ?).
    exists (pieces 0 ws), tmp. split; [by constructor|done]. }
  assert (best_run ws = Run (Z.of_nat (length pre)) (Z.of_nat l)) as Hb.
  { destruct (best_run ws). cbn in *. by subst. }
  destruct (ws !! 5%nat) as [w5|] eqn:E5; [|apply lookup_ge_None in E5; lia].
  destruct (encapsulated_ipv4 (best_run ws) 6 w5) eqn:Henc.
  - rewrite Hb in Henc. unfold encapsulated_ipv4 in Henc. cbn [base len] in Henc.
    assert (pre = []) as -> by (destruct pre; [done|cbn [length] in Henc; blia]).
    assert (exists mid w6 w7, post = mid ++ [w6; w7] /\
      (l = 6%nat /\ mid = [] \/ l = 5%nat /\ mid = [65535])) as (mid & w6 & w7 & -> & Hm).
    { bool_to_prop. destruct Henc as [_ [Hl6|[Hl5 Hw5]]].
      - assert (l = 6%nat) as -> by lia. rewrite Hws in Hl.
        destruct post as [|a [|b [|]]]; try (cbn in Hl; lia). exists [], a, b. auto.
      - assert (l = 5%nat) as -> by lia. subst w5. rewrite Hws in Hl, E5.
        destruct post as [|a [|b [|c [|]]]]; try (cbn in Hl; lia).
        injection E5 as ->. exists [65535], b, c. auto. }
    destruct (format_all_quad src ws mid l w6 w7) as (tmp & ? & ?); try done.
    eexists _, tmp. split; [by econstructor|done].
  - destruct (format_all_run src ws pre l post) as (tmp & ? & ?); try done.
    { intros w Hw. by simplify_eq. }
    eexists _, tmp. split; [by econstructor|done].
Qed.

(** [inet_ntop6] writes a text of one of the three shapes, of at most 45 characters, provided
    [size] leaves room for it and the NUL. *)
Lemma inet_ntop6_shape src :
  length src = 16%nat -> bytes_ok src ->
  exists ws t,
    words_bytes ws = src /\ words_ok ws /\ length ws = 8%nat /\ ntop6_shape ws t /\
    nul_free t /\ (length t <= 45)%nat /\
    forall dst size,
      inet_ntop6 src dst size =
        if Z.of_nat (S (length t)) >? size then Some (inl ENOSPC)
        else inr <$> put_text dst 0 t.
Proof.
  intros Hl Hb. destruct (words_of_spec src Hl Hb) as (ws & Hw & Hsrc & Hok & Hl8).
  destruct (format_all_shape src ws Hok Hl8 Hsrc) as (t & tmp & Hs & Hf & Hr).
  destruct (ntop6_shape_text ws t Hok Hl8 Hs) as [Hn Hlt].
  exists ws, t. split_and!; try done. intros dst size.
  rewrite (inet_ntop6_format _ _ _ _ Hw), Hf. cbn [mbind option_bind].
  destruct Hr as [Hlen [rest ->]]. rewrite store_ok by lia. cbn [mbind option_bind].
  destruct rest as [|x rest]; [llia|].
  rewrite <- (Nat.add_0_r (length t)) at 2. rewrite insert_app_r.
  change (<[0%nat := 0]> (x :: rest)) with (0 :: rest).
  pose proof (cstring_at_text [] t rest 0 Hn eq_refl) as E. cbn [app] in E. rewrite E.
  destruct (_ >? size); [done|]. by destruct (put_text dst 0 t).
Qed.

(** * Parsing

    How [inet_pton6] (src/unpv13e/libfree/inet_pton.c) reads the texts that [inet_ntop6]
    writes, and why no input makes it leave its buffers. *)

(** * Hexadecimal tokens *)

Lemma xdigit_val_digit_char d : 0 <= d < 16 -> xdigit_val (digit_char d) = Some (Z.to_nat d).
Proof.
  intros H.
  assert (d = 0 \/ d = 1 \/ d = 2 \/ d = 3 \/ d = 4 \/ d = 5 \/ d = 6 \/ d = 7 \/ d = 8 \/ d = 9 \/
          d = 10 \/ d = 11 \/ d = 12 \/ d = 13 \/ d = 14 \/ d = 15) as E by lia.
  by destruct_or! E; subst.
Qed.

Abbreviation fold16 := (foldl (fun a d => a * 16 + d)).

Lemma fold16_mono ds v : 0 <= v -> Forall (fun d => 0 <= d < 16) ds -> v <= fold16 v ds.
Proof.
  intros Hv Hs. revert v Hv. induction Hs as [|c s Hc Hs IH]; intros v Hv; cbn; [lia|].
  etrans; [|apply IH]; lia.
Qed.

Lemma fold16_bound ds v :
  0 <= v -> Forall (fun d => 0 <= d < 16) ds ->
  fold16 v ds < (v + 1) * 16 ^ Z.of_nat (length ds).
Proof.
  intros Hv Hs. revert v Hv. induction Hs as [|c s Hc Hs IH]; intros v Hv; cbn [foldl length].
  - change (Z.of_nat 0) with 0. lia.
  - eapply Z.lt_le_trans; [apply IH; lia|].
    rewrite Nat2Z.inj_succ, Z.pow_succ_r by lia.
    pose proof (Z.pow_pos_nonneg 16 (Z.of_nat (length s)) ltac:(lia) ltac:(lia)). nia.
Qed.

Lemma pton6_step_xdigit d src' s :
  0 <= d < 16 -> 0 <= val s -> val s * 16 + d <= 65535 ->
  pton6_step (digit_char d) src' s =
    Some (Next (P6 (tmp6 s) (tp6 s) (colonp s) (curtok s) true (val s * 16 + d))).
Proof.
  intros Hd Hv Hle. unfold pton6_step. rewrite xdigit_val_digit_char by done.
  rewrite Z2Nat.id by lia.
  assert (Z.lor (u32 (Z.shiftl (val s) 4)) d = val s * 16 + d) as ->.
  { rewrite wrap_small by (rewrite Z.shiftl_mul_pow2 by lia; lia).
    by apply (lor_shift (val s) d 4). }
  destruct (_ >? 65535) eqn:E; [blia|done].
Qed.

Lemma pton6_loop_xdigits ds rest s :
  Forall (fun d => 0 <= d < 16) ds -> 0 <= val s -> fold16 (val s) ds <= 65535 ->
  pton6_loop ((digit_char <$> ds) ++ rest) s =
  pton6_loop rest (P6 (tmp6 s) (tp6 s) (colonp s) (curtok s)
    (saw_xdigit s || negb (bool_decide (ds = []))) (fold16 (val s) ds)).
Proof.
  intros Hds. revert s. induction Hds as [|d ds Hd Hds IH]; intros s Hv Hle.
  - cbn. rewrite orb_false_r. by destruct s.
  - cbn [foldl] in Hle. pose proof (fold16_mono ds (val s * 16 + d) ltac:(lia) Hds).
    cbn [fmap list_fmap app pton6_loop].
    rewrite pton6_step_xdigit by lia. cbn [mbind option_bind]. etrans; [apply IH; cbn; lia|].
    cbn [tmp6 tp6 colonp curtok saw_xdigit val foldl]. do 2 f_equal. by rewrite orb_true_r.
Qed.

Lemma pton6_loop_hex w rest s :
  0 <= w < 65536 -> val s = 0 ->
  pton6_loop (print_u 16 w ++ rest) s =
  pton6_loop rest (P6 (tmp6 s) (tp6 s) (colonp s) (curtok s) true w).
Proof.
  intros Hw Hv. unfold print_u.
  pose proof (value_digits_of 16 w ltac:(lia) ltac:(lia)) as E. unfold value_of in E.
  rewrite pton6_loop_xdigits; rewrite ?Hv, ?E; [|by apply digits_of_range; [lia|apply Forall_nil_2]|lia|lia].
  do 2 f_equal. rewrite bool_decide_false; [by rewrite orb_true_r|].
  intros H. apply (print_u_nonempty 16 w). unfold print_u. by rewrite H.
Qed.

(** * States between tokens

    [mk done colon ct saw v]: the words [done] have been stored, the rest of [tmp] is zero. *)

Definition mk (done : list Z) (colon : option nat) (ct : cstring) (saw : bool) (v : Z) : pton6_state :=
  P6 (words_bytes done ++ replicate (16 - 2 * length done) 0) (2 * length done) colon ct saw v.

Lemma pton6_loop_hex_mk done colon ct saw w rest :
  0 <= w < 65536 ->
  pton6_loop (print_u 16 w ++ rest) (mk done colon ct saw 0) =
  pton6_loop rest (mk done colon ct true w).
Proof. intros Hw. by rewrite pton6_loop_hex. Qed.

Lemma land_255 x : Z.land x 255 = x mod 256.
Proof. by apply (Z.land_ones x 8). Qed.

Lemma put_word_spec a x y b w :
  0 <= w < 65536 ->
  put_word (a ++ x :: y :: b) (length a) w = Some (a ++ word_bytes w ++ b).
Proof.
  intros Hw. unfold put_word.
  rewrite store_ok by llia. cbn [mbind option_bind].
  rewrite store_ok by llia.
  rewrite insert_at_length, insert_at_length_S.
  rewrite !land_255. unfold wrap. rewrite Z.mod_mod, Z.mod_mod by lia.
  rewrite Z.shiftr_div_pow2 by lia. change (2 ^ 8) with 256.
  rewrite (Z.mod_small (w / 256)); [done|].
  split; [apply Z.div_pos; lia|apply Z.div_lt_upper_bound; lia].
Qed.

Lemma put_word_mk done w :
  (length done < 8)%nat -> 0 <= w < 65536 ->
  put_word (words_bytes done ++ replicate (16 - 2 * length done) 0) (2 * length done) w =
  Some (words_bytes (done ++ [w]) ++ replicate (16 - 2 * length (done ++ [w])) 0).
Proof.
  intros Hl Hw. rewrite <- length_words_bytes.
  replace (16 - length (words_bytes done))%nat
    with (S (S (16 - 2 * length (done ++ [w]))))%nat by (rewrite length_words_bytes; llia).
  cbn [replicate]. rewrite put_word_spec by done.
  rewrite words_bytes_app, <- app_assoc. done.
Qed.

(** A colon after a word stores it. *)
Lemma pton6_step_colon tmp tp colon ct w rest tmp' :
  (tp + 2 <= 16)%nat -> put_word tmp tp w = Some tmp' ->
  pton6_step 58 rest (P6 tmp tp colon ct true w) =
    Some (Next (P6 tmp' (tp + 2) colon rest false 0)).
Proof.
  intros Hl E. unfold pton6_step. change (xdigit_val 58) with (@None nat).
  cbn [Z.eqb Pos.eqb tmp6 tp6 colonp curtok saw_xdigit val negb].
  destruct (Nat.ltb_spec Pton.IN6ADDRSZ (tp + INT16SZ)); [unfold Pton.IN6ADDRSZ, INT16SZ in *; lia|].
  by rewrite E.
Qed.

Lemma pton6_loop_colon done w colon ct rest :
  (length done < 8)%nat -> 0 <= w < 65536 ->
  pton6_loop (58 :: rest) (mk done colon ct true w) = pton6_loop rest (mk (done ++ [w]) colon rest false 0).
Proof.
  intros Hl Hw. cbn [pton6_loop]. unfold mk at 1.
  erewrite pton6_step_colon; [|lia|by apply put_word_mk].
  cbn [mbind option_bind]. unfold mk. f_equal. f_equal. llia.
Qed.

(** A colon where a word could start is the first half of [::]. *)
Lemma pton6_loop_coloncolon done ct rest v :
  pton6_loop (58 :: rest) (mk done None ct false v) =
  pton6_loop rest (mk done (Some (2 * length done)%nat) rest false v).
Proof. done. Qed.

(** [w0:w1:...] with the first word already read. *)
Lemma pton6_loop_pieces ws i done w colon ct rest :
  words_ok (w :: ws) -> (i <> 0)%nat -> (length done + length ws < 8)%nat ->
  exists done' w' ct',
    pton6_loop (pieces i ws ++ rest) (mk done colon ct true w) =
      pton6_loop rest (mk done' colon ct' true w') /\
    done' ++ [w'] = done ++ w :: ws /\ 0 <= w' < 65536.
Proof.
  revert i done w ct. induction ws as [|x ws IH]; intros i done w ct Hok Hi Hl.
  - exists done, w, ct. by apply Forall_cons in Hok as [Hw _].
  - rewrite pieces_cons. unfold piece. destruct (Nat.eqb_spec i 0); [done|].
    apply Forall_cons in Hok as [Hw Hok]. rewrite <- !app_assoc. cbn [app].
    rewrite pton6_loop_colon by llia || done.
    apply Forall_cons in Hok as Hx. destruct Hx as [Hx _].
    rewrite pton6_loop_hex_mk by done.
    destruct (IH (S i) (done ++ [w]) x (print_u 16 x ++ pieces (S i) ws ++ rest))
      as (d' & w' & ct' & E & Ed & Hw'); [done|lia|llia|].
    exists d', w', ct'. rewrite E. split; [done|]. by rewrite Ed, <- app_assoc.
Qed.

(** * After the loop *)

Lemma pton6_shift_spec mid a z b colon n i tmp :
  tmp = a ++ mid ++ replicate (S z) 0 ++ b -> length tmp = 16%nat ->
  colon = length a -> n = (length mid + length b)%nat -> i = S (length b) ->
  pton6_shift (length mid) i n colon tmp = Some (a ++ replicate (S z) 0 ++ mid ++ b).
Proof.
  revert b i n tmp. induction mid as [|x mid IH] using rev_ind; intros b i n tmp -> Hl -> -> ->.
  - done.
  - rewrite length_app, Nat.add_1_r. cbn [pton6_shift].
    replace (length a + (S (length mid) + length b) - S (length b))%nat
      with (length (a ++ mid)) by llia.
    replace (a ++ (mid ++ [x]) ++ replicate (S z) 0 ++ b)
      with ((a ++ mid) ++ x :: replicate (S z) 0 ++ b) by (by rewrite <- !app_assoc).
    rewrite list_lookup_middle by done. cbn [mbind option_bind].
    assert (length (a ++ mid) + S (S z) + length b = 16)%nat as Hsum by llia.
    replace (Pton.IN6ADDRSZ - S (length b))%nat with (length ((a ++ mid) ++ x :: replicate z 0))
      by (unfold Pton.IN6ADDRSZ; llia).
    rewrite store_ok by llia. cbn [mbind option_bind].
    replace ((a ++ mid) ++ x :: replicate (S z) 0 ++ b)
      with (((a ++ mid) ++ x :: replicate z 0) ++ 0 :: b)
      by (rewrite <- !app_assoc; cbn [app]; by rewrite replicate_S_end, <- app_assoc).
    rewrite insert_at_length, store_ok by llia. cbn [mbind option_bind].
    rewrite <- app_assoc. cbn [app]. rewrite insert_at_length.
    rewrite (IH (x :: b)); [| |llia|done|cbn [length]; lia|done].
    + do 2 f_equal. by rewrite <- !app_assoc.
    + rewrite <- !app_assoc. done.
Qed.

(** The end of [inet_pton6] on a full address without [::]. *)
Lemma pton6_finish_full dst ct done w :
  length (done ++ [w]) = 8%nat -> 0 <= w < 65536 -> length dst = 16%nat ->
  pton6_finish dst (mk done None ct true w) = Some (1, words_bytes (done ++ [w])).
Proof.
  intros Hl Hw Hd. unfold pton6_finish, mk. cbn [tmp6 tp6 colonp saw_xdigit val].
  destruct (Nat.ltb_spec Pton.IN6ADDRSZ (2 * length done + INT16SZ));
    [unfold Pton.IN6ADDRSZ, INT16SZ in *; llia|].
  rewrite put_word_mk by (done || llia). cbn [mbind option_bind].
  replace (2 * length done + 2)%nat with Pton.IN6ADDRSZ by (unfold Pton.IN6ADDRSZ; llia).
  rewrite Nat.eqb_refl, Hl. cbn [negb Nat.sub Nat.mul Nat.add replicate]. rewrite app_nil_r.
  pose proof (length_words_bytes (done ++ [w])) as L.
  rewrite memcpy_ok by lia. cbn [mbind option_bind take app]. rewrite drop_ge by lia.
  by rewrite app_nil_r.
Qed.

(** The shift of the words [post] behind a [::] that follows the words [pre]. *)
Lemma pton6_finish_shift dst ct pre post v :
  (length pre + length post < 8)%nat -> length dst = 16%nat ->
  pton6_finish dst (mk (pre ++ post) (Some (2 * length pre)%nat) ct false v) =
    Some (1, words_bytes (pre ++ replicate (8 - length pre - length post) 0 ++ post)).
Proof.
  intros Hl Hd. unfold pton6_finish, mk. cbn [tmp6 tp6 colonp saw_xdigit val].
  replace (2 * length (pre ++ post) - 2 * length pre)%nat with (length (words_bytes post))
    by (rewrite length_words_bytes; llia).
  rewrite (pton6_shift_spec (words_bytes post) (words_bytes pre) (15 - 2 * length (pre ++ post)) []);
    [| | |rewrite length_words_bytes; done|cbn [length]; lia|done].
  - cbn [mbind option_bind]. rewrite Nat.eqb_refl. cbn [negb].
    rewrite memcpy_ok by (rewrite !length_app, !length_words_bytes; llia). cbn [mbind option_bind take app].
    rewrite drop_ge by (rewrite !length_app, !length_words_bytes; llia).
    rewrite !words_bytes_app, words_bytes_zeros, !app_nil_r.
    replace (2 * (8 - length pre - length post))%nat with (S (15 - 2 * length (pre ++ post))) by llia.
    done.
  - rewrite words_bytes_app, <- app_assoc, app_nil_r.
    replace (16 - 2 * length (pre ++ post))%nat with (S (15 - 2 * length (pre ++ post))) by llia. done.
  - rewrite length_app, length_replicate, length_words_bytes. llia.
Qed.

(** The same when the last word of [post] is still to be stored. *)
Lemma pton6_finish_pending dst ct c done w :
  (length (done ++ [w]) <= 8)%nat -> 0 <= w < 65536 ->
  pton6_finish dst (mk done (Some c) ct true w) =
  pton6_finish dst (mk (done ++ [w]) (Some c) ct false w).
Proof.
  intros Hl Hw. unfold pton6_finish, mk. cbn [tmp6 tp6 colonp saw_xdigit val].
  destruct (Nat.ltb_spec Pton.IN6ADDRSZ (2 * length done + INT16SZ));
    [unfold Pton.IN6ADDRSZ, INT16SZ in *; llia|].
  rewrite put_word_mk by (done || llia). cbn [mbind option_bind].
  by replace (2 * length done + 2)%nat with (2 * length (done ++ [w]))%nat by llia.
Qed.

(** * Reading back the texts of [inet_ntop6] *)

Definition pton6_body (src : cstring) (dst : list Z) : option (Z * list Z) :=
  r ← pton6_loop src (mk [] None src false 0);
  match r with
  | Return rc => Some (rc, dst)
  | Next s | Break s => pton6_finish dst s
  end.

Lemma inet_pton6_body_hex w rest dst :
  inet_pton6 (print_u 16 w ++ rest) dst = pton6_body (print_u 16 w ++ rest) dst.
Proof.
  pose proof (print_u_nonempty 16 w) as Hne.
  assert (Forall (fun c => c <> 58) (print_u 16 w)) as Hc.
  { unfold print_u. apply Forall_fmap. eapply Forall_impl;
      [apply digits_of_range; [lia|apply Forall_nil_2]|].
    intros d Hd. cbn in *. unfold digit_char. destruct (Z.ltb_spec d 10); lia. }
  destruct (print_u 16 w) as [|c r]; [done|]. apply Forall_cons in Hc as [Hc _].
  cbn [app]. unfold inet_pton6. destruct c as [|c|]; try done.
  do 6 (destruct c as [c|c|]; try done).
Qed.

Lemma inet_pton6_body_colons rest dst : inet_pton6 (58 :: 58 :: rest) dst = pton6_body (58 :: rest) dst.
Proof. done. Qed.

(** From [::] on, with the words [pre] read and stored. *)
Lemma pton6_tail dst pre post i ct :
  words_ok post -> (i <> 0)%nat -> (length pre + length post < 8)%nat -> length dst = 16%nat ->
  exists s,
    pton6_loop (pieces i post ++ (if bool_decide (post = []) then [58] else []))
      (mk pre None ct false 0) = Some (Next s) /\
    pton6_finish dst s =
      Some (1, words_bytes (pre ++ replicate (8 - length pre - length post) 0 ++ post)).
Proof.
  intros Hok Hi Hl Hd. destruct post as [|p ps].
  - cbn [bool_decide]. rewrite bool_decide_true by done. cbn [pieces imap concat app].
    eexists. split; [rewrite pton6_loop_coloncolon; reflexivity|].
    rewrite <- (app_nil_r pre) at 1. by rewrite pton6_finish_shift.
  - rewrite bool_decide_false by done. rewrite pieces_cons, app_nil_r. unfold piece.
    destruct (Nat.eqb_spec i 0); [done|]. cbn [app].
    apply Forall_cons in Hok as Hp. destruct Hp as [Hp _].
    rewrite pton6_loop_coloncolon, pton6_loop_hex_mk by done.
    destruct (pton6_loop_pieces ps (S i) pre p (Some (2 * length pre)%nat)
      (print_u 16 p ++ pieces (S i) ps) [] Hok) as (d' & w' & ct' & E & Ed & Hw'); [lia|llia|].
    rewrite app_nil_r in E. rewrite E. eexists. split; [reflexivity|].
    rewrite pton6_finish_pending; [|rewrite Ed; llia|done].
    rewrite Ed. by rewrite pton6_finish_shift.
Qed.

(** A dotted quad at the end. *)
Lemma pton6_loop_quad done colon w6 w7 :
  (length done <= 6)%nat -> 0 <= w6 < 65536 -> 0 <= w7 < 65536 ->
  exists ct v,
    pton6_loop (quad_of w6 w7) (mk done colon (quad_of w6 w7) false 0) =
    Some (Break (mk (done ++ [w6; w7]) colon ct false v)).
Proof.
  intros Hl H6 H7. pose proof (quad_of_bytes w6 w7 H6 H7) as Hb.
  pose proof (quad_text_dotted _ _ _ _ Hb) as Hq. fold (quad_of w6 w7) in Hq.
  assert (exists rest, quad_of w6 w7 = print_u 10 (w6 / 256) ++ 46 :: rest) as [rest E] by (by eexists).
  remember (quad_of w6 w7) as ct eqn:Hct. clear Hct. exists ct.
  assert (pton6_loop ct (mk done colon ct false 0) =
    pton6_loop (print_u 10 (w6 / 256) ++ 46 :: rest) (mk done colon ct false 0)) as -> by (by rewrite <- E).
  pose proof (digits_of_range 10 (S (Z.to_nat (Z.log2 (w6 / 256)))) (w6 / 256) [] ltac:(lia) (Forall_nil_2 _)) as Hr.
  apply Forall_cons in Hb as [Ha _].
  pose proof (print_u_length 10 (w6 / 256) 2 ltac:(lia) ltac:(cbn; lia)) as Hlen.
  unfold print_u in Hlen |- *. rewrite length_fmap in Hlen.
  set (ds := digits_of _ _ _ _) in *.
  assert (Forall (fun d => 0 <= d < 16) ds) as Hr16 by (eapply Forall_impl; [done|cbn; lia]).
  pose proof (fold16_mono ds 0 ltac:(lia) Hr16). pose proof (fold16_bound ds 0 ltac:(lia) Hr16) as Hbd.
  assert (16 ^ Z.of_nat (length ds) <= 16 ^ 3) by (apply Z.pow_le_mono_r; lia).
  rewrite pton6_loop_xdigits; [|done|done|unfold mk; cbn [val]; lia]. eexists.
  cbn [pton6_loop]. unfold pton6_step. change (xdigit_val 46) with (@None nat).
  unfold mk. cbn [tmp6 tp6 colonp curtok saw_xdigit val Z.eqb Pos.eqb andb].
  destruct (Nat.leb_spec (2 * length done + INADDRSZ) Pton.IN6ADDRSZ);
    [|unfold INADDRSZ, Pton.IN6ADDRSZ in *; lia].
  erewrite inet_pton4_accept; [|done|rewrite length_app, length_words_bytes; llia].
  cbn [mbind option_bind Z.gtb Z.compare]. do 2 f_equal.
  assert (2 * length (done ++ [w6; w7]) = 2 * length done + INADDRSZ)%nat as -> by (unfold INADDRSZ; llia).
  f_equal. pose proof (length_words_bytes done) as L. rewrite <- L, take_app_length.
  rewrite drop_app_ge by lia. replace (length (words_bytes done) + 4 - length (words_bytes done))%nat with 4%nat by lia.
  rewrite drop_replicate, words_bytes_app, <- app_assoc. f_equal. cbn [app].
  rewrite !words_bytes_cons. cbn [app]. do 4 f_equal.
  change (words_bytes []) with (@nil Z). cbn [app]. f_equal. unfold INADDRSZ. lia.
Qed.

(** [inet_pton6] inverts the formatting. *)
Lemma inet_pton6_shape ws t dst :
  words_ok ws -> length ws = 8%nat -> ntop6_shape ws t -> length dst = 16%nat ->
  inet_pton6 t dst = Some (1, words_bytes ws).
Proof.
  intros Hok Hl Hs Hd. destruct Hs as [Hb|pre l post -> Hl2 Hb|mid w6 w7 l -> Hm].
  - destruct ws as [|w ws]; [done|]. rewrite pieces_cons. unfold piece. cbn [Nat.eqb app].
    rewrite inet_pton6_body_hex. unfold pton6_body.
    apply Forall_cons in Hok as Hw. destruct Hw as [Hw _].
    rewrite pton6_loop_hex_mk by done.
    destruct (pton6_loop_pieces ws 1 [] w None (print_u 16 w ++ pieces 1 ws) [] Hok)
      as (d' & w' & ct' & E & Ed & Hw'); [lia|llia|].
    rewrite app_nil_r in E. rewrite E. cbn [mbind option_bind pton6_loop].
    cbn [app] in Ed. by rewrite pton6_finish_full, Ed by (rewrite ?Ed; done).
  - rewrite !Forall_app in Hok. destruct Hok as (Hpre & _ & Hpost).
    assert (length pre + l + length post = 8)%nat as Hsum by llia.
    assert (8 - length pre - length post = l)%nat as Hll by lia.
    destruct pre as [|p ps].
    + cbn [app pieces imap concat length Nat.add].
      destruct (pton6_tail dst [] post l (pieces l post ++ (if bool_decide (post = []) then [58] else [])))
        as (s & E & Ef); try done; [lia|llia|].
      assert (exists r, pieces l post ++ (if bool_decide (post = []) then [58] else []) = 58 :: r) as [r Hr].
      { destruct post as [|q qs]; [by eexists|]. rewrite pieces_cons. unfold piece.
        destruct (Nat.eqb_spec l 0); [lia|]. by eexists. }
      rewrite Hr in *. rewrite inet_pton6_body_colons. unfold pton6_body. rewrite E. cbn [mbind option_bind].
      rewrite Ef. cbn [length] in Hll. cbn [app length]. by rewrite Hll.
    + rewrite pieces_cons. unfold piece at 1. cbn [Nat.eqb app]. rewrite <- app_assoc.
      rewrite inet_pton6_body_hex. unfold pton6_body.
      apply Forall_cons in Hpre as Hp. destruct Hp as [Hp _].
      rewrite pton6_loop_hex_mk by done.
      set (tail := pieces _ post ++ _).
      destruct (pton6_loop_pieces ps 1 [] p None (print_u 16 p ++ pieces 1 ps ++ 58 :: tail) (58 :: tail) Hpre)
        as (d' & w' & ct' & E & Ed & Hw'); [lia|llia|].
      rewrite E. rewrite pton6_loop_colon; [|apply (f_equal length) in Ed; llia|done].
      rewrite Ed. cbn [app].
      destruct (pton6_tail dst (p :: ps) post (length (p :: ps) + l) tail) as (s & E2 & Ef); try done; [lia|].
      subst tail. rewrite E2. cbn [mbind option_bind]. rewrite Ef, Hll. done.
  - rewrite !Forall_app, !Forall_cons in Hok. destruct Hok as (_ & Hmid & H6 & H7 & _).
    destruct Hm as [[-> ->]|[-> ->]].
    + cbn [app pieces imap concat]. rewrite inet_pton6_body_colons. unfold pton6_body.
      rewrite pton6_loop_coloncolon.
      destruct (pton6_loop_quad [] (Some 0%nat) w6 w7) as (ct & v & E); [cbn; lia|done|done|].
      change (2 * length (@nil Z))%nat with 0%nat. rewrite E. cbn [mbind option_bind].
      by apply (pton6_finish_shift dst ct [] [w6; w7] v); [cbn; lia|].
    + change (pieces 5 [65535]) with (58 :: print_u 16 65535 ++ []). rewrite app_nil_r. cbn [app].
      rewrite inet_pton6_body_colons. unfold pton6_body.
      rewrite pton6_loop_coloncolon, pton6_loop_hex_mk, pton6_loop_colon by (cbn; lia).
      change (2 * length (@nil Z))%nat with 0%nat. cbn [app].
      destruct (pton6_loop_quad [65535] (Some 0%nat) w6 w7) as (ct & v & E); [cbn; lia|done|done|].
      rewrite E. cbn [mbind option_bind app].
      by apply (pton6_finish_shift dst ct [] [65535; w6; w7] v); [cbn; lia|].
Qed.
