(* ===== verification/InetClaims.v ===== *)
(** The properties of the address conversion functions (src/unpv13e/libfree), stated on the
    functions themselves and proved from the lemmas of [PtonFacts] and
    [Inet6Facts]. *)

From S2P Require Import Prelude CText InetAddr PtonFacts Inet6Facts.
Import Pton Ntop.

(** * Memory safety of [inet_pton6] *)

Definition pton6_inv (s : pton6_state) : Prop :=
  length (tmp6 s) = 16%nat /\ (tp6 s <= 16)%nat /\
  (forall c, colonp s = Some c -> (c <= tp6 s)%nat).

Lemma put_word_safe tmp tp v :
  length tmp = 16%nat -> (tp + 2 <= 16)%nat ->
  exists tmp', put_word tmp tp v = Some tmp' /\ length tmp' = 16%nat.
Proof.
  intros Hl Ht. unfold put_word. rewrite store_ok by lia. cbn [mbind option_bind].
  rewrite store_ok by (rewrite length_insert; lia). eexists. split; [done|].
  by rewrite !length_insert.
Qed.

Lemma inet_pton4_cases s dst off :
  (off + 4 <= length dst)%nat ->
  inet_pton4 s dst off = Some (0, dst) \/
  exists dst', inet_pton4 s dst off = Some (1, dst') /\ length dst' = length dst.
Proof.
  intros Hl. unfold inet_pton4.
  destruct (pton4_loop_inv s [] pton4_init pton4_inv_init) as [->|(s' & -> & Hs')]; cbn; [by left|].
  destruct (octets s' <? 4); [by left|right].
  destruct Hs' as (fs & cur & _ & _ & _ & _ & H4 & _).
  rewrite memcpy_ok by lia. cbn. eexists. split; [done|]. llia.
Qed.

Lemma pton6_step_safe ch src' s :
  pton6_inv s ->
  exists r, pton6_step ch src' s = Some r /\
    match r with Next s' | Break s' => pton6_inv s' | Return rc => rc = 0 end.
Proof.
  destruct s as [tmp tp colon ct saw v]. intros (Hl & Ht & Hc). cbn in *. unfold pton6_step.
  destruct (xdigit_val ch) as [d|]; cbn [tmp6 tp6 colonp curtok saw_xdigit val].
  { destruct (_ >? 65535); eexists; (split; [done|]); by split_and?. }
  destruct (ch =? 58).
  { destruct saw; cbn [negb].
    - destruct (Nat.ltb_spec Pton.IN6ADDRSZ (tp + INT16SZ)) as [|Hle]; [by eexists|].
      unfold Pton.IN6ADDRSZ, INT16SZ in Hle.
      destruct (put_word_safe tmp tp v Hl ltac:(lia)) as (tmp' & -> & Hl'). eexists. split; [done|].
      repeat split; cbn; [done|lia|]. intros c E. specialize (Hc c E). lia.
    - destruct colon as [c|]; [by eexists|]. eexists. split; [done|].
      repeat split; cbn; [done|done|]. by intros c [= <-]. }
  destruct (_ && _) eqn:E; [|by eexists]. apply andb_true_iff in E as [_ E].
  apply Nat.leb_le in E. unfold INADDRSZ, Pton.IN6ADDRSZ in E.
  destruct (inet_pton4_cases ct tmp tp ltac:(lia)) as [->|(tmp' & -> & Hl')]; cbn; [by eexists|].
  eexists. split; [done|]. unfold INADDRSZ. repeat split; cbn; [lia|lia|].
  intros c Ec. specialize (Hc c Ec). lia.
Qed.

Lemma pton6_loop_safe src s :
  pton6_inv s ->
  exists r, pton6_loop src s = Some r /\
    match r with Next s' | Break s' => pton6_inv s' | Return rc => rc = 0 end.
Proof.
  revert s. induction src as [|ch src IH]; intros s Hs; cbn [pton6_loop]; [eauto|].
  destruct (pton6_step_safe ch src s Hs) as ([s'|s'|rc] & -> & Hr); cbn [mbind option_bind]; eauto.
Qed.

Lemma pton6_shift_safe todo i n colon tmp :
  length tmp = 16%nat -> (1 <= i)%nat -> (i + todo <= S n)%nat -> (colon + n <= 16)%nat ->
  exists tmp', pton6_shift todo i n colon tmp = Some tmp' /\ length tmp' = 16%nat.
Proof.
  revert i tmp. induction todo as [|todo IH]; intros i tmp Hl Hi Ht Hc; cbn [pton6_shift]; [eauto|].
  destruct (tmp !! (colon + n - i)%nat) as [x|] eqn:E; [|apply lookup_ge_None in E; lia].
  cbn [mbind option_bind]. unfold Pton.IN6ADDRSZ.
  rewrite store_ok by lia. cbn [mbind option_bind].
  rewrite store_ok by (rewrite length_insert; lia). cbn [mbind option_bind].
  apply IH; rewrite ?length_insert; lia.
Qed.

Lemma pton6_finish_safe dst s :
  pton6_inv s -> length dst = 16%nat ->
  pton6_finish dst s = Some (0, dst) \/
  exists dst', pton6_finish dst s = Some (1, dst') /\ length dst' = 16%nat.
Proof.
  destruct s as [tmp tp colon ct saw v]. intros (Hl & Ht & Hc) Hd. cbn in *. unfold pton6_finish.
  cbn [tmp6 tp6 colonp curtok saw_xdigit val].
  assert (forall tmp0 tp0, length tmp0 = 16%nat ->
    let f := (if negb (tp0 =? Pton.IN6ADDRSZ)%nat then Some (0, dst)
              else dst' ← memcpy dst 0 tmp0; Some (1, dst')) in
    f = Some (0, dst) \/ exists dst', f = Some (1, dst') /\ length dst' = 16%nat) as Hfin.
  { intros tmp0 tp0 H0. cbn zeta. destruct (negb _); [by left|right].
    rewrite memcpy_ok by lia. cbn. eexists. split; [done|]. llia. }
  assert (forall tmp0 tp0, length tmp0 = 16%nat -> (tp <= tp0 <= 16)%nat ->
    let f := match colon with
             | Some c => tmp' ← pton6_shift (tp0 - c) 1 (tp0 - c) c tmp0;
                 (if negb (Pton.IN6ADDRSZ =? Pton.IN6ADDRSZ)%nat then Some (0, dst)
                  else dst' ← memcpy dst 0 tmp'; Some (1, dst'))
             | None => if negb (tp0 =? Pton.IN6ADDRSZ)%nat then Some (0, dst)
                       else dst' ← memcpy dst 0 tmp0; Some (1, dst')
             end in
    f = Some (0, dst) \/ exists dst', f = Some (1, dst') /\ length dst' = 16%nat) as Hafter.
  { intros tmp0 tp0 H0 Htp. cbn zeta. destruct colon as [c|]; [|by apply Hfin].
    specialize (Hc c eq_refl).
    destruct (pton6_shift_safe (tp0 - c) 1 (tp0 - c) c tmp0) as (tmp1 & -> & H1); [done|lia|lia|lia|].
    cbn [mbind option_bind]. by apply Hfin. }
  destruct saw; [|by apply Hafter].
  destruct (Nat.ltb_spec Pton.IN6ADDRSZ (tp + INT16SZ)) as [|Hle]; [by left|].
  unfold Pton.IN6ADDRSZ, INT16SZ in Hle.
  destruct (put_word_safe tmp tp v Hl ltac:(lia)) as (tmp' & -> & Hl'). cbn [mbind option_bind].
  apply Hafter; [done|lia].
Qed.

Lemma inet_pton6_total s dst :
  length dst = 16%nat ->
  inet_pton6 s dst = Some (0, dst) \/
  exists dst', inet_pton6 s dst = Some (1, dst') /\ length dst' = 16%nat.
Proof.
  intros Hd.
  assert (forall src, pton6_body src dst = Some (0, dst) \/
    exists dst', pton6_body src dst = Some (1, dst') /\ length dst' = 16%nat) as Hbody.
  { intros src. unfold pton6_body.
    destruct (pton6_loop_safe src (mk [] None src false 0)) as ([s'|s'|rc] & -> & Hr);
      [split_and!; [done|cbn; lia|done]| | |]; cbn [mbind option_bind].
    1, 2: by apply pton6_finish_safe.
    subst rc. by left. }
  destruct s as [|c s]; [apply Hbody|].
  destruct (Z.eqb_spec c 58) as [->|Hc].
  - destruct s as [|c2 s]; [by left|]. destruct (Z.eqb_spec c2 58) as [->|Hc2]; [apply Hbody|left].
    unfold inet_pton6. destruct c2 as [|p|]; try done. do 6 (destruct p as [p|p|]; try done).
  - specialize (Hbody (c :: s)).
    assert (inet_pton6 (c :: s) dst = pton6_body (c :: s) dst) as ->; [|done].
    unfold inet_pton6. destruct c as [|p|]; try done. do 6 (destruct p as [p|p|]; try done).
Qed.

(** * inet_aton on dotted quads *)

Lemma aton_loop_digits ds rest dots acc addr :
  Forall (fun c => isdigit c = true) ds -> 0 <= acc ->
  foldl (fun a d => a * 10 + d) acc ((fun c => c - 48) <$> ds) <= 255 ->
  Aton.aton_loop (ds ++ rest) (Aton.AS dots acc addr) =
  Aton.aton_loop rest
    (Aton.AS dots (foldl (fun a d => a * 10 + d) acc ((fun c => c - 48) <$> ds)) addr).
Proof.
  intros Hds. revert acc. induction Hds as [|c ds Hc Hds IH]; intros acc Ha Hle; [done|].
  cbn in Hle |- *. apply isdigit_range in Hc as Hr.
  pose proof (foldl_dec_nonneg ds (acc * 10 + (c - 48)) ltac:(lia) Hds).
  unfold Aton.aton_step. rewrite Hc. cbn. rewrite wrap_small by lia. by apply IH; lia.
Qed.

Lemma aton_loop_field f rest dots addr :
  field_ok f ->
  Aton.aton_loop (f ++ rest) (Aton.AS dots 0 addr) =
  Aton.aton_loop rest (Aton.AS dots (dec_value f) addr).
Proof. intros (_ & Hd & Hv). by apply aton_loop_digits. Qed.

Lemma aton_loop_dot rest dots v addr :
  dots < 3 -> 0 <= v <= 255 -> 0 <= addr < 2 ^ 24 ->
  Aton.aton_loop (46 :: rest) (Aton.AS dots v addr) =
  Aton.aton_loop rest (Aton.AS (dots + 1) 0 (addr * 256 + v)).
Proof.
  intros Hd Hv Ha. cbn. unfold Aton.aton_step. cbn.
  destruct (dots + 1 >? 3) eqn:E; [blia|]. unfold Aton.aton_octet. cbn.
  destruct (v >? 255) eqn:E2; [blia|].
  rewrite wrap_small by (rewrite Z.shiftl_mul_pow2 by lia; lia). by rewrite (lor_shift addr v 8) by lia.
Qed.

Lemma inet_aton_quad s a b c d :
  dotted_quad s [a; b; c; d] ->
  bytes_ok [a; b; c; d] /\ Aton.inet_aton s = Some (((a * 256 + b) * 256 + c) * 256 + d).
Proof.
  intros (fa & fb & fc & fd & -> & Hok & [= -> -> -> ->]).
  rewrite !Forall_cons in Hok. destruct Hok as (Ha & Hb & Hc & Hd & _).
  assert (forall f, field_ok f -> 0 <= dec_value f < 256) as Hr.
  { intros f (_ & Hf & Hv). pose proof (dec_value_nonneg f Hf). lia. }
  pose proof (Hr _ Ha). pose proof (Hr _ Hb). pose proof (Hr _ Hc). pose proof (Hr _ Hd).
  split; [rewrite !Forall_cons; auto using Forall_nil_2|].
  unfold Aton.inet_aton.
  rewrite aton_loop_field, aton_loop_dot by (done || lia).
  rewrite aton_loop_field, aton_loop_dot by (done || lia).
  rewrite aton_loop_field, aton_loop_dot by (done || lia).
  rewrite <- (app_nil_r fd) at 1. rewrite aton_loop_field by done.
  cbn. unfold Aton.aton_step, Aton.aton_octet. cbn.
  destruct (dec_value fd >? 255) eqn:E; [blia|]. cbn.
  change (0 + 1 + 1 + 1 <? 3) with false. cbn match.
  rewrite wrap_small by (rewrite Z.shiftl_mul_pow2 by lia; lia).
  by rewrite (lor_shift _ (dec_value fd) 8) by lia.
Qed.

Lemma be32_bytes_spec a b c d :
  bytes_ok [a; b; c; d] ->
  Aton.be32_bytes (((a * 256 + b) * 256 + c) * 256 + d) = [a; b; c; d].
Proof.
  rewrite !Forall_cons. intros (Ha & Hb & Hc & Hd & _). unfold Aton.be32_bytes.
  rewrite !Z.shiftr_div_pow2 by lia.
  change (2 ^ 24) with (256 * (256 * 256)). change (2 ^ 16) with (256 * 256). change (2 ^ 8) with 256.
  rewrite <- !Z.div_div by lia.
  assert (forall x y, 0 <= y < 256 -> (x * 256 + y) / 256 = x) as Hdiv.
  { intros x y Hy. rewrite Z.add_comm, Z.div_add by lia. rewrite Z.div_small; lia. }
  assert (forall x y, 0 <= y < 256 -> u8 (x * 256 + y) = y) as Hmod.
  { intros x y Hy. unfold wrap. change (2 ^ 8) with 256. rewrite Z.add_comm, Z.mod_add by lia.
    by apply Z.mod_small. }
  rewrite !Hdiv, !Hmod by done. by rewrite wrap_small.
Qed.

(** * Claims *)

(** C2: [inet_pton4] accepts exactly the dotted quads (four nonempty decimal fields of value at
    most 255, separated by dots): on one it returns 1 and stores its four octets at
    [dst + off]; on any other string it returns 0 and leaves [dst] as it was. *)
Theorem inet_pton4_correct s dst off :
  (off + 4 <= length dst)%nat ->
  (forall q, dotted_quad s q ->
     inet_pton4 s dst off = Some (1, take off dst ++ q ++ drop (off + 4) dst)) /\
  ((forall q, ~ dotted_quad s q) -> inet_pton4 s dst off = Some (0, dst)).
Proof.
  intros Hl. split.
  - intros q Hq. by apply inet_pton4_accept.
  - apply inet_pton4_reject.
Qed.

Lemma inet_pton4_correct_witness :
  inet_pton4 c["192.168.0.1"] (replicate 4 0) 0 = Some (1, [192; 168; 0; 1]).
Proof.
  apply (proj1 (inet_pton4_correct c["192.168.0.1"] (replicate 4 0) 0 ltac:(cbn; lia))
           [192; 168; 0; 1]).
  exists c["192"], c["168"], c["0"], c["1"]. split; [reflexivity|]. split; [|reflexivity].
  repeat constructor; done.
Defined.

(** C1: IPv6 round trip.  For every 16-byte address, [inet_ntop6] into a buffer of
    [INET6_ADDRSTRLEN] bytes succeeds, and [inet_pton6] reads the text back to the same 16
    bytes. *)
Theorem inet6_roundtrip src dst out :
  length src = 16%nat -> bytes_ok src ->
  Z.of_nat (length dst) = INET6_ADDRSTRLEN -> length out = 16%nat ->
  exists dst',
    inet_ntop6 src dst INET6_ADDRSTRLEN = Some (inr dst') /\
    inet_pton6 (cstring_at dst' 0) out = Some (1, src).
Proof.
  intros Hl Hb Hd Ho. unfold INET6_ADDRSTRLEN in *.
  destruct (inet_ntop6_shape src Hl Hb) as (ws & t & Hws & Hok & H8 & Hs & Hn & Ht & E).
  rewrite E. destruct (_ >? 46) eqn:G; [blia|].
  rewrite put_text_ok by lia. cbn [fmap option_fmap option_map]. eexists. split; [done|].
  rewrite (cstring_at_text [] t) by done. rewrite <- Hws. by apply inet_pton6_shape.
Qed.

Lemma inet6_roundtrip_witness :
  exists dst',
    inet_ntop6 [254; 128; 0; 0; 0; 0; 0; 0; 0; 0; 0; 0; 0; 0; 0; 1] (replicate 46 0) 46 = Some (inr dst') /\
    inet_pton6 (cstring_at dst' 0) (replicate 16 0) =
      Some (1, [254; 128; 0; 0; 0; 0; 0; 0; 0; 0; 0; 0; 0; 0; 0; 1]).
Proof.
  apply (inet6_roundtrip [254; 128; 0; 0; 0; 0; 0; 0; 0; 0; 0; 0; 0; 0; 0; 1] (replicate 46 0)
           (replicate 16 0)); [reflexivity| |reflexivity|reflexivity].
  rewrite !Forall_cons. repeat split; (lia || apply Forall_nil_2).
Defined.

(** C3: [inet_pton6] is memory safe on every string: no access leaves [src], [tmp] or the
    16 bytes of [dst], it returns 0 or 1, and [dst] is untouched when it returns 0. *)
Theorem inet_pton6_safe s dst :
  length dst = 16%nat ->
  inet_pton6 s dst = Some (0, dst) \/
  exists dst', inet_pton6 s dst = Some (1, dst') /\ length dst' = 16%nat.
Proof. apply inet_pton6_total. Qed.

Lemma inet_pton6_safe_witness :
  inet_pton6 c["1::2::3"] (replicate 16 7) = Some (0, replicate 16 7) \/
  exists dst', inet_pton6 c["1::2::3"] (replicate 16 7) = Some (1, dst') /\ length dst' = 16%nat.
Proof. apply (inet_pton6_safe c["1::2::3"] (replicate 16 7)). reflexivity. Defined.

(** [inet_ntop6] never writes outside a destination of [size] bytes: it either fails with
    [ENOSPC] and does so exactly when the text and its NUL do not fit, or fills the buffer. *)
Theorem inet_ntop6_in_bounds src dst :
  length src = 16%nat -> bytes_ok src ->
  exists t, (length t <= 45)%nat /\
    ((length dst <= length t)%nat ->
       inet_ntop6 src dst (Z.of_nat (length dst)) = Some (inl ENOSPC)) /\
    ((length t < length dst)%nat ->
       exists dst', inet_ntop6 src dst (Z.of_nat (length dst)) = Some (inr dst') /\
         length dst' = length dst /\ cstring_at dst' 0 = t).
Proof.
  intros Hl Hb.
  destruct (inet_ntop6_shape src Hl Hb) as (ws & t & _ & _ & _ & _ & Hn & Ht & E).
  exists t. split; [done|]. split; intros Hd; rewrite E.
  - destruct (_ >? _) eqn:G; [done|blia].
  - destruct (_ >? _) eqn:G; [blia|]. rewrite put_text_ok by lia.
    cbn [fmap option_fmap option_map]. eexists. split; [done|]. split; [llia|].
    by apply (cstring_at_text [] t).
Qed.

Lemma inet_ntop6_in_bounds_witness :
  exists t, (length t <= 45)%nat /\
    ((length (replicate 3 0) <= length t)%nat ->
       inet_ntop6 (replicate 15 0 ++ [1]) (replicate 3 0) (Z.of_nat (length (replicate 3 0))) = Some (inl ENOSPC)) /\
    ((length t < length (replicate 3 0))%nat ->
       exists dst', inet_ntop6 (replicate 15 0 ++ [1]) (replicate 3 0) (Z.of_nat (length (replicate 3 0))) = Some (inr dst') /\
         length dst' = length (replicate 3 0) /\ cstring_at dst' 0 = t).
Proof.
  apply (inet_ntop6_in_bounds (replicate 15 0 ++ [1]) (replicate 3 0)); [reflexivity|].
  cbn [replicate app]. rewrite !Forall_cons. repeat split; (lia || apply Forall_nil_2).
Defined.

(** The IPv4-only [inet_pton] (built on [inet_aton]) agrees with the BIND [inet_pton] on
    every dotted quad: both return 1 and store the same four bytes. *)
Theorem inet_pton_variants_agree s q dst :
  dotted_quad s q -> (4 <= length dst)%nat ->
  Ipv4Only.inet_pton AF_INET s dst = Some (1, q ++ drop 4 dst, None) /\
  inet_pton AF_INET s dst = Some (1, q ++ drop 4 dst, None).
Proof.
  intros Hq Hl. split.
  - pose proof (dotted_quad_length s q Hq) as L.
    destruct q as [|a [|b [|c [|d [|]]]]]; try done.
    destruct (inet_aton_quad s a b c d Hq) as [Hb E].
    unfold Ipv4Only.inet_pton. cbn [Z.eqb Pos.eqb AF_INET]. rewrite E, be32_bytes_spec by done.
    rewrite memcpy_ok by (cbn [length]; lia). done.
  - unfold inet_pton. cbn [Z.eqb Pos.eqb AF_INET]. by rewrite (inet_pton4_accept s q).
Qed.

Lemma inet_pton_variants_agree_witness :
  Ipv4Only.inet_pton AF_INET c["10.0.0.7"] [9; 9; 9; 9] = Some (1, [10; 0; 0; 7], None) /\
  inet_pton AF_INET c["10.0.0.7"] [9; 9; 9; 9] = Some (1, [10; 0; 0; 7], None).
Proof.
  apply (inet_pton_variants_agree c["10.0.0.7"] [10; 0; 0; 7] [9; 9; 9; 9]); [|cbn; lia].
  exists c["10"], c["0"], c["0"], c["7"]. split; [reflexivity|]. split; [|reflexivity].
  repeat constructor; done.
Defined.

(** * Where the code departs from its comments *)

(** [inet_ntop4] tests [strlen (tmp) > size]: a buffer of exactly [strlen] bytes passes the
    test and the NUL is written one past its end. *)
Lemma inet_ntop4_overflow a b c d dst :
  bytes_ok [a; b; c; d] ->
  inet_ntop4 [a; b; c; d] dst 0 (Z.of_nat (length dst)) = None <->
  length dst = length (quad_text a b c d).
Proof.
  intros H. rewrite inet_ntop4_spec by done. destruct (_ >? _) eqn:E.
  - split; [done|]. intros E2. rewrite E2 in E. blia.
  - unfold put_text, memcpy. cbn [Nat.add]. destruct (decide _) as [D|D].
    + split; [done|]. llia.
    + split; [|done]. blia || (bool_to_prop; llia).
Qed.

(** The header of [inet_pton6] says that [::] in a full address is silently ignored; the shift
    loop zeroes the words behind it. *)
Lemma inet_pton6_full_coloncolon :
  inet_pton6 c["1:2:3:4:5:6:7::8"] (replicate 16 0) =
    Some (1, [0; 1; 0; 2; 0; 3; 0; 4; 0; 5; 0; 6; 0; 7; 0; 0]).
Proof. reflexivity. Qed.

(** A trailing single colon is accepted. *)
Lemma inet_pton6_trailing_colon :
  inet_pton6 c["1:2:3:4:5:6:7:8:"] (replicate 16 0) =
    Some (1, [0; 1; 0; 2; 0; 3; 0; 4; 0; 5; 0; 6; 0; 7; 0; 8]).
Proof. reflexivity. Qed.

(** [inet_aton] accepts the empty string, empty fields and fields that overflow [u_long]. *)
Lemma inet_aton_accepts_invalid :
  Aton.inet_aton c[""] = Some 0 /\ Aton.inet_aton c["1..2"] = Some 16777728 /\
  Aton.inet_aton c["18446744073709551617.2.3.4"] = Some 16909060.
Proof. by vm_compute. Qed.
