(* ===== verification/Cksum.v ===== *)
(** The Internet checksum (src/unpv13e/libfree/in_cksum.c): what it computes, that a packet
    carrying its checksum verifies to zero, and that the result does not depend on the byte
    order of the host once it is back in memory. *)

From S2P Require Import Prelude.

Section Host.

(** Byte order of the host: how a [uint16_t] is read from two bytes of memory. *)
Variable little : bool.

Definition word16 (a b : Z) : Z := if little then a + 256 * b else 256 * a + b.

(** The two bytes of a [uint16_t] in memory. *)
Definition bytes16 (w : Z) : list Z :=
  if little then [w mod 256; w / 256] else [w / 256; w mod 256].

(** The [while (nleft > 1)] loop and the odd byte: [answer] is 0 and its first byte in memory is
    overwritten, which is the word [word16 a 0]. *)
Fixpoint cksum_sum (buf : list Z) (sum : Z) : Z :=
  match buf with
  | a :: b :: rest => cksum_sum rest (u32 (sum + word16 a b))
  | [a] => u32 (sum + word16 a 0)
  | [] => sum
  end.

(** [sum = (sum >> 16) + (sum & 0xffff); sum += (sum >> 16);] *)
Definition cksum_fold (sum : Z) : Z :=
  let s1 := u32 (Z.shiftr sum 16 + Z.land sum 65535) in
  u32 (s1 + Z.shiftr s1 16).

Definition in_cksum (buf : list Z) : Z := u16 (Z.lnot (cksum_fold (cksum_sum buf 0))).

(** * What it computes *)

(** The sum of the 16-bit words, an odd byte at the end being padded with a zero byte. *)
Fixpoint word_sum (buf : list Z) : Z :=
  match buf with
  | a :: b :: rest => word16 a b + word_sum rest
  | [a] => word16 a 0
  | [] => 0
  end.

(** One's complement addition of 16-bit words: the representative of a sum in [1 .. 65535], and
    0 for the empty sum. *)
Definition ones_sum (s : Z) : Z := if s =? 0 then 0 else (s - 1) mod 65535 + 1.

Lemma word16_range a b : 0 <= a < 256 -> 0 <= b < 256 -> 0 <= word16 a b < 65536.
Proof. intros Ha Hb. unfold word16. destruct little; lia. Qed.

Lemma list_pair_ind {A} (P : list A -> Prop) :
  P [] -> (forall a, P [a]) -> (forall a b l, P l -> P (a :: b :: l)) -> forall l, P l.
Proof.
  intros H0 H1 H2. fix IH 1. intros [|a [|b l]]; [done|done|]. apply H2, IH.
Qed.

Lemma word_sum_bound buf :
  bytes_ok buf -> 0 <= word_sum buf <= 65535 * ((Z.of_nat (length buf) + 1) / 2).
Proof.
  induction buf as [|a|a b buf IH] using list_pair_ind; intros H.
  - done.
  - rewrite Forall_singleton in H. pose proof (word16_range a 0 ltac:(lia) ltac:(lia)).
    cbn [word_sum length]. change ((Z.of_nat 1 + 1) / 2) with 1. lia.
  - rewrite !Forall_cons in H. destruct H as (Ha & Hb & Hr). specialize (IH Hr).
    pose proof (word16_range a b Ha Hb). cbn [word_sum length].
    replace (Z.of_nat (S (S (length buf))) + 1) with (Z.of_nat (length buf) + 1 + 1 * 2) by lia.
    rewrite Z.div_add by lia. lia.
Qed.

(** The 32-bit accumulator does not overflow on at most 65537 words. *)
Lemma cksum_sum_spec buf sum :
  bytes_ok buf -> 0 <= sum -> sum + word_sum buf < 2 ^ 32 ->
  cksum_sum buf sum = sum + word_sum buf.
Proof.
  revert sum. induction buf as [|a|a b buf IH] using list_pair_ind; intros sum H Hs Hlt.
  - cbn. lia.
  - rewrite Forall_singleton in H. pose proof (word16_range a 0 ltac:(lia) ltac:(lia)).
    cbn in *. unfold wrap. apply Z.mod_small. lia.
  - rewrite !Forall_cons in H. destruct H as (Ha & Hb & Hr).
    pose proof (word16_range a b Ha Hb). pose proof (word_sum_bound buf Hr).
    cbn [cksum_sum word_sum] in *.
    assert (u32 (sum + word16 a b) = sum + word16 a b) as -> by (apply Z.mod_small; lia).
    rewrite IH by (done || lia). lia.
Qed.

Lemma ones_sum_range s : 0 <= s -> 0 <= ones_sum s <= 65535.
Proof.
  intros H. unfold ones_sum. destruct (Z.eqb_spec s 0); [lia|].
  pose proof (Z.mod_pos_bound (s - 1) 65535 ltac:(lia)). lia.
Qed.

Lemma ones_sum_small s : 0 <= s <= 65535 -> ones_sum s = s.
Proof.
  intros H. unfold ones_sum. destruct (Z.eqb_spec s 0); [lia|]. rewrite Z.mod_small; lia.
Qed.

(** [ones_sum] is the residue modulo 65535, with 65535 instead of 0 for a nonzero sum. *)
Lemma ones_sum_unique s r :
  0 < s -> 1 <= r <= 65535 -> s mod 65535 = r mod 65535 -> ones_sum s = r.
Proof.
  intros Hs Hr E. unfold ones_sum. destruct (Z.eqb_spec s 0); [lia|].
  assert ((s - 1) mod 65535 = (r - 1) mod 65535) as ->.
  { rewrite <- (Zminus_mod_idemp_l s), <- (Zminus_mod_idemp_l r), E. done. }
  rewrite Z.mod_small; lia.
Qed.

Lemma ones_sum_mod s : 0 <= s -> ones_sum s mod 65535 = s mod 65535.
Proof.
  intros H. unfold ones_sum. destruct (Z.eqb_spec s 0) as [->|]; [done|].
  rewrite Zplus_mod_idemp_l. f_equal. lia.
Qed.

(** The two folding steps compute it. *)
Lemma cksum_fold_spec s : 0 <= s < 2 ^ 32 -> u16 (cksum_fold s) = ones_sum s.
Proof.
  intros H. unfold cksum_fold. cbv zeta. change 65535 with (Z.ones 16).
  rewrite Z.land_ones, !Z.shiftr_div_pow2 by lia. change (2 ^ 16) with 65536.
  set (hi := s / 65536). set (lo := s mod 65536).
  assert (s = 65536 * hi + lo) as Es by (apply Z.div_mod; lia).
  assert (0 <= lo < 65536) as Hlo by (apply Z.mod_pos_bound; lia).
  assert (0 <= hi < 65536) as Hhi by (split; [apply Z.div_pos; lia|apply Z.div_lt_upper_bound; lia]).
  assert (u32 (hi + lo) = hi + lo) as -> by (apply Z.mod_small; lia).
  assert ((hi + lo) / 65536 = if hi + lo <? 65536 then 0 else 1) as ->.
  { destruct (Z.ltb_spec (hi + lo) 65536); [by apply Z.div_small; lia|].
    symmetry. apply (Z.div_unique _ _ _ (hi + lo - 65536)); lia. }
  destruct (decide (s = 0)) as [E0|Hne].
  { assert (hi = 0 /\ lo = 0) as [-> ->] by lia. by rewrite E0. }
  symmetry. destruct (Z.ltb_spec (hi + lo) 65536) as [Hs|Hs].
  - assert (u16 (u32 (hi + lo + 0)) = hi + lo) as ->.
    { unfold wrap. rewrite (Z.mod_small _ (2 ^ 32)) by lia. rewrite Z.mod_small; lia. }
    apply ones_sum_unique; [lia|lia|]. rewrite Es.
    replace (65536 * hi + lo) with (hi + lo + hi * 65535) by lia. by rewrite Z.mod_add.
  - assert (u16 (u32 (hi + lo + 1)) = hi + lo + 1 - 65536) as ->.
    { unfold wrap. rewrite (Z.mod_small _ (2 ^ 32)) by lia.
      replace (hi + lo + 1) with (hi + lo + 1 - 65536 + 1 * 2 ^ 16) at 1 by lia.
      rewrite Z.mod_add by lia. rewrite Z.mod_small; lia. }
    apply ones_sum_unique; [lia|lia|]. rewrite Es.
    replace (65536 * hi + lo) with (hi + lo + 1 - 65536 + (hi + 1) * 65535) by lia.
    by rewrite Z.mod_add.
Qed.

Lemma u16_lnot x : u16 (Z.lnot x) = 65535 - u16 x.
Proof.
  unfold wrap, Z.lnot. change (2 ^ 16) with 65536.
  pose proof (Z.mod_pos_bound x 65536 ltac:(lia)).
  symmetry. apply (Z.mod_unique _ _ (- (x / 65536) - 1)); [lia|].
  pose proof (Z.div_mod x 65536 ltac:(lia)). lia.
Qed.

(** At most [2 * 65537] bytes keep the accumulator within 32 bits. *)
Lemma word_sum_no_overflow buf :
  bytes_ok buf -> Z.of_nat (length buf) <= 131074 -> 0 <= word_sum buf < 2 ^ 32.
Proof.
  intros Hb Hl. pose proof (word_sum_bound buf Hb).
  assert ((Z.of_nat (length buf) + 1) / 2 < 65538) by (apply Z.div_lt_upper_bound; lia). lia.
Qed.

Lemma in_cksum_eq buf :
  bytes_ok buf -> Z.of_nat (length buf) <= 131074 ->
  in_cksum buf = 65535 - ones_sum (word_sum buf).
Proof.
  intros Hb Hl. pose proof (word_sum_no_overflow buf Hb Hl).
  unfold in_cksum. rewrite cksum_sum_spec by (done || lia).
  rewrite u16_lnot, cksum_fold_spec by lia. done.
Qed.

(** * Verification of a received packet *)

Lemma word_sum_app_even a b n :
  length a = (2 * n)%nat -> word_sum (a ++ b) = word_sum a + word_sum b.
Proof.
  revert n. induction a as [|x|x y a IH] using list_pair_ind; intros n Hn.
  - done.
  - cbn in Hn. lia.
  - cbn [app word_sum]. rewrite (IH (pred n)); [lia|]. cbn [length] in Hn. lia.
Qed.

Lemma bytes16_spec w : 0 <= w < 65536 -> bytes_ok (bytes16 w) /\ word_sum (bytes16 w) = w.
Proof.
  intros Hw.
  assert (0 <= w / 256 < 256) by (split; [apply Z.div_pos; lia|apply Z.div_lt_upper_bound; lia]).
  pose proof (Z.mod_pos_bound w 256 ltac:(lia)). pose proof (Z.div_mod w 256 ltac:(lia)).
  unfold bytes16, word_sum, word16. destruct little; cbn; rewrite !Forall_cons;
    (split; [auto using Forall_nil_2|lia]).
Qed.

Lemma length_bytes16 w : length (bytes16 w) = 2%nat.
Proof. unfold bytes16. by destruct little. Qed.

(** A packet whose (zeroed) checksum field, at an even offset, is filled with the checksum of
    the packet, has checksum 0. *)
Lemma in_cksum_insert pre post n :
  length pre = (2 * n)%nat -> bytes_ok (pre ++ [0; 0] ++ post) ->
  Z.of_nat (length (pre ++ [0; 0] ++ post)) <= 131074 ->
  in_cksum (pre ++ bytes16 (in_cksum (pre ++ [0; 0] ++ post)) ++ post) = 0.
Proof.
  intros Hn Hb Hl.
  set (k := in_cksum (pre ++ [0; 0] ++ post)).
  assert (k = 65535 - ones_sum (word_sum (pre ++ [0; 0] ++ post))) as Hk by (by apply in_cksum_eq).
  pose proof (word_sum_no_overflow _ Hb Hl) as Hov.
  pose proof (ones_sum_range _ (proj1 Hov)) as Hr.
  assert (0 <= k < 65536) as Hk2 by lia. destruct (bytes16_spec k Hk2) as [Hkb Hks].
  rewrite !Forall_app in Hb. destruct Hb as (Hpre & _ & Hpost).
  assert (Z.of_nat (length (pre ++ bytes16 k ++ post)) <= 131074) as Hl'.
  { rewrite !length_app, length_bytes16 in *. cbn [length] in Hl. lia. }
  rewrite in_cksum_eq; [| by rewrite !Forall_app | done].
  assert (word_sum (pre ++ bytes16 k ++ post) = word_sum (pre ++ [0; 0] ++ post) + k) as E.
  { rewrite !(word_sum_app_even pre _ n) by done.
    rewrite (word_sum_app_even (bytes16 k) post 1) by apply length_bytes16.
    rewrite (word_sum_app_even [0; 0] post 1) by done. rewrite Hks.
    assert (word_sum [0; 0] = 0) as -> by (unfold word_sum, word16; by destruct little). lia. }
  set (s := word_sum (pre ++ [0; 0] ++ post)) in *. rewrite E.
  enough (ones_sum (s + k) = 65535) by lia.
  destruct (decide (s = 0)) as [E0|Hne].
  - rewrite Hk, E0. done.
  - apply ones_sum_unique; [lia|lia|].
    pose proof (ones_sum_mod s (proj1 Hov)) as Hm.
    rewrite Hk. replace (s + (65535 - ones_sum s)) with (s - ones_sum s + 1 * 65535) by lia.
    rewrite Z.mod_add by lia. rewrite Zminus_mod, Hm, Z.sub_diag. done.
Qed.

End Host.

(** * Independence of the byte order *)

Definition swap16 (w : Z) : Z := (w mod 256) * 256 + w / 256.

Lemma swap16_mod w : 0 <= w < 65536 -> swap16 w mod 65535 = (256 * w) mod 65535.
Proof.
  intros Hw. unfold swap16. pose proof (Z.div_mod w 256 ltac:(lia)) as E.
  replace (256 * w) with (w mod 256 * 256 + w / 256 + (w / 256) * 65535) by lia.
  by rewrite Z.mod_add.
Qed.

Lemma word_sum_swap buf :
  bytes_ok buf -> word_sum true buf mod 65535 = (256 * word_sum false buf) mod 65535.
Proof.
  induction buf as [|a|a b buf IH] using list_pair_ind; intros H.
  - done.
  - cbn. rewrite (Z.add_comm a), Z.mul_0_r. 
    replace (256 * (256 * a + 0)) with (a + a * 65535) by lia. by rewrite Z.mod_add.
  - rewrite !Forall_cons in H. destruct H as (Ha & Hb & Hr). specialize (IH Hr). cbn [word_sum].
    rewrite Z.add_mod, IH, <- Z.add_mod by lia. unfold word16.
    replace (256 * (256 * a + b + word_sum false buf))
      with (a + 256 * b + 256 * word_sum false buf + a * 65535) by lia.
    by rewrite Z.mod_add.
Qed.

Lemma word_sum_zero_swap buf :
  bytes_ok buf -> word_sum true buf = 0 <-> word_sum false buf = 0.
Proof.
  induction buf as [|a|a b buf IH] using list_pair_ind; intros H.
  - done.
  - cbn. lia.
  - rewrite !Forall_cons in H. destruct H as (Ha & Hb & Hr). specialize (IH Hr).
    pose proof (word_sum_bound true buf Hr). pose proof (word_sum_bound false buf Hr).
    cbn [word_sum]. unfold word16. lia.
Qed.

Lemma swap16_complement x : 0 <= x <= 65535 -> 65535 - swap16 x = swap16 (65535 - x).
Proof.
  intros H. unfold swap16.
  pose proof (Z.div_mod x 256 ltac:(lia)). pose proof (Z.mod_pos_bound x 256 ltac:(lia)).
  assert ((65535 - x) / 256 = 255 - x / 256) as ->
    by (symmetry; apply (Z.div_unique _ _ _ (255 - x mod 256)); lia).
  assert ((65535 - x) mod 256 = 255 - x mod 256) as ->
    by (symmetry; apply (Z.mod_unique _ _ (255 - x / 256)); lia).
  lia.
Qed.

Lemma swap16_range x : 1 <= x <= 65535 -> 1 <= swap16 x <= 65535.
Proof.
  intros H. unfold swap16. pose proof (Z.div_mod x 256 ltac:(lia)).
  pose proof (Z.mod_pos_bound x 256 ltac:(lia)).
  assert (0 <= x / 256 < 256) by (split; [apply Z.div_pos; lia|apply Z.div_lt_upper_bound; lia]).
  lia.
Qed.

Lemma ones_sum_swap buf :
  bytes_ok buf -> ones_sum (word_sum true buf) = swap16 (ones_sum (word_sum false buf)).
Proof.
  intros H. pose proof (word_sum_bound true buf H). pose proof (word_sum_bound false buf H).
  destruct (decide (word_sum false buf = 0)) as [E|E].
  - rewrite E. apply word_sum_zero_swap in E; [|done]. by rewrite E.
  - assert (word_sum true buf <> 0) by (by rewrite word_sum_zero_swap).
    assert (1 <= ones_sum (word_sum false buf) <= 65535) as Hr.
    { unfold ones_sum. destruct (Z.eqb_spec (word_sum false buf) 0); [done|].
      pose proof (Z.mod_pos_bound (word_sum false buf - 1) 65535 ltac:(lia)). lia. }
    apply ones_sum_unique; [lia|by apply swap16_range|].
    rewrite swap16_mod by lia. rewrite word_sum_swap by done.
    rewrite Z.mul_mod, <- (ones_sum_mod (word_sum false buf)), <- Z.mul_mod by lia. done.
Qed.

(** * Claims *)

(** C4: [in_cksum] is the Internet checksum.  On up to 131074 bytes the 32-bit accumulator does
    not overflow, and the result is the complement of the one's-complement sum of the 16-bit
    words, an odd last byte being padded with zero. *)
Theorem in_cksum_correct little buf :
  bytes_ok buf -> Z.of_nat (length buf) <= 131074 ->
  in_cksum little buf = 65535 - ones_sum (word_sum little buf).
Proof. apply in_cksum_eq. Qed.

Lemma in_cksum_correct_witness :
  in_cksum true [69; 0; 1] = 65535 - ones_sum (word_sum true [69; 0; 1]).
Proof.
  apply (in_cksum_correct true [69; 0; 1]); [|cbn; lia].
  rewrite !Forall_cons. repeat split; (lia || apply Forall_nil_2).
Defined.

(** A packet whose zeroed checksum field (at an even offset) is filled with [in_cksum] of
    the packet verifies: [in_cksum] of the result is 0, the test that [udp_check] makes. *)
Theorem in_cksum_verifies little pre post n :
  length pre = (2 * n)%nat -> bytes_ok (pre ++ [0; 0] ++ post) ->
  Z.of_nat (length (pre ++ [0; 0] ++ post)) <= 131074 ->
  in_cksum little (pre ++ bytes16 little (in_cksum little (pre ++ [0; 0] ++ post)) ++ post) = 0.
Proof. apply in_cksum_insert. Qed.

Lemma in_cksum_verifies_witness :
  in_cksum false ([8; 0] ++ bytes16 false (in_cksum false ([8; 0] ++ [0; 0] ++ [1; 2; 3])) ++ [1; 2; 3]) = 0.
Proof.
  apply (in_cksum_verifies false [8; 0] [1; 2; 3] 1); [reflexivity| |cbn; lia].
  cbn [app]. rewrite !Forall_cons. repeat split; (lia || apply Forall_nil_2).
Defined.

(** The checksum is the same two bytes in memory on little- and big-endian hosts, so
    [in_cksum] needs no byte swapping. *)
Theorem in_cksum_endian_independent buf :
  bytes_ok buf -> Z.of_nat (length buf) <= 131074 ->
  bytes16 true (in_cksum true buf) = bytes16 false (in_cksum false buf).
Proof.
  intros Hb Hl. rewrite !in_cksum_eq by done. rewrite ones_sum_swap by done.
  pose proof (ones_sum_range (word_sum false buf) (proj1 (word_sum_bound false buf Hb))) as Hr.
  rewrite swap16_complement by done. set (x := 65535 - ones_sum (word_sum false buf)).
  assert (0 <= x <= 65535) as Hx by lia. unfold bytes16, swap16.
  pose proof (Z.div_mod x 256 ltac:(lia)). pose proof (Z.mod_pos_bound x 256 ltac:(lia)).
  assert (0 <= x / 256 < 256) by (split; [apply Z.div_pos; lia|apply Z.div_lt_upper_bound; lia]).
  assert ((x mod 256 * 256 + x / 256) / 256 = x mod 256) as ->
    by (symmetry; apply (Z.div_unique _ _ _ (x / 256)); lia).
  assert ((x mod 256 * 256 + x / 256) mod 256 = x / 256) as ->
    by (symmetry; apply (Z.mod_unique _ _ (x mod 256)); lia).
  done.
Qed.

Lemma in_cksum_endian_independent_witness :
  bytes16 true (in_cksum true [1; 2; 3]) = bytes16 false (in_cksum false [1; 2; 3]).
Proof.
  apply (in_cksum_endian_independent [1; 2; 3]); [|cbn; lia].
  rewrite !Forall_cons. repeat split; (lia || apply Forall_nil_2).
Defined.
