(* ===== verification/Sys.v ===== *)
(** The operating system as the programs see it.

    Every system call and C-library call that has an effect is a constructor of [syscall];
    what it hands back is a [sysret].  The kernel, the network and the peer are one oracle,
    [os_answer], which may look at the whole history of calls when it answers: a theorem that
    holds for every oracle holds for every behaviour of the environment.  Documented
    guarantees of single calls (a [read] never returns more than it was asked for) are the
    law classes at the end.

    Programs are terms of a small monad [M]: a state (the history, [errno], [daemon_proc])
    and an outcome, which is a value, the end of the process, undefined behaviour, or fuel
    that ran out. *)

From S2P Require Import Prelude CText.

(** * Socket addresses

    Ports and addresses are in network byte order, as the bytes that are in memory. *)

Inductive sockaddr : Type :=
| SockIn (sin_port sin_addr : list Z)
| SockIn6 (sin6_port sin6_addr : list Z) (sin6_flowinfo sin6_scope_id : Z)
| SockUn (sun_path : cstring)
| SockDl (sdl_index sdl_type : Z) (sdl_name sdl_addr : list Z)
| SockOther (sa_family : Z).

#[export] Instance sockaddr_eq_dec : EqDecision sockaddr.
Proof. solve_decision. Defined.

Definition sa_family (sa : sockaddr) : Z :=
  match sa with
  | SockIn _ _ => AF_INET
  | SockIn6 _ _ _ _ => AF_INET6
  | SockUn _ => AF_LOCAL
  | SockDl _ _ _ _ => AF_LINK
  | SockOther f => f
  end.

(** [htons] and [ntohs], between a number and the two bytes in network order. *)
Definition htons (n : Z) : list Z := [Z.shiftr (u16 n) 8; Z.land (u16 n) 255].
Definition ntohs (b : list Z) : Z :=
  match b with [h; l] => Z.lor (Z.shiftl h 8) l | _ => 0 end.

Definition SOL_SOCKET : Z := 1.

(** The value a socket option call passes. *)
Inductive optval : Type :=
| OInt (v : Z)
| OByte (v : Z)
| OAddr (a : list Z)
| OMreq (multiaddr interface : list Z)
| OMreqSource (multiaddr source interface : list Z)
| OMreq6 (multiaddr : list Z) (ifindex : Z)
| OGroupReq (ifindex : Z) (grp : sockaddr)
| OGroupSourceReq (ifindex : Z) (grp src : sockaddr)
| OLinger (onoff linger : Z)
| OTimeval (sec usec : Z)
| OBytes (b : list Z).

(** * Calls *)

Inductive syscall : Type :=
(* memory *)
| sys_calloc (n size : Z) | sys_malloc (size : Z) | sys_strdup (str : cstring)
| sys_free (ptr : Z)
(* files and processes *)
| sys_close (fd : Z) | sys_dup2 (fd1 fd2 : Z) | sys_fcntl (fd cmd arg : Z)
| sys_gettimeofday | sys_ioctl (fd request arg : Z)
| sys_ioctl_ifreq (fd request : Z) (ifr_name : cstring) | sys_fork
| sys_mkstemp (template : cstring) | sys_mktemp (template : cstring)
| sys_mmap (addr len prot flags fd offset : Z) | sys_open (path : cstring) (oflag mode : Z)
| sys_pipe | sys_read (fd nbytes : Z) | sys_write (fd : Z) (data : list Z)
| sys_writev (fd : Z) (iov : list (list Z))
| sys_sysconf (name : Z) | sys_sysctl (name : list Z) (oldlen : option Z) (newp : list Z)
| sys_unlink (path : cstring) | sys_wait | sys_waitpid (pid options : Z)
| sys_setsid | sys_getpid | sys_getuid | sys_setuid (uid : Z) | sys_kill (pid signo : Z)
| sys_chdir (path : cstring)
| sys_alarm (secs : Z) | sys_time
(* signals; a signal set is the number whose bits are its members *)
| sys_sigaddset (set signo : Z) | sys_sigdelset (set signo : Z) | sys_sigemptyset
| sys_sigfillset | sys_sigismember (set signo : Z) | sys_sigpending
| sys_sigprocmask (how : Z) (set : option Z) | sys_sigaction (signo func mask flags : Z)
| sys_sigsuspend (mask : Z)
(* standard I/O and logging *)
| sys_fclose (fp : Z) | sys_fdopen (fd : Z) (type : cstring) | sys_fgets (n fp : Z)
| sys_ferror (fp : Z) | sys_fopen (name mode : cstring) | sys_fputs (text : cstring) (fp : Z)
| sys_fflush (fp : Z) | sys_syslog (level : Z) (fmt : cstring)
| sys_openlog (ident : cstring) (option facility : Z)
(* sockets *)
| sys_accept (fd : Z) (want : bool) | sys_bind (fd : Z) (sa : sockaddr)
| sys_connect (fd : Z) (sa : sockaddr) | sys_getpeername (fd : Z) | sys_getsockname (fd : Z)
| sys_getsockopt (fd level optname optlen : Z)
| sys_setsockopt (fd level optname : Z) (v : optval)
| sys_listen (fd backlog : Z) | sys_getenv (name : cstring)
| sys_poll (fdarray : list (Z * Z)) (timeout : Z)
| sys_select (nfds : Z) (rset wset xset : list Z) (timeout : option (Z * Z))
| sys_recv (fd nbytes flags : Z) | sys_recvfrom (fd nbytes flags : Z) (want : bool)
| sys_recvmsg (fd : Z) (iov : list Z) (controllen flags : Z)
| sys_send (fd : Z) (data : list Z) (flags : Z)
| sys_sendto (fd : Z) (data : list Z) (flags : Z) (sa : option sockaddr)
| sys_sendmsg (fd : Z) (name : option sockaddr) (iov : list (list Z)) (rights : list Z) (flags : Z)
| sys_shutdown (fd how : Z) | sys_sockatmark (fd : Z)
| sys_socket (family type protocol : Z) | sys_socketpair (family type protocol : Z)
| sys_inet6_rth_space (type segments : Z)
| sys_inet6_rth_init (rthbuf rthlen type segments : Z)
| sys_inet6_rth_add (rthbuf : Z) (addr : list Z) | sys_inet6_rth_reverse (inp out : Z)
| sys_inet6_rth_segments (rthbuf : Z) | sys_inet6_rth_getaddr (rthbuf idx : Z)
| sys_kqueue | sys_kevent (kq : Z) (changelist : list Z) (nevents : Z) (timeout : option Z)
(* interfaces *)
| sys_if_nametoindex (name : cstring) | sys_if_indextoname (idx : Z)
(* threads *)
| sys_pthread_create (attr func arg : Z) | sys_pthread_join (tid : Z)
| sys_pthread_detach (tid : Z) | sys_pthread_kill (tid signo : Z)
| sys_pthread_mutexattr_init (attr : Z) | sys_pthread_mutexattr_setpshared (attr flag : Z)
| sys_pthread_mutex_init (mptr attr : Z) | sys_pthread_mutex_lock (mptr : Z)
| sys_pthread_mutex_unlock (mptr : Z) | sys_pthread_cond_broadcast (cptr : Z)
| sys_pthread_cond_signal (cptr : Z) | sys_pthread_cond_wait (cptr mptr : Z)
| sys_pthread_cond_timedwait (cptr mptr : Z) (ts : Z * Z)
| sys_pthread_once (ptr func : Z) | sys_pthread_key_create (func : Z)
| sys_pthread_setspecific (key value : Z).

(** What a call hands back: its return value (a null pointer is 0), the value it leaves in
    [errno] if it changes it, and what it writes through its pointer arguments: bytes,
    integers, a socket address. *)
Record sysret : Type := SR {
  rv : Z;
  rerrno : option Z;
  rbytes : list Z;
  rints : list Z;
  rsa : option sockaddr;
}.

Definition ok (v : Z) : sysret := SR v None [] [] None.
Definition failed (v e : Z) : sysret := SR v (Some e) [] [] None.
Definition data (b : list Z) : sysret := SR (Z.of_nat (length b)) None b [] None.

(** The sets [select] leaves: the descriptors ready for reading are the integers of the answer,
    those ready for writing are where bytes would be. *)
Definition rset_of (r : sysret) : list Z := rints r.
Definition wset_of (r : sysret) : list Z := rbytes r.

Definition event : Type := syscall * sysret.

(** The environment answers a call after the history [h], latest event first. *)
Class OS : Type := os_answer : list event -> syscall -> sysret.

(** * Outcomes and the monad *)

Inductive outcome (A : Type) : Type :=
| Val (a : A)
| Exited (status : Z)
| Aborted
| Undefined
| OutOfFuel.
Arguments Val {A} a.
Arguments Exited {A} status.
Arguments Aborted {A}.
Arguments Undefined {A}.
Arguments OutOfFuel {A}.

Record st : Type := St {
  errno : Z;
  daemon_proc : Z;
  trace : list event;
}.

Definition M (A : Type) : Type := st -> outcome A * st.

Definition mpure {A} (a : A) : M A := fun s => (Val a, s).

Definition mthen {A B} (m : M A) (k : A -> M B) : M B := fun s =>
  match m s with
  | (Val a, s') => k a s'
  | (Exited c, s') => (Exited c, s')
  | (Aborted, s') => (Aborted, s')
  | (Undefined, s') => (Undefined, s')
  | (OutOfFuel, s') => (OutOfFuel, s')
  end.

Declare Scope m_scope.
Delimit Scope m_scope with M.
Notation "x <~ m ;; k" := (mthen m (fun x => k))
  (at level 100, m at next level, k at level 200, right associativity) : m_scope.
Notation "m ;;; k" := (mthen m (fun _ => k))
  (at level 100, k at level 200, right associativity) : m_scope.
Open Scope m_scope.

Definition get_errno : M Z := fun s => (Val (errno s), s).
Definition set_errno (e : Z) : M unit := fun s => (Val tt, St e (daemon_proc s) (trace s)).
Definition get_daemon_proc : M Z := fun s => (Val (daemon_proc s), s).
Definition set_daemon_proc (v : Z) : M unit := fun s => (Val tt, St (errno s) v (trace s)).
Definition exit_ {A} (status : Z) : M A := fun s => (Exited status, s).
Definition abort_ {A} : M A := fun s => (Aborted, s).
Definition undefined {A} : M A := fun s => (Undefined, s).
Definition no_fuel {A} : M A := fun s => (OutOfFuel, s).

(** A checked memory access: undefined behaviour when it is out of bounds. *)
Definition checked {A} (x : option A) : M A :=
  match x with Some a => mpure a | None => undefined end.

Section Calls.
Context `{OS}.

(** The state after call [c] has been answered with [r]. *)
Definition after (c : syscall) (r : sysret) (s : st) : st :=
  St (default (errno s) (rerrno r)) (daemon_proc s) ((c, r) :: trace s).

Definition answer (c : syscall) (s : st) : sysret := os_answer (trace s) c.

Definition sys (c : syscall) : M sysret := fun s =>
  (Val (answer c s), after c (answer c s) s).

End Calls.

(** * Weakest preconditions

    [wp m Q s]: from state [s], [m] ends with an outcome and a state that satisfy [Q]. *)

Definition wp {A} (m : M A) (Q : outcome A -> st -> Prop) (s : st) : Prop :=
  let '(o, s') := m s in Q o s'.

(** [value Q]: the outcome is a value, in the final state that satisfies [Q]. *)
Definition value {A} (Q : A -> st -> Prop) (o : outcome A) (s : st) : Prop :=
  match o with Val a => Q a s | _ => False end.

(** The outcome [o] of a first part, when it is not a value, is the outcome of the whole. *)
Definition andthen {A B} (k : A -> M B) (Q : outcome B -> st -> Prop)
    (o : outcome A) (s : st) : Prop :=
  match o with
  | Val a => wp (k a) Q s
  | Exited c => Q (Exited c) s
  | Aborted => Q Aborted s
  | Undefined => Q Undefined s
  | OutOfFuel => Q OutOfFuel s
  end.

Section WpRules.
Context `{OS}.
Context {A B : Type}.
Implicit Types (m : M A) (k : A -> M B).

Lemma wp_then m k Q s : wp m (andthen k Q) s -> wp (mthen m k) Q s.
Proof. unfold wp, mthen, andthen. by destruct (m s) as [[] ?]. Qed.

Lemma wp_then_inv m k Q s : wp (mthen m k) Q s -> wp m (andthen k Q) s.
Proof. unfold wp, mthen, andthen. by destruct (m s) as [[] ?]. Qed.

Lemma wp_mono m (P Q : outcome A -> st -> Prop) s :
  wp m P s -> (forall o s', P o s' -> Q o s') -> wp m Q s.
Proof. unfold wp. destruct (m s). auto. Qed.

Lemma wp_pure (a : A) Q s : Q (Val a) s -> wp (mpure a) Q s.
Proof. done. Qed.

Lemma wp_sys c Q s :
  Q (Val (answer c s)) (after c (answer c s) s) -> wp (sys c) Q s.
Proof. done. Qed.

End WpRules.

(** Running a composition when the first part is known. *)
Lemma then_val {A B} (m : M A) (k : A -> M B) s a s' :
  m s = (Val a, s') -> mthen m k s = k a s'.
Proof. unfold mthen. by intros ->. Qed.

Lemma then_exit {A B} (m : M A) (k : A -> M B) s c s' :
  m s = (Exited c, s') -> mthen m k s = (Exited c, s').
Proof. unfold mthen. by intros ->. Qed.

Lemma then_pure {A B} (a : A) (k : A -> M B) : mthen (mpure a) k = k a.
Proof. done. Qed.

Lemma then_sys `{OS} {B} c (k : sysret -> M B) s :
  mthen (sys c) k s = k (answer c s) (after c (answer c s) s).
Proof. done. Qed.

(** * Documented guarantees of calls *)

(** [read], [recv]: at most the number of bytes that was asked for, and the count is the
    number of bytes delivered; or -1. *)
Definition read_ok (n : Z) (r : sysret) : Prop :=
  bytes_ok (rbytes r) /\
  ((rv r = -1 /\ is_Some (rerrno r) /\ rbytes r = []) \/
   (rv r = Z.of_nat (length (rbytes r)) /\ rv r <= n)).

Class ReadLaw `{OS} : Prop :=
  read_law : forall h fd n, 0 <= n -> read_ok n (os_answer h (sys_read fd n)).

(** [write]: a prefix of the data is taken; or -1. *)
Class WriteLaw `{OS} : Prop :=
  write_law : forall h fd d,
    let r := os_answer h (sys_write fd d) in
    (rv r = -1 /\ is_Some (rerrno r)) \/ 0 <= rv r <= Z.of_nat (length d).

(** * Scripted environments

    For concrete runs: the [n]-th call of the history gets the [n]-th scripted answer, and
    calls past the script fail.  Output calls ([fputs], [fflush], [syslog]) succeed and do not
    use up the script. *)

Definition is_output (c : syscall) : bool :=
  match c with sys_fputs _ _ | sys_fflush _ | sys_syslog _ _ => true | _ => false end.

Definition script (answers : list sysret) : OS := fun h c =>
  if is_output c then ok 0
  else default (failed (-1) 5)
         (answers !! length (base.filter (fun e : event => is_output e.1 = false) h)).

Definition init : st := St 0 0 [].
