(* ===== verification/Traces.v ===== *)
(** Observations on a history of calls: the bytes received and sent on a descriptor, the
    interrupted calls, the last event.  Histories have their latest event first, so that the
    history of a continuation is put in front. *)

From S2P Require Import Prelude CText Sys.

(** The bytes a [read] of [fd] delivered. *)
Definition read_data (fd : Z) (e : event) : list Z :=
  match e.1 with
  | sys_read fd' _ => if fd' =? fd then rbytes e.2 else []
  | _ => []
  end.

(** The bytes a [write] to [fd] took. *)
Definition write_data (fd : Z) (e : event) : list Z :=
  match e.1 with
  | sys_write fd' d => if fd' =? fd then take (Z.to_nat (rv e.2)) d else []
  | _ => []
  end.

(** All data of a history, oldest first. *)
Definition collect {A} (f : event -> list A) (evs : list event) : list A := concat (f <$> rev evs).

Definition received (fd : Z) : list event -> list Z := collect (read_data fd).
Definition sent (fd : Z) : list event -> list Z := collect (write_data fd).

Definition is_interrupt (e : event) : bool :=
  (rv e.2 <? 0) && (match rerrno e.2 with Some x => x =? EINTR | None => false end).

Definition interrupts (evs : list event) : nat := length (List.filter is_interrupt evs).

Definition ended_by (P : event -> Prop) (evs : list event) : Prop :=
  exists e evs', evs = e :: evs' /\ P e.

Definition is_eof (e : event) : Prop := rv e.2 = 0.
Definition is_error (e : event) : Prop :=
  rv e.2 < 0 /\ exists x, rerrno e.2 = Some x /\ x <> EINTR.

(** Output on the terminal or to the log. *)
Definition output (e : event) : Prop := is_output e.1 = true.

Definition on_read (fd : Z) (e : event) : Prop := exists n, e.1 = sys_read fd n.
Definition on_write (fd : Z) (e : event) : Prop := exists d, e.1 = sys_write fd d.

Lemma read_data_eq fd n r : read_data fd (sys_read fd n, r) = rbytes r.
Proof. unfold read_data. cbn [fst snd]. by rewrite Z.eqb_refl. Qed.

Lemma read_data_ne fd fd' n r : fd' <> fd -> read_data fd (sys_read fd' n, r) = [].
Proof. intros H. unfold read_data. cbn [fst snd]. by rewrite (proj2 (Z.eqb_neq _ _) H). Qed.

Lemma write_data_eq fd d r : write_data fd (sys_write fd d, r) = take (Z.to_nat (rv r)) d.
Proof. unfold write_data. cbn [fst snd]. by rewrite Z.eqb_refl. Qed.

Lemma write_data_ne fd fd' d r : fd' <> fd -> write_data fd (sys_write fd' d, r) = [].
Proof. intros H. unfold write_data. cbn [fst snd]. by rewrite (proj2 (Z.eqb_neq _ _) H). Qed.

(** * Histories of compositions *)

Lemma collect_app {A} (f : event -> list A) a b : collect f (a ++ b) = collect f b ++ collect f a.
Proof. unfold collect. by rewrite rev_app_distr, fmap_app, concat_app. Qed.

Lemma collect_one {A} (f : event -> list A) e : collect f [e] = f e.
Proof. unfold collect. cbn. apply app_nil_r. Qed.

Lemma collect_snoc {A} (f : event -> list A) a e : collect f (a ++ [e]) = f e ++ collect f a.
Proof. by rewrite collect_app, collect_one. Qed.

Lemma collect_cons {A} (f : event -> list A) e h : collect f (e :: h) = collect f h ++ f e.
Proof. change (e :: h) with ([e] ++ h). by rewrite collect_app, collect_one. Qed.

Lemma collect_nil_of {A} (f : event -> list A) evs : Forall (fun e => f e = []) evs -> collect f evs = [].
Proof.
  induction 1 as [|e evs He Hs IH]; [done|].
  change (e :: evs) with ([e] ++ evs). by rewrite collect_app, IH, collect_one.
Qed.

Lemma received_of_writes fd evs : Forall (on_write fd) evs -> received fd evs = [].
Proof.
  intros H. apply collect_nil_of. eapply Forall_impl; [done|].
  intros [c r] [d Hd]. cbn in Hd. unfold read_data. cbn. by rewrite Hd.
Qed.

Lemma sent_of_reads fd evs : Forall (on_read fd) evs -> sent fd evs = [].
Proof.
  intros H. apply collect_nil_of. eapply Forall_impl; [done|].
  intros [c r] [d Hd]. cbn in Hd. unfold write_data. cbn. by rewrite Hd.
Qed.

Lemma interrupts_app a b : interrupts (a ++ b) = (interrupts a + interrupts b)%nat.
Proof. unfold interrupts. by rewrite List.filter_app, length_app. Qed.

Lemma ended_by_app P a b : ended_by P a -> ended_by P (a ++ b).
Proof. intros (e & a' & -> & ?). by exists e, (a' ++ b). Qed.

Lemma ended_by_one (P : event -> Prop) e : P e -> ended_by P [e].
Proof. by exists e, []. Qed.

(** * [memcpy] at successive offsets *)

Lemma memcpy_nil {A} (buf : list A) off : (off <= length buf)%nat -> memcpy buf off [] = Some buf.
Proof.
  intros H. rewrite memcpy_ok by (cbn; lia). cbn. by rewrite Nat.add_0_r, take_drop.
Qed.

Lemma memcpy_app {A} (buf : list A) off d1 d2 buf1 :
  memcpy buf off d1 = Some buf1 ->
  (off + length d1 + length d2 <= length buf)%nat ->
  memcpy buf1 (off + length d1) d2 = memcpy buf off (d1 ++ d2).
Proof.
  intros H Hl. rewrite memcpy_ok in H by lia. injection H as <-.
  rewrite !memcpy_ok by llia. f_equal.
  rewrite (app_assoc (take off buf)), take_app_le by llia.
  rewrite take_ge by llia. rewrite <- !app_assoc. do 3 f_equal.
  rewrite drop_app_ge by llia. rewrite drop_app_ge by llia.
  rewrite drop_drop. f_equal. llia.
Qed.

Lemma memcpy_length {A} (buf : list A) off d buf' :
  memcpy buf off d = Some buf' -> length buf' = length buf.
Proof. unfold memcpy. case_decide; [|done]. intros [= <-]. llia. Qed.

Create HintDb trace.
Create Rewrite HintDb trace.
#[export] Hint Resolve ended_by_app ended_by_one : trace.
#[export] Hint Rewrite @collect_snoc @collect_one interrupts_app @length_app : trace.
