(* ===== verification/Error.v ===== *)
(** [lib/error.c]: the error-reporting functions every wrapper ends in.

    [err_doit] builds the message in a buffer of [MAXLINE + 1] characters; the buffer is a
    checked list here, so that "the outcome is not [Undefined]" says that no access leaves
    it.  [err_doit_with] has both configurations, [err_doit] is the one with [vsnprintf]. *)

From S2P Require Import Prelude CText Sys.

(** [strerror]: the text of an error number, a C string. *)
Class Strerror : Type := {
  strerror : Z -> cstring;
  strerror_nul_free : forall e, nul_free (strerror e);
}.

(** [FILE *] of the standard streams, and the priorities of [syslog]. *)
Definition stdin : Z := 1.
Definition stdout : Z := 2.
Definition stderr : Z := 3.
Definition LOG_ERR : Z := 3.
Definition LOG_INFO : Z := 6.

Section Error.
Context {os : OS} {SE : Strerror}.

(** The text [syslog (level, fmt)] logs when it is given no further argument: [%m] is the
    text of [errno], [%%] a per cent sign, and any other conversion has no argument. *)
Fixpoint syslog_text (e : Z) (fmt : cstring) : option cstring :=
  match fmt with
  | [] => Some []
  | 37 :: r =>
      match r with
      | 37 :: r' => cons 37 <$> syslog_text e r'
      | 109 :: r' => app (strerror e) <$> syslog_text e r'
      | _ => None
      end
  | c :: r => cons c <$> syslog_text e r
  end.

Definition syslog (level : Z) (fmt : cstring) : M unit :=
  e <~ get_errno ;;
  text <~ checked (syslog_text e fmt) ;;
  sys (sys_syslog level text) ;;; mpure tt.

(** Print message and return to caller; the caller specifies [errnoflag] and [level].
    [have_vsnprintf] is whether [configure] has found [vsnprintf]; without it the message is written by
    [vsprintf], of any length. *)
Definition err_doit_with (have_vsnprintf errnoflag : bool) (level : Z) (fmt : cstring) (ap : list arg) : M unit :=
  let buf := replicate (Z.to_nat (MAXLINE + 1)) 0 in
  errno_save <~ get_errno ;;
  text <~ checked (vformat fmt ap) ;;
  buf <~ checked (put_text buf 0 (if have_vsnprintf then snprintf_text MAXLINE text else text)) ;;
  let n := length (cstring_at buf 0) in
  buf <~ (if errnoflag
          then checked (put_text buf n
                 (snprintf_text (MAXLINE - Z.of_nat n) (c[": "] ++ strerror errno_save)))
          else mpure buf) ;;
  buf <~ checked (put_text buf (length (cstring_at buf 0)) [10]) ;;
  daemon <~ get_daemon_proc ;;
  if daemon =? 0 then
    sys (sys_fflush stdout) ;;;
    sys (sys_fputs (cstring_at buf 0) stderr) ;;;
    sys (sys_fflush stderr) ;;; mpure tt
  else syslog level (cstring_at buf 0).

(** The configuration with [vsnprintf], which every system of today has. *)
Definition err_doit : bool -> Z -> cstring -> list arg -> M unit := err_doit_with true.

(** Nonfatal error related to system call: print message and return. *)
Definition err_ret (fmt : cstring) (ap : list arg) : M unit := err_doit true LOG_INFO fmt ap.

(** Fatal error related to system call: print message and terminate. *)
Definition err_sys {A} (fmt : cstring) (ap : list arg) : M A :=
  err_doit true LOG_ERR fmt ap ;;; exit_ 1.

(** Fatal error related to system call: print message, dump core, and terminate. *)
Definition err_dump {A} (fmt : cstring) (ap : list arg) : M A :=
  err_doit true LOG_ERR fmt ap ;;; abort_ (A := unit) ;;; exit_ 1.

(** Nonfatal error unrelated to system call: print message and return. *)
Definition err_msg (fmt : cstring) (ap : list arg) : M unit := err_doit false LOG_INFO fmt ap.

(** Fatal error unrelated to system call: print message and terminate. *)
Definition err_quit {A} (fmt : cstring) (ap : list arg) : M A :=
  err_doit false LOG_ERR fmt ap ;;; exit_ 1.

(** * What is reported *)

(** The line that ends up on [stderr]: the message and the error text, cut to what fits in
    [MAXLINE] characters with the NUL, and a newline. *)
Definition report_line (errnoflag : bool) (text : cstring) (e : Z) : cstring :=
  take (Z.to_nat (MAXLINE - 1)) (text ++ (if errnoflag then c[": "] ++ strerror e else []))
  ++ [10].

Definition reported (line : cstring) (s : st) : st :=
  let emit c s := after c (answer c s) s in
  emit (sys_fflush stderr) (emit (sys_fputs line stderr) (emit (sys_fflush stdout) s)).

(** Two [snprintf] calls one after the other fill the buffer as one would. *)
Lemma take_split {A} (k : nat) (t u : list A) :
  take k t ++ take (k - length (take k t)) u = take k (t ++ u).
Proof.
  rewrite take_app, length_take. f_equal. f_equal. lia.
Qed.

Lemma nul_free_take k t : nul_free t -> nul_free (take k t).
Proof. apply Forall_take. Qed.

Lemma tail_nul_free (errnoflag : bool) e :
  nul_free (if errnoflag then c[": "] ++ strerror e else []).
Proof.
  destruct errnoflag; [|constructor].
  apply Forall_app. split; [by repeat constructor|apply strerror_nul_free].
Qed.

Lemma append_checked buf t u :
  cstring_at buf 0 = t -> nul_free u -> (length t + length u < length buf)%nat ->
  exists buf', checked (put_text buf (length t) u) = mpure buf' /\
    length buf' = length buf /\ cstring_at buf' 0 = t ++ u.
Proof.
  intros Hc Hu Hl. destruct (append_text buf t u Hc Hu Hl) as (buf' & -> & ?). by exists buf'.
Qed.

(** The message [err_doit] has built when it prints it. *)
Lemma err_doit_line errnoflag level fmt ap text s :
  vformat fmt ap = Some text -> nul_free text ->
  err_doit errnoflag level fmt ap s =
    let line := report_line errnoflag text (errno s) in
    if daemon_proc s =? 0 then (Val tt, reported line s) else syslog level line s.
Proof.
  intros Ef Hn. cbv zeta. unfold err_doit, err_doit_with, report_line.
  pose proof (tail_nul_free errnoflag (errno s)) as Htail. revert Htail.
  set (tail := if errnoflag then _ else []). intros Htail.
  set (b0 := replicate _ 0). set (t := snprintf_text MAXLINE text).
  set (u := take (Z.to_nat (MAXLINE - 1) - length t) tail).
  assert (Hb0 : length b0 = 4097%nat) by apply length_replicate.
  assert (Hlt : (length t <= 4095)%nat)
    by (unfold t, snprintf_text, MAXLINE; rewrite length_take; lia).
  assert (Hlu : (length t + length u <= 4095)%nat)
    by (unfold u, MAXLINE; rewrite length_take; lia).
  replace (take _ (text ++ tail)) with (t ++ u) by (symmetry; by rewrite <- take_split).
  rewrite (then_val _ _ s (errno s) s) by done. rewrite Ef. cbn [checked]. rewrite then_pure.
  destruct (append_checked b0 [] t) as (b1 & E1 & L1 & C1);
    [by unfold b0, cstring_at|by apply nul_free_take|cbn; lia|].
  cbn [length app] in E1, C1. fold t. rewrite E1, then_pure, C1.
  assert (Hsecond : exists b2, (if errnoflag
      then checked (put_text b1 (length t)
             (snprintf_text (MAXLINE - Z.of_nat (length t)) (c[": "] ++ strerror (errno s))))
      else mpure b1) = mpure b2 /\ length b2 = length b1 /\ cstring_at b2 0 = t ++ u).
  { destruct (append_checked b1 t u) as (b2 & E2 & ?);
      [done|by apply nul_free_take|lia|].
    unfold u, tail in *. destruct errnoflag.
    - exists b2. split; [|done]. rewrite <- E2. unfold snprintf_text. repeat f_equal. unfold MAXLINE. lia.
    - exists b1. by rewrite take_nil, app_nil_r. }
  destruct Hsecond as (b2 & -> & L2 & C2). rewrite then_pure, C2.
  destruct (append_checked b2 (t ++ u) [10]) as (b3 & -> & _ & C3);
    [done|by repeat constructor|llia|].
  rewrite then_pure, C3, (then_val _ _ s (daemon_proc s) s) by done.
  destruct (daemon_proc s =? 0); done.
Qed.


(** The fatal functions in a process that is not a daemon: the line on [stderr], then the
    end of the process. *)
Lemma err_sys_exits {A} fmt ap text s :
  vformat fmt ap = Some text -> nul_free text -> daemon_proc s = 0 ->
  err_sys (A := A) fmt ap s = (Exited 1, reported (report_line true text (errno s)) s).
Proof.
  intros Ef Hn Hd. unfold err_sys, mthen. by rewrite (err_doit_line _ _ _ _ text), Hd.
Qed.

Lemma err_quit_exits {A} fmt ap text s :
  vformat fmt ap = Some text -> nul_free text -> daemon_proc s = 0 ->
  err_quit (A := A) fmt ap s = (Exited 1, reported (report_line false text (errno s)) s).
Proof.
  intros Ef Hn Hd. unfold err_quit, mthen. by rewrite (err_doit_line _ _ _ _ text), Hd.
Qed.

(** The fatal functions never return, whatever the message. *)
Lemma err_sys_no_return {A} fmt ap s a s' : err_sys (A := A) fmt ap s <> (Val a, s').
Proof. unfold err_sys, mthen. destruct (err_doit _ _ _ _ _) as [[] ?]; done. Qed.

Lemma err_quit_no_return {A} fmt ap s a s' : err_quit (A := A) fmt ap s <> (Val a, s').
Proof. unfold err_quit, mthen. destruct (err_doit _ _ _ _ _) as [[] ?]; done. Qed.

Lemma err_doit_with_short errnoflag level fmt ap text s :
  vformat fmt ap = Some text -> (length text < Z.to_nat MAXLINE)%nat ->
  err_doit_with false errnoflag level fmt ap s = err_doit errnoflag level fmt ap s.
Proof.
  intros Ef Hl. unfold err_doit, err_doit_with. rewrite !(then_val get_errno _ s (errno s) s) by done.
  rewrite Ef. cbn [checked]. rewrite !then_pure. unfold snprintf_text. by rewrite take_ge by lia.
Qed.

Lemma err_doit_with_long errnoflag level fmt ap text s :
  vformat fmt ap = Some text -> nul_free text -> (Z.to_nat MAXLINE <= length text)%nat ->
  (err_doit_with false errnoflag level fmt ap s).1 = Undefined.
Proof.
  intros Ef Hn Hl. unfold err_doit_with. rewrite (then_val get_errno _ s (errno s) s) by done.
  rewrite Ef. cbn [checked]. rewrite then_pure. set (b0 := replicate _ 0).
  assert (Hb0 : length b0 = 4097%nat) by apply length_replicate.
  destruct (decide (length text = Z.to_nat MAXLINE)) as [E|E].
  2:{ unfold put_text, memcpy. rewrite decide_False; [done|]. rewrite length_app, Hb0. cbn [length]. unfold MAXLINE in *. lia. }
  destruct (append_checked b0 [] text) as (b1 & E1 & L1 & C1); [by unfold b0, cstring_at|done|cbn [length]; unfold MAXLINE in *; lia|].
  cbn [length app] in E1, C1. rewrite E1, then_pure, C1, E.
  assert (exists b2, (if errnoflag
      then checked (put_text b1 (Z.to_nat MAXLINE) (snprintf_text (MAXLINE - Z.of_nat (Z.to_nat MAXLINE)) (c[": "] ++ strerror (errno s))))
      else mpure b1) = mpure b2 /\ length b2 = length b1 /\ cstring_at b2 0 = text) as (b2 & -> & L2 & C2).
  { destruct errnoflag; [|by exists b1].
    destruct (append_checked b1 text []) as (b2 & E2 & L2 & C2); [done|constructor|cbn [length]; unfold MAXLINE in *; lia|].
    rewrite E in E2. rewrite app_nil_r in C2. exists b2. by split_and!. }
  rewrite then_pure, C2. unfold put_text, memcpy. rewrite decide_False; [done|].
  rewrite length_app, E, L2, L1, Hb0. cbn [length]. unfold MAXLINE. lia.
Qed.

(** C8: [err_doit] stays inside its buffer for every message, however long.  The line it makes is
    the message and the error text, cut to [MAXLINE - 1] characters together, and a newline,
    so that with its NUL it takes at most the [MAXLINE + 1] characters of the buffer.
    - In a foreground process the line is written on [stderr] between the two flushes.
    - In a daemon it is handed to [syslog] as the format: it is logged as [syslog] expands it, and
      where it has a conversion that needs an argument the behaviour is undefined, after all
      the accesses to the buffer.
    - Where [configure] has not found [vsnprintf], all this holds of messages shorter than
      [MAXLINE], and every longer one overruns the buffer. *)
Theorem err_doit_bounded errnoflag level fmt ap text s :
  vformat fmt ap = Some text -> nul_free text ->
  let line := report_line errnoflag text (errno s) in
  Z.of_nat (length line) + 1 <= MAXLINE + 1 /\
  (daemon_proc s = 0 -> err_doit errnoflag level fmt ap s = (Val tt, reported line s)) /\
  (daemon_proc s <> 0 -> err_doit errnoflag level fmt ap s =
     match syslog_text (errno s) line with
     | Some logged => (Val tt, after (sys_syslog level logged) (answer (sys_syslog level logged) s) s)
     | None => (Undefined, s)
     end) /\
  (if decide (length text < Z.to_nat MAXLINE)%nat
   then err_doit_with false errnoflag level fmt ap s = err_doit errnoflag level fmt ap s
   else (err_doit_with false errnoflag level fmt ap s).1 = Undefined).
Proof.
  intros Ef Hn line. rewrite (err_doit_line _ _ _ _ text) by done. cbv zeta. fold line. split_and!.
  - unfold line, report_line. rewrite length_app, length_take. unfold MAXLINE. cbn [length]. lia.
  - by intros ->.
  - intros Hd. rewrite (proj2 (Z.eqb_neq _ _) Hd). unfold syslog. rewrite (then_val get_errno _ s (errno s) s) by done.
    by destruct (syslog_text (errno s) line).
  - case_decide as Hl; [by rewrite (err_doit_with_short _ _ _ _ text), (err_doit_line _ _ _ _ text)|].
    apply (err_doit_with_long _ _ _ _ text); [done|done|lia].
Qed.

(** In a daemon, a message with a per cent sign in it is used as a format. *)
Lemma syslog_text_plain e fmt : 37 ∉ fmt -> syslog_text e fmt = Some fmt.
Proof.
  induction fmt as [|c fmt IH]; intros H2; [done|]. cbn [syslog_text].
  assert (c <> 37) by set_solver. rewrite IH by set_solver.
  repeat case_match; subst; done.
Qed.

End Error.

(** Error numbers printed as numbers: what some C libraries do for unknown errors. *)
Definition numeric_strerror_text (e : Z) : cstring := c["error "] ++ print_d e.

Lemma numeric_strerror_nul_free e : nul_free (numeric_strerror_text e).
Proof.
  apply Forall_app. split; [by repeat constructor|].
  unfold print_d. destruct (e <? 0); [constructor; [done|]|]; by apply digit_char_nonzero.
Qed.

Definition numeric_strerror : Strerror :=
  {| strerror := numeric_strerror_text; strerror_nul_free := numeric_strerror_nul_free |}.

#[local] Existing Instance numeric_strerror.

Lemma err_doit_bounded_witness :
  let os := script [] in
  let line := c["open error for /tmp/x: error 2"] ++ [10] in
  err_doit true LOG_ERR c["open error for %s"] [AStr c["/tmp/x"]] (St 2 0 []) = (Val tt, reported line (St 2 0 [])) /\
  (err_doit true LOG_ERR c["open error for %s"] [AStr c["/tmp/x"]] (St 2 1 [])).1 = Val tt.
Proof.
  intros os line.
  pose proof (fun d => err_doit_bounded (os := os) true LOG_ERR c["open error for %s"] [AStr c["/tmp/x"]]
    c["open error for /tmp/x"] (St 2 d []) ltac:(vm_compute; reflexivity) ltac:(repeat constructor; vm_compute; discriminate)) as H.
  split.
  - destruct (H 0) as (_ & Hf & _). exact (Hf eq_refl).
  - destruct (H 1) as (_ & _ & Hd & _). rewrite (Hd ltac:(discriminate)). reflexivity.
Defined.

(** In a daemon the finished message is handed to [syslog] as its format string, so a per cent
    sign that came in through an argument is a conversion without an argument. *)
Lemma err_doit_daemon_format :
  (err_doit (os := script []) false LOG_ERR c["cannot open %s"] [AStr c["100%s"]]
     (St 0 1 [])).1 = Undefined.
Proof. vm_compute. reflexivity. Qed.
