(* ===== verification/Ownership.v ===== *)
(** Ownership of resources (memory, descriptors) in programs of the monad [M].

    A [resource] says which calls hand out a handle and which give one back.  [mspec R m B Q C]
    says of a program part [m] that, when it returns [a], [Q a] holds and the handles owned
    before ([B]) together with those it obtained are, up to order, those it gave back together
    with those owned afterwards ([C a]).  The rules follow the program text. *)

From S2P Require Import Prelude CText Sys Traces Error.

Record resource : Type := Res {
  gain : event -> list Z;
  lose : event -> list Z;
}.

Definition balance (R : resource) (s s' : st) (B C : list Z) : Prop :=
  exists evs, trace s' = evs ++ trace s /\
    collect (gain R) evs ++ B ≡ₚ collect (lose R) evs ++ C.

Definition mspec (R : resource) {A} (m : M A) (B : list Z) (Q : A -> Prop) (C : A -> list Z)
    : Prop :=
  forall s, match m s with (Val a, s') => Q a /\ balance R s s' B (C a) | _ => True end.

(** The same with the handles owned afterwards known up to a relation. *)
Definition mspecE (R : resource) {A} (m : M A) (B : list Z) (P : A -> list Z -> Prop) : Prop :=
  forall s, match m s with (Val a, s') => exists C, P a C /\ balance R s s' B C | _ => True end.

(** [m] makes only calls that neither hand out nor give back a handle. *)
Definition idle (R : resource) (e : event) : Prop := gain R e = [] /\ lose R e = [].

Definition quiet (R : resource) {A} (m : M A) : Prop :=
  forall s, let '(_, s') := m s in
    exists evs, trace s' = evs ++ trace s /\ Forall (idle R) evs.

Section Rules.
Context {os : OS} {SE : Strerror} {R : resource}.

Lemma balance_refl s B C : B ≡ₚ C -> balance R s s B C.
Proof. intros H. by exists []. Qed.

Lemma balance_trans s1 s2 s3 A B C : balance R s1 s2 A B -> balance R s2 s3 B C -> balance R s1 s3 A C.
Proof.
  intros (e1 & T1 & P1) (e2 & T2 & P2). exists (e2 ++ e1). rewrite T2, T1, app_assoc.
  split; [done|]. rewrite !collect_app, <- !app_assoc.
  rewrite (Permutation_app_comm (collect (gain R) e2) A), app_assoc, P1, <- app_assoc.
  by rewrite (Permutation_app_comm B), P2.
Qed.

Lemma mspec_pure {A} (a : A) B (Q : A -> Prop) C : Q a -> B ≡ₚ C a -> mspec R (mpure a) B Q C.
Proof. intros HQ HP s. split; [done|by apply balance_refl]. Qed.

Lemma mspec_bind {A D} (m : M A) (k : A -> M D) B Q1 C1 Q C :
  mspec R m B Q1 C1 -> (forall a, Q1 a -> mspec R (k a) (C1 a) Q C) -> mspec R (mthen m k) B Q C.
Proof.
  intros Hm Hk s. specialize (Hm s). unfold mthen. destruct (m s) as [[a| | | |] s1]; try done.
  destruct Hm as [HQ HM]. specialize (Hk a HQ s1). destruct (k a s1) as [[d| | | |] s2]; try done.
  destruct Hk as [? HM2]. split; [done|by eapply balance_trans].
Qed.

Lemma mspec_conseq {A} (m : M A) B B' (Q Q' : A -> Prop) C C' :
  mspec R m B' Q' C' -> B ≡ₚ B' -> (forall a, Q' a -> Q a) -> (forall a, Q' a -> C' a ≡ₚ C a) ->
  mspec R m B Q C.
Proof.
  intros Hm HB HQ HC s. specialize (Hm s). destruct (m s) as [[a| | | |] s1]; try done.
  destruct Hm as (HQ' & evs & Ht & Hp). split; [by apply HQ|]. exists evs. split; [done|].
  rewrite HB, Hp. f_equiv. by apply HC.
Qed.

Lemma mspec_pre {A} (m : M A) B B' Q C : mspec R m B' Q C -> B ≡ₚ B' -> mspec R m B Q C.
Proof. intros Hm HB. by eapply mspec_conseq. Qed.

(** More handles than the program part touches. *)
Lemma mspec_frame {A} (m : M A) B F Q C :
  mspec R m B Q C -> mspec R m (B ++ F) Q (fun a => C a ++ F).
Proof.
  intros Hm s. specialize (Hm s). destruct (m s) as [[a| | | |] s1]; try done.
  destruct Hm as (HQ & evs & Ht & Hp). split; [done|]. exists evs. split; [done|].
  by rewrite !app_assoc, Hp.
Qed.

Lemma mspec_undefined {A} B (Q : A -> Prop) C : mspec R undefined B Q C.
Proof. by intros s. Qed.

Lemma mspec_err_quit {A} fmt ap B (Q : A -> Prop) C : mspec R (err_quit fmt ap) B Q C.
Proof.
  intros s. destruct (err_quit fmt ap s) as [[a| | | |] s'] eqn:E; try done.
  by apply err_quit_no_return in E.
Qed.

Lemma mspec_err_sys {A} fmt ap B (Q : A -> Prop) C : mspec R (err_sys fmt ap) B Q C.
Proof.
  intros s. destruct (err_sys fmt ap s) as [[a| | | |] s'] eqn:E; try done.
  by apply err_sys_no_return in E.
Qed.

Lemma mspec_checked {A} (x : option A) B : mspec R (checked x) B (fun _ => True) (fun _ => B).
Proof. destruct x; [by apply mspec_pure|by apply mspec_undefined]. Qed.

(** A call: what it hands out and what it gives back. *)
Lemma mspec_sys c B C :
  (forall r, gain R (c, r) ++ B ≡ₚ lose R (c, r) ++ C r) ->
  mspec R (sys c) B (fun _ => True) C.
Proof.
  intros HC s. cbn. split; [done|]. exists [(c, answer c s)]. split; [done|].
  by rewrite !collect_one.
Qed.

Lemma mspec_quiet {A} (m : M A) B : quiet R m -> mspec R m B (fun _ => True) (fun _ => B).
Proof.
  intros Hq s. specialize (Hq s). destruct (m s) as [[a| | | |] s1]; try done.
  destruct Hq as (evs & Ht & Hf). split; [done|]. exists evs. split; [done|].
  rewrite !collect_nil_of; [done|..]; eapply Forall_impl; try done; by intros e [? ?].
Qed.

Lemma mspecE_of {A} (m : M A) B Q C (P : A -> list Z -> Prop) :
  mspec R m B Q C -> (forall a, Q a -> P a (C a)) -> mspecE R m B P.
Proof.
  intros Hm HR s. specialize (Hm s). destruct (m s) as [[a| | | |] s1]; try done.
  destruct Hm. exists (C a). auto.
Qed.

Lemma mspecE_bind {A D} (m : M A) (k : A -> M D) B Q1 C1 P :
  mspec R m B Q1 C1 -> (forall a, Q1 a -> mspecE R (k a) (C1 a) P) -> mspecE R (mthen m k) B P.
Proof.
  intros Hm Hk s. specialize (Hm s). unfold mthen. destruct (m s) as [[a| | | |] s1]; try done.
  destruct Hm as [HQ HM]. specialize (Hk a HQ s1). destruct (k a s1) as [[d| | | |] s2]; try done.
  destruct Hk as (C & ? & HM2). exists C. split; [done|by eapply balance_trans].
Qed.

(** Quiet programs. *)
Lemma quiet_bind {A D} (m : M A) (k : A -> M D) :
  quiet R m -> (forall a, quiet R (k a)) -> quiet R (mthen m k).
Proof.
  intros Hm Hk s. specialize (Hm s). unfold mthen. destruct (m s) as [[a| | | |] s1]; try done.
  specialize (Hk a s1). destruct (k a s1) as [o s2].
  destruct Hm as (e1 & T1 & F1), Hk as (e2 & T2 & F2). exists (e2 ++ e1).
  rewrite T2, T1, app_assoc. split; [done|]. by apply Forall_app.
Qed.

Lemma quiet_nil {A} (m : M A) : (forall s, trace (m s).2 = trace s) -> quiet R m.
Proof. intros H s. specialize (H s). destruct (m s). exists []. split; [done|constructor]. Qed.

Lemma quiet_pure {A} (a : A) : quiet R (mpure a).
Proof. by apply quiet_nil. Qed.
Lemma quiet_undefined {A} : quiet R (undefined (A := A)).
Proof. by apply quiet_nil. Qed.
Lemma quiet_exit {A} c : quiet R (exit_ (A := A) c).
Proof. by apply quiet_nil. Qed.
Lemma quiet_get_errno : quiet R get_errno.
Proof. by apply quiet_nil. Qed.
Lemma quiet_set_errno e : quiet R (set_errno e).
Proof. by apply quiet_nil. Qed.
Lemma quiet_get_daemon_proc : quiet R get_daemon_proc.
Proof. by apply quiet_nil. Qed.
Lemma quiet_checked {A} (x : option A) : quiet R (checked x).
Proof. destruct x; by apply quiet_nil. Qed.
Lemma quiet_sys c : (forall r, idle R (c, r)) -> quiet R (sys c).
Proof.
  intros H s. cbn. exists [(c, answer c s)]. split; [done|]. constructor; [apply H|constructor].
Qed.

End Rules.

(** Quietness by the structure of the program. *)
Create HintDb quiet.
#[export] Hint Resolve quiet_pure quiet_undefined quiet_exit quiet_get_errno quiet_set_errno
  quiet_get_daemon_proc quiet_checked : quiet.

Ltac quiet_step :=
  first
    [ solve [auto with quiet nocore]
    | apply quiet_bind; [|intros ?]
    | apply quiet_sys; intros ?; split; reflexivity
    | case_match ].
Ltac solve_quiet := repeat (cbv zeta; quiet_step).

(** Permutations of appended lists, by counting. *)
Ltac perm_core :=
  do 3 (rewrite ?count_occ_app in *; cbn [count_occ app] in * );
  repeat case_match; lia.
