(* ===== verification/Wrappers.v ===== *)
(** The wrapper functions: [lib/wrapunix.c], [lib/wrapsock.c], [lib/wrapstdio.c],
    [lib/wrappthread.c] and [lib/wraplib.c].

    A wrapper has its function's name with a capital, makes the call, and ends the process
    through [err_sys] or [err_quit] when the call reports a failure, so that its callers need
    no error handling.  The data a call returns through pointers is the [sysret] it
    returns. *)

From S2P Require Import Prelude CText Sys Error InetAddr.

Section Wrappers.
Context {os : OS} {SE : Strerror}.

(** The shape of a wrapper: [if (bad (n = call)) err_sys (msg)]. *)
Definition call (c : syscall) (bad : Z -> bool) (msg : cstring) : M sysret :=
  r <~ sys c ;; if bad (rv r) then err_sys msg [] else mpure r.

(** [if (bad (n = call)) err_quit (msg)]. *)
Definition call_quit (c : syscall) (bad : Z -> bool) (msg : cstring) : M sysret :=
  r <~ sys c ;; if bad (rv r) then err_quit msg [] else mpure r.

Definition minus1 (n : Z) : bool := n =? -1.
Definition negative (n : Z) : bool := n <? 0.
Definition null (p : Z) : bool := p =? 0.

(** ** wrapunix.c *)

Definition Calloc (n size : Z) : M Z :=
  r <~ call (sys_calloc n size) null c["calloc error"] ;; mpure (rv r).

Definition Close (fd : Z) : M unit :=
  call (sys_close fd) minus1 c["close error"] ;;; mpure tt.

Definition Dup2 (fd1 fd2 : Z) : M unit :=
  call (sys_dup2 fd1 fd2) minus1 c["dup2 error"] ;;; mpure tt.

Definition Fcntl (fd cmd arg : Z) : M Z :=
  r <~ call (sys_fcntl fd cmd arg) minus1 c["fcntl error"] ;; mpure (rv r).

Definition Gettimeofday : M (list Z) :=
  r <~ call sys_gettimeofday minus1 c["gettimeofday error"] ;; mpure (rints r).

Definition Ioctl (fd request arg : Z) : M sysret :=
  call (sys_ioctl fd request arg) minus1 c["ioctl error"].

Definition Fork : M Z :=
  r <~ call sys_fork minus1 c["fork error"] ;; mpure (rv r).

Definition Malloc (size : Z) : M Z :=
  r <~ call (sys_malloc size) null c["malloc error"] ;; mpure (rv r).

Definition O_WRONLY : Z := 1.
Definition O_RDWR : Z := 2.
Definition O_CREAT : Z := 64.
Definition FILE_MODE : Z := 420.

Definition Open (pathname : cstring) (oflag mode : Z) : M Z :=
  r <~ sys (sys_open pathname oflag mode) ;;
  if rv r =? -1 then err_sys c["open error for %s"] [AStr pathname] else mpure (rv r).

(** [HAVE_MKSTEMP] is the argument [have_mkstemp]; [mktemp] writes the name it found back into
    the template. *)
Definition Mkstemp (have_mkstemp : bool) (template : cstring) : M Z :=
  if have_mkstemp then
    r <~ sys (sys_mkstemp template) ;;
    if rv r <? 0 then err_quit c["mkstemp error"] [] else mpure (rv r)
  else
    r <~ sys (sys_mktemp template) ;;
    if (rv r =? 0) || (match rbytes r with [] => true | _ => false end)
    then err_quit c["mktemp error"] []
    else Open (rbytes r) (Z.lor O_CREAT O_WRONLY) FILE_MODE.

Definition Mmap (addr len prot flags fd offset : Z) : M Z :=
  r <~ call (sys_mmap addr len prot flags fd offset) minus1 c["mmap error"] ;; mpure (rv r).

Definition Pipe : M (list Z) :=
  r <~ call sys_pipe negative c["pipe error"] ;; mpure (rints r).

Definition Read (fd nbytes : Z) : M sysret :=
  call (sys_read fd nbytes) minus1 c["read error"].

Definition Sigaddset (set signo : Z) : M sysret :=
  call (sys_sigaddset set signo) minus1 c["sigaddset error"].

Definition Sigdelset (set signo : Z) : M sysret :=
  call (sys_sigdelset set signo) minus1 c["sigdelset error"].

Definition Sigemptyset : M sysret := call sys_sigemptyset minus1 c["sigemptyset error"].

Definition Sigfillset : M sysret := call sys_sigfillset minus1 c["sigfillset error"].

Definition Sigismember (set signo : Z) : M Z :=
  r <~ call (sys_sigismember set signo) minus1 c["sigismember error"] ;; mpure (rv r).

Definition Sigpending : M sysret := call sys_sigpending minus1 c["sigpending error"].

Definition Sigprocmask (how : Z) (set : option Z) : M sysret :=
  call (sys_sigprocmask how set) minus1 c["sigprocmask error"].

Definition Strdup (str : cstring) : M Z :=
  r <~ call (sys_strdup str) null c["strdup error"] ;; mpure (rv r).

(** [errno] is cleared first, in case [sysconf] does not change it. *)
Definition Sysconf (name : Z) : M Z :=
  set_errno 0 ;;;
  r <~ call (sys_sysconf name) minus1 c["sysconf error"] ;; mpure (rv r).

(** [oldlen] is the size of the buffer for the value, if there is one. *)
Definition Sysctl (name : list Z) (oldlen : option Z) (newp : list Z) : M sysret :=
  call (sys_sysctl name oldlen newp) minus1 c["sysctl error"].

Definition Unlink (pathname : cstring) : M unit :=
  r <~ sys (sys_unlink pathname) ;;
  if rv r =? -1 then err_sys c["unlink error for %s"] [AStr pathname] else mpure tt.

Definition Wait : M sysret := call sys_wait minus1 c["wait error"].

Definition Waitpid (pid options : Z) : M sysret :=
  call (sys_waitpid pid options) minus1 c["waitpid error"].

(** A short write is an error too. *)
Definition Write (fd : Z) (d : list Z) : M unit :=
  call (sys_write fd d) (fun n => negb (n =? Z.of_nat (length d))) c["write error"] ;;; mpure tt.

(** ** wrapstdio.c *)

Definition EOF_ : Z := -1.

Definition Fclose (fp : Z) : M unit :=
  call (sys_fclose fp) (fun n => negb (n =? 0)) c["fclose error"] ;;; mpure tt.

Definition Fdopen (fd : Z) (type : cstring) : M Z :=
  r <~ call (sys_fdopen fd type) null c["fdopen error"] ;; mpure (rv r).

(** [None] is the null pointer at end of file. *)
Definition Fgets (n fp : Z) : M (option cstring) :=
  r <~ sys (sys_fgets n fp) ;;
  if rv r =? 0 then
    e <~ sys (sys_ferror fp) ;;
    if negb (rv e =? 0) then err_sys c["fgets error"] [] else mpure None
  else mpure (Some (rbytes r)).

Definition Fopen (filename mode : cstring) : M Z :=
  r <~ call (sys_fopen filename mode) null c["fopen error"] ;; mpure (rv r).

Definition Fputs (text : cstring) (fp : Z) : M unit :=
  call (sys_fputs text fp) (fun n => n =? EOF_) c["fputs error"] ;;; mpure tt.

(** ** wraplib.c *)

(** [strptr] is [None] for a null pointer. *)
Definition Inet_ntop (family : Z) (addrptr : list Z) (strptr : option (list Z)) (len : Z)
    : M (list Z) :=
  match strptr with
  | None => err_quit c["NULL 3rd argument to inet_ntop"] []
  | Some buf =>
      r <~ checked (Ntop.inet_ntop family addrptr buf len) ;;
      match r with
      | inl e => set_errno e ;;; err_sys c["inet_ntop error"] []
      | inr buf' => mpure buf'
      end
  end.

Definition Inet_pton (family : Z) (strptr : cstring) (addrptr : list Z) : M (list Z) :=
  r <~ checked (Pton.inet_pton family strptr addrptr) ;;
  let '(n, addrptr', e) := r in
  (match e with Some e => set_errno e | None => mpure tt end) ;;;
  if n <? 0 then err_sys c["inet_pton error for %s"] [AStr strptr]
  else if n =? 0 then err_quit c["inet_pton error for %s"] [AStr strptr]
  else mpure addrptr'.

(** ** wrapsock.c *)

(** The errors after which [Accept] tries again: the connection was aborted before it could
    be returned. *)
Definition accept_again (e : Z) : bool := (e =? EPROTO) || (e =? ECONNABORTED).

Fixpoint Accept (fuel : nat) (fd : Z) (want : bool) : M sysret :=
  match fuel with
  | O => no_fuel
  | S f =>
      r <~ sys (sys_accept fd want) ;;
      if rv r <? 0 then
        e <~ get_errno ;;
        if accept_again e then Accept f fd want else err_sys c["accept error"] []
      else mpure r
  end.

Definition Bind (fd : Z) (sa : sockaddr) : M unit :=
  call (sys_bind fd sa) negative c["bind error"] ;;; mpure tt.

Definition Connect (fd : Z) (sa : sockaddr) : M unit :=
  call (sys_connect fd sa) negative c["connect error"] ;;; mpure tt.

Definition Getpeername (fd : Z) : M sysret :=
  call (sys_getpeername fd) negative c["getpeername error"].

Definition Getsockname (fd : Z) : M sysret :=
  call (sys_getsockname fd) negative c["getsockname error"].

Definition Getsockopt (fd level optname optlen : Z) : M sysret :=
  call (sys_getsockopt fd level optname optlen) negative c["getsockopt error"].

Definition Inet6_rth_space (type segments : Z) : M Z :=
  r <~ call_quit (sys_inet6_rth_space type segments) negative c["inet6_rth_space error"] ;;
  mpure (rv r).

Definition Inet6_rth_init (rthbuf rthlen type segments : Z) : M Z :=
  r <~ call_quit (sys_inet6_rth_init rthbuf rthlen type segments) null
         c["inet6_rth_init error"] ;; mpure (rv r).

Definition Inet6_rth_add (rthbuf : Z) (addr : list Z) : M unit :=
  call_quit (sys_inet6_rth_add rthbuf addr) negative c["inet6_rth_add error"] ;;; mpure tt.

Definition Inet6_rth_reverse (inp out : Z) : M unit :=
  call_quit (sys_inet6_rth_reverse inp out) negative c["inet6_rth_reverse error"] ;;; mpure tt.

Definition Inet6_rth_segments (rthbuf : Z) : M Z :=
  r <~ call_quit (sys_inet6_rth_segments rthbuf) negative c["inet6_rth_segments error"] ;;
  mpure (rv r).

Definition Inet6_rth_getaddr (rthbuf idx : Z) : M sysret :=
  call_quit (sys_inet6_rth_getaddr rthbuf idx) null c["inet6_rth_getaddr error"].

Definition Kqueue : M Z := r <~ call sys_kqueue negative c["kqueue error"] ;; mpure (rv r).

Definition Kevent (kq : Z) (changelist : list Z) (nevents : Z) (timeout : option Z) : M sysret :=
  call (sys_kevent kq changelist nevents timeout) negative c["kevent error"].

(** The backlog can be overridden with the environment variable [LISTENQ]. *)
Definition Listen (fd backlog : Z) : M unit :=
  ptr <~ sys (sys_getenv c["LISTENQ"]) ;;
  let backlog := if negb (rv ptr =? 0) then atoi (rbytes ptr) else backlog in
  call (sys_listen fd backlog) negative c["listen error"] ;;; mpure tt.

Definition Poll (fdarray : list (Z * Z)) (timeout : Z) : M sysret :=
  call (sys_poll fdarray timeout) negative c["poll error"].

Definition Recv (fd nbytes flags : Z) : M sysret :=
  call (sys_recv fd nbytes flags) negative c["recv error"].

Definition Recvfrom (fd nbytes flags : Z) (want : bool) : M sysret :=
  call (sys_recvfrom fd nbytes flags want) negative c["recvfrom error"].

Definition Recvmsg (fd : Z) (iov : list Z) (controllen flags : Z) : M sysret :=
  call (sys_recvmsg fd iov controllen flags) negative c["recvmsg error"].

Definition Select (nfds : Z) (rset wset xset : list Z) (timeout : option (Z * Z)) : M sysret :=
  call (sys_select nfds rset wset xset timeout) negative c["select error"].

Definition Send (fd : Z) (d : list Z) (flags : Z) : M unit :=
  call (sys_send fd d flags) (fun n => negb (n =? Z.of_nat (length d))) c["send error"] ;;;
  mpure tt.

Definition Sendto (fd : Z) (d : list Z) (flags : Z) (sa : option sockaddr) : M unit :=
  call (sys_sendto fd d flags sa) (fun n => negb (n =? Z.of_nat (length d))) c["sendto error"] ;;;
  mpure tt.

(** [for (i = 0; i < msg->msg_iovlen; i++) nbytes += msg->msg_iov[i].iov_len;] *)
Fixpoint iov_bytes (iov : list (list Z)) (nbytes : Z) : Z :=
  match iov with
  | [] => nbytes
  | d :: iov' => iov_bytes iov' (nbytes + Z.of_nat (length d))
  end.

Definition Sendmsg (fd : Z) (name : option sockaddr) (iov : list (list Z)) (rights : list Z)
    (flags : Z) : M unit :=
  let nbytes := iov_bytes iov 0 in
  call (sys_sendmsg fd name iov rights flags) (fun n => negb (n =? nbytes)) c["sendmsg error"] ;;;
  mpure tt.

Definition Setsockopt (fd level optname : Z) (v : optval) : M unit :=
  call (sys_setsockopt fd level optname v) negative c["setsockopt error"] ;;; mpure tt.

Definition Shutdown (fd how : Z) : M unit :=
  call (sys_shutdown fd how) negative c["shutdown error"] ;;; mpure tt.

Definition Sockatmark (fd : Z) : M Z :=
  r <~ call (sys_sockatmark fd) negative c["sockatmark error"] ;; mpure (rv r).

Definition Socket (family type protocol : Z) : M Z :=
  r <~ call (sys_socket family type protocol) negative c["socket error"] ;; mpure (rv r).

Definition Socketpair (family type protocol : Z) : M (list Z) :=
  r <~ call (sys_socketpair family type protocol) negative c["socketpair error"] ;;
  mpure (rints r).

(** ** wrappthread.c

    The Pthread functions return the error number; the wrappers put it in [errno] for
    [err_sys]. *)
Definition pcall (c : syscall) (msg : cstring) : M sysret :=
  r <~ sys c ;;
  if rv r =? 0 then mpure r else set_errno (rv r) ;;; err_sys msg [].

Definition Pthread_create (attr func arg : Z) : M sysret :=
  pcall (sys_pthread_create attr func arg) c["pthread_create error"].
Definition Pthread_join (tid : Z) : M sysret :=
  pcall (sys_pthread_join tid) c["pthread_join error"].
Definition Pthread_detach (tid : Z) : M sysret :=
  pcall (sys_pthread_detach tid) c["pthread_detach error"].
Definition Pthread_kill (tid signo : Z) : M sysret :=
  pcall (sys_pthread_kill tid signo) c["pthread_kill error"].
Definition Pthread_mutexattr_init (attr : Z) : M sysret :=
  pcall (sys_pthread_mutexattr_init attr) c["pthread_mutexattr_init error"].
Definition Pthread_mutexattr_setpshared (attr flag : Z) : M sysret :=
  pcall (sys_pthread_mutexattr_setpshared attr flag) c["pthread_mutexattr_setpshared error"].
Definition Pthread_mutex_init (mptr attr : Z) : M sysret :=
  pcall (sys_pthread_mutex_init mptr attr) c["pthread_mutex_init error"].
Definition Pthread_mutex_lock (mptr : Z) : M sysret :=
  pcall (sys_pthread_mutex_lock mptr) c["pthread_mutex_lock error"].
Definition Pthread_mutex_unlock (mptr : Z) : M sysret :=
  pcall (sys_pthread_mutex_unlock mptr) c["pthread_mutex_unlock error"].
Definition Pthread_cond_broadcast (cptr : Z) : M sysret :=
  pcall (sys_pthread_cond_broadcast cptr) c["pthread_cond_broadcast error"].
Definition Pthread_cond_signal (cptr : Z) : M sysret :=
  pcall (sys_pthread_cond_signal cptr) c["pthread_cond_signal error"].
Definition Pthread_cond_wait (cptr mptr : Z) : M sysret :=
  pcall (sys_pthread_cond_wait cptr mptr) c["pthread_cond_wait error"].
Definition Pthread_cond_timedwait (cptr mptr : Z) (ts : Z * Z) : M sysret :=
  pcall (sys_pthread_cond_timedwait cptr mptr ts) c["pthread_cond_timedwait error"].
Definition Pthread_once (ptr func : Z) : M sysret :=
  pcall (sys_pthread_once ptr func) c["pthread_once error"].
Definition Pthread_key_create (func : Z) : M sysret :=
  pcall (sys_pthread_key_create func) c["pthread_key_create error"].
Definition Pthread_setspecific (key value : Z) : M sysret :=
  pcall (sys_pthread_setspecific key value) c["pthread_setspecific error"].


(** * Fail-stop contract *)

(** [m] makes exactly the call [c]; it returns [res] of the answer when the answer is not bad,
    and otherwise reports [msg] with the error text of the call and ends the process. *)
Definition fail_stop {A} (errnoflag : bool) (m : M A) (c : syscall) (bad : Z -> bool)
    (msg : cstring) (res : sysret -> A) : Prop :=
  forall s, daemon_proc s = 0 ->
    let r := answer c s in
    let s1 := after c r s in
    m s = if bad (rv r)
          then (Exited 1, reported (report_line errnoflag msg (errno s1)) s1)
          else (Val (res r), s1).

Lemma call_fail_stop {A} (k : sysret -> A) c bad msg :
  37 ∉ msg -> nul_free msg ->
  fail_stop true (mthen (call c bad msg) (fun r => mpure (k r))) c bad msg k.
Proof.
  intros Hp Hn s Hd. cbv zeta. unfold call, mthen, sys. cbn [rv].
  destruct (bad _); [|done].
  by rewrite (err_sys_exits msg [] msg) by (done || by apply vformat_plain).
Qed.

Lemma call_fail_stop_id c bad msg :
  37 ∉ msg -> nul_free msg -> fail_stop true (call c bad msg) c bad msg id.
Proof.
  intros Hp Hn s Hd. cbv zeta. unfold call, mthen, sys. cbn [rv].
  destruct (bad _); [|done].
  by rewrite (err_sys_exits msg [] msg) by (done || by apply vformat_plain).
Qed.

Lemma call_quit_fail_stop {A} (k : sysret -> A) c bad msg :
  37 ∉ msg -> nul_free msg ->
  fail_stop false (mthen (call_quit c bad msg) (fun r => mpure (k r))) c bad msg k.
Proof.
  intros Hp Hn s Hd. cbv zeta. unfold call_quit, mthen, sys. cbn [rv].
  destruct (bad _); [|done].
  by rewrite (err_quit_exits msg [] msg) by (done || by apply vformat_plain).
Qed.

Lemma call_quit_fail_stop_id c bad msg :
  37 ∉ msg -> nul_free msg -> fail_stop false (call_quit c bad msg) c bad msg id.
Proof.
  intros Hp Hn s Hd. cbv zeta. unfold call_quit, mthen, sys. cbn [rv].
  destruct (bad _); [|done].
  by rewrite (err_quit_exits msg [] msg) by (done || by apply vformat_plain).
Qed.

(** A literal message is plain text. *)
Lemma plain_of_bool msg :
  forallb (fun c => negb (c =? 37) && negb (c =? 0)) msg = true -> (37 ∉ msg) /\ nul_free msg.
Proof.
  rewrite forallb_forall. intros H. split.
  - intros Hi%list_elem_of_In. by specialize (H _ Hi).
  - apply Forall_forall. intros c Hi%list_elem_of_In ->. by specialize (H _ Hi).
Qed.

Ltac plain_message := apply plain_of_bool; reflexivity.

(** A message with one [%s] in it. *)
Lemma open_message pathname :
  vformat c["open error for %s"] [AStr pathname] = Some (c["open error for "] ++ pathname).
Proof. apply (vformat_one_string c["open error for "]); plain_message. Qed.

Lemma unlink_message pathname :
  vformat c["unlink error for %s"] [AStr pathname] = Some (c["unlink error for "] ++ pathname).
Proof. apply (vformat_one_string c["unlink error for "]); plain_message. Qed.

Lemma Open_fail_stop pathname oflag mode :
  nul_free pathname ->
  fail_stop true (Open pathname oflag mode) (sys_open pathname oflag mode) minus1
    (c["open error for "] ++ pathname) rv.
Proof.
  intros Hn s Hd. cbv zeta. unfold Open, mthen, sys, minus1. cbn [rv].
  destruct (_ =? -1); [|done].
  rewrite (err_sys_exits _ _ _ _ (open_message pathname)); [done| |done].
  apply Forall_app. split; [by repeat constructor|done].
Qed.

Lemma Unlink_fail_stop pathname :
  nul_free pathname ->
  fail_stop true (Unlink pathname) (sys_unlink pathname) minus1
    (c["unlink error for "] ++ pathname) (fun _ => tt).
Proof.
  intros Hn s Hd. cbv zeta. unfold Unlink, mthen, sys, minus1. cbn [rv].
  destruct (_ =? -1); [|done].
  rewrite (err_sys_exits _ _ _ _ (unlink_message pathname)); [done| |done].
  apply Forall_app. split; [by repeat constructor|done].
Qed.

Lemma pcall_exits c msg s :
  37 ∉ msg -> nul_free msg -> daemon_proc s = 0 ->
  let r := answer c s in
  let s1 := after c r s in
  pcall c msg s =
    if rv r =? 0 then (Val r, s1)
    else let s2 := St (rv r) (daemon_proc s1) (trace s1) in
         (Exited 1, reported (report_line true msg (rv r)) s2).
Proof.
  intros Hp Hn Hd. cbv zeta. unfold pcall, mthen, sys. cbn [rv].
  destruct (_ =? 0); [done|]. cbn [set_errno].
  by rewrite (err_sys_exits msg [] msg) by (done || by apply vformat_plain).
Qed.

(** [accept] fails [k] times in a row with an error after which it is tried again. *)
Inductive aborted_accepts (fd : Z) (want : bool) : nat -> st -> st -> Prop :=
| aborted_none s : aborted_accepts fd want 0 s s
| aborted_more k s s' :
    let r := answer (sys_accept fd want) s in
    let s1 := after (sys_accept fd want) r s in
    rv r < 0 -> accept_again (errno s1) = true ->
    aborted_accepts fd want k s1 s' -> aborted_accepts fd want (S k) s s'.

End Wrappers.

Ltac plain_message := apply plain_of_bool; reflexivity.
Ltac wrapper :=
  lazymatch goal with
  | |- fail_stop true _ _ _ _ id => apply call_fail_stop_id
  | |- fail_stop false _ _ _ _ id => apply call_quit_fail_stop_id
  | |- fail_stop true _ _ _ _ ?k => apply (call_fail_stop k)
  | |- fail_stop false _ _ _ _ ?k => apply (call_quit_fail_stop k)
  end; plain_message.

Section Claims.
Context {os : OS} {SE : Strerror}.

(** The wrappers of the Unix functions are fail-stop.  Each makes exactly its call, with its
    own arguments; when the call succeeds it returns what the call returned, and when the
    call fails (by that call's own convention: -1, a negative value, a null pointer, or for
    [Write] any count but the one asked for) it writes the message and the text of the error
    on [stderr] and ends the process with status 1. *)
Theorem wrapunix_fail_stop :
  (forall n size, fail_stop true (Calloc n size) (sys_calloc n size) null c["calloc error"] rv) /\
  (forall fd, fail_stop true (Close fd) (sys_close fd) minus1 c["close error"] (fun _ => tt)) /\
  (forall fd1 fd2, fail_stop true (Dup2 fd1 fd2) (sys_dup2 fd1 fd2) minus1 c["dup2 error"]
     (fun _ => tt)) /\
  (forall fd cmd arg, fail_stop true (Fcntl fd cmd arg) (sys_fcntl fd cmd arg) minus1
     c["fcntl error"] rv) /\
  fail_stop true Gettimeofday sys_gettimeofday minus1 c["gettimeofday error"] rints /\
  (forall fd req arg, fail_stop true (Ioctl fd req arg) (sys_ioctl fd req arg) minus1
     c["ioctl error"] id) /\
  fail_stop true Fork sys_fork minus1 c["fork error"] rv /\
  (forall size, fail_stop true (Malloc size) (sys_malloc size) null c["malloc error"] rv) /\
  (forall a l p f fd o, fail_stop true (Mmap a l p f fd o) (sys_mmap a l p f fd o) minus1
     c["mmap error"] rv) /\
  fail_stop true Pipe sys_pipe negative c["pipe error"] rints /\
  (forall fd n, fail_stop true (Read fd n) (sys_read fd n) minus1 c["read error"] id) /\
  (forall set signo, fail_stop true (Sigismember set signo) (sys_sigismember set signo) minus1
     c["sigismember error"] rv) /\
  (forall how set, fail_stop true (Sigprocmask how set) (sys_sigprocmask how set) minus1
     c["sigprocmask error"] id) /\
  (forall str, fail_stop true (Strdup str) (sys_strdup str) null c["strdup error"] rv) /\
  fail_stop true Wait sys_wait minus1 c["wait error"] id /\
  (forall pid options, fail_stop true (Waitpid pid options) (sys_waitpid pid options) minus1
     c["waitpid error"] id) /\
  (forall fd d, fail_stop true (Write fd d) (sys_write fd d)
     (fun n => negb (n =? Z.of_nat (length d))) c["write error"] (fun _ => tt)).
Proof.
  split_and!; intros; wrapper.
Qed.

(** The wrappers of the socket functions are fail-stop.  As for the Unix functions; a
    partial [Send], [Sendto] or [Sendmsg] counts as a failure, the length of a message being
    the sum over its I/O vector, and the routing-header wrappers report without the text of
    [errno], which their functions do not set. *)
Theorem wrapsock_fail_stop :
  (forall fd sa, fail_stop true (Bind fd sa) (sys_bind fd sa) negative c["bind error"]
     (fun _ => tt)) /\
  (forall fd sa, fail_stop true (Connect fd sa) (sys_connect fd sa) negative c["connect error"]
     (fun _ => tt)) /\
  (forall fd, fail_stop true (Getpeername fd) (sys_getpeername fd) negative
     c["getpeername error"] id) /\
  (forall fd, fail_stop true (Getsockname fd) (sys_getsockname fd) negative
     c["getsockname error"] id) /\
  (forall fd l o n, fail_stop true (Getsockopt fd l o n) (sys_getsockopt fd l o n) negative
     c["getsockopt error"] id) /\
  (forall t n, fail_stop false (Inet6_rth_space t n) (sys_inet6_rth_space t n) negative
     c["inet6_rth_space error"] rv) /\
  (forall b a, fail_stop false (Inet6_rth_add b a) (sys_inet6_rth_add b a) negative
     c["inet6_rth_add error"] (fun _ => tt)) /\
  (forall b i, fail_stop false (Inet6_rth_getaddr b i) (sys_inet6_rth_getaddr b i) null
     c["inet6_rth_getaddr error"] id) /\
  (forall fds t, fail_stop true (Poll fds t) (sys_poll fds t) negative c["poll error"] id) /\
  (forall fd n f, fail_stop true (Recv fd n f) (sys_recv fd n f) negative c["recv error"] id) /\
  (forall fd n f w, fail_stop true (Recvfrom fd n f w) (sys_recvfrom fd n f w) negative
     c["recvfrom error"] id) /\
  (forall fd iov n f, fail_stop true (Recvmsg fd iov n f) (sys_recvmsg fd iov n f) negative
     c["recvmsg error"] id) /\
  (forall n rs ws xs t, fail_stop true (Select n rs ws xs t) (sys_select n rs ws xs t) negative
     c["select error"] id) /\
  (forall fd d f, fail_stop true (Send fd d f) (sys_send fd d f)
     (fun n => negb (n =? Z.of_nat (length d))) c["send error"] (fun _ => tt)) /\
  (forall fd d f sa, fail_stop true (Sendto fd d f sa) (sys_sendto fd d f sa)
     (fun n => negb (n =? Z.of_nat (length d))) c["sendto error"] (fun _ => tt)) /\
  (forall fd sa iov rs f, fail_stop true (Sendmsg fd sa iov rs f) (sys_sendmsg fd sa iov rs f)
     (fun n => negb (n =? Z.of_nat (length (concat iov)))) c["sendmsg error"] (fun _ => tt)) /\
  (forall fd l o v, fail_stop true (Setsockopt fd l o v) (sys_setsockopt fd l o v) negative
     c["setsockopt error"] (fun _ => tt)) /\
  (forall fd how, fail_stop true (Shutdown fd how) (sys_shutdown fd how) negative
     c["shutdown error"] (fun _ => tt)) /\
  (forall f t p, fail_stop true (Socket f t p) (sys_socket f t p) negative c["socket error"] rv).
Proof.
  split_and!; intros; try wrapper.
  assert (E : forall a, iov_bytes iov a = a + Z.of_nat (length (concat iov))).
  { induction iov as [|d iov IH]; intros a; cbn [iov_bytes concat]; [cbn; lia|].
    rewrite IH, length_app. lia. }
  unfold Sendmsg. rewrite E. wrapper.
Qed.

(** The Pthread wrappers turn an error number returned by the call into [errno]: the call
    succeeds exactly when it returns 0, and otherwise the text of the number it returned (not
    of an earlier [errno]) is reported and the process ends. *)
Theorem wrappthread_fail_stop mptr cptr (m : M sysret) (c : syscall) (msg : cstring) s :
  (m, c, msg) ∈
    [ (Pthread_mutex_lock mptr, sys_pthread_mutex_lock mptr, c["pthread_mutex_lock error"]);
      (Pthread_mutex_unlock mptr, sys_pthread_mutex_unlock mptr,
         c["pthread_mutex_unlock error"]);
      (Pthread_cond_signal cptr, sys_pthread_cond_signal cptr, c["pthread_cond_signal error"]);
      (Pthread_cond_broadcast cptr, sys_pthread_cond_broadcast cptr,
         c["pthread_cond_broadcast error"]);
      (Pthread_cond_wait cptr mptr, sys_pthread_cond_wait cptr mptr,
         c["pthread_cond_wait error"]) ] ->
  daemon_proc s = 0 ->
  let r := answer c s in
  let s1 := after c r s in
  m s = if rv r =? 0 then (Val r, s1)
        else let s2 := St (rv r) (daemon_proc s1) (trace s1) in
             (Exited 1, reported (report_line true msg (rv r)) s2).
Proof.
  intros Hin Hd. set_unfold in Hin.
  destruct_or! Hin; try done; injection Hin as -> -> ->; apply pcall_exits; done || plain_message.
Qed.

(** [Accept] survives aborted connections.  When [accept] fails [k] times with [EPROTO] or
    [ECONNABORTED] and then answers otherwise, [Accept] with fuel for [k + 1] calls makes
    exactly those [k + 1] calls and returns the connected socket; any other failure ends the
    process with the message. *)
Theorem Accept_retries fd want k fuel s s' :
  aborted_accepts fd want k s s' -> (k < fuel)%nat -> daemon_proc s = 0 ->
  let r := answer (sys_accept fd want) s' in
  let s1 := after (sys_accept fd want) r s' in
  (rv r < 0 -> accept_again (errno s1) = false) ->
  Accept fuel fd want s =
    if rv r <? 0 then (Exited 1, reported (report_line true c["accept error"] (errno s1)) s1)
    else (Val r, s1).
Proof.
  cbv zeta. intros Hk. revert fuel. induction Hk as [s|k s s' r s1 Hr Ha Hk IH];
    intros [|fuel] Hf Hd Hend; try lia; cbn [Accept]; rewrite then_sys.
  - destruct (Z.ltb_spec (rv (answer (sys_accept fd want) s)) 0); [|done].
    rewrite (then_val get_errno _ _ _ _ eq_refl). rewrite Hend by done.
    apply (err_sys_exits _ _ c["accept error"]); [done|by repeat constructor|done].
  - fold r s1. destruct (Z.ltb_spec (rv r) 0); [|lia].
    rewrite (then_val get_errno _ _ _ _ eq_refl), Ha. apply IH; [lia|done|done].
Qed.

End Claims.

#[local] Existing Instance numeric_strerror.

Lemma wrappthread_fail_stop_witness :
  let os := script [failed 22 22] in
  (Pthread_mutex_lock 5 init).1 = Exited 1 /\
  (sys_fputs (report_line true c["pthread_mutex_lock error"] 22) stderr, ok 0) ∈
    trace (Pthread_mutex_lock 5 init).2.
Proof.
  intros os.
  rewrite (wrappthread_fail_stop 5 6 (Pthread_mutex_lock 5) (sys_pthread_mutex_lock 5)
             c["pthread_mutex_lock error"] init); [|set_solver|reflexivity].
  vm_compute. split; [reflexivity|]. right; left.
Defined.

(** Two aborted connections, then descriptor 7. *)
Lemma Accept_retries_witness :
  let os := script [failed (-1) ECONNABORTED; failed (-1) EPROTO; ok 7] in
  exists s', Accept 3 4 false init = (Val (ok 7), s').
Proof.
  intros os. eexists.
  rewrite (Accept_retries 4 false 2 3 init
    (St EPROTO 0 [(sys_accept 4 false, failed (-1) EPROTO);
                  (sys_accept 4 false, failed (-1) ECONNABORTED)])); vm_compute.
  - reflexivity.
  - apply (aborted_more 4 false); [reflexivity|reflexivity|].
    apply (aborted_more 4 false); [reflexivity|reflexivity|]. apply aborted_none.
  - repeat constructor.
  - reflexivity.
  - discriminate.
Defined.
