(* ===== verification/RobustIO.v ===== *)
(** Robust stream I/O on top of [read] and [write]: [lib/readn.c], [lib/writen.c],
    [lib/readline.c], the descriptor passing of [lib/read_fd.c] and [lib/write_fd.c], the timed
    waits [lib/readable_timeo.c] and [lib/writable_timeo.c], and the echo service built on
    them: [lib/str_echo.c], [lib/str_cli.c], [lib/dg_echo.c], [lib/dg_cli.c].

    Buffers are checked byte lists, pointers into them are offsets.  Loops that depend on the
    environment take fuel, one unit for each call they make; the theorems say how much is
    enough. *)

From S2P Require Import Prelude CText Sys Error Wrappers.

Section RobustIO.
Context {os : OS} {SE : Strerror}.

(** ** readn.c *)

(** The loop of [readn]: [ptr] is the offset reached in [buf], [nleft] the bytes missing. *)
Fixpoint readn_loop (fuel : nat) (fd n : Z) (buf : list Z) (ptr : nat) (nleft : Z)
    : M (Z * list Z) :=
  if nleft >? 0 then
    match fuel with
    | O => no_fuel
    | S f =>
        r <~ sys (sys_read fd nleft) ;;
        buf <~ checked (memcpy buf ptr (rbytes r)) ;;
        if rv r <? 0 then
          e <~ get_errno ;;
          if e =? EINTR then readn_loop f fd n buf ptr nleft   (* and call read() again *)
          else mpure (-1, buf)
        else if rv r =? 0 then mpure (n - nleft, buf)          (* EOF *)
        else readn_loop f fd n buf (ptr + Z.to_nat (rv r)) (nleft - rv r)
    end
  else mpure (n - nleft, buf).

Definition readn (fuel : nat) (fd : Z) (vptr : list Z) (n : Z) : M (Z * list Z) :=
  readn_loop fuel fd n vptr 0 n.

Definition Readn (fuel : nat) (fd : Z) (ptr : list Z) (nbytes : Z) : M (Z * list Z) :=
  r <~ readn fuel fd ptr nbytes ;;
  if r.1 <? 0 then err_sys c["readn error"] [] else mpure r.

(** ** writen.c *)

Definition slice {A} (l : list A) (off : nat) (n : Z) : list A := take (Z.to_nat n) (drop off l).

Fixpoint writen_loop (fuel : nat) (fd n : Z) (vptr : list Z) (ptr : nat) (nleft : Z) : M Z :=
  if nleft >? 0 then
    match fuel with
    | O => no_fuel
    | S f =>
        r <~ sys (sys_write fd (slice vptr ptr nleft)) ;;
        if rv r <=? 0 then
          e <~ get_errno ;;
          if (rv r <? 0) && (e =? EINTR) then writen_loop f fd n vptr ptr nleft
          else mpure (-1)
        else writen_loop f fd n vptr (ptr + Z.to_nat (rv r)) (nleft - rv r)
    end
  else mpure n.

Definition writen (fuel : nat) (fd : Z) (vptr : list Z) (n : Z) : M Z :=
  writen_loop fuel fd n vptr 0 n.

Definition Writen (fuel : nat) (fd : Z) (ptr : list Z) (nbytes : Z) : M unit :=
  r <~ writen fuel fd ptr nbytes ;;
  if negb (r =? nbytes) then err_sys c["writen error"] [] else mpure tt.

(** ** readline.c *)

(** The static variables: [read_ptr] is an offset in [read_buf]. *)
Record rline : Type := RL {
  read_cnt : Z;
  read_ptr : nat;
  read_buf : list Z;
}.

(** Their initial values: static storage is zero. *)
Definition rline_init : rline := RL 0 0 (replicate (Z.to_nat MAXLINE) 0).

(** The [again] loop of [my_read]: it ends with the value of [read_cnt]. *)
Fixpoint my_read_fill (fuel : nat) (rl : rline) (fd : Z) : M (Z * rline) :=
  match fuel with
  | O => no_fuel
  | S f =>
      r <~ sys (sys_read fd MAXLINE) ;;
      buf <~ checked (memcpy (read_buf rl) 0 (rbytes r)) ;;
      let rl := RL (rv r) (read_ptr rl) buf in
      if rv r <? 0 then
        e <~ get_errno ;;
        if e =? EINTR then my_read_fill f rl fd else mpure (-1, rl)
      else if rv r =? 0 then mpure (0, rl)
      else mpure (1, RL (read_cnt rl) 0 buf)
  end.

(** The return code, the character stored through [ptr] when the code is 1, and the static
    variables. *)
Definition my_read (fuel : nat) (rl : rline) (fd : Z) : M (Z * Z * rline) :=
  p <~ (if read_cnt rl <=? 0 then my_read_fill fuel rl fd else mpure (1, rl)) ;;
  let '(rc, rl) := p in
  if rc =? 1 then
    c <~ checked (read_buf rl !! read_ptr rl) ;;
    mpure (1, c, RL (read_cnt rl - 1) (S (read_ptr rl)) (read_buf rl))
  else mpure (rc, 0, rl).

(** The [for] loop of [readline]; [left] is [maxlen - n], the iterations that remain, and
    [ptr] the offset [n - 1] in the caller's buffer. *)
Fixpoint readline_loop (fuel left : nat) (rl : rline) (fd : Z) (vptr : list Z) (ptr : nat)
    (n : Z) : M (Z * list Z * rline) :=
  match left with
  | O =>
      vptr <~ checked (store vptr ptr 0) ;;         (* null terminate like fgets() *)
      mpure (n, vptr, rl)
  | S left' =>
      p <~ my_read fuel rl fd ;;
      let '(rc, c, rl) := p in
      if rc =? 1 then
        vptr <~ checked (store vptr ptr c) ;;
        if c =? 10 then                             (* newline is stored, like fgets() *)
          vptr <~ checked (store vptr (S ptr) 0) ;;
          mpure (n, vptr, rl)
        else readline_loop fuel left' rl fd vptr (S ptr) (n + 1)
      else if rc =? 0 then
        vptr <~ checked (store vptr ptr 0) ;;
        mpure (n - 1, vptr, rl)                     (* EOF, n - 1 bytes were read *)
      else mpure (-1, vptr, rl)                     (* error, errno set by read() *)
  end.

(** [fuel] bounds the [read] calls of each refill of the buffer. *)
Definition readline (fuel : nat) (rl : rline) (fd : Z) (vptr : list Z) (maxlen : Z)
    : M (Z * list Z * rline) :=
  readline_loop fuel (Z.to_nat (maxlen - 1)) rl fd vptr 0 1.

(** The unread input and its length. *)
Definition readlinebuf (rl : rline) : Z * option nat :=
  (read_cnt rl, if read_cnt rl =? 0 then None else Some (read_ptr rl)).

Definition Readline (fuel : nat) (rl : rline) (fd : Z) (ptr : list Z) (maxlen : Z)
    : M (Z * list Z * rline) :=
  r <~ readline fuel rl fd ptr maxlen ;;
  if r.1.1 <? 0 then err_sys c["readline error"] [] else mpure r.

(** ** str_echo.c, str_cli.c *)

(** [fuel] bounds the [read] calls, [wfuel] the [write] calls for one buffer. *)
Fixpoint str_echo (wfuel fuel : nat) (sockfd : Z) : M unit :=
  match fuel with
  | O => no_fuel
  | S f =>
      r <~ sys (sys_read sockfd MAXLINE) ;;
      buf <~ checked (memcpy (replicate (Z.to_nat MAXLINE) 0) 0 (rbytes r)) ;;
      if rv r >? 0 then
        Writen wfuel sockfd buf (rv r) ;;; str_echo wfuel f sockfd
      else
        e <~ get_errno ;;
        if (rv r <? 0) && (e =? EINTR) then str_echo wfuel f sockfd
        else if rv r <? 0 then err_sys c["str_echo: read error"] []
        else mpure tt
  end.

(** [iofuel] bounds the calls of one [Writen] and one buffer refill. *)
Fixpoint str_cli (iofuel fuel : nat) (rl : rline) (fp sockfd : Z) : M rline :=
  match fuel with
  | O => no_fuel
  | S f =>
      sendline <~ Fgets MAXLINE fp ;;
      match sendline with
      | None => mpure rl
      | Some line =>
          Writen iofuel sockfd line (Z.of_nat (length line)) ;;;
          r <~ Readline iofuel rl sockfd (replicate (Z.to_nat MAXLINE) 0) MAXLINE ;;
          let '(n, recvline, rl) := r in
          if n =? 0 then err_quit c["str_cli: server terminated prematurely"] []
          else Fputs (cstring_at recvline 0) stdout ;;; str_cli iofuel f rl fp sockfd
      end
  end.

(** ** dg_echo.c, dg_cli.c *)

(** The loop has no end; [fuel] is the number of datagrams echoed. *)
Fixpoint dg_echo (fuel : nat) (sockfd : Z) : M unit :=
  match fuel with
  | O => no_fuel
  | S f =>
      r <~ Recvfrom sockfd MAXLINE 0 true ;;
      mesg <~ checked (memcpy (replicate (Z.to_nat MAXLINE) 0) 0 (rbytes r)) ;;
      Sendto sockfd (take (Z.to_nat (rv r)) mesg) 0 (rsa r) ;;;
      dg_echo f sockfd
  end.

Fixpoint dg_cli (fuel : nat) (fp sockfd : Z) (servaddr : sockaddr) : M unit :=
  match fuel with
  | O => no_fuel
  | S f =>
      sendline <~ Fgets MAXLINE fp ;;
      match sendline with
      | None => mpure tt
      | Some line =>
          Sendto sockfd line 0 (Some servaddr) ;;;
          r <~ Recvfrom sockfd MAXLINE 0 false ;;
          recvline <~ checked (memcpy (replicate (Z.to_nat (MAXLINE + 1)) 0) 0 (rbytes r)) ;;
          recvline <~ checked (store recvline (Z.to_nat (rv r)) 0) ;;   (* null terminate *)
          Fputs (cstring_at recvline 0) stdout ;;;
          dg_cli f fp sockfd servaddr
      end
  end.

(** ** readable_timeo.c, writable_timeo.c *)

Definition readable_timeo (fd sec : Z) : M Z :=
  r <~ sys (sys_select (fd + 1) [fd] [] [] (Some (sec, 0))) ;; mpure (rv r).

Definition Readable_timeo (fd sec : Z) : M Z :=
  n <~ readable_timeo fd sec ;;
  if n <? 0 then err_sys c["readable_timeo error"] [] else mpure n.

Definition writable_timeo (fd sec : Z) : M Z :=
  r <~ sys (sys_select (fd + 1) [] [fd] [] (Some (sec, 0))) ;; mpure (rv r).

Definition Writable_timeo (fd sec : Z) : M Z :=
  n <~ writable_timeo fd sec ;;
  if n <? 0 then err_sys c["writable_timeo error"] [] else mpure n.

(** ** read_fd.c, write_fd.c

    With [HAVE_MSGHDR_MSG_CONTROL]: the first control message of a [recvmsg] answer is the list
    [cmsg_len; cmsg_level; cmsg_type; fd] of its integers, the empty list when there is none.
    The descriptor is handed back when a message was received. *)

Definition SCM_RIGHTS : Z := 1.
Definition CMSG_LEN_INT : Z := 20.
Definition CMSG_SPACE_INT : Z := 24.

Definition read_fd (fd nbytes : Z) : M (Z * list Z * option Z) :=
  r <~ sys (sys_recvmsg fd [nbytes] CMSG_SPACE_INT 0) ;;
  if rv r <=? 0 then mpure (rv r, rbytes r, None)
  else
    match rints r with
    | [cmsg_len; cmsg_level; cmsg_type; newfd] =>
        if cmsg_len =? CMSG_LEN_INT then
          if negb (cmsg_level =? SOL_SOCKET) then err_quit c["control level != SOL_SOCKET"] []
          else if negb (cmsg_type =? SCM_RIGHTS) then err_quit c["control type != SCM_RIGHTS"] []
          else mpure (rv r, rbytes r, Some newfd)
        else mpure (rv r, rbytes r, Some (-1))
    | _ => mpure (rv r, rbytes r, Some (-1))         (* descriptor was not passed *)
    end.

Definition Read_fd (fd nbytes : Z) : M (Z * list Z * option Z) :=
  r <~ read_fd fd nbytes ;;
  if r.1.1 <? 0 then err_sys c["read_fd error"] [] else mpure r.

Definition write_fd (fd : Z) (ptr : list Z) (nbytes sendfd : Z) : M Z :=
  r <~ sys (sys_sendmsg fd None [take (Z.to_nat nbytes) ptr]
              [CMSG_LEN_INT; SOL_SOCKET; SCM_RIGHTS; sendfd] 0) ;;
  mpure (rv r).

Definition Write_fd (fd : Z) (ptr : list Z) (nbytes sendfd : Z) : M Z :=
  n <~ write_fd fd ptr nbytes sendfd ;;
  if n <? 0 then err_sys c["write_fd error"] [] else mpure n.

End RobustIO.
