(* ===== verification/StreamFacts.v ===== *)
(** Facts about [readn], [writen] and the echo loop: what has been transferred when they
    return, for every environment that keeps the documented contract of [read] and [write]; and
    the lines that [readline] takes from the stream. *)

From S2P Require Import Prelude CText Sys Traces Error Wrappers RobustIO.

Section Readn.
Context {os : OS} {SE : Strerror} {RL : ReadLaw}.

(** The cases of one [read]. *)
Inductive read_case (fd n : Z) (s : st) : sysret -> st -> Prop :=
| read_data_case r d s1 :
    rv r = Z.of_nat (length d) -> rbytes r = d -> (0 < length d)%nat ->
    Z.of_nat (length d) <= n -> bytes_ok d ->
    s1 = after (sys_read fd n) r s -> read_case fd n s r s1
| read_eof_case r s1 :
    rv r = 0 -> rbytes r = [] -> s1 = after (sys_read fd n) r s -> read_case fd n s r s1
| read_eintr_case r s1 :
    rv r = -1 -> rbytes r = [] -> rerrno r = Some EINTR -> errno s1 = EINTR ->
    s1 = after (sys_read fd n) r s -> read_case fd n s r s1
| read_error_case r s1 x :
    rv r = -1 -> rbytes r = [] -> rerrno r = Some x -> x <> EINTR -> errno s1 = x ->
    s1 = after (sys_read fd n) r s -> read_case fd n s r s1.

Lemma read_cases fd n s :
  0 <= n ->
  let r := answer (sys_read fd n) s in
  read_case fd n s r (after (sys_read fd n) r s).
Proof.
  intros Hn. cbv zeta. pose proof (read_law (trace s) fd n Hn) as Hl.
  fold (answer (sys_read fd n) s) in Hl. set (r := answer _ _) in *.
  destruct Hl as [Hb [(Hv & [x Hx] & Hd)|(Hv & Hle)]].
  - destruct (decide (x = EINTR)) as [->|Hne].
    + eapply read_eintr_case; eauto. cbn. by rewrite Hx.
    + eapply read_error_case; eauto. cbn. by rewrite Hx.
  - destruct (rbytes r) as [|b d] eqn:E.
    + by eapply read_eof_case.
    + eapply (read_data_case _ _ _ r (b :: d)); eauto; cbn in *; lia.
Qed.

(** What [readn_loop] has done when it stops: the history of its reads, and
    - on a count, all bytes the reads delivered are stored from [ptr] on, the count includes
      them, and it is short only when the last read was the end of the file;
    - on -1, the last read failed with an error other than [EINTR], which is in [errno];
    - out of fuel, every call was made, and all but [nleft] of them were interrupted. *)
Definition readn_post (fuel : nat) (fd n : Z) (buf : list Z) (ptr : nat) (nleft : Z)
    (s : st) (o : outcome (Z * list Z)) (s' : st) : Prop :=
  exists evs, trace s' = evs ++ trace s /\ daemon_proc s' = daemon_proc s /\
    Forall (on_read fd) evs /\
    let d := received fd evs in
    match o with
    | Val (k, buf') =>
        Z.of_nat (length d) <= nleft /\ memcpy buf ptr d = Some buf' /\
        ((k = n - nleft + Z.of_nat (length d) /\
          (Z.of_nat (length d) < nleft -> ended_by is_eof evs)) \/
         (k = -1 /\ Z.of_nat (length d) < nleft /\ ended_by is_error evs /\ errno s' <> EINTR))
    | OutOfFuel => length evs = fuel /\ Z.of_nat fuel < nleft + Z.of_nat (interrupts evs)
    | _ => False
    end.

(** One read that delivered data or was interrupted, and the rest of the loop. *)
Lemma readn_post_step f fd n buf buf1 ptr nleft s r o s2 :
  let ev := (sys_read fd nleft, r) in
  let k := length (rbytes r) in
  memcpy buf ptr (rbytes r) = Some buf1 ->
  Z.of_nat ptr + nleft <= Z.of_nat (length buf) -> Z.of_nat k <= nleft ->
  (0 < k)%nat \/ is_interrupt ev = true ->
  readn_post f fd n buf1 (ptr + k) (nleft - Z.of_nat k) (after (sys_read fd nleft) r s) o s2 ->
  readn_post (S f) fd n buf ptr nleft s o s2.
Proof.
  intros ev k Hc Hb Hk Hprog (evs & Ht & Hdp & Hall & Hm).
  exists (evs ++ [ev]). rewrite Ht, Hdp, <- app_assoc. split_and!; [done..| |].
  { apply Forall_app. split; [done|]. constructor; [by eexists|done]. }
  unfold received. rewrite collect_snoc. fold (received fd evs).
  replace (read_data fd ev) with (rbytes r) by (cbn; by rewrite Z.eqb_refl).
  destruct o as [[c buf']| | | |]; try done.
  - destruct Hm as (Hle2 & Hm & Hr). rewrite length_app. fold k.
    unfold k in Hm. rewrite (memcpy_app buf) in Hm by (done || lia).
    split_and!; [lia|done|]. destruct Hr as [[-> Hr]|(-> & ? & ? & ?)]; [left|right].
    + split; [lia|]. intros. apply ended_by_app, Hr. lia.
    + split_and!; [done|lia|by apply ended_by_app|done].
  - destruct Hm as [<- Hm]. rewrite interrupts_app, length_app. cbn [length].
    unfold interrupts at 2. cbn [List.filter].
    destruct Hprog as [|Hi]; [|rewrite Hi; cbn [length]]; lia.
Qed.

(** One read that ends the loop. *)
Lemma readn_post_stop f fd n buf ptr nleft s r k :
  rbytes r = [] -> 0 < nleft -> Z.of_nat ptr + nleft <= Z.of_nat (length buf) ->
  let ev := (sys_read fd nleft, r) in
  let s1 := after (sys_read fd nleft) r s in
  (k = n - nleft /\ is_eof ev) \/ (k = -1 /\ is_error ev /\ errno s1 <> EINTR) ->
  readn_post (S f) fd n buf ptr nleft s (Val (k, buf)) s1.
Proof.
  intros Hd Hp Hb ev s1 Hk. exists [ev]. split_and!; [done..| |].
  { constructor; [by eexists|done]. }
  unfold received. rewrite collect_one.
  replace (read_data fd ev) with (rbytes r) by (cbn; by rewrite Z.eqb_refl).
  rewrite Hd. cbn [length]. rewrite memcpy_nil by lia. split_and!; [lia|done|].
  destruct Hk as [[-> ?]|(-> & ? & ?)]; [left|right].
  - split; [lia|]. intros _. by apply ended_by_one.
  - split_and!; [done|lia|by apply ended_by_one|done].
Qed.

Lemma readn_loop_spec fuel fd n buf ptr nleft s :
  0 <= nleft -> Z.of_nat ptr + nleft <= Z.of_nat (length buf) ->
  wp (readn_loop fuel fd n buf ptr nleft) (readn_post fuel fd n buf ptr nleft s) s.
Proof.
  revert buf ptr nleft s. induction fuel as [|f IH]; intros buf ptr nleft s Hn Hb;
    cbn [readn_loop]; destruct (Z.gtb_spec nleft 0) as [Hp|Hp].
  - exists []. cbn. split_and!; try done; lia.
  - exists []. cbn. rewrite memcpy_nil by lia. split_and!; try done; left; lia.
  - unfold wp in *. rewrite then_sys.
    destruct (read_cases fd nleft s Hn)
      as [r d s1 Hv Hd Hl Hle _ ->|r s1 Hv Hd ->|r s1 Hv Hd Hx He ->|r s1 x Hv Hd Hx Hne He ->];
      rewrite Hd, Hv.
    + destruct (memcpy buf ptr d) as [buf1|] eqn:Em; [|rewrite memcpy_ok in Em; [done|lia]].
      cbn [checked]. rewrite then_pure.
      destruct (Z.ltb_spec (Z.of_nat (length d)) 0); [lia|].
      destruct (Z.eqb_spec (Z.of_nat (length d)) 0); [lia|].
      pose proof (memcpy_length _ _ _ _ Em) as Hlen. rewrite Nat2Z.id.
      specialize (IH buf1 (ptr + length d)%nat (nleft - Z.of_nat (length d))
                    (after (sys_read fd nleft) r s) ltac:(lia) ltac:(lia)).
      destruct (readn_loop _ _ _ _ _ _ _) as [o s2].
      apply (readn_post_step f fd n buf buf1 ptr nleft s r); rewrite ?Hd; auto.
    + rewrite memcpy_nil by lia. cbn [checked]. rewrite then_pure. cbn.
      apply readn_post_stop; auto.
    + rewrite memcpy_nil by lia. cbn [checked]. rewrite then_pure. cbn [Z.ltb Z.compare].
      rewrite (then_val get_errno _ _ _ _ eq_refl), He, Z.eqb_refl.
      specialize (IH buf ptr nleft (after (sys_read fd nleft) r s) Hn Hb).
      destruct (readn_loop _ _ _ _ _ _ _) as [o s2].
      apply (readn_post_step f fd n buf buf ptr nleft s r); rewrite ?Hd; cbn [length].
      * apply memcpy_nil. lia.
      * lia.
      * lia.
      * right. unfold is_interrupt. cbn. by rewrite Hv, Hx.
      * by rewrite Nat.add_0_r, Z.sub_0_r.
    + rewrite memcpy_nil by lia. cbn [checked]. rewrite then_pure. cbn [Z.ltb Z.compare].
      rewrite (then_val get_errno _ _ _ _ eq_refl), He.
      destruct (Z.eqb_spec x EINTR) as [|_]; [done|].
      apply readn_post_stop; [done|lia|done|]. right. split_and!; [done| |by rewrite He].
      split; [cbn; lia|by exists x].
  - exists []. cbn. rewrite memcpy_nil by lia. split_and!; try done; left; lia.
Qed.
End Readn.

Section Writen.
Context {os : OS} {SE : Strerror} {WL : WriteLaw}.

(** The cases of one [write]. *)
Inductive write_case (c : syscall) (len : nat) (s : st) : sysret -> st -> Prop :=
| write_some_case r s1 :
    0 < rv r <= Z.of_nat len -> s1 = after c r s -> write_case c len s r s1
| write_none_case r s1 : rv r = 0 -> s1 = after c r s -> write_case c len s r s1
| write_eintr_case r s1 :
    rv r = -1 -> rerrno r = Some EINTR -> errno s1 = EINTR ->
    s1 = after c r s -> write_case c len s r s1
| write_error_case r s1 x :
    rv r = -1 -> rerrno r = Some x -> x <> EINTR -> errno s1 = x ->
    s1 = after c r s -> write_case c len s r s1.

Lemma write_cases fd d s :
  let c := sys_write fd d in
  write_case c (length d) s (answer c s) (after c (answer c s) s).
Proof.
  cbv zeta. pose proof (write_law (trace s) fd d) as Hl. cbv zeta in Hl.
  fold (answer (sys_write fd d) s) in Hl. set (r := answer _ _) in *.
  destruct Hl as [(Hv & [x Hx])|[H0 Hle]].
  - destruct (decide (x = EINTR)) as [->|Hne].
    + eapply write_eintr_case; eauto. cbn. by rewrite Hx.
    + eapply write_error_case; eauto. cbn. by rewrite Hx.
  - destruct (decide (rv r = 0)); [by eapply write_none_case|].
    eapply write_some_case; [lia|done].
Qed.

(** What [writen_loop] has done when it stops: on success exactly the [nleft] bytes from [ptr]
    on were taken, in order; on -1 a proper prefix of them, the last write having failed. *)
Definition writen_post (fuel : nat) (fd n : Z) (vptr : list Z) (ptr : nat) (nleft : Z)
    (s : st) (o : outcome Z) (s' : st) : Prop :=
  exists evs, trace s' = evs ++ trace s /\ daemon_proc s' = daemon_proc s /\
    Forall (on_write fd) evs /\
    match o with
    | Val k =>
        (k = n /\ sent fd evs = slice vptr ptr nleft) \/
        (k = -1 /\ exists m, sent fd evs = slice vptr ptr m /\ 0 <= m < nleft /\
           ended_by (fun e => is_error e \/ is_eof e) evs)
    | OutOfFuel =>
        length evs = fuel /\ Z.of_nat fuel < nleft + Z.of_nat (interrupts evs) /\
        exists m, sent fd evs = slice vptr ptr m /\ 0 <= m <= nleft
    | _ => False
    end.

Lemma slice_length {A} (l : list A) off n :
  0 <= n -> Z.of_nat off + n <= Z.of_nat (length l) -> length (slice l off n) = Z.to_nat n.
Proof. intros. unfold slice. rewrite length_take, length_drop. lia. Qed.

Lemma slice_add {A} (l : list A) off k m :
  0 <= k -> 0 <= m -> slice l off (k + m) = slice l off k ++ slice l (off + Z.to_nat k) m.
Proof.
  intros. unfold slice. rewrite Z2Nat.inj_add by lia.
  rewrite <- drop_drop. generalize (drop off l) (Z.to_nat k) (Z.to_nat m). clear.
  intros l a b. revert l. induction a as [|a IH]; intros [|x l]; cbn; try done.
  - by rewrite take_nil.
  - by rewrite IH.
Qed.

Lemma take_slice {A} (l : list A) off k n :
  0 <= k <= n -> take (Z.to_nat k) (slice l off n) = slice l off k.
Proof. intros. unfold slice. rewrite take_take. f_equal. lia. Qed.

Lemma writen_post_step f fd n vptr ptr nleft k s r o s2 :
  let c := sys_write fd (slice vptr ptr nleft) in
  Z.max 0 (rv r) = k -> 0 <= k <= nleft -> 0 < k \/ is_interrupt (c, r) = true ->
  writen_post f fd n vptr (ptr + Z.to_nat k) (nleft - k) (after c r s) o s2 ->
  writen_post (S f) fd n vptr ptr nleft s o s2.
Proof.
  intros c Hv Hk Hprog (evs & Ht & Hdp & Hall & Hm). set (ev := (c, r)) in *.
  exists (evs ++ [ev]). rewrite Ht, Hdp, <- app_assoc. split_and!; [done..| |].
  { apply Forall_app. split; [done|]. constructor; [by eexists|done]. }
  assert (Hd : write_data fd ev = slice vptr ptr k).
  { unfold write_data, ev, c. cbn [fst snd]. rewrite Z.eqb_refl.
    replace (Z.to_nat (rv r)) with (Z.to_nat k) by lia. apply take_slice. lia. }
  unfold sent. rewrite collect_snoc, Hd. fold (sent fd evs).
  destruct o as [c'| | | |]; try done.
  - destruct Hm as [[-> ->]|(-> & m & -> & Hm & He)].
    + left. split; [done|]. rewrite <- slice_add by lia. f_equal. lia.
    + right. split; [done|]. exists (k + m). rewrite slice_add by lia.
      split_and!; [done|lia|lia|by apply ended_by_app].
  - destruct Hm as (<- & Hm & m & -> & Hms). rewrite interrupts_app, length_app. cbn [length].
    unfold interrupts at 2. cbn [List.filter]. split_and!; [lia| |].
    + destruct Hprog as [|Hi]; [|rewrite Hi; cbn [length]]; lia.
    + exists (k + m). rewrite slice_add by lia. split; [done|lia].
Qed.

Lemma writen_post_stop f fd n vptr ptr nleft s r :
  let c := sys_write fd (slice vptr ptr nleft) in
  rv r <= 0 -> 0 < nleft -> is_error (c, r) \/ is_eof (c, r) ->
  writen_post (S f) fd n vptr ptr nleft s (Val (-1)) (after c r s).
Proof.
  intros c Hv Hp He. exists [(c, r)]. split_and!; [done..| |].
  { constructor; [by eexists|done]. }
  right. split; [done|]. exists 0. split_and!; [|lia|lia|by apply ended_by_one].
  unfold sent. rewrite collect_one. unfold write_data, c. cbn [fst snd]. rewrite Z.eqb_refl.
  replace (Z.to_nat (rv r)) with 0%nat by lia. done.
Qed.

Lemma writen_post_done fuel fd n vptr ptr nleft s :
  nleft <= 0 -> writen_post fuel fd n vptr ptr nleft s (Val n) s.
Proof.
  intros Hp. exists []. split_and!; [done|done|by constructor|]. left. split; [done|].
  unfold slice. by replace (Z.to_nat nleft) with 0%nat by lia.
Qed.

Lemma writen_loop_spec fuel fd n vptr ptr nleft s :
  0 <= nleft -> Z.of_nat ptr + nleft <= Z.of_nat (length vptr) ->
  wp (writen_loop fuel fd n vptr ptr nleft) (writen_post fuel fd n vptr ptr nleft s) s.
Proof.
  revert ptr nleft s. induction fuel as [|f IH]; intros ptr nleft s Hn Hb;
    cbn [writen_loop]; destruct (Z.gtb_spec nleft 0) as [Hp|Hp]; try by apply writen_post_done.
  - exists []. cbn. split_and!; try done; [lia|]. exists 0. split; [done|lia].
  - unfold wp in *. rewrite then_sys.
    pose proof (slice_length vptr ptr nleft Hn Hb) as Hlen.
    destruct (write_cases fd (slice vptr ptr nleft) s)
      as [r s1 Hv ->|r s1 Hv ->|r s1 Hv Hx He ->|r s1 x Hv Hx Hne He ->].
    + destruct (Z.leb_spec (rv r) 0); [lia|].
      specialize (IH (ptr + Z.to_nat (rv r))%nat (nleft - rv r)
        (after (sys_write fd (slice vptr ptr nleft)) r s) ltac:(lia) ltac:(lia)).
      destruct (writen_loop _ _ _ _ _ _ _) as [o s2].
      apply (writen_post_step f fd n vptr ptr nleft (rv r) s r); auto; lia.
    + rewrite Hv. cbn [Z.leb Z.compare].
      rewrite (then_val get_errno _ _ _ _ eq_refl). cbn [Z.ltb Z.compare andb].
      apply writen_post_stop; [lia|lia|by right].
    + rewrite Hv. cbn [Z.leb Z.compare].
      rewrite (then_val get_errno _ _ _ _ eq_refl), He. cbn [Z.ltb Z.compare andb].
      rewrite Z.eqb_refl.
      specialize (IH ptr nleft (after (sys_write fd (slice vptr ptr nleft)) r s) Hn Hb).
      destruct (writen_loop _ _ _ _ _ _ _) as [o s2].
      apply (writen_post_step f fd n vptr ptr nleft 0 s r); [lia|lia| |].
      * right. unfold is_interrupt. cbn. by rewrite Hv, Hx.
      * by rewrite Nat.add_0_r, Z.sub_0_r.
    + rewrite Hv. cbn [Z.leb Z.compare].
      rewrite (then_val get_errno _ _ _ _ eq_refl), He. cbn [Z.ltb Z.compare andb].
      destruct (Z.eqb_spec x EINTR) as [|_]; [done|].
      apply writen_post_stop; [lia|lia|]. left. split; [cbn; lia|by exists x].
Qed.
End Writen.

Section Echo.
Context {os : OS} {SE : Strerror} {RDL : ReadLaw} {WL : WriteLaw}.

(** Reports move no data on sockets and are not interrupted reads or writes. *)
Lemma reported_history line s :
  exists evs, trace (reported line s) = evs ++ trace s /\ Forall output evs /\
    forall fd, received fd evs = [] /\ sent fd evs = [].
Proof.
  unfold reported. eexists [_; _; _]. split; [done|]. split; [by repeat constructor|].
  intros fd. split; apply collect_nil_of; repeat constructor.
Qed.

(** The calls of [Writen]: writes to [fd] and the output of an error report. *)
Definition writing (fd : Z) (e : event) : Prop := on_write fd e \/ output e.

Lemma received_of_writing fd fd' evs : Forall (writing fd) evs -> received fd' evs = [].
Proof.
  intros H. apply collect_nil_of. eapply Forall_impl; [done|].
  intros [c r] [[d Hd]|Hd]; cbn in Hd; unfold read_data; cbn; [by rewrite Hd|by destruct c].
Qed.

Lemma sent_of_writing fd fd' evs : Forall (writing fd) evs -> fd' <> fd -> sent fd' evs = [].
Proof.
  intros H Hne. apply collect_nil_of. eapply Forall_impl; [done|].
  intros [c r] [[d Hd]|Hd]; cbn in Hd; unfold write_data; cbn; [|by destruct c].
  rewrite Hd. by destruct (Z.eqb_spec fd fd').
Qed.

(** A read or a write on [fd] that failed (a write fails too when it takes nothing). *)
Definition call_failed (fd : Z) (e : event) : Prop :=
  (on_read fd e /\ rv e.2 < 0) \/ (on_write fd e /\ rv e.2 <= 0).

(** [Writen] in a foreground process: what was taken is a prefix of the data, and all of it
    when [Writen] returns; it ends the process only after a write that failed. *)
Definition Writen_post (wfuel : nat) (fd : Z) (d : list Z) (s : st) (o : outcome unit) (s' : st)
    : Prop :=
  exists evs, trace s' = evs ++ trace s /\ Forall (writing fd) evs /\ sent fd evs `prefix_of` d /\
    match o with
    | Val _ => sent fd evs = d /\ daemon_proc s' = daemon_proc s
    | Exited c => c = 1 /\ Exists (call_failed fd) evs
    | OutOfFuel => Z.of_nat wfuel < Z.of_nat (length d) + Z.of_nat (interrupts evs)
    | _ => False
    end.

Lemma Writen_spec wfuel fd buf n s :
  0 <= n <= Z.of_nat (length buf) -> daemon_proc s = 0 ->
  wp (Writen wfuel fd buf n) (Writen_post wfuel fd (slice buf 0 n) s) s.
Proof.
  intros Hn Hd. unfold Writen. apply wp_then.
  eapply wp_mono; [apply writen_loop_spec; lia|].
  assert (Hpre : forall m, 0 <= m <= n -> slice buf 0 m `prefix_of` slice buf 0 n).
  { intros m Hm. replace n with (m + (n - m)) by lia. rewrite slice_add by lia. by eexists. }
  intros o s1 (evs & Ht & Hdp & Hall & Hm).
  assert (Hw : Forall (writing fd) evs) by (eapply Forall_impl; [done|by left]).
  destruct o as [k| | | |]; cbn [andthen] in *; try done.
  - destruct Hm as [[-> Hs]|(-> & m & Hs & Hm & He)].
    + rewrite Z.eqb_refl. cbn [negb]. exists evs. rewrite Hs. by split_and!.
    + destruct (Z.eqb_spec (-1) n); [lia|]. cbn [negb].
      unfold wp. rewrite (err_sys_exits _ _ c["writen error"]);
        [|done|by repeat constructor|by rewrite Hdp].
      destruct (reported_history (report_line true c["writen error"] (errno s1)) s1)
        as (evs' & Ht' & Ho' & Hq). destruct (Hq fd) as [Hq1 Hq2].
      exists (evs' ++ evs). rewrite Ht', Ht. unfold sent in *.
      rewrite app_assoc, !collect_app, Hq2, !app_nil_r, Hs.
      split_and!; [done| |apply Hpre; lia|done|].
      * apply Forall_app. split; [|done]. eapply Forall_impl; [done|by right].
      * apply Exists_app. right. destruct He as (e & es & -> & He). constructor.
        right. split; [exact (Forall_inv Hall)|]. destruct He as [[? _]|He]; [|unfold is_eof in He]; lia.
  - destruct Hm as (Hl & Hm & m & Hs & Hms). exists evs. rewrite Hs.
    split_and!; [done|done|apply Hpre; lia|]. rewrite slice_length by lia. lia.
Qed.

(** What [str_echo] has done when it stops: the data sent is a prefix of the data received,
    and all of it when the client has closed the connection. *)
Definition echo_post (wfuel fuel : nat) (fd : Z) (s : st) (o : outcome unit) (s' : st) : Prop :=
  exists evs, trace s' = evs ++ trace s /\
    match o with
    | Val _ => sent fd evs = received fd evs /\ ended_by is_eof evs
    | Exited c => c = 1 /\ sent fd evs `prefix_of` received fd evs
    | OutOfFuel =>
        sent fd evs `prefix_of` received fd evs /\
        ((fuel <= length evs)%nat \/ Z.of_nat wfuel < MAXLINE + Z.of_nat (interrupts evs))
    | _ => False
    end.

(** Some calls whose data has been echoed completely, and the rest of the loop. *)
Lemma echo_post_step wfuel fuel fd s s1 evs1 o s2 :
  trace s1 = evs1 ++ trace s -> sent fd evs1 = received fd evs1 -> (0 < length evs1)%nat ->
  echo_post wfuel fuel fd s1 o s2 -> echo_post wfuel (S fuel) fd s o s2.
Proof.
  intros Ht1 He Hl (evs & Ht & Hp). exists (evs ++ evs1). rewrite Ht, Ht1, <- app_assoc.
  split; [done|]. unfold sent, received in *. rewrite !collect_app, He, interrupts_app, length_app.
  destruct o; [|destruct Hp as [? Hp]|done|done|destruct Hp as [Hp Hq]].
  - destruct Hp as [-> ?]. split; [done|by apply ended_by_app].
  - split; [done|]. by apply prefix_app.
  - split; [by apply prefix_app|]. lia.
Qed.

Lemma str_echo_spec wfuel fuel fd s :
  daemon_proc s = 0 -> wp (str_echo wfuel fuel fd) (echo_post wfuel fuel fd s) s.
Proof.
  revert s. induction fuel as [|f IH]; intros s Hd; cbn [str_echo].
  { exists []. cbn. split_and!; [done|apply prefix_nil|]. left. lia. }
  unfold wp in *. rewrite then_sys.
  assert (Hrep : length (replicate (Z.to_nat MAXLINE) 0) = Z.to_nat MAXLINE)
    by apply length_replicate.
  destruct (read_cases fd MAXLINE s ltac:(done))
    as [r d s1 Hv Hdt Hl Hle _ ->|r s1 Hv Hdt ->|r s1 Hv Hdt Hx He ->|r s1 x Hv Hdt Hx Hne He ->];
    set (s1 := after (sys_read fd MAXLINE) r s) in *; rewrite Hdt, Hv.
  all: assert (Hrd : read_data fd (sys_read fd MAXLINE, r) = rbytes r)
         by (cbn; by rewrite Z.eqb_refl).
  - rewrite memcpy_ok by lia. cbn [checked]. rewrite then_pure.
    destruct (Z.gtb_spec (Z.of_nat (length d)) 0); [|lia].
    set (buf := take 0 _ ++ d ++ _).
    assert (Hbuf : slice buf 0 (Z.of_nat (length d)) = d).
    { unfold slice, buf. rewrite Nat2Z.id, drop_0, take_0. exact (take_app_length d _). }
    pose proof (Writen_spec wfuel fd buf (Z.of_nat (length d)) s1) as HW. unfold wp in HW.
    unfold mthen. destruct (Writen wfuel fd buf (Z.of_nat (length d)) s1) as [o s2].
    destruct HW as (evs & Ht & Hw & Hs & Ho); [unfold buf; llia|done|]. rewrite Hbuf in *.
    pose proof (received_of_writing fd fd evs Hw) as Hr.
    assert (Ht2 : trace s2 = (evs ++ [(sys_read fd MAXLINE, r)]) ++ trace s)
      by by rewrite Ht, <- app_assoc.
    assert (Hsent : sent fd (evs ++ [(sys_read fd MAXLINE, r)]) = sent fd evs)
      by (unfold sent; by rewrite collect_snoc).
    assert (Hrecv : received fd (evs ++ [(sys_read fd MAXLINE, r)]) = d).
    { unfold received in *. rewrite collect_snoc, Hrd, Hr, Hdt. apply app_nil_r. }
    destruct o as [[]| | | |]; [|exists (evs ++ [(sys_read fd MAXLINE, r)])|done|done|
      exists (evs ++ [(sys_read fd MAXLINE, r)])]; rewrite ?Hsent, ?Hrecv.
    + destruct Ho as [Hs' Hdp]. specialize (IH s2 ltac:(by rewrite Hdp)).
      destruct (str_echo wfuel f fd s2) as [o s3].
      apply (echo_post_step _ _ _ s s2 (evs ++ [(sys_read fd MAXLINE, r)])); [done| | |done].
      * by rewrite Hsent, Hrecv.
      * rewrite length_app. cbn. lia.
    + destruct Ho as [-> _]. by split_and!.
    + split_and!; [done|done|]. right. rewrite interrupts_app. lia.
  - rewrite memcpy_nil by lia. cbn [checked]. rewrite then_pure. cbn.
    exists [(sys_read fd MAXLINE, r)]. split; [done|]. unfold sent, received.
    rewrite !collect_one, Hrd, Hdt. split; [done|]. by apply ended_by_one.
  - rewrite memcpy_nil by lia. cbn [checked]. rewrite then_pure. cbn [Z.gtb Z.compare].
    rewrite (then_val get_errno _ _ _ _ eq_refl), He. cbn [Z.ltb Z.compare andb].
    rewrite Z.eqb_refl. specialize (IH s1 Hd). destruct (str_echo wfuel f fd s1) as [o s3].
    apply (echo_post_step _ _ _ s s1 [(sys_read fd MAXLINE, r)]); [done| |cbn; lia|done].
    unfold sent, received. by rewrite !collect_one, Hrd, Hdt.
  - rewrite memcpy_nil by lia. cbn [checked]. rewrite then_pure. cbn [Z.gtb Z.compare].
    rewrite (then_val get_errno _ _ _ _ eq_refl), He. cbn [Z.ltb Z.compare andb].
    destruct (Z.eqb_spec x EINTR) as [|_]; [done|].
    rewrite (err_sys_exits _ _ c["str_echo: read error"]); [|done|by repeat constructor|done].
    destruct (reported_history (report_line true c["str_echo: read error"] (errno s1)) s1)
      as (evs' & Ht' & Ho' & Hq). destruct (Hq fd) as [Hq1 Hq2].
    exists (evs' ++ [(sys_read fd MAXLINE, r)]). rewrite Ht', <- app_assoc. split; [done|].
    unfold sent, received in *. rewrite !collect_snoc, Hrd, Hdt, Hq1, Hq2. by split.
Qed.
End Echo.

(** * Lines

    Facts about [readline.c]: buffering neither loses nor duplicates a byte of the stream, and
    the line that is stored has the shape [fgets] would give it. *)

(** The input that has been read but not consumed. *)
Definition unread (rl : rline) : list Z := slice (read_buf rl) (read_ptr rl) (read_cnt rl).

(** The static variables describe a part of the buffer. *)
Definition rline_ok (rl : rline) : Prop :=
  length (read_buf rl) = Z.to_nat MAXLINE /\
  Z.of_nat (read_ptr rl) + Z.max 0 (read_cnt rl) <= MAXLINE.

Lemma rline_init_ok : rline_ok rline_init.
Proof. split; [apply length_replicate|done]. Qed.

Lemma unread_empty rl : read_cnt rl <= 0 -> unread rl = [].
Proof. intros H. unfold unread, slice. by replace (Z.to_nat _) with 0%nat by lia. Qed.

(** Taking a character out of a nonempty buffer. *)
Lemma unread_next rl :
  rline_ok rl -> 0 < read_cnt rl ->
  exists c, read_buf rl !! read_ptr rl = Some c /\
    let rl' := RL (read_cnt rl - 1) (S (read_ptr rl)) (read_buf rl) in
    unread rl = c :: unread rl' /\ rline_ok rl'.
Proof.
  intros [Hl Hp] Hc.
  destruct (lookup_lt_is_Some_2 (read_buf rl) (read_ptr rl)) as [c E]; [lia|].
  exists c. split; [done|]. cbv zeta. split; [|split; cbn; lia].
  unfold unread, slice. cbn [read_buf read_ptr read_cnt]. rewrite (drop_S _ c) by done.
  replace (Z.to_nat (read_cnt rl)) with (S (Z.to_nat (read_cnt rl - 1))) by lia. done.
Qed.

Section Readline.
Context {os : OS} {SE : Strerror} {RDL : ReadLaw}.

(** The history of [m] from [s], and what holds of it. *)
Definition reads_then {A} (fd : Z) (s : st) (P : list event -> outcome A -> Prop)
    (o : outcome A) (s' : st) : Prop :=
  exists evs, trace s' = evs ++ trace s /\ daemon_proc s' = daemon_proc s /\
    Forall (on_read fd) evs /\ P evs o.

Definition my_read_fill_post (fuel : nat) (fd : Z) (evs : list event) (o : outcome (Z * rline))
    : Prop :=
  match o with
  | Val (rc, rl') =>
      rline_ok rl' /\ received fd evs = unread rl' /\
      ((rc = 1 /\ 0 < read_cnt rl') \/
       (rc = 0 /\ read_cnt rl' = 0 /\ ended_by is_eof evs) \/
       (rc = -1 /\ read_cnt rl' = -1 /\ ended_by is_error evs))
  | OutOfFuel => (fuel <= interrupts evs)%nat
  | _ => False
  end.

Lemma reads_then_step {A} fd n r s (P Q : list event -> outcome A -> Prop) o s2 :
  (forall evs, P evs o -> Q (evs ++ [(sys_read fd n, r)]) o) ->
  reads_then fd (after (sys_read fd n) r s) P o s2 -> reads_then fd s Q o s2.
Proof.
  intros H (evs & Ht & Hd & Hf & Hp). exists (evs ++ [(sys_read fd n, r)]).
  rewrite Ht, Hd, <- app_assoc. split_and!; [done..| |by apply H].
  apply Forall_app. split; [done|]. constructor; [by eexists|done].
Qed.

Lemma reads_then_one {A} fd n r s (Q : list event -> outcome A -> Prop) o :
  Q [(sys_read fd n, r)] o -> reads_then fd s Q o (after (sys_read fd n) r s).
Proof.
  intros H. exists [(sys_read fd n, r)]. split_and!; [done..| |done].
  constructor; [by eexists|done].
Qed.

Lemma received_one fd n r : received fd [(sys_read fd n, r)] = rbytes r.
Proof. unfold received. rewrite collect_one. cbn. by rewrite Z.eqb_refl. Qed.

Lemma received_interrupted fd n r evs :
  rbytes r = [] -> received fd (evs ++ [(sys_read fd n, r)]) = received fd evs.
Proof.
  intros H. unfold received. rewrite collect_snoc. cbn. by rewrite Z.eqb_refl, H.
Qed.

(** A full read into the empty buffer. *)
Lemma fill_ok rl d buf :
  rline_ok rl -> memcpy (read_buf rl) 0 d = Some buf ->
  let rl' := RL (Z.of_nat (length d)) 0 buf in rline_ok rl' /\ unread rl' = d.
Proof.
  intros [Hl Hp] Hm. pose proof (memcpy_length _ _ _ _ Hm) as Hb.
  unfold memcpy in Hm. case_decide as Hd; [|done]. injection Hm as <-. cbn [take app] in *.
  split; [split; cbn in *; unfold MAXLINE in *; lia|].
  unfold unread, slice. cbn [read_buf read_ptr read_cnt]. rewrite Nat2Z.id.
  rewrite drop_0. by rewrite take_app_length.
Qed.

Lemma my_read_fill_spec fuel rl fd s :
  rline_ok rl ->
  wp (my_read_fill fuel rl fd) (reads_then fd s (my_read_fill_post fuel fd)) s.
Proof.
  revert rl s. induction fuel as [|f IH]; intros rl s Hok; cbn [my_read_fill].
  - exists []. split_and!; [done|done|by constructor|]. cbn. lia.
  - unfold wp in *. rewrite then_sys. pose proof Hok as [Hl Hp].
    destruct (read_cases fd MAXLINE s ltac:(done))
      as [r d s1 Hv Hd Hdl Hle _ ->|r s1 Hv Hd ->|r s1 Hv Hd Hx He ->|r s1 x Hv Hd Hx Hne He ->];
      rewrite Hd, Hv.
    + destruct (memcpy (read_buf rl) 0 d) as [buf1|] eqn:Em;
        [|rewrite memcpy_ok in Em; [done|lia]].
      cbn [checked]. rewrite then_pure.
      destruct (Z.ltb_spec (Z.of_nat (length d)) 0); [lia|].
      destruct (Z.eqb_spec (Z.of_nat (length d)) 0); [lia|].
      destruct (fill_ok rl d buf1 Hok Em) as [? Hu].
      apply reads_then_one. cbn [my_read_fill_post read_cnt]. rewrite received_one, Hu.
      split_and!; [done..|]. left. split; [done|]. cbn. lia.
    + rewrite memcpy_nil by lia. cbn [checked]. rewrite then_pure. cbn [Z.ltb Z.eqb Z.compare].
      apply reads_then_one. cbn [my_read_fill_post]. rewrite received_one, unread_empty by done.
      split_and!; [split; cbn; lia|done|]. right. left. by split_and!; [..|apply ended_by_one].
    + rewrite memcpy_nil by lia. cbn [checked]. rewrite then_pure. cbn [Z.ltb Z.compare].
      rewrite (then_val get_errno _ _ _ _ eq_refl), He, Z.eqb_refl.
      specialize (IH (RL (-1) (read_ptr rl) (read_buf rl)) (after (sys_read fd MAXLINE) r s)
                    ltac:(split; cbn; lia)).
      destruct (my_read_fill _ _ _ _) as [o s2]. revert IH. apply reads_then_step.
      intros evs. unfold my_read_fill_post.
      destruct o as [[rc rl']| | | |]; [|done..|]; rewrite ?received_interrupted by done.
      * intros (? & ? & Hc). split_and!; [done..|]. destruct_or! Hc; destruct_and! Hc;
          [left|right; left|right; right]; split_and!; try done; by apply ended_by_app.
      * rewrite interrupts_app. unfold interrupts at 3, is_interrupt. cbn. rewrite Hv, Hx.
        cbn. lia.
    + rewrite memcpy_nil by lia. cbn [checked]. rewrite then_pure. cbn [Z.ltb Z.compare].
      rewrite (then_val get_errno _ _ _ _ eq_refl), He.
      destruct (Z.eqb_spec x EINTR) as [|_]; [done|].
      apply reads_then_one. cbn [my_read_fill_post]. rewrite received_one, unread_empty by done.
      split_and!; [split; cbn; lia|done|]. right. right. split_and!; [done|done|].
      apply ended_by_one. split; [cbn; lia|by exists x].
Qed.

Definition my_read_post (fuel : nat) (fd : Z) (rl : rline) (evs : list event)
    (o : outcome (Z * Z * rline)) : Prop :=
  match o with
  | Val (rc, c, rl') =>
      rline_ok rl' /\
      ((rc = 1 /\ unread rl ++ received fd evs = c :: unread rl') \/
       (rc = 0 /\ unread rl ++ received fd evs = [] /\ unread rl' = [] /\ ended_by is_eof evs) \/
       (rc = -1 /\ unread rl ++ received fd evs = [] /\ unread rl' = [] /\
        ended_by is_error evs))
  | OutOfFuel => (fuel <= interrupts evs)%nat
  | _ => False
  end.

Lemma my_read_spec fuel rl fd s :
  rline_ok rl -> wp (my_read fuel rl fd) (reads_then fd s (my_read_post fuel fd rl)) s.
Proof.
  intros Hok. unfold my_read. destruct (Z.leb_spec (read_cnt rl) 0) as [Hc|Hc].
  - apply wp_then. eapply wp_mono; [by apply (my_read_fill_spec fuel rl fd s)|].
    intros o s1 (evs & Ht & Hd & Hf & Hp).
    destruct o as [[rc rl']| | | |]; cbn [andthen my_read_fill_post] in *; try done.
    + destruct Hp as (Hok' & Hr & Hcase). destruct_or! Hcase; destruct_and! Hcase; subst rc.
      * destruct (unread_next rl') as (c & E & Hu & Hok2); [done|done|].
        cbn. unfold wp. rewrite E. cbn [checked]. rewrite then_pure. cbn.
        exists evs. split_and!; [done..|]. cbn. rewrite (unread_empty rl) by done. split; [done|].
        left. split; [done|]. by rewrite Hr.
      * cbn. unfold wp. cbn. exists evs. split_and!; [done..|]. cbn. split; [done|].
        right. left. rewrite (unread_empty rl), Hr, !unread_empty by lia. by split_and!.
      * cbn. unfold wp. cbn. exists evs. split_and!; [done..|]. cbn. split; [done|].
        right. right. rewrite (unread_empty rl), Hr, !unread_empty by lia. by split_and!.
    + by exists evs.
  - apply wp_then, wp_pure. cbn [andthen]. unfold wp.
    destruct (unread_next rl) as (c & E & Hu & Hok2); [done|done|].
    rewrite E. cbn [checked]. rewrite then_pure. exists []. split_and!; [done|done|by constructor|].
    cbn. split; [done|]. left. by rewrite app_nil_r.
Qed.

(** The ways [readline_loop] can end, with the bytes [L] it took from the stream:
    a line, a line cut off at [left] characters, the end of the file, an error. *)
Inductive line_end (left : nat) (vptr : list Z) (ptr : nat) (n : Z) (L : list Z)
    (evs : list event) : Z -> list Z -> rline -> Prop :=
| line_newline L' vptr' rl' :
    L = L' ++ [10] -> 10 ∉ L' -> (length L <= left)%nat ->
    memcpy vptr ptr (L ++ [0]) = Some vptr' ->
    line_end left vptr ptr n L evs (n - 1 + Z.of_nat (length L)) vptr' rl'
| line_truncated vptr' rl' :
    10 ∉ L -> length L = left -> memcpy vptr ptr (L ++ [0]) = Some vptr' ->
    line_end left vptr ptr n L evs (n + Z.of_nat (length L)) vptr' rl'
| line_eof vptr' rl' :
    10 ∉ L -> (length L < left)%nat -> memcpy vptr ptr (L ++ [0]) = Some vptr' ->
    unread rl' = [] -> ended_by is_eof evs ->
    line_end left vptr ptr n L evs (n - 1 + Z.of_nat (length L)) vptr' rl'
| line_error vptr' rl' :
    10 ∉ L -> (length L < left)%nat -> unread rl' = [] -> ended_by is_error evs ->
    line_end left vptr ptr n L evs (-1) vptr' rl'.

Definition readline_post (fuel left : nat) (fd : Z) (rl : rline) (vptr : list Z) (ptr : nat)
    (n : Z) (evs : list event) (o : outcome (Z * list Z * rline)) : Prop :=
  match o with
  | Val (k, vptr', rl') =>
      rline_ok rl' /\
      exists L, L ++ unread rl' = unread rl ++ received fd evs /\
        line_end left vptr ptr n L evs k vptr' rl'
  | OutOfFuel => (fuel <= interrupts evs)%nat
  | _ => False
  end.

Lemma store_memcpy {A} (buf : list A) i v :
  (i < length buf)%nat -> exists buf', store buf i v = Some buf' /\ memcpy buf i [v] = Some buf'.
Proof.
  intros H. unfold store. rewrite decide_True by done. eexists. split; [done|].
  rewrite memcpy_ok by (cbn; lia). f_equal. cbn [length].
  by rewrite insert_take_drop, Nat.add_1_r.
Qed.

Lemma line_end_cons left vptr vptr1 ptr n c L evs evs1 k vptr' rl' :
  c <> 10 -> memcpy vptr ptr [c] = Some vptr1 -> (ptr + S left < length vptr)%nat ->
  line_end left vptr1 (S ptr) (n + 1) L evs k vptr' rl' ->
  line_end (S left) vptr ptr n (c :: L) (evs ++ evs1) k vptr' rl'.
Proof.
  intros Hc Hm Hl Hend.
  assert (Hmem : forall L', (length L' <= S left)%nat ->
            memcpy vptr1 (S ptr) L' = memcpy vptr ptr (c :: L')).
  { intros L' HL. rewrite <- Nat.add_1_r.
    apply (memcpy_app vptr ptr [c] L' vptr1 Hm). cbn. lia. }
  destruct Hend as [L' vptr' rl' -> ? ? E|vptr' rl' ? ? E|vptr' rl' ? ? E ? ?|].
  - rewrite Hmem in E by llia.
    replace (n + 1 - 1 + Z.of_nat (length (L' ++ [10])))
      with (n - 1 + Z.of_nat (length (c :: L' ++ [10]))) by (cbn; lia).
    apply (line_newline _ _ _ _ _ _ (c :: L')); [done|set_solver|cbn; lia|done].
  - rewrite Hmem in E by llia.
    replace (n + 1 + Z.of_nat (length L)) with (n + Z.of_nat (length (c :: L))) by (cbn; lia).
    apply line_truncated; [set_solver|cbn; lia|done].
  - rewrite Hmem in E by llia.
    replace (n + 1 - 1 + Z.of_nat (length L))
      with (n - 1 + Z.of_nat (length (c :: L))) by (cbn; lia).
    apply line_eof; [set_solver|cbn; lia|done|done|by apply ended_by_app].
  - apply line_error; [set_solver|cbn; lia|done|by apply ended_by_app].
Qed.

Lemma readline_loop_spec fuel left rl fd vptr ptr n s :
  rline_ok rl -> (ptr + left < length vptr)%nat ->
  wp (readline_loop fuel left rl fd vptr ptr n)
    (reads_then fd s (readline_post fuel left fd rl vptr ptr n)) s.
Proof.
  revert rl vptr ptr n s. induction left as [|left IH]; intros rl vptr ptr n s Hok Hl;
    cbn [readline_loop].
  - destruct (store_memcpy vptr ptr 0 ltac:(lia)) as (vptr1 & -> & E). exists [].
    split_and!; [done|done|by constructor|]. cbn. split; [done|]. exists [].
    split; [by rewrite app_nil_r|].
    replace n with (n + Z.of_nat (length (@nil Z))) at 2 by (cbn; lia).
    apply line_truncated; [set_solver|done|done].
  - apply wp_then. eapply wp_mono; [by apply (my_read_spec fuel rl fd s)|].
    intros o s1 (evs1 & Ht1 & Hd1 & Hf1 & Hp). destruct o as [[[rc c] rl1]| | | |];
      cbn [andthen my_read_post] in *; [|done..|by exists evs1].
    destruct Hp as (Hok1 & Hcase). destruct_or! Hcase; destruct_and! Hcase; subst rc; cbn [Z.eqb].
    + destruct (store_memcpy vptr ptr c ltac:(lia)) as (vptr1 & -> & E1).
      pose proof (memcpy_length _ _ _ _ E1) as Hl1.
      change (Pos.eqb 1 1) with true. cbv iota. cbn [checked]. rewrite then_pure.
      destruct (Z.eqb_spec c 10) as [->|Hc].
      * destruct (store_memcpy vptr1 (S ptr) 0 ltac:(lia)) as (vptr2 & -> & E2).
        exists evs1. split_and!; [done..|]. cbn. split; [done|]. exists [10].
        split; [done|].
        replace n with (n - 1 + Z.of_nat (length [10])) at 2 by (cbn; lia).
        apply (line_newline _ _ _ _ _ _ []); [done|set_solver|cbn; lia|].
        pose proof (memcpy_app vptr ptr [10] [0] vptr1 E1 ltac:(cbn; lia)) as E3.
        cbn [length app] in *. by rewrite <- E3, Nat.add_1_r.
      * specialize (IH rl1 vptr1 (S ptr) (n + 1) s1 Hok1 ltac:(lia)). unfold wp in *.
        destruct (readline_loop _ _ _ _ _ _ _ _) as [o s2].
        destruct IH as (evs & Ht & Hd & Hf & Hp). exists (evs ++ evs1).
        rewrite Ht, Hd, Ht1, <- app_assoc. split_and!; [done..|by apply Forall_app|].
        unfold readline_post in *. destruct o as [[[k vptr'] rl']| | | |]; [|done..|].
        -- destruct Hp as (? & L & HL & Hend). split; [done|]. exists (c :: L). split.
           ++ unfold received. rewrite collect_app. fold (received fd evs) (received fd evs1).
              rewrite app_assoc, H0. cbn. by rewrite HL.
           ++ by eapply line_end_cons.
        -- rewrite interrupts_app. lia.
    + destruct (store_memcpy vptr ptr 0 ltac:(lia)) as (vptr1 & -> & E1).
      exists evs1. split_and!; [done..|]. cbn. split; [done|]. exists [].
      split; [cbn; congruence|].
      replace (n - 1) with (n - 1 + Z.of_nat (length (@nil Z))) by (cbn; lia).
      apply line_eof; [set_solver|cbn; lia|done..].
    + exists evs1. split_and!; [done..|]. cbn. split; [done|]. exists [].
      split; [cbn; congruence|]. apply line_error; [set_solver|cbn; lia|done..].
Qed.
End Readline.
