(* ===== verification/StreamClaims.v ===== *)
(** Correctness of the stream functions, in the form their callers rely on. *)

From S2P Require Import Prelude CText Sys Traces Error Wrappers RobustIO StreamFacts.

(** * An environment for concrete runs

    Descriptor 3 delivers [input] in pieces of at most [chunk] bytes and then the end of the
    file; writes take at most [chunk] bytes; the first call is interrupted by a signal. *)
Definition stream_os (input : list Z) (chunk : nat) : OS := fun h c =>
  match h, c with
  | [], (sys_read _ _ | sys_write _ _) => failed (-1) EINTR
  | _, sys_read fd n =>
      data (take (Nat.min (Z.to_nat n) chunk) (drop (length (received fd h)) input))
  | _, sys_write _ d => ok (Z.of_nat (Nat.min chunk (length d)))
  | _, _ => ok 0
  end.

Lemma stream_os_read input chunk : bytes_ok input -> @ReadLaw (stream_os input chunk).
Proof.
  intros Hb h fd n Hn. unfold os_answer, stream_os.
  destruct h as [|e h]; [split; [by constructor|]; left; by repeat split; eexists|].
  split; [by apply Forall_take, Forall_drop|]. right.
  split; [done|]. cbn [rv data]. rewrite length_take. lia.
Qed.

Lemma stream_os_write input chunk : @WriteLaw (stream_os input chunk).
Proof.
  intros h fd d. cbv zeta. unfold os_answer, stream_os.
  destruct h as [|e h]; [left; by repeat split; eexists|]. right. cbn [rv ok]. lia.
Qed.

Section Claims.
Context {os : OS} {SE : Strerror} {RDL : ReadLaw} {WL : WriteLaw}.

(** [readn] reads exactly [n] bytes unless the file ends or an error occurs.  For every
    environment that keeps the contract of [read], with a buffer of at least [n] bytes,
    [readn] never accesses memory outside the buffer and
    - when it returns [k >= 0], the first [k] bytes of the buffer are the bytes delivered by
      its reads, in order, the rest of the buffer is unchanged, and [k < n] only if the last
      read met the end of the file;
    - when it returns -1, its last read failed with an error other than [EINTR], which is in
      [errno];
    - it needs fuel only for [n] reads and the interrupted ones: every interrupted read is
      retried. *)
Theorem readn_correct fuel fd vptr n s :
  0 <= n <= Z.of_nat (length vptr) ->
  let '(o, s') := readn fuel fd vptr n s in
  exists evs, trace s' = evs ++ trace s /\ Forall (on_read fd) evs /\
    let d := received fd evs in
    match o with
    | Val (k, vptr') =>
        (0 <= k <= n /\ k = Z.of_nat (length d) /\ vptr' = d ++ drop (Z.to_nat k) vptr /\
         (k < n -> ended_by is_eof evs)) \/
        (k = -1 /\ ended_by is_error evs /\ errno s' <> EINTR)
    | OutOfFuel => length evs = fuel /\ Z.of_nat fuel < n + Z.of_nat (interrupts evs)
    | _ => False
    end.
Proof.
  intros Hn. pose proof (readn_loop_spec fuel fd n vptr 0 n s ltac:(lia) ltac:(lia)) as H.
  unfold wp, readn in *. destruct (readn_loop _ _ _ _ _ _ _) as [o s'].
  destruct H as (evs & Ht & _ & Hall & Hm). exists evs. split_and!; [done..|].
  destruct o as [[k vptr']| | | |]; try done.
  destruct Hm as (Hle & Hm & [[-> Hk]|(-> & _ & ? & ?)]); [left|by right].
  rewrite memcpy_ok in Hm by lia. injection Hm as <-. cbn [take app].
  split_and!; [lia|lia|lia|by repeat f_equal; lia|]. intros. apply Hk. lia.
Qed.

(** C6: [writen] writes all of the data or reports an error.  For every environment that keeps
    the contract of [write], when it returns [n] the bytes its writes took are exactly the
    [n] bytes, each once and in order, whatever the pieces; when it returns -1 they are a
    proper prefix and the last write failed for another reason than [EINTR] or took
    nothing; fuel for [n] writes and the interrupted ones is enough. *)
Theorem writen_correct fuel fd vptr n s :
  0 <= n <= Z.of_nat (length vptr) ->
  let '(o, s') := writen fuel fd vptr n s in
  exists evs, trace s' = evs ++ trace s /\ Forall (on_write fd) evs /\
    match o with
    | Val k =>
        (k = n /\ sent fd evs = take (Z.to_nat n) vptr) \/
        (k = -1 /\ exists m, 0 <= m < n /\ sent fd evs = take (Z.to_nat m) vptr /\
           ended_by (fun e => is_error e \/ is_eof e) evs)
    | OutOfFuel => length evs = fuel /\ Z.of_nat fuel < n + Z.of_nat (interrupts evs)
    | _ => False
    end.
Proof.
  intros Hn. pose proof (writen_loop_spec fuel fd n vptr 0 n s ltac:(lia) ltac:(lia)) as H.
  unfold wp, writen in *. destruct (writen_loop _ _ _ _ _ _ _) as [o s'].
  destruct H as (evs & Ht & _ & Hall & Hm). exists evs. split_and!; [done..|].
  unfold slice in Hm. rewrite drop_0 in Hm. destruct o as [k| | | |]; try done.
  - destruct Hm as [?|(-> & m & Hs & Hm & He)]; [by left|]. right. split; [done|].
    exists m. split_and!; done || lia.
  - by destruct Hm as (? & ? & _).
Qed.

(** C5: [readline] hands out the stream line by line without losing or repeating a byte.  With
    static variables in a well-formed state, a buffer of [maxlen] bytes and an environment
    that keeps the contract of [read], [readline] stays inside both buffers, leaves the
    static variables well-formed, and the bytes [L] it takes followed by what is left unread
    are what was unread followed by what its reads delivered.  [L] is a line with its newline
    (returned count: its length), [maxlen - 1] characters of a longer line, what was left
    before the end of the file (returned count: its length), or the data lost to an error
    (-1); unless there was an error [L] and a NUL are at the start of the buffer.  It runs out
    of fuel only when some refill was interrupted [fuel] times. *)
Theorem readline_correct fuel rl fd vptr maxlen s :
  rline_ok rl -> 1 <= maxlen <= Z.of_nat (length vptr) ->
  let '(o, s') := readline fuel rl fd vptr maxlen s in
  exists evs, trace s' = evs ++ trace s /\ Forall (on_read fd) evs /\
    match o with
    | Val (k, vptr', rl') =>
        rline_ok rl' /\ exists L, L ++ unread rl' = unread rl ++ received fd evs /\
        (k <> -1 -> vptr' = L ++ [0] ++ drop (S (length L)) vptr) /\
        ((exists L', L = L' ++ [10] /\ (10 ∉ L') /\ k = Z.of_nat (length L) /\ k < maxlen) \/
         ((10 ∉ L) /\ Z.of_nat (length L) = maxlen - 1 /\ k = maxlen) \/
         ((10 ∉ L) /\ Z.of_nat (length L) < maxlen - 1 /\ k = Z.of_nat (length L) /\
          unread rl' = [] /\ ended_by is_eof evs) \/
         ((10 ∉ L) /\ k = -1 /\ unread rl' = [] /\ ended_by is_error evs))
    | OutOfFuel => (fuel <= interrupts evs)%nat
    | _ => False
    end.
Proof.
  intros Hok Hm.
  pose proof (readline_loop_spec fuel (Z.to_nat (maxlen - 1)) rl fd vptr 0 1 s Hok ltac:(lia)) as H.
  unfold wp, readline in *. destruct (readline_loop _ _ _ _ _ _ _ _) as [o s'].
  destruct H as (evs & Ht & _ & Hall & Hp). exists evs. split_and!; [done..|].
  destruct o as [[[k vptr'] rl']| | | |]; try done.
  destruct Hp as (Hok' & L & HL & Hend). split; [done|]. exists L. split; [done|].
  assert (Hmem : forall v, memcpy vptr 0 (L ++ [0]) = Some v ->
            v = L ++ [0] ++ drop (S (length L)) vptr).
  { intros v. unfold memcpy. case_decide; [|done]. intros [= <-]. cbn [take app].
    rewrite <- app_assoc, length_app. cbn. by rewrite Nat.add_1_r. }
  destruct Hend as [L' v rl' EL ? ? E|v rl' ? ? E|v rl' ? ? E ? ?|v rl' ? ? ? ?].
  - split; [intros _; by apply Hmem|]. left. exists L'. split_and!; try done; lia.
  - split; [intros _; by apply Hmem|]. right. left. split_and!; try done; lia.
  - split; [intros _; by apply Hmem|]. right. right. left. split_and!; try done; lia.
  - split; [done|]. right. right. right. by split_and!.
Qed.

(** C7: the TCP echo server echoes.  In a foreground process, whatever the environment does
    within the contracts of [read] and [write], the bytes [str_echo] has sent are at every
    end a prefix of the bytes it has received; when it returns, the client has closed the
    connection and everything received was sent back, each byte once and in order; when it
    ends the process it is with status 1; it runs out of fuel only after [fuel] calls, or
    when one buffer's writes were interrupted more than [wfuel - MAXLINE] times. *)
Theorem str_echo_echoes wfuel fuel sockfd s :
  daemon_proc s = 0 ->
  let '(o, s') := str_echo wfuel fuel sockfd s in
  exists evs, trace s' = evs ++ trace s /\
    sent sockfd evs `prefix_of` received sockfd evs /\
    match o with
    | Val _ => sent sockfd evs = received sockfd evs /\ ended_by is_eof evs
    | Exited c => c = 1
    | OutOfFuel =>
        (fuel <= length evs)%nat \/ Z.of_nat wfuel < MAXLINE + Z.of_nat (interrupts evs)
    | _ => False
    end.
Proof.
  intros Hd. pose proof (str_echo_spec wfuel fuel sockfd s Hd) as H. unfold wp in H.
  destruct (str_echo _ _ _ _) as [o s']. destruct H as (evs & Ht & Hp). exists evs.
  split; [done|]. destruct o; try done.
  - destruct Hp as [-> ?]. by split_and!.
  - by destruct Hp.
Qed.

End Claims.

#[local] Existing Instance numeric_strerror.

Definition greeting : list Z := c["hello, world"] ++ [10] ++ c["bye"].

Lemma greeting_ok : bytes_ok greeting.
Proof. by apply bytes_ok_bool. Qed.

(** Ten bytes of sixteen, five at a time, after an interrupted call: three reads. *)
Lemma readn_correct_witness :
  let os := stream_os greeting 5 in
  (readn 3 3 (replicate 12 0) 10 init).1 = Val (10, take 10 greeting ++ [0; 0]) /\
  exists evs, trace (readn 3 3 (replicate 12 0) 10 init).2 = evs ++ [] /\
    Forall (on_read 3) evs.
Proof.
  intros os. pose proof (stream_os_read greeting 5 greeting_ok) as RDL.
  pose proof (readn_correct (os := os) 3 3 (replicate 12 0) 10 init ltac:(cbn; lia)) as H.
  split; [vm_compute; reflexivity|].
  destruct (readn 3 3 (replicate 12 0) 10 init) as [o s'].
  destruct H as (evs & Ht & Hf & _). exists evs. split; [exact Ht|exact Hf].
Defined.

Lemma writen_correct_witness :
  let os := stream_os [] 4 in
  (writen 4 3 greeting 10 init).1 = Val 10 /\
  exists evs, trace (writen 4 3 greeting 10 init).2 = evs ++ [] /\ Forall (on_write 3) evs.
Proof.
  intros os. pose proof (stream_os_write [] 4) as WL.
  pose proof (writen_correct (os := os) 4 3 greeting 10 init ltac:(cbn; lia)) as H.
  split; [vm_compute; reflexivity|].
  destruct (writen 4 3 greeting 10 init) as [o s'].
  destruct H as (evs & Ht & Hf & _). exists evs. split; [exact Ht|exact Hf].
Defined.

Lemma readline_correct_witness :
  let os := stream_os greeting 5 in
  (exists v rl', (readline 3 rline_init 3 (replicate 20 0) 20 init).1 = Val (13, v, rl') /\
     cstring_at v 0 = c["hello, world"] ++ [10]) /\
  exists evs, trace (readline 3 rline_init 3 (replicate 20 0) 20 init).2 = evs ++ [] /\
    Forall (on_read 3) evs.
Proof.
  intros os. pose proof (stream_os_read greeting 5 greeting_ok) as RDL.
  pose proof (readline_correct (os := os) 3 rline_init 3 (replicate 20 0) 20 init rline_init_ok
                ltac:(cbn; lia)) as H.
  split; [eexists _, _; vm_compute; split; reflexivity|].
  destruct (readline 3 rline_init 3 (replicate 20 0) 20 init) as [o s'].
  destruct H as (evs & Ht & Hf & _). exists evs. split; [exact Ht|exact Hf].
Defined.

Lemma str_echo_echoes_witness :
  let os := stream_os greeting 5 in
  (str_echo 10 10 3 init).1 = Val tt /\
  exists evs, trace (str_echo 10 10 3 init).2 = evs ++ [] /\
    sent 3 evs `prefix_of` received 3 evs.
Proof.
  intros os. pose proof (stream_os_read greeting 5 greeting_ok) as RDL.
  pose proof (stream_os_write greeting 5) as WL.
  pose proof (str_echo_echoes (os := os) 10 10 3 init eq_refl) as H.
  split; [vm_compute; reflexivity|].
  destruct (str_echo 10 10 3 init) as [o s'].
  destruct H as (evs & Ht & Hf & _). exists evs. split; [exact Ht|exact Hf].
Defined.

(** A line that does not fit is cut after [maxlen - 1] characters, and the count returned is
    [maxlen]: one more than the number of characters stored, unlike the count for a complete
    line or the rest before the end of the file. *)
Lemma readline_truncated_count :
  let os := stream_os greeting 5 in
  exists v rl', (readline 3 rline_init 3 (replicate 20 0) 5 init).1 = Val (5, v, rl') /\
    cstring_at v 0 = c["hell"].
Proof. eexists _, _. vm_compute. split; reflexivity. Qed.
