(* ===== verification/Servers.v ===== *)
(** Reasoning about server loops, and the macros of [<sys/select.h>].

    A server runs until it is killed, so what is proved of it is an invariant of its loop.
    [ends I Y Q] is the postcondition of a part of such a program: it goes on with a value
    that satisfies [Q], or it ends the process with status 1 after an error report and a
    history that satisfies [I], or it runs out of fuel for the reason [Y]; it never has
    undefined behaviour. *)

From S2P Require Import Prelude CText Sys Traces Error Wrappers RobustIO StreamFacts.

(** * Descriptor sets

    The macros are undefined for a descriptor outside [0 .. FD_SETSIZE - 1]. *)

Definition FD_SETSIZE : Z := 1024.

Definition fd_in_range (fd : Z) : bool := (0 <=? fd) && (fd <? FD_SETSIZE).

Definition FD_SET (fd : Z) (set : list Z) : option (list Z) :=
  if fd_in_range fd then Some (if decide (fd ∈ set) then set else set ++ [fd]) else None.

Definition FD_CLR (fd : Z) (set : list Z) : option (list Z) :=
  if fd_in_range fd then Some (filter (fun x => x <> fd) set) else None.

Definition FD_ISSET (fd : Z) (set : list Z) : option bool :=
  if fd_in_range fd then Some (bool_decide (fd ∈ set)) else None.

Lemma FD_SET_spec fd set :
  0 <= fd < FD_SETSIZE ->
  exists set', FD_SET fd set = Some set' /\ forall x, x ∈ set' <-> x = fd \/ x ∈ set.
Proof.
  intros H. unfold FD_SET, fd_in_range.
  destruct (Z.leb_spec 0 fd), (Z.ltb_spec fd FD_SETSIZE); try lia. cbn [andb].
  eexists. split; [done|]. intros x.
  case_decide; rewrite ?elem_of_app, ?list_elem_of_singleton; [|tauto].
  split; [by right|by intros [->|]].
Qed.

Lemma FD_CLR_spec fd set :
  0 <= fd < FD_SETSIZE ->
  exists set', FD_CLR fd set = Some set' /\ forall x, x ∈ set' <-> x <> fd /\ x ∈ set.
Proof.
  intros H. unfold FD_CLR, fd_in_range.
  destruct (Z.leb_spec 0 fd), (Z.ltb_spec fd FD_SETSIZE); try lia. cbn [andb].
  eexists. split; [done|]. intros x. by rewrite list_elem_of_filter.
Qed.

Lemma FD_ISSET_spec fd set :
  0 <= fd < FD_SETSIZE -> FD_ISSET fd set = Some (bool_decide (fd ∈ set)).
Proof.
  intros H. unfold FD_ISSET, fd_in_range.
  by destruct (Z.leb_spec 0 fd), (Z.ltb_spec fd FD_SETSIZE); try lia.
Qed.

(** Removing what is not there. *)
Lemma filter_absent (x : Z) (l : list Z) : x ∉ l -> filter (fun y => y <> x) l = l.
Proof.
  induction l as [|y l IH]; [done|]. rewrite not_elem_of_cons. intros [Hy Hl].
  rewrite filter_cons_True by congruence. by rewrite IH.
Qed.

(** * The descriptors a process has open

    Those that [socket] and [accept] have returned and that have not been closed since. *)

Definition opens (c : syscall) : bool :=
  match c with sys_socket _ _ _ | sys_accept _ _ => true | _ => false end.

Fixpoint live (h : list event) : list Z :=
  match h with
  | [] => []
  | (c, r) :: h' =>
      match c with
      | sys_close fd => filter (fun x => x <> fd) (live h')
      | _ => if opens c && (0 <=? rv r) then rv r :: live h' else live h'
      end
  end.

(** A new descriptor is not one that is open, and with the limit on open files at most
    [FD_SETSIZE] it fits in a descriptor set. *)
Class DescriptorLaw `{OS} : Prop :=
  descriptor_law : forall h c, opens c = true -> 0 <= rv (os_answer h c) ->
    rv (os_answer h c) < FD_SETSIZE /\ (rv (os_answer h c) ∉ live h).

(** [select] leaves in each set those of its descriptors that are ready, and returns their
    number. *)
Class SelectLaw `{OS} : Prop :=
  select_law : forall h nfds rs ws t,
    let r := os_answer h (sys_select nfds rs ws [] t) in
    0 <= rv r ->
    NoDup (rset_of r) /\ rset_of r ⊆ rs /\ NoDup (wset_of r) /\ wset_of r ⊆ ws /\
    rv r = Z.of_nat (length (rset_of r)) + Z.of_nat (length (wset_of r)).

(** * Calls that move no data and open or close nothing *)

Definition moves_nothing (e : event) : bool :=
  match e.1 with
  | sys_read _ _ | sys_write _ _ | sys_close _ => false
  | c => negb (opens c) || (rv e.2 <? 0)
  end.

Lemma output_moves_nothing e : output e -> moves_nothing e = true.
Proof. by destruct e as [[] r]. Qed.

Abbreviation inert evs := (Forall (fun e => moves_nothing e = true) evs).

Lemma received_inert fd evs : inert evs -> received fd evs = [].
Proof. intros H. apply collect_nil_of. eapply Forall_impl; [exact H|]. by intros [[] r]. Qed.

Lemma sent_inert fd evs : inert evs -> sent fd evs = [].
Proof. intros H. apply collect_nil_of. eapply Forall_impl; [exact H|]. by intros [[] r]. Qed.

Lemma live_inert evs h : inert evs -> live (evs ++ h) = live h.
Proof.
  induction 1 as [|[c r] evs' He _ IH]; [done|]. cbn [app live].
  destruct c; try first [discriminate He | exact IH];
    cbn in He |- *; by destruct (Z.leb_spec 0 (rv r)), (Z.ltb_spec (rv r) 0); try lia.
Qed.

Lemma output_inert evs : Forall output evs -> inert evs.
Proof. intros H. eapply Forall_impl; [exact H|apply output_moves_nothing]. Qed.

(** * Data echoed *)

Definition echoed (h : list event) : Prop := forall fd, sent fd h = received fd h.
Definition echoing (h : list event) : Prop := forall fd, sent fd h `prefix_of` received fd h.

Lemma echoed_echoing h : echoed h -> echoing h.
Proof. intros H fd. by rewrite H. Qed.

Lemma sent_app fd a b : sent fd (a ++ b) = sent fd b ++ sent fd a.
Proof. apply collect_app. Qed.
Lemma received_app fd a b : received fd (a ++ b) = received fd b ++ received fd a.
Proof. apply collect_app. Qed.

Lemma echoed_inert evs h : inert evs -> echoed h -> echoed (evs ++ h).
Proof.
  intros He H fd. rewrite sent_app, received_app, (sent_inert fd evs), (received_inert fd evs) by done.
  by rewrite H.
Qed.

Lemma echoing_inert evs h :
  inert evs -> echoing h -> echoing (evs ++ h).
Proof.
  intros He H fd. rewrite sent_app, received_app, (sent_inert fd evs), (received_inert fd evs) by done.
  by rewrite !app_nil_r.
Qed.

Lemma live_writing fd evs h : Forall (writing fd) evs -> live (evs ++ h) = live h.
Proof.
  induction 1 as [|[c x] l [[d Hd]|Hx] _ IH]; [done|..]; cbn [app live].
  - cbn in Hd. by subst c.
  - unfold output in Hx. destruct c; first [discriminate Hx | exact IH].
Qed.

(** One chunk read from [fd] and, as far as it went, written back. *)
Section Chunk.
Context (h evs : list event) (fd n : Z) (r : sysret).
Context (Hh : echoed h) (Hw : Forall (writing fd) evs).
Let h' := evs ++ (sys_read fd n, r) :: h.

Lemma received_chunk fd' : received fd' h' = received fd' h ++ (if decide (fd' = fd) then rbytes r else []).
Proof using Hw.
  unfold h'. rewrite received_app, (received_of_writing fd fd' evs Hw), app_nil_r.
  change (_ :: h) with ([(sys_read fd n, r)] ++ h). rewrite received_app. f_equal.
  unfold received. rewrite collect_one. cbn.
  by destruct (Z.eqb_spec fd fd'), (decide (fd' = fd)); subst.
Qed.

Lemma sent_chunk fd' : sent fd' h' = sent fd' h ++ (if decide (fd' = fd) then sent fd evs else []).
Proof using Hw.
  unfold h'. rewrite sent_app. change (_ :: h) with ([(sys_read fd n, r)] ++ h).
  rewrite sent_app, app_nil_r. f_equal.
  case_decide as E; [by rewrite E|by apply (sent_of_writing fd)].
Qed.

Lemma echoing_chunk : sent fd evs `prefix_of` rbytes r -> echoing h'.
Proof using Hh Hw.
  intros Hp fd'. rewrite sent_chunk, received_chunk, Hh. apply prefix_app. by case_decide.
Qed.

Lemma echoed_chunk : sent fd evs = rbytes r -> echoed h'.
Proof using Hh Hw. intros Hp fd'. rewrite sent_chunk, received_chunk, Hh, Hp. done. Qed.

Lemma live_chunk : live h' = live h.
Proof using Hw. unfold h'. by rewrite (live_writing fd). Qed.
End Chunk.

(** * Accepting connections *)

Definition failed_accept (e : event) : bool :=
  match e.1 with sys_accept _ _ => rv e.2 <? 0 | _ => false end.

(** The number of connections that were aborted before they could be accepted. *)
Definition aborted (h : list event) : nat := length (List.filter failed_accept h).

(** * Postconditions of parts of a server *)

(** A literal message: no conversion, no NUL. *)
Definition plain (msg : cstring) : bool :=
  forallb (fun c => negb (c =? 37) && negb (c =? 0)) msg.

Definition ends (I Y : list event -> Prop) {A} (Q : A -> st -> Prop) (o : outcome A) (s : st)
    : Prop :=
  match o with
  | Val a => Q a s
  | Exited c => c = 1 /\ I (trace s)
  | OutOfFuel => I (trace s) /\ Y (trace s)
  | Aborted | Undefined => False
  end.

Section Ends.
Context {os : OS} {SE : Strerror}.
Context (I Y : list event -> Prop).
Hypothesis I_output : forall evs h, Forall output evs -> I h -> I (evs ++ h).

Lemma ends_then {A B} (m : M A) (k : A -> M B) R Q s :
  wp m (ends I Y R) s -> (forall a s', R a s' -> wp (k a) (ends I Y Q) s') ->
  wp (mthen m k) (ends I Y Q) s.
Proof.
  intros Hm Hk. apply wp_then. eapply wp_mono; [exact Hm|]. intros o s'. destruct o; cbn; auto.
Qed.

Lemma ends_mono {A} (m : M A) (Q Q' : A -> st -> Prop) s :
  wp m (ends I Y Q) s -> (forall a s', Q a s' -> Q' a s') -> wp m (ends I Y Q') s.
Proof. intros Hm HQ. eapply wp_mono; [exact Hm|]. intros o s'. destruct o; cbn; auto. Qed.

Lemma ends_pure {A} (a : A) (Q : A -> st -> Prop) s : Q a s -> wp (mpure a) (ends I Y Q) s.
Proof. done. Qed.

Lemma wp_checked {A B} (x : option A) a (k : A -> M B) Q s :
  x = Some a -> wp (k a) Q s -> wp (mthen (checked x) k) Q s.
Proof. by intros ->. Qed.

Lemma ends_err_sys {A} msg (Q : A -> st -> Prop) s :
  plain msg = true -> daemon_proc s = 0 -> I (trace s) -> wp (err_sys msg []) (ends I Y Q) s.
Proof.
  intros [Hf Hn]%plain_of_bool Hd HI. unfold wp.
  rewrite (err_sys_exits _ _ msg) by (done || by apply vformat_plain).
  split; [done|]. destruct (reported_history (report_line true msg (errno s)) s) as (evs & -> & ? & _).
  by apply I_output.
Qed.

Lemma ends_err_quit {A} msg (Q : A -> st -> Prop) s :
  plain msg = true -> daemon_proc s = 0 -> I (trace s) -> wp (err_quit msg []) (ends I Y Q) s.
Proof.
  intros [Hf Hn]%plain_of_bool Hd HI. unfold wp.
  rewrite (err_quit_exits _ _ msg) by (done || by apply vformat_plain).
  split; [done|]. destruct (reported_history (report_line false msg (errno s)) s) as (evs & -> & ? & _).
  by apply I_output.
Qed.

(** A message with one integer. *)
Lemma vformat_int pre post n :
  plain pre = true -> plain post = true ->
  vformat (pre ++ c["%d"] ++ post) [AInt n] = Some (pre ++ print_d n ++ post) /\
  nul_free (pre ++ print_d n ++ post).
Proof.
  intros [Hf Hn]%plain_of_bool [Hf' Hn']%plain_of_bool. split.
  - rewrite vformat_app_plain by done.
    change (vformat (c["%d"] ++ post) [AInt n]) with (app (print_d n) <$> vformat post []).
    by rewrite vformat_plain.
  - rewrite !Forall_app. split_and!; try done.
    unfold print_d. destruct (n <? 0); [constructor; [done|]|]; by apply digit_char_nonzero.
Qed.

Lemma ends_err_quit_text {A} fmt ap text (Q : A -> st -> Prop) s :
  vformat fmt ap = Some text -> nul_free text -> daemon_proc s = 0 -> I (trace s) -> wp (err_quit fmt ap) (ends I Y Q) s.
Proof.
  intros Hv Hn Hd HI. unfold wp. rewrite (err_quit_exits _ _ _ _ Hv Hn Hd). split; [done|].
  destruct (reported_history (report_line false text (errno s)) s) as (evs & -> & ? & _).
  by apply I_output.
Qed.

Lemma ends_err_quit_int {A} pre post n (Q : A -> st -> Prop) s :
  plain pre = true -> plain post = true -> daemon_proc s = 0 -> I (trace s) ->
  wp (err_quit (pre ++ c["%d"] ++ post) [AInt n]) (ends I Y Q) s.
Proof.
  intros Hp Hq Hd HI. destruct (vformat_int pre post n Hp Hq) as [Hv Hn]. by eapply ends_err_quit_text.
Qed.

Lemma ends_call c bad msg (Q : sysret -> st -> Prop) s :
  plain msg = true -> daemon_proc s = 0 ->
  let r := answer c s in let s1 := after c r s in
  I (trace s1) -> (bad (rv r) = false -> Q r s1) -> wp (call c bad msg) (ends I Y Q) s.
Proof.
  cbv zeta. intros Hp Hd HI HQ. unfold call. apply wp_then, wp_sys. cbn [andthen].
  destruct (bad _) eqn:E; [by apply ends_err_sys|by apply HQ].
Qed.

End Ends.

(** No condition on the history. *)
Definition anything (h : list event) : Prop := True.
Lemma anything_output evs h : Forall output evs -> anything h -> anything (evs ++ h).
Proof. done. Qed.

(** * A concrete environment

    All descriptors are always ready; a new descriptor is the smallest one from 3 on that is
    not open; each descriptor delivers a greeting in pieces of two bytes and then its end;
    writes to the descriptors in [stalled] would block. *)

Definition next_fd (h : list event) : Z :=
  default (-1) (head (filter (fun fd => fd ∉ live h) (seqZ 3 1021))).

Definition busy_os (stalled : Z -> bool) : OS := fun h c =>
  match c with
  | sys_socket _ _ _ | sys_accept _ _ => ok (next_fd h)
  | sys_select _ rs ws _ _ =>
      let rs := remove_dups rs in let ws := remove_dups ws in
      SR (Z.of_nat (length rs) + Z.of_nat (length ws)) None ws rs None
  | sys_read fd n => data (take (Nat.min (Z.to_nat n) 2) (drop (length (received fd h)) c["hello"]))
  | sys_write fd d => if stalled fd then failed (-1) EWOULDBLOCK else ok (Z.of_nat (length d))
  | _ => ok 0
  end.

Lemma busy_os_read stalled : @ReadLaw (busy_os stalled).
Proof.
  intros h fd n Hn. split; [apply Forall_take, Forall_drop, bytes_ok_bool; reflexivity|]. right.
  split; [done|]. cbn [rv data os_answer busy_os]. rewrite length_take. lia.
Qed.

Lemma busy_os_write stalled : @WriteLaw (busy_os stalled).
Proof.
  intros h fd d. cbv zeta. unfold os_answer, busy_os.
  destruct (stalled fd); [left; by repeat split; eexists|right; cbn; lia].
Qed.

Lemma busy_os_descriptor stalled : @DescriptorLaw (busy_os stalled).
Proof.
  assert (H : forall h, 0 <= next_fd h -> next_fd h < FD_SETSIZE /\ (next_fd h ∉ live h)).
  { intros h. unfold next_fd. destruct (filter _ _) as [|fd l] eqn:E; [cbn; lia|]. intros _.
    assert (Hin : fd ∈ filter (fun fd => fd ∉ live h) (seqZ 3 1021)) by (rewrite E; by constructor).
    apply list_elem_of_filter in Hin as [? Hin%elem_of_seqZ]. split; [|done].
    cbn. unfold FD_SETSIZE. lia. }
  intros h c Hc. destruct c; try discriminate Hc; apply H.
Qed.

Lemma busy_os_select stalled : @SelectLaw (busy_os stalled).
Proof.
  intros h n rs ws t. cbv zeta. intros _. cbn. unfold rset_of, wset_of. cbn.
  split_and!; try apply NoDup_remove_dups; try done; intros x; apply elem_of_remove_dups.
Qed.
