(* ===== verification/ClientTable.v ===== *)
(** The table of clients that a server with [select] keeps: an array of descriptors in which a
    negative entry is free, the set for [select], the largest index in use and the largest
    descriptor.  [base] are the descriptors of the server itself. *)

From S2P Require Import Prelude Sys Servers.

(** * The table of clients *)

Definition is_client (c : Z) : Prop := 0 <= c.
#[export] Instance is_client_dec c : Decision (is_client c) := decide (0 <= c).

Definition clients (table : list Z) : list Z := filter is_client table.

Lemma clients_split table i c :
  table !! i = Some c ->
  clients table = clients (take i table) ++ (if decide (is_client c) then [c] else []) ++
                  clients (drop (S i) table).
Proof.
  intros H. rewrite <- (take_drop_middle table i c H) at 1. unfold clients.
  rewrite filter_app, filter_cons. by case_decide.
Qed.

Lemma clients_insert table i v :
  (i < length table)%nat ->
  clients (<[i := v]> table) = clients (take i table) ++ (if decide (is_client v) then [v] else []) ++
                  clients (drop (S i) table).
Proof.
  intros H. rewrite (clients_split _ i v) by (apply list_lookup_insert_eq; lia).
  rewrite take_insert_ge, drop_insert_lt by lia. done.
Qed.

(** A free entry is taken: one more client. *)
Lemma clients_add table i c v :
  table !! i = Some c -> c < 0 -> 0 <= v -> clients (<[i := v]> table) ≡ₚ v :: clients table.
Proof.
  intros H Hc Hv. rewrite clients_insert by (apply lookup_lt_is_Some; eauto).
  rewrite (clients_split table i c H).
  rewrite (decide_True (P := is_client v)) by done.
  rewrite (decide_False (P := is_client c)) by (unfold is_client; lia).
  cbn [app]. by rewrite Permutation_middle.
Qed.

(** An entry is freed: one client less. *)
Lemma clients_remove table i c :
  table !! i = Some c -> 0 <= c -> clients table ≡ₚ c :: clients (<[i := -1]> table).
Proof.
  intros H Hc. rewrite clients_insert by (apply lookup_lt_is_Some; eauto).
  rewrite (clients_split table i c H).
  rewrite (decide_True (P := is_client c)) by done.
  rewrite (decide_False (P := is_client (-1))) by (unfold is_client; lia).
  cbn [app]. by rewrite Permutation_middle.
Qed.

Lemma clients_lookup table i c : table !! i = Some c -> 0 <= c -> c ∈ clients table.
Proof. intros H Hc. apply list_elem_of_filter. split; [done|by eapply list_elem_of_lookup_2]. Qed.

(** Visiting the indices below [n] is visiting the first [n] entries. *)
Lemma omap_lookup_seq {A} (l : list A) n : (n <= length l)%nat -> omap (fun i => l !! i) (seq 0 n) = take n l.
Proof.
  intros Hn. induction n as [|n IH]; [done|]. rewrite seq_S, omap_app, IH by lia.
  destruct (lookup_lt_is_Some_2 l n ltac:(lia)) as [x Hx].
  rewrite (take_S_r _ _ _ Hx). f_equal. cbn. by rewrite Hx.
Qed.

(** * The invariant *)

Record table_ok (base table allset : list Z) (maxi maxfd : Z) : Prop := {
  ok_length : length table = Z.to_nat FD_SETSIZE;
  ok_range : Forall (fun c => c < FD_SETSIZE) table;
  ok_base : Forall (fun c => 0 <= c < FD_SETSIZE) base;
  ok_distinct : NoDup (base ++ clients table);
  ok_allset : forall fd, fd ∈ allset <-> fd ∈ base ++ clients table;
  ok_maxi : -1 <= maxi < FD_SETSIZE;
  ok_indices : forall i c, table !! i = Some c -> 0 <= c -> Z.of_nat i <= maxi;
  ok_maxfd : forall fd, fd ∈ allset -> fd <= maxfd;
}.

Section Table.
Context (base table allset : list Z) (maxi maxfd : Z).
Hypothesis Hok : table_ok base table allset maxi maxfd.

(** A new client at a free entry. *)
Lemma table_add i c fd allset' :
  table !! i = Some c -> c < 0 -> 0 <= fd < FD_SETSIZE -> fd ∉ base ++ clients table ->
  (forall x, x ∈ allset' <-> x = fd \/ x ∈ allset) ->
  table_ok base (<[i := fd]> table) allset'
    (if Z.of_nat i >? maxi then Z.of_nat i else maxi) (if fd >? maxfd then fd else maxfd).
Proof using Hok.
  destruct Hok. intros Hl Hc0 Hc Hnew Hset.
  pose proof (lookup_lt_Some _ _ _ Hl) as Hlt.
  pose proof (clients_add _ _ _ fd Hl Hc0 ltac:(lia)) as Hadd. constructor.
  - by rewrite length_insert.
  - apply Forall_insert; [done|lia].
  - done.
  - rewrite Hadd, <- Permutation_middle. apply NoDup_cons. by split.
  - intros x. rewrite Hset, ok_allset0, Hadd, <- Permutation_middle. by rewrite elem_of_cons.
  - destruct (Z.gtb_spec (Z.of_nat i) maxi); lia.
  - intros j x Hj Hx. destruct (decide (i = j)) as [<-|Hne].
    + destruct (Z.gtb_spec (Z.of_nat i) maxi); lia.
    + rewrite list_lookup_insert_ne in Hj by done. specialize (ok_indices0 j x Hj Hx).
      destruct (Z.gtb_spec (Z.of_nat i) maxi); lia.
  - intros x [->|Hfd]%Hset; [|specialize (ok_maxfd0 x Hfd)];
      destruct (Z.gtb_spec fd maxfd); lia.
Qed.

(** A client is forgotten. *)
Lemma table_remove i fd allset' :
  table !! i = Some fd -> 0 <= fd -> (forall x, x ∈ allset' <-> x <> fd /\ x ∈ allset) ->
  table_ok base (<[i := -1]> table) allset' maxi maxfd.
Proof using Hok.
  destruct Hok. intros Hl Hc Hset. pose proof (lookup_lt_Some _ _ _ Hl) as Hlt.
  pose proof (clients_remove _ _ _ Hl Hc) as Hrem.
  assert (Hnd : NoDup (fd :: base ++ clients (<[i := -1]> table))) by (by rewrite Permutation_middle, <- Hrem).
  apply NoDup_cons in Hnd as [Hnin Hnd]. constructor; try done.
  - by rewrite length_insert.
  - apply Forall_insert; [done|unfold FD_SETSIZE; lia].
  - intros x. rewrite Hset, ok_allset0, Hrem, <- Permutation_middle, elem_of_cons.
    split; [tauto|]. intros H. split; [intros ->|]; tauto.
  - intros j x Hj Hx. destruct (decide (i = j)) as [<-|Hne].
    + rewrite list_lookup_insert_eq in Hj by done. injection Hj as <-. lia.
    + rewrite list_lookup_insert_ne in Hj by done. eauto.
  - intros x [_ Hfd]%Hset. auto.
Qed.
End Table.

(** Before the first client. *)
Lemma table_empty base allset maxfd :
  NoDup base -> Forall (fun c => 0 <= c < FD_SETSIZE) base -> (forall x, x ∈ allset <-> x ∈ base) ->
  (forall x, x ∈ base -> x <= maxfd) ->
  table_ok base (replicate (Z.to_nat FD_SETSIZE) (-1)) allset (-1) maxfd /\
  clients (replicate (Z.to_nat FD_SETSIZE) (-1)) = [].
Proof.
  intros Hnd Hr Hset Hmax. assert (Hno : clients (replicate (Z.to_nat FD_SETSIZE) (-1)) = []).
  { apply elem_of_nil_inv. intros x [Hx Hin]%list_elem_of_filter.
    apply elem_of_replicate in Hin as [-> _]. by unfold is_client in Hx. }
  split; [|done]. constructor; rewrite ?Hno, ?app_nil_r; try done.
  - by apply Forall_replicate.
  - intros i x Hi%lookup_replicate. lia.
  - intros x Hx%Hset. auto.
Qed.
