(* ===== verification/SelectServer.v ===== *)
(** The TCP echo server that serves all its clients in one process with [select]:
    [tcpcliserv/tcpservselect01.c].

    The server listens on one descriptor and keeps those of its clients in the array
    [client], free entries being -1.  [main] is its initialisation ([server_init]) and the
    endless loop, of which [server_round] is one iteration. *)

From S2P Require Import Prelude CText Sys Error Wrappers RobustIO StreamFacts Servers.

(** The variables that live across iterations. *)
Record server : Type := Server {
  listenfd : Z;
  client : list Z;          (* -1 indicates available entry *)
  maxi : Z;                 (* max index in client[] array *)
  maxfd : Z;                (* for select *)
  allset : list Z;
}.

Section Server.
Context {os : OS} {SE : Strerror}.

(** [fig01]: the listening socket and the empty tables. *)
Definition server_init : M server :=
  listenfd <~ Socket AF_INET SOCK_STREAM 0 ;;
  Bind listenfd (SockIn (htons SERV_PORT) [0; 0; 0; 0]) ;;;
  Listen listenfd LISTENQ ;;;
  allset <~ checked (FD_SET listenfd []) ;;
  mpure (Server listenfd (replicate (Z.to_nat FD_SETSIZE) (-1)) (-1) listenfd allset).

(** [for (i = 0; i < FD_SETSIZE; i++) if (client[i] < 0) ...]: the first available entry. *)
Fixpoint free_entry (client : list Z) : nat :=
  match client with
  | [] => 0
  | c :: client' => if c <? 0 then 0 else S (free_entry client')
  end.

(** The new client connection. *)
Definition add_client (afuel : nat) (srv : server) : M server :=
  r <~ Accept afuel (listenfd srv) true ;;
  let connfd := rv r in
  let i := free_entry (client srv) in
  if (i =? Z.to_nat FD_SETSIZE)%nat then err_quit c["too many clients"] []
  else
    client' <~ checked (store (client srv) i connfd) ;;       (* save descriptor *)
    allset' <~ checked (FD_SET connfd (allset srv)) ;;
    mpure (Server (listenfd srv) client'
             (if Z.of_nat i >? maxi srv then Z.of_nat i else maxi srv)
             (if connfd >? maxfd srv then connfd else maxfd srv) allset').

(** A client whose descriptor is readable: echo its data, or forget it when it has closed
    the connection. *)
Definition serve_client (wfuel : nat) (i : nat) (sockfd : Z) (srv : server) : M server :=
  r <~ Read sockfd MAXLINE ;;
  buf <~ checked (memcpy (replicate (Z.to_nat MAXLINE) 0) 0 (rbytes r)) ;;
  if rv r =? 0 then
    Close sockfd ;;;
    allset' <~ checked (FD_CLR sockfd (allset srv)) ;;
    client' <~ checked (store (client srv) i (-1)) ;;
    mpure (Server (listenfd srv) client' (maxi srv) (maxfd srv) allset')
  else Writen wfuel sockfd buf (rv r) ;;; mpure srv.

(** [for (i = 0; i <= maxi; i++)]: check all clients for data; [idx] are the values of [i]
    that remain. *)
Fixpoint check_clients (wfuel : nat) (idx : list nat) (rset : list Z) (nready : Z)
    (srv : server) : M server :=
  match idx with
  | [] => mpure srv
  | i :: idx' =>
      sockfd <~ checked (client srv !! i) ;;
      if sockfd <? 0 then check_clients wfuel idx' rset nready srv
      else
        ready <~ checked (FD_ISSET sockfd rset) ;;
        if ready : bool then
          srv <~ serve_client wfuel i sockfd srv ;;
          if nready - 1 <=? 0 then mpure srv        (* no more readable descriptors *)
          else check_clients wfuel idx' rset (nready - 1) srv
        else check_clients wfuel idx' rset nready srv
  end.

(** One iteration of [for ( ; ; )]. *)
Definition server_round (afuel wfuel : nat) (srv : server) : M server :=
  r <~ Select (maxfd srv + 1) (allset srv) [] [] None ;;
  let rset := rset_of r in
  let nready := rv r in
  new <~ checked (FD_ISSET (listenfd srv) rset) ;;
  if new : bool then
    srv <~ add_client afuel srv ;;
    if nready - 1 <=? 0 then mpure srv
    else check_clients wfuel (seq 0 (Z.to_nat (maxi srv + 1))) rset (nready - 1) srv
  else check_clients wfuel (seq 0 (Z.to_nat (maxi srv + 1))) rset nready srv.

(** [rounds] iterations. *)
Fixpoint server_loop (afuel wfuel rounds : nat) (srv : server) : M server :=
  match rounds with
  | O => mpure srv
  | S k => srv <~ server_round afuel wfuel srv ;; server_loop afuel wfuel k srv
  end.

(** [main], observed after [rounds] iterations of its loop. *)
Definition select_server (afuel wfuel rounds : nat) : M server :=
  srv <~ server_init ;; server_loop afuel wfuel rounds srv.

End Server.
