(* ===== verification/SelectFacts.v ===== *)
(** The invariant of the [select] server: its tables describe exactly the connections that are
    open, and everything a client has sent has been echoed to it. *)

From S2P Require Import Prelude CText Sys Traces Error Wrappers RobustIO StreamFacts Servers.
From S2P Require Import ClientTable SelectServer.

Lemma free_entry_spec table :
  (free_entry table = length table /\ Forall is_client table) \/
  exists c, table !! free_entry table = Some c /\ c < 0.
Proof.
  induction table as [|c table IH]; cbn [free_entry]; [by left|].
  destruct (Z.ltb_spec c 0); [right; by exists c|].
  destruct IH as [[-> ?]|?]; [left|by right]. by split; [|constructor].
Qed.

(** * The invariant *)

Definition server_ok (srv : server) : Prop :=
  table_ok [listenfd srv] (client srv) (allset srv) (maxi srv) (maxfd srv).

Lemma ok_listen srv : server_ok srv -> 0 <= listenfd srv < FD_SETSIZE.
Proof. intros [_ _ Hb _ _ _ _ _]. by apply Forall_cons in Hb as [? _]. Qed.

(** Between two iterations. *)
Record serving (srv : server) (s : st) : Prop := {
  sv_foreground : daemon_proc s = 0;
  sv_echoed : echoed (trace s);
  sv_ok : server_ok srv;
  sv_live : live (trace s) ≡ₚ listenfd srv :: clients (client srv);
}.

Lemma server_ok_add srv i connfd allset' :
  server_ok srv -> free_entry (client srv) = i -> i <> Z.to_nat FD_SETSIZE ->
  0 <= connfd < FD_SETSIZE -> connfd ∉ listenfd srv :: clients (client srv) ->
  (forall x, x ∈ allset' <-> x = connfd \/ x ∈ allset srv) ->
  exists client', store (client srv) i connfd = Some client' /\
    clients client' ≡ₚ connfd :: clients (client srv) /\
    server_ok (Server (listenfd srv) client'
      (if Z.of_nat i >? maxi srv then Z.of_nat i else maxi srv)
      (if connfd >? maxfd srv then connfd else maxfd srv) allset').
Proof.
  intros Hok <- Hi Hc Hnew Hset. destruct (free_entry_spec (client srv)) as [[? _]|(c & Hl & Hc0)];
    [destruct Hok; congruence|]. set (i := free_entry _) in *.
  exists (<[i := connfd]> (client srv)). unfold store. rewrite decide_True by (by eapply lookup_lt_Some).
  split; [done|]. split; [apply (clients_add _ _ c); [done|done|lia]|]. by eapply table_add.
Qed.

Lemma server_ok_remove srv i sockfd allset' :
  server_ok srv -> client srv !! i = Some sockfd -> 0 <= sockfd ->
  (forall x, x ∈ allset' <-> x <> sockfd /\ x ∈ allset srv) ->
  exists client', store (client srv) i (-1) = Some client' /\
    clients (client srv) ≡ₚ sockfd :: clients client' /\
    server_ok (Server (listenfd srv) client' (maxi srv) (maxfd srv) allset').
Proof.
  intros Hok Hl Hc Hset. exists (<[i := -1]> (client srv)). unfold store.
  rewrite decide_True by (by eapply lookup_lt_Some).
  split; [done|]. split; [by apply clients_remove|]. by eapply table_remove.
Qed.

(** * The steps of the server *)

(** Why the server may run out of fuel: too many aborted connections, or interrupted writes. *)
Definition starved (afuel wfuel : nat) (h : list event) : Prop :=
  (afuel <= aborted h)%nat \/ Z.of_nat wfuel < MAXLINE + Z.of_nat (interrupts h).

Lemma echoing_output evs h : Forall output evs -> echoing h -> echoing (evs ++ h).
Proof. intros H. by apply echoing_inert, output_inert. Qed.

(** A history continued by calls of no effect on the invariant. *)
Lemma serving_inert srv s s' evs :
  serving srv s -> inert evs -> trace s' = evs ++ trace s -> daemon_proc s' = daemon_proc s ->
  serving srv s'.
Proof.
  intros [] Hi Ht Hd. constructor; rewrite ?Hd, ?Ht; try done.
  - by apply echoed_inert.
  - by rewrite live_inert.
Qed.

Section Steps.
Context {os : OS} {SE : Strerror} {RDL : ReadLaw} {WL : WriteLaw} {DL : DescriptorLaw}.
Context (afuel wfuel : nat).

Abbreviation goes := (ends echoing (starved afuel wfuel)).

(** A wrapped call of no effect on the invariant. *)
Lemma serving_call srv c bad msg s (Q : sysret -> st -> Prop) :
  serving srv s -> plain msg = true -> moves_nothing (c, answer c s) = true ->
  (forall s', serving srv s' -> bad (rv (answer c s)) = false ->
     trace s' = (c, answer c s) :: trace s -> Q (answer c s) s') ->
  wp (call c bad msg) (goes Q) s.
Proof.
  intros Hs Hp Hm HQ. pose proof Hs as [Hd He _ _].
  assert (Hs' : serving srv (after c (answer c s) s)).
  { eapply (serving_inert _ s _ [(c, answer c s)]); [done|by constructor|done|done]. }
  apply ends_call; [apply echoing_output|done|done| |].
  - apply echoed_echoing. by destruct Hs'.
  - intros Hb. by apply HQ.
Qed.

Lemma Accept_spec fuel fd want s :
  daemon_proc s = 0 -> echoed (trace s) ->
  wp (Accept fuel fd want)
    (ends echoing (fun h => (fuel + aborted (trace s) <= aborted h)%nat)
       (fun r s' => daemon_proc s' = 0 /\ 0 <= rv r < FD_SETSIZE /\ (rv r ∉ live (trace s)) /\
          exists evs, inert evs /\ trace s' = (sys_accept fd want, r) :: evs ++ trace s)) s.
Proof.
  revert s. induction fuel as [|fuel IH]; intros s Hd He; cbn [Accept].
  { split; [by apply echoed_echoing|done]. }
  apply wp_then, wp_sys. cbn [andthen]. set (c := sys_accept fd want).
  set (s1 := after c (answer c s) s).
  destruct (Z.ltb_spec (rv (answer c s)) 0) as [Hv|Hv].
  - assert (Hi : inert [(c, answer c s)])
      by (constructor; [cbn; by destruct (Z.ltb_spec (rv (answer c s)) 0); [|lia]|done]).
    assert (He1 : echoed (trace s1)) by exact (echoed_inert [_] _ Hi He).
    apply wp_then. cbn [get_errno wp andthen]. destruct (accept_again _).
    + eapply wp_mono; [apply (IH s1); done|]. intros o s' Ho. destruct o; try done; cbn in Ho |- *.
      * destruct Ho as (Hd' & Hr & Hfresh & evs & Hevs & Ht). split_and!; try done; try lia.
        { by rewrite <- (live_inert [(c, answer c s)] (trace s)). }
        exists (evs ++ [(c, answer c s)]). split; [by apply Forall_app|].
        by rewrite Ht, <- app_assoc.
      * destruct Ho as [HI Hf]. split; [done|]. unfold aborted in *. cbn in Hf.
        destruct (Z.ltb_spec (rv (answer c s)) 0); [|lia]. cbn in Hf. lia.
    + apply ends_err_sys; [apply echoing_output|done|done|by apply echoed_echoing].
  - apply ends_pure. destruct (descriptor_law (trace s) c eq_refl Hv). split_and!; try done.
    by exists [].
Qed.

(** A new connection: the kernel's descriptor enters the tables. *)
Lemma add_client_spec srv s :
  serving srv s -> wp (add_client afuel srv) (goes (fun srv' s' => serving srv' s' /\
    listenfd srv' = listenfd srv /\ clients (client srv) ⊆ clients (client srv') /\
    exists r evs, inert evs /\ trace s' = (sys_accept (listenfd srv) true, r) :: evs ++ trace s)) s.
Proof.
  intros Hs. pose proof Hs as [Hd He Hok Hlive]. unfold add_client. apply wp_then.
  eapply wp_mono; [by apply Accept_spec|]. intros o s1 Ho.
  destruct o as [r| | | |]; try done; cbn [andthen ends] in *.
  2: { destruct Ho as [? Hf]. split; [done|]. left. unfold aborted in *. lia. }
  destruct Ho as (Hd1 & Hr & Hfresh & evs & Hevs & Ht).
  assert (He1 : echoed (trace s1)).
  { rewrite Ht. intros fd. specialize (echoed_inert evs (trace s) Hevs He fd) as Hx.
    change (_ :: evs ++ trace s) with ([(sys_accept (listenfd srv) true, r)] ++ (evs ++ trace s)).
    rewrite sent_app, received_app, Hx. done. }
  destruct (Nat.eqb_spec (free_entry (client srv)) (Z.to_nat FD_SETSIZE)) as [|Hi].
  { apply ends_err_quit; [apply echoing_output|done|done|by apply echoed_echoing]. }
  rewrite Hlive in Hfresh. destruct (FD_SET_spec (rv r) (allset srv) Hr) as (allset' & EA & HA).
  destruct (server_ok_add srv _ (rv r) allset' Hok eq_refl Hi Hr Hfresh HA)
    as (client' & EC & Hcl & Hok').
  eapply wp_checked; [done|].
  eapply wp_checked; [done|].
  apply ends_pure. split_and!; [|done|intros x Hx; cbn [client]; rewrite Hcl; by right|by exists r, evs].
  constructor; try done. cbn [listenfd client].
  rewrite Ht, Hcl. cbn [live opens andb]. destruct (Z.leb_spec 0 (rv r)); [|lia].
  rewrite live_inert, Hlive by done. apply Permutation_swap.
Qed.

(** The other entries of the tables are not touched when entry [i] is served. *)
Definition same_but (i : nat) (srv srv' : server) : Prop :=
  listenfd srv' = listenfd srv /\ maxi srv' = maxi srv /\
  forall j, j <> i -> client srv' !! j = client srv !! j.

Lemma close_client i sockfd srv s s1 r n :
  serving srv s -> client srv !! i = Some sockfd -> 0 <= sockfd ->
  s1 = after (sys_read sockfd n) r s -> rbytes r = [] ->
  wp (Close sockfd ;;;
      allset' <~ checked (FD_CLR sockfd (allset srv)) ;;
      client' <~ checked (store (client srv) i (-1)) ;;
      mpure (Server (listenfd srv) client' (maxi srv) (maxfd srv) allset'))
    (goes (fun srv' s' => serving srv' s' /\ same_but i srv srv' /\
       exists evs, trace s' = evs ++ (sys_read sockfd n, r) :: trace s)) s1.
Proof.
  intros [Hd He Hok Hlive] Hi Hc -> Hr.
  assert (Hrange : sockfd < FD_SETSIZE).
  { pose proof (ok_range _ _ _ _ _ Hok) as Hrg. by eapply Forall_lookup_1 in Hrg. }
  assert (He1 : echoed ((sys_read sockfd n, r) :: trace s))
    by (apply (echoed_chunk (trace s) [] sockfd n r); [done|constructor|by rewrite Hr]).
  set (s1 := after _ r s). set (c := sys_close sockfd).
  assert (He2 : echoed (trace (after c (answer c s1) s1))).
  { intros fd. cbn [after trace]. change (?e :: ?l) with ([e] ++ l).
    rewrite sent_app, received_app. by rewrite (He1 fd : sent fd (trace s1) = received fd (trace s1)). }
  unfold Close. eapply (ends_then _ _ _ _ (fun _ s2 => s2 = after c (answer c s1) s1)).
  { eapply ends_then.
    - eapply (ends_call _ _ echoing_output _ _ _ (fun _ s2 => s2 = after c (answer c s1) s1));
        [done|done|by apply echoed_echoing|done].
    - by intros ? ? ->. }
  intros _ s2 ->.
  destruct (FD_CLR_spec sockfd (allset srv) ltac:(lia)) as (allset' & EA & HA).
  destruct (server_ok_remove srv i sockfd allset' Hok Hi Hc HA) as (client' & EC & Hcl & Hok').
  eapply wp_checked; [done|]. eapply wp_checked; [done|]. apply ends_pure.
  split_and!; [|split; [done|split; [done|]]|by exists [(c, answer c s1)]].
  - constructor; try done. cbn [listenfd client].
    change (live (trace _)) with (filter (fun x => x <> sockfd) (live (trace s))).
    rewrite Hlive, Hcl, Permutation_swap, filter_cons_False by tauto.
    pose proof (ok_distinct _ _ _ _ _ Hok) as Hnd. cbn [app] in Hnd. rewrite Hcl, Permutation_swap in Hnd.
    apply NoDup_cons in Hnd as [Hn _].
    by rewrite filter_absent.
  - intros j Hj. unfold store in EC. case_decide; [|done]. injection EC as <-.
    by apply list_lookup_insert_ne.
Qed.

Lemma serve_client_spec i sockfd srv s :
  serving srv s -> client srv !! i = Some sockfd -> 0 <= sockfd ->
  wp (serve_client wfuel i sockfd srv)
    (goes (fun srv' s' => serving srv' s' /\ same_but i srv srv' /\
       exists r evs, trace s' = evs ++ (sys_read sockfd MAXLINE, r) :: trace s)) s.
Proof.
  intros Hs Hi Hc. pose proof Hs as [Hd He Hok Hlive]. unfold serve_client, Read.
  set (c := sys_read sockfd MAXLINE). set (r := answer c s). set (s1 := after c r s).
  destruct (read_law (trace s) sockfd MAXLINE ltac:(done)) as [_ Hread].
  eapply (ends_then _ _ _ _ (fun r' s2 => r' = r /\ s2 = s1 /\ minus1 (rv r) = false)).
  { apply ends_call; [apply echoing_output|done|done| |done].
    apply (echoing_chunk (trace s) [] sockfd MAXLINE r); [done|constructor|apply prefix_nil]. }
  intros ? ? (-> & -> & Hm). unfold minus1 in Hm.
  destruct Hread as [[Hv _]|[Hv Hle]]; [fold c in Hv; fold (answer c s) in Hv; fold r in Hv;
    by rewrite Hv in Hm|].
  fold c in Hv, Hle. fold (answer c s) in Hv, Hle. fold r in Hv, Hle.
  eapply wp_checked; [apply memcpy_ok; rewrite length_replicate; lia|].
  destruct (Z.eqb_spec (rv r) 0) as [E|E].
  - eapply ends_mono; [eapply (close_client i sockfd srv s _ r MAXLINE); try done|].
    + apply length_zero_iff_nil. lia.
    + intros srv' s' (? & ? & evs & ?). split_and!; [done..|by exists r, evs].
  - set (buf := take 0 _ ++ _).
    assert (Hbuf : slice buf 0 (rv r) = rbytes r).
    { unfold slice, buf. rewrite Hv, Nat2Z.id, drop_0, take_0. apply (take_app_length (rbytes r)). }
    apply wp_then. eapply wp_mono; [apply Writen_spec; [unfold buf; llia|done]|].
    intros o s2 (evs & Ht & Hw & Hp & Ho). rewrite Hbuf in *.
    pose proof (echoing_chunk (trace s) evs sockfd MAXLINE r He Hw Hp) as Hing.
    change ((sys_read sockfd MAXLINE, r) :: trace s) with (trace s1) in Hing. rewrite <- Ht in Hing.
    destruct o as [[]| | | |]; try done; cbn [andthen ends].
    + destruct Ho as [Hsent Hd2]. apply ends_pure. split_and!; [|by split_and!|by exists r, evs].
      constructor; [by rewrite Hd2| |done|].
      * rewrite Ht. by apply (echoed_chunk (trace s) evs sockfd MAXLINE r).
      * rewrite Ht. change (trace s1) with ((sys_read sockfd MAXLINE, r) :: trace s).
        by rewrite live_chunk.
    + by destruct Ho as [-> _].
    + split; [done|]. right. rewrite Ht, interrupts_app. lia.
Qed.

(** The clients at the indices [idx] that [select] has reported. *)
Definition ready_clients (table : list Z) (rset : list Z) (idx : list nat) : list Z :=
  filter (fun c => is_client c /\ c ∈ rset) (omap (fun i => table !! i) idx).

Lemma ready_clients_same i srv srv' rset idx :
  same_but i srv srv' -> i ∉ idx ->
  ready_clients (client srv') rset idx = ready_clients (client srv) rset idx.
Proof.
  intros (_ & _ & Hs) Hi. unfold ready_clients. f_equal.
  induction idx as [|j idx IH]; [done|]. apply not_elem_of_cons in Hi as [Hj Hi]. cbn.
  rewrite Hs by congruence. destruct (client srv !! j); by rewrite IH.
Qed.

(** A call of [read] on [fd] among [evs]. *)
Definition read_from (fd : Z) (evs : list event) : Prop := exists r, (sys_read fd MAXLINE, r) ∈ evs.

Lemma read_from_app fd a b : read_from fd b -> read_from fd (a ++ b).
Proof. intros [r Hr]. exists r. apply elem_of_app. by right. Qed.

Definition round_post (srv : server) (s : st) (ready : list Z) (nready : Z) (srv' : server) (s' : st)
    : Prop :=
  serving srv' s' /\ exists evs, trace s' = evs ++ trace s /\
    (Z.of_nat (length ready) <= nready -> forall fd, fd ∈ ready -> read_from fd evs).

Lemma check_clients_spec idx rset nready srv s :
  serving srv s -> NoDup idx -> Forall (fun i => (i < Z.to_nat FD_SETSIZE)%nat) idx ->
  wp (check_clients wfuel idx rset nready srv)
    (goes (round_post srv s (ready_clients (client srv) rset idx) nready)) s.
Proof.
  revert nready srv s. induction idx as [|i idx IH]; intros nready srv s Hs Hnd Hlt.
  { apply ends_pure. split; [done|]. exists []. split; [done|]. intros _ fd Hfd.
    by apply elem_of_nil in Hfd. }
  apply NoDup_cons in Hnd as [Hi Hnd]. apply Forall_cons in Hlt as [Hil Hlt].
  assert (Hlen : length (client srv) = Z.to_nat FD_SETSIZE) by by destruct Hs as [_ _ [] _].
  destruct (lookup_lt_is_Some_2 (client srv) i ltac:(lia)) as [sockfd El].
  cbn [check_clients]. eapply wp_checked; [exact El|].
  unfold ready_clients. cbn [omap list_omap]. rewrite El.
  change (omap _ idx) with (omap (fun i => client srv !! i) idx).
  destruct (Z.ltb_spec sockfd 0) as [Hneg|Hpos].
  { rewrite filter_cons_False by (unfold is_client; lia). by apply IH. }
  assert (Hrange : sockfd < FD_SETSIZE).
  { destruct Hs as [_ _ [_ Hrg _ _ _ _ _ _] _]. by eapply Forall_lookup_1 in El; [|exact Hrg]. }
  eapply wp_checked; [apply FD_ISSET_spec; lia|].
  case_bool_decide as Hin.
  2: { rewrite filter_cons_False by tauto. by apply IH. }
  rewrite filter_cons_True by done. fold (ready_clients (client srv) rset idx).
  eapply ends_then; [by apply serve_client_spec|]. intros srv1 s1 (Hs1 & Hsame & r & evs & Ht1).
  rewrite <- (ready_clients_same i srv srv1 rset idx) by done.
  assert (Hread : read_from sockfd (evs ++ [(sys_read sockfd MAXLINE, r)]))
    by (exists r; apply elem_of_app; right; by constructor).
  destruct (Z.leb_spec (nready - 1) 0) as [Hlast|Hmore].
  - apply ends_pure. split; [done|]. exists (evs ++ [(sys_read sockfd MAXLINE, r)]).
    rewrite Ht1, <- app_assoc. split; [done|]. cbn [length]. intros Hn fd Hfd.
    assert (E : ready_clients (client srv1) rset idx = []) by (apply length_zero_iff_nil; lia).
    rewrite E in Hfd. apply list_elem_of_singleton in Hfd as ->. done.
  - eapply ends_mono; [by apply IH|]. intros srv2 s2 (Hs2 & evs2 & Ht2 & Hall). split; [done|].
    exists (evs2 ++ evs ++ [(sys_read sockfd MAXLINE, r)]). rewrite Ht2, Ht1, <- !app_assoc.
    split; [done|]. cbn [length]. intros Hn fd [->|Hfd]%elem_of_cons.
    + by apply read_from_app.
    + destruct (Hall ltac:(lia) fd Hfd) as [r' Hr']. exists r'. apply elem_of_app. by left.
Qed.

Lemma indices_in_table srv s :
  serving srv s -> Forall (fun i => (i < Z.to_nat FD_SETSIZE)%nat) (seq 0 (Z.to_nat (maxi srv + 1))).
Proof.
  intros [_ _ [_ _ _ _ _ Hmi _ _] _]. apply Forall_forall. intros i Hi%elem_of_seq. unfold FD_SETSIZE in *. lia.
Qed.

Lemma server_round_spec srv s :
  serving srv s -> wp (server_round afuel wfuel srv) (goes (fun srv' s' => serving srv' s')) s.
Proof.
  intros Hs. unfold server_round, Select. pose proof (ok_listen _ (sv_ok _ _ Hs)) as Hl.
  eapply ends_then; [by apply (serving_call srv _ _ _ _ (fun _ s1 => serving srv s1))|].
  intros r s1 Hs1. eapply wp_checked; [by apply FD_ISSET_spec|]. case_bool_decide.
  - eapply ends_then; [by apply add_client_spec|]. intros srv2 s2 [Hs2 _].
    destruct (_ <=? 0); [by apply ends_pure|].
    eapply ends_mono; [apply check_clients_spec; eauto using NoDup_seq, indices_in_table|by intros ? ? [? _]].
  - eapply ends_mono; [apply check_clients_spec; eauto using NoDup_seq, indices_in_table|by intros ? ? [? _]].
Qed.

Lemma server_init_spec s :
  daemon_proc s = 0 -> trace s = [] -> wp server_init (goes (fun srv s' => serving srv s')) s.
Proof.
  intros Hd Ht. unfold server_init, Socket. set (c := sys_socket AF_INET SOCK_STREAM 0).
  assert (He : echoed (trace (after c (answer c s) s)))
    by (intros fd; cbn [after trace]; by rewrite Ht).
  eapply (ends_then _ _ _ _ (fun v s1 => 0 <= v < FD_SETSIZE /\ daemon_proc s1 = 0 /\
    echoed (trace s1) /\ live (trace s1) = [v])).
  { eapply (ends_then _ _ _ _ (fun r s1 => 0 <= rv r < FD_SETSIZE /\ daemon_proc s1 = 0 /\
      echoed (trace s1) /\ live (trace s1) = [rv r])); [|by intros].
    apply ends_call; [apply echoing_output|done|done|by apply echoed_echoing|].
    unfold negative. intros Hn%Z.ltb_ge.
    destruct (descriptor_law (trace s) c eq_refl Hn). split_and!; try done.
    cbn [after trace live opens c andb]. by rewrite Ht, (proj2 (Z.leb_le 0 _) Hn). }
  intros lfd s1 (Hr & Hd1 & He1 & Hl1). destruct (FD_SET_spec lfd [] Hr) as (set & Es & Hset).
  set (srv := Server lfd (replicate (Z.to_nat FD_SETSIZE) (-1)) (-1) lfd set).
  destruct (table_empty [lfd] set lfd) as [Hok Hno].
  { apply NoDup_singleton. }
  { by constructor. }
  { intros x. rewrite Hset, list_elem_of_singleton, elem_of_nil. tauto. }
  { intros x ->%list_elem_of_singleton. done. }
  assert (Hs : serving srv s1) by (constructor; [done|done|exact Hok|cbn [client srv listenfd]; by rewrite Hno, Hl1]).
  unfold Bind. eapply (ends_then _ _ _ _ (fun _ s2 => serving srv s2)).
  { eapply ends_then; [by apply (serving_call srv _ _ _ _ (fun _ s2 => serving srv s2))|by intros]. }
  intros _ s2 Hs2. unfold Listen. eapply (ends_then _ _ _ _ (fun _ s3 => serving srv s3)).
  { apply wp_then, wp_sys. cbn [andthen].
    eapply ends_then; [apply (serving_call srv _ _ _ _ (fun _ s2 => serving srv s2)); [|done..]|by intros].
    eapply (serving_inert srv s2 _ [(sys_getenv c["LISTENQ"], answer (sys_getenv c["LISTENQ"]) s2)]);
      [done|by constructor|done|done]. }
  intros _ s3 Hs3. by eapply wp_checked.
Qed.

Lemma server_loop_spec rounds srv s :
  serving srv s -> wp (server_loop afuel wfuel rounds srv) (goes (fun srv' s' => serving srv' s')) s.
Proof.
  revert srv s. induction rounds as [|k IH]; intros srv s Hs; [done|]. cbn [server_loop].
  eapply ends_then; [by apply server_round_spec|]. intros. by apply IH.
Qed.

End Steps.
