(* ===== verification/SelectClaims.v ===== *)
(** What the [select] server guarantees, for every behaviour of its clients. *)

From S2P Require Import Prelude CText Sys Traces Error Wrappers RobustIO StreamFacts Servers.
From S2P Require Import ClientTable SelectServer SelectFacts.

Section Claims.
Context {os : OS} {SE : Strerror} {RDL : ReadLaw} {WL : WriteLaw} {DL : DescriptorLaw}.

(** C13: the [select] server serves its clients for ever.  Started in a fresh foreground process
    and observed after any number of iterations of its loop, whatever its clients and the
    kernel do within the contracts of the calls: it has no undefined behaviour; the
    descriptors that are open are the listening one and those in [client[]], each in one
    entry, none has leaked; [allset] is the set of exactly these; [maxi] and [maxfd] bound
    the entries and descriptors in use; and on every connection exactly the bytes that were
    received have been sent back.  If it ends, it is with an error report and status 1, and
    no byte was sent that had not been received on the same connection; it needs fuel only
    for aborted connections and interrupted writes. *)
Theorem select_server_serves afuel wfuel rounds s :
  daemon_proc s = 0 -> trace s = [] ->
  let '(o, s') := select_server afuel wfuel rounds s in
  match o with
  | Val srv =>
      live (trace s') ≡ₚ listenfd srv :: clients (client srv) /\
      NoDup (listenfd srv :: clients (client srv)) /\
      (forall fd, fd ∈ allset srv <-> fd ∈ listenfd srv :: clients (client srv)) /\
      (forall fd, fd ∈ allset srv -> 0 <= fd <= maxfd srv /\ fd < FD_SETSIZE) /\
      (forall i c, client srv !! i = Some c -> 0 <= c -> Z.of_nat i <= maxi srv) /\
      (forall fd, sent fd (trace s') = received fd (trace s'))
  | Exited code => code = 1 /\ forall fd, sent fd (trace s') `prefix_of` received fd (trace s')
  | OutOfFuel =>
      (forall fd, sent fd (trace s') `prefix_of` received fd (trace s')) /\
      starved afuel wfuel (trace s')
  | _ => False
  end.
Proof.
  intros Hd Ht.
  assert (H : wp (select_server afuel wfuel rounds)
    (ends echoing (starved afuel wfuel) (fun srv s' => serving srv s')) s).
  { eapply ends_then; [by apply server_init_spec|]. intros. by apply server_loop_spec. }
  unfold wp in H. destruct (select_server _ _ _ _) as [o s']. destruct o as [srv| | | |]; try done.
  destruct H as [_ He [Hlen Hr Hlis Hnd Hset Hmi Hi Hmf] Hl]. split_and!; try done.
  intros fd Hfd. specialize (Hmf fd Hfd).
  apply Hset in Hfd as [->|[Hx Hin]%list_elem_of_filter]%elem_of_cons; [by apply Forall_cons in Hlis as [? _]; lia|].
  eapply Forall_forall in Hr; [|done]. unfold is_client in Hx. lia.
Qed.

(** Every client in the table is at an index that the loop visits. *)
Lemma ready_clients_all srv s rset fd :
  serving srv s -> fd ∈ clients (client srv) -> fd ∈ rset ->
  fd ∈ ready_clients (client srv) rset (seq 0 (Z.to_nat (maxi srv + 1))).
Proof.
  intros Hs [Hc Hin]%list_elem_of_filter Hr.
  apply list_elem_of_lookup in Hin as [i Hi]. apply list_elem_of_filter. split; [done|].
  apply list_elem_of_omap. exists i. split; [|done]. apply elem_of_seq.
  pose proof (ok_indices _ _ _ _ _ (sv_ok _ _ Hs) i fd Hi Hc). lia.
Qed.

(** There are no more ready clients than descriptors reported apart from the listening one. *)
Lemma ready_clients_count srv s rset :
  serving srv s -> NoDup rset ->
  let ready := ready_clients (client srv) rset (seq 0 (Z.to_nat (maxi srv + 1))) in
  Z.of_nat (length ready) + (if decide (listenfd srv ∈ rset) then 1 else 0) <=
    Z.of_nat (length rset).
Proof.
  intros [_ _ [Hlen _ _ Hd _ Hmi _ _] _] Hnd. cbv zeta. set (ready := ready_clients _ _ _).
  apply NoDup_cons in Hd as [Hl Hc].
  assert (Hsub : forall x, x ∈ ready -> x ∈ rset /\ x ∈ clients (client srv)).
  { intros x [[Hx Hr] Hin]%list_elem_of_filter. split; [done|]. apply list_elem_of_filter.
    apply list_elem_of_omap in Hin as (i & _ & Hi). split; [done|by eapply list_elem_of_lookup_2]. }
  assert (Hnr : NoDup ready).
  { unfold ready, ready_clients. rewrite omap_lookup_seq by (unfold FD_SETSIZE in *; lia).
    set (n := Z.to_nat _). rewrite <- (take_drop n (client srv)) in Hc. unfold clients in Hc.
    rewrite filter_app in Hc. apply NoDup_app in Hc as (Hc & _ & _).
    apply (NoDup_filter (fun c => c ∈ rset)) in Hc. rewrite list_filter_filter in Hc.
    erewrite list_filter_iff; [exact Hc|]. intros x. cbn. tauto. }
  assert (Hle : (length (if decide (listenfd srv ∈ rset) then listenfd srv :: ready else ready)
                 <= length rset)%nat).
  { apply submseteq_length, NoDup_submseteq; case_decide.
    - apply NoDup_cons. split; [|done]. by intros [_ ?]%Hsub.
    - done.
    - intros x [->|Hx]%elem_of_cons; [done|by apply Hsub].
    - intros x Hx. by apply Hsub. }
  case_decide; cbn [length] in Hle; lia.
Qed.

Context {SL : SelectLaw}.

(** No descriptor that [select] reports is forgotten.  In every iteration that completes,
    each descriptor that [select] has left in the set is handled before the next call of
    [select]: for the listening descriptor a connection is accepted, any other one is that of
    a client and is read from.  So leaving the loop when [nready] reaches 0 never skips a
    ready client. *)
Theorem server_round_handles_ready afuel wfuel srv s srv' s' :
  serving srv s -> server_round afuel wfuel srv s = (Val srv', s') ->
  exists r evs,
    trace s' = evs ++ (sys_select (maxfd srv + 1) (allset srv) [] [] None, r) :: trace s /\
    forall fd, fd ∈ rset_of r ->
      (fd = listenfd srv /\ exists a, (sys_accept fd true, a) ∈ evs) \/
      (fd ∈ clients (client srv) /\ exists a, (sys_read fd MAXLINE, a) ∈ evs).
Proof.
  intros Hs Hrun. set (c := sys_select _ _ _ _ _) in *. set (r := answer c s).
  pose proof (ok_listen _ (sv_ok _ _ Hs)) as Hl.
  assert (H : wp (server_round afuel wfuel srv) (ends echoing (starved afuel wfuel) (fun _ s' =>
    exists evs, trace s' = evs ++ (c, r) :: trace s /\ forall fd, fd ∈ rset_of r ->
      (fd = listenfd srv /\ exists a, (sys_accept fd true, a) ∈ evs) \/
      (fd ∈ clients (client srv) /\ read_from fd evs))) s).
  2: { unfold wp in H. rewrite Hrun in H. destruct H as (evs & ? & ?). by exists r, evs. }
  clear Hrun srv' s'. unfold server_round, Select. fold c.
  eapply ends_then.
  { eapply (serving_call afuel wfuel srv _ _ _ _ (fun r' s1 => serving srv s1 /\ 0 <= rv r /\ r' = r /\
      trace s1 = (c, r) :: trace s)); [done..|].
    unfold negative. fold r. intros s1 Hs1 Hb%Z.ltb_ge Ht. by split_and!. }
  intros r' s1 (Hs1 & Hr & -> & Ht1).
  destruct (select_law (trace s) _ _ _ _ Hr) as (Hnd & Hsub & _ & _ & Hn).
  change (os_answer (trace s) _) with r in Hnd, Hsub, Hn.
  assert (Hkind : forall fd, fd ∈ rset_of r -> fd = listenfd srv \/ fd ∈ clients (client srv)).
  { intros fd Hfd. apply Hsub, (ok_allset _ _ _ _ _ (sv_ok _ _ Hs)), elem_of_cons in Hfd. done. }
  eapply wp_checked; [by apply FD_ISSET_spec|]. case_bool_decide as Hin.
  - eapply ends_then; [by apply add_client_spec|].
    intros srv2 s2 (Hs2 & Hl2 & Hc2 & a & evs2 & _ & Ht2).
    pose proof (ready_clients_count srv2 s2 (rset_of r) Hs2 Hnd) as Hcount; cbv zeta in Hcount.
    rewrite Hl2, decide_True in Hcount by done.
    assert (Hacc : forall evs, (sys_accept (listenfd srv) true, a) ∈ evs ++ (sys_accept (listenfd srv) true, a) :: evs2).
    { intros evs. apply elem_of_app. right. by constructor. }
    assert (Hrd : forall fd, fd ∈ rset_of r -> fd ∈ clients (client srv) ->
      fd ∈ ready_clients (client srv2) (rset_of r) (seq 0 (Z.to_nat (maxi srv2 + 1))))
      by (intros; eapply ready_clients_all; eauto).
    destruct (Z.leb_spec (rv r - 1) 0) as [Hlast|Hmore].
    + apply ends_pure. exists ((sys_accept (listenfd srv) true, a) :: evs2).
      rewrite Ht2, Ht1. split; [done|]. intros fd Hfd. destruct (Hkind fd Hfd) as [->|Hfc].
      * left. split; [done|]. exists a. apply (Hacc []).
      * specialize (Hrd fd Hfd Hfc). apply list_elem_of_lookup in Hrd as [? Hrd%lookup_lt_Some]. lia.
    + eapply ends_mono; [apply check_clients_spec; eauto using NoDup_seq, indices_in_table|].
      intros srv3 s3 (Hs3 & evs & Ht3 & Hall).
      exists (evs ++ (sys_accept (listenfd srv) true, a) :: evs2).
      rewrite Ht3, Ht2, Ht1, <- app_assoc. split; [done|]. intros fd Hfd.
      destruct (Hkind fd Hfd) as [->|Hfc]; [left; eauto|right]. split; [done|].
      destruct (Hall ltac:(lia) fd (Hrd fd Hfd Hfc)) as [a' Ha']. exists a'.
      apply elem_of_app. by left.
  - eapply ends_mono; [apply check_clients_spec; eauto using NoDup_seq, indices_in_table|].
    intros srv3 s3 (Hs3 & evs & Ht3 & Hall). exists evs. rewrite Ht3, Ht1. split; [done|].
    intros fd Hfd. destruct (Hkind fd Hfd) as [->|Hfc]; [done|]. right. split; [done|].
    pose proof (ready_clients_count srv s1 (rset_of r) Hs1 Hnd) as Hcount; cbv zeta in Hcount.
    apply Hall; [case_decide; lia|by eapply ready_clients_all].
Qed.

End Claims.

(** * Concrete runs *)

#[local] Instance calm_os : OS := busy_os (fun _ => false).
#[local] Existing Instances numeric_strerror busy_os_read busy_os_write busy_os_descriptor
  busy_os_select.

(** Six rounds: each accepts a connection; the first two clients have closed theirs, and the
    descriptor and the entry of the first one have been used again. *)
Lemma select_server_serves_witness :
  (match (select_server 1 1 6 init).1 with Val srv => clients (client srv) | _ => [] end)
    = [4; 6; 7; 8] /\
  match select_server 1 1 6 init with
  | (Val srv, s') => live (trace s') ≡ₚ listenfd srv :: clients (client srv)
  | _ => False
  end.
Proof.
  pose proof (select_server_serves 1 1 6 init eq_refl eq_refl) as H.
  assert (Hv : exists v s', select_server 1 1 6 init = (Val v, s'))
    by (eexists _, _; vm_compute; reflexivity).
  split; [vm_compute; reflexivity|].
  destruct (select_server 1 1 6 init) as [o s']. destruct Hv as (v & ? & [= -> ->]).
  destruct H as [H _]. exact H.
Defined.

(** The third iteration of the same run: every descriptor it finds ready is handled. *)
Lemma server_round_handles_ready_witness :
  match select_server 1 1 2 init with
  | (Val srv, s) =>
      match server_round 1 1 srv s with
      | (Val srv', s') =>
          exists r evs, trace s' = evs ++ (sys_select (maxfd srv + 1) (allset srv) [] [] None, r) :: trace s /\
            forall fd, fd ∈ rset_of r ->
              (fd = listenfd srv /\ exists a, (sys_accept fd true, a) ∈ evs) \/
              (fd ∈ clients (client srv) /\ exists a, (sys_read fd MAXLINE, a) ∈ evs)
      | _ => False
      end
  | _ => False
  end.
Proof.
  assert (Hv : (match select_server 1 1 2 init with
    | (Val srv, s) => match server_round 1 1 srv s with (Val _, _) => true | _ => false end
    | _ => false end) = true) by (vm_compute; reflexivity).
  assert (H : wp (select_server 1 1 2) (ends echoing (starved 1 1) (fun srv s' => serving srv s')) init).
  { eapply ends_then; [by apply server_init_spec|]. intros. by apply server_loop_spec. }
  unfold wp in H. destruct (select_server 1 1 2 init) as [[srv| | | |] s]; try discriminate Hv.
  destruct (server_round 1 1 srv s) as [[srv'| | | |] s'] eqn:E; try discriminate Hv.
  exact (server_round_handles_ready 1 1 srv s srv' s' H E).
Defined.

(** * A limit of the server

    A descriptor is put into [allset] before it is compared with the size of the set; when
    the process may open more than [FD_SETSIZE] descriptors, the macro writes outside the
    set.  The test for a full table does not prevent it, since descriptors are also used for
    other things than clients. *)
Lemma select_server_overflow :
  (select_server (os := script [ok 3; ok 0; ok 0; ok 0; SR 1 None [] [3] None; ok 1024]) 1 1 1 init).1
    = Undefined.
Proof. vm_compute. reflexivity. Qed.
