(* ===== verification/SockUtil.v ===== *)
(** Socket-address utilities and small system utilities of [lib/]: [sock_ntop.c],
    [sock_ntop_host.c], [sock_cmp_addr.c], [sock_cmp_port.c], [sock_get_port.c],
    [sock_set_addr.c], [sock_set_port.c], [sock_set_wild.c], [sock_bind_wild.c],
    [family_to_level.c], [sockfd_to_family.c], [tv_sub.c], [hstrerror.c], [gf_time.c],
    [signal.c], [signal_intr.c], [pselect.c], [sockatmark.c].

    What [configure] finds on the host ([IPV6], [HAVE_SOCKADDR_DL_STRUCT]) is the class
    [Config]; a port field is two bytes in memory, and reading it as an integer, as
    [sock_get_port] does, depends on the byte order of the host. *)

From S2P Require Import Prelude CText Sys Error InetAddr Cksum.

Class Config : Type := {
  ipv6 : bool;
  have_sockaddr_dl : bool;
  little_endian : bool;
}.

Definition IPPROTO_IP : Z := 0.
Definition IPPROTO_IPV6 : Z := 41.
Definition INADDR_ANY : list Z := [0; 0; 0; 0].
Definition in6addr_any : list Z := replicate 16 0.
Definition SIGALRM : Z := 14.
Definition SA_RESTART : Z := 268435456.
Definition SIG_ERR : Z := -1.
Definition SIG_SETMASK : Z := 2.
Definition SIOCATMARK : Z := 35077.

(** [snprintf (buf + off, size, ...)] into a checked buffer. *)
Definition snprintf (buf : list Z) (off : nat) (size : Z) (text : cstring) : option (list Z) :=
  put_text buf off (snprintf_text size text).

(** [strcat]. *)
Definition strcat (buf : list Z) (text : cstring) : option (list Z) :=
  put_text buf (length (cstring_at buf 0)) text.

(** ["%*s"]: the whole string, padded on the left to the width. *)
Definition pad_left (c : Z) (width : nat) (text : cstring) : cstring :=
  replicate (width - length text) c ++ text.

Section SockUtil.
Context {os : OS} {SE : Strerror} {CF : Config}.

(** ** sock_ntop.c, sock_ntop_host.c

    The static buffer [str] of 128 characters is passed in and returned; the result is an
    offset in it, or [None] for a null pointer. *)

Definition ntop_into (family : Z) (addr str : list Z) (off : nat) (size : Z)
    : M (option (list Z)) :=
  r <~ checked (Ntop.inet_ntop family addr (drop off str) size) ;;
  match r with
  | inl e => set_errno e ;;; mpure None
  | inr s => mpure (Some (take off str ++ s))
  end.

Definition sock_ntop (str : list Z) (sa : sockaddr) (salen : Z) : M (list Z * option nat) :=
  let default_case f :=
    str <~ checked (snprintf str 0 128
             (c["sock_ntop: unknown AF_xxx: "] ++ print_d f ++ c[", len "] ++ print_d salen)) ;;
    mpure (str, Some 0%nat) in
  match sa with
  | SockIn sin_port sin_addr =>
      r <~ ntop_into AF_INET sin_addr str 0 128 ;;
      match r with
      | None => mpure (str, None)
      | Some str =>
          if negb (ntohs sin_port =? 0) then
            let portstr := snprintf_text 8 (c[":"] ++ print_d (ntohs sin_port)) in
            str <~ checked (strcat str portstr) ;; mpure (str, Some 0%nat)
          else mpure (str, Some 0%nat)
      end
  | SockIn6 sin6_port sin6_addr _ _ =>
      if negb ipv6 then default_case AF_INET6 else
      str <~ checked (store str 0 91) ;;
      r <~ ntop_into AF_INET6 sin6_addr str 1 127 ;;
      match r with
      | None => mpure (str, None)
      | Some str =>
          if negb (ntohs sin6_port =? 0) then
            let portstr := snprintf_text 8 (c["]:"] ++ print_d (ntohs sin6_port)) in
            str <~ checked (strcat str portstr) ;; mpure (str, Some 0%nat)
          else mpure (str, Some 1%nat)
      end
  | SockUn sun_path =>
      str <~ checked (match sun_path with
                      | [] => put_text str 0 c["(no pathname bound)"]
                      | _ => snprintf str 0 128 sun_path
                      end) ;;
      mpure (str, Some 0%nat)
  | SockDl sdl_index _ sdl_name sdl_addr =>
      if negb have_sockaddr_dl then default_case AF_LINK else
      str <~ checked (snprintf str 0 128
               (match sdl_name with
                | [] => c["AF_LINK, index="] ++ print_d sdl_index
                | _ => pad_left 32 (length sdl_name) (until_nul (sdl_name ++ sdl_addr))
                       ++ c[" (index "] ++ print_d sdl_index ++ c[")"]
                end)) ;;
      mpure (str, Some 0%nat)
  | SockOther f => default_case f
  end.

Definition Sock_ntop (str : list Z) (sa : sockaddr) (salen : Z) : M (list Z * nat) :=
  r <~ sock_ntop str sa salen ;;
  match r with
  | (_, None) => err_sys c["sock_ntop error"] []
  | (str, Some p) => mpure (str, p)
  end.

Definition sock_ntop_host (str : list Z) (sa : sockaddr) (salen : Z)
    : M (list Z * option nat) :=
  let default_case f :=
    str <~ checked (snprintf str 0 128
             (c["sock_ntop_host: unknown AF_xxx: "] ++ print_d f ++ c[", len "] ++ print_d salen)) ;;
    mpure (str, Some 0%nat) in
  match sa with
  | SockIn _ sin_addr =>
      r <~ ntop_into AF_INET sin_addr str 0 128 ;;
      match r with
      | None => mpure (str, None)
      | Some str => mpure (str, Some 0%nat)
      end
  | SockIn6 _ sin6_addr _ _ =>
      if negb ipv6 then default_case AF_INET6 else
      r <~ ntop_into AF_INET6 sin6_addr str 0 128 ;;
      match r with
      | None => mpure (str, None)
      | Some str => mpure (str, Some 0%nat)
      end
  | SockUn sun_path =>
      str <~ checked (match sun_path with
                      | [] => put_text str 0 c["(no pathname bound)"]
                      | _ => snprintf str 0 128 sun_path
                      end) ;;
      mpure (str, Some 0%nat)
  | SockDl sdl_index _ sdl_name sdl_addr =>
      if negb have_sockaddr_dl then default_case AF_LINK else
      str <~ checked (snprintf str 0 128
               (match sdl_name with
                | [] => c["AF_LINK, index="] ++ print_d sdl_index
                | _ => pad_left 32 (length sdl_name) (until_nul (sdl_name ++ sdl_addr))
                end)) ;;
      mpure (str, Some 0%nat)
  | SockOther f => default_case f
  end.

Definition Sock_ntop_host (str : list Z) (sa : sockaddr) (salen : Z) : M (list Z * nat) :=
  r <~ sock_ntop_host str sa salen ;;
  match r with
  | (_, None) => err_sys c["sock_ntop_host error"] []
  | (str, Some p) => mpure (str, p)
  end.

(** ** Comparing *)

Definition sock_cmp_addr (sa1 sa2 : sockaddr) : Z :=
  if negb (sa_family sa1 =? sa_family sa2) then -1 else
  match sa1, sa2 with
  | SockIn _ a1, SockIn _ a2 => memcmp a1 a2
  | SockIn6 _ a1 _ _, SockIn6 _ a2 _ _ => if ipv6 then memcmp a1 a2 else -1
  | SockUn p1, SockUn p2 => memcmp p1 p2
  | _, _ => -1
  end.

Definition sock_cmp_port (sa1 sa2 : sockaddr) : Z :=
  if negb (sa_family sa1 =? sa_family sa2) then -1 else
  match sa1, sa2 with
  | SockIn p1 _, SockIn p2 _ => if decide (p1 = p2) then 1 else 0
  | SockIn6 p1 _ _ _, SockIn6 p2 _ _ _ =>
      if ipv6 then (if decide (p1 = p2) then 1 else 0) else -1
  | _, _ => -1
  end.

(** ** Reading and writing the fields *)

(** The integer a program reads from a port field. *)
Definition port_field (b : list Z) : Z :=
  match b with [x; y] => word16 little_endian x y | _ => 0 end.

Definition sock_get_port (sa : sockaddr) : Z :=
  match sa with
  | SockIn p _ => port_field p
  | SockIn6 p _ _ _ => if ipv6 then port_field p else -1
  | _ => -1
  end.

Definition sock_set_addr (sa : sockaddr) (addr : list Z) : sockaddr :=
  match sa with
  | SockIn p _ => SockIn p (take 4 addr)
  | SockIn6 p a f i => if ipv6 then SockIn6 p (take 16 addr) f i else sa
  | _ => sa
  end.

Definition sock_set_port (sa : sockaddr) (port : Z) : sockaddr :=
  match sa with
  | SockIn _ a => SockIn (bytes16 little_endian (u16 port)) a
  | SockIn6 _ a f i =>
      if ipv6 then SockIn6 (bytes16 little_endian (u16 port)) a f i else sa
  | _ => sa
  end.

Definition sock_set_wild (sa : sockaddr) : sockaddr :=
  match sa with
  | SockIn _ _ => sock_set_addr sa INADDR_ANY
  | SockIn6 _ _ _ _ => if ipv6 then sock_set_addr sa in6addr_any else sa
  | _ => sa
  end.

(** The port that [getsockname] has stored, in the integer the field reads as. *)
Definition sock_bind_wild (sockfd family : Z) : M Z :=
  let bind_and_name sa :=
    r <~ sys (sys_bind sockfd sa) ;;
    if rv r <? 0 then mpure (-1) else
    r <~ sys (sys_getsockname sockfd) ;;
    if rv r <? 0 then mpure (-1) else
    mpure (sock_get_port (default sa (rsa r))) in
  if family =? AF_INET then bind_and_name (SockIn (htons 0) INADDR_ANY)
  else if (family =? AF_INET6) && ipv6 then bind_and_name (SockIn6 (htons 0) in6addr_any 0 0)
  else mpure (-1).

Definition Sock_bind_wild (sockfd family : Z) : M Z :=
  port <~ sock_bind_wild sockfd family ;;
  if port <? 0 then err_sys c["sock_bind_wild error"] [] else mpure port.

Definition family_to_level (family : Z) : Z :=
  if family =? AF_INET then IPPROTO_IP
  else if (family =? AF_INET6) && ipv6 then IPPROTO_IPV6
  else -1.

Definition Family_to_level (family : Z) : M Z :=
  let rc := family_to_level family in
  if rc <? 0 then err_sys c["family_to_level error"] [] else mpure rc.

Definition sockfd_to_family (sockfd : Z) : M Z :=
  r <~ sys (sys_getsockname sockfd) ;;
  if rv r <? 0 then mpure (-1)
  else mpure (match rsa r with Some sa => sa_family sa | None => AF_UNSPEC end).

Definition Sockfd_to_family (sockfd : Z) : M Z :=
  rc <~ sockfd_to_family sockfd ;;
  if rc <? 0 then err_sys c["sockfd_to_family error"] [] else mpure rc.

(** ** Time, signals, select *)

(** [struct timeval] is the pair of its seconds and microseconds. *)
Definition tv_sub (out inp : Z * Z) : Z * Z :=
  let '(sec, usec) := out in
  let usec := usec - inp.2 in
  let '(sec, usec) := if usec <? 0 then (sec - 1, usec + 1000000) else (sec, usec) in
  (sec - inp.1, usec).

Definition HOST_NOT_FOUND : Z := 1.
Definition TRY_AGAIN : Z := 2.
Definition NO_RECOVERY : Z := 3.
Definition NO_DATA : Z := 4.

Definition hstrerror (err : Z) : cstring :=
  if err =? 0 then c["no error"]
  else if err =? HOST_NOT_FOUND then c["Unknown host"]
  else if err =? TRY_AGAIN then c["Hostname lookup failure"]
  else if err =? NO_RECOVERY then c["Unknown server error"]
  else if err =? NO_DATA then c["No address associated with name"]
  else c["unknown error"].

(** [ctime] of the C library is an argument: ["Fri Sep 13 00:00:00 1986\n"]. *)
Definition gf_time (ctime : Z -> cstring) (str : list Z) : M (list Z) :=
  r <~ sys sys_gettimeofday ;;
  if rv r <? 0 then err_sys c["gettimeofday error"] [] else
  match rints r with
  | [tv_sec; tv_usec] =>
      str <~ checked (put_text str 0 (drop 11 (ctime tv_sec))) ;;
      checked (snprintf str 8 22 (c["."] ++ pad_left 48 6 (print_d tv_usec)))
  | _ => undefined
  end.

(** [SA_INTERRUPT] is not defined on the hosts that have [SA_RESTART].  The answer of
    [sigaction] holds the old handler. *)
Definition signal (signo func : Z) : M Z :=
  m <~ sys sys_sigemptyset ;;
  let sa_flags := if signo =? SIGALRM then 0 else Z.lor 0 SA_RESTART in
  r <~ sys (sys_sigaction signo func (hd 0 (rints m)) sa_flags) ;;
  if rv r <? 0 then mpure SIG_ERR else mpure (hd 0 (rints r)).

Definition Signal (signo func : Z) : M Z :=
  sigfunc <~ signal signo func ;;
  if sigfunc =? SIG_ERR then err_sys c["signal error"] [] else mpure sigfunc.

Definition signal_intr (signo func : Z) : M Z :=
  m <~ sys sys_sigemptyset ;;
  r <~ sys (sys_sigaction signo func (hd 0 (rints m)) 0) ;;
  if rv r <? 0 then mpure SIG_ERR else mpure (hd 0 (rints r)).

Definition Signal_intr (signo func : Z) : M Z :=
  sigfunc <~ signal_intr signo func ;;
  if sigfunc =? SIG_ERR then err_sys c["signal_intr error"] [] else mpure sigfunc.

(** [ts] holds seconds and nanoseconds; C division truncates. *)
Definition pselect (nfds : Z) (rset wset xset : list Z) (ts : option (Z * Z))
    (sigmask : option Z) : M sysret :=
  let tv := (fun t : Z * Z => (t.1, Z.quot t.2 1000)) <$> ts in
  o <~ sys (sys_sigprocmask SIG_SETMASK sigmask) ;;
  n <~ sys (sys_select nfds rset wset xset tv) ;;
  sys (sys_sigprocmask SIG_SETMASK (Some (hd 0 (rints o)))) ;;;
  mpure n.

Definition sockatmark (fd : Z) : M Z :=
  r <~ sys (sys_ioctl fd SIOCATMARK 0) ;;
  if rv r <? 0 then mpure (-1)
  else mpure (if negb (hd 0 (rints r) =? 0) then 1 else 0).

End SockUtil.
