(* ===== verification/SockClaims.v ===== *)
(** Correctness of the socket-address utilities. *)

From S2P Require Import Prelude CText Sys Error InetAddr PtonFacts Inet6Facts.
From S2P Require Import Inet6Facts Cksum SockUtil.
Import Ntop.

(** A port field: two bytes. *)
Abbreviation port_ok p := (length p = 2%nat /\ bytes_ok p).

Lemma ntohs_range p : port_ok p -> 0 <= ntohs p < 65536.
Proof.
  intros [Hl Hb]. destruct p as [|h [|l [|]]]; try done. rewrite !Forall_cons in Hb.
  unfold ntohs. rewrite Z.shiftl_mul_pow2 by lia.
  destruct (decide (Z.lor (h * 2 ^ 8) l = 0)) as [->|Hne]; [lia|].
  split; [apply Z.lor_nonneg; lia|].
  change 65536 with (2 ^ 16). apply Z.log2_lt_pow2.
  - pose proof (proj2 (Z.lor_nonneg (h * 2 ^ 8) l) ltac:(lia)). lia.
  - rewrite Z.log2_lor by lia.
    assert (Z.log2 (h * 2 ^ 8) <= Z.log2 65535) by (apply Z.log2_le_mono; lia).
    assert (Z.log2 l <= Z.log2 65535) by (apply Z.log2_le_mono; lia).
    change (Z.log2 65535) with 15 in *. lia.
Qed.

Lemma ntohs_htons n : 0 <= n < 65536 -> ntohs (htons n) = n.
Proof.
  intros Hn. unfold htons, ntohs, wrap. change (2 ^ 16) with 65536. rewrite Z.mod_small by done.
  change 255 with (Z.ones 8). rewrite Z.land_ones by lia. apply Z.bits_inj'. intros i Hi.
  rewrite Z.lor_spec. destruct (Z.ltb_spec i 8).
  - rewrite Z.shiftl_spec_low, Z.mod_pow2_bits_low by lia. done.
  - rewrite Z.shiftl_spec, Z.shiftr_spec, Z.mod_pow2_bits_high by lia.
    rewrite orb_false_r. f_equal. lia.
Qed.

(** The printed port: one to five digits. *)
Definition port_text (p : Z) : cstring := print_u 10 p.

Lemma port_text_length p : 0 <= p < 65536 -> (length (port_text p) <= 5)%nat.
Proof. intros. apply (print_u_length 10 p 4); [lia|]. change (10 ^ Z.of_nat 5) with 100000. lia. Qed.

Lemma print_d_nonneg p : 0 <= p -> print_d p = print_u 10 p.
Proof. intros. unfold print_d. destruct (Z.ltb_spec p 0); [lia|done]. Qed.

(** The port string always fits its buffer of eight characters. *)
Lemma portstr_fits pre p :
  (length pre <= 2)%nat -> 0 <= p < 65536 -> nul_free pre ->
  let t := pre ++ print_d p in
  snprintf_text 8 t = t /\ (length t <= 7)%nat /\ nul_free t.
Proof.
  intros Hpre Hp Hn. cbv zeta. rewrite print_d_nonneg by lia.
  pose proof (port_text_length p Hp) as Hl. unfold port_text in Hl.
  split_and!.
  - unfold snprintf_text. apply take_ge. rewrite length_app. change (Z.to_nat (8 - 1)) with 7%nat. lia.
  - rewrite length_app. lia.
  - apply Forall_app. split; [done|by apply digit_char_nonzero].
Qed.

Section Claims.
Context {os : OS} {SE : Strerror} {CF : Config}.

Lemma ntop_into_ok family addr str off size t :
  (off <= length str)%nat -> nul_free t -> (off + length t < length str)%nat ->
  Ntop.inet_ntop family addr (drop off str) size = inr <$> put_text (drop off str) 0 t ->
  exists str', ntop_into family addr str off size = mpure (Some str') /\
    length str' = length str /\ cstring_at str' off = t /\ take off str' = take off str.
Proof.
  intros Ho Hn Hl E. unfold ntop_into. rewrite E, put_text_ok by llia.
  cbn [fmap option_fmap option_map checked]. rewrite then_pure. eexists. split; [done|].
  split_and!; [llia| |].
  - apply (cstring_at_text (take off str)); [done|llia].
  - rewrite take_app_le by llia. rewrite take_take. f_equal. lia.
Qed.

Lemma strcat_checked buf t u :
  cstring_at buf 0 = t -> nul_free u -> (length t + length u < length buf)%nat ->
  exists buf', checked (strcat buf u) = mpure buf' /\
    length buf' = length buf /\ cstring_at buf' 0 = t ++ u.
Proof.
  intros Hc Hu Hl. unfold strcat. rewrite Hc.
  destruct (append_text buf t u Hc Hu Hl) as (buf' & -> & ?). by exists buf'.
Qed.

Lemma cstring_at_step buf c off :
  (0 < length buf)%nat -> take 1 buf = [c] -> c <> 0 -> off = 1%nat ->
  cstring_at buf 0 = c :: cstring_at buf off.
Proof.
  intros Hl Ht Hc ->. destruct buf as [|x buf]; [done|]. cbn in Ht. injection Ht as ->.
  unfold cstring_at. cbn. by destruct (Z.eqb_spec c 0).
Qed.

(** [sock_ntop] formats an IPv4 socket address as the dotted quad, followed by a colon and
    the port when the port is not zero; the port is never cut and the static buffer of 128
    characters is never overrun. *)
Theorem sock_ntop_inet p a b c d salen str s :
  port_ok p -> bytes_ok [a; b; c; d] -> length str = 128%nat ->
  exists str', sock_ntop str (SockIn p [a; b; c; d]) salen s = (Val (str', Some 0%nat), s) /\
    length str' = 128%nat /\
    cstring_at str' 0 = quad_text a b c d ++
      (if ntohs p =? 0 then [] else c[":"] ++ port_text (ntohs p)).
Proof.
  intros Hp Hb Hs. unfold sock_ntop.
  pose proof (quad_text_length a b c d Hb) as Hq.
  destruct (ntop_into_ok AF_INET [a; b; c; d] str 0 128 (quad_text a b c d))
    as (str1 & -> & Hl1 & Hc1 & _); [lia|apply quad_text_nul_free|lia| |].
  { unfold Ntop.inet_ntop. cbn [AF_INET Z.eqb Pos.eqb]. rewrite drop_0, inet_ntop4_spec by done.
    by destruct (Z.gtb_spec (Z.of_nat (length (quad_text a b c d))) 128); [lia|]. }
  rewrite then_pure. pose proof (ntohs_range p Hp) as Hr.
  destruct (ntohs p =? 0); cbn [negb].
  { exists str1. rewrite Hl1, Hs, app_nil_r. done. }
  destruct (portstr_fits c[":"] (ntohs p)) as (-> & Hl & Hn);
    [cbn; lia|done|by repeat constructor|].
  destruct (strcat_checked str1 (quad_text a b c d) (c[":"] ++ print_d (ntohs p)))
    as (str2 & -> & Hl2 & Hc2); [done|done|lia|].
  rewrite then_pure. exists str2. split_and!; [done|lia|].
  rewrite Hc2. by rewrite print_d_nonneg by lia.
Qed.

(** [sock_ntop] formats an IPv6 socket address as text that denotes the address: the
    presentation form alone when the port is zero, and otherwise in brackets, followed by a
    colon and the port; [inet_pton6] reads the presentation form back to the address. *)
Theorem sock_ntop_inet6 p addr flow scope salen str out s :
  ipv6 = true -> port_ok p -> length addr = 16%nat -> bytes_ok addr -> length str = 128%nat ->
  length out = 16%nat ->
  exists str' off t,
    sock_ntop str (SockIn6 p addr flow scope) salen s = (Val (str', Some off), s) /\
    length str' = 128%nat /\ Pton.inet_pton6 t out = Some (1, addr) /\
    cstring_at str' off =
      if ntohs p =? 0 then t else c["["] ++ t ++ c["]:"] ++ port_text (ntohs p).
Proof.
  intros H6 Hp Hla Hba Hs Ho. unfold sock_ntop. rewrite H6. cbn [negb].
  destruct (inet_ntop6_shape addr Hla Hba) as (ws & t & Hws & Hok & H8 & Hsh & Hn & Ht & E).
  unfold store. rewrite decide_True by lia. cbn [checked]. rewrite then_pure.
  set (str0 := <[0%nat := 91]> str).
  assert (Hs0 : length str0 = 128%nat) by (unfold str0; by rewrite length_insert).
  assert (Ht0 : take 1 str0 = [91]) by (unfold str0; destruct str; done).
  destruct (ntop_into_ok AF_INET6 addr str0 1 127 t) as (str1 & -> & Hl1 & Hc1 & Hk);
    [lia|done|lia| |].
  { unfold Ntop.inet_ntop. cbn [AF_INET AF_INET6 Z.eqb Pos.eqb]. rewrite E.
    by destruct (Z.gtb_spec (Z.of_nat (S (length t))) 127); [lia|]. }
  rewrite then_pure. pose proof (ntohs_range p Hp) as Hr.
  assert (Hpton : Pton.inet_pton6 t out = Some (1, addr))
    by (rewrite <- Hws; by apply inet_pton6_shape).
  destruct (ntohs p =? 0); cbn [negb].
  { exists str1, 1%nat, t. rewrite Hl1, Hs0. done. }
  destruct (portstr_fits c["]:"] (ntohs p)) as (-> & Hl & Hn7);
    [cbn; lia|done|by repeat constructor|].
  assert (Hc0 : cstring_at str1 0 = c["["] ++ t).
  { rewrite (cstring_at_step str1 91 1), Hc1; [done|lia|by rewrite Hk|done|done]. }
  destruct (strcat_checked str1 (c["["] ++ t) (c["]:"] ++ print_d (ntohs p)))
    as (str2 & -> & Hl2 & Hc2); [done|done|change (length (c["["] ++ t)) with (S (length t)); lia|].
  rewrite then_pure. exists str2, 0%nat, t. split_and!; [done|lia|done|].
  rewrite Hc2, <- app_assoc. by rewrite print_d_nonneg by lia.
Qed.

Lemma memcmp_zero a b : memcmp a b = 0 <-> a = b.
Proof.
  revert b. induction a as [|x a IH]; intros [|y b]; cbn; try done.
  destruct (Z.eqb_spec x y) as [->|Hne].
  - rewrite IH. split; [by intros ->|by intros [= ->]].
  - destruct (x <? y); split; try done; congruence.
Qed.

(** The part of a socket address that [sock_cmp_addr] compares. *)
Definition host_part (sa : sockaddr) : option (Z * list Z) :=
  match sa with
  | SockIn _ a => Some (AF_INET, a)
  | SockIn6 _ a _ _ => if ipv6 then Some (AF_INET6, a) else None
  | SockUn p => Some (AF_LOCAL, p)
  | SockDl _ _ _ _ | SockOther _ => None
  end.

(** [sock_cmp_addr] decides equality of the host parts: it returns 0 exactly when both
    addresses are of the same supported family and have the same address bytes (or the same
    pathname), whatever their ports. *)
Theorem sock_cmp_addr_zero sa1 sa2 :
  sock_cmp_addr sa1 sa2 = 0 <->
  exists h, host_part sa1 = Some h /\ host_part sa2 = Some h.
Proof.
  unfold sock_cmp_addr. destruct (Z.eqb_spec (sa_family sa1) (sa_family sa2)) as [Hf|Hf]; cbn [negb].
  - destruct sa1, sa2; cbn in *; try done; try (split; [done|by intros (? & ? & ?)]).
    + rewrite memcmp_zero. split; [intros ->; by eexists|intros (? & ? & ?); congruence].
    + destruct ipv6; [|split; [done|by intros (? & ? & ?)]].
      rewrite memcmp_zero. split; [intros ->; by eexists|intros (? & ? & ?); congruence].
    + rewrite memcmp_zero. split; [intros ->; by eexists|intros (? & ? & ?); congruence].
  - split; [done|]. intros (h & H1 & H2). exfalso. apply Hf.
    destruct sa1, sa2; cbn in *; repeat case_match; congruence.
Qed.

(** Subtracting times keeps them normalised: for a normalised [out] and [in] (microseconds
    below a million) the result is normalised and denotes the difference, also when a second
    is borrowed and when the difference is negative. *)
Theorem tv_sub_correct out inp :
  0 <= out.2 < 1000000 -> 0 <= inp.2 < 1000000 ->
  let d := tv_sub out inp in
  0 <= d.2 < 1000000 /\
  d.1 * 1000000 + d.2 = (out.1 * 1000000 + out.2) - (inp.1 * 1000000 + inp.2).
Proof.
  destruct out as [s u], inp as [s' u']. cbn. intros. destruct (Z.ltb_spec (u - u') 0); cbn; lia.
Qed.

Lemma port_field_bytes16 w : 0 <= w < 65536 -> port_field (bytes16 little_endian w) = w.
Proof.
  intros Hw. unfold port_field, bytes16, word16.
  destruct little_endian; pose proof (Z.div_mod w 256 ltac:(lia)); lia.
Qed.

(** A port written with [sock_set_port] is read back by [sock_get_port], reduced to 16
    bits, on hosts of either byte order; the address is not touched, and addresses of other
    families are left alone. *)
Theorem sock_port_roundtrip sa port :
  let sa' := sock_set_port sa port in
  match sa with
  | SockIn _ a => sock_get_port sa' = u16 port /\ host_part sa' = host_part sa
  | SockIn6 _ _ _ _ =>
      if ipv6 then sock_get_port sa' = u16 port /\ host_part sa' = host_part sa else sa' = sa
  | _ => sa' = sa /\ sock_get_port sa' = -1
  end.
Proof.
  assert (0 <= u16 port < 65536) by (apply Z.mod_pos_bound; lia).
  cbv zeta. unfold sock_set_port, sock_get_port, host_part.
  destruct sa; try done; [|destruct ipv6; [|done]]; by rewrite port_field_bytes16.
Qed.

End Claims.

#[local] Instance bsd_config : Config :=
  {| ipv6 := true; have_sockaddr_dl := true; little_endian := true |}.
#[local] Existing Instance numeric_strerror.

Lemma sock_ntop_inet_witness :
  exists str', sock_ntop (replicate 128 0) (SockIn (htons 80) [192; 168; 0; 1]) 16 init =
      (Val (str', Some 0%nat), init) /\
    length str' = 128%nat /\ cstring_at str' 0 = c["192.168.0.1:80"].
Proof.
  apply (sock_ntop_inet (htons 80) 192 168 0 1 16 (replicate 128 0) init).
  - split; [reflexivity|by apply bytes_ok_bool].
  - by apply bytes_ok_bool.
  - reflexivity.
Defined.

Lemma sock_ntop_inet6_witness :
  exists str' off t,
    sock_ntop (replicate 128 0) (SockIn6 (htons 443) (replicate 15 0 ++ [1]) 0 0) 28 init =
      (Val (str', Some off), init) /\
    length str' = 128%nat /\
    Pton.inet_pton6 t (replicate 16 0) = Some (1, replicate 15 0 ++ [1]) /\
    cstring_at str' off =
      if ntohs (htons 443) =? 0 then t
      else c["["] ++ t ++ c["]:"] ++ port_text (ntohs (htons 443)).
Proof.
  apply (sock_ntop_inet6 (htons 443) (replicate 15 0 ++ [1]) 0 0 28 (replicate 128 0)
           (replicate 16 0) init); try reflexivity.
  - split; [reflexivity|by apply bytes_ok_bool].
  - by apply bytes_ok_bool.
Defined.

Lemma tv_sub_correct_witness :
  let d := tv_sub (5, 100000) (3, 900000) in
  0 <= d.2 < 1000000 /\ d.1 * 1000000 + d.2 = (5 * 1000000 + 100000) - (3 * 1000000 + 900000).
Proof. apply (tv_sub_correct (5, 100000) (3, 900000)); cbn; lia. Defined.

(** The name in a link-level address is not terminated, and the width in [%*s] does not limit
    what is printed: the hardware address that follows the name in [sdl_data] is printed with
    it. *)
Lemma sock_ntop_link_name :
  match sock_ntop_host (replicate 128 0) (SockDl 1 6 c["eth0"] [65; 66; 67]) 20 init with
  | (Val (str', Some off), _) => cstring_at str' off = c["eth0ABC"]
  | _ => False
  end.
Proof. vm_compute. reflexivity. Qed.

(** The two comparison functions report equality differently: 0 for equal addresses, 1 for
    equal ports. *)
Lemma sock_cmp_conventions sa p a :
  sa = SockIn p a -> sock_cmp_addr sa sa = 0 /\ sock_cmp_port sa sa = 1.
Proof.
  intros ->. cbn. split; [by apply memcmp_zero|]. by rewrite decide_True.
Qed.
