(* ===== verification/Rtt.v ===== *)
(** Reliable UDP: the round-trip time estimator ([lib/rtt.c], [lib/unprtt.h]) and the
    request-reply client that retransmits ([rtt/dg_send_recv.c], [rtt/dg_cli.c]).

    A [float] is an IEEE number of 24 bits, a [double] one of 53, with the rounding of the
    standard; mixed expressions are computed as C does, in the type the operands are converted
    to.  The alarm signal ends the wait for a reply through [siglongjmp]: since its handler
    does not return, an answer [EINTR] of [recvmsg] stands for it. *)

From Stdlib Require Import SpecFloat.
From S2P Require Import Prelude CText Sys Error Wrappers SockUtil RobustIO.

(** * Floating-point numbers *)

Definition f32_round (m e : Z) (s : bool) : spec_float := binary_normalize 24 128 m e s.
Definition f64_round (m e : Z) (s : bool) : spec_float := binary_normalize 53 1024 m e s.

Definition f32_of_Z (n : Z) : spec_float := f32_round n 0 false.
Definition f64_of_Z (n : Z) : spec_float := f64_round n 0 false.

(** Conversions between the two types. *)
Definition convert (round : Z -> Z -> bool -> spec_float) (x : spec_float) : spec_float :=
  match x with
  | S754_finite s m e => round (if s then Z.neg m else Z.pos m) e s
  | _ => x
  end.
Definition to_f64 : spec_float -> spec_float := convert f64_round.
Definition to_f32 : spec_float -> spec_float := convert f32_round.

Definition f32_sub := SFsub 24 128.
Definition f32_mul := SFmul 24 128.
Definition f64_add := SFadd 53 1024.
Definition f64_sub := SFsub 53 1024.
Definition f64_mul := SFmul 53 1024.
Definition f64_div := SFdiv 53 1024.

Definition flt (x y : spec_float) : bool :=
  match SFcompare x y with Some Lt => true | _ => false end.

(** 0.5, 0.75 *)
Definition half : spec_float := f64_round 1 (-1) false.
Definition three_quarters : spec_float := f64_round 3 (-2) false.

(** [(int) x]: truncation, undefined outside the range of [int]. *)
Definition to_int (x : spec_float) : option Z :=
  match x with
  | S754_zero _ => Some 0
  | S754_finite s m e =>
      let a := if e <? 0 then Z.pos m / 2 ^ (- e) else Z.pos m * 2 ^ e in
      let v := if s then - a else a in
      if (- 2 ^ 31 <=? v) && (v <? 2 ^ 31) then Some v else None
  | _ => None
  end.

(** [%.3f]: the exact value rounded to thousandths, ties to even. *)
Definition format_3f (x : spec_float) : cstring :=
  match x with
  | S754_zero s => (if s then c["-"] else []) ++ c["0.000"]
  | S754_infinity s => (if s then c["-"] else []) ++ c["inf"]
  | S754_nan => c["nan"]
  | S754_finite s m e =>
      let num := Z.pos m * 1000 in
      let q := if e <? 0 then num / 2 ^ (- e) else num * 2 ^ e in
      let r := if e <? 0 then num mod 2 ^ (- e) else 0 in
      let d := if e <? 0 then 2 ^ (- e) else 1 in
      let n := if (d <? 2 * r) || ((2 * r =? d) && Z.odd q) then q + 1 else q in
      (if s then c["-"] else []) ++ print_u 10 (n / 1000) ++ [46] ++
        pad_left 48 3 (print_u 10 (n mod 1000))
  end.

(** * unprtt.h *)

Record rtt_info : Type := RttInfo {
  rtt_rtt : spec_float;      (* most recent measured RTT, in seconds *)
  rtt_srtt : spec_float;     (* smoothed RTT estimator, in seconds *)
  rtt_rttvar : spec_float;   (* smoothed mean deviation, in seconds *)
  rtt_rto : spec_float;      (* current RTO to use, in seconds *)
  rtt_nrexmt : Z;            (* # times retransmitted: 0, 1, 2, ... *)
  rtt_base : Z;              (* # sec since 1/1/1970 at start *)
}.

Definition RTT_RXTMIN : Z := 2.
Definition RTT_RXTMAX : Z := 60.
Definition RTT_MAXNREXMT : Z := 3.

(** * rtt.c *)

Definition RTT_RTOCALC (srtt rttvar : spec_float) : spec_float :=
  f64_add (to_f64 srtt) (f64_mul (f64_of_Z 4) (to_f64 rttvar)).

Definition rtt_minmax (rto : spec_float) : spec_float :=
  if flt rto (f32_of_Z RTT_RXTMIN) then f32_of_Z RTT_RXTMIN
  else if flt (f32_of_Z RTT_RXTMAX) rto then f32_of_Z RTT_RXTMAX
  else rto.

Definition rtt_newpack (p : rtt_info) : rtt_info :=
  RttInfo (rtt_rtt p) (rtt_srtt p) (rtt_rttvar p) (rtt_rto p) 0 (rtt_base p).

(** [(int) (rtt_rto + 0.5)]: round float to int. *)
Definition rtt_start (p : rtt_info) : option Z := to_int (f64_add (to_f64 (rtt_rto p)) half).

Definition rtt_stop (p : rtt_info) (ms : Z) : rtt_info :=
  let rtt := to_f32 (f64_div (f64_of_Z ms) (f64_of_Z 1000)) in   (* measured RTT in seconds *)
  let delta := to_f64 (f32_sub rtt (rtt_srtt p)) in
  let srtt := to_f32 (f64_add (to_f64 (rtt_srtt p)) (f64_div delta (f64_of_Z 8))) in   (* g = 1/8 *)
  let delta := if flt delta (S754_zero false) then SFopp delta else delta in           (* |delta| *)
  let rttvar := to_f32 (f64_add (to_f64 (rtt_rttvar p))
                  (f64_div (f64_sub delta (to_f64 (rtt_rttvar p))) (f64_of_Z 4))) in   (* h = 1/4 *)
  RttInfo rtt srtt rttvar (rtt_minmax (to_f32 (RTT_RTOCALC srtt rttvar))) (rtt_nrexmt p) (rtt_base p).

(** A timeout has occurred: -1 if it's time to give up, else 0. *)
Definition rtt_timeout (p : rtt_info) : Z * rtt_info :=
  let p' := RttInfo (rtt_rtt p) (rtt_srtt p) (rtt_rttvar p) (f32_mul (rtt_rto p) (f32_of_Z 2))
              (rtt_nrexmt p + 1) (rtt_base p) in
  (if rtt_nrexmt p' >? RTT_MAXNREXMT then -1 else 0, p').

Section Rtt.
Context {os : OS} {SE : Strerror}.

Definition rtt_init (p : rtt_info) : M rtt_info :=
  tv <~ Gettimeofday ;;
  let srtt := S754_zero false in
  let rttvar := to_f32 three_quarters in
  mpure (RttInfo (S754_zero false) srtt rttvar (rtt_minmax (to_f32 (RTT_RTOCALC srtt rttvar)))
           (rtt_nrexmt p) (u32 (hd 0 tv))).

(** The current timestamp: 32-bit milliseconds since [rtt_init]. *)
Definition rtt_ts (p : rtt_info) : M Z :=
  tv <~ Gettimeofday ;;
  mpure (u32 ((hd 0 tv - rtt_base p) * 1000 + Z.quot (hd 0 (tl tv)) 1000)).

Definition rtt_debug (rtt_d_flag : Z) (p : rtt_info) : M unit :=
  if rtt_d_flag =? 0 then mpure tt
  else
    sys (sys_fputs (c["rtt = "] ++ format_3f (rtt_rtt p) ++ c[", srtt = "] ++ format_3f (rtt_srtt p) ++
      c[", rttvar = "] ++ format_3f (rtt_rttvar p) ++ c[", rto = "] ++ format_3f (rtt_rto p) ++ [10]) stderr) ;;;
    sys (sys_fflush stderr) ;;; mpure tt.

(** * dg_send_recv.c *)

(** The static variables: the estimator, the two message headers (sequence number and
    timestamp, as the bytes in memory), and the debug flag. *)
Record dg_static : Type := DgStatic {
  rttinfo : rtt_info;
  rttinit : bool;
  rtt_d_flag : Z;
  send_seq : Z;
  send_ts : Z;
  recvhdr : list Z;
}.

(** The byte order of the host. *)
Context (little : bool).

Definition bytes32 (w : Z) : list Z :=
  let l := [w mod 256; w / 256 mod 256; w / 65536 mod 256; w / 16777216] in
  if little then l else rev l.

Definition word32 (b : list Z) : Z :=
  match (if little then b else rev b) with
  | [b0; b1; b2; b3] => b0 + 256 * b1 + 65536 * b2 + 16777216 * b3
  | _ => 0
  end.

Definition recv_seq (hdr : list Z) : Z := word32 (take 4 hdr).
Definition recv_ts (hdr : list Z) : Z := word32 (drop 4 hdr).

(** [fprintf (stderr, "send %4d: ", ...)] and the like. *)
Definition debug_seq (before after : cstring) (seq : Z) : M unit :=
  sys (sys_fputs (before ++ pad_left 32 4 (print_d (s32 seq)) ++ after) stderr) ;;; mpure tt.

(** How the wait for a reply ends: with the size of a datagram, or by the alarm. *)
Inductive waited : Type := Reply (n : Z) | Alarm.

Definition SIZEOF_HDR : Z := 8.

(** The [do ... while] loop; the received header and data afterwards.  [fuel] bounds the
    datagrams that are not the reply. *)
Fixpoint recv_loop (fuel : nat) (fd seq : Z) (hdr inbuff : list Z) (inbytes : Z)
    : M (waited * list Z * list Z) :=
  match fuel with
  | O => no_fuel
  | S f =>
      r <~ sys (sys_recvmsg fd [SIZEOF_HDR; inbytes] 0 0) ;;
      e <~ get_errno ;;
      if (rv r <? 0) && (e =? EINTR) then mpure (Alarm, hdr, inbuff)
      else if rv r <? 0 then err_sys c["recvmsg error"] []
      else
        hdr <~ checked (memcpy hdr 0 (take 8 (rbytes r))) ;;
        inbuff <~ checked (memcpy inbuff 0 (drop 8 (rbytes r))) ;;
        debug_seq c["recv "] [10] (recv_seq hdr) ;;;
        if (u64 (rv r) <? SIZEOF_HDR) || negb (recv_seq hdr =? seq)
        then recv_loop f fd seq hdr inbuff inbytes
        else mpure (Reply (rv r), hdr, inbuff)
  end.

(** From [sendagain] on; [tries] bounds the transmissions. *)
Fixpoint send_again (tries fuel : nat) (fd : Z) (outbuff inbuff : list Z) (inbytes : Z)
    (destaddr : sockaddr) (v : dg_static) : M (Z * list Z * dg_static) :=
  match tries with
  | O => no_fuel
  | S t =>
      debug_seq c["send "] c[": "] (send_seq v) ;;;
      ts <~ rtt_ts (rttinfo v) ;;
      Sendmsg fd (Some destaddr) [bytes32 (send_seq v) ++ bytes32 ts; outbuff] [] 0 ;;;
      secs <~ checked (rtt_start (rttinfo v)) ;;
      sys (sys_alarm secs) ;;;                    (* calc timeout value & start timer *)
      rtt_debug (rtt_d_flag v) (rttinfo v) ;;;
      w <~ recv_loop fuel fd (send_seq v) (recvhdr v) inbuff inbytes ;;
      let '(w, hdr, inbuff) := w in
      match w with
      | Alarm =>
          let '(rc, info) := rtt_timeout (rttinfo v) in
          if rc <? 0 then
            err_msg c["dg_send_recv: no response from server, giving up"] [] ;;;
            set_errno ETIMEDOUT ;;;               (* reinit in case we're called again *)
            mpure (-1, inbuff, DgStatic info false (rtt_d_flag v) (send_seq v) ts hdr)
          else
            err_msg c["dg_send_recv: timeout, retransmitting"] [] ;;;
            send_again t fuel fd outbuff inbuff inbytes destaddr
              (DgStatic info (rttinit v) (rtt_d_flag v) (send_seq v) ts hdr)
      | Reply n =>
          sys (sys_alarm 0) ;;;                   (* stop SIGALRM timer *)
          now <~ rtt_ts (rttinfo v) ;;
          let info := rtt_stop (rttinfo v) (u32 (now - recv_ts hdr)) in
          mpure (n - SIZEOF_HDR, inbuff, DgStatic info (rttinit v) (rtt_d_flag v) (send_seq v) ts hdr)
      end
  end.

(** The result, [inbuff] and the static variables afterwards; [alrm] is the address of the
    handler.  [RTT_MAXNREXMT + 1] transmissions are all that are made. *)
Definition dg_send_recv (fuel : nat) (alrm fd : Z) (outbuff inbuff : list Z) (inbytes : Z)
    (destaddr : sockaddr) (v : dg_static) : M (Z * list Z * dg_static) :=
  v <~ (if rttinit v then mpure v
        else info <~ rtt_init (rttinfo v) ;;
             mpure (DgStatic info true 1 (send_seq v) (send_ts v) (recvhdr v))) ;;
  let seq := u32 (send_seq v + 1) in
  Signal SIGALRM alrm ;;;
  send_again (Z.to_nat (RTT_MAXNREXMT + 1)) fuel fd outbuff inbuff inbytes destaddr
    (DgStatic (rtt_newpack (rttinfo v)) (rttinit v) (rtt_d_flag v) seq (send_ts v) (recvhdr v)).

Definition Dg_send_recv (fuel : nat) (alrm fd : Z) (outbuff inbuff : list Z) (inbytes : Z)
    (destaddr : sockaddr) (v : dg_static) : M (Z * list Z * dg_static) :=
  r <~ dg_send_recv fuel alrm fd outbuff inbuff inbytes destaddr v ;;
  if r.1.1 <? 0 then err_quit c["dg_send_recv error"] [] else mpure r.

(** The client loop of [rtt/dg_cli.c]. *)
Fixpoint rtt_dg_cli (lines fuel : nat) (alrm fp sockfd : Z) (servaddr : sockaddr) (v : dg_static)
    : M dg_static :=
  match lines with
  | O => no_fuel
  | S k =>
      sendline <~ Fgets MAXLINE fp ;;
      match sendline with
      | None => mpure v
      | Some line =>
          r <~ Dg_send_recv fuel alrm sockfd line (replicate (Z.to_nat (MAXLINE + 1)) 0) MAXLINE servaddr v ;;
          let '(n, recvline, v) := r in
          recvline <~ checked (store recvline (Z.to_nat n) 0) ;;      (* null terminate *)
          Fputs (cstring_at recvline 0) stdout ;;;
          rtt_dg_cli k fuel alrm fp sockfd servaddr v
      end
  end.

End Rtt.
