(* ===== verification/Packet.v ===== *)
(** Packets that a program receives from the network and takes apart: fields at offsets of a
    buffer, with the checks that an access stays inside it; and the text output of the programs
    that do so.

    [struct ip] has the header length, in words of four bytes, in the low half of byte 0, [ip_ttl]
    at 8, [ip_p] at 9, [ip_src] at 12 and [ip_dst] at 16; [struct ip6_hdr] has 40 bytes, [ip6_nxt]
    at 6, [ip6_src] at 8 and [ip6_dst] at 24; an ICMP header has its type at 0, its code at 1, the
    checksum at 2, the identifier at 4, the sequence number at 6 and its data at 8; a UDP header
    has its ports at 0 and 2. *)

From S2P Require Import Prelude CText Sys Traces Error Wrappers InetAddr PtonFacts Inet6Facts.
From S2P Require Import Cksum SockUtil SockClaims Rtt.

Definition IPPROTO_ICMP : Z := 1.
Definition IPPROTO_UDP : Z := 17.
Definition IPPROTO_ICMPV6 : Z := 58.

Definition ICMP_ECHOREPLY : Z := 0.
Definition ICMP_UNREACH : Z := 3.
Definition ICMP_SOURCEQUENCH : Z := 4.
Definition ICMP_ECHO : Z := 8.
Definition ICMP_TIMXCEED : Z := 11.
Definition ICMP_TIMXCEED_INTRANS : Z := 0.
Definition ICMP_UNREACH_PORT : Z := 3.
Definition ICMP_UNREACH_NEEDFRAG : Z := 4.
Definition ICMP6_DST_UNREACH : Z := 1.
Definition ICMP6_PACKET_TOO_BIG : Z := 2.
Definition ICMP6_TIME_EXCEEDED : Z := 3.
Definition ICMP6_TIME_EXCEED_TRANSIT : Z := 0.
Definition ICMP6_DST_UNREACH_NOPORT : Z := 4.
Definition ICMP6_ECHO_REQUEST : Z := 128.
Definition ICMP6_ECHO_REPLY : Z := 129.
Definition SIZEOF_IP6 : Z := 40.
Definition ICMP6_FILTER : Z := 1.

(** [n] bytes from offset [off] on, which must be inside the buffer. *)
Definition load (buf : list Z) (off n : nat) : option (list Z) :=
  if decide (off + n <= length buf)%nat then Some (take n (drop off buf)) else None.

(** [ip->ip_hl << 2] of the IPv4 header at [off]. *)
Definition ip_hlen (buf : list Z) (off : nat) : option Z :=
  b ← buf !! off; Some (Z.shiftl (Z.land b 15) 2).

(** [printf] of a text without NULs. *)
Definition printf {os : OS} (fmt : cstring) (args : list arg) : M unit :=
  text <~ checked (vformat fmt args) ;;
  sys (sys_fputs text stdout) ;;; mpure tt.

(** A [long] in memory. *)
Definition bytes64 (little : bool) (w : Z) : list Z :=
  let l := (fun k => Z.shiftr (wrap 64 w) (8 * Z.of_nat k) mod 256) <$> seq 0 8 in
  if little then l else rev l.

(** The interval in milliseconds, [tv_sec * 1000.0 + tv_usec / 1000.0] in a [double], printed with [%.3f]. *)
Definition ms_text (tv : Z * Z) : cstring :=
  format_3f (f64_add (f64_mul (f64_of_Z tv.1) (f64_of_Z 1000)) (f64_div (f64_of_Z tv.2) (f64_of_Z 1000))).

Example ms_text_samples :
  ms_text (0, 7) = c["0.007"] /\ ms_text (1, 250000) = c["1250.000"] /\ ms_text (-1, 999500) = c["-0.500"].
Proof. vm_compute. by split_and!. Qed.

(** * Facts *)

Lemma memcpy_some {A} (buf d : list A) off :
  (off + length d <= length buf)%nat -> exists buf', memcpy buf off d = Some buf' /\ length buf' = length buf.
Proof. intros H. rewrite memcpy_ok by done. eexists. split; [done|llia]. Qed.

Lemma length_bytes64 little w : length (bytes64 little w) = 8%nat.
Proof. unfold bytes64. by destruct little. Qed.

Lemma memcpy_lookup {A} (b d b' : list A) off k :
  memcpy b off d = Some b' ->
  b' !! k = if decide (off <= k < off + length d)%nat then d !! (k - off)%nat else b !! k.
Proof.
  unfold memcpy. case_decide as Hl; [|done]. intros [= <-]. case_decide as Hk.
  - rewrite lookup_app_r by llia. rewrite length_take, Nat.min_l by lia. by rewrite lookup_app_l by lia.
  - destruct (decide (k < off)%nat).
    + rewrite lookup_app_l by llia. by rewrite lookup_take_lt.
    + rewrite lookup_app_r by llia. rewrite length_take, Nat.min_l by lia. rewrite lookup_app_r by lia.
      rewrite lookup_drop. f_equal. lia.
Qed.

(** [n] bytes at [off]. *)
Definition field (b : list Z) (off n : nat) : list Z := take n (drop off b).

Lemma field_lookup b off n k : field b off n !! k = if decide (k < n)%nat then b !! (off + k)%nat else None.
Proof. unfold field. rewrite lookup_take, lookup_drop. done. Qed.

Lemma field_stored b d b' off : memcpy b off d = Some b' -> field b' off (length d) = d.
Proof.
  intros H. apply list_eq. intros k. rewrite field_lookup. case_decide.
  - rewrite (memcpy_lookup _ _ _ _ _ H), decide_True by lia. f_equal. lia.
  - symmetry. apply lookup_ge_None_2. lia.
Qed.

Lemma field_kept b d b' off o n :
  memcpy b off d = Some b' -> (o + n <= off \/ off + length d <= o)%nat -> field b' o n = field b o n.
Proof.
  intros H Hd. apply list_eq. intros k. rewrite !field_lookup. case_decide; [|done].
  by rewrite (memcpy_lookup _ _ _ _ _ H), decide_False by lia.
Qed.

Lemma load_ok buf off n : (off + n <= length buf)%nat -> load buf off n = Some (take n (drop off buf)).
Proof. intros H. unfold load. by rewrite decide_True. Qed.

Lemma ip_hlen_range buf off h : ip_hlen buf off = Some h -> 0 <= h <= 60.
Proof.
  unfold ip_hlen. destruct (buf !! off) as [b|]; [|done]. intros [= <-].
  rewrite Z.shiftl_mul_pow2 by lia. change 15 with (Z.ones 4). rewrite Z.land_ones by lia.
  pose proof (Z.mod_pos_bound b (2 ^ 4)). lia.
Qed.

Lemma ip_hlen_ok buf off : (off < length buf)%nat -> exists h, ip_hlen buf off = Some h /\ 0 <= h <= 60.
Proof.
  intros H. destruct (lookup_lt_is_Some_2 buf off H) as [b Hb].
  assert (E : exists h, ip_hlen buf off = Some h) by (unfold ip_hlen; rewrite Hb; by eexists).
  destruct E as [h E]. exists h. split; [done|by eapply ip_hlen_range].
Qed.

(** The digits of a number. *)
Lemma print_d_nul_free n : nul_free (print_d n).
Proof. unfold print_d. destruct (n <? 0); [constructor; [done|]|]; by apply digit_char_nonzero. Qed.

(** What is read inside the packet does not depend on the rest of the buffer. *)
Lemma load_prefix (p tail : list Z) off n : (off + n <= length p)%nat -> load (p ++ tail) off n = Some (take n (drop off p)).
Proof.
  intros H. rewrite load_ok by llia. f_equal. rewrite drop_app_le, take_app_le by llia. done.
Qed.

Lemma ip_hlen_prefix (p tail : list Z) off : (off < length p)%nat -> ip_hlen (p ++ tail) off = ip_hlen p off.
Proof. intros H. unfold ip_hlen. by rewrite lookup_app_l. Qed.

(** * Packets in a history *)

(** The packets received. *)
Definition packet_of (e : event) : list (list Z) :=
  match e.1 with sys_recvfrom _ _ _ _ => if 0 <=? rv e.2 then [rbytes e.2] else [] | _ => [] end.
Definition packets : list event -> list (list Z) := collect packet_of.

(** A buffer that a packet has been received into. *)
Lemma received_into {A} (buf pkt : list A) :
  (length pkt <= length buf)%nat ->
  memcpy buf 0 pkt = Some (pkt ++ drop (length pkt) buf).
Proof. intros H. by rewrite memcpy_ok. Qed.

(** The addresses that the kernel stores for a packet. *)
Definition host_ok (sa : sockaddr) : Prop :=
  match sa with
  | SockIn _ addr => length addr = 4%nat /\ bytes_ok addr
  | SockIn6 _ addr _ _ => length addr = 16%nat /\ bytes_ok addr
  | _ => False
  end.

(** [recvfrom] delivers at most the bytes asked for, with the address of the sender. *)
Class PacketLaw `{OS} : Prop :=
  packet_law : forall h fd n flags, 0 <= n -> let r := os_answer h (sys_recvfrom fd n flags true) in
    read_ok n r /\ (0 <= rv r -> exists sa, rsa r = Some sa /\ host_ok sa).

(** [gettimeofday] stores seconds and microseconds. *)
Class TimeLaw `{OS} : Prop :=
  time_law : forall h, rv (os_answer h sys_gettimeofday) <> -1 ->
    exists s u, rints (os_answer h sys_gettimeofday) = [s; u].

Section Text.
Context {os : OS} {SE : Strerror} {CF : Config}.

(** The text of an address: a dotted quad, or what [inet_ntop6] makes of it. *)
Definition host_text (sa : sockaddr) : cstring :=
  match sa with
  | SockIn _ [a; b; c; d] => Ntop.quad_text a b c d
  | SockIn6 _ addr _ _ =>
      match Ntop.inet_ntop6 addr (replicate 46 0) 46 with Some (inr b) => cstring_at b 0 | _ => [] end
  | _ => []
  end.

Lemma Sock_ntop_host_text sa salen str s :
  host_ok sa -> length str = 128%nat -> ipv6 = true ->
  exists str', Sock_ntop_host str sa salen s = (Val (str', 0%nat), s) /\ length str' = 128%nat /\ cstring_at str' 0 = host_text sa.
Proof.
  intros Hsa Hs H6. unfold Sock_ntop_host, sock_ntop_host. destruct sa as [p addr|p addr f i| | |]; try done; cbn in Hsa;
    destruct Hsa as [Hl Hb].
  - destruct addr as [|a [|b [|c0 [|d [|]]]]]; try done.
    pose proof (quad_text_length a b c0 d Hb) as Hq.
    destruct (ntop_into_ok AF_INET [a; b; c0; d] str 0 128 (Ntop.quad_text a b c0 d))
      as (str1 & -> & Hl1 & Hc1 & _); [lia|apply quad_text_nul_free|lia| |].
    { unfold Ntop.inet_ntop. cbn [AF_INET Z.eqb Pos.eqb]. rewrite drop_0, inet_ntop4_spec by done.
      by destruct (Z.gtb_spec (Z.of_nat (length (Ntop.quad_text a b c0 d))) 128); [lia|]. }
    rewrite then_pure. exists str1. split; [done|]. split; [lia|done].
  - rewrite H6. cbn [negb].
    destruct (inet_ntop6_shape addr Hl Hb) as (ws & t & _ & _ & _ & _ & Hn & Ht & E).
    destruct (ntop_into_ok AF_INET6 addr str 0 128 t) as (str1 & -> & Hl1 & Hc1 & _); [lia|done|lia| |].
    { unfold Ntop.inet_ntop. cbn [AF_INET AF_INET6 Z.eqb Pos.eqb]. rewrite E.
      by destruct (Z.gtb_spec (Z.of_nat (S (length t))) 128); [lia|]. }
    rewrite then_pure. exists str1. split; [done|]. split; [lia|]. cbn [host_text]. rewrite E, Hc1.
    destruct (Z.gtb_spec (Z.of_nat (S (length t))) 46); [lia|]. rewrite put_text_ok by (rewrite ?length_replicate; lia).
    cbn [fmap option_fmap option_map]. symmetry. by apply (cstring_at_text []).
Qed.

Lemma Sock_ntop_host_ok sa salen str s :
  host_ok sa -> length str = 128%nat -> ipv6 = true ->
  exists str', Sock_ntop_host str sa salen s = (Val (str', 0%nat), s) /\ length str' = 128%nat.
Proof.
  intros Hsa Hs H6. destruct (Sock_ntop_host_text sa salen str s Hsa Hs H6) as (str' & E & Hl & _). by exists str'.
Qed.

(** The text of an address fits in [INET_ADDRSTRLEN] and [INET6_ADDRSTRLEN] characters. *)
Lemma Inet_ntop4_ok addr str s :
  length addr = 4%nat -> bytes_ok addr -> length str = 16%nat ->
  exists str', Inet_ntop AF_INET addr (Some str) 16 s = (Val str', s).
Proof.
  intros Hl Hb Hs. destruct addr as [|a [|b [|c0 [|d [|]]]]]; try done.
  pose proof (quad_text_length a b c0 d Hb) as Hq. unfold Inet_ntop, Ntop.inet_ntop. cbn [AF_INET Z.eqb Pos.eqb].
  rewrite inet_ntop4_spec by done.
  destruct (Z.gtb_spec (Z.of_nat (length (Ntop.quad_text a b c0 d))) 16); [lia|].
  rewrite put_text_ok by llia. cbn [fmap option_fmap option_map checked]. rewrite then_pure. by eexists.
Qed.

Lemma Inet_ntop6_ok addr str s :
  length addr = 16%nat -> bytes_ok addr -> length str = 46%nat ->
  exists str', Inet_ntop AF_INET6 addr (Some str) 46 s = (Val str', s).
Proof.
  intros Hl Hb Hs. destruct (inet_ntop6_shape addr Hl Hb) as (ws & t & _ & _ & _ & _ & Hn & Ht & E).
  unfold Inet_ntop, Ntop.inet_ntop. cbn [AF_INET AF_INET6 Z.eqb Pos.eqb]. rewrite E.
  destruct (Z.gtb_spec (Z.of_nat (S (length t))) 46); [lia|].
  rewrite put_text_ok by llia. cbn [fmap option_fmap option_map checked]. rewrite then_pure. by eexists.
Qed.
End Text.
