(* ===== verification/OpenFds.v ===== *)
(** The descriptors that a process has open: those that it has got from [socket] and [accept] or in a
    message, and not closed; and those that have come with others in one message, which [read_fd] loses. *)

From S2P Require Import Prelude CText Sys Traces Error Wrappers SockUtil RobustIO StreamFacts Servers Packet.

(** * Open descriptors *)

(** The descriptors that a message carries: the receiver gets all of them, however many its
    control message holds. *)
Definition passed_fds (r : sysret) : list Z :=
  if 0 <? rv r then
    match rints r with
    | _ :: level :: type :: fds => if (level =? SOL_SOCKET) && (type =? SCM_RIGHTS) then fds else []
    | _ => []
    end
  else [].

(** [read_fd] hands back the descriptor of a control message of the length for one. *)
Definition takes_fd (r : sysret) : bool :=
  match rints r with [len; _; _; _] => len =? CMSG_LEN_INT | _ => false end.

(** Descriptors that arrived in a message for which [read_fd] reports that none was passed: nobody
    has their numbers. *)
Definition lost_fds (e : event) : list Z :=
  match e.1 with sys_recvmsg _ _ _ _ => if takes_fd e.2 then [] else passed_fds e.2 | _ => [] end.
Definition lost (h : list event) : list Z := concat (lost_fds <$> h).

Definition new_fds (e : event) : list Z :=
  match e.1 with
  | sys_socket _ _ _ | sys_accept _ _ => if 0 <=? rv e.2 then [rv e.2] else []
  | sys_recvmsg _ _ _ _ => passed_fds e.2
  | _ => []
  end.

Fixpoint opened (h : list event) : list Z :=
  match h with
  | [] => []
  | e :: h' => match e.1 with sys_close fd => filter (fun x => x <> fd) (opened h') | _ => new_fds e ++ opened h' end
  end.

(** A descriptor that the process gets is not one that it has open already, and fits in a set. *)
Class FreshLaw `{OS} : Prop := {
  fresh_law : forall h c fd, fd ∈ new_fds (c, os_answer h c) -> 0 <= fd < FD_SETSIZE /\ (fd ∉ opened h);
  fresh_distinct : forall h c, NoDup (new_fds (c, os_answer h c));
}.

(** [getsockname] stores the address. *)
Class NameLaw `{OS} : Prop :=
  name_law : forall h fd, 0 <= rv (os_answer h (sys_getsockname fd)) -> is_Some (rsa (os_answer h (sys_getsockname fd))).

(** Calls that open and close nothing. *)
Definition steady (c : syscall) : bool :=
  match c with sys_socket _ _ _ | sys_accept _ _ | sys_recvmsg _ _ _ _ | sys_close _ => false | _ => true end.

Lemma opened_steady c r h : steady c = true -> opened ((c, r) :: h) = opened h.
Proof. by destruct c. Qed.

Lemma lost_steady c r h : steady c = true -> lost ((c, r) :: h) = lost h.
Proof. by destruct c. Qed.

Lemma lost_output evs h : Forall output evs -> lost (evs ++ h) = lost h.
Proof.
  induction 1 as [|[c r] evs He _ IH]; [done|]. cbn [app]. etrans; [|exact IH].
  apply (lost_steady c r (evs ++ h)). unfold output in He. by destruct c.
Qed.

Lemma opened_output evs h : Forall output evs -> opened (evs ++ h) = opened h.
Proof.
  induction 1 as [|[c r] evs He _ IH]; [done|]. cbn [app]. etrans; [|exact IH].
  apply (opened_steady c r (evs ++ h)). unfold output in He. by destruct c.
Qed.

(** The descriptors in [L] are open, and those in [K] have been lost. *)
Record owns (K L : list Z) (s : st) : Prop := {
  ow_fore : daemon_proc s = 0;
  ow_open : opened (trace s) ≡ₚ L;
  ow_distinct : NoDup L;
  ow_lost : lost (trace s) = K;
}.

Lemma owns_perm K L L' s : owns K L s -> L ≡ₚ L' -> owns K L' s.
Proof. intros [? ? ? ?] HL. constructor; [done|by rewrite <- HL|by rewrite <- HL|done]. Qed.

Lemma owns_steady K L s c r : owns K L s -> steady c = true -> owns K L (after c r s).
Proof. intros [? ? ? ?] Hc. constructor; try done; cbn [after trace]; [by rewrite opened_steady|by rewrite lost_steady]. Qed.

Section Calls.
Context {os : OS} {SE : Strerror} {FL : FreshLaw} {NL : NameLaw}.
Context (Y : list event -> Prop) (K : list Z).

Abbreviation goes := (ends anything Y).

Lemma owns_call L c bad msg s (Q : sysret -> st -> Prop) :
  owns K L s -> steady c = true -> plain msg = true ->
  (forall s', owns K L s' -> bad (rv (answer c s)) = false -> trace s' = (c, answer c s) :: trace s -> Q (answer c s) s') ->
  wp (call c bad msg) (goes Q) s.
Proof.
  intros Ho Hc Hm HQ. apply ends_call; [apply anything_output|done|apply Ho|done|]. intros Hb. apply HQ; [by apply owns_steady|done|done].
Qed.

(** A wrapper whose result is not used. *)
Lemma owns_wrapper L c bad msg s :
  owns K L s -> steady c = true -> plain msg = true ->
  wp (call c bad msg ;;; mpure tt) (goes (fun _ s' => owns K L s')) s.
Proof.
  intros Ho Hc Hm. eapply (ends_then _ _ _ _ (fun _ s' => owns K L s')); [by eapply owns_call|]. intros _ s' Ho'. by apply ends_pure.
Qed.

Lemma owns_close fd L s : owns K (fd :: L) s -> wp (Close fd) (goes (fun _ s' => owns K L s')) s.
Proof.
  intros [Hd Hop Hnd Hlo]. apply NoDup_cons in Hnd as [Hfd Hnd]. unfold Close.
  eapply (ends_then _ _ _ _ (fun _ s' => owns K L s')); [|by intros].
  apply ends_call; [apply anything_output|done|done|done|]. intros _. constructor; [done| |done|done].
  cbn [after trace opened fst]. rewrite Hop, filter_cons_False by tauto. by rewrite filter_absent.
Qed.

Lemma owns_write fd d L s (Q : unit -> st -> Prop) :
  owns K L s -> (forall s', owns K L s' -> Q tt s') -> wp (Write fd d) (goes Q) s.
Proof.
  intros Ho HQ. unfold Write. eapply (ends_then _ _ _ _ (fun _ s' => owns K L s')); [by eapply owns_call|].
  intros _ s' Ho'. by apply ends_pure, HQ.
Qed.

(** Messages that do not end the process. *)
Lemma owns_message errnoflag fmt ap text L s (Q : unit -> st -> Prop) :
  owns K L s -> vformat fmt ap = Some text -> nul_free text -> (forall s', owns K L s' -> Q tt s') ->
  wp (err_doit errnoflag LOG_INFO fmt ap) (goes Q) s.
Proof.
  intros [Hd Hop Hnd Hlo] Ef Hn HQ. unfold wp. rewrite (err_doit_line _ _ _ _ text) by done. cbv zeta. rewrite Hd. cbn [Z.eqb].
  apply HQ. destruct (reported_history (report_line errnoflag text (errno s)) s) as (evs & Ht & Ho & Hd').
  constructor; [done| |done|]; rewrite Ht; [by rewrite opened_output|by rewrite lost_output].
Qed.

Lemma owns_printf fmt args text L s (Q : unit -> st -> Prop) :
  owns K L s -> vformat fmt args = Some text ->
  (forall s' r, owns K L s' -> trace s' = (sys_fputs text stdout, r) :: trace s -> Q tt s') -> wp (printf fmt args) (goes Q) s.
Proof.
  intros Ho E HQ. unfold printf. eapply wp_checked; [exact E|]. apply wp_then, wp_sys. cbn [andthen]. apply ends_pure.
  eapply HQ; [by apply owns_steady|done].
Qed.

Lemma owns_socket f t p L s :
  owns K L s -> wp (Socket f t p) (goes (fun fd s' => 0 <= fd < FD_SETSIZE /\ owns K (fd :: L) s')) s.
Proof.
  intros [Hd Hop Hnd Hlo]. unfold Socket. set (c := sys_socket f t p).
  eapply (ends_then _ _ _ _ (fun r s' => 0 <= rv r < FD_SETSIZE /\ owns K (rv r :: L) s')); [|by intros].
  apply ends_call; [apply anything_output|done|done|done|]. unfold negative. intros Hr%Z.ltb_ge.
  assert (Hn : new_fds (c, answer c s) = [rv (answer c s)]) by (cbn; by rewrite (proj2 (Z.leb_le 0 _))).
  destruct (fresh_law (trace s) c (rv (answer c s))) as [? Hf]; [unfold answer in Hn; rewrite Hn; by left|].
  split; [done|]. constructor; [done| | |done].
  - cbn [after trace opened fst c]. fold c. rewrite Hn. cbn [app]. by rewrite Hop.
  - apply NoDup_cons. split; [by rewrite <- Hop|done].
Qed.

(** What [Read_fd] hands back. *)
Definition received_fd (o : option Z) : list Z :=
  match o with Some fd => if 0 <=? fd then [fd] else [] | None => [] end.

(** A message is received, with whatever descriptors it carries. *)
Lemma owns_recvmsg c fd iov ctl fl L s :
  c = sys_recvmsg fd iov ctl fl -> owns K L s ->
  let r := answer c s in
  owns ((if takes_fd r then [] else passed_fds r) ++ K) (passed_fds r ++ L) (after c r s) /\
  Forall (fun x => 0 <= x < FD_SETSIZE) (passed_fds r).
Proof.
  intros -> [Hd Hop Hnd Hlo] r. set (c := sys_recvmsg fd iov ctl fl) in *.
  assert (Hf : forall x, x ∈ passed_fds r -> 0 <= x < FD_SETSIZE /\ (x ∉ opened (trace s)))
    by (intros x; apply (fresh_law (trace s) c x)).
  split; [|by apply Forall_forall; intros x Hx; apply Hf]. constructor.
  - done.
  - change (opened (trace (after c r s))) with (passed_fds r ++ opened (trace s)). by rewrite Hop.
  - apply NoDup_app. split; [exact (fresh_distinct (trace s) c)|]. split; [|done].
    intros x Hx. rewrite <- Hop. by apply Hf.
  - change (lost (trace (after c r s))) with ((if takes_fd r then [] else passed_fds r) ++ lost (trace s)). by rewrite Hlo.
Qed.

(** After [Read_fd] the descriptors that a message carried are open: one that it hands back, or
    those that are lost. *)
Lemma owns_read_fd fd n L s :
  owns K L s ->
  wp (Read_fd fd n) (goes (fun q s' => let '(k, _, o) := q in
    (exists K', owns (K' ++ K) (received_fd o ++ K' ++ L) s') /\ Forall (fun x => 0 <= x < FD_SETSIZE) (received_fd o) /\
    (k = 0 -> o = None) /\ (o = None -> k = 0))) s.
Proof.
  intros Ho. unfold Read_fd, read_fd. do 2 apply wp_then. apply wp_sys. cbn [andthen].
  set (c := sys_recvmsg _ _ _ _). destruct (owns_recvmsg c fd _ _ _ L s eq_refl Ho) as [Ho1 Hr].
  set (r := answer c s) in *. set (s1 := after c r s) in *.
  destruct (Z.leb_spec (rv r) 0) as [Hz|Hz].
  { assert (E : passed_fds r = []) by (unfold passed_fds; by rewrite (proj2 (Z.ltb_ge 0 _))).
    cbn [mpure wp andthen fst snd]. destruct (Z.ltb_spec (rv r) 0); [apply ends_err_sys; [apply anything_output|done|apply Ho1|done]|].
    apply ends_pure. assert (rv r = 0) by lia. split_and!; try done. exists []. rewrite E in Ho1. by destruct (takes_fd r). }
  assert (Hend : forall o, (exists K', owns (K' ++ K) (received_fd o ++ K' ++ L) s1) ->
    Forall (fun x => 0 <= x < FD_SETSIZE) (received_fd o) -> is_Some o ->
    wp (mpure (rv r, rbytes r, o)) (andthen (fun r0 => if r0.1.1 <? 0 then err_sys c["read_fd error"] [] else mpure r0)
      (goes (fun q s' => let '(k, _, o) := q in (exists K', owns (K' ++ K) (received_fd o ++ K' ++ L) s') /\
        Forall (fun x => 0 <= x < FD_SETSIZE) (received_fd o) /\ (k = 0 -> o = None) /\ (o = None -> k = 0)))) s1).
  { intros o Hx Hf [x ->]. cbn [mpure wp andthen fst snd]. rewrite (proj2 (Z.ltb_ge (rv r) 0)) by lia. apply ends_pure.
    split_and!; try done. lia. }
  assert (Hm1 : takes_fd r = false -> exists K', owns (K' ++ K) (received_fd (Some (-1)) ++ K' ++ L) s1).
  { intros E. rewrite E in Ho1. by exists (passed_fds r). }
  unfold takes_fd in Hm1. destruct (rints r) as [|l [|v [|t [|f [|]]]]] eqn:Er;
    try (apply Hend; [by apply Hm1|constructor|by eexists]).
  destruct (l =? CMSG_LEN_INT) eqn:El; [|by apply Hend; [apply Hm1|constructor|eexists]]. clear Hm1.
  assert (Hp : passed_fds r = if (v =? SOL_SOCKET) && (t =? SCM_RIGHTS) then [f] else [])
    by (unfold passed_fds; by rewrite (proj2 (Z.ltb_lt 0 _)), Er).
  assert (Ht : takes_fd r = true) by (unfold takes_fd; by rewrite Er).
  assert (Hq : forall msg, plain msg = true -> wp (err_quit msg []) (andthen (fun r0 : Z * list Z * option Z =>
      if r0.1.1 <? 0 then err_sys c["read_fd error"] [] else mpure r0)
    (goes (fun q s' => let '(k, _, o) := q in (exists K', owns (K' ++ K) (received_fd o ++ K' ++ L) s') /\
        Forall (fun x => 0 <= x < FD_SETSIZE) (received_fd o) /\ (k = 0 -> o = None) /\ (o = None -> k = 0)))) s1).
  { intros msg Hm. eapply wp_mono; [apply (ends_err_quit anything Y anything_output _ (fun _ _ => False)); [done|apply Ho1|done]|]. by intros [] ?. }
  destruct (v =? SOL_SOCKET); cbn [negb andb] in *; [|by apply Hq].
  destruct (t =? SCM_RIGHTS); cbn [negb andb] in *; [|by apply Hq].
  rewrite Ht, Hp in *. apply Forall_cons_1 in Hr as [Hf _].
  apply Hend; [|..|by eexists]; cbn [received_fd]; rewrite (proj2 (Z.leb_le 0 f)) by lia; [by exists []|by constructor].
Qed.
End Calls.

(** * The smallest descriptor from 3 on that is not open *)

Definition next_open (h : list event) : Z :=
  default (-1) (head (filter (fun fd => fd ∉ opened h) (seqZ 3 1021))).

Lemma next_open_fresh h : 0 <= next_open h -> 0 <= next_open h < FD_SETSIZE /\ (next_open h ∉ opened h).
Proof.
  unfold next_open. destruct (filter _ _) as [|x l] eqn:E; [cbn; lia|]. intros _.
  assert (Hin : x ∈ filter (fun fd => fd ∉ opened h) (seqZ 3 1021)) by (rewrite E; by left).
  apply list_elem_of_filter in Hin as [? Hin%elem_of_seqZ]. split; [|done]. cbn. unfold FD_SETSIZE. lia.
Qed.

Lemma next_open_list h fd :
  fd ∈ (if 0 <=? next_open h then [next_open h] else []) -> 0 <= fd < FD_SETSIZE /\ (fd ∉ opened h).
Proof.
  destruct (Z.leb_spec 0 (next_open h)); [intros ->%list_elem_of_singleton; by apply next_open_fresh|by intros ?%elem_of_nil].
Qed.
