(* ===== verification/Words.v ===== *)
(** Structures in memory as the programs that take them apart see them: integers of the host's byte
    order at an offset, and the string functions on characters that are inside a buffer.

    An access outside the buffer is [None]. *)

From S2P Require Import Prelude CText Sys Packet.

(** An unsigned integer of [n] bytes. *)
Definition uint_bytes (little : bool) (n : nat) (w : Z) : list Z :=
  let l := (fun k => Z.shiftr w (8 * Z.of_nat k) mod 256) <$> seq 0 n in
  if little then l else rev l.

Definition uint_of (little : bool) (b : list Z) : Z :=
  foldr (fun x acc => x + 256 * acc) 0 (if little then b else rev b).

Definition uint_at (little : bool) (n : nat) (buf : list Z) (off : nat) : option Z :=
  b ← load buf off n; Some (uint_of little b).

(** [strncmp (a, b, n) == 0] for a string [b]: at most [n] characters are looked at. *)
Fixpoint strncmp_eq (a : list Z) (b : cstring) (n : nat) {struct n} : option bool :=
  match n with
  | O => Some true
  | S k =>
      match a with
      | [] => None
      | x :: a' => if x =? hd 0 b then if x =? 0 then Some true else strncmp_eq a' (tl b) k else Some false
      end
  end.

(** What [strncpy (dst, a, n)] stores: the characters up to a NUL, filled up with NULs. *)
Fixpoint strncpy_text (a : list Z) (n : nat) {struct n} : option (list Z) :=
  match n with
  | O => Some []
  | S k =>
      match a with
      | [] => None
      | x :: a' => if x =? 0 then Some (replicate n 0) else cons x <$> strncpy_text a' k
      end
  end.

(** The string that starts [a]: its NUL must be in the buffer. *)
Fixpoint string_in (a : list Z) : option cstring :=
  match a with
  | [] => None
  | x :: a' => if x =? 0 then Some [] else cons x <$> string_in a'
  end.

(** * Facts *)

Lemma length_uint_bytes little n w : length (uint_bytes little n w) = n.
Proof. unfold uint_bytes. destruct little; by rewrite ?length_rev, length_fmap, length_seq. Qed.

Lemma uint_bytes_ok little n w : bytes_ok (uint_bytes little n w).
Proof.
  unfold uint_bytes. assert (H : bytes_ok ((fun k => Z.shiftr w (8 * Z.of_nat k) mod 256) <$> seq 0 n)).
  { apply Forall_fmap, Forall_forall. intros k _. cbn. apply Z.mod_pos_bound. lia. }
  destruct little; [done|]. by apply Forall_rev.
Qed.

Lemma uint_of_digits w k n :
  0 <= w ->
  foldr (fun x acc => x + 256 * acc) 0 ((fun k => Z.shiftr w (8 * Z.of_nat k) mod 256) <$> seq k n)
    = Z.shiftr w (8 * Z.of_nat k) mod 2 ^ (8 * Z.of_nat n).
Proof.
  intros Hw. revert k. induction n as [|n IH]; intros k; cbn [seq fmap list_fmap foldr]; [by rewrite Z.mod_1_r|].
  rewrite IH. set (v := Z.shiftr w (8 * Z.of_nat k)).
  assert (E : Z.shiftr w (8 * Z.of_nat (S k)) = v / 256).
  { subst v. rewrite <- (Z.shiftr_div_pow2 _ 8) by lia. rewrite Z.shiftr_shiftr by lia. f_equal. lia. }
  rewrite E. replace (8 * Z.of_nat (S n)) with (8 + 8 * Z.of_nat n) by lia.
  rewrite Z.pow_add_r by lia. change (2 ^ 8) with 256. rewrite Z.rem_mul_r by lia. lia.
Qed.

Lemma uint_of_bytes little n w : 0 <= w < 2 ^ (8 * Z.of_nat n) -> uint_of little (uint_bytes little n w) = w.
Proof.
  intros Hw. unfold uint_of, uint_bytes. destruct little; rewrite ?rev_involutive, uint_of_digits by lia;
    change (8 * Z.of_nat 0) with 0; rewrite Z.shiftr_0_r, Z.mod_small by lia; done.
Qed.

(** Reading inside a part of a buffer. *)
Lemma load_app_r (a b : list Z) off n : load (a ++ b) (length a + off) n = load b off n.
Proof.
  unfold load. rewrite drop_app_ge by lia. replace (length a + off - length a)%nat with off by lia.
  by do 2 case_decide; rewrite ?length_app in *; try lia.
Qed.

Lemma load_app_l (a b : list Z) off n : (off + n <= length a)%nat -> load (a ++ b) off n = load a off n.
Proof. intros H. rewrite load_prefix, load_ok by lia. done. Qed.

Lemma load_front (a b : list Z) : load (a ++ b) 0 (length a) = Some a.
Proof. rewrite load_app_l by lia. rewrite load_ok by lia. by rewrite drop_0, take_ge. Qed.

Lemma uint_at_app_r little n (a b : list Z) off : uint_at little n (a ++ b) (length a + off) = uint_at little n b off.
Proof. unfold uint_at. by rewrite load_app_r. Qed.

Lemma uint_at_front little n w rest :
  0 <= w < 2 ^ (8 * Z.of_nat n) -> uint_at little n (uint_bytes little n w ++ rest) 0 = Some w.
Proof.
  intros Hw. unfold uint_at. pose proof (load_front (uint_bytes little n w) rest) as H. rewrite length_uint_bytes in H.
  rewrite H. cbn. by rewrite uint_of_bytes.
Qed.

(** Equal texts. *)
Lemma strncmp_eq_spec a b rest :
  nul_free b -> length a = length b -> strncmp_eq (a ++ rest) b (length b) = Some (bool_decide (a = b)).
Proof.
  intros Hb. revert a. induction Hb as [|y b Hy _ IH]; intros [|x a] Hl; try done. cbn [length app strncmp_eq hd tl].
  destruct (Z.eqb_spec x y) as [->|Hn].
  - rewrite (proj2 (Z.eqb_neq y 0) Hy), IH by (cbn in Hl; lia). f_equal. apply bool_decide_ext. split; congruence.
  - symmetry. f_equal. apply bool_decide_eq_false. congruence.
Qed.

Lemma strncpy_text_same a n rest : nul_free a -> (n <= length a)%nat -> strncpy_text (a ++ rest) n = Some (take n a).
Proof.
  intros Ha. revert n. induction Ha as [|x a Hx _ IH]; intros [|n] Hn; try done; cbn in Hn; [lia|].
  cbn [app strncpy_text take]. rewrite (proj2 (Z.eqb_neq x 0) Hx), IH by lia. done.
Qed.
