(* ===== verification/Mcast.v ===== *)
(** The multicast functions of [lib/]: [mcast_join.c], [mcast_leave.c], [mcast_get_if.c],
    [mcast_set_if.c], [mcast_get_loop.c], [mcast_set_loop.c], [mcast_get_ttl.c],
    [mcast_set_ttl.c].

    Each hides the difference between IPv4 and IPv6 socket options, and, where the host has
    it, uses the protocol-independent API; which of the APIs the headers define is the class
    [McastConfig]. *)

From S2P Require Import Prelude CText Sys Traces Error Wrappers SockUtil.

Class McastConfig : Type := {
  has_MCAST_JOIN_GROUP : bool;
  has_MCAST_JOIN_SOURCE_GROUP : bool;
  has_MCAST_LEAVE_SOURCE_GROUP : bool;
  has_MCAST_BLOCK_SOURCE : bool;
  has_MCAST_UNBLOCK_SOURCE : bool;
  has_IP_ADD_SOURCE_MEMBERSHIP : bool;
  has_IP_DROP_SOURCE_MEMBERSHIP : bool;
  has_IP_BLOCK_SOURCE : bool;
  has_IP_UNBLOCK_SOURCE : bool;
}.

Definition SIOCGIFADDR : Z := 35093.
Definition IFNAMSIZ : nat := 16.
Definition IP_MULTICAST_IF : Z := 32.
Definition IP_MULTICAST_TTL : Z := 33.
Definition IP_MULTICAST_LOOP : Z := 34.
Definition IP_ADD_MEMBERSHIP : Z := 35.
Definition IP_DROP_MEMBERSHIP : Z := 36.
Definition IP_UNBLOCK_SOURCE : Z := 37.
Definition IP_BLOCK_SOURCE : Z := 38.
Definition IP_ADD_SOURCE_MEMBERSHIP : Z := 39.
Definition IP_DROP_SOURCE_MEMBERSHIP : Z := 40.
Definition MCAST_JOIN_GROUP : Z := 42.
Definition MCAST_BLOCK_SOURCE : Z := 43.
Definition MCAST_UNBLOCK_SOURCE : Z := 44.
Definition MCAST_LEAVE_GROUP : Z := 45.
Definition MCAST_JOIN_SOURCE_GROUP : Z := 46.
Definition MCAST_LEAVE_SOURCE_GROUP : Z := 47.
Definition IPV6_MULTICAST_IF : Z := 17.
Definition IPV6_MULTICAST_HOPS : Z := 18.
Definition IPV6_MULTICAST_LOOP : Z := 19.
Definition IPV6_JOIN_GROUP : Z := 20.
Definition IPV6_LEAVE_GROUP : Z := 21.

(** [sizeof (struct sockaddr_storage)]. *)
Definition sizeof_storage : Z := 128.

Section Mcast.
Context {os : OS} {SE : Strerror} {CF : Config} {MC : McastConfig}.

Definition fail (e : Z) : M Z := set_errno e ;;; mpure (-1).

Definition setsockopt (fd level optname : Z) (v : optval) : M Z :=
  r <~ sys (sys_setsockopt fd level optname v) ;; mpure (rv r).

(** The interface index of a request: the given index, or that of the given name, or 0. *)
Definition pick_ifindex (ifname : option cstring) (ifindex : Z) : M (option Z) :=
  if ifindex >? 0 then mpure (Some ifindex)
  else match ifname with
       | Some name =>
           r <~ sys (sys_if_nametoindex name) ;;
           if rv r =? 0 then set_errno ENXIO ;;; mpure None     (* i/f name not found *)
           else mpure (Some (rv r))
       | None => mpure (Some 0)
       end.

(** The IPv4 address of the interface of a request, from [ioctl (SIOCGIFADDR)]. *)
Definition pick_ifaddr (sockfd : Z) (ifname : option cstring) (ifindex : Z)
    : M (option (list Z)) :=
  let doioctl name :=
    r <~ sys (sys_ioctl_ifreq sockfd SIOCGIFADDR name) ;;
    if rv r <? 0 then mpure None
    else match rsa r with Some (SockIn _ a) => mpure (Some a) | _ => undefined end in
  if ifindex >? 0 then
    r <~ sys (sys_if_indextoname ifindex) ;;
    if rv r =? 0 then set_errno ENXIO ;;; mpure None            (* i/f index not found *)
    else doioctl (rbytes r)
  else match ifname with
       | Some name => doioctl (take IFNAMSIZ name)
       | None => mpure (Some INADDR_ANY)
       end.

(** [((struct sockaddr_in * ) sa)->sin_addr]: meaningful for an IPv4 address only. *)
Definition sin_addr (sa : sockaddr) : option (list Z) :=
  match sa with SockIn _ a => Some a | _ => None end.

(** ** mcast_join.c *)

Definition mcast_join (sockfd : Z) (grp : sockaddr) (grplen : Z) (ifname : option cstring)
    (ifindex : Z) : M Z :=
  if has_MCAST_JOIN_GROUP then
    i <~ pick_ifindex ifname ifindex ;;
    match i with
    | None => mpure (-1)
    | Some gr_interface =>
        if grplen >? sizeof_storage then fail EINVAL
        else setsockopt sockfd (family_to_level (sa_family grp)) MCAST_JOIN_GROUP
               (OGroupReq gr_interface grp)
    end
  else
    match grp with
    | SockIn _ multiaddr =>
        a <~ pick_ifaddr sockfd ifname ifindex ;;
        match a with
        | None => mpure (-1)
        | Some interface =>
            setsockopt sockfd IPPROTO_IP IP_ADD_MEMBERSHIP (OMreq multiaddr interface)
        end
    | SockIn6 _ multiaddr _ _ =>
        if negb ipv6 then fail EAFNOSUPPORT else
        i <~ pick_ifindex ifname ifindex ;;
        match i with
        | None => mpure (-1)
        | Some interface =>
            setsockopt sockfd IPPROTO_IPV6 IPV6_JOIN_GROUP (OMreq6 multiaddr interface)
        end
    | _ => fail EAFNOSUPPORT
    end.

Definition Mcast_join (sockfd : Z) (grp : sockaddr) (grplen : Z) (ifname : option cstring)
    (ifindex : Z) : M unit :=
  n <~ mcast_join sockfd grp grplen ifname ifindex ;;
  if n <? 0 then err_sys c["mcast_join error"] [] else mpure tt.

Definition mcast_join_source_group (sockfd : Z) (src : sockaddr) (srclen : Z) (grp : sockaddr)
    (grplen : Z) (ifname : option cstring) (ifindex : Z) : M Z :=
  if has_MCAST_JOIN_SOURCE_GROUP then
    i <~ pick_ifindex ifname ifindex ;;
    match i with
    | None => mpure (-1)
    | Some gsr_interface =>
        if (grplen >? sizeof_storage) || (srclen >? sizeof_storage) then fail EINVAL
        else setsockopt sockfd (family_to_level (sa_family grp)) MCAST_JOIN_SOURCE_GROUP
               (OGroupSourceReq gsr_interface grp src)
    end
  else
    match grp with
    | SockIn _ multiaddr =>
        if negb has_IP_ADD_SOURCE_MEMBERSHIP then fail EAFNOSUPPORT else
        source <~ checked (sin_addr src) ;;
        a <~ pick_ifaddr sockfd ifname ifindex ;;
        match a with
        | None => mpure (-1)
        | Some interface =>
            setsockopt sockfd IPPROTO_IP IP_ADD_SOURCE_MEMBERSHIP
              (OMreqSource multiaddr source interface)
        end
    | _ => fail EAFNOSUPPORT
    end.

Definition Mcast_join_source_group (sockfd : Z) (src : sockaddr) (srclen : Z) (grp : sockaddr)
    (grplen : Z) (ifname : option cstring) (ifindex : Z) : M unit :=
  n <~ mcast_join_source_group sockfd src srclen grp grplen ifname ifindex ;;
  if n <? 0 then err_sys c["mcast_join_source_group error"] [] else mpure tt.

(** The common shape of blocking, unblocking and leaving a source: no interface is chosen. *)
Definition source_request (has_new has_old : bool) (new_opt old_opt : Z) (sockfd : Z)
    (src : sockaddr) (srclen : Z) (grp : sockaddr) (grplen : Z) : M Z :=
  if has_new then
    if (grplen >? sizeof_storage) || (srclen >? sizeof_storage) then fail EINVAL
    else setsockopt sockfd (family_to_level (sa_family grp)) new_opt (OGroupSourceReq 0 grp src)
  else
    match grp with
    | SockIn _ multiaddr =>
        if negb has_old then fail EAFNOSUPPORT else
        source <~ checked (sin_addr src) ;;
        setsockopt sockfd IPPROTO_IP old_opt (OMreqSource multiaddr source INADDR_ANY)
    | _ => fail EAFNOSUPPORT
    end.

Definition mcast_block_source (sockfd : Z) (src : sockaddr) (srclen : Z) (grp : sockaddr)
    (grplen : Z) : M Z :=
  source_request has_MCAST_BLOCK_SOURCE has_IP_BLOCK_SOURCE MCAST_BLOCK_SOURCE IP_BLOCK_SOURCE
    sockfd src srclen grp grplen.

Definition Mcast_block_source (sockfd : Z) (src : sockaddr) (srclen : Z) (grp : sockaddr)
    (grplen : Z) : M unit :=
  n <~ mcast_block_source sockfd src srclen grp grplen ;;
  if n <? 0 then err_sys c["mcast_block_source error"] [] else mpure tt.

Definition mcast_unblock_source (sockfd : Z) (src : sockaddr) (srclen : Z) (grp : sockaddr)
    (grplen : Z) : M Z :=
  source_request has_MCAST_UNBLOCK_SOURCE has_IP_UNBLOCK_SOURCE MCAST_UNBLOCK_SOURCE
    IP_UNBLOCK_SOURCE sockfd src srclen grp grplen.

Definition Mcast_unblock_source (sockfd : Z) (src : sockaddr) (srclen : Z) (grp : sockaddr)
    (grplen : Z) : M unit :=
  n <~ mcast_unblock_source sockfd src srclen grp grplen ;;
  if n <? 0 then err_sys c["mcast_unblock_source error"] [] else mpure tt.

(** ** mcast_leave.c *)

Definition mcast_leave (sockfd : Z) (grp : sockaddr) (grplen : Z) : M Z :=
  if has_MCAST_JOIN_GROUP then
    if grplen >? sizeof_storage then fail EINVAL
    else setsockopt sockfd (family_to_level (sa_family grp)) MCAST_LEAVE_GROUP (OGroupReq 0 grp)
  else
    match grp with
    | SockIn _ multiaddr =>
        setsockopt sockfd IPPROTO_IP IP_DROP_MEMBERSHIP (OMreq multiaddr INADDR_ANY)
    | SockIn6 _ multiaddr _ _ =>
        if negb ipv6 then fail EAFNOSUPPORT else
        setsockopt sockfd IPPROTO_IPV6 IPV6_LEAVE_GROUP (OMreq6 multiaddr 0)
    | _ => fail EAFNOSUPPORT
    end.

Definition Mcast_leave (sockfd : Z) (grp : sockaddr) (grplen : Z) : M unit :=
  n <~ mcast_leave sockfd grp grplen ;;
  if n <? 0 then err_sys c["mcast_leave error"] [] else mpure tt.

Definition mcast_leave_source_group (sockfd : Z) (src : sockaddr) (srclen : Z) (grp : sockaddr)
    (grplen : Z) : M Z :=
  source_request has_MCAST_LEAVE_SOURCE_GROUP has_IP_DROP_SOURCE_MEMBERSHIP
    MCAST_LEAVE_SOURCE_GROUP IP_DROP_SOURCE_MEMBERSHIP sockfd src srclen grp grplen.

Definition Mcast_leave_source_group (sockfd : Z) (src : sockaddr) (srclen : Z) (grp : sockaddr)
    (grplen : Z) : M unit :=
  n <~ mcast_leave_source_group sockfd src srclen grp grplen ;;
  if n <? 0 then err_sys c["mcast_leave_source_group error"] [] else mpure tt.

(** ** Options of the sending side

    The family is that of the socket; option values read back are the first integer of the
    answer. *)

Definition getsockopt_int (fd level optname len : Z) : M Z :=
  r <~ sys (sys_getsockopt fd level optname len) ;;
  if rv r <? 0 then mpure (-1) else mpure (hd 0 (rints r)).

Definition mcast_get_if (sockfd : Z) : M Z :=
  f <~ sockfd_to_family sockfd ;;
  if f =? AF_INET then mpure (-1)            (* TODO: similar to mcast_set_if() *)
  else if (f =? AF_INET6) && ipv6 then
    idx <~ getsockopt_int sockfd IPPROTO_IPV6 IPV6_MULTICAST_IF 4 ;; mpure (s32 idx)
  else fail EAFNOSUPPORT.

Definition Mcast_get_if (sockfd : Z) : M Z :=
  rc <~ mcast_get_if sockfd ;;
  if rc <? 0 then err_sys c["mcast_get_if error"] [] else mpure rc.

Definition mcast_set_if (sockfd : Z) (ifname : option cstring) (ifindex : Z) : M Z :=
  f <~ sockfd_to_family sockfd ;;
  if f =? AF_INET then
    a <~ pick_ifaddr sockfd ifname ifindex ;;
    match a with
    | None => mpure (-1)
    | Some inaddr => setsockopt sockfd IPPROTO_IP IP_MULTICAST_IF (OAddr inaddr)
    end
  else if (f =? AF_INET6) && ipv6 then
    if ifindex =? 0 then
      match ifname with
      | None => fail EINVAL                    (* must supply either index or name *)
      | Some name =>
          r <~ sys (sys_if_nametoindex name) ;;
          if rv r =? 0 then fail ENXIO         (* i/f name not found *)
          else setsockopt sockfd IPPROTO_IPV6 IPV6_MULTICAST_IF (OInt (rv r))
      end
    else setsockopt sockfd IPPROTO_IPV6 IPV6_MULTICAST_IF (OInt ifindex)
  else fail EAFNOSUPPORT.

Definition Mcast_set_if (sockfd : Z) (ifname : option cstring) (ifindex : Z) : M unit :=
  n <~ mcast_set_if sockfd ifname ifindex ;;
  if n <? 0 then err_sys c["mcast_set_if error"] [] else mpure tt.

Definition mcast_get_loop (sockfd : Z) : M Z :=
  f <~ sockfd_to_family sockfd ;;
  if f =? AF_INET then getsockopt_int sockfd IPPROTO_IP IP_MULTICAST_LOOP 1
  else if (f =? AF_INET6) && ipv6 then
    flag <~ getsockopt_int sockfd IPPROTO_IPV6 IPV6_MULTICAST_LOOP 4 ;; mpure (s32 flag)
  else fail EAFNOSUPPORT.

Definition Mcast_get_loop (sockfd : Z) : M Z :=
  rc <~ mcast_get_loop sockfd ;;
  if rc <? 0 then err_sys c["mcast_get_loop error"] [] else mpure rc.

Definition mcast_set_loop (sockfd onoff : Z) : M Z :=
  f <~ sockfd_to_family sockfd ;;
  if f =? AF_INET then setsockopt sockfd IPPROTO_IP IP_MULTICAST_LOOP (OByte (u8 onoff))
  else if (f =? AF_INET6) && ipv6 then
    setsockopt sockfd IPPROTO_IPV6 IPV6_MULTICAST_LOOP (OInt (u32 onoff))
  else fail EAFNOSUPPORT.

Definition Mcast_set_loop (sockfd onoff : Z) : M unit :=
  n <~ mcast_set_loop sockfd onoff ;;
  if n <? 0 then err_sys c["mcast_set_loop error"] [] else mpure tt.

Definition mcast_get_ttl (sockfd : Z) : M Z :=
  f <~ sockfd_to_family sockfd ;;
  if f =? AF_INET then getsockopt_int sockfd IPPROTO_IP IP_MULTICAST_TTL 1
  else if (f =? AF_INET6) && ipv6 then
    getsockopt_int sockfd IPPROTO_IPV6 IPV6_MULTICAST_HOPS 4
  else fail EAFNOSUPPORT.

Definition Mcast_get_ttl (sockfd : Z) : M Z :=
  rc <~ mcast_get_ttl sockfd ;;
  if rc <? 0 then err_sys c["mcast_get_ttl error"] [] else mpure rc.

Definition mcast_set_ttl (sockfd val : Z) : M Z :=
  f <~ sockfd_to_family sockfd ;;
  if f =? AF_INET then setsockopt sockfd IPPROTO_IP IP_MULTICAST_TTL (OByte (u8 val))
  else if (f =? AF_INET6) && ipv6 then
    setsockopt sockfd IPPROTO_IPV6 IPV6_MULTICAST_HOPS (OInt val)
  else fail EAFNOSUPPORT.

Definition Mcast_set_ttl (sockfd val : Z) : M unit :=
  n <~ mcast_set_ttl sockfd val ;;
  if n <? 0 then err_sys c["mcast_set_ttl error"] [] else mpure tt.

End Mcast.

(** * What a request means

    The three option formats denote operations on group memberships: a group is a family and
    an address, an interface is the default one, an index or an address. *)

Inductive iface : Type := IfAny | IfIndex (i : Z) | IfAddr (a : list Z).

Inductive group_op : Type :=
| GJoin (group : Z * list Z) (i : iface)
| GLeave (group : Z * list Z) (i : iface).

Definition index_iface (i : Z) : iface := if i =? 0 then IfAny else IfIndex i.
Definition addr_iface (a : list Z) : iface := if decide (a = INADDR_ANY) then IfAny else IfAddr a.

Definition group_of `{Config} (sa : sockaddr) : option (Z * list Z) :=
  match sa with
  | SockIn _ a => Some (AF_INET, a)
  | SockIn6 _ a _ _ => if ipv6 then Some (AF_INET6, a) else None
  | _ => None
  end.

Definition join_or_leave (join leave optname : Z) (g : Z * list Z) (i : iface) : option group_op :=
  if optname =? join then Some (GJoin g i)
  else if optname =? leave then Some (GLeave g i) else None.

(** The membership operation a [setsockopt] call asks the kernel for, if it is one. *)
Definition denote `{Config} (c : syscall) : option (Z * group_op) :=
  match c with
  | sys_setsockopt fd level optname v =>
      match v with
      | OMreq m a =>
          if level =? IPPROTO_IP
          then pair fd <$> join_or_leave IP_ADD_MEMBERSHIP IP_DROP_MEMBERSHIP optname
                             (AF_INET, m) (addr_iface a)
          else None
      | OMreq6 m i =>
          if level =? IPPROTO_IPV6
          then pair fd <$> join_or_leave IPV6_JOIN_GROUP IPV6_LEAVE_GROUP optname
                             (AF_INET6, m) (index_iface i)
          else None
      | OGroupReq i sa =>
          g ← group_of sa;
          if level =? family_to_level g.1
          then pair fd <$> join_or_leave MCAST_JOIN_GROUP MCAST_LEAVE_GROUP optname g
                             (index_iface i)
          else None
      | _ => None
      end
  | _ => None
  end.

(** A successful [ioctl (SIOCGIFADDR)] on an IPv4 socket stores an IPv4 address. *)
Class IfaddrLaw `{OS} : Prop :=
  ifaddr_law : forall h fd name,
    let r := os_answer h (sys_ioctl_ifreq fd SIOCGIFADDR name) in
    0 <= rv r -> exists p a, rsa r = Some (SockIn p a).

Definition is_lookup (e : event) : Prop :=
  match e.1 with
  | sys_if_nametoindex _ | sys_if_indextoname _ | sys_ioctl_ifreq _ _ _ => True
  | _ => False
  end.

Section McastClaims.
Context {os : OS} {SE : Strerror} {CF : Config} {MC : McastConfig}.

(** The history from [s] to [s'] is lookups only. *)
Definition lookups (s s' : st) : Prop :=
  exists evs, trace s' = evs ++ trace s /\ Forall is_lookup evs.

Lemma pick_ifindex_spec ifname ifindex s :
  0 <= ifindex ->
  exists o s', pick_ifindex ifname ifindex s = (Val o, s') /\ lookups s s' /\
    match o with
    | Some i => 0 < ifindex -> i = ifindex
    | None => ifindex = 0 /\ ifname <> None /\ errno s' = ENXIO
    end /\ (ifindex = 0 -> ifname = None -> o = Some 0).
Proof.
  intros Hi. unfold pick_ifindex. destruct (Z.gtb_spec ifindex 0).
  { eexists _, _. split; [done|]. split; [by exists []|]. split; [done|lia]. }
  destruct ifname as [name|].
  2:{ eexists _, _. split; [done|]. split; [by exists []|]. split; [lia|done]. }
  rewrite then_sys. destruct (rv (answer (sys_if_nametoindex name) s) =? 0);
    eexists _, _; (split; [done|]); (split; [eexists [_]; split; [done|by repeat constructor]|]);
    (split; [|done]); [by split_and!; [lia|..]|lia].
Qed.

Lemma pick_ifaddr_spec `{!IfaddrLaw} sockfd ifname ifindex s :
  exists o s', pick_ifaddr sockfd ifname ifindex s = (Val o, s') /\ lookups s s' /\
    (ifindex <= 0 -> ifname = None -> o = Some INADDR_ANY).
Proof.
  assert (Hioctl : forall name s0, exists o s', (r <~ sys (sys_ioctl_ifreq sockfd SIOCGIFADDR name) ;;
      if rv r <? 0 then mpure None
      else match rsa r with Some (SockIn _ a) => mpure (Some a) | _ => undefined end) s0 = (Val o, s')
      /\ lookups s0 s').
  { intros name s0. rewrite then_sys. pose proof (ifaddr_law (trace s0) sockfd name) as Hl.
    fold (answer (sys_ioctl_ifreq sockfd SIOCGIFADDR name) s0) in Hl. cbv zeta in Hl.
    set (r := answer _ _) in *. destruct (Z.ltb_spec (rv r) 0).
    - eexists _, _. split; [done|]. eexists [_]. split; [done|by repeat constructor].
    - destruct Hl as (p & a & ->); [lia|]. eexists _, _. split; [done|].
      eexists [_]. split; [done|by repeat constructor]. }
  unfold pick_ifaddr. destruct (Z.gtb_spec ifindex 0).
  - rewrite then_sys. destruct (rv _ =? 0).
    + eexists _, _. split; [done|]. split; [|lia]. eexists [_]. split; [done|by repeat constructor].
    + destruct (Hioctl (rbytes (answer (sys_if_indextoname ifindex) s))
        (after (sys_if_indextoname ifindex) (answer (sys_if_indextoname ifindex) s) s))
        as (o & s' & -> & evs & Ht & Hf).
      eexists _, _. split; [done|]. split; [|lia].
      exists (evs ++ [(sys_if_indextoname ifindex, answer (sys_if_indextoname ifindex) s)]).
      rewrite Ht, <- app_assoc. split; [done|]. apply Forall_app. split; [done|by repeat constructor].
  - destruct ifname as [name|].
    + destruct (Hioctl (take IFNAMSIZ name) s) as (o & s' & -> & Hl). by eexists _, _.
    + eexists _, _. split; [done|]. split; [by exists []|done].
Qed.

(** The call that asks for the operation [op] was made last, after lookups only, and [k] is
    what it returned. *)
Definition requested (sockfd : Z) (op : group_op) (k : Z) (s s' : st) : Prop :=
  exists c r s1, lookups s s1 /\ denote c = Some (sockfd, op) /\
    r = answer c s1 /\ s' = after c r s1 /\ k = rv r.

Lemma setsockopt_requested sockfd level optname v op s s1 :
  lookups s s1 -> denote (sys_setsockopt sockfd level optname v) = Some (sockfd, op) ->
  exists k s', setsockopt sockfd level optname v s1 = (Val k, s') /\ requested sockfd op k s s'.
Proof.
  intros Hl Hd. eexists _, _. split; [done|].
  exists (sys_setsockopt sockfd level optname v). eexists _, s1. by split_and!.
Qed.

(** Joining a group asks for the right membership whichever API the host has.  For a group
    of a supported family, [mcast_join] returns without calling [setsockopt] only when the
    interface it was given cannot be found (-1); otherwise it makes exactly one
    [setsockopt], at the level of the group's family, that asks for membership in this group,
    and returns its result; the interface is the default one when none was given, and the
    given index when the request carries an index. *)
Theorem mcast_join_request `{!IfaddrLaw} sockfd grp grplen ifname ifindex g s :
  group_of grp = Some g -> grplen <= sizeof_storage -> 0 <= ifindex ->
  exists k s', mcast_join sockfd grp grplen ifname ifindex s = (Val k, s') /\
    ((k = -1 /\ lookups s s' /\ (0 < ifindex \/ ifname <> None)) \/
     exists i, requested sockfd (GJoin g i) k s s' /\
       (ifindex = 0 -> ifname = None -> i = IfAny) /\
       (forall n, i = IfIndex n -> 0 < ifindex -> n = ifindex)).
Proof.
  intros Hg Hlen Hi. unfold mcast_join. destruct has_MCAST_JOIN_GROUP.
  - destruct (pick_ifindex_spec ifname ifindex s Hi) as (o & s1 & E & Hl & Ho & Hn).
    rewrite (then_val _ _ _ _ _ E). destruct o as [i|].
    2:{ eexists _, _. split; [done|]. left. destruct Ho as (_ & ? & _). split_and!; auto. }
    destruct (Z.gtb_spec grplen sizeof_storage); [lia|].
    destruct (setsockopt_requested sockfd (family_to_level (sa_family grp)) MCAST_JOIN_GROUP
      (OGroupReq i grp) (GJoin g (index_iface i)) s s1 Hl) as (k & s2 & E2 & Hr).
    { cbn. rewrite Hg. cbn. replace (sa_family grp) with g.1; [by rewrite Z.eqb_refl|].
      destruct grp; cbn in Hg; repeat case_match; by simplify_eq. }
    exists k, s2. split; [done|]. right. exists (index_iface i). split; [done|]. split.
    + intros. specialize (Hn ltac:(done) ltac:(done)). by simplify_eq.
    + intros n Hidx Hpos. specialize (Ho Hpos). subst i. unfold index_iface in Hidx.
      case_match; by simplify_eq.
  - destruct grp as [p a|p a f sc| | |]; cbn in Hg; try done; [|destruct ipv6 eqn:H6; [|done]];
      simplify_eq; cbn [negb].
    + destruct (pick_ifaddr_spec sockfd ifname ifindex s) as (o & s1 & E & Hl & Hn).
      rewrite (then_val _ _ _ _ _ E). destruct o as [ia|].
      2:{ eexists _, _. split; [done|]. left. split_and!; [done..|].
          destruct ifname; [by right|]. left. destruct (decide (ifindex <= 0)); [|lia].
          by specialize (Hn ltac:(done) ltac:(done)). }
      destruct (setsockopt_requested sockfd IPPROTO_IP IP_ADD_MEMBERSHIP (OMreq a ia)
        (GJoin (AF_INET, a) (addr_iface ia)) s s1 Hl) as (k & s2 & E2 & Hr); [done|].
      exists k, s2. split; [done|]. right. exists (addr_iface ia). split; [done|]. split.
      * intros. specialize (Hn ltac:(lia) ltac:(done)). by simplify_eq.
      * intros n. unfold addr_iface. by case_decide.
    + destruct (pick_ifindex_spec ifname ifindex s Hi) as (o & s1 & E & Hl & Ho & Hn).
      rewrite (then_val _ _ _ _ _ E). destruct o as [i|].
      2:{ eexists _, _. split; [done|]. left. destruct Ho as (_ & ? & _). split_and!; auto. }
      destruct (setsockopt_requested sockfd IPPROTO_IPV6 IPV6_JOIN_GROUP (OMreq6 a i)
        (GJoin (AF_INET6, a) (index_iface i)) s s1 Hl) as (k & s2 & E2 & Hr); [done|].
      exists k, s2. split; [done|]. right. exists (index_iface i). split; [done|]. split.
      * intros. specialize (Hn ltac:(done) ltac:(done)). by simplify_eq.
      * intros n Hidx Hpos. specialize (Ho Hpos). subst i. unfold index_iface in Hidx.
        case_match; by simplify_eq.
Qed.

Lemma lookups_refl s : lookups s s.
Proof. by exists []. Qed.

(** Leaving undoes joining on the default interface.  For a group of a supported family,
    with either API, [mcast_leave] makes exactly one call, and it asks for the removal of
    the membership (same group, default interface) that [mcast_join] without an interface
    asked for. *)
Theorem mcast_leave_undoes_join sockfd grp grplen g s1 s2 :
  group_of grp = Some g -> grplen <= sizeof_storage ->
  exists k1 s1' k2 s2',
    mcast_join sockfd grp grplen None 0 s1 = (Val k1, s1') /\
    requested sockfd (GJoin g IfAny) k1 s1 s1' /\
    mcast_leave sockfd grp grplen s2 = (Val k2, s2') /\
    requested sockfd (GLeave g IfAny) k2 s2 s2'.
Proof.
  intros Hg Hlen.
  assert (Hfam : sa_family grp = g.1) by (destruct grp; cbn in *; repeat case_match; by simplify_eq).
  unfold mcast_join, mcast_leave. destruct has_MCAST_JOIN_GROUP.
  - cbn [pick_ifindex Z.gtb Z.compare]. rewrite then_pure.
    destruct (Z.gtb_spec grplen sizeof_storage); [lia|].
    destruct (setsockopt_requested sockfd (family_to_level (sa_family grp)) MCAST_JOIN_GROUP
      (OGroupReq 0 grp) (GJoin g IfAny) s1 s1 (lookups_refl s1)) as (k & s' & E & Hr).
    { cbn. rewrite Hg, Hfam. cbn. by rewrite Z.eqb_refl. }
    destruct (setsockopt_requested sockfd (family_to_level (sa_family grp)) MCAST_LEAVE_GROUP
      (OGroupReq 0 grp) (GLeave g IfAny) s2 s2 (lookups_refl s2)) as (k2 & s2' & E2 & Hr2).
    { cbn. rewrite Hg, Hfam. cbn. by rewrite Z.eqb_refl. }
    by exists k, s', k2, s2'.
  - destruct grp as [p a|p a f sc| | |]; cbn in Hg; try done; [|destruct ipv6 eqn:H6; [|done]];
      simplify_eq; cbn [negb pick_ifindex pick_ifaddr Z.gtb Z.compare]; rewrite then_pure.
    + destruct (setsockopt_requested sockfd IPPROTO_IP IP_ADD_MEMBERSHIP (OMreq a INADDR_ANY)
        (GJoin (AF_INET, a) IfAny) s1 s1 (lookups_refl s1)) as (k & s' & E & Hr); [done|].
      destruct (setsockopt_requested sockfd IPPROTO_IP IP_DROP_MEMBERSHIP (OMreq a INADDR_ANY)
        (GLeave (AF_INET, a) IfAny) s2 s2 (lookups_refl s2)) as (k2 & s2' & E2 & Hr2); [done|].
      by exists k, s', k2, s2'.
    + destruct (setsockopt_requested sockfd IPPROTO_IPV6 IPV6_JOIN_GROUP (OMreq6 a 0)
        (GJoin (AF_INET6, a) IfAny) s1 s1 (lookups_refl s1)) as (k & s' & E & Hr); [done|].
      destruct (setsockopt_requested sockfd IPPROTO_IPV6 IPV6_LEAVE_GROUP (OMreq6 a 0)
        (GLeave (AF_INET6, a) IfAny) s2 s2 (lookups_refl s2)) as (k2 & s2' & E2 & Hr2); [done|].
      by exists k, s', k2, s2'.
Qed.
End McastClaims.

(** A host with the old IPv4 API only, on which every call succeeds and every interface has the
    address 10.0.0.1. *)
Definition plain_host : OS := fun _ _ => SR 1 None c["eth0"] [] (Some (SockIn [0; 0] [10; 0; 0; 1])).

Lemma plain_host_ifaddr : @IfaddrLaw plain_host.
Proof. intros h fd name r _. by eexists _, _. Qed.

#[local] Instance plain_config : Config :=
  {| ipv6 := true; have_sockaddr_dl := false; little_endian := true |}.
#[local] Instance plain_mcast : McastConfig :=
  {| has_MCAST_JOIN_GROUP := false; has_MCAST_JOIN_SOURCE_GROUP := false;
     has_MCAST_LEAVE_SOURCE_GROUP := false; has_MCAST_BLOCK_SOURCE := false;
     has_MCAST_UNBLOCK_SOURCE := false; has_IP_ADD_SOURCE_MEMBERSHIP := true;
     has_IP_DROP_SOURCE_MEMBERSHIP := true; has_IP_BLOCK_SOURCE := true;
     has_IP_UNBLOCK_SOURCE := true |}.

Lemma mcast_join_request_witness :
  exists k s', mcast_join (os := plain_host) 3 (SockIn [0; 0] [224; 0; 0; 1]) 16 (Some c["eth0"]) 0 init
      = (Val k, s') /\
    ((k = -1 /\ lookups init s' /\ (0 < 0 \/ Some c["eth0"] <> None)) \/
     exists i, requested (os := plain_host) 3 (GJoin (AF_INET, [224; 0; 0; 1]) i) k init s' /\
       (0 = 0 -> Some c["eth0"] = None -> i = IfAny) /\
       (forall n, i = IfIndex n -> 0 < 0 -> n = 0)).
Proof.
  apply (@mcast_join_request plain_host _ _ plain_host_ifaddr 3 (SockIn [0; 0] [224; 0; 0; 1]) 16
           (Some c["eth0"]) 0 (AF_INET, [224; 0; 0; 1]) init); [reflexivity|discriminate|lia].
Defined.

Lemma mcast_leave_undoes_join_witness :
  exists k1 s1' k2 s2',
    mcast_join (os := plain_host) 3 (SockIn [0; 0] [224; 0; 0; 1]) 16 None 0 init = (Val k1, s1') /\
    requested (os := plain_host) 3 (GJoin (AF_INET, [224; 0; 0; 1]) IfAny) k1 init s1' /\
    mcast_leave (os := plain_host) 3 (SockIn [0; 0] [224; 0; 0; 1]) 16 init = (Val k2, s2') /\
    requested (os := plain_host) 3 (GLeave (AF_INET, [224; 0; 0; 1]) IfAny) k2 init s2'.
Proof.
  apply (mcast_leave_undoes_join (os := plain_host) 3 (SockIn [0; 0] [224; 0; 0; 1]) 16
           (AF_INET, [224; 0; 0; 1]) init init); [reflexivity|discriminate].
Defined.
