(* ===== verification/Gai.v ===== *)
(** [libgai/]: the implementation of [getaddrinfo], [getnameinfo] and [freeaddrinfo].

    The linked list of [addrinfo] structures is a list of records in the order of the links;
    a record knows the pointers it owns, so that allocation and release can be accounted for:
    [calloc], [malloc], [strdup] and [free] are calls of the environment, and any allocation
    may fail.  The host and service databases are the class [Netdb]; the [#ifdef]s are the
    class [GaiConfig]. *)

From S2P Require Import Prelude CText Sys Error Wrappers InetAddr SockUtil.

Class GaiConfig : Type := { IPv4 : bool; IPv6 : bool; UNIXdomain : bool }.

(** [addrinfo.h], [gai_hdr.h] *)
Definition AI_PASSIVE : Z := 1.
Definition AI_CANONNAME : Z := 2.
Definition AI_CLONE : Z := 4.
Definition NI_NOFQDN : Z := 1.
Definition NI_NUMERICHOST : Z := 2.
Definition NI_NAMEREQD : Z := 4.
Definition NI_NUMERICSERV : Z := 8.
Definition NI_DGRAM : Z := 16.
Definition EAI_ADDRFAMILY : Z := 1.
Definition EAI_AGAIN : Z := 2.
Definition EAI_BADFLAGS : Z := 3.
Definition EAI_FAIL : Z := 4.
Definition EAI_FAMILY : Z := 5.
Definition EAI_MEMORY : Z := 6.
Definition EAI_NODATA : Z := 7.
Definition EAI_NONAME : Z := 8.
Definition EAI_SERVICE : Z := 9.
Definition EAI_SOCKTYPE : Z := 10.
Definition EAI_SYSTEM : Z := 11.

(** [struct addrinfo]: [ai_self] is its own address, [ai_addr] and [ai_canonname] pair a pointer
    with what it points to. *)
Record addrinfo : Type := AI {
  ai_self : Z;
  ai_flags : Z;
  ai_family : Z;
  ai_socktype : Z;
  ai_protocol : Z;
  ai_addrlen : Z;
  ai_canonname : option (Z * cstring);
  ai_addr : option (Z * sockaddr);
}.

(** The fields of [addrinfo] that hints use. *)
Record hints_t : Type := Hints {
  h_flags : Z;
  h_family : Z;
  h_socktype : Z;
  h_protocol : Z;
}.

(** [struct hostent] *)
Record hostent : Type := HE {
  h_name : cstring;
  h_addrtype : Z;
  h_addr_list : list (list Z);
}.

(** The databases of the resolver: a host entry or the value of [h_errno]; ports in network
    order.  The first argument of [gethostbyname] is [RES_USE_INET6]. *)
Class Netdb : Type := {
  gethostbyname : bool -> cstring -> hostent + Z;
  gethostbyname2 : cstring -> Z -> hostent + Z;
  gethostbyaddr : list Z -> Z -> option cstring;
  getservbyname : cstring -> cstring -> option (list Z);
  getservbyport : list Z -> option cstring -> option cstring;
  uname : option cstring;
}.

Definition sizeof_addrinfo : Z := 48.
Definition sizeof_sockaddr_in : Z := 16.
Definition sizeof_sockaddr_in6 : Z := 28.
Definition sizeof_sockaddr_un : Z := 110.
Definition sizeof_sun_path : Z := 108.

Definition has_flag (flags bit : Z) : bool := negb (Z.land flags bit =? 0).

(** [s == NULL || s[0] == '\0'] *)
Definition absent (s : option cstring) : bool :=
  match s with None | Some [] => true | Some _ => false end.

Definition first_char (s : cstring) : Z := hd 0 s.

Section Gai.
Context {os : OS} {SE : Strerror} {GC : GaiConfig} {DB : Netdb}.

Definition calloc (size : Z) : M Z := r <~ sys (sys_calloc 1 size) ;; mpure (rv r).
Definition malloc (size : Z) : M Z := r <~ sys (sys_malloc size) ;; mpure (rv r).
Definition strdup (s : cstring) : M Z := r <~ sys (sys_strdup s) ;; mpure (rv r).
Definition free (p : Z) : M unit := sys (sys_free p) ;;; mpure tt.

(** ** ga_echeck.c *)

Definition ip_socktype (t : Z) : bool :=
  (t =? SOCK_STREAM) || (t =? SOCK_DGRAM) || (t =? SOCK_RAW).

Definition ga_echeck (hostname servname : option cstring) (flags family socktype protocol : Z)
    : Z :=
  if negb (Z.land flags (Z.lnot (Z.lor AI_PASSIVE AI_CANONNAME)) =? 0) then EAI_BADFLAGS
  else if absent hostname && absent servname then EAI_NONAME
  else if family =? AF_UNSPEC then 0
  else if (family =? AF_INET) && IPv4 then
    if negb (socktype =? 0) && negb (ip_socktype socktype) then EAI_SOCKTYPE else 0
  else if (family =? AF_INET6) && IPv6 then
    if negb (socktype =? 0) && negb (ip_socktype socktype) then EAI_SOCKTYPE else 0
  else if (family =? AF_LOCAL) && UNIXdomain then
    if negb (socktype =? 0) && negb ((socktype =? SOCK_STREAM) || (socktype =? SOCK_DGRAM))
    then EAI_SOCKTYPE else 0
  else EAI_FAMILY.

(** ** ga_nsearch.c *)

(** The entries for [AF_INET], [AF_INET6] and [AF_UNSPEC] (IPv6 first, then IPv4). *)
Definition search_list (host4 host6 : cstring) (family : Z) : list (cstring * Z) :=
  let s4 := if IPv4 then [(host4, AF_INET)] else [] in
  let s6 := if IPv6 then [(host6, AF_INET6)] else [] in
  if family =? AF_INET then s4
  else if family =? AF_INET6 then s6
  else if family =? AF_UNSPEC then s6 ++ s4
  else [].

Definition ga_nsearch (hostname : option cstring) (hints : hints_t) : M (list (cstring * Z)) :=
  let search :=
    match hostname with
    | None | Some [] =>
        if has_flag (h_flags hints) AI_PASSIVE
        then search_list c["0.0.0.0"] c["0::0"] (h_family hints)
        else search_list c["localhost"] c["0::1"] (h_family hints)
    | Some host => search_list host host (h_family hints)
    end in
  let nsearch := Z.of_nat (length search) in
  if (nsearch <? 1) || (nsearch >? 2) then err_quit c["nsearch = %d"] [AInt nsearch]
  else mpure search.

(** ** ga_aistruct.c

    The new structure is linked in at the end of the list before it is filled in, so it is
    part of the list also when a later allocation fails. *)
Definition ga_aistruct (ais : list addrinfo) (hints : hints_t) (addr : list Z) (family : Z)
    : M (Z * list addrinfo) :=
  p <~ calloc sizeof_addrinfo ;;
  if p =? 0 then mpure (EAI_MEMORY, ais) else
  let flags := if h_socktype hints =? 0 then Z.lor 0 AI_CLONE else 0 in
  let mk addrlen a := AI p flags family (h_socktype hints) (h_protocol hints) addrlen None a in
  if (family =? AF_INET) && IPv4 then
    q <~ calloc sizeof_sockaddr_in ;;
    if q =? 0 then mpure (EAI_MEMORY, ais ++ [mk 0 None])
    else if (length addr <? 4)%nat then undefined
    else mpure (0, ais ++ [mk sizeof_sockaddr_in (Some (q, SockIn [0; 0] (take 4 addr)))])
  else if (family =? AF_INET6) && IPv6 then
    q <~ calloc sizeof_sockaddr_in6 ;;
    if q =? 0 then mpure (EAI_MEMORY, ais ++ [mk 0 None])
    else if (length addr <? 16)%nat then undefined
    else mpure (0, ais ++ [mk sizeof_sockaddr_in6 (Some (q, SockIn6 [0; 0] (take 16 addr) 0 0))])
  else if (family =? AF_LOCAL) && UNIXdomain then
    if Z.of_nat (length addr) >=? sizeof_sun_path then mpure (EAI_SERVICE, ais ++ [mk 0 None])
    else
      q <~ calloc sizeof_sockaddr_un ;;
      if q =? 0 then mpure (EAI_MEMORY, ais ++ [mk 0 None])
      else
        (if has_flag (h_flags hints) AI_PASSIVE
         then sys (sys_unlink addr) ;;; mpure tt       (* OK if this fails *)
         else mpure tt) ;;;
        mpure (0, ais ++ [mk sizeof_sockaddr_un (Some (q, SockUn addr))])
  else mpure (0, ais ++ [mk 0 None]).

(** ** ga_clone.c

    The pieces of the list that stand for the structure afterwards, and the new structure
    when it is complete. *)
Definition ga_clone (ai : addrinfo) : M (list addrinfo * option addrinfo) :=
  p <~ calloc sizeof_addrinfo ;;
  if p =? 0 then mpure ([ai], None) else
  let new a := AI p 0 (ai_family ai) (ai_socktype ai) (ai_protocol ai) (ai_addrlen ai) None a in
  q <~ malloc (ai_addrlen ai) ;;
  if q =? 0 then mpure ([ai; new None], None) else
  match ai_addr ai with
  | Some (_, sa) => mpure ([ai], Some (new (Some (q, sa))))
  | None => undefined
  end.

(** ** ga_port.c *)

Definition set_socktype (ai : addrinfo) (socktype : Z) : addrinfo :=
  AI (ai_self ai) (ai_flags ai) (ai_family ai) socktype (ai_protocol ai) (ai_addrlen ai)
    (ai_canonname ai) (ai_addr ai).

Definition with_addr (ai : addrinfo) (p : Z) (sa : sockaddr) : addrinfo :=
  AI (ai_self ai) (ai_flags ai) (ai_family ai) (ai_socktype ai) (ai_protocol ai) (ai_addrlen ai)
    (ai_canonname ai) (Some (p, sa)).

(** The [switch]: the structure with the port filled in, and what is added to [nfound]. *)
Definition fill_port (ai : addrinfo) (port : list Z) : M (Z * addrinfo) :=
  if (ai_family ai =? AF_INET) && IPv4 then
    match ai_addr ai with
    | Some (p, SockIn _ a) => mpure (1, with_addr ai p (SockIn port a))
    | _ => undefined
    end
  else if (ai_family ai =? AF_INET6) && IPv6 then
    match ai_addr ai with
    | Some (p, SockIn6 _ a f i) => mpure (1, with_addr ai p (SockIn6 port a f i))
    | _ => undefined
    end
  else mpure (0, ai).

(** The number of entries found, -1 for an allocation error, and the list as it is then. *)
Fixpoint ga_port (ais : list addrinfo) (port : list Z) (socktype : Z)
    : M (Z * list addrinfo) :=
  match ais with
  | [] => mpure (0, [])
  | ai :: rest =>
      let filled before ai :=
        f <~ fill_port (set_socktype ai socktype) port ;;
        r <~ ga_port rest port socktype ;;
        if r.1 <? 0 then mpure (-1, before ++ f.2 :: r.2)
        else mpure (f.1 + r.1, before ++ f.2 :: r.2) in
      if has_flag (ai_flags ai) AI_CLONE then
        if negb (ai_socktype ai =? 0) then
          r <~ ga_clone ai ;;
          match r with
          | (pieces, None) => mpure (-1, pieces ++ rest)      (* memory allocation error *)
          | (pieces, Some new) => filled pieces new
          end
        else filled [] ai
      else if negb (ai_socktype ai =? socktype) then           (* ignore if mismatch *)
        r <~ ga_port rest port socktype ;; mpure (r.1, ai :: r.2)
      else filled [] ai
  end.

(** ** ga_serv.c *)

(** One call of [ga_port] and what [ga_serv] does with its result: [nfound] and the list, or
    the error. *)
Definition serv_port (nfound : Z) (ais : list addrinfo) (port : list Z) (socktype : Z)
    : M (Z * (Z * list addrinfo)) :=
  r <~ ga_port ais port socktype ;;
  if r.1 <? 0 then mpure (EAI_MEMORY, (nfound, r.2)) else mpure (0, (nfound + r.1, r.2)).

Definition serv_name (wanted : bool) (nfound : Z) (ais : list addrinfo) (serv proto : cstring)
    (socktype : Z) : M (Z * (Z * list addrinfo)) :=
  if wanted then
    match getservbyname serv proto with
    | Some s_port => serv_port nfound ais s_port socktype
    | None => mpure (0, (nfound, ais))
    end
  else mpure (0, (nfound, ais)).

Definition ga_serv (ais : list addrinfo) (hints : hints_t) (serv : cstring)
    : M (Z * list addrinfo) :=
  r <~ (if isdigit (first_char serv) then
          let port := htons (atoi serv) in
          if negb (h_socktype hints =? 0) then serv_port 0 ais port (h_socktype hints)
          else
            r <~ serv_port 0 ais port SOCK_STREAM ;;
            if negb (r.1 =? 0) then mpure r
            else serv_port r.2.1 r.2.2 port SOCK_DGRAM
        else
          let t := h_socktype hints in
          r <~ serv_name ((t =? 0) || (t =? SOCK_STREAM)) 0 ais serv c["tcp"] SOCK_STREAM ;;
          if negb (r.1 =? 0) then mpure r
          else serv_name ((t =? 0) || (t =? SOCK_DGRAM)) r.2.1 r.2.2 serv c["udp"] SOCK_DGRAM) ;;
  let '(rc, (nfound, ais)) := r in
  if negb (rc =? 0) then mpure (rc, ais)
  else if nfound =? 0 then
    mpure (if h_socktype hints =? 0 then EAI_NONAME else EAI_SERVICE, ais)
  else mpure (0, ais).

(** ** freeaddrinfo.c *)

Fixpoint freeaddrinfo (ais : list addrinfo) : M unit :=
  match ais with
  | [] => mpure tt
  | ai :: rest =>
      (match ai_addr ai with Some (p, _) => free p | None => mpure tt end) ;;;
      (match ai_canonname ai with Some (p, _) => free p | None => mpure tt end) ;;;
      free (ai_self ai) ;;; freeaddrinfo rest
  end.

(** ** ga_unix.c *)

Definition set_canonname (ais : list addrinfo) (canon : option (Z * cstring)) : list addrinfo :=
  match ais with
  | [] => []
  | ai :: rest =>
      AI (ai_self ai) (ai_flags ai) (ai_family ai) (ai_socktype ai) (ai_protocol ai)
        (ai_addrlen ai) canon (ai_addr ai) :: rest
  end.

Definition hints_socktype (h : hints_t) (t : Z) : hints_t :=
  Hints (h_flags h) (h_family h) t (h_protocol h).

(** The error or the list that is stored through [result]. *)
Definition ga_unix (path : cstring) (hints : hints_t) : M (Z + list addrinfo) :=
  if negb (h_family hints =? AF_UNSPEC) && negb (h_family hints =? AF_LOCAL)
  then mpure (inl EAI_ADDRFAMILY) else
  r <~ (if h_socktype hints =? 0 then
          (* no socket type specified: return stream then dgram *)
          r <~ ga_aistruct [] (hints_socktype hints SOCK_STREAM) path AF_LOCAL ;;
          if negb (r.1 =? 0) then mpure r
          else ga_aistruct r.2 (hints_socktype hints SOCK_DGRAM) path AF_LOCAL
        else ga_aistruct [] hints path AF_LOCAL) ;;
  let '(rc, ais) := r in
  if negb (rc =? 0) then mpure (inl rc)
  else if has_flag (h_flags hints) AI_CANONNAME then
    match uname with
    | None => mpure (inl EAI_SYSTEM)
    | Some nodename =>
        q <~ strdup nodename ;;
        if q =? 0 then mpure (inl EAI_MEMORY)
        else mpure (inr (set_canonname ais (Some (q, nodename))))
    end
  else mpure (inr ais).

(** ** getaddrinfo.c *)

(** The variables of the search loop: the list, the canonical name. *)
Definition ga_state : Type := list addrinfo * option (Z * cstring).

(** [for (ap = hptr->h_addr_list; *ap != NULL; ap++) ...] *)
Fixpoint ga_addresses (ais : list addrinfo) (hints : hints_t) (aps : list (list Z)) (family : Z)
    : M (Z * list addrinfo) :=
  match aps with
  | [] => mpure (0, ais)
  | ap :: aps' =>
      r <~ ga_aistruct ais hints ap family ;;
      if negb (r.1 =? 0) then mpure r else ga_addresses r.2 hints aps' family
  end.

Definition h_errno_code (h_errno : Z) : Z :=
  if h_errno =? HOST_NOT_FOUND then EAI_NONAME
  else if h_errno =? TRY_AGAIN then EAI_AGAIN
  else if h_errno =? NO_RECOVERY then EAI_FAIL
  else if h_errno =? NO_DATA then EAI_NODATA
  else EAI_NONAME.

(** A numeric address of [family]: [Some addr] when [host] is one. *)
Definition numeric_host (family : Z) (host : cstring) : M (option (list Z)) :=
  let size := if family =? AF_INET then 4%nat else 16%nat in
  r <~ checked (Pton.inet_pton family host (replicate size 0)) ;;
  mpure (if r.1.1 =? 1 then Some r.1.2 else None).

(** What is done for an address string of [family] that [inet_pton] accepted. *)
Definition ga_numeric (family search_family : Z) (hints : hints_t) (addr : list Z)
    (ais : list addrinfo) : M (Z * list addrinfo) :=
  if negb (h_family hints =? AF_UNSPEC) && negb (h_family hints =? family)
  then mpure (EAI_ADDRFAMILY, ais)
  else if negb (search_family =? family) then mpure (0, ais)      (* ignore *)
  else ga_aistruct ais hints addr family.

(** The remainder of the loop body: look up the host name. *)
Definition ga_lookup (hostname : option cstring) (hints : hints_t) (nsearch : nat)
    (host : cstring) (family : Z) (v : ga_state) : M (Z * ga_state) :=
  let '(ais, canon) := v in
  let hptr := if (nsearch =? 2)%nat then gethostbyname2 host family
              else gethostbyname ((family =? AF_INET6) && IPv6) host in
  match hptr with
  | inr h_errno =>
      if (nsearch =? 2)%nat then mpure (0, v)      (* failure OK if multiple searches *)
      else mpure (h_errno_code h_errno, v)
  | inl h =>
      if negb (h_family hints =? AF_UNSPEC) && negb (h_family hints =? h_addrtype h)
      then mpure (EAI_ADDRFAMILY, v) else
      (* save canonical name first time *)
      c <~ (if negb (absent hostname) && has_flag (h_flags hints) AI_CANONNAME &&
               (match canon with None => true | Some _ => false end)
            then q <~ strdup (h_name h) ;;
                 mpure (if q =? 0 then inl EAI_MEMORY else inr (Some (q, h_name h)))
            else mpure (inr canon)) ;;
      match c with
      | inl e => mpure (e, v)
      | inr canon =>
          (* create one addrinfo{} for each returned address *)
          r <~ ga_addresses ais hints (h_addr_list h) (h_addrtype h) ;;
          mpure (r.1, (r.2, canon))
      end
  end.

(** One iteration of the search loop; a nonzero code is an error. *)
Definition ga_search_one (hostname : option cstring) (hints : hints_t) (nsearch : nat)
    (sptr : cstring * Z) (v : ga_state) : M (Z * ga_state) :=
  let '(host, family) := sptr in
  a4 <~ (if IPv4 && isdigit (first_char host) then numeric_host AF_INET host else mpure None) ;;
  match a4 with
  | Some addr =>
      r <~ ga_numeric AF_INET family hints addr v.1 ;; mpure (r.1, (r.2, v.2))
  | None =>
      a6 <~ (if IPv6 && (isxdigit (first_char host) || (first_char host =? 58)) &&
                (match strchr host 58 with Some _ => true | None => false end)
             then numeric_host AF_INET6 host else mpure None) ;;
      match a6 with
      | Some addr =>
          r <~ ga_numeric AF_INET6 family hints addr v.1 ;; mpure (r.1, (r.2, v.2))
      | None => ga_lookup hostname hints nsearch host family v
      end
  end.

Fixpoint ga_search (hostname : option cstring) (hints : hints_t) (nsearch : nat)
    (sptrs : list (cstring * Z)) (v : ga_state) : M (Z * ga_state) :=
  match sptrs with
  | [] => mpure (0, v)
  | sptr :: sptrs' =>
      r <~ ga_search_one hostname hints nsearch sptr v ;;
      if negb (r.1 =? 0) then mpure r else ga_search hostname hints nsearch sptrs' r.2
  end.

(** Everything after the search: the canonical name and the service. *)
Definition ga_finish (hostname servname : option cstring) (hints : hints_t)
    (search : list (cstring * Z)) (v : ga_state) : M (Z * list addrinfo) :=
  let '(ais, canon) := v in
  match ais with
  | [] => mpure (EAI_NONAME, ais)                       (* nothing found *)
  | _ =>
      r <~ (if negb (absent hostname) && has_flag (h_flags hints) AI_CANONNAME then
              match canon with
              | Some _ => mpure (0, set_canonname ais canon)
              | None =>
                  let name := default [] (fst <$> head search) in
                  q <~ strdup name ;;
                  if q =? 0 then mpure (EAI_MEMORY, set_canonname ais None)
                  else mpure (0, set_canonname ais (Some (q, name)))
              end
            else mpure (0, ais)) ;;
      let '(rc, ais) := r in
      if negb (rc =? 0) then mpure (rc, ais) else
      match servname with
      | None | Some [] => mpure (0, ais)
      | Some serv => ga_serv ais hints serv
      end
  end.

(** The special case of the Unix domain. *)
Definition unix_request (hostname servname : option cstring) : bool :=
  match hostname, servname with
  | Some h, Some (47 :: _) =>
      UNIXdomain && ((memcmp h c["/local"] =? 0) || (memcmp h c["/unix"] =? 0))
  | _, _ => false
  end.

Definition getaddrinfo (hostname servname : option cstring) (hintsp : option hints_t)
    : M (Z + list addrinfo) :=
  let hints := default (Hints 0 AF_UNSPEC 0 0) hintsp in
  let bad e ais := freeaddrinfo ais ;;; mpure (inl e) in
  let rc := ga_echeck hostname servname (h_flags hints) (h_family hints) (h_socktype hints)
              (h_protocol hints) in
  if negb (rc =? 0) then bad rc [] else
  match unix_request hostname servname, servname with
  | true, Some serv => ga_unix serv hints
  | _, _ =>
      search <~ ga_nsearch hostname hints ;;
      r <~ ga_search hostname hints (length search) search ([], None) ;;
      if negb (r.1 =? 0) then bad r.1 r.2.1 else
      r <~ ga_finish hostname servname hints search r.2 ;;
      if negb (r.1 =? 0) then bad r.1 r.2 else mpure (inr r.2)
  end.

(** ** gai_strerror.c *)

Definition gai_strerror (err : Z) : cstring :=
  if err =? EAI_ADDRFAMILY then c["address family for host not supported"]
  else if err =? EAI_AGAIN then c["temporary failure in name resolution"]
  else if err =? EAI_BADFLAGS then c["invalid flags value"]
  else if err =? EAI_FAIL then c["non-recoverable failure in name resolution"]
  else if err =? EAI_FAMILY then c["address family not supported"]
  else if err =? EAI_MEMORY then c["memory allocation failure"]
  else if err =? EAI_NODATA then c["no address associated with host"]
  else if err =? EAI_NONAME then c["host nor service provided, or not known"]
  else if err =? EAI_SERVICE then c["service not supported for socket type"]
  else if err =? EAI_SOCKTYPE then c["socket type not supported"]
  else if err =? EAI_SYSTEM then c["system error"]
  else c["unknown getaddrinfo() error"].

(** ** gn_ipv46.c, getnameinfo.c

    The return code and the two buffers. *)

Definition numeric_name (family : Z) (aptr host : list Z) (hostlen : Z) : M (Z * list Z) :=
  r <~ checked (Ntop.inet_ntop family aptr host hostlen) ;;
  match r with
  | inl e => set_errno e ;;; mpure (1, host)
  | inr host => mpure (0, host)
  end.

(** The name up to its first dot. *)
Definition strip_domain (name : cstring) : cstring :=
  match strchr name 46 with Some i => take i name | None => name end.

Definition gn_ipv46 (host : list Z) (hostlen : Z) (serv : list Z) (servlen : Z)
    (aptr : list Z) (family : Z) (port : list Z) (flags : Z) : M (Z * list Z * list Z) :=
  h <~ (if hostlen >? 0 then
          if has_flag flags NI_NUMERICHOST then numeric_name family aptr host hostlen
          else
            match gethostbyaddr aptr family with
            | Some name =>
                let name := if has_flag flags NI_NOFQDN then strip_domain name else name in
                host <~ checked (snprintf host 0 hostlen name) ;; mpure (0, host)
            | None =>
                if has_flag flags NI_NAMEREQD then mpure (1, host)
                else numeric_name family aptr host hostlen
            end
        else mpure (0, host)) ;;
  let '(rc, host) := h in
  if negb (rc =? 0) then mpure (rc, host, serv) else
  serv <~ (if servlen >? 0 then
             let number := print_d (ntohs port) in
             let text :=
               if has_flag flags NI_NUMERICSERV then number
               else default number
                      (getservbyport port (if has_flag flags NI_DGRAM then Some c["udp"] else None)) in
             checked (snprintf serv 0 servlen text)
           else mpure serv) ;;
  mpure (0, host, serv).

Definition getnameinfo (sa : sockaddr) (host : list Z) (hostlen : Z) (serv : list Z)
    (servlen : Z) (flags : Z) : M (Z * list Z * list Z) :=
  match sa with
  | SockIn port addr =>
      if IPv4 then gn_ipv46 host hostlen serv servlen addr AF_INET port flags
      else mpure (1, host, serv)
  | SockIn6 port addr _ _ =>
      if IPv6 then gn_ipv46 host hostlen serv servlen addr AF_INET6 port flags
      else mpure (1, host, serv)
  | SockUn sun_path =>
      if UNIXdomain then
        host <~ (if hostlen >? 0 then checked (snprintf host 0 hostlen c["/local"])
                 else mpure host) ;;
        serv <~ (if servlen >? 0 then checked (snprintf serv 0 servlen sun_path)
                 else mpure serv) ;;
        mpure (0, host, serv)
      else mpure (1, host, serv)
  | _ => mpure (1, host, serv)
  end.

End Gai.
