(* ===== verification/GaiFacts.v ===== *)
(** Facts about [libgai/]: how the service expands the list of addresses, and the ownership of
    allocated memory. *)

From S2P Require Import Prelude CText Sys Traces Error Ownership Wrappers InetAddr SockUtil Gai.

(** * Expansion of the list by socket type *)

(** What a caller sees of an entry. *)
Definition view (ai : addrinfo) : Z * Z * option sockaddr :=
  (ai_family ai, ai_socktype ai, snd <$> ai_addr ai).

(** The address with its port filled in. *)
Definition with_port (sa : sockaddr) (port : list Z) : sockaddr :=
  match sa with
  | SockIn _ a => SockIn port a
  | SockIn6 _ a f i => SockIn6 port a f i
  | _ => sa
  end.

(** The entry for [sa] with socket type [t]. *)
Definition entry (t : Z) (port : list Z) (sa : sockaddr) : Z * Z * option sockaddr :=
  (sa_family sa, t, Some (with_port sa port)).

(** [ai] is an entry for the Internet address [sa] with flags [flags] and socket type [t]. *)
Definition holds `{GaiConfig} (flags t : Z) (ai : addrinfo) (sa : sockaddr) : Prop :=
  ai_flags ai = flags /\ ai_socktype ai = t /\ ai_family ai = sa_family sa /\
  (exists p, ai_addr ai = Some (p, sa)) /\
  match sa with SockIn _ _ => IPv4 = true | SockIn6 _ _ _ _ => IPv6 = true | _ => False end.

(** Allocations succeed. *)
Definition is_alloc (c : syscall) : bool :=
  match c with sys_calloc _ _ | sys_malloc _ | sys_strdup _ => true | _ => false end.

Class AllocOk `{OS} : Prop :=
  alloc_ok : forall h c, is_alloc c = true -> rv (os_answer h c) <> 0.

Section Expand.
Context {os : OS} {SE : Strerror} {GC : GaiConfig} {DB : Netdb}.

Lemma has_clone : has_flag AI_CLONE AI_CLONE = true.
Proof. done. Qed.

Lemma fill_port_ok flags t0 t ai sa port :
  holds flags t0 ai sa ->
  exists ai', fill_port (set_socktype ai t) port = mpure (1, ai') /\
    holds flags t ai' (with_port sa port).
Proof.
  intros (Hf & Ht & Hfam & (p & Ha) & Hcfg). unfold fill_port. cbn [set_socktype ai_family ai_addr].
  rewrite Hfam, Ha. destruct sa; try done; cbn; rewrite Hcfg; cbn;
    (eexists; split; [done|]); unfold holds; cbn; split_and!; try done; by eexists.
Qed.

(** The first use of the entries: all are still free, or all have the socket type asked for. *)
Lemma ga_port_fill flags t0 t ais sas port s :
  Forall2 (holds flags t0) ais sas ->
  (has_flag flags AI_CLONE = true /\ t0 = 0) \/ (has_flag flags AI_CLONE = false /\ t0 = t) ->
  exists ais', ga_port ais port t s = (Val (Z.of_nat (length ais), ais'), s) /\
    Forall2 (holds flags t) ais' ((fun sa => with_port sa port) <$> sas).
Proof.
  intros H Hc. induction H as [|ai sa ais sas Hai Hais IH].
  { exists []. split; [done|constructor]. }
  destruct IH as (ais' & E & F). cbn [ga_port].
  destruct (fill_port_ok flags t0 t ai sa port Hai) as (ai' & Efill & Hai').
  exists (ai' :: ais'). split; [|by constructor].
  assert (Hf : ai_flags ai = flags /\ ai_socktype ai = t0) by (split; apply Hai).
  destruct Hf as [-> ->]. rewrite Efill.
  assert (Hgo : (f <~ mpure (1, ai') ;; r <~ ga_port ais port t ;;
      if r.1 <? 0 then mpure (-1, [] ++ f.2 :: r.2) else mpure (f.1 + r.1, [] ++ f.2 :: r.2)) s
      = (Val (Z.of_nat (length (ai :: ais)), ai' :: ais'), s)).
  { rewrite then_pure, (then_val _ _ _ _ _ E). cbn [fst snd].
    destruct (Z.ltb_spec (Z.of_nat (length ais)) 0); [lia|]. cbn [app].
    unfold mpure. do 3 f_equal. cbn [length]. lia. }
  destruct Hc as [[-> ->]|[-> ->]]; cbn [negb]; [done|]. by rewrite Z.eqb_refl.
Qed.

(** The second use: every entry is followed by a clone for the other socket type. *)
Lemma ga_port_clone `{!AllocOk} t0 t ais sas port s :
  t0 <> 0 -> Forall2 (holds AI_CLONE t0) ais sas ->
  exists ais' s', ga_port ais port t s = (Val (Z.of_nat (length ais), ais'), s') /\
    view <$> ais' =
      concat ((fun sa => [(sa_family sa, t0, Some sa); entry t port sa]) <$> sas).
Proof.
  intros Ht0 HF. revert s. induction HF as [|ai sa ais sas Hai Hais IH]; intros s.
  { by exists [], s. }
  cbn [ga_port]. pose proof Hai as (Hf & Ht & Hfam & (p & Ha) & Hcfg).
  rewrite Hf, has_clone, Ht. destruct (Z.eqb_spec t0 0); [done|]. cbn [negb].
  unfold ga_clone, calloc, malloc. unfold mthen at 1 2 3, sys at 1.
  pose proof (alloc_ok (trace s) (sys_calloc 1 sizeof_addrinfo) eq_refl) as Hc.
  fold (answer (sys_calloc 1 sizeof_addrinfo) s) in Hc.
  set (r1 := answer (sys_calloc 1 sizeof_addrinfo) s) in *.
  set (s1 := after (sys_calloc 1 sizeof_addrinfo) r1 s).
  cbn [mpure]. destruct (Z.eqb_spec (rv r1) 0); [done|].
  unfold mthen at 1 2, sys at 1.
  pose proof (alloc_ok (trace s1) (sys_malloc (ai_addrlen ai)) eq_refl) as Hm.
  fold (answer (sys_malloc (ai_addrlen ai)) s1) in Hm.
  set (r2 := answer (sys_malloc (ai_addrlen ai)) s1) in *.
  set (s2 := after (sys_malloc (ai_addrlen ai)) r2 s1).
  cbn [mpure]. destruct (Z.eqb_spec (rv r2) 0); [done|]. rewrite Ha. cbn [mpure].
  set (new := AI (rv r1) 0 _ _ _ _ None (Some (rv r2, sa))).
  destruct (fill_port_ok 0 t0 t new sa port) as (new' & Efill & Hnew').
  { unfold holds, new. cbn. split_and!; try done; by eexists. }
  rewrite Efill, then_pure. destruct (IH s2) as (ais' & s' & E & Hv).
  rewrite (then_val _ _ _ _ _ E). cbn [fst snd].
  destruct (Z.ltb_spec (Z.of_nat (length ais)) 0); [lia|]. cbn [app].
  exists (ai :: new' :: ais'), s'. split.
  - unfold mpure. do 3 f_equal. cbn [length]. lia.
  - rewrite !fmap_cons, Hv. cbn [concat app].
    unfold view at 1. rewrite Hfam, Ht, Ha. cbn [fmap option_fmap option_map snd].
    destruct Hnew' as (_ & Ht' & Hfam' & (p' & Ha') & _).
    unfold view at 1. rewrite Hfam', Ht', Ha'. cbn [fmap option_fmap option_map snd].
    unfold entry. do 2 f_equal. f_equal. f_equal. by destruct sa.
Qed.

Lemma holds_view flags t ais sas :
  Forall2 (holds flags t) ais sas ->
  view <$> ais = (fun sa => (sa_family sa, t, Some sa)) <$> sas.
Proof.
  induction 1 as [|ai sa ais sas (_ & Ht & Hfam & (p & Ha) & _) _ IH]; [done|].
  rewrite !fmap_cons, IH. unfold view at 1. by rewrite Ht, Hfam, Ha.
Qed.

Lemma with_port_family sa p : sa_family (with_port sa p) = sa_family sa.
Proof. by destruct sa. Qed.

Lemma with_port_twice sa p q : with_port (with_port sa p) q = with_port sa q.
Proof. by destruct sa. Qed.

(** The ports of a service for stream and datagram sockets. *)
Definition serv_ports (serv : cstring) : option (list Z) * option (list Z) :=
  if isdigit (first_char serv)
  then let p := htons (atoi serv) in (Some p, Some p)
  else (getservbyname serv c["tcp"], getservbyname serv c["udp"]).

(** The entries for the addresses [sas] when the caller gave no socket type. *)
Definition expansion (ports : option (list Z) * option (list Z)) (sas : list sockaddr)
    : list (Z * Z * option sockaddr) :=
  match ports with
  | (Some pt, Some pu) =>
      concat ((fun sa => [entry SOCK_STREAM pt sa; entry SOCK_DGRAM pu sa]) <$> sas)
  | (Some pt, None) => entry SOCK_STREAM pt <$> sas
  | (None, Some pu) => entry SOCK_DGRAM pu <$> sas
  | (None, None) => []
  end.

Lemma serv_port_fill flags t0 t n ais sas port s :
  Forall2 (holds flags t0) ais sas ->
  (has_flag flags AI_CLONE = true /\ t0 = 0) \/ (has_flag flags AI_CLONE = false /\ t0 = t) ->
  exists ais', serv_port n ais port t s = (Val (0, (n + Z.of_nat (length ais), ais')), s) /\
    Forall2 (holds flags t) ais' ((fun sa => with_port sa port) <$> sas).
Proof.
  intros HF Hc. destruct (ga_port_fill flags t0 t ais sas port s HF Hc) as (ais' & E & HF').
  exists ais'. split; [|done]. unfold serv_port. rewrite (then_val _ _ _ _ _ E). cbn [fst snd].
  by destruct (Z.ltb_spec (Z.of_nat (length ais)) 0); [lia|].
Qed.

Lemma serv_port_clone `{!AllocOk} t0 t n ais sas port s :
  t0 <> 0 -> Forall2 (holds AI_CLONE t0) ais sas ->
  exists ais' s', serv_port n ais port t s = (Val (0, (n + Z.of_nat (length ais), ais')), s') /\
    view <$> ais' =
      concat ((fun sa => [(sa_family sa, t0, Some sa); entry t port sa]) <$> sas).
Proof.
  intros Ht HF. destruct (ga_port_clone t0 t ais sas port s Ht HF) as (ais' & s' & E & Hv).
  exists ais', s'. split; [|done]. unfold serv_port. rewrite (then_val _ _ _ _ _ E). cbn [fst snd].
  by destruct (Z.ltb_spec (Z.of_nat (length ais)) 0); [lia|].
Qed.

(** The stream pass and then the datagram pass, from fresh entries. *)
Lemma serv_both `{!AllocOk} ais sas pt pu s :
  Forall2 (holds AI_CLONE 0) ais sas -> sas <> [] ->
  exists n ais' s',
    (r <~ serv_port 0 ais pt SOCK_STREAM ;;
     if negb (r.1 =? 0) then mpure r else serv_port r.2.1 r.2.2 pu SOCK_DGRAM) s
    = (Val (0, (n, ais')), s') /\ n <> 0 /\
    view <$> ais' = expansion (Some pt, Some pu) sas.
Proof.
  intros HF Hne. destruct (serv_port_fill AI_CLONE 0 SOCK_STREAM 0 ais sas pt s HF) as (ais1 & E1 & F1);
    [by left|].
  rewrite (then_val _ _ _ _ _ E1). cbn [fst snd Z.eqb negb].
  destruct (serv_port_clone SOCK_STREAM SOCK_DGRAM (0 + Z.of_nat (length ais)) ais1 _ pu s
    ltac:(done) F1) as (ais2 & s2 & -> & Hv).
  eexists _, ais2, s2. split; [done|]. split.
  - destruct HF; [done|]. cbn [length]. lia.
  - rewrite Hv. unfold expansion. f_equal. rewrite <- list_fmap_compose.
    apply list_fmap_ext. intros _ sa _. cbn. unfold entry.
    by rewrite with_port_family, with_port_twice.
Qed.

Lemma ga_serv_expand `{!AllocOk} ais hints serv sas s :
  h_socktype hints = 0 -> Forall2 (holds AI_CLONE 0) ais sas -> sas <> [] ->
  exists rc ais' s', ga_serv ais hints serv s = (Val (rc, ais'), s') /\
    match serv_ports serv with
    | (None, None) => rc = EAI_NONAME
    | ports => rc = 0 /\ view <$> ais' = expansion ports sas
    end.
Proof.
  intros Ht HF Hne. unfold ga_serv, serv_ports. rewrite Ht. cbn [Z.eqb negb orb].
  destruct (isdigit (first_char serv)).
  - destruct (serv_both ais sas (htons (atoi serv)) (htons (atoi serv)) s HF Hne)
      as (n & ais' & s' & E & Hn & Hv).
    rewrite (then_val _ _ _ _ _ E). cbn [Z.eqb negb]. destruct (Z.eqb_spec n 0); [done|].
    eexists _, ais', s'. by split_and!.
  - unfold serv_name. destruct (getservbyname serv c["tcp"]) as [pt|];
      destruct (getservbyname serv c["udp"]) as [pu|].
    + destruct (serv_both ais sas pt pu s HF Hne) as (n & ais' & s' & E & Hn & Hv).
      rewrite (then_val _ _ _ _ _ E). cbn [Z.eqb negb]. destruct (Z.eqb_spec n 0); [done|].
      eexists _, ais', s'. by split_and!.
    + destruct (serv_port_fill AI_CLONE 0 SOCK_STREAM 0 ais sas pt s HF) as (ais1 & E1 & F1);
        [by left|].
      unfold mthen. rewrite E1. cbn [fst snd Z.eqb negb mpure].
      destruct (Z.eqb_spec (0 + Z.of_nat (length ais)) 0); [destruct HF; [done|cbn in *; lia]|].
      eexists _, ais1, s. split; [done|]. split; [done|].
      rewrite (holds_view _ _ _ _ F1), <- list_fmap_compose. apply list_fmap_ext.
      intros _ sa _. cbn. unfold entry. by rewrite with_port_family.
    + rewrite then_pure. cbn [fst snd Z.eqb negb].
      destruct (serv_port_fill AI_CLONE 0 SOCK_DGRAM 0 ais sas pu s HF) as (ais1 & E1 & F1);
        [by left|].
      rewrite (then_val _ _ _ _ _ E1). cbn [Z.eqb negb].
      destruct (Z.eqb_spec (0 + Z.of_nat (length ais)) 0); [destruct HF; [done|cbn in *; lia]|].
      eexists _, ais1, s. split; [done|]. split; [done|].
      rewrite (holds_view _ _ _ _ F1), <- list_fmap_compose. apply list_fmap_ext.
      intros _ sa _. cbn. unfold entry. by rewrite with_port_family.
    + by eexists _, _, _.
Qed.
End Expand.

(** * Memory

    Memory accounting for [libgai/]: who owns what [calloc], [malloc] and [strdup] returned.

    The resource is [memory]; each function of the library has a specification in the style of
    [Ownership.v]. *)

(** * Allocation and release in a history *)

Definition alloc_data (e : event) : list Z :=
  if is_alloc e.1 && negb (rv e.2 =? 0) then [rv e.2] else [].
Definition free_data (e : event) : list Z :=
  match e.1 with sys_free p => [p] | _ => [] end.

Definition allocated : list event -> list Z := collect alloc_data.
Definition freed : list event -> list Z := collect free_data.

(** The pointers of an entry and of a list. *)
Definition ptr {A} (x : option (Z * A)) : list Z :=
  match x with Some (p, _) => [p] | None => [] end.
Definition owned1 (ai : addrinfo) : list Z :=
  ai_self ai :: ptr (ai_addr ai) ++ ptr (ai_canonname ai).
Definition owned (ais : list addrinfo) : list Z := concat (owned1 <$> ais).

Definition memory : resource := Res alloc_data free_data.
Local Abbreviation mspec := (Ownership.mspec memory).

Section Rules.
Context {os : OS} {SE : Strerror}.

(** The pointer an allocation returns, if it succeeds. *)
Definition new_ptr (p : Z) : list Z := if p =? 0 then [] else [p].

Lemma mspec_alloc c B :
  is_alloc c = true ->
  mspec (r <~ sys c ;; mpure (rv r)) B (fun _ => True) (fun p => new_ptr p ++ B).
Proof.
  intros Hc. apply (mspec_bind _ _ _ (fun _ => True) (fun r => new_ptr (rv r) ++ B)).
  - apply mspec_sys. intros r. cbn [gain lose memory]. unfold alloc_data, free_data, new_ptr.
    cbn [fst snd]. rewrite Hc. destruct c; try done; cbn; by destruct (rv _ =? 0).
  - intros r _. by apply mspec_pure.
Qed.

Lemma mspec_free p B B' : B ≡ₚ p :: B' -> mspec (free p) B (fun _ => True) (fun _ => B').
Proof.
  intros HB. apply (mspec_bind _ _ _ (fun _ => True) (fun _ => B')).
  - apply mspec_sys. intros r. done.
  - intros ? _. by apply mspec_pure.
Qed.

Lemma new_ptr_ok p : p <> 0 -> new_ptr p = [p].
Proof. intros. unfold new_ptr. by destruct (Z.eqb_spec p 0). Qed.
End Rules.

Lemma owned_app a b : owned (a ++ b) = owned a ++ owned b.
Proof. unfold owned. by rewrite fmap_app, concat_app. Qed.

Lemma owned_cons ai ais : owned (ai :: ais) = owned1 ai ++ owned ais.
Proof. done. Qed.

(** Permutations of appended lists, by counting. *)
Ltac perm :=
  cbn [fst snd] in *; change (new_ptr 0) with (@nil Z) in *; apply (Permutation_count_occ Z.eq_dec); intros ?x;
  repeat match goal with
  | H : _ ≡ₚ _ |- _ => apply (Permutation_count_occ Z.eq_dec) with (x := x) in H
  end;
  rewrite ?owned_app, ?owned_cons in *; unfold owned1 in *; cbn [owned fmap list_fmap concat ptr
    ai_self ai_addr ai_canonname app] in *;
  perm_core.

(** No entry has a canonical name yet. *)
Definition nocanon (ais : list addrinfo) : Prop :=
  Forall (fun ai => ai_canonname ai = None) ais.

Section Gai.
Context {os : OS} {SE : Strerror} {GC : GaiConfig} {DB : Netdb}.

Definition list_spec (m : M (Z * list addrinfo)) (ais : list addrinfo) : Prop :=
  mspec m (owned ais) (fun r => nocanon ais -> nocanon r.2) (fun r => owned r.2).

Ltac alloc := eapply mspec_bind; [by apply mspec_alloc|]; intros ?p _; cbv beta.

Lemma nocanon_snoc ais ai : ai_canonname ai = None -> nocanon ais -> nocanon (ais ++ [ai]).
Proof. intros. apply Forall_app. split; [done|by constructor]. Qed.

Lemma ga_aistruct_mem ais hints addr family :
  list_spec (ga_aistruct ais hints addr family) ais.
Proof.
  unfold list_spec, ga_aistruct, calloc. alloc.
  destruct (Z.eqb_spec p 0) as [->|Hp]; [apply mspec_pure; [done|perm]|].
  rewrite (new_ptr_ok p) by done.
  assert (Hnone : forall rc fl len, mspec (mpure (rc, ais ++ [AI p fl family (h_socktype hints)
     (h_protocol hints) len None None])) ([p] ++ owned ais)
     (fun r : Z * list addrinfo => nocanon ais -> nocanon r.2) (fun r => owned r.2)).
  { intros. apply mspec_pure; [by apply nocanon_snoc|perm]. }
  assert (Hsome : forall q fl len sa, q <> 0 -> mspec (mpure (0, ais ++ [AI p fl family
     (h_socktype hints) (h_protocol hints) len None (Some (q, sa))])) (new_ptr q ++ [p] ++ owned ais)
     (fun r : Z * list addrinfo => nocanon ais -> nocanon r.2) (fun r => owned r.2)).
  { intros. rewrite new_ptr_ok by done. apply mspec_pure; [by apply nocanon_snoc|perm]. }
  destruct (_ && IPv4); [|destruct (_ && IPv6); [|destruct (_ && UNIXdomain)]].
  - alloc. destruct (Z.eqb_spec p0 0) as [->|]; [apply Hnone|].
    destruct (_ <? _)%nat; [by apply mspec_undefined|by apply Hsome].
  - alloc. destruct (Z.eqb_spec p0 0) as [->|]; [apply Hnone|].
    destruct (_ <? _)%nat; [by apply mspec_undefined|by apply Hsome].
  - destruct (_ >=? _); [apply Hnone|]. alloc. destruct (Z.eqb_spec p0 0) as [->|]; [apply Hnone|].
    apply (mspec_bind _ _ _ (fun _ => True) (fun _ => new_ptr p0 ++ [p] ++ owned ais));
      [|intros _ _; by apply Hsome].
    destruct (has_flag _ _); [|by apply mspec_pure].
    eapply mspec_bind; [by apply (mspec_sys _ _ (fun _ => new_ptr p0 ++ [p] ++ owned ais))|].
    intros ? _. by apply mspec_pure.
  - apply Hnone.
Qed.

Lemma ga_addresses_mem ais hints aps family :
  list_spec (ga_addresses ais hints aps family) ais.
Proof.
  revert ais. induction aps as [|ap aps IH]; intros ais; cbn [ga_addresses].
  { by apply mspec_pure. }
  eapply mspec_bind; [apply ga_aistruct_mem|]. intros [rc ais'] Hq. cbn [fst snd] in *.
  destruct (rc =? 0); cbn [negb].
  - eapply mspec_conseq; [apply IH|done|auto|done].
  - by apply mspec_pure.
Qed.

Lemma ga_numeric_mem family sf hints addr ais : list_spec (ga_numeric family sf hints addr ais) ais.
Proof.
  unfold ga_numeric. destruct (_ && _); [by apply mspec_pure|].
  destruct (negb _); [by apply mspec_pure|]. apply ga_aistruct_mem.
Qed.

Lemma fill_port_mem ai port :
  mspec (fill_port ai port) (owned1 ai) (fun r => ai_canonname r.2 = ai_canonname ai)
    (fun r => owned1 r.2).
Proof.
  unfold fill_port. destruct (_ && IPv4); [|destruct (_ && IPv6); [|by apply mspec_pure]].
  - destruct (ai_addr ai) as [[q []]|] eqn:E; try by apply mspec_undefined.
    apply mspec_pure; [done|]. unfold owned1, with_addr. cbn. by rewrite E.
  - destruct (ai_addr ai) as [[q []]|] eqn:E; try by apply mspec_undefined.
    apply mspec_pure; [done|]. unfold owned1, with_addr. cbn. by rewrite E.
Qed.

Lemma ga_clone_mem ai :
  mspec (ga_clone ai) (owned1 ai) (fun _ => True)
    (fun r => owned r.1 ++ owned (match r.2 with Some new => [new] | None => [] end)).
Proof.
  unfold ga_clone, calloc, malloc. alloc.
  destruct (Z.eqb_spec p 0) as [->|Hp]; [apply mspec_pure; [done|perm]|]. alloc.
  rewrite (new_ptr_ok p) by done.
  destruct (Z.eqb_spec p0 0) as [->|Hp0]; [apply mspec_pure; [done|perm]|].
  rewrite (new_ptr_ok p0) by done.
  destruct (ai_addr ai) as [[q sa]|] eqn:E; [|by apply mspec_undefined].
  apply mspec_pure; [done|]. unfold owned, owned1. cbn. rewrite E. perm.
Qed.

Lemma ga_port_mem ais port t :
  mspec (ga_port ais port t) (owned ais) (fun _ => True) (fun r => owned r.2).
Proof.
  induction ais as [|ai ais IH]; cbn [ga_port]; [by apply mspec_pure|].
  assert (Hfilled : forall before ai0 B, B ≡ₚ owned before ++ owned1 ai0 ++ owned ais ->
    mspec (f <~ fill_port (set_socktype ai0 t) port ;; r <~ ga_port ais port t ;;
           if r.1 <? 0 then mpure (-1, before ++ f.2 :: r.2)
           else mpure (f.1 + r.1, before ++ f.2 :: r.2)) B (fun _ => True)
      (fun r => owned r.2)).
  { intros before ai0 B HB. eapply mspec_pre; [|exact HB].
    eapply mspec_bind.
    { eapply mspec_pre; [eapply (mspec_frame _ _ (owned before ++ owned ais)), (fill_port_mem (set_socktype ai0 t) port)|].
      change (owned1 (set_socktype ai0 t)) with (owned1 ai0). perm. }
    intros [n ai1] _. cbn [fst snd]. eapply mspec_bind.
    { eapply mspec_pre; [eapply (mspec_frame _ _ (owned1 ai1 ++ owned before)), IH|]. perm. }
    intros [k ais'] _. cbn [fst snd]. destruct (k <? 0); apply mspec_pure; try done; perm. }
  destruct (has_flag _ _).
  - destruct (negb _); [|by apply Hfilled].
    eapply mspec_bind; [eapply (mspec_frame _ _ (owned ais)), (ga_clone_mem ai)|].
    intros [pieces [new|]] _; cbn [fst snd].
    + apply Hfilled. perm.
    + apply mspec_pure; [done|]. perm.
  - destruct (negb _); [|by apply Hfilled].
    eapply mspec_bind.
    { eapply mspec_pre; [eapply (mspec_frame _ _ (owned1 ai)), IH|]. perm. }
    intros [k ais'] _. apply mspec_pure; [done|]. perm.
Qed.

Lemma serv_port_mem n ais port t :
  mspec (serv_port n ais port t) (owned ais) (fun _ => True) (fun r => owned r.2.2).
Proof.
  unfold serv_port. eapply mspec_bind; [apply ga_port_mem|]. intros [k ais'] _. cbn [fst snd].
  destruct (k <? 0); by apply mspec_pure.
Qed.

Lemma serv_name_mem w n ais serv proto t :
  mspec (serv_name w n ais serv proto t) (owned ais) (fun _ => True) (fun r => owned r.2.2).
Proof.
  unfold serv_name. destruct w; [|by apply mspec_pure].
  destruct (getservbyname serv proto); [apply serv_port_mem|by apply mspec_pure].
Qed.

Lemma ga_serv_mem ais hints serv :
  mspec (ga_serv ais hints serv) (owned ais) (fun _ => True) (fun r => owned r.2).
Proof.
  unfold ga_serv. apply (mspec_bind _ _ _ (fun _ => True) (fun r => owned r.2.2)).
  - destruct (isdigit _); [destruct (negb _); [apply serv_port_mem|]|].
    + eapply mspec_bind; [apply serv_port_mem|]. intros [rc [n ais']] _. cbn [fst snd].
      destruct (negb _); [by apply mspec_pure|apply serv_port_mem].
    + eapply mspec_bind; [apply serv_name_mem|]. intros [rc [n ais']] _. cbn [fst snd].
      destruct (negb _); [by apply mspec_pure|apply serv_name_mem].
  - intros [rc [n ais']] _. cbn [fst snd]. destruct (negb _); [by apply mspec_pure|].
    destruct (n =? 0); by apply mspec_pure.
Qed.

Lemma free_opt_mem {A} (x : option (Z * A)) B :
  mspec (match x with Some (p, _) => free p | None => mpure tt end) (ptr x ++ B)
    (fun _ => True) (fun _ => B).
Proof. destruct x as [[p a]|]; [by apply mspec_free|by apply mspec_pure]. Qed.

(** [freeaddrinfo] releases exactly what the list owns. *)
Lemma freeaddrinfo_mem ais F :
  mspec (freeaddrinfo ais) (owned ais ++ F) (fun _ => True) (fun _ => F).
Proof.
  induction ais as [|ai ais IH]; cbn [freeaddrinfo]; [by apply mspec_pure|].
  apply (mspec_bind _ _ _ (fun _ => True)
           (fun _ => ptr (ai_canonname ai) ++ ai_self ai :: owned ais ++ F)).
  { eapply mspec_pre; [apply free_opt_mem|]. perm. }
  intros ? _. eapply mspec_bind; [apply free_opt_mem|]. intros ? _.
  eapply mspec_bind; [by apply mspec_free|]. intros ? _. apply IH.
Qed.

(** The search: the list and the saved canonical name. *)
Definition owned_state (v : ga_state) : list Z := owned v.1 ++ ptr v.2.

Definition wants_canon (hostname : option cstring) (hints : hints_t) : bool :=
  negb (absent hostname) && has_flag (h_flags hints) AI_CANONNAME.

Definition state_ok (hostname : option cstring) (hints : hints_t) (v : ga_state) : Prop :=
  nocanon v.1 /\ (v.2 <> None -> wants_canon hostname hints = true).

Lemma list_spec_state m ais canon hostname hints :
  state_ok hostname hints (ais, canon) -> list_spec m ais ->
  mspec (r <~ m ;; mpure (r.1, (r.2, canon))) (owned_state (ais, canon))
    (fun r => state_ok hostname hints r.2) (fun r => owned_state r.2).
Proof.
  intros [Hn Hc] Hm. unfold owned_state. cbn [fst snd].
  eapply mspec_bind; [eapply (mspec_frame _ _ (ptr canon)), Hm|].
  intros [rc ais'] Hq. cbn [fst snd] in *. apply mspec_pure; [|done]. split; auto.
Qed.

Lemma ga_lookup_mem hostname hints nsearch host family v :
  state_ok hostname hints v ->
  mspec (ga_lookup hostname hints nsearch host family v) (owned_state v)
    (fun r => state_ok hostname hints r.2) (fun r => owned_state r.2).
Proof.
  intros Hok. unfold ga_lookup. destruct v as [ais canon].
  destruct (if (nsearch =? 2)%nat then _ else _) as [h|e];
    [|destruct (nsearch =? 2)%nat; by apply mspec_pure].
  destruct (_ && _); [by apply mspec_pure|].
  apply (mspec_bind _ _ _
    (fun c => match c with inl _ => True | inr canon' => state_ok hostname hints (ais, canon') end)
    (fun c => owned_state (ais, match c with inl _ => canon | inr canon' => canon' end))).
  - destruct (negb (absent hostname) && _ && _) eqn:Hif; [|by apply mspec_pure].
    rewrite !andb_true_iff in Hif. destruct Hif as [[H1 H2] H3]. destruct canon; [done|].
    unfold strdup. alloc. destruct (Z.eqb_spec p 0) as [->|Hp]; apply mspec_pure; try done.
    + split; [apply Hok|]. intros _. unfold wants_canon. by rewrite H1, H2.
    + rewrite new_ptr_ok by done. unfold owned_state. perm.
  - intros [e|canon'] Hc; [by apply mspec_pure|].
    apply list_spec_state; [done|]. apply ga_addresses_mem.
Qed.

Lemma numeric_host_mem family host B :
  mspec (numeric_host family host) B (fun _ => True) (fun _ => B).
Proof.
  unfold numeric_host. eapply mspec_bind; [apply mspec_checked|]. intros ? _. by apply mspec_pure.
Qed.

Lemma ga_search_one_mem hostname hints nsearch sptr v :
  state_ok hostname hints v ->
  mspec (ga_search_one hostname hints nsearch sptr v) (owned_state v)
    (fun r => state_ok hostname hints r.2) (fun r => owned_state r.2).
Proof.
  intros Hok. unfold ga_search_one. destruct sptr as [host family], v as [ais canon].
  eapply mspec_bind.
  { instantiate (1 := fun _ => owned_state (ais, canon)). instantiate (1 := fun _ => True).
    destruct (_ && _); [apply numeric_host_mem|by apply mspec_pure]. }
  intros [addr|] _; [apply list_spec_state; [done|apply ga_numeric_mem]|].
  eapply mspec_bind.
  { instantiate (1 := fun _ => owned_state (ais, canon)). instantiate (1 := fun _ => True).
    destruct (_ && _ && _); [apply numeric_host_mem|by apply mspec_pure]. }
  intros [addr|] _; [apply list_spec_state; [done|apply ga_numeric_mem]|].
  by apply ga_lookup_mem.
Qed.

Lemma ga_search_mem hostname hints nsearch sptrs v :
  state_ok hostname hints v ->
  mspec (ga_search hostname hints nsearch sptrs v) (owned_state v)
    (fun r => state_ok hostname hints r.2) (fun r => owned_state r.2).
Proof.
  revert v. induction sptrs as [|sptr sptrs IH]; intros v Hok; cbn [ga_search].
  { by apply mspec_pure. }
  eapply mspec_bind; [by apply ga_search_one_mem|]. intros [rc v'] Hok'. cbn [fst snd] in *.
  destruct (negb _); [by apply mspec_pure|by apply IH].
Qed.

(** The canonical name goes into the first entry. *)
Lemma owned_set_canonname ais canon :
  ais <> [] -> nocanon ais -> owned (set_canonname ais canon) ≡ₚ owned ais ++ ptr canon.
Proof.
  intros Hne Hn. destruct ais as [|ai ais]; [done|]. apply Forall_cons in Hn as [Hn _].
  cbn [set_canonname]. unfold owned, owned1. rewrite !fmap_cons. cbn [concat].
  cbn [ai_self ai_addr ai_canonname]. rewrite Hn. cbn [ptr]. perm.
Qed.

(** What is left over: the saved canonical name when no entry takes it. *)
Lemma ga_finish_mem hostname servname hints search v :
  state_ok hostname hints v ->
  mspec (ga_finish hostname servname hints search v) (owned_state v)
    (fun _ => True)
    (fun r => owned r.2 ++ (match v.1 with [] => ptr v.2 | _ => [] end)).
Proof.
  intros [Hn Hc]. unfold ga_finish. destruct v as [ais canon]. cbn [fst snd] in *.
  destruct ais as [|ai ais]; [by apply mspec_pure|]. set (l := ai :: ais) in *.
  assert (Hne : l <> []) by done.
  apply (mspec_bind _ _ _ (fun _ => True) (fun r => owned r.2)).
  - unfold wants_canon in Hc. destruct (negb (absent hostname) && _) eqn:Hw.
    + destruct canon as [c|].
      * apply mspec_pure; [done|]. cbn [snd]. by rewrite owned_set_canonname.
      * unfold strdup. alloc. destruct (Z.eqb_spec p 0) as [->|Hp]; apply mspec_pure; try done; cbn [snd];
          rewrite owned_set_canonname by done; unfold owned_state; cbn [fst snd ptr].
        -- done.
        -- rewrite new_ptr_ok by done. perm.
    + destruct canon as [c|]; [by specialize (Hc ltac:(done))|].
      apply mspec_pure; [done|]. unfold owned_state. cbn. by rewrite app_nil_r.
  - intros [rc l'] _. cbn [snd]. destruct (negb _); [apply mspec_pure; [done|by rewrite app_nil_r]|].
    destruct servname as [[|x serv]|]; try (apply mspec_pure; [done|by rewrite app_nil_r]).
    eapply mspec_conseq; [apply ga_serv_mem|done|done|]. intros r _. by rewrite app_nil_r.
Qed.

Lemma ga_nsearch_mem hostname hints B :
  mspec (ga_nsearch hostname hints) B (fun _ => True) (fun _ => B).
Proof.
  unfold ga_nsearch. destruct (_ || _); [by apply mspec_err_quit|by apply mspec_pure].
Qed.
End Gai.
