(* ===== verification/GaiClaims.v ===== *)
(** Correctness of [libgai/]: service expansion, memory, and the round trip between
    [getnameinfo] and [getaddrinfo]. *)

From S2P Require Import Prelude CText Sys Traces Error Wrappers InetAddr PtonFacts.
From S2P Require Import Cksum Ownership SockUtil SockClaims Gai GaiFacts.
Import Ntop.

(** * Numeric text *)

Lemma print_u_head n : exists d r, print_u 10 n = d :: r /\ isdigit d = true.
Proof.
  pose proof (print_u_dec_digits n) as H. destruct (print_u 10 n) as [|d r] eqn:E.
  - by apply print_u_nonempty in E.
  - apply Forall_cons in H as [? _]. by eexists _, _.
Qed.

Lemma digit_prefix_all t : Forall (fun c => isdigit c = true) t -> digit_prefix t = t.
Proof. induction 1 as [|c t Hc _ IH]; [done|]. cbn. by rewrite Hc, IH. Qed.

Lemma atoi_print_u n : 0 <= n < 2 ^ 31 -> atoi (print_u 10 n) = n.
Proof.
  intros Hn. unfold atoi. destruct (print_u_head n) as (d & r & E & Hd).
  assert (Hs : skip_spaces (print_u 10 n) = print_u 10 n).
  { rewrite E. cbn. unfold isspace, isdigit in *. case_match; [blia|done]. }
  rewrite Hs.
  assert (Hv : s32 (Z.max (- 2 ^ 63) (Z.min (2 ^ 63 - 1) (dec_value (digit_prefix (print_u 10 n))))) = n).
  { rewrite digit_prefix_all by apply print_u_dec_digits. rewrite dec_value_print_u by lia.
    rewrite Z.min_r, Z.max_r by lia. unfold swrap. change (2 ^ (32 - 1)) with (2 ^ 31).
    rewrite Z.mod_small by lia. lia. }
  rewrite <- Hv at 2. rewrite E in *. unfold isdigit in Hd.
  destruct d as [|d|d]; try done. repeat (destruct d as [d|d|]; try done).
Qed.

(** A port printed and read back: the same two bytes. *)
Lemma port_text_roundtrip p : port_ok p -> htons (atoi (print_d (ntohs p))) = p.
Proof.
  intros Hp. pose proof (ntohs_range p Hp) as Hr. rewrite print_d_nonneg, atoi_print_u by lia.
  destruct Hp as [Hl Hb]. destruct p as [|h [|l [|]]]; try done. rewrite !Forall_cons in Hb.
  destruct Hb as (Hh & Hlo & _). unfold htons, wrap. change (2 ^ 16) with 65536.
  rewrite Z.mod_small by done. unfold ntohs. f_equal; [|f_equal].
  - apply Z.bits_inj'. intros i Hi. rewrite Z.shiftr_spec, Z.lor_spec, Z.shiftl_spec by lia.
    replace (i + 8 - 8) with i by lia.
    rewrite (Z.bits_above_log2 l (i + 8)); [by rewrite orb_false_r|lia|].
    destruct (decide (l = 0)) as [->|]; [cbn; lia|].
    apply Z.log2_lt_pow2; [lia|]. apply (Z.lt_le_trans _ (2 ^ 8)); [lia|].
    apply Z.pow_le_mono_r; lia.
  - change 255 with (Z.ones 8). apply Z.bits_inj'. intros i Hi.
    rewrite Z.land_ones by lia. destruct (Z.ltb_spec i 8).
    + rewrite Z.mod_pow2_bits_low, Z.lor_spec, Z.shiftl_spec_low by lia. done.
    + rewrite Z.mod_pow2_bits_high by lia. symmetry. apply Z.bits_above_log2; [lia|].
      destruct (decide (l = 0)) as [->|]; [cbn; lia|].
      apply (Z.lt_le_trans _ 8); [apply Z.log2_lt_pow2; lia|lia].
Qed.

Local Abbreviation mspecE := (Ownership.mspecE memory).

Section Claims.
Context {os : OS} {SE : Strerror} {GC : GaiConfig} {DB : Netdb}.

(** A service supported for several socket types multiplies the entries as the comment in
    [ga_port.c] says.  From entries for the addresses [sas] without a socket type, a service
    with TCP port [pt] and UDP port [pu] yields for each address, in order, a
    [SOCK_STREAM] entry with [pt] followed by a [SOCK_DGRAM] entry with [pu]; a service with
    one of them yields one entry per address; an unknown service gives [EAI_NONAME].  For a
    number as the service name both ports are that number. *)
Theorem ga_serv_expands `{!AllocOk} ais hints serv sas s :
  h_socktype hints = 0 -> Forall2 (holds AI_CLONE 0) ais sas -> sas <> [] ->
  exists rc ais' s', ga_serv ais hints serv s = (Val (rc, ais'), s') /\
    match serv_ports serv with
    | (Some pt, Some pu) => rc = 0 /\ view <$> ais' =
        concat ((fun sa => [entry SOCK_STREAM pt sa; entry SOCK_DGRAM pu sa]) <$> sas)
    | (Some pt, None) => rc = 0 /\ view <$> ais' = entry SOCK_STREAM pt <$> sas
    | (None, Some pu) => rc = 0 /\ view <$> ais' = entry SOCK_DGRAM pu <$> sas
    | (None, None) => rc = EAI_NONAME
    end.
Proof.
  intros Ht HF Hne. destruct (ga_serv_expand ais hints serv sas s Ht HF Hne) as (rc & ais' & s' & E & Hv).
  exists rc, ais', s'. split; [done|]. by destruct (serv_ports serv) as [[|] [|]].
Qed.

(** C9: [getaddrinfo] accounts for its memory, for every request that does not name a path in the Unix domain
    (a host [/local] or [/unix] with a service that begins with a slash: for those ga_unix.c returns an error
    without freeing the list).  Whichever allocations fail: when it succeeds, the pointers it allocated and did not free are exactly those
    that the returned list owns; when it fails, everything was freed, with the one
    exception of the canonical name it had saved, when the caller asked for it. *)
Theorem getaddrinfo_memory hostname servname hintsp s r s' :
  unix_request hostname servname = false ->
  getaddrinfo hostname servname hintsp s = (Val r, s') ->
  exists evs leaked, trace s' = evs ++ trace s /\
    allocated evs ≡ₚ freed evs ++ (match r with inr ais => owned ais | inl _ => [] end) ++ leaked /\
    (leaked = [] \/
     ((exists q, leaked = [q]) /\ (exists e, r = inl e) /\
      wants_canon hostname (default (Hints 0 AF_UNSPEC 0 0) hintsp) = true)).
Proof.
  intros Hu. set (hints := default (Hints 0 AF_UNSPEC 0 0) hintsp).
  pose (R := fun (r : Z + list addrinfo) (C : list Z) => exists leaked,
    C = (match r with inr ais => owned ais | inl _ => [] end) ++ leaked /\
    (leaked = [] \/
     ((exists q, leaked = [q]) /\ (exists e, r = inl e) /\ wants_canon hostname hints = true))).
  assert (Hbad : forall e ais canon, (canon <> None -> wants_canon hostname hints = true) ->
    mspecE (freeaddrinfo ais ;;; mpure (inl e)) (owned ais ++ @ptr cstring canon) R).
  { intros e ais canon Hc. eapply mspecE_bind; [apply freeaddrinfo_mem|]. intros ? _.
    apply (mspecE_of _ _ (fun x => x = inl e) (fun _ => ptr canon)); [by apply mspec_pure|].
    intros x ->. exists (ptr canon). split; [done|]. destruct canon as [[q c]|]; [right|by left].
    split_and!; [by eexists|by eexists|by apply Hc]. }
  assert (HE : mspecE (getaddrinfo hostname servname hintsp) [] R).
  { unfold getaddrinfo. fold hints. rewrite Hu.
    destruct (negb _); [apply (Hbad _ [] None); done|].
    eapply mspecE_bind; [apply ga_nsearch_mem|]. intros search _.
    eapply mspecE_bind; [apply (ga_search_mem hostname hints (length search) search ([], None)); split;
      [by constructor|done]|].
    intros [rc [ais canon]] [Hn Hc]. cbn [fst snd] in *.
    destruct (negb _); [by apply Hbad|].
    destruct ais as [|ai ais]; [by apply (Hbad EAI_NONAME [] canon)|].
    eapply mspecE_bind; [by apply (ga_finish_mem hostname servname hints search (ai :: ais, canon))|].
    intros [rc' ais'] _. cbn [fst snd]. destruct (negb _); [by apply (Hbad _ ais' None)|].
    apply (mspecE_of _ _ (fun x => x = inr ais') (fun _ => owned ais' ++ []));
      [by apply mspec_pure|].
    intros x ->. exists []. by split; [|left]. }
  intros E. specialize (HE s). rewrite E in HE.
  destruct HE as (C & (leaked & -> & Hl) & evs & Ht & Hp). exists evs, leaked.
  rewrite app_nil_r in Hp. by split_and!.
Qed.

(** * Numeric hosts *)

Lemma calloc_ok `{!AllocOk} size s : exists p s', p <> 0 /\ calloc size s = (Val p, s').
Proof. eexists _, _. split; [|done]. by apply alloc_ok. Qed.

Lemma ga_aistruct_inet `{!AllocOk} ais hints a b c d s :
  IPv4 = true -> h_socktype hints <> 0 ->
  exists ai s', ga_aistruct ais hints [a; b; c; d] AF_INET s = (Val (0, ais ++ [ai]), s') /\
    holds 0 (h_socktype hints) ai (SockIn [0; 0] [a; b; c; d]).
Proof.
  intros H4 Ht. unfold ga_aistruct. rewrite H4. cbn [Z.eqb AF_INET Pos.eqb andb].
  destruct (Z.eqb_spec (h_socktype hints) 0); [done|].
  destruct (calloc_ok sizeof_addrinfo s) as (p & s1 & Hp & E1).
  rewrite (then_val _ _ _ _ _ E1). destruct (Z.eqb_spec p 0); [done|].
  destruct (calloc_ok sizeof_sockaddr_in s1) as (q & s2 & Hq & E2).
  rewrite (then_val _ _ _ _ _ E2). destruct (Z.eqb_spec q 0); [done|].
  eexists _, s2. split; [done|]. unfold holds. cbn. split_and!; try done. by eexists.
Qed.

Lemma quad_first a b c d : bytes_ok [a; b; c; d] -> exists x r, quad_text a b c d = x :: r /\ isdigit x = true.
Proof.
  intros _. unfold quad_text. destruct (print_u_head a) as (x & r & -> & Hx). by eexists _, _.
Qed.

Lemma numeric_host_inet a b c d s :
  bytes_ok [a; b; c; d] ->
  numeric_host AF_INET (quad_text a b c d) s = (Val (Some [a; b; c; d]), s).
Proof.
  intros Hb. unfold numeric_host, Pton.inet_pton. cbn [Z.eqb AF_INET Pos.eqb].
  rewrite (inet_pton4_accept _ [a; b; c; d]) by (by apply quad_text_dotted || (cbn; lia)).
  done.
Qed.

(** One search with the text of an IPv4 address: nothing for IPv6, one entry for IPv4. *)
Lemma ga_search_one_inet `{!AllocOk} hostname hints nsearch family a b c d ais s :
  IPv4 = true -> bytes_ok [a; b; c; d] -> h_socktype hints <> 0 ->
  h_family hints = AF_UNSPEC \/ h_family hints = AF_INET ->
  exists ais' s', ga_search_one hostname hints nsearch (quad_text a b c d, family) (ais, None) s
      = (Val (0, (ais ++ ais', None)), s') /\
    Forall2 (holds 0 (h_socktype hints)) ais'
      (if family =? AF_INET then [SockIn [0; 0] [a; b; c; d]] else []).
Proof.
  intros H4 Hb Ht Hf. unfold ga_search_one. rewrite H4.
  destruct (quad_first a b c d Hb) as (x & r & Eq & Hx).
  replace (isdigit (first_char (quad_text a b c d))) with true by by rewrite Eq.
  cbn [andb]. rewrite (then_val _ _ _ _ _ (numeric_host_inet a b c d s Hb)). unfold ga_numeric.
  replace (negb (h_family hints =? AF_UNSPEC) && negb (h_family hints =? AF_INET)) with false
    by (destruct Hf as [-> | ->]; done).
  destruct (Z.eqb_spec family AF_INET) as [->|Hne]; cbn [negb fst snd].
  - destruct (ga_aistruct_inet ais hints a b c d s H4 Ht) as (ai & s' & E & Hh).
    rewrite (then_val _ _ _ _ _ E). exists [ai], s'. split; [done|]. apply Forall2_cons; split; [done|apply Forall2_nil; done].
  - exists [], s. rewrite app_nil_r. split; [done|constructor].
Qed.

Lemma ga_search_inet `{!AllocOk} hints a b c d s :
  let host := quad_text a b c d in
  let search := search_list host host (h_family hints) in
  IPv4 = true -> bytes_ok [a; b; c; d] -> h_socktype hints <> 0 ->
  h_family hints = AF_UNSPEC \/ h_family hints = AF_INET ->
  exists ai s', ga_search (Some host) hints (length search) search ([], None) s
      = (Val (0, ([ai], None)), s') /\
    holds 0 (h_socktype hints) ai (SockIn [0; 0] [a; b; c; d]).
Proof.
  cbv zeta. intros H4 Hb Ht Hf.
  assert (Hlast : forall n s0, exists ai s', ga_search (Some (quad_text a b c d)) hints n
      [(quad_text a b c d, AF_INET)] ([], None) s0 = (Val (0, ([ai], None)), s') /\
      holds 0 (h_socktype hints) ai (SockIn [0; 0] [a; b; c; d])).
  { intros n s0. cbn [ga_search].
    destruct (ga_search_one_inet (Some (quad_text a b c d)) hints n AF_INET a b c d [] s0 H4 Hb Ht Hf)
      as (ais & s' & E & HF).
    rewrite (then_val _ _ _ _ _ E). cbn [fst snd Z.eqb negb app]. rewrite Z.eqb_refl in HF.
    inversion HF as [|ai ? ? ? Hh HF']; subst. inversion HF'; subst. by exists ai, s'. }
  unfold search_list. rewrite H4. destruct Hf as [Hf|Hf]; rewrite Hf; cbn [Z.eqb AF_UNSPEC AF_INET AF_INET6];
    [|apply Hlast].
  destruct IPv6; cbn [app]; [|apply Hlast]. cbn [ga_search].
  destruct (ga_search_one_inet (Some (quad_text a b c d)) hints 2 AF_INET6 a b c d [] s H4 Hb Ht
    ltac:(by left)) as (ais & s' & E & HF).
  cbn [length]. rewrite (then_val _ _ _ _ _ E). cbn [fst snd Z.eqb negb app].
  cbn in HF. inversion HF; subst. apply (Hlast 2%nat s').
Qed.

Lemma getnameinfo_inet p a b c d host serv s :
  IPv4 = true -> port_ok p -> bytes_ok [a; b; c; d] ->
  length host = 16%nat -> length serv = 6%nat ->
  exists host' serv', getnameinfo (SockIn p [a; b; c; d]) host 16 serv 6
      (Z.lor NI_NUMERICHOST NI_NUMERICSERV) s = (Val (0, host', serv'), s) /\
    cstring_at host' 0 = quad_text a b c d /\ cstring_at serv' 0 = port_text (ntohs p).
Proof.
  intros H4 Hp Hb Hlh Hls.
  pose proof (quad_text_length a b c d Hb) as Hq. pose proof (ntohs_range p Hp) as Hr.
  pose proof (port_text_length (ntohs p) Hr) as Hpt.
  assert (Hport : snprintf_text 6 (print_d (ntohs p)) = port_text (ntohs p)).
  { rewrite print_d_nonneg by lia. apply take_ge. change (Z.to_nat (6 - 1)) with 5%nat. done. }
  unfold getnameinfo. rewrite H4. unfold gn_ipv46, numeric_name.
  change (has_flag _ NI_NUMERICHOST) with true. change (has_flag _ NI_NUMERICSERV) with true.
  cbn [Z.gtb Z.compare]. unfold Ntop.inet_ntop. cbn [Z.eqb AF_INET Pos.eqb].
  rewrite inet_ntop4_spec by done.
  destruct (Z.gtb_spec (Z.of_nat (length (quad_text a b c d))) 16); [lia|].
  rewrite put_text_ok by lia. cbn [fmap option_fmap option_map checked].
  rewrite !then_pure. cbn [Z.eqb negb]. unfold snprintf. rewrite Hport, put_text_ok by lia.
  cbn [checked]. rewrite then_pure. eexists _, _. split; [done|]. split.
  - apply (cstring_at_text []); [apply quad_text_nul_free|done].
  - apply (cstring_at_text []); [by apply digit_char_nonzero|done].
Qed.

(** A service name that starts with a digit is a port, never a Unix domain path. *)
Lemma numeric_service_not_unix hostname n : unix_request hostname (Some (print_u 10 n)) = false.
Proof.
  destruct (print_u_head n) as (y & r & -> & Hy). unfold unix_request. unfold isdigit in Hy.
  destruct hostname; [|done]. destruct y as [|y|y]; try done.
  repeat (destruct y as [y|y|]; try done).
Qed.

Lemma ga_echeck_inet host serv hints :
  absent host = false -> IPv4 = true -> h_flags hints = 0 ->
  ip_socktype (h_socktype hints) = true ->
  h_family hints = AF_UNSPEC \/ h_family hints = AF_INET ->
  ga_echeck host serv (h_flags hints) (h_family hints) (h_socktype hints) (h_protocol hints) = 0.
Proof.
  intros Ha H4 Hfl Hst Hfam. unfold ga_echeck. rewrite Hfl, Ha. cbn [Z.land Z.eqb negb andb].
  destruct Hfam as [-> | ->]; [done|]. cbn [Z.eqb AF_INET AF_UNSPEC Pos.eqb]. rewrite H4, Hst.
  cbn [andb negb]. by rewrite andb_false_r.
Qed.

Lemma ga_nsearch_inet a b c d hints :
  IPv4 = true -> h_family hints = AF_UNSPEC \/ h_family hints = AF_INET ->
  ga_nsearch (Some (quad_text a b c d)) hints =
    mpure (search_list (quad_text a b c d) (quad_text a b c d) (h_family hints)).
Proof.
  intros H4 Hfam. unfold ga_nsearch, quad_text. destruct (print_u_head a) as (x & r & -> & Hx).
  cbn [app]. set (search := search_list _ _ _). replace ((_ <? 1) || _) with false; [done|].
  unfold search, search_list. rewrite H4. destruct Hfam as [-> | ->]; [destruct IPv6|]; done.
Qed.

(** A numeric service for entries that have the socket type asked for. *)
Lemma ga_serv_inet p ai sa hints s :
  port_ok p -> h_socktype hints <> 0 -> holds 0 (h_socktype hints) ai sa ->
  exists ai', ga_serv [ai] hints (port_text (ntohs p)) s = (Val (0, [ai']), s) /\
    holds 0 (h_socktype hints) ai' (with_port sa p).
Proof.
  intros Hp Ht Hh. pose proof (ntohs_range p Hp) as Hr.
  destruct (ga_port_fill 0 (h_socktype hints) (h_socktype hints) [ai] [sa] p s)
    as (ais' & Ep & HF); [apply Forall2_cons; split; [done|by apply Forall2_nil]|by right|].
  inversion HF as [|ai' ? ? ? Hh' HF']; subst. inversion HF'; subst.
  exists ai'. split; [|done]. destruct (print_u_head (ntohs p)) as (y & r & Epo & Hy).
  unfold ga_serv, port_text. replace (isdigit (first_char _)) with true by by rewrite Epo.
  destruct (Z.eqb_spec (h_socktype hints) 0); [done|]. cbn [negb]. unfold serv_port.
  replace (htons (atoi (print_u 10 (ntohs p)))) with p
    by (rewrite <- print_d_nonneg by lia; symmetry; by apply port_text_roundtrip).
  unfold mthen. rewrite Ep. done.
Qed.

(** C10: the numeric forms round trip.  For every IPv4 socket address, [getnameinfo] with
    [NI_NUMERICHOST] and [NI_NUMERICSERV] stores a host and a service text, and
    [getaddrinfo] for these texts (for either family hint that admits IPv4 and any Internet
    socket type) returns exactly one entry, with that socket type and the same socket
    address, without consulting the name databases. *)
Theorem nameinfo_roundtrip `{!AllocOk} p a b c d host serv hints s :
  IPv4 = true -> port_ok p -> bytes_ok [a; b; c; d] ->
  length host = 16%nat -> length serv = 6%nat ->
  h_flags hints = 0 -> ip_socktype (h_socktype hints) = true ->
  h_family hints = AF_UNSPEC \/ h_family hints = AF_INET ->
  exists host' serv' s1 ai s2,
    getnameinfo (SockIn p [a; b; c; d]) host 16 serv 6 (Z.lor NI_NUMERICHOST NI_NUMERICSERV) s
      = (Val (0, host', serv'), s1) /\
    getaddrinfo (Some (cstring_at host' 0)) (Some (cstring_at serv' 0)) (Some hints) s1
      = (Val (inr [ai]), s2) /\
    view ai = (AF_INET, h_socktype hints, Some (SockIn p [a; b; c; d])).
Proof.
  intros H4 Hp Hb Hlh Hls Hfl Hst Hfam.
  assert (Ht : h_socktype hints <> 0) by (intros E0; by rewrite E0 in Hst).
  destruct (getnameinfo_inet p a b c d host serv s H4 Hp Hb Hlh Hls)
    as (host' & serv' & Eg & Hch & Hcs).
  destruct (ga_search_inet hints a b c d s H4 Hb Ht Hfam) as (ai & s2 & Es & Hh).
  destruct (ga_serv_inet p ai _ hints s2 Hp Ht Hh) as (ai' & Ev & Hh').
  exists host', serv', s, ai', s2. split; [done|]. rewrite Hch, Hcs. split.
  2:{ destruct Hh' as (_ & Ht' & Hf' & (q & Ha') & _). unfold view. by rewrite Hf', Ht', Ha'. }
  destruct (quad_first a b c d Hb) as (x & r & Eq & Hx).
  unfold getaddrinfo. cbn [default from_option id].
  rewrite ga_echeck_inet by (done || by rewrite Eq). cbn [Z.eqb negb].
  unfold port_text at 1. rewrite numeric_service_not_unix.
  rewrite ga_nsearch_inet, then_pure, (then_val _ _ _ _ _ Es) by done.
  cbn [fst snd Z.eqb negb ga_finish].
  replace (negb (absent _) && has_flag (h_flags hints) AI_CANONNAME) with false
    by (rewrite Hfl; by rewrite andb_false_r).
  rewrite then_pure. cbn [Z.eqb negb].
  assert (Em : (match port_text (ntohs p) with
                | [] => mpure (0, [ai]) | _ => ga_serv [ai] hints (port_text (ntohs p)) end) s2
               = (Val (0, [ai']), s2)).
  { destruct (port_text (ntohs p)) eqn:E0; [by apply print_u_nonempty in E0|exact Ev]. }
  unfold mthen. cbv beta. destruct (port_text (ntohs p)); by rewrite Em.
Qed.
End Claims.

(** * Concrete runs *)

(** An allocator that never fails and never returns a pointer twice. *)
Definition bump_os : OS := fun h c =>
  if is_alloc c then ok (1000 + Z.of_nat (length h)) else ok 0.

Lemma bump_os_ok : @AllocOk bump_os.
Proof. intros h c Hc. unfold os_answer, bump_os. rewrite Hc. cbn. lia. Qed.

#[local] Instance all_protocols : GaiConfig := {| IPv4 := true; IPv6 := true; UNIXdomain := true |}.
#[local] Existing Instance numeric_strerror.

(** A database with one service, daytime, for both protocols, and one multihomed host. *)
#[local] Instance daytime_db : Netdb := {|
  gethostbyname _ _ := inl (HE c["host.example"] AF_INET [[10; 0; 0; 1]; [10; 0; 0; 2]]);
  gethostbyname2 _ f := if f =? AF_INET
                        then inl (HE c["host.example"] AF_INET [[10; 0; 0; 1]; [10; 0; 0; 2]])
                        else inr HOST_NOT_FOUND;
  gethostbyaddr _ _ := None;
  getservbyname s _ := if memcmp s c["daytime"] =? 0 then Some (htons 13) else None;
  getservbyport _ _ := None;
  uname := Some c["host"];
|}.

Definition two_addresses : list addrinfo :=
  [AI 1 AI_CLONE AF_INET 0 0 16 None (Some (2, SockIn [0; 0] [10; 0; 0; 1]));
   AI 3 AI_CLONE AF_INET 0 0 16 None (Some (4, SockIn [0; 0] [10; 0; 0; 2]))].

Lemma ga_serv_expands_witness :
  exists rc ais' s', ga_serv (os := bump_os) two_addresses (Hints 0 AF_UNSPEC 0 0) c["daytime"] init
      = (Val (rc, ais'), s') /\
    rc = 0 /\ view <$> ais' =
      [(AF_INET, SOCK_STREAM, Some (SockIn [0; 13] [10; 0; 0; 1]));
       (AF_INET, SOCK_DGRAM, Some (SockIn [0; 13] [10; 0; 0; 1]));
       (AF_INET, SOCK_STREAM, Some (SockIn [0; 13] [10; 0; 0; 2]));
       (AF_INET, SOCK_DGRAM, Some (SockIn [0; 13] [10; 0; 0; 2]))].
Proof.
  assert (HF : Forall2 (holds AI_CLONE 0) two_addresses
                 [SockIn [0; 0] [10; 0; 0; 1]; SockIn [0; 0] [10; 0; 0; 2]]).
  { repeat (apply Forall2_cons; split; [unfold holds; cbn; repeat split; by eexists|]).
    by apply Forall2_nil. }
  destruct (@ga_serv_expands bump_os all_protocols daytime_db bump_os_ok two_addresses
              (Hints 0 AF_UNSPEC 0 0) c["daytime"] _ init eq_refl HF ltac:(discriminate))
    as (rc & ais' & s' & E & H).
  exists rc, ais', s'. split; [exact E|]. vm_compute in H. destruct H as [Hrc Hv].
  split; [exact Hrc|exact Hv].
Defined.

Lemma getaddrinfo_memory_witness :
  let run := getaddrinfo (os := bump_os) (Some c["host"]) (Some c["daytime"])
               (Some (Hints AI_CANONNAME AF_INET SOCK_STREAM 0)) init in
  exists ais evs leaked, run.1 = Val (inr ais) /\ length ais = 2%nat /\
    trace run.2 = evs ++ [] /\ allocated evs ≡ₚ freed evs ++ owned ais ++ leaked.
Proof.
  intros run. destruct run as [o s'] eqn:E. subst run.
  assert (Ho : exists ais, o = Val (inr ais) /\ length ais = 2%nat).
  { apply (f_equal fst) in E. vm_compute in E. subst o. eexists. split; reflexivity. }
  destruct Ho as (ais & -> & Hl).
  destruct (getaddrinfo_memory (os := bump_os) (Some c["host"]) (Some c["daytime"])
              (Some (Hints AI_CANONNAME AF_INET SOCK_STREAM 0)) init (inr ais) s' eq_refl E)
    as (evs & leaked & Ht & Hp & _).
  exists ais, evs, leaked. split; [reflexivity|]. split; [exact Hl|]. split; [exact Ht|exact Hp].
Defined.

Lemma nameinfo_roundtrip_witness :
  exists host' serv' s1 ai s2,
    getnameinfo (SockIn [0; 80] [192; 168; 0; 1]) (replicate 16 0) 16 (replicate 6 0) 6
      (Z.lor NI_NUMERICHOST NI_NUMERICSERV) init = (Val (0, host', serv'), s1) /\
    getaddrinfo (os := bump_os) (Some (cstring_at host' 0)) (Some (cstring_at serv' 0))
      (Some (Hints 0 AF_UNSPEC SOCK_STREAM 0)) s1 = (Val (inr [ai]), s2) /\
    view ai = (AF_INET, SOCK_STREAM, Some (SockIn [0; 80] [192; 168; 0; 1])).
Proof.
  apply (@nameinfo_roundtrip bump_os _ _ _ bump_os_ok [0; 80] 192 168 0 1 (replicate 16 0) (replicate 6 0)
           (Hints 0 AF_UNSPEC SOCK_STREAM 0) init); try reflexivity.
  - split; [reflexivity|by apply bytes_ok_bool].
  - by apply bytes_ok_bool.
  - by left.
Defined.

(** * What modelling showed *)

(** The family [AF_LOCAL] passes the checks of [ga_echeck], but for a host that is not
    [/local] it ends the process of the caller. *)
Lemma ga_local_family_exits :
  (getaddrinfo (os := bump_os) (Some c["host"]) None (Some (Hints 0 AF_LOCAL SOCK_STREAM 0)) init).1 = Exited 1.
Proof. vm_compute. reflexivity. Qed.

(** The allocation of the second address structure fails after the canonical name was saved:
    the name, the third pointer allocated, is never freed. *)
Definition full_os : OS := fun h c =>
  if is_alloc c && (Z.of_nat (length h) <? 3) then ok (1000 + Z.of_nat (length h)) else ok 0.

Lemma getaddrinfo_leaks_canon :
  let run := getaddrinfo (os := full_os) (Some c["host"]) None
               (Some (Hints AI_CANONNAME AF_INET SOCK_STREAM 0)) init in
  run.1 = Val (inl EAI_MEMORY) /\ allocated (trace run.2) = [1000; 1001; 1002] /\
  freed (trace run.2) = [1002; 1001].
Proof. vm_compute. repeat split; reflexivity. Qed.

(** A port number above 65535 is reduced modulo 65536 without an error. *)
Lemma ga_serv_port_wraps :
  match (ga_serv (os := bump_os) two_addresses (Hints 0 AF_UNSPEC 0 0) c["70000"] init).1 with
  | Val (rc, ai :: _) => rc = 0 /\ view ai =
      (AF_INET, SOCK_STREAM, Some (SockIn (htons 4464) [10; 0; 0; 1]))
  | _ => False
  end.
Proof. vm_compute. split; reflexivity. Qed.
