(* ===== verification/FreeGai.v ===== *)
(** [libfree/getaddrinfo.c] and [libfree/getnameinfo.c]: the replacement resolver for systems
    without one.

    It shares the structures and the databases of [Gai] and is compared with it in
    [FreeGaiClaims].  Two of its variables need care.  [aihead] is not initialised before the
    list is built, so it is an [option]: the error exit on [None] follows a wild pointer.
    [_res.options] is a variable of the resolver library: it is passed in and out.  The
    functions of the reentrant variant are disabled in the source. *)

From S2P Require Import Prelude CText Sys Error Wrappers InetAddr SockUtil Words Gai.

(** * getaddrinfo.c *)

Definition HENTBUFSIZ : Z := 8 * 1024.

(** [resolv.h] *)
Definition RES_INIT : Z := 1.
Definition RES_USE_INET6 : Z := 8192.

(** What [res_init] stores in [_res.options]. *)
Class Resolv : Type := res_init_options : Z.

Section FreeGai.
Context {os : OS} {SE : Strerror} {GC : GaiConfig} {DB : Netdb} {RS : Resolv}.

(** ** getaddrinfo_clone *)

Definition getaddrinfo_clone (ai : addrinfo) : M (list addrinfo * option addrinfo) :=
  p <~ calloc sizeof_addrinfo ;;
  if p =? 0 then mpure ([ai], None) else
  let new a := AI p 0 (ai_family ai) (ai_socktype ai) (ai_protocol ai) (ai_addrlen ai) None a in
  q <~ malloc (ai_addrlen ai) ;;
  if q =? 0 then mpure ([ai; new None], None) else
  match ai_addr ai with
  | Some (_, sa) => mpure ([ai], Some (new (Some (q, sa))))
  | None => undefined
  end.

(** ** getaddrinfo_port

    The [switch] that stores the port is that of [ga_port.c]. *)
Fixpoint getaddrinfo_port (ais : list addrinfo) (port : list Z) (socktype : Z)
    : M (Z * list addrinfo) :=
  match ais with
  | [] => mpure (0, [])
  | ai :: rest =>
      let filled before ai :=
        f <~ fill_port (set_socktype ai socktype) port ;;
        r <~ getaddrinfo_port rest port socktype ;;
        if r.1 <? 0 then mpure (-1, before ++ f.2 :: r.2)
        else mpure (f.1 + r.1, before ++ f.2 :: r.2) in
      if has_flag (ai_flags ai) AI_CLONE then
        if negb (ai_socktype ai =? 0) then
          r <~ getaddrinfo_clone ai ;;
          match r with
          | (pieces, None) => mpure (-1, pieces ++ rest)
          | (pieces, Some new) => filled pieces new
          end
        else filled [] ai
      else if negb (ai_socktype ai =? socktype) then
        r <~ getaddrinfo_port rest port socktype ;; mpure (r.1, ai :: r.2)
      else filled [] ai
  end.

(** ** getaddrinfo_serv *)

(** One look-up: [rc] (0 to go on), [nfound] and the list. *)
Definition serv_try (wanted : bool) (nfound : Z) (ais : list addrinfo) (serv proto : cstring)
    (socktype : Z) : M (Z * (Z * list addrinfo)) :=
  if wanted then
    match getservbyname serv proto with
    | Some s_port =>
        r <~ getaddrinfo_port ais s_port socktype ;;
        if r.1 <? 0 then mpure (EAI_MEMORY, (nfound, r.2))
        else mpure (0, (nfound + r.1, r.2))
    | None => mpure (0, (nfound, ais))
    end
  else mpure (0, (nfound, ais)).

Definition getaddrinfo_serv (ais : list addrinfo) (hints : hints_t) (serv : cstring)
    : M (Z * list addrinfo) :=
  let t := h_socktype hints in
  if isdigit (first_char serv) && negb (t =? 0) then
    let port := htons (atoi serv) in
    r <~ getaddrinfo_port ais port t ;;
    if r.1 =? 0 then mpure (EAI_NONAME, r.2)
    else if r.1 <? 0 then mpure (EAI_MEMORY, r.2)
    else mpure (0, r.2)
  else
    (* first TCP, if applicable *)
    r <~ serv_try ((t =? 0) || (t =? SOCK_STREAM)) 0 ais serv c["tcp"] SOCK_STREAM ;;
    if negb (r.1 =? 0) then mpure (r.1, r.2.2) else
    (* now UDP, if applicable *)
    r <~ serv_try ((t =? 0) || (t =? SOCK_DGRAM)) r.2.1 r.2.2 serv c["udp"] SOCK_DGRAM ;;
    if negb (r.1 =? 0) then mpure (r.1, r.2.2) else
    if r.2.1 =? 0 then
      mpure (if t =? 0 then EAI_NONAME else EAI_SERVICE, r.2.2)
    else mpure (0, r.2.2).

(** ** getaddrinfo_host

    The caller's [hent] holds one address; its name is the copy of [host] in [hentbuf]. *)
Definition own_hostent (host : cstring) (family : Z) (addr : list Z) : hostent :=
  HE (take (Z.to_nat (HENTBUFSIZ - 1)) host) family [addr].

(** [if ((_res.options & RES_INIT) == 0) res_init ();] *)
Definition res_ready (options : Z) : Z :=
  if has_flag options RES_INIT then options else res_init_options.

(** An error code or the host entry, and [_res.options]. *)
Definition getaddrinfo_host (host : cstring) (family : Z) (options : Z)
    : M ((Z + hostent) * Z) :=
  a4 <~ (if IPv4 && isdigit (first_char host) then numeric_host AF_INET host else mpure None) ;;
  match a4 with
  | Some addr => mpure (inr (own_hostent host AF_INET addr), options)
  | None =>
      a6 <~ (if IPv6 && (isxdigit (first_char host) || (first_char host =? 58))
             then numeric_host AF_INET6 host else mpure None) ;;
      match a6 with
      | Some addr => mpure (inr (own_hostent host AF_INET6 addr), options)
      | None =>
          let options := res_ready options in
          let options := if IPv6 && (family =? AF_INET6) then Z.lor options RES_USE_INET6
                         else options in
          match gethostbyname (has_flag options RES_USE_INET6) host with
          | inr h_errno => mpure (inl (h_errno_code h_errno), options)
          | inl hptr => mpure (inr hptr, options)
          end
      end
  end.

(** ** addrinfo_local

    The return value, and what is stored through [result]. *)
Definition addrinfo_local (path : cstring) (hints : hints_t) : M (Z * option (list addrinfo)) :=
  if h_socktype hints =? 0 then mpure (EAI_SOCKTYPE, None) else
  p <~ calloc sizeof_addrinfo ;;
  if p =? 0 then mpure (0, None) else                    (* return (NULL) *)
  q <~ malloc sizeof_sockaddr_un ;;
  if q =? 0 then mpure (EAI_MEMORY, None) else
  let sa := SockUn (take (Z.to_nat sizeof_sun_path) path) in
  let ai := AI p 0 AF_LOCAL (h_socktype hints) 0 sizeof_sockaddr_un None (Some (q, sa)) in
  (if has_flag (h_flags hints) AI_PASSIVE
   then sys (sys_unlink path) ;;; mpure tt               (* OK if this fails *)
   else mpure tt) ;;;
  mpure (0, Some [ai]).

(** ** freeaddrinfo *)

Fixpoint free_freeaddrinfo (ais : list addrinfo) : M unit :=
  match ais with
  | [] => mpure tt
  | ai :: rest =>
      (match ai_addr ai with Some (p, _) => free p | None => mpure tt end) ;;;
      (match ai_canonname ai with Some (p, _) => free p | None => mpure tt end) ;;;
      free (ai_self ai) ;;; free_freeaddrinfo rest
  end.

(** ** getaddrinfo *)

(** The checks of flags, family and socket type: 0 or the error. *)
Definition check_hints (hints : hints_t) : Z :=
  let family := h_family hints in
  let socktype := h_socktype hints in
  if negb (Z.land (h_flags hints) (Z.lnot (Z.lor AI_PASSIVE AI_CANONNAME)) =? 0)
  then EAI_BADFLAGS
  else if family =? 0 then 0
  else if family =? AF_UNSPEC then 0
  else if (family =? AF_INET) && IPv4 then
    if negb (socktype =? 0) && negb (ip_socktype socktype) then EAI_SOCKTYPE else 0
  else if (family =? AF_INET6) && IPv6 then
    if negb (socktype =? 0) && negb (ip_socktype socktype) then EAI_SOCKTYPE else 0
  else if (family =? AF_LOCAL) && UNIXdomain then
    if negb (socktype =? 0) && negb ((socktype =? SOCK_STREAM) || (socktype =? SOCK_DGRAM))
    then EAI_SOCKTYPE else 0
  else EAI_FAMILY.

(** The host to look up and [hints.ai_family] afterwards, or an error. *)
Definition choose_host (host serv : option cstring) (hints : hints_t)
    : M (Z + (option cstring * Z)) :=
  let family := h_family hints in
  match host with
  | None | Some [] =>
      match serv with
      | None | Some [] => mpure (inl EAI_NONAME)
      | Some serv =>
          if has_flag (h_flags hints) AI_PASSIVE then
            if (family =? AF_INET) && IPv4 then mpure (inr (Some c["0.0.0.0"], family))
            else if (family =? AF_INET6) && IPv6 then mpure (inr (Some c["0::0"], family))
            else if (family =? AF_LOCAL) && UNIXdomain then
              if negb (first_char serv =? 47) then mpure (inl EAI_ADDRFAMILY)
              else mpure (inr (host, family))
            else if family =? 0 then mpure (inl EAI_ADDRFAMILY)
            else mpure (inr (host, family))
          else mpure (inr (Some c["localhost"], family))
      end
  | Some h =>
      if family =? 0 then
        a4 <~ (if IPv4 then numeric_host AF_INET h else mpure None) ;;
        let family := match a4 with Some _ => AF_INET | None => family end in
        a6 <~ (if IPv6 then numeric_host AF_INET6 h else mpure None) ;;
        let family := match a6 with Some _ => AF_INET6 | None => family end in
        mpure (inr (host, family))
      else mpure (inr (host, family))
  end.

(** One iteration of the loop over the addresses: the structure is linked in before its
    address is allocated. *)
Definition add_address (ais : list addrinfo) (hints : hints_t) (ap : list Z) (family : Z)
    : M (Z * list addrinfo) :=
  p <~ calloc sizeof_addrinfo ;;
  if p =? 0 then mpure (EAI_MEMORY, ais) else
  let flags := if h_socktype hints =? 0 then Z.lor 0 AI_CLONE else 0 in
  let mk addrlen a := AI p flags family (h_socktype hints) (h_protocol hints) addrlen None a in
  if (family =? AF_INET) && IPv4 then
    q <~ calloc sizeof_sockaddr_in ;;
    if q =? 0 then mpure (EAI_MEMORY, ais ++ [mk 0 None])
    else if (length ap <? 4)%nat then undefined
    else mpure (0, ais ++ [mk sizeof_sockaddr_in (Some (q, SockIn [0; 0] (take 4 ap)))])
  else if (family =? AF_INET6) && IPv6 then
    q <~ calloc sizeof_sockaddr_in6 ;;
    if q =? 0 then mpure (EAI_MEMORY, ais ++ [mk 0 None])
    else if (length ap <? 16)%nat then undefined
    else mpure (0, ais ++ [mk sizeof_sockaddr_in6 (Some (q, SockIn6 [0; 0] (take 16 ap) 0 0))])
  else mpure (0, ais ++ [mk 0 None]).

Fixpoint add_addresses (ais : list addrinfo) (hints : hints_t) (aps : list (list Z)) (family : Z)
    : M (Z * list addrinfo) :=
  match aps with
  | [] => mpure (0, ais)
  | ap :: aps' =>
      r <~ add_address ais hints ap family ;;
      if negb (r.1 =? 0) then mpure r else add_addresses r.2 hints aps' family
  end.

(** [aihead->ai_canonname = strdup (hptr->h_name)]; the list may be empty. *)
Definition store_canonname (ais : list addrinfo) (hptr : hostent) : M (Z * list addrinfo) :=
  match ais with
  | [] => undefined
  | _ =>
      q <~ strdup (h_name hptr) ;;
      if q =? 0 then mpure (EAI_MEMORY, set_canonname ais None)
      else mpure (0, set_canonname ais (Some (q, h_name hptr)))
  end.

(** [bad:]: [freeaddrinfo (aihead)] follows whatever [aihead] holds. *)
Definition bad {A} (e : Z) (aihead : option (list addrinfo)) (options : Z)
    : M (Z * option A * Z) :=
  match aihead with
  | None => undefined
  | Some ais => free_freeaddrinfo ais ;;; mpure (e, None, options)
  end.

(** From the host entry on: the list, the canonical name, the service. *)
Definition build_list (hptr : hostent) (serv : option cstring) (hints : hints_t)
    : M (Z * list addrinfo) :=
  r <~ add_addresses [] hints (h_addr_list hptr) (h_addrtype hptr) ;;
  if negb (r.1 =? 0) then mpure r else
  r <~ (if has_flag (h_flags hints) AI_CANONNAME then store_canonname r.2 hptr else mpure r) ;;
  if negb (r.1 =? 0) then mpure r else
  match serv with
  | None | Some [] => mpure r
  | Some serv => getaddrinfo_serv r.2 hints serv
  end.

Definition hints_family (h : hints_t) (f : Z) : hints_t :=
  Hints (h_flags h) f (h_socktype h) (h_protocol h).

Definition starts_with_slash (s : option cstring) : bool :=
  match s with Some (47 :: _) => true | _ => false end.

(** The return value, what is stored through [result], and [_res.options]. *)
Definition free_getaddrinfo (host serv : option cstring) (hintsp : option hints_t)
    (options : Z) : M (Z * option (list addrinfo) * Z) :=
  let hints := default (Hints 0 AF_UNSPEC 0 0) hintsp in
  let rc := check_hints hints in
  if negb (rc =? 0) then bad rc None options else
  r <~ choose_host host serv hints ;;
  match r with
  | inl rc => bad rc None options
  | inr (host, family) =>
      let hints := hints_family hints family in
      let path := if starts_with_slash host then host
                  else if starts_with_slash serv then serv else None in
      match path, UNIXdomain with
      | Some path, true =>
          r <~ addrinfo_local path hints ;; mpure (r.1, r.2, options)
      | _, _ =>
          match host with
          | None => undefined                            (* [host[0]] of a null pointer *)
          | Some host =>
              r <~ getaddrinfo_host host family options ;;
              let '(h, options) := r in
              match h with
              | inl rc => bad rc None options
              | inr hptr =>
                  if negb (family =? AF_UNSPEC) && negb (family =? h_addrtype hptr)
                  then bad EAI_ADDRFAMILY None options else
                  r <~ build_list hptr serv hints ;;
                  if negb (r.1 =? 0) then bad r.1 (Some r.2) options
                  else mpure (0, Some r.2, options)
              end
          end
      end
  end.

(** * getnameinfo.c *)

(** [strncpy (dst, name, n)] into a buffer. *)
Definition strncpy_into (dst : list Z) (name : cstring) (n : Z) : option (list Z) :=
  text ← strncpy_text (name ++ [0]) (Z.to_nat n);
  memcpy dst 0 text.

Definition do_ipv46 (host : list Z) (hostlen : Z) (serv : list Z) (servlen : Z)
    (aptr : list Z) (family : Z) (port : list Z) : M (Z * list Z * list Z) :=
  h <~ (if hostlen >? 0 then
          match gethostbyaddr aptr family with
          | Some name => host <~ checked (strncpy_into host name hostlen) ;; mpure (0, host)
          | None => mpure (1, host)
          end
        else mpure (0, host)) ;;
  let '(rc, host) := h in
  if negb (rc =? 0) then mpure (rc, host, serv) else
  if servlen >? 0 then
    match getservbyport port None with
    | Some name => serv <~ checked (strncpy_into serv name servlen) ;; mpure (0, host, serv)
    | None => mpure (1, host, serv)
    end
  else mpure (0, host, serv).

Definition free_getnameinfo (sa : sockaddr) (host : list Z) (hostlen : Z) (serv : list Z)
    (servlen : Z) : M (Z * list Z * list Z) :=
  match sa with
  | SockIn port addr =>
      if IPv4 then do_ipv46 host hostlen serv servlen addr AF_INET port
      else mpure (1, host, serv)
  | SockIn6 port addr _ _ =>
      if IPv6 then do_ipv46 host hostlen serv servlen addr AF_INET6 port
      else mpure (1, host, serv)
  | _ => mpure (1, host, serv)
  end.

End FreeGai.
