(* ===== verification/FreeGaiClaims.v ===== *)
(** [libfree/getaddrinfo.c] and [libfree/getnameinfo.c]: what they have in common with [libgai/],
    the memory of each function, and the properties: agreement, memory, and where the replacement
    fails. *)

From S2P Require Import Prelude CText Sys Traces Error Ownership Wrappers InetAddr SockUtil.
From S2P Require Import InetClaims Words Gai GaiFacts GaiClaims FreeGai.

Local Abbreviation mspec := (Ownership.mspec memory).

(** * An IPv6 address has a colon *)

Section Colon.
Import Pton.

(** Without a colon the loop stores nothing before it ends. *)
Lemma pton6_loop_no_colon src s :
  strchr src 58 = None -> tp6 s = 0%nat -> colonp s = None ->
  match pton6_loop src s with
  | Some (Next s') => tp6 s' = 0%nat /\ colonp s' = None
  | Some (Break s') => tp6 s' = 4%nat /\ colonp s' = None /\ saw_xdigit s' = false
  | Some (Return rc) => rc = 0
  | None => True
  end.
Proof.
  revert s. induction src as [|ch src IH]; intros s Hc Htp Hco; cbn [pton6_loop]; [done|].
  cbn [strchr] in Hc. destruct (ch =? 58) eqn:Ech; [done|].
  destruct (strchr src 58); [done|].
  unfold pton6_step. destruct (xdigit_val ch).
  - destruct (_ >? _); cbn; [done|]. by apply IH.
  - rewrite Ech. destruct (_ && _); cbn; [|done].
    destruct (inet_pton4 _ _ _) as [[rc tmp']|]; cbn; [|done].
    destruct (rc >? 0); cbn; [|done]. by rewrite Htp.
Qed.

Lemma pton6_finish_short dst s :
  (tp6 s <= 4)%nat -> colonp s = None ->
  match pton6_finish dst s with Some (rc, _) => rc = 0 | None => True end.
Proof.
  intros Htp Hco. unfold pton6_finish. rewrite Hco. unfold IN6ADDRSZ, INT16SZ.
  destruct (saw_xdigit s).
  - destruct (_ <? _)%nat; [done|]. destruct (put_word _ _ _); cbn; [|done].
    destruct (Nat.eqb_spec (tp6 s + 2) 16); [lia|done].
  - destruct (Nat.eqb_spec (tp6 s) 16); [lia|done].
Qed.

Lemma inet_pton6_no_colon src dst rc dst' :
  strchr src 58 = None -> inet_pton6 src dst = Some (rc, dst') -> rc = 0.
Proof.
  intros Hc. unfold inet_pton6.
  assert (Hbody : forall r, (r ← pton6_loop src (pton6_init src);
      match r with Return rc => Some (rc, dst) | Next s | Break s => pton6_finish dst s end)
      = Some r -> r.1 = 0).
  { intros r. pose proof (pton6_loop_no_colon src (pton6_init src) Hc eq_refl eq_refl) as H.
    destruct (pton6_loop _ _) as [[s|s|k]|]; cbn; [| | |done].
    - destruct H as [Ht Hco]. pose proof (pton6_finish_short dst s ltac:(lia) Hco) as H'.
      intros E. rewrite E in H'. by destruct r.
    - destruct H as (Ht & Hco & _). pose proof (pton6_finish_short dst s ltac:(lia) Hco) as H'.
      intros E. rewrite E in H'. by destruct r.
    - intros [= <-]. done. }
  destruct src as [|ch src']; [by intros E%(Hbody (rc, dst'))|].
  cbn [strchr] in Hc. destruct (Z.eqb_spec ch 58) as [|Hne]; [done|].
  intros E. apply (Hbody (rc, dst')). rewrite <- E. destruct ch as [|ch|ch]; try done.
  repeat (destruct ch as [ch|ch|]; try done).
Qed.
End Colon.

(** [inet_pton] never leaves its buffers, so the test for a numeric host is a function. *)
Lemma numeric_host4_total host :
  exists x, numeric_host AF_INET host = mpure x.
Proof.
  unfold numeric_host, Pton.inet_pton. cbn [Z.eqb AF_INET Pos.eqb].
  destruct (inet_pton4_cases host (replicate 4 0) 0) as [-> | (q & -> & _)];
    [cbn; lia|by eexists..].
Qed.

Lemma numeric_host6_total host :
  exists x, numeric_host AF_INET6 host = mpure x /\ (x <> None -> strchr host 58 <> None).
Proof.
  unfold numeric_host, Pton.inet_pton. cbn [Z.eqb AF_INET AF_INET6 Pos.eqb].
  destruct (inet_pton6_total host (replicate 16 0) eq_refl) as [E|(q & E & _)]; rewrite E.
  - eexists. split; [reflexivity|]. done.
  - eexists. split; [reflexivity|]. intros _ Hc. by apply inet_pton6_no_colon in E.
Qed.

(** * The parts that both resolvers share *)

Section Same.
Context {os : OS} {SE : Strerror} {GC : GaiConfig} {DB : Netdb} {RS : Resolv}.

Lemma getaddrinfo_port_same ais port t : getaddrinfo_port ais port t = ga_port ais port t.
Proof.
  induction ais as [|ai ais IH]; [done|]. cbn [getaddrinfo_port ga_port]. by rewrite IH.
Qed.

Lemma add_address_same ais hints ap family :
  family = AF_INET \/ family = AF_INET6 ->
  add_address ais hints ap family = ga_aistruct ais hints ap family.
Proof. unfold add_address, ga_aistruct. by intros [-> | ->]. Qed.

Lemma add_addresses_same ais hints aps family :
  family = AF_INET \/ family = AF_INET6 ->
  forall s, add_addresses ais hints aps family s = ga_addresses ais hints aps family s.
Proof.
  intros Hf. revert ais. induction aps as [|ap aps IH]; intros ais s; [done|].
  cbn [add_addresses ga_addresses]. rewrite add_address_same by done. unfold mthen.
  destruct (ga_aistruct _ _ _ _ s) as [[r| | | |] s1]; try done.
  destruct (negb _); [done|apply IH].
Qed.

(** The list of a run that succeeds, when it is not empty. *)
Definition success {A} (rc : Z) (ais : list A) (s' : st) : option (list A * st) :=
  match ais with [] => None | _ => if rc =? 0 then Some (ais, s') else None end.

Definition ok_of (r : outcome (Z * list addrinfo) * st) : option (list addrinfo * st) :=
  match r with (Val (rc, ais), s') => success rc ais s' | _ => None end.

Definition gai_ok (r : outcome (Z + list addrinfo) * st) : option (list addrinfo * st) :=
  match r with (Val (inr ais), s') => success 0 ais s' | _ => None end.

Definition free_ok (r : outcome (Z * option (list addrinfo) * Z) * st)
    : option (list addrinfo * st) :=
  match r with (Val (rc, Some ais, _), s') => success rc ais s' | _ => None end.

Lemma success_spec {A} rc (ais : list A) s l s' :
  success rc ais s = Some (l, s') <-> rc = 0 /\ ais <> [] /\ l = ais /\ s' = s.
Proof.
  unfold success. destruct ais as [|a ais]; [split; [done|by intros (_ & [] & _)]|].
  destruct (Z.eqb_spec rc 0); split; try done.
  - by intros [= <- <-].
  - by intros (_ & _ & -> & ->).
  - by intros (? & _).
Qed.

Lemma serv_try_same w n ais serv proto t :
  serv_try w n ais serv proto t = serv_name w n ais serv proto t.
Proof.
  unfold serv_try, serv_name, serv_port. destruct w, (getservbyname serv proto); try done.
Qed.

(** With a socket type the two service look-ups succeed alike. *)
Lemma serv_same ais hints serv s :
  h_socktype hints <> 0 ->
  ok_of (getaddrinfo_serv ais hints serv s) = ok_of (ga_serv ais hints serv s).
Proof.
  intros Ht. unfold getaddrinfo_serv, ga_serv. rewrite !serv_try_same.
  rewrite (proj2 (Z.eqb_neq _ _) Ht). cbn [negb orb]. rewrite andb_true_r.
  destruct (isdigit _).
  - rewrite getaddrinfo_port_same. unfold serv_port, mthen.
    destruct (ga_port ais _ _ s) as [[[n l]| | | |] s1]; try done. cbn [fst snd].
    destruct (Z.eqb_spec n 0) as [->|Hn]; [by destruct l|].
    destruct (n <? 0); cbn [mpure]; [by destruct l|]. cbn [negb Z.eqb Z.add].
    by rewrite (proj2 (Z.eqb_neq (0 + n) 0)) by lia.
  - unfold mthen. destruct (serv_name _ 0 ais _ _ _ s) as [[[rc [n l]]| | | |] s1]; try done.
    cbn [fst snd]. destruct (rc =? 0) eqn:Erc; cbn [negb mpure]; [|by rewrite Erc].
    rewrite serv_try_same.
    destruct (serv_name _ n l _ _ _ s1) as [[[rc' [n' l']]| | | |] s2]; done.
Qed.

(** An empty list stays empty. *)
Lemma serv_name_nil w n serv proto t s :
  serv_name w n [] serv proto t s = (Val (0, (n, [])), s).
Proof.
  unfold serv_name. destruct w, (getservbyname serv proto); try done. cbn. by rewrite Z.add_0_r.
Qed.

Lemma serv_nil hints serv s : ok_of (getaddrinfo_serv [] hints serv s) = None.
Proof.
  unfold getaddrinfo_serv. rewrite !serv_try_same. destruct (_ && _); [done|].
  rewrite (then_val _ _ _ _ _ (serv_name_nil _ _ _ _ _ _)). cbn [fst snd Z.eqb negb].
  rewrite !serv_try_same, (then_val _ _ _ _ _ (serv_name_nil _ _ _ _ _ _)). done.
Qed.

(** What follows the list of addresses. *)
Definition free_tail (serv : option cstring) (hints : hints_t) (r : Z * list addrinfo)
    : M (Z * list addrinfo) :=
  match serv with None | Some [] => mpure r | Some serv => getaddrinfo_serv r.2 hints serv end.

Definition gai_tail (host serv : option cstring) (hints : hints_t) search
    (r : Z * list addrinfo) : M (Z + list addrinfo) :=
  r <~ ga_finish host serv hints search (r.2, None) ;;
  if negb (r.1 =? 0) then freeaddrinfo r.2 ;;; mpure (inl r.1) else mpure (inr r.2).

Lemma gai_ok_bad e ais s : gai_ok ((freeaddrinfo ais ;;; mpure (inl e)) s) = None.
Proof. unfold mthen. by destruct (freeaddrinfo ais s) as [[]]. Qed.

Lemma free_ok_bad e aihead options s : free_ok (bad e aihead options s) = None.
Proof.
  destruct aihead as [ais|]; [|done]. unfold bad, mthen. by destruct (free_freeaddrinfo ais s) as [[]].
Qed.

Lemma tail_same host serv hints search ais s :
  h_socktype hints <> 0 -> has_flag (h_flags hints) AI_CANONNAME = false ->
  ok_of (free_tail serv hints (0, ais) s) = gai_ok (gai_tail host serv hints search (0, ais) s).
Proof.
  intros Ht Hf. unfold free_tail, gai_tail, ga_finish. cbn [snd]. destruct ais as [|ai ais].
  { destruct serv as [[|x serv]|]; try done. apply serv_nil. }
  rewrite Hf, andb_false_r, then_pure. cbn [Z.eqb negb].
  destruct serv as [[|x serv]|]; try done. rewrite serv_same by done. unfold mthen.
  destruct (ga_serv _ _ _ s) as [[[rc l]| | | |] s1]; try done. cbn [fst snd ok_of].
  destruct (rc =? 0) eqn:E; cbn [negb].
  - apply Z.eqb_eq in E as ->. done.
  - pose proof (gai_ok_bad rc l s1) as H. unfold mthen in H. rewrite H.
    destruct l; [done|]. cbn. by rewrite E.
Qed.
End Same.

(** * Memory *)

Section Mem.
Context {os : OS} {SE : Strerror} {GC : GaiConfig} {DB : Netdb} {RS : Resolv}.

Ltac alloc := eapply mspec_bind; [by apply mspec_alloc|]; intros ?p _; cbv beta.

Lemma add_address_mem ais hints ap family :
  list_spec (add_address ais hints ap family) ais.
Proof.
  unfold list_spec, add_address, calloc. alloc.
  destruct (Z.eqb_spec p 0) as [->|Hp]; [apply mspec_pure; [done|perm]|].
  rewrite (new_ptr_ok p) by done.
  assert (Hnone : forall rc fl len, mspec (mpure (rc, ais ++ [AI p fl family (h_socktype hints)
     (h_protocol hints) len None None])) ([p] ++ owned ais)
     (fun r : Z * list addrinfo => nocanon ais -> nocanon r.2) (fun r => owned r.2)).
  { intros. apply mspec_pure; [by apply nocanon_snoc|perm]. }
  assert (Hsome : forall q fl len sa, q <> 0 -> mspec (mpure (0, ais ++ [AI p fl family
     (h_socktype hints) (h_protocol hints) len None (Some (q, sa))])) (new_ptr q ++ [p] ++ owned ais)
     (fun r : Z * list addrinfo => nocanon ais -> nocanon r.2) (fun r => owned r.2)).
  { intros. rewrite new_ptr_ok by done. apply mspec_pure; [by apply nocanon_snoc|perm]. }
  destruct (_ && IPv4); [|destruct (_ && IPv6)]; [| |apply Hnone].
  all: alloc; destruct (Z.eqb_spec p0 0) as [->|]; [apply Hnone|];
    destruct (_ <? _)%nat; [by apply mspec_undefined|by apply Hsome].
Qed.

Lemma add_addresses_mem ais hints aps family :
  list_spec (add_addresses ais hints aps family) ais.
Proof.
  revert ais. induction aps as [|ap aps IH]; intros ais; cbn [add_addresses].
  { by apply mspec_pure. }
  eapply mspec_bind; [apply add_address_mem|]. intros [rc ais'] Hq. cbn [fst snd] in *.
  destruct (rc =? 0); cbn [negb].
  - eapply mspec_conseq; [apply IH|done|auto|done].
  - by apply mspec_pure.
Qed.

Lemma getaddrinfo_serv_mem ais hints serv :
  mspec (getaddrinfo_serv ais hints serv) (owned ais) (fun _ => True) (fun r => owned r.2).
Proof.
  unfold getaddrinfo_serv. destruct (_ && _).
  - eapply mspec_bind; [apply ga_port_mem|]. intros [n l] _. cbn [fst snd].
    repeat case_match; by apply mspec_pure.
  - eapply mspec_bind; [apply serv_name_mem|]. intros [rc [n l]] _. cbn [fst snd].
    destruct (negb _); [by apply mspec_pure|].
    eapply mspec_bind; [apply serv_name_mem|]. intros [rc' [n' l']] _. cbn [fst snd].
    repeat case_match; by apply mspec_pure.
Qed.

Lemma store_canonname_mem ais hptr :
  nocanon ais ->
  mspec (store_canonname ais hptr) (owned ais) (fun _ => True) (fun r => owned r.2).
Proof.
  intros Hn. unfold store_canonname. destruct ais as [|ai ais]; [by apply mspec_undefined|].
  unfold strdup. alloc. destruct (Z.eqb_spec p 0) as [->|Hp]; apply mspec_pure; try done; cbn [snd].
  - by rewrite owned_set_canonname, app_nil_r.
  - rewrite owned_set_canonname, new_ptr_ok by done. cbn [ptr]. solve_Permutation.
Qed.

Lemma build_list_mem hptr serv hints :
  mspec (build_list hptr serv hints) [] (fun _ => True) (fun r => owned r.2).
Proof.
  unfold build_list. eapply mspec_bind; [apply (add_addresses_mem [])|].
  intros [rc ais] Hn. cbn [fst snd] in *. specialize (Hn ltac:(constructor)).
  destruct (negb _); [by apply mspec_pure|].
  apply (mspec_bind _ _ _ (fun _ => True) (fun r => owned r.2)).
  - destruct (has_flag _ _); [by apply store_canonname_mem|by apply mspec_pure].
  - intros [rc' ais'] _. cbn [fst snd]. destruct (negb _); [by apply mspec_pure|].
    destruct serv as [[|x serv]|]; [by apply mspec_pure| |by apply mspec_pure].
    apply getaddrinfo_serv_mem.
Qed.

Lemma getaddrinfo_host_mem host family options B :
  mspec (getaddrinfo_host host family options) B (fun _ => True) (fun _ => B).
Proof.
  unfold getaddrinfo_host. eapply mspec_bind.
  { instantiate (1 := fun _ => B). instantiate (1 := fun _ => True).
    destruct (_ && _); [apply numeric_host_mem|by apply mspec_pure]. }
  intros [a|] _; [by apply mspec_pure|]. eapply mspec_bind.
  { instantiate (1 := fun _ => B). instantiate (1 := fun _ => True).
    destruct (_ && _); [apply numeric_host_mem|by apply mspec_pure]. }
  intros [a|] _; [by apply mspec_pure|]. destruct (gethostbyname _ _); by apply mspec_pure.
Qed.

(** A host that [choose_host] puts in does not name a path. *)
Lemma choose_host_mem host serv hints B :
  mspec (choose_host host serv hints) B
    (fun r => match r with
              | inr (host', _) => starts_with_slash host' = true -> starts_with_slash host = true
              | inl _ => True
              end) (fun _ => B).
Proof.
  assert (Hn : forall (b : bool) af h, mspec (if b then numeric_host af h else mpure None) B
             (fun _ => True) (fun _ => B)).
  { intros [] ? ?; [apply numeric_host_mem|by apply mspec_pure]. }
  unfold choose_host. destruct host as [[|x h]|];
    try (repeat case_match; by apply mspec_pure).
  destruct (_ =? 0); [|by apply mspec_pure]. eapply mspec_bind; [apply Hn|]. intros a4 _.
  eapply mspec_bind; [apply Hn|]. intros a6 _. by apply mspec_pure.
Qed.

(** [addrinfo_local] loses the structure when there is no memory for the address. *)
Definition local_result (r : Z * option (list addrinfo)) (C : list Z) : Prop :=
  (C = owned (default [] r.2) /\ (r.2 <> None -> r.1 = 0)) \/
  (r = (EAI_MEMORY, None) /\ exists p, C = [p]).

Lemma addrinfo_local_mem path hints :
  mspecE memory (addrinfo_local path hints) [] local_result.
Proof.
  unfold addrinfo_local. destruct (_ =? 0).
  { apply (mspecE_of _ _ (fun r => r = (EAI_SOCKTYPE, None)) (fun _ => []));
      [by apply mspec_pure|]. intros r ->. by left. }
  unfold calloc, malloc. eapply mspecE_bind; [by apply mspec_alloc|]. intros p _. cbv beta.
  destruct (Z.eqb_spec p 0) as [->|Hp].
  { apply (mspecE_of _ _ (fun r => r = (0, None)) (fun _ => [])); [by apply mspec_pure|].
    intros r ->. by left. }
  eapply mspecE_bind; [by apply mspec_alloc|]. intros q _. cbv beta.
  rewrite (new_ptr_ok p) by done. destruct (Z.eqb_spec q 0) as [->|Hq].
  { apply (mspecE_of _ _ (fun r => r = (EAI_MEMORY, None)) (fun _ => [p]));
      [by apply mspec_pure|]. intros r ->. right. eauto. }
  rewrite (new_ptr_ok q) by done. set (ai := AI _ _ _ _ _ _ _ _).
  apply (mspecE_bind _ _ _ (fun _ => True) (fun _ => [q; p])).
  - destruct (has_flag _ _); [|by apply mspec_pure].
    eapply mspec_bind; [by apply (mspec_sys _ _ (fun _ => [q; p]))|]. intros ? _.
    by apply mspec_pure.
  - intros ? _. apply (mspecE_of _ _ (fun r => r = (0, Some [ai])) (fun _ => owned [ai])).
    + apply mspec_pure; [done|]. cbn. solve_Permutation.
    + intros r ->. by left.
Qed.
End Mem.

(** * [strncpy] into a name buffer *)

Lemma strncpy_text_pad a n rest :
  nul_free a -> (length a <= n)%nat ->
  strncpy_text (a ++ 0 :: rest) n = Some (a ++ replicate (n - length a) 0).
Proof.
  intros Ha. revert n. induction Ha as [|x a Hx _ IH]; intros n Hn.
  - destruct n; [done|]. by rewrite Nat.sub_0_r.
  - destruct n as [|n]; [cbn in Hn; lia|]. cbn [app strncpy_text].
    rewrite (proj2 (Z.eqb_neq x 0) Hx), IH by (cbn in Hn; lia). done.
Qed.

(** A name that fits is stored with its NUL ... *)
Lemma strncpy_into_fits dst name n :
  nul_free name -> Z.of_nat (length name) < n -> n <= Z.of_nat (length dst) ->
  exists dst', strncpy_into dst name n = Some dst' /\ cstring_at dst' 0 = name.
Proof.
  intros Hn Hl Hd. unfold strncpy_into. rewrite strncpy_text_pad by (done || lia).
  cbn [mbind option_bind]. rewrite memcpy_ok by (rewrite length_app, length_replicate; lia).
  eexists. split; [done|]. cbn [take].
  destruct (Z.to_nat n - length name)%nat as [|k] eqn:E; [lia|]. cbn [replicate].
  rewrite app_nil_l, <- app_assoc. by apply (cstring_at_text []).
Qed.

(** ... a longer one fills the buffer without one. *)
Lemma strncpy_into_full dst name :
  nul_free name -> (length dst <= length name)%nat ->
  strncpy_into dst name (Z.of_nat (length dst)) = Some (take (length dst) name).
Proof.
  intros Hn Hl. unfold strncpy_into. rewrite Nat2Z.id, strncpy_text_same by done.
  cbn [mbind option_bind]. rewrite memcpy_ok by (rewrite length_take; lia).
  rewrite length_take, Nat.add_0_l, Nat.min_l, drop_all by lia. by rewrite app_nil_r.
Qed.

(** * Agreement with [libgai/] *)

Section Agree.
Context {os : OS} {SE : Strerror} {GC : GaiConfig} {DB : Netdb} {RS : Resolv}.

(** The request names one Internet family, a socket type, and no canonical name; the host of
    an IPv6 request is given or a wildcard (for the local host the two libraries use different
    names); no path of the Unix domain is meant. *)
Record one_family (host serv : option cstring) (hints : hints_t) : Prop := {
  of_family : (h_family hints = AF_INET /\ IPv4 = true) \/
    (h_family hints = AF_INET6 /\ IPv6 = true /\
     (absent host = false \/ has_flag (h_flags hints) AI_PASSIVE = true));
  of_socktype : h_socktype hints <> 0;
  of_canon : has_flag (h_flags hints) AI_CANONNAME = false;
  of_host : starts_with_slash host = false;
  of_serv : starts_with_slash serv = false;
}.

(** The host both resolvers look up. *)
Definition lookup_name (host : option cstring) (hints : hints_t) : cstring :=
  match host with
  | None | Some [] =>
      if has_flag (h_flags hints) AI_PASSIVE
      then if h_family hints =? AF_INET then c["0.0.0.0"] else c["0::0"]
      else c["localhost"]
  | Some h => h
  end.

(** Up to the look-up. *)
Lemma check_same host serv hints :
  absent host && absent serv = false ->
  ga_echeck host serv (h_flags hints) (h_family hints) (h_socktype hints) (h_protocol hints)
    = check_hints hints.
Proof.
  intros Ha. unfold ga_echeck, check_hints. rewrite Ha.
  destruct (negb _); [done|]. change AF_UNSPEC with 0. by destruct (h_family hints =? 0).
Qed.

Lemma choose_same host serv hints :
  one_family host serv hints -> absent host && absent serv = false ->
  choose_host host serv hints = mpure (inr (Some (lookup_name host hints), h_family hints)).
Proof.
  intros [Hf _ _ _ _] Ha. unfold choose_host, lookup_name.
  assert (Hn : (h_family hints =? 0) = false) by (destruct Hf as [[-> _]|[-> _]]; done).
  destruct host as [[|x h]|]; [|by rewrite Hn|]; destruct serv as [[|y v]|]; try done;
    destruct (has_flag _ _) eqn:Hp; try done;
    destruct Hf as [[-> ->]|(-> & -> & [|])]; try done.
Qed.

Lemma nsearch_same host serv hints :
  one_family host serv hints ->
  ga_nsearch host hints = mpure [(lookup_name host hints, h_family hints)].
Proof.
  intros [Hf _ _ _ _]. unfold ga_nsearch, lookup_name, search_list.
  destruct Hf as [[-> ->]|(-> & -> & Hh)]; cbn [Z.eqb AF_INET AF_INET6 AF_UNSPEC Pos.eqb].
  - destruct host as [[|x h]|], (has_flag (h_flags hints) AI_PASSIVE); done.
  - destruct host as [[|x h]|], (has_flag (h_flags hints) AI_PASSIVE); try done; by destruct Hh.
Qed.

(** The two tests for a numeric host give the same answers. *)
Lemma numeric4_same h :
  exists x, (if IPv4 && isdigit (first_char h) then numeric_host AF_INET h else mpure None)
    = mpure x.
Proof. destruct (_ && _); [apply numeric_host4_total|by eexists]. Qed.

Lemma numeric6_same h :
  exists x,
    (if IPv6 && (isxdigit (first_char h) || (first_char h =? 58))
     then numeric_host AF_INET6 h else mpure None) = mpure x /\
    (if IPv6 && (isxdigit (first_char h) || (first_char h =? 58)) &&
        (match strchr h 58 with Some _ => true | None => false end)
     then numeric_host AF_INET6 h else mpure None) = mpure x.
Proof.
  destruct (_ && _); [|by eexists]. destruct (numeric_host6_total h) as (x & E & Hx).
  exists x. cbn [andb]. rewrite E. split; [done|]. destruct (strchr h 58); [done|].
  destruct x; [by destruct Hx|done].
Qed.

(** Once both have a host entry or a numeric address, they build and finish the same list. *)
Lemma build_same host serv hints search hptr s :
  h_socktype hints <> 0 -> has_flag (h_flags hints) AI_CANONNAME = false ->
  h_addrtype hptr = AF_INET \/ h_addrtype hptr = AF_INET6 ->
  ok_of (build_list hptr serv hints s) =
  gai_ok ((r <~ ga_addresses [] hints (h_addr_list hptr) (h_addrtype hptr) ;;
           if negb (r.1 =? 0) then freeaddrinfo r.2 ;;; mpure (inl r.1)
           else gai_tail host serv hints search r) s).
Proof.
  intros Ht Hc Hf. unfold build_list. rewrite Hc. unfold mthen at 1 3.
  rewrite add_addresses_same by done.
  destruct (ga_addresses _ _ _ _ s) as [[[rc ais]| | | |] s1]; try done. cbn [fst snd].
  destruct (Z.eqb_spec rc 0) as [->|Hrc]; cbn [negb].
  - rewrite then_pure. apply (tail_same host serv hints search ais s1 Ht Hc).
  - rewrite gai_ok_bad. cbn. unfold success. rewrite (proj2 (Z.eqb_neq rc 0) Hrc). by destruct ais.
Qed.

(** [libgai/] after a search with one entry. *)
Definition gai_rest (host serv : option cstring) (hints : hints_t) search
    (m : M (Z * ga_state)) : M (Z + list addrinfo) :=
  r <~ (r <~ m ;; if negb (r.1 =? 0) then mpure r else mpure (0, r.2)) ;;
  if negb (r.1 =? 0) then freeaddrinfo r.2.1 ;;; mpure (inl r.1) else
  r <~ ga_finish host serv hints search r.2 ;;
  if negb (r.1 =? 0) then freeaddrinfo r.2 ;;; mpure (inl r.1) else mpure (inr r.2).

Lemma gai_rest_list host serv hints search m s :
  gai_rest host serv hints search (r <~ m ;; mpure (r.1, (r.2, None))) s =
  (r <~ m ;; if negb (r.1 =? 0) then freeaddrinfo r.2 ;;; mpure (inl r.1)
             else gai_tail host serv hints search r) s.
Proof.
  unfold gai_rest, gai_tail, mthen, mpure.
  destruct (m s) as [[[rc ais]| | | |] s1]; try done; cbn [fst snd].
  destruct (rc =? 0) eqn:E; cbn [negb fst snd]; [done|]. by rewrite E.
Qed.

Lemma gai_rest_error host serv hints search e s :
  e <> 0 -> gai_ok (gai_rest host serv hints search (mpure (e, ([], None))) s) = None.
Proof.
  intros He. unfold gai_rest. rewrite then_pure. cbn [fst].
  rewrite (proj2 (Z.eqb_neq e 0) He). cbn [negb]. rewrite then_pure. cbn [fst].
  rewrite (proj2 (Z.eqb_neq e 0) He). apply gai_ok_bad.
Qed.

Lemma one_address hints addr family s :
  ga_addresses [] hints [addr] family s =
  (r <~ ga_aistruct [] hints addr family ;; mpure r) s.
Proof.
  cbn [ga_addresses]. unfold mthen. destruct (ga_aistruct _ _ _ _ s) as [[[rc l]| | | |] s1]; try done.
  cbn [fst snd]. destruct (Z.eqb_spec rc 0) as [->|]; done.
Qed.

(** [libfree/] after the look-up. *)
Definition free_rest (serv : option cstring) (hints : hints_t)
    (r : (Z + hostent) * Z) : M (Z * option (list addrinfo) * Z) :=
  let '(h, options) := r in
  match h with
  | inl rc => bad rc None options
  | inr hptr =>
      if negb (h_family hints =? AF_UNSPEC) && negb (h_family hints =? h_addrtype hptr)
      then bad EAI_ADDRFAMILY None options else
      r <~ build_list hptr serv hints ;;
      if negb (r.1 =? 0) then bad r.1 (Some r.2) options
      else mpure (0, Some r.2, options)
  end.

Lemma free_ok_rest hptr serv hints options s :
  h_family hints <> AF_UNSPEC ->
  free_ok (free_rest serv hints (inr hptr, options) s) =
  if h_family hints =? h_addrtype hptr then ok_of (build_list hptr serv hints s) else None.
Proof.
  intros Hf. unfold free_rest. rewrite (proj2 (Z.eqb_neq _ _) Hf). cbn [negb andb].
  destruct (_ =? h_addrtype hptr); cbn [negb]; [|done]. unfold mthen at 1.
  destruct (build_list _ _ _ s) as [[[rc ais]| | | |] s1]; try done. cbn [fst snd].
  destruct (rc =? 0) eqn:E; cbn [negb].
  - cbn. unfold success. by rewrite E.
  - rewrite free_ok_bad. cbn. unfold success. rewrite E. by destruct ais.
Qed.

(** A numeric address of family [af]. *)
Lemma numeric_same af host serv hints search name addr options s :
  one_family host serv hints -> af = AF_INET \/ af = AF_INET6 ->
  free_ok (free_rest serv hints (inr (own_hostent name af addr), options) s) =
  gai_ok (gai_rest host serv hints search
    (r <~ ga_numeric af (h_family hints) hints addr [] ;; mpure (r.1, (r.2, None))) s).
Proof.
  intros [Hf Ht Hc _ _] Haf.
  assert (Hu : h_family hints <> AF_UNSPEC) by (destruct Hf as [[-> _]|[-> _]]; done).
  rewrite free_ok_rest by done. cbn [own_hostent h_addrtype]. unfold ga_numeric.
  rewrite (proj2 (Z.eqb_neq _ _) Hu). cbn [negb andb].
  destruct (h_family hints =? af) eqn:E; cbn [negb].
  - rewrite (build_same host serv hints search) by done. cbn [own_hostent h_addr_list h_addrtype].
    rewrite gai_rest_list. f_equal. unfold mthen at 1. rewrite one_address. unfold mthen, mpure.
    by destruct (ga_aistruct _ _ _ _ s) as [[]].
  - rewrite then_pure. cbn [fst snd]. symmetry. by apply gai_rest_error.
Qed.

Lemma h_errno_code_error e : h_errno_code e <> 0.
Proof. unfold h_errno_code. by repeat case_match. Qed.

(** A host that is not numeric. *)
Lemma name_same host serv hints search h use options s :
  one_family host serv hints -> ((h_family hints =? AF_INET6) && IPv6) = use ->
  free_ok (free_rest serv hints
    (match gethostbyname use h with
     | inr h_errno => (inl (h_errno_code h_errno), options)
     | inl hptr => (inr hptr, options)
     end) s) =
  gai_ok (gai_rest host serv hints search
    (ga_lookup host hints 1 h (h_family hints) ([], None)) s).
Proof.
  intros [Hf Ht Hc _ _] Huse.
  assert (Hu : h_family hints <> AF_UNSPEC) by (destruct Hf as [[-> _]|[-> _]]; done).
  unfold ga_lookup. cbn [Nat.eqb]. rewrite Huse. destruct (gethostbyname use h) as [hptr|e].
  - rewrite free_ok_rest by done. rewrite (proj2 (Z.eqb_neq _ _) Hu). cbn [negb andb].
    destruct (h_family hints =? h_addrtype hptr) eqn:E; cbn [negb].
    + rewrite Hc, andb_false_r. cbn [andb]. rewrite then_pure, gai_rest_list.
      apply build_same; try done. apply Z.eqb_eq in E. rewrite <- E.
      destruct Hf as [[-> _]|[-> _]]; auto.
    + symmetry. by apply gai_rest_error.
  - symmetry. apply gai_rest_error, h_errno_code_error.
Qed.

Lemma lookup_same host serv hints search h options s :
  one_family host serv hints ->
  (h_family hints = AF_INET -> has_flag (res_ready options) RES_USE_INET6 = false) ->
  free_ok ((r <~ getaddrinfo_host h (h_family hints) options ;; free_rest serv hints r) s) =
  gai_ok (gai_rest host serv hints search
    (ga_search_one host hints 1 (h, h_family hints) ([], None)) s).
Proof.
  intros Hof Hopt. unfold getaddrinfo_host, ga_search_one.
  destruct (numeric4_same h) as (x4 & ->). rewrite !then_pure. destruct x4 as [a4|].
  { rewrite then_pure. apply numeric_same; auto. }
  destruct (numeric6_same h) as (x6 & -> & ->). rewrite !then_pure. destruct x6 as [a6|].
  { rewrite then_pure. apply numeric_same; auto. }
  set (opts := if IPv6 && _ then _ else _).
  erewrite <- (name_same host serv hints search h (has_flag opts RES_USE_INET6)); [|done|].
  - by destruct (gethostbyname _ h).
  - unfold opts. destruct Hof as [[[Hf _]|(Hf & -> & _)] _ _ _ _]; rewrite Hf.
    + cbn [Z.eqb AF_INET AF_INET6 Pos.eqb andb]. rewrite andb_false_r. symmetry. by apply Hopt.
    + cbn [andb]. rewrite Z.eqb_refl. unfold has_flag.
      destruct (Z.eqb_spec (Z.land (Z.lor (res_ready options) RES_USE_INET6) RES_USE_INET6) 0)
        as [E|]; [|done].
      apply (f_equal (fun z => Z.testbit z 13)) in E. rewrite Z.land_spec, Z.lor_spec in E.
      by rewrite orb_true_r in E.
Qed.

(** No path of the Unix domain. *)
Lemma not_local host serv hints :
  one_family host serv hints ->
  starts_with_slash (Some (lookup_name host hints)) = false /\ unix_request host serv = false.
Proof.
  intros [_ _ _ Hh Hs]. split.
  - unfold lookup_name. destruct host as [[|x h]|]; try done; by repeat case_match.
  - unfold unix_request. destruct host; [|done]. destruct serv as [[|x v]|]; try done.
    destruct x as [|x|x]; try done. repeat (destruct x as [x|x|]; try done).
Qed.

Lemma hints_family_same hints : hints_family hints (h_family hints) = hints.
Proof. by destruct hints. Qed.

Lemma runs_same host serv hints options s :
  one_family host serv hints ->
  (h_family hints = AF_INET -> has_flag (res_ready options) RES_USE_INET6 = false) ->
  free_ok (free_getaddrinfo host serv (Some hints) options s) =
  gai_ok (getaddrinfo host serv (Some hints) s).
Proof.
  intros Hof Hopt. unfold free_getaddrinfo, getaddrinfo. cbn [default from_option id].
  destruct (absent host && absent serv) eqn:Ha.
  { assert (Hrc : ga_echeck host serv (h_flags hints) (h_family hints) (h_socktype hints)
                    (h_protocol hints) <> 0).
    { unfold ga_echeck. rewrite Ha. by destruct (negb _). }
    rewrite (proj2 (Z.eqb_neq _ _) Hrc). cbn [negb]. rewrite gai_ok_bad.
    destruct (negb _); [done|]. unfold choose_host.
    destruct host as [[|]|], serv as [[|]|]; try done. }
  rewrite check_same by done. destruct (negb _); [by rewrite gai_ok_bad|].
  rewrite (choose_same host serv hints) by done. rewrite then_pure.
  destruct (not_local host serv hints Hof) as [-> ->]. rewrite (of_serv _ _ _ Hof).
  rewrite hints_family_same, (nsearch_same host serv hints), then_pure by done.
  cbn [ga_search length].
  apply (lookup_same host serv hints [(lookup_name host hints, h_family hints)]
           (lookup_name host hints) options s Hof Hopt).
Qed.

Lemma gai_ok_spec r ais s' :
  ais <> [] -> gai_ok r = Some (ais, s') <-> r = (Val (inr ais), s').
Proof.
  intros Hne. destruct r as [[[e|l]| | | |] s1]; cbn; try (split; congruence).
  rewrite success_spec. split; [by intros (_ & _ & -> & ->)|by intros [= -> ->]].
Qed.

Lemma free_ok_spec r ais s' :
  ais <> [] -> free_ok r = Some (ais, s') <-> exists o, r = (Val (0, Some ais, o), s').
Proof.
  intros Hne. destruct r as [[[[rc [l|]] o]| | | |] s1]; cbn;
    try (split; [done|by intros (? & ?)]).
  rewrite success_spec. split.
  - intros (-> & _ & -> & ->). by exists o.
  - by intros (o' & [= -> -> -> ->]).
Qed.

(** C11: the two resolvers agree.  For a request that names one Internet family that is configured and a socket
    type, asks for no canonical name (no [AI_CANONNAME]) and gives neither a host nor a service that begins with a
    slash, and that for IPv6 gives a host or [AI_PASSIVE], [libfree/]'s [getaddrinfo] succeeds with a list of
    addresses exactly when [libgai/]'s does, with the same list (the same entries at the same
    addresses in memory) and after the same calls of the environment, provided [RES_USE_INET6]
    is not left over from an earlier IPv6 request when IPv4 is asked for (otherwise they differ:
    [inet6_option_stays]). *)
Theorem resolvers_agree host serv hints options s ais s' :
  one_family host serv hints -> ais <> [] ->
  (h_family hints = AF_INET -> has_flag (res_ready options) RES_USE_INET6 = false) ->
  (exists options',
     free_getaddrinfo host serv (Some hints) options s = (Val (0, Some ais, options'), s')) <->
  getaddrinfo host serv (Some hints) s = (Val (inr ais), s').
Proof.
  intros Hof Hne Hopt. rewrite <- gai_ok_spec, <- free_ok_spec by done.
  by rewrite (runs_same host serv hints options s Hof Hopt).
Qed.
End Agree.

(** * Memory *)

Local Abbreviation mspecE := (Ownership.mspecE memory).

Section Memory.
Context {os : OS} {SE : Strerror} {GC : GaiConfig} {DB : Netdb} {RS : Resolv}.

(** The path of the Unix domain that a request names, if any. *)
Definition local_request (host serv : option cstring) : bool :=
  UNIXdomain && (starts_with_slash host || starts_with_slash serv).

(** What a run that returns leaves behind. *)
Definition accounted (host serv : option cstring) (r : Z * option (list addrinfo) * Z)
    (C : list Z) : Prop :=
  let '(rc, result, _) := r in
  (C = owned (default [] result) /\ (rc <> 0 -> result = None) /\
   (rc = 0 -> result = None -> local_request host serv = true)) \/
  (rc = EAI_MEMORY /\ result = None /\ local_request host serv = true /\ exists p, C = [p]).

Lemma bad_accounted host serv e ais options :
  e <> 0 -> mspecE (bad e (Some ais) options) (owned ais) (accounted host serv).
Proof.
  intros He. unfold bad. eapply mspecE_bind.
  { eapply mspec_pre; [apply (freeaddrinfo_mem ais [])|by rewrite app_nil_r]. }
  intros ? _. apply (mspecE_of _ _ (fun r => r = (e, None, options)) (fun _ => []));
    [by apply mspec_pure|]. intros r ->. left. by split_and!.
Qed.

Lemma bad_early host serv e options B :
  mspecE (bad e None options) B (accounted host serv).
Proof. by intros s. Qed.

Lemma local_accounted host serv path hints options :
  local_request host serv = true ->
  mspecE (r <~ addrinfo_local path hints ;; mpure (r.1, r.2, options)) [] (accounted host serv).
Proof.
  intros Hl s. pose proof (addrinfo_local_mem path hints s) as H. unfold mthen.
  destruct (addrinfo_local path hints s) as [[[rc res]| | | |] s1]; try done. cbn.
  destruct H as (C & HC & Hb). exists C. split; [|done].
  destruct HC as [[-> H]|[[= -> ->] (p & ->)]]; [left|right; eauto].
  split_and!; [done| |done]. cbn in H. intros Hrc. destruct res; [|done].
  by destruct Hrc; apply H.
Qed.

Lemma internet_accounted host serv host' serv' family hints options :
  mspecE (match host' with
          | None => undefined
          | Some host =>
              r <~ getaddrinfo_host host family options ;;
              let '(h, options) := r in
              match h with
              | inl rc => bad rc None options
              | inr hptr =>
                  if negb (family =? AF_UNSPEC) && negb (family =? h_addrtype hptr)
                  then bad EAI_ADDRFAMILY None options else
                  r <~ build_list hptr serv' hints ;;
                  if negb (r.1 =? 0) then bad r.1 (Some r.2) options
                  else mpure (0, Some r.2, options)
              end
          end) [] (accounted host serv).
Proof.
  destruct host' as [name|]; [|by intros s].
  eapply mspecE_bind; [apply getaddrinfo_host_mem|]. intros [[e|hptr] o] _; [apply bad_early|].
  destruct (_ && _); [apply bad_early|].
  eapply mspecE_bind; [apply build_list_mem|]. intros [rc ais] _. cbn [fst snd].
  destruct (Z.eqb_spec rc 0) as [->|Hrc]; cbn [negb]; [|by apply bad_accounted].
  apply (mspecE_of _ _ (fun r => r = (0, Some ais, o)) (fun _ => owned ais));
    [by apply mspec_pure|]. intros r ->. left. by split_and!.
Qed.

(** [libfree/]'s [getaddrinfo] accounts for its memory.  Whichever allocations fail, a
    call that returns leaves allocated exactly what the list it stored owns, and stores none
    when it reports an error; a call that reports success without a list, or that loses a
    structure (one, with [EAI_MEMORY]), is a request for the Unix domain. *)
Lemma free_getaddrinfo_memory host serv hintsp options s rc result options' s' :
  free_getaddrinfo host serv hintsp options s = (Val (rc, result, options'), s') ->
  exists evs left, trace s' = evs ++ trace s /\
    allocated evs ≡ₚ freed evs ++ left /\
    ((left = owned (default [] result) /\ (rc <> 0 -> result = None) /\
      (rc = 0 -> result = None -> local_request host serv = true)) \/
     (rc = EAI_MEMORY /\ result = None /\ local_request host serv = true /\
      exists p, left = [p])).
Proof.
  assert (HE : mspecE (free_getaddrinfo host serv hintsp options) [] (accounted host serv)).
  { unfold free_getaddrinfo. destruct (negb _); [apply bad_early|].
    eapply mspecE_bind; [apply choose_host_mem|].
    intros [e|[host' family]] Hh; [apply bad_early|].
    set (path := if starts_with_slash host' then host' else _).
    assert (Hpath : UNIXdomain = true -> path <> None -> local_request host serv = true).
    { intros Hu Hne. unfold local_request. rewrite Hu. unfold path in Hne.
      destruct (starts_with_slash host'); [by rewrite Hh|].
      destruct (starts_with_slash serv); [by rewrite orb_true_r|done]. }
    destruct path as [path|], UNIXdomain; try by apply internet_accounted.
    by apply local_accounted, Hpath. }
  intros E. specialize (HE s). rewrite E in HE.
  destruct HE as (C & HC & evs & Ht & Hp). exists evs, C. rewrite app_nil_r in Hp. by split_and!.
Qed.
End Memory.

(** * getnameinfo *)

Section Nameinfo.
Context {os : OS} {GC : GaiConfig} {DB : Netdb}.

(** For names that fit, the two versions of [getnameinfo] give the same texts. *)
Lemma nameinfo_same family aptr port host serv hn sn s :
  gethostbyaddr aptr family = Some hn -> getservbyport port None = Some sn ->
  nul_free hn -> nul_free sn -> (length hn < length host)%nat -> (length sn < length serv)%nat ->
  exists h v h' v',
    do_ipv46 host (Z.of_nat (length host)) serv (Z.of_nat (length serv)) aptr family port s
      = (Val (0, h, v), s) /\
    gn_ipv46 host (Z.of_nat (length host)) serv (Z.of_nat (length serv)) aptr family port 0 s
      = (Val (0, h', v'), s) /\
    cstring_at h 0 = hn /\ cstring_at h' 0 = hn /\ cstring_at v 0 = sn /\ cstring_at v' 0 = sn.
Proof.
  intros Hh Hs Hn1 Hn2 Hl1 Hl2. unfold do_ipv46, gn_ipv46. rewrite Hh, Hs.
  change (has_flag 0 _) with false. change (has_flag 0 _) with false.
  destruct (Z.gtb_spec (Z.of_nat (length host)) 0); [|lia].
  destruct (Z.gtb_spec (Z.of_nat (length serv)) 0); [|lia].
  destruct (strncpy_into_fits host hn (Z.of_nat (length host)) Hn1) as (h & Eh & Ch); [lia..|].
  destruct (strncpy_into_fits serv sn (Z.of_nat (length serv)) Hn2) as (v & Ev & Cv); [lia..|].
  rewrite Eh, Ev. unfold snprintf, snprintf_text. rewrite !take_ge by lia.
  rewrite !put_text_ok by lia. cbn [checked]. rewrite !then_pure. cbn [Z.eqb negb].
  rewrite Hs. cbn [default from_option id]. rewrite take_ge, put_text_ok by lia.
  cbn [checked]. rewrite then_pure. eexists h, v, _, _. split; [done|]. split; [done|].
  split_and!; [done|by apply (cstring_at_text [])|done|by apply (cstring_at_text [])].
Qed.

(** A name that does not fit is stored without a terminating NUL, and the call reports
    success. *)
Lemma nameinfo_unterminated family aptr port host serv hn s :
  gethostbyaddr aptr family = Some hn -> nul_free hn -> host <> [] ->
  (length host <= length hn)%nat ->
  do_ipv46 host (Z.of_nat (length host)) serv 0 aptr family port s
    = (Val (0, take (length host) hn, serv), s) /\ nul_free (take (length host) hn).
Proof.
  intros Hh Hn Hne Hl. split; [|by apply Forall_take]. unfold do_ipv46. rewrite Hh.
  destruct (Z.gtb_spec (Z.of_nat (length host)) 0); [|destruct host; [done|cbn in *; lia]].
  by rewrite strncpy_into_full.
Qed.
End Nameinfo.

(** * Concrete runs *)

#[local] Instance any_protocol : GaiConfig := {| IPv4 := true; IPv6 := true; UNIXdomain := true |}.
#[local] Existing Instance numeric_strerror.
#[local] Instance default_options : Resolv := RES_INIT.

(** A host with an IPv4 address, which is mapped when IPv6 addresses are asked for. *)
#[local] Instance mapped_db : Netdb := {|
  gethostbyname v6 n :=
    if memcmp n c["nohost"] =? 0 then inr HOST_NOT_FOUND
    else if v6 then inl (HE n AF_INET6 [replicate 10 0 ++ [255; 255; 10; 0; 0; 1]])
    else inl (HE n AF_INET [[10; 0; 0; 1]; [10; 0; 0; 2]]);
  gethostbyname2 _ _ := inr HOST_NOT_FOUND;
  gethostbyaddr _ _ := Some c["host.example"];
  getservbyname s _ := if memcmp s c["daytime"] =? 0 then Some (htons 13) else None;
  getservbyport _ _ := Some c["daytime"];
  uname := None;
|}.

Definition stream4 : hints_t := Hints 0 AF_INET SOCK_STREAM 0.
Definition stream6 : hints_t := Hints 0 AF_INET6 SOCK_STREAM 0.

Lemma stream4_one_family : one_family (Some c["host"]) (Some c["daytime"]) stream4.
Proof. by split; [left|..]. Qed.

Lemma resolvers_agree_witness :
  exists ais s' options', length ais = 2%nat /\
    getaddrinfo (os := bump_os) (Some c["host"]) (Some c["daytime"]) (Some stream4) init
      = (Val (inr ais), s') /\
    free_getaddrinfo (os := bump_os) (Some c["host"]) (Some c["daytime"]) (Some stream4) 0 init
      = (Val (0, Some ais, options'), s').
Proof.
  assert (Hrun : exists ais s', length ais = 2%nat /\
    getaddrinfo (os := bump_os) (Some c["host"]) (Some c["daytime"]) (Some stream4) init
      = (Val (inr ais), s')) by (eexists _, _; split; [|vm_compute; reflexivity]; reflexivity).
  destruct Hrun as (ais & s' & Hl & Hg).
  assert (Hne : ais <> []) by (intros ->; discriminate Hl).
  assert (Ho : has_flag (res_ready 0) RES_USE_INET6 = false) by reflexivity.
  destruct (proj2 (resolvers_agree (os := bump_os) (Some c["host"]) (Some c["daytime"]) stream4 0
              init ais s' stream4_one_family Hne (fun _ => Ho)) Hg) as (o & Hf).
  exists ais, s', o. split; [exact Hl|]. split; [exact Hg|exact Hf].
Defined.

Lemma free_getaddrinfo_memory_witness :
  let run := free_getaddrinfo (os := bump_os) (Some c["host"]) (Some c["daytime"])
               (Some (Hints AI_CANONNAME AF_INET SOCK_STREAM 0)) 0 init in
  exists ais o evs left, run.1 = Val (0, Some ais, o) /\ length ais = 2%nat /\
    trace run.2 = evs ++ [] /\ allocated evs ≡ₚ freed evs ++ left.
Proof.
  intros run. destruct run as [out s'] eqn:E. subst run.
  assert (Ho : exists ais o, out = Val (0, Some ais, o) /\ length ais = 2%nat).
  { apply (f_equal fst) in E. vm_compute in E. subst out. eexists _, _. split; reflexivity. }
  destruct Ho as (ais & o & -> & Hl).
  destruct (free_getaddrinfo_memory (os := bump_os) (Some c["host"]) (Some c["daytime"])
              (Some (Hints AI_CANONNAME AF_INET SOCK_STREAM 0)) 0 init 0 (Some ais) o s' E)
    as (evs & left & Ht & Hp & _).
  exists ais, o, evs, left. split; [reflexivity|]. split; [exact Hl|]. split; [exact Ht|exact Hp].
Defined.

(** * What modelling showed *)

(** Every error before the list is started frees through [aihead], which has no value yet:
    for flags, families and socket types that are refused, ... *)
Lemma refused_hints_undefined `{OS} host serv hints options s :
  check_hints hints <> 0 ->
  free_getaddrinfo host serv (Some hints) options s = (Undefined, s).
Proof.
  intros He. unfold free_getaddrinfo. cbn [default from_option id].
  by rewrite (proj2 (Z.eqb_neq _ _) He).
Qed.

(** ... and for a host that does not exist. *)
Lemma unknown_host_undefined :
  free_getaddrinfo (os := bump_os) (Some c["nohost"]) None (Some stream4) 0 init = (Undefined, init).
Proof. vm_compute. reflexivity. Qed.

(** A request for IPv6 leaves [RES_USE_INET6] set: the request for IPv4 that worked before
    then gets a mapped address of the wrong family. *)
Lemma inet6_option_stays :
  exists ais6, (free_getaddrinfo (os := bump_os) (Some c["host"]) None (Some stream6) 0 init).1
      = Val (0, Some ais6, Z.lor RES_INIT RES_USE_INET6) /\
    (exists ais4 o, (free_getaddrinfo (os := bump_os) (Some c["host"]) None (Some stream4) 0 init).1
       = Val (0, Some ais4, o)) /\
    (free_getaddrinfo (os := bump_os) (Some c["host"]) None (Some stream4)
       (Z.lor RES_INIT RES_USE_INET6) init).1 = Undefined.
Proof.
  eexists. split; [vm_compute; reflexivity|].
  split; [eexists _, _; vm_compute; reflexivity|vm_compute; reflexivity].
Qed.

(** [addrinfo_local] reports success when [calloc] fails, ... *)
Lemma local_no_memory :
  (free_getaddrinfo (os := fun _ _ => ok 0) (Some c["/tmp/s"]) None
     (Some (Hints 0 AF_LOCAL SOCK_STREAM 0)) 0 init).1 = Val (0, None, 0).
Proof. vm_compute. reflexivity. Qed.

(** ... loses the structure when [malloc] fails, ... *)
Definition one_block_os : OS := fun h c => match h with [] => ok 1000 | _ => ok 0 end.

Lemma local_leak :
  let run := free_getaddrinfo (os := one_block_os) (Some c["/tmp/s"]) None
               (Some (Hints 0 AF_LOCAL SOCK_STREAM 0)) 0 init in
  run.1 = Val (EAI_MEMORY, None, 0) /\ allocated (trace run.2) = [1000] /\
  freed (trace run.2) = [].
Proof. vm_compute. repeat split; reflexivity. Qed.

(** ... and fills [sun_path] without a NUL when the path has 108 characters or more. *)
Lemma local_path_unterminated `{OS} path hints s rc ais s' :
  sizeof_sun_path <= Z.of_nat (length path) ->
  addrinfo_local path hints s = (Val (rc, Some ais), s') ->
  exists p q, ais = [AI p 0 AF_LOCAL (h_socktype hints) 0 sizeof_sockaddr_un None
                       (Some (q, SockUn (take 108 path)))] /\
    length (take 108 path) = Z.to_nat sizeof_sun_path.
Proof.
  intros Hl. unfold addrinfo_local, calloc, malloc, mthen, sys, mpure.
  destruct (_ =? 0); [done|]. destruct (rv _ =? 0); [done|]. destruct (rv _ =? 0); [done|].
  intros E. eexists _, _. split; [by destruct (has_flag _ _); injection E as <- <- <-|].
  rewrite length_take. change (Z.to_nat sizeof_sun_path) with 108%nat. unfold sizeof_sun_path in Hl.
  lia.
Qed.
