(* ===== verification/Connect.v ===== *)
(** Protocol-independent connection set-up: [lib/tcp_connect.c], [lib/tcp_listen.c],
    [lib/udp_client.c], [lib/udp_connect.c], [lib/udp_server.c], [lib/host_serv.c],
    [lib/connect_nonb.c], [lib/connect_timeo.c], and [lib/daemon_init.c],
    [lib/daemon_inetd.c], [lib/my_addrs.c].

    The functions use [getaddrinfo] only through its interface, the class [Resolver]; the
    implementation of [libgai] is shown to satisfy it in [ConnectClaims.v].  A null [ai_addr]
    is passed on to the kernel as an address of no family, a null string as the text that
    [printf] prints for it. *)

From S2P Require Import Prelude CText Sys Error Wrappers SockUtil Gai.

(** What the library calls of a resolver. *)
Class Resolver : Type := {
  resolve : option cstring -> option cstring -> option hints_t -> M (Z + list addrinfo);
  release : list addrinfo -> M unit;
}.

Definition SO_REUSEADDR : Z := 2.
Definition SO_ERROR : Z := 4.
Definition F_GETFL : Z := 3.
Definition F_SETFL : Z := 4.
Definition O_RDONLY : Z := 0.
Definition O_NONBLOCK : Z := 2048.
Definition SIGHUP : Z := 1.
Definition SIG_IGN : Z := 1.
Definition LOG_PID : Z := 1.
Definition MAXFD : nat := 64.

Definition text_of (s : option cstring) : arg := AStr (default c["(null)"] s).
Definition addr_of (ai : addrinfo) : sockaddr := default (SockOther 0) (snd <$> ai_addr ai).

Section Connect.
Context {os : OS} {SE : Strerror} {RS : Resolver}.

(** ** The loops over the addresses

    The descriptor and the structures from the one the loop stopped at on; the list is empty
    when the loop ran past the end. *)

(** [do { socket; connect; Close } while ((res = res->ai_next) != NULL)] *)
Fixpoint connect_loop (res : list addrinfo) : M (Z * list addrinfo) :=
  match res with
  | [] => undefined
  | ai :: next =>
      let continue sockfd := match next with [] => mpure (sockfd, []) | _ => connect_loop next end in
      r <~ sys (sys_socket (ai_family ai) (ai_socktype ai) (ai_protocol ai)) ;;
      let sockfd := rv r in
      if sockfd <? 0 then continue sockfd                        (* ignore this one *)
      else
        r <~ sys (sys_connect sockfd (addr_of ai)) ;;
        if rv r =? 0 then mpure (sockfd, res)                    (* success *)
        else Close sockfd ;;; continue sockfd                    (* ignore this one *)
  end.

Definition tcp_connect (host serv : option cstring) : M Z :=
  n <~ resolve host serv (Some (Hints 0 AF_UNSPEC SOCK_STREAM 0)) ;;
  match n with
  | inl n => err_quit c["tcp_connect error for %s, %s: %s"]
               [text_of host; text_of serv; AStr (gai_strerror n)]
  | inr ressave =>
      r <~ connect_loop ressave ;;
      match r.2 with
      | [] => err_sys c["tcp_connect error for %s, %s"] [text_of host; text_of serv]
      | _ => release ressave ;;; mpure r.1
      end
  end.

Definition Tcp_connect (host serv : option cstring) : M Z := tcp_connect host serv.

(** ** tcp_listen.c *)

Fixpoint listen_loop (res : list addrinfo) : M (Z * list addrinfo) :=
  match res with
  | [] => undefined
  | ai :: next =>
      let continue listenfd :=
        match next with [] => mpure (listenfd, []) | _ => listen_loop next end in
      r <~ sys (sys_socket (ai_family ai) (ai_socktype ai) (ai_protocol ai)) ;;
      let listenfd := rv r in
      if listenfd <? 0 then continue listenfd                    (* error, try next one *)
      else
        Setsockopt listenfd SOL_SOCKET SO_REUSEADDR (OInt 1) ;;;
        r <~ sys (sys_bind listenfd (addr_of ai)) ;;
        if rv r =? 0 then mpure (listenfd, res)                  (* success *)
        else Close listenfd ;;; continue listenfd                (* bind error *)
  end.

(** The listening descriptor and the size of the protocol address. *)
Definition tcp_listen (host serv : option cstring) : M (Z * Z) :=
  n <~ resolve host serv (Some (Hints AI_PASSIVE AF_UNSPEC SOCK_STREAM 0)) ;;
  match n with
  | inl n => err_quit c["tcp_listen error for %s, %s: %s"]
               [text_of host; text_of serv; AStr (gai_strerror n)]
  | inr ressave =>
      r <~ listen_loop ressave ;;
      match r.2 with
      | [] => err_sys c["tcp_listen error for %s, %s"] [text_of host; text_of serv]
      | ai :: _ =>
          Listen r.1 LISTENQ ;;;
          release ressave ;;; mpure (r.1, ai_addrlen ai)
      end
  end.

Definition Tcp_listen (host serv : option cstring) : M (Z * Z) := tcp_listen host serv.

(** ** udp_client.c *)

Fixpoint socket_loop (res : list addrinfo) : M (Z * list addrinfo) :=
  match res with
  | [] => undefined
  | ai :: next =>
      r <~ sys (sys_socket (ai_family ai) (ai_socktype ai) (ai_protocol ai)) ;;
      if rv r >=? 0 then mpure (rv r, res)                       (* success *)
      else match next with [] => mpure (rv r, []) | _ => socket_loop next end
  end.

(** The descriptor, the copy of the address at [*saptr] and its length. *)
Definition udp_client (host serv : option cstring) : M (Z * (Z * sockaddr) * Z) :=
  n <~ resolve host serv (Some (Hints 0 AF_UNSPEC SOCK_DGRAM 0)) ;;
  match n with
  | inl n => err_quit c["udp_client error for %s, %s: %s"]
               [text_of host; text_of serv; AStr (gai_strerror n)]
  | inr ressave =>
      r <~ socket_loop ressave ;;
      match r.2 with
      | [] => err_sys c["udp_client error for %s, %s"] [text_of host; text_of serv]
      | ai :: _ =>
          p <~ Malloc (ai_addrlen ai) ;;
          release ressave ;;; mpure (r.1, (p, addr_of ai), ai_addrlen ai)
      end
  end.

Definition Udp_client (host serv : option cstring) : M (Z * (Z * sockaddr) * Z) :=
  udp_client host serv.

(** ** udp_connect.c *)

Definition udp_connect (host serv : option cstring) : M Z :=
  n <~ resolve host serv (Some (Hints 0 AF_UNSPEC SOCK_DGRAM 0)) ;;
  match n with
  | inl n => err_quit c["udp_connect error for %s, %s: %s"]
               [text_of host; text_of serv; AStr (gai_strerror n)]
  | inr ressave =>
      r <~ connect_loop ressave ;;
      match r.2 with
      | [] => err_sys c["udp_connect error for %s, %s"] [text_of host; text_of serv]
      | _ => release ressave ;;; mpure r.1
      end
  end.

Definition Udp_connect (host serv : option cstring) : M Z :=
  n <~ udp_connect host serv ;;
  if n <? 0 then err_quit c["udp_connect error for %s, %s: %s"]
                   [text_of host; text_of serv; AStr (gai_strerror (- n))]
  else mpure n.

(** ** udp_server.c *)

Fixpoint bind_loop (res : list addrinfo) : M (Z * list addrinfo) :=
  match res with
  | [] => undefined
  | ai :: next =>
      let continue sockfd := match next with [] => mpure (sockfd, []) | _ => bind_loop next end in
      r <~ sys (sys_socket (ai_family ai) (ai_socktype ai) (ai_protocol ai)) ;;
      let sockfd := rv r in
      if sockfd <? 0 then continue sockfd                        (* error - try next one *)
      else
        r <~ sys (sys_bind sockfd (addr_of ai)) ;;
        if rv r =? 0 then mpure (sockfd, res)                    (* success *)
        else Close sockfd ;;; continue sockfd                    (* bind error *)
  end.

Definition udp_server (host serv : option cstring) : M (Z * Z) :=
  n <~ resolve host serv (Some (Hints AI_PASSIVE AF_UNSPEC SOCK_DGRAM 0)) ;;
  match n with
  | inl n => err_quit c["udp_server error for %s, %s: %s"]
               [text_of host; text_of serv; AStr (gai_strerror n)]
  | inr ressave =>
      r <~ bind_loop ressave ;;
      match r.2 with
      | [] => err_sys c["udp_server error for %s, %s"] [text_of host; text_of serv]
      | ai :: _ => release ressave ;;; mpure (r.1, ai_addrlen ai)
      end
  end.

Definition Udp_server (host serv : option cstring) : M (Z * Z) := udp_server host serv.

(** ** host_serv.c *)

Definition host_serv (host serv : option cstring) (family socktype : Z)
    : M (option (list addrinfo)) :=
  n <~ resolve host serv (Some (Hints AI_CANONNAME family socktype 0)) ;;
  match n with inl _ => mpure None | inr res => mpure (Some res) end.

Definition Host_serv (host serv : option cstring) (family socktype : Z) : M (list addrinfo) :=
  n <~ resolve host serv (Some (Hints AI_CANONNAME family socktype 0)) ;;
  match n with
  | inl n => err_quit c["host_serv error for %s, %s: %s"]
               [AStr (default c["(no hostname)"] host); AStr (default c["(no service name)"] serv);
                AStr (gai_strerror n)]
  | inr res => mpure res
  end.

(** ** connect_nonb.c *)

Definition connect_nonb (sockfd : Z) (sa : sockaddr) (nsec : Z) : M Z :=
  flags <~ Fcntl sockfd F_GETFL 0 ;;
  Fcntl sockfd F_SETFL (Z.lor flags O_NONBLOCK) ;;;
  let finish error :=
    Fcntl sockfd F_SETFL flags ;;;                       (* restore file status flags *)
    if negb (error =? 0) then
      sys (sys_close sockfd) ;;;                         (* just in case *)
      set_errno error ;;; mpure (-1)
    else mpure 0 in
  r <~ sys (sys_connect sockfd sa) ;;
  e <~ get_errno ;;
  if (rv r <? 0) && negb (e =? EINPROGRESS) then mpure (-1)
  else if rv r =? 0 then finish 0                        (* connect completed immediately *)
  else
    n <~ Select (sockfd + 1) [sockfd] [sockfd] []
           (if negb (nsec =? 0) then Some (nsec, 0) else None) ;;
    if rv n =? 0 then
      sys (sys_close sockfd) ;;;                         (* timeout *)
      set_errno ETIMEDOUT ;;; mpure (-1)
    else if decide (sockfd ∈ rset_of n \/ sockfd ∈ wset_of n) then
      g <~ sys (sys_getsockopt sockfd SOL_SOCKET SO_ERROR 4) ;;
      if rv g <? 0 then mpure (-1)                       (* Solaris pending error *)
      else finish (hd 0 (rints g))
    else err_quit c["select error: sockfd not set"] [].

(** ** connect_timeo.c

    [connect_alarm] does nothing; its address is the argument of that name. *)
Definition connect_timeo (connect_alarm : Z) (sockfd : Z) (sa : sockaddr) (nsec : Z) : M Z :=
  sigfunc <~ Signal SIGALRM connect_alarm ;;
  a <~ sys (sys_alarm nsec) ;;
  (if negb (rv a =? 0) then err_msg c["connect_timeo: alarm was already set"] []
   else mpure tt) ;;;
  r <~ sys (sys_connect sockfd sa) ;;
  (if rv r <? 0 then
     sys (sys_close sockfd) ;;;
     e <~ get_errno ;;
     if e =? EINTR then set_errno ETIMEDOUT else mpure tt
   else mpure tt) ;;;
  sys (sys_alarm 0) ;;;                                  (* turn off the alarm *)
  Signal SIGALRM sigfunc ;;;                             (* restore previous signal handler *)
  mpure (rv r).

Definition Connect_timeo (connect_alarm : Z) (fd : Z) (sa : sockaddr) (sec : Z) : M unit :=
  n <~ connect_timeo connect_alarm fd sa sec ;;
  if n <? 0 then err_sys c["connect_timeo error"] [] else mpure tt.

(** ** daemon_init.c, daemon_inetd.c *)

(** [for (i = 0; i < MAXFD; i++) close(i);] *)
Fixpoint close_all (fds : list nat) : M unit :=
  match fds with
  | [] => mpure tt
  | i :: fds' => sys (sys_close (Z.of_nat i)) ;;; close_all fds'
  end.

Definition daemon_init (pname : cstring) (facility : Z) : M Z :=
  pid <~ Fork ;;
  if pid <? 0 then mpure (-1)
  else if negb (pid =? 0) then exit_ 0                   (* parent terminates *)
  else
    r <~ sys sys_setsid ;;                               (* become session leader *)
    if rv r <? 0 then mpure (-1) else
    Signal SIGHUP SIG_IGN ;;;
    pid <~ Fork ;;
    if pid <? 0 then mpure (-1)
    else if negb (pid =? 0) then exit_ 0                 (* child 1 terminates *)
    else
      set_daemon_proc 1 ;;;                              (* for err_XXX() functions *)
      sys (sys_chdir c["/"]) ;;;                         (* change working directory *)
      close_all (seq 0 MAXFD) ;;;
      sys (sys_open c["/dev/null"] O_RDONLY 0) ;;;
      sys (sys_open c["/dev/null"] O_RDWR 0) ;;;
      sys (sys_open c["/dev/null"] O_RDWR 0) ;;;
      sys (sys_openlog pname LOG_PID facility) ;;;
      mpure 0.

Definition daemon_inetd (pname : cstring) (facility : Z) : M unit :=
  set_daemon_proc 1 ;;;
  sys (sys_openlog pname LOG_PID facility) ;;; mpure tt.

(** ** my_addrs.c *)

Definition my_addrs {DB : Netdb} : M (option (Z * list (list Z))) :=
  match uname with
  | None => mpure None
  | Some nodename =>
      match gethostbyname false nodename with
      | inr _ => mpure None
      | inl hptr => mpure (Some (h_addrtype hptr, h_addr_list hptr))
      end
  end.

Definition My_addrs {DB : Netdb} : M (Z * list (list Z)) :=
  p <~ my_addrs ;;
  match p with
  | None => err_sys c["my_addrs error"] []
  | Some a => mpure a
  end.

End Connect.
