(* ===== verification/ConnectClaims.v ===== *)
(** Connection set-up never leaks a descriptor.

    The laws that the functions of [Connect.v] rely on are the class [ResolverLaws]; the
    theorems are proved against it, and the instance [gai_resolver_laws] shows that the [getaddrinfo]
    of [libgai] satisfies it. *)

From S2P Require Import Prelude CText Sys Traces Error Ownership Wrappers SockUtil Gai GaiFacts.
From S2P Require Import GaiClaims Connect.

(** Descriptors: [socket] hands one out, [close] gives it back. *)
Definition fd_gain (e : event) : list Z :=
  match e.1 with
  | sys_socket _ _ _ => if rv e.2 <? 0 then [] else [rv e.2]
  | _ => []
  end.
Definition fd_lose (e : event) : list Z :=
  match e.1 with sys_close fd => [fd] | _ => [] end.
Definition descriptors : resource := Res fd_gain fd_lose.

Local Abbreviation fspec := (Ownership.mspec descriptors).

(** The contract of a resolver: it does not touch descriptors, and a list it returns is not
    empty. *)
Class ResolverLaws `{Resolver} : Prop := {
  resolve_quiet : forall host serv hints, quiet descriptors (resolve host serv hints);
  resolve_nonempty : forall host serv hints s ais s',
    resolve host serv hints s = (Val (inr ais), s') -> ais <> [];
  release_quiet : forall ais, quiet descriptors (release ais);
}.

Section Wrapped.
Context {os : OS} {SE : Strerror}.

Lemma quiet_syslog level fmt : quiet descriptors (syslog level fmt).
Proof. unfold syslog. solve_quiet. Qed.
#[local] Hint Resolve quiet_syslog : quiet.

Lemma quiet_err_doit f level fmt ap : quiet descriptors (err_doit f level fmt ap).
Proof. unfold err_doit, err_doit_with. solve_quiet. Qed.
#[local] Hint Resolve quiet_err_doit : quiet.

Lemma quiet_err_sys {A} fmt ap : quiet descriptors (err_sys (A := A) fmt ap).
Proof. unfold err_sys. solve_quiet. Qed.
Lemma quiet_err_quit {A} fmt ap : quiet descriptors (err_quit (A := A) fmt ap).
Proof. unfold err_quit. solve_quiet. Qed.

(** [Close] gives the descriptor back when it returns. *)
Lemma Close_spec fd B B' : B ≡ₚ fd :: B' -> fspec (Close fd) B (fun _ => True) (fun _ => B').
Proof.
  intros HB. unfold Close, call.
  apply (mspec_bind _ _ _ (fun _ => True) (fun _ => B')); [|intros ? _; by apply mspec_pure].
  apply (mspec_bind _ _ _ (fun _ => True) (fun _ => B')).
  - by apply mspec_sys.
  - intros r _. destruct (minus1 _); [apply mspec_err_sys|by apply mspec_pure].
Qed.
End Wrapped.
#[export] Hint Resolve quiet_err_sys quiet_err_quit : quiet.

Section Loops.
Context {os : OS} {SE : Strerror}.

(** The descriptor the loop ends with is the only one it keeps, if it stopped at an entry. *)
Definition kept (r : Z * list addrinfo) : list Z := match r.2 with [] => [] | _ => [r.1] end.
Definition stopped (res : list addrinfo) (r : Z * list addrinfo) : Prop :=
  r.2 `suffix_of` res /\ (r.2 <> [] -> 0 <= r.1).

Lemma stopped_next ai next r : stopped next r -> stopped (ai :: next) r.
Proof. intros [Hs Hp]. split; [|done]. by apply suffix_cons_r. Qed.

Lemma socket_spec f t p :
  fspec (sys (sys_socket f t p)) [] (fun _ => True) (fun r => if rv r <? 0 then [] else [rv r]).
Proof. apply mspec_sys. intros r. cbn. by destruct (rv r <? 0). Qed.

(** The rest of the list is tried after a failure. *)
Lemma continue_spec (loop : list addrinfo -> M (Z * list addrinfo)) ai next fd :
  (next <> [] -> fspec (loop next) [] (stopped next) kept) ->
  fspec (match next with [] => mpure (fd, []) | _ => loop next end) [] (stopped (ai :: next)) kept.
Proof.
  intros IH. destruct next as [|ai' next].
  - apply mspec_pure; [|done]. split; [apply suffix_nil|done].
  - eapply mspec_conseq; [by apply IH|done|intros; by apply stopped_next|done].
Qed.

Lemma connect_loop_fds res : fspec (connect_loop res) [] (stopped res) kept.
Proof.
  induction res as [|ai next IH]; cbn [connect_loop]; [apply mspec_undefined|].
  eapply mspec_bind; [apply socket_spec|]. intros r _. cbv beta zeta.
  destruct (Z.ltb_spec (rv r) 0); [by apply continue_spec|].
  eapply (mspec_bind _ _ _ (fun _ => True) (fun _ => [rv r])); [by apply mspec_sys|].
  intros r2 _. destruct (rv r2 =? 0).
  - apply mspec_pure; [|done]. split; [done|]. intros _. cbn. lia.
  - eapply mspec_bind; [by apply (Close_spec (rv r) [rv r] [])|]. intros ? _. by apply continue_spec.
Qed.

Lemma bind_loop_fds res : fspec (bind_loop res) [] (stopped res) kept.
Proof.
  induction res as [|ai next IH]; cbn [bind_loop]; [apply mspec_undefined|].
  eapply mspec_bind; [apply socket_spec|]. intros r _. cbv beta zeta.
  destruct (Z.ltb_spec (rv r) 0); [by apply continue_spec|].
  eapply (mspec_bind _ _ _ (fun _ => True) (fun _ => [rv r])); [by apply mspec_sys|].
  intros r2 _. destruct (rv r2 =? 0).
  - apply mspec_pure; [|done]. split; [done|]. intros _. cbn. lia.
  - eapply mspec_bind; [by apply (Close_spec (rv r) [rv r] [])|]. intros ? _. by apply continue_spec.
Qed.

Lemma Setsockopt_quiet fd l o v : quiet descriptors (Setsockopt fd l o v).
Proof. unfold Setsockopt, call. solve_quiet. Qed.

Lemma Listen_quiet fd n : quiet descriptors (Listen fd n).
Proof. unfold Listen, call. solve_quiet. Qed.

Lemma listen_loop_fds res : fspec (listen_loop res) [] (stopped res) kept.
Proof.
  induction res as [|ai next IH]; cbn [listen_loop]; [apply mspec_undefined|].
  eapply mspec_bind; [apply socket_spec|]. intros r _. cbv beta zeta.
  destruct (Z.ltb_spec (rv r) 0); [by apply continue_spec|].
  eapply mspec_bind; [apply mspec_quiet, Setsockopt_quiet|]. intros ? _. cbv beta.
  eapply (mspec_bind _ _ _ (fun _ => True) (fun _ => [rv r])); [by apply mspec_sys|].
  intros r2 _. destruct (rv r2 =? 0).
  - apply mspec_pure; [|done]. split; [done|]. intros _. cbn. lia.
  - eapply mspec_bind; [by apply (Close_spec (rv r) [rv r] [])|]. intros ? _. by apply continue_spec.
Qed.

Lemma socket_loop_fds res : fspec (socket_loop res) [] (stopped res) kept.
Proof.
  induction res as [|ai next IH]; cbn [socket_loop]; [apply mspec_undefined|].
  eapply mspec_bind; [apply socket_spec|]. intros r _. cbv beta zeta.
  destruct (Z.geb_spec (rv r) 0).
  - destruct (Z.ltb_spec (rv r) 0); [lia|]. apply mspec_pure; [|done].
    split; [done|]. intros _. cbn. lia.
  - destruct (Z.ltb_spec (rv r) 0); [|lia]. by apply continue_spec.
Qed.

(** The events of one run of [connect_loop] that stopped at an entry end with the successful
    [connect] of the descriptor to the address of this entry. *)
Lemma connect_loop_last res s fd ai rest s' :
  connect_loop res s = (Val (fd, ai :: rest), s') ->
  exists r h, trace s' = (sys_connect fd (addr_of ai), r) :: h /\ rv r = 0.
Proof.
  revert s. induction res as [|ai0 next IH]; intros s; cbn [connect_loop]; [done|].
  rewrite then_sys. cbv zeta.
  assert (Hcont : forall fd0 s0, (match next with [] => mpure (fd0, []) | _ => connect_loop next end) s0
     = (Val (fd, ai :: rest), s') ->
     exists r h, trace s' = (sys_connect fd (addr_of ai), r) :: h /\ rv r = 0).
  { intros fd0 s0. destruct next; [done|]. apply IH. }
  destruct (_ <? 0); [apply Hcont|]. rewrite then_sys. destruct (Z.eqb_spec (rv (answer
    (sys_connect (rv (answer (sys_socket (ai_family ai0) (ai_socktype ai0) (ai_protocol ai0)) s))
       (addr_of ai0)) (after (sys_socket (ai_family ai0) (ai_socktype ai0) (ai_protocol ai0))
        (answer (sys_socket (ai_family ai0) (ai_socktype ai0) (ai_protocol ai0)) s) s))) 0).
  - intros [= <- <- <- <-]. by eexists _, _.
  - unfold mthen at 1. destruct (Close _ _) as [[[]| | | |] s1]; try done. apply Hcont.
Qed.
End Loops.

(** * [libgai] is a resolver *)

Section GaiResolver.
Context {os : OS} {SE : Strerror} {GC : GaiConfig} {DB : Netdb}.

#[export] Instance gai_resolver : Resolver :=
  {| resolve := getaddrinfo; release := freeaddrinfo |}.

Lemma quiet_free p : quiet descriptors (free p).
Proof. unfold free. solve_quiet. Qed.
Lemma quiet_calloc n : quiet descriptors (calloc n).
Proof. unfold calloc. solve_quiet. Qed.
Lemma quiet_malloc n : quiet descriptors (malloc n).
Proof. unfold malloc. solve_quiet. Qed.
Lemma quiet_strdup t : quiet descriptors (strdup t).
Proof. unfold strdup. solve_quiet. Qed.
#[local] Hint Resolve quiet_free quiet_calloc quiet_malloc quiet_strdup : quiet.

Lemma quiet_freeaddrinfo ais : quiet descriptors (freeaddrinfo ais).
Proof. induction ais as [|ai ais IH]; cbn [freeaddrinfo]; solve_quiet. Qed.

Lemma quiet_ga_aistruct ais h a f : quiet descriptors (ga_aistruct ais h a f).
Proof. unfold ga_aistruct. solve_quiet. Qed.
#[local] Hint Resolve quiet_freeaddrinfo quiet_ga_aistruct : quiet.

Lemma quiet_ga_addresses ais h aps f : quiet descriptors (ga_addresses ais h aps f).
Proof. revert ais. induction aps; intros; cbn [ga_addresses]; solve_quiet. Qed.
Lemma quiet_fill_port ai p : quiet descriptors (fill_port ai p).
Proof. unfold fill_port. solve_quiet. Qed.
Lemma quiet_ga_clone ai : quiet descriptors (ga_clone ai).
Proof. unfold ga_clone. solve_quiet. Qed.
#[local] Hint Resolve quiet_ga_addresses quiet_fill_port quiet_ga_clone : quiet.

Lemma quiet_ga_port ais p t : quiet descriptors (ga_port ais p t).
Proof. induction ais as [|ai ais IH]; cbn [ga_port]; solve_quiet. Qed.
#[local] Hint Resolve quiet_ga_port : quiet.

Lemma quiet_serv_port n ais p t : quiet descriptors (serv_port n ais p t).
Proof. unfold serv_port. solve_quiet. Qed.
#[local] Hint Resolve quiet_serv_port : quiet.
Lemma quiet_serv_name w n ais sv pr t : quiet descriptors (serv_name w n ais sv pr t).
Proof. unfold serv_name. solve_quiet. Qed.
#[local] Hint Resolve quiet_serv_name : quiet.
Lemma quiet_ga_serv ais h sv : quiet descriptors (ga_serv ais h sv).
Proof. unfold ga_serv. solve_quiet. Qed.
Lemma quiet_ga_unix p h : quiet descriptors (ga_unix p h).
Proof. unfold ga_unix. solve_quiet. Qed.
Lemma quiet_ga_nsearch hn h : quiet descriptors (ga_nsearch hn h).
Proof. unfold ga_nsearch. solve_quiet. Qed.
Lemma quiet_numeric_host f h : quiet descriptors (numeric_host f h).
Proof. unfold numeric_host. solve_quiet. Qed.
Lemma quiet_ga_numeric f sf h a ais : quiet descriptors (ga_numeric f sf h a ais).
Proof. unfold ga_numeric. solve_quiet. Qed.
Lemma quiet_ga_lookup hn h n host f v : quiet descriptors (ga_lookup hn h n host f v).
Proof. unfold ga_lookup. solve_quiet. Qed.
#[local] Hint Resolve quiet_ga_serv quiet_ga_unix quiet_ga_nsearch quiet_numeric_host quiet_ga_numeric
  quiet_ga_lookup : quiet.
Lemma quiet_ga_search_one hn h n sp v : quiet descriptors (ga_search_one hn h n sp v).
Proof. unfold ga_search_one. solve_quiet. Qed.
#[local] Hint Resolve quiet_ga_search_one : quiet.
Lemma quiet_ga_search hn h n sps v : quiet descriptors (ga_search hn h n sps v).
Proof. revert v. induction sps; intros; cbn [ga_search]; solve_quiet. Qed.
Lemma quiet_ga_finish hn sv h sr v : quiet descriptors (ga_finish hn sv h sr v).
Proof. unfold ga_finish. solve_quiet. Qed.
#[local] Hint Resolve quiet_ga_search quiet_ga_finish : quiet.
Lemma quiet_getaddrinfo hn sv h : quiet descriptors (getaddrinfo hn sv h).
Proof. unfold getaddrinfo. solve_quiet. Qed.

(** ** A returned list is not empty *)

(** Postconditions alone: no resource is tracked. *)
Definition nothing : resource := Res (fun _ => []) (fun _ => []).
Definition returns {A} (m : M A) (Q : A -> Prop) : Prop :=
  Ownership.mspec nothing m [] Q (fun _ => []).

Lemma returns_bind {A D} (m : M A) (k : A -> M D) Q1 Q :
  returns m Q1 -> (forall a, Q1 a -> returns (k a) Q) -> returns (mthen m k) Q.
Proof. intros Hm Hk. by eapply mspec_bind. Qed.
Lemma returns_pure {A} (a : A) (Q : A -> Prop) : Q a -> returns (mpure a) Q.
Proof. intros. by apply mspec_pure. Qed.
Lemma returns_any {A} (m : M A) : quiet nothing m -> returns m (fun _ => True).
Proof. apply mspec_quiet. Qed.
Lemma quiet_nothing {A} (m : M A) : quiet descriptors m -> quiet nothing m.
Proof.
  intros Hq s. specialize (Hq s). destruct (m s). destruct Hq as (evs & ? & ?). exists evs.
  split; [done|]. apply Forall_forall. by split.
Qed.
Lemma returns_quiet {A} (m : M A) : quiet descriptors m -> returns m (fun _ => True).
Proof. intros. by apply returns_any, quiet_nothing. Qed.

Definition found (r : Z * list addrinfo) : Prop := r.1 = 0 -> r.2 <> [].

Lemma ga_aistruct_found ais h a f : returns (ga_aistruct ais h a f) found.
Proof.
  assert (Happ : forall rc (x : addrinfo), returns (mpure (rc, ais ++ [x])) found).
  { intros. apply returns_pure. intros _. cbn. by destruct ais. }
  unfold ga_aistruct. eapply returns_bind; [apply returns_quiet; auto with quiet|]. intros p _.
  destruct (p =? 0); [by apply returns_pure|]. cbv zeta.
  destruct (_ && IPv4); [|destruct (_ && IPv6); [|destruct (_ && UNIXdomain); [|apply Happ]]].
  - eapply returns_bind; [apply returns_quiet; auto with quiet|]. intros q _.
    destruct (q =? 0); [apply Happ|]. destruct (_ <? _)%nat; [apply mspec_undefined|apply Happ].
  - eapply returns_bind; [apply returns_quiet; auto with quiet|]. intros q _.
    destruct (q =? 0); [apply Happ|]. destruct (_ <? _)%nat; [apply mspec_undefined|apply Happ].
  - destruct (_ >=? _); [apply Happ|].
    eapply returns_bind; [apply returns_quiet; auto with quiet|]. intros q _.
    destruct (q =? 0); [apply Happ|].
    eapply returns_bind; [apply returns_quiet; solve_quiet|]. intros ? _. apply Happ.
Qed.

Lemma ga_port_nonempty ais p t : ais <> [] -> returns (ga_port ais p t) (fun r => r.2 <> []).
Proof.
  intros Hne. destruct ais as [|ai ais]; [done|]. cbn [ga_port]. cbv zeta.
  assert (Hf : forall before ai0, returns (f <~ fill_port (set_socktype ai0 t) p ;;
     r <~ ga_port ais p t ;;
     if r.1 <? 0 then mpure (-1, before ++ f.2 :: r.2) else mpure (f.1 + r.1, before ++ f.2 :: r.2))
     (fun r => r.2 <> [])).
  { intros. eapply returns_bind; [apply returns_quiet; auto with quiet|]. intros f _.
    eapply returns_bind; [apply returns_quiet; auto with quiet|]. intros r _.
    destruct (_ <? 0); apply returns_pure; cbn; by destruct before. }
  destruct (has_flag _ _); [destruct (negb _); [|apply Hf]|destruct (negb _); [|apply Hf]].
  - unfold ga_clone. eapply (returns_bind _ _ (fun r => r.1 <> [])).
    + eapply returns_bind; [apply returns_quiet; auto with quiet|]. intros q _.
      destruct (q =? 0); [by apply returns_pure|].
      eapply returns_bind; [apply returns_quiet; auto with quiet|]. intros q' _.
      destruct (q' =? 0); [by apply returns_pure|].
      destruct (ai_addr ai) as [[]|]; [by apply returns_pure|apply mspec_undefined].
    + intros [pieces [new|]] Hp; [apply Hf|]. apply returns_pure. cbn in *. by destruct pieces.
  - eapply returns_bind; [apply returns_quiet; auto with quiet|]. intros r _. by apply returns_pure.
Qed.

Lemma serv_port_nonempty n ais p t :
  ais <> [] -> returns (serv_port n ais p t) (fun r => r.2.2 <> []).
Proof.
  intros Hne. eapply returns_bind; [by apply ga_port_nonempty|]. intros r Hr.
  destruct (_ <? 0); by apply returns_pure.
Qed.

Lemma serv_name_nonempty w n ais sv pr t :
  ais <> [] -> returns (serv_name w n ais sv pr t) (fun r => r.2.2 <> []).
Proof.
  intros Hne. unfold serv_name. destruct w; [|by apply returns_pure].
  destruct (getservbyname sv pr); [by apply serv_port_nonempty|by apply returns_pure].
Qed.

Lemma ga_serv_nonempty ais h sv : ais <> [] -> returns (ga_serv ais h sv) (fun r => r.2 <> []).
Proof.
  intros Hne. unfold ga_serv. eapply (returns_bind _ _ (fun r => r.2.2 <> [])).
  - destruct (isdigit _); [destruct (negb _); [by apply serv_port_nonempty|]|]; cbv zeta.
    + eapply returns_bind; [by apply serv_port_nonempty|]. intros r Hr.
      destruct (negb _); [by apply returns_pure|by apply serv_port_nonempty].
    + eapply returns_bind; [by apply serv_name_nonempty|]. intros r Hr.
      destruct (negb _); [by apply returns_pure|by apply serv_name_nonempty].
  - intros [rc [n ais']] Hr. destruct (negb _); [by apply returns_pure|].
    destruct (n =? 0); by apply returns_pure.
Qed.

Lemma set_canonname_nonempty ais c : ais <> [] -> set_canonname ais c <> [].
Proof. by destruct ais. Qed.

Lemma ga_finish_found hn sv h sr v : returns (ga_finish hn sv h sr v) found.
Proof.
  unfold ga_finish. destruct v as [ais canon]. destruct ais as [|ai ais]; [by apply returns_pure|].
  eapply (returns_bind _ _ (fun r => r.2 <> [])).
  - destruct (_ && _); [|by apply returns_pure]. destruct canon; [by apply returns_pure|].
    eapply returns_bind; [apply returns_quiet; auto with quiet|]. intros q _.
    destruct (q =? 0); by apply returns_pure.
  - intros [rc l] Hl. destruct (negb _); [apply returns_pure; intros _; exact Hl|].
    destruct sv as [[|x sv]|]; [apply returns_pure; intros _; exact Hl| |
      apply returns_pure; intros _; exact Hl].
    eapply mspec_conseq; [by apply ga_serv_nonempty|done|by intros r ? ?|done].
Qed.

Definition found_list (r : Z + list addrinfo) : Prop :=
  match r with inr l => l <> [] | inl _ => True end.

Lemma ga_unix_found p h : returns (ga_unix p h) found_list.
Proof.
  unfold ga_unix. destruct (_ && _); [by apply returns_pure|].
  eapply (returns_bind _ _ found).
  - destruct (_ =? 0); [|apply ga_aistruct_found].
    eapply returns_bind; [apply ga_aistruct_found|]. intros r Hr.
    destruct (negb _); [by apply returns_pure|apply ga_aistruct_found].
  - intros [rc l] Hl. unfold found in Hl. cbn [fst snd] in Hl.
    destruct (Z.eqb_spec rc 0); cbn [negb]; [|by apply returns_pure]. specialize (Hl e).
    destruct (has_flag _ _); [|by apply returns_pure]. destruct uname; [|by apply returns_pure].
    eapply returns_bind; [apply returns_quiet; auto with quiet|]. intros q _.
    destruct (q =? 0); apply returns_pure; [done|]. by apply set_canonname_nonempty.
Qed.

Lemma getaddrinfo_found hn sv h : returns (getaddrinfo hn sv h) found_list.
Proof.
  unfold getaddrinfo. cbv zeta.
  assert (Hbad : forall e ais, returns (freeaddrinfo ais ;;; mpure (inl e)) found_list).
  { intros. eapply returns_bind; [apply returns_quiet; auto with quiet|]. intros ? _.
    by apply returns_pure. }
  destruct (negb _); [apply Hbad|].
  assert (Hmain : returns (search <~ ga_nsearch hn (default (Hints 0 AF_UNSPEC 0 0) h) ;;
     r <~ ga_search hn (default (Hints 0 AF_UNSPEC 0 0) h) (length search) search ([], None) ;;
     if negb (r.1 =? 0) then freeaddrinfo r.2.1 ;;; mpure (inl r.1) else
     r <~ ga_finish hn sv (default (Hints 0 AF_UNSPEC 0 0) h) search r.2 ;;
     if negb (r.1 =? 0) then freeaddrinfo r.2 ;;; mpure (inl r.1) else mpure (inr r.2)) found_list).
  { eapply returns_bind; [apply returns_quiet; auto with quiet|]. intros search _.
    eapply returns_bind; [apply returns_quiet; auto with quiet|]. intros r _.
    destruct (negb _); [apply Hbad|]. eapply returns_bind; [apply ga_finish_found|]. intros r2 Hr2.
    destruct (Z.eqb_spec r2.1 0); cbn [negb]; [|apply Hbad]. apply returns_pure. by apply Hr2. }
  destruct (unix_request hn sv); [|done]. destruct sv; [apply ga_unix_found|done].
Qed.

#[export] Instance gai_resolver_laws : ResolverLaws.
Proof.
  split.
  - apply quiet_getaddrinfo.
  - intros host serv hints s ais s' E. pose proof (getaddrinfo_found host serv hints s) as Hf.
    cbn [resolve gai_resolver] in E. rewrite E in Hf. apply Hf.
  - apply quiet_freeaddrinfo.
Qed.
End GaiResolver.

(** * Correctness of connection set-up *)

(** Between [s] and [s'] every descriptor that was handed out was closed again, except [fd]. *)
Definition keeps_only (fd : Z) (s s' : st) : Prop :=
  0 <= fd /\ exists evs, trace s' = evs ++ trace s /\
    collect fd_gain evs ≡ₚ collect fd_lose evs ++ [fd].

Section Claims.
Context {os : OS} {SE : Strerror} {RS : Resolver}.

Lemma fspec_keeps {A} (m : M A) (fd_of : A -> Z) s a s' :
  fspec m [] (fun a => 0 <= fd_of a) (fun a => [fd_of a]) -> m s = (Val a, s') ->
  keeps_only (fd_of a) s s'.
Proof.
  intros Hm E. specialize (Hm s). rewrite E in Hm. destruct Hm as (Hp & evs & Ht & HP).
  split; [done|]. exists evs. split; [done|]. by rewrite app_nil_r in HP.
Qed.

(** The part common to all functions: resolve, loop, and then one of two ends. *)
Lemma setup_spec {A} (laws : ResolverLaws) host serv hints (loop : list addrinfo -> M (Z * list addrinfo))
    (fail : Z -> M A) (fin : list addrinfo -> Z * list addrinfo -> M A) (fd_of : A -> Z) :
  (forall ais, fspec (loop ais) [] (stopped ais) kept) ->
  (forall n, fspec (fail n) [] (fun a => 0 <= fd_of a) (fun a => [fd_of a])) ->
  (forall ais r, stopped ais r ->
     fspec (fin ais r) (kept r) (fun a => 0 <= fd_of a) (fun a => [fd_of a])) ->
  fspec (n <~ resolve host serv hints ;;
         match n with
         | inl n => fail n
         | inr ressave => r <~ loop ressave ;; fin ressave r
         end) [] (fun a => 0 <= fd_of a) (fun a => [fd_of a]).
Proof.
  intros Hl Hf He. eapply mspec_bind; [apply mspec_quiet, resolve_quiet|]. intros [n|ais] _.
  - apply Hf.
  - eapply mspec_bind; [apply Hl|]. intros r Hr. by apply He.
Qed.

(** The end of a function that found an address: quiet calls, then the descriptor. *)
Lemma setup_end {A B} (laws : ResolverLaws) (fd_of : A -> Z) (m : M B) (a : B -> A) r ais :
  r.2 <> [] -> stopped ais r -> quiet descriptors m -> (forall b, fd_of (a b) = r.1) ->
  fspec (b <~ m ;; release ais ;;; mpure (a b)) (kept r) (fun a => 0 <= fd_of a)
    (fun a => [fd_of a]).
Proof.
  intros Hne [_ Hp] Hm Ha. eapply mspec_bind; [by apply mspec_quiet|]. intros b _.
  eapply mspec_bind; [apply mspec_quiet, release_quiet|]. intros ? _.
  apply mspec_pure; [rewrite Ha; auto|]. rewrite Ha. unfold kept. by destruct r as [? []].
Qed.

Lemma Malloc_quiet n : quiet descriptors (Malloc n).
Proof. unfold Malloc, call. solve_quiet. Qed.

(** C12: connection set-up keeps exactly one descriptor.  Whatever the resolver (within its
    contract) and the kernel answer, when [tcp_connect], [tcp_listen], [udp_client],
    [udp_connect] or [udp_server] returns, the descriptor it returns is valid and every other
    descriptor it obtained from [socket] on the way has been closed. *)
Theorem setup_keeps_one_descriptor (laws : ResolverLaws) host serv s :
  (forall fd s', tcp_connect host serv s = (Val fd, s') -> keeps_only fd s s') /\
  (forall fd len s', tcp_listen host serv s = (Val (fd, len), s') -> keeps_only fd s s') /\
  (forall fd sa len s', udp_client host serv s = (Val (fd, sa, len), s') -> keeps_only fd s s') /\
  (forall fd s', udp_connect host serv s = (Val fd, s') -> keeps_only fd s s') /\
  (forall fd len s', udp_server host serv s = (Val (fd, len), s') -> keeps_only fd s s').
Proof.
  assert (Hq : quiet descriptors (mpure tt)) by apply quiet_pure.
  split_and!; intros *; intros E.
  - revert E. apply (fspec_keeps _ (fun fd => fd)), setup_spec; [done|apply connect_loop_fds|..].
    { intros. apply mspec_err_quit. }
    intros ais [fd0 [|ai rest]] Hs; cbn [snd]; [apply mspec_err_sys|].
    by apply (setup_end laws (fun fd => fd) (mpure tt) (fun _ => fd0)).
  - revert E. apply (fspec_keeps _ fst), setup_spec; [done|apply listen_loop_fds|..].
    { intros. apply mspec_err_quit. }
    intros ais [fd0 [|ai rest]] Hs; cbn [snd]; [apply mspec_err_sys|].
    apply (setup_end laws fst (Listen fd0 LISTENQ) (fun _ => (fd0, ai_addrlen ai)) (fd0, ai :: rest)); try done.
    apply Listen_quiet.
  - revert E. apply (fspec_keeps _ (fun x => x.1.1)), setup_spec; [done|apply socket_loop_fds|..].
    { intros. apply mspec_err_quit. }
    intros ais [fd0 [|ai rest]] Hs; cbn [snd]; [apply mspec_err_sys|].
    apply (setup_end laws (fun x => x.1.1) (Malloc (ai_addrlen ai))
             (fun p => (fd0, (p, addr_of ai), ai_addrlen ai)) (fd0, ai :: rest)); try done.
    apply Malloc_quiet.
  - revert E. apply (fspec_keeps _ (fun fd => fd)), setup_spec; [done|apply connect_loop_fds|..].
    { intros. apply mspec_err_quit. }
    intros ais [fd0 [|ai rest]] Hs; cbn [snd]; [apply mspec_err_sys|].
    by apply (setup_end laws (fun fd => fd) (mpure tt) (fun _ => fd0)).
  - revert E. apply (fspec_keeps _ fst), setup_spec; [done|apply bind_loop_fds|..].
    { intros. apply mspec_err_quit. }
    intros ais [fd0 [|ai rest]] Hs; cbn [snd]; [apply mspec_err_sys|].
    by apply (setup_end laws fst (mpure tt) (fun _ => (fd0, ai_addrlen ai)) (fd0, ai :: rest)).
Qed.

Lemma connect_loop_suffix res s fd rest s' :
  connect_loop res s = (Val (fd, rest), s') -> rest `suffix_of` res.
Proof.
  intros E. pose proof (connect_loop_fds res s) as H. rewrite E in H. apply H.
Qed.

(** [tcp_connect] returns a connected socket: when it returns a descriptor, the resolver
    had returned a list, the descriptor's [connect] to the address of one of its entries was
    answered with success, and only the release of the list came after it. *)
Theorem tcp_connect_connected (laws : ResolverLaws) host serv s fd s' :
  tcp_connect host serv s = (Val fd, s') ->
  exists ais s1 ai r h evs,
    resolve host serv (Some (Hints 0 AF_UNSPEC SOCK_STREAM 0)) s = (Val (inr ais), s1) /\
    ai ∈ ais /\ rv r = 0 /\
    trace s' = evs ++ (sys_connect fd (addr_of ai), r) :: h /\ Forall (idle descriptors) evs.
Proof.
  unfold tcp_connect, mthen. destruct (resolve _ _ _ s) as [[[n|ais]| | | |] s1]; try done.
  { intros E. exfalso. by apply err_quit_no_return in E. }
  destruct (connect_loop ais s1) as [[[fd0 [|ai rest]]| | | |] s2] eqn:El; cbn [fst snd]; try done.
  { intros E. exfalso. by apply err_sys_no_return in E. }
  destruct (connect_loop_last ais s1 fd0 ai rest s2 El) as (r & h & Ht & Hr).
  pose proof (connect_loop_suffix ais s1 fd0 (ai :: rest) s2 El) as [pre Hpre].
  pose proof (release_quiet ais s2) as Hq. destruct (release ais s2) as [[[]| | | |] s3]; try done.
  intros [= <- <-]. destruct Hq as (evs & Ht3 & Hf). exists ais, s1, ai, r, h, evs.
  split_and!; [done| |done| |done].
  - rewrite Hpre. set_solver.
  - by rewrite Ht3, Ht.
Qed.

(** A loop over a nonempty list ends in a value or, when [Close] fails, in the end of the
    process. *)
Lemma connect_loop_defined res s :
  res <> [] -> daemon_proc s = 0 ->
  (exists r s', connect_loop res s = (Val r, s')) \/ (exists s', connect_loop res s = (Exited 1, s')).
Proof.
  revert s. induction res as [|ai next IH]; intros s Hne Hd; [done|]. cbn [connect_loop].
  rewrite then_sys. cbv zeta. set (fd := rv _).
  assert (Hcont : forall fd0 s0, daemon_proc s0 = 0 ->
    (exists r s', (match next with [] => mpure (fd0, []) | _ => connect_loop next end) s0 = (Val r, s')) \/
    (exists s', (match next with [] => mpure (fd0, []) | _ => connect_loop next end) s0 = (Exited 1, s'))).
  { intros fd0 s0 Hd0. destruct next; [left; by eexists _, _|]. by apply IH. }
  destruct (fd <? 0); [by apply Hcont|]. rewrite then_sys. destruct (_ =? 0); [left; by eexists _, _|].
  set (s2 := after _ _ _).
  assert (HC : fail_stop true (Close fd) (sys_close fd) minus1 c["close error"] (fun _ => tt))
    by (apply (call_fail_stop (fun _ => tt)); plain_message).
  specialize (HC s2 Hd). cbv zeta in HC. destruct (minus1 _).
  - right. rewrite (then_exit _ _ _ _ _ HC). by eexists.
  - rewrite (then_val _ _ _ _ _ HC). by apply Hcont.
Qed.

(** The list the resolver returns is safe to loop over: the [do ... while] loop of
    [tcp_connect] and [udp_connect], which looks at the first entry before it tests for the
    end, never runs off the list. *)
Theorem connect_loop_safe (laws : ResolverLaws) host serv hints s ais s1 :
  resolve host serv hints s = (Val (inr ais), s1) -> daemon_proc s1 = 0 ->
  (exists r s', connect_loop ais s1 = (Val r, s')) \/
  (exists s', connect_loop ais s1 = (Exited 1, s')).
Proof. intros E Hd. apply connect_loop_defined; [|done]. by eapply resolve_nonempty. Qed.

End Claims.

(** * Concrete runs

    The resolver of [libgai] over a name database with one host of two addresses; [connect]
    to the first address is refused. *)

Definition refusing_os : OS := fun h c =>
  match c with
  | sys_calloc _ _ | sys_malloc _ | sys_strdup _ => ok (1000 + Z.of_nat (length h))
  | sys_socket _ _ _ => ok (3 + Z.of_nat (length (base.filter (fun e => fd_gain e <> []) h)))
  | sys_connect _ (SockIn _ [10; 0; 0; 1]) => failed (-1) 111
  | _ => ok 0
  end.

#[local] Existing Instance refusing_os.
#[local] Existing Instance numeric_strerror.
#[local] Instance all_protocols' : GaiConfig := {| IPv4 := true; IPv6 := true; UNIXdomain := true |}.
#[local] Existing Instance daytime_db.

Lemma setup_keeps_one_descriptor_witness :
  (tcp_connect (Some c["host"]) (Some c["daytime"]) init).1 = Val 4 /\
  keeps_only 4 init (tcp_connect (Some c["host"]) (Some c["daytime"]) init).2.
Proof.
  split; [vm_compute; reflexivity|].
  apply (proj1 (setup_keeps_one_descriptor gai_resolver_laws (Some c["host"]) (Some c["daytime"]) init)).
  vm_compute. reflexivity.
Defined.

Lemma tcp_connect_connected_witness :
  exists ais s1 ai r h evs,
    resolve (Some c["host"]) (Some c["daytime"]) (Some (Hints 0 AF_UNSPEC SOCK_STREAM 0)) init
      = (Val (inr ais), s1) /\
    ai ∈ ais /\ rv r = 0 /\
    trace (tcp_connect (Some c["host"]) (Some c["daytime"]) init).2
      = evs ++ (sys_connect 4 (addr_of ai), r) :: h /\ Forall (idle descriptors) evs.
Proof.
  apply (tcp_connect_connected gai_resolver_laws (Some c["host"]) (Some c["daytime"]) init 4).
  vm_compute. reflexivity.
Defined.

Lemma connect_loop_safe_witness :
  match resolve (Some c["host"]) (Some c["daytime"]) None init with
  | (Val (inr ais), s1) =>
      (exists r s', connect_loop ais s1 = (Val r, s')) \/
      (exists s', connect_loop ais s1 = (Exited 1, s'))
  | _ => False
  end.
Proof.
  destruct (resolve (Some c["host"]) (Some c["daytime"]) None init) as [o s1] eqn:E.
  assert (Ho : exists ais, o = Val (inr ais))
    by (apply (f_equal fst) in E; vm_compute in E; subst o; eexists; reflexivity).
  destruct Ho as [ais ->].
  assert (Hd : daemon_proc s1 = 0)
    by (apply (f_equal snd) in E; vm_compute in E; subst s1; reflexivity).
  apply (connect_loop_safe gai_resolver_laws (Some c["host"]) (Some c["daytime"]) None init ais s1 E Hd).
Defined.
