(* ===== verification/NonblockCli.v ===== *)
(** The echo client with nonblocking I/O: [nonblock/strclinonb.c].

    [str_cli] copies standard input to the socket and the socket to standard output through
    two buffers, [to] and [fr], and uses [select] to find out which of the four transfers can
    be made without blocking.  Pointers into the buffers are offsets. *)

From S2P Require Import Prelude CText Sys Error Wrappers RobustIO Connect StreamFacts Servers.

Definition STDIN_FILENO : Z := 0.
Definition STDOUT_FILENO : Z := 1.
Definition SHUT_WR : Z := 1.

(** The variables that live across iterations: the buffers, the offset behind the data in each
    ([toiptr], [friptr]), the offset of the first byte to write ([tooptr], [froptr]). *)
Record nbstate : Type := NB {
  to : list Z; toiptr : nat; tooptr : nat;
  fr : list Z; friptr : nat; froptr : nat;
  stdineof : bool;
}.

Definition nb_init : nbstate :=
  NB (replicate (Z.to_nat MAXLINE) 0) 0 0 (replicate (Z.to_nat MAXLINE) 0) 0 0 false.

Section Nonblock.
Context {os : OS} {SE : Strerror}.
Context (sockfd : Z).

Definition set_nonblock (fd : Z) : M unit :=
  val <~ Fcntl fd F_GETFL 0 ;;
  Fcntl fd F_SETFL (Z.lor val O_NONBLOCK) ;;; mpure tt.

(** What is to be waited for: the sets handed to [select]. *)
Definition nb_rset (v : nbstate) : option (list Z) :=
  rset ← (if negb (stdineof v) && (Z.of_nat (toiptr v) <? MAXLINE)
          then FD_SET STDIN_FILENO [] else Some []);
  if Z.of_nat (friptr v) <? MAXLINE then FD_SET sockfd rset else Some rset.

Definition nb_wset (v : nbstate) : option (list Z) :=
  wset ← (if negb (tooptr v =? toiptr v)%nat then FD_SET sockfd [] else Some []);
  if negb (froptr v =? friptr v)%nat then FD_SET STDOUT_FILENO wset else Some wset.

(** [if (FD_ISSET (STDIN_FILENO, &rset))]: read from standard input. *)
Definition read_stdin (v : nbstate) (wset : list Z) : M (nbstate * list Z) :=
  r <~ sys (sys_read STDIN_FILENO (MAXLINE - Z.of_nat (toiptr v))) ;;
  to' <~ checked (memcpy (to v) (toiptr v) (rbytes r)) ;;
  if rv r <? 0 then
    e <~ get_errno ;;
    if negb (e =? EWOULDBLOCK) then err_sys c["read error on stdin"] [] else mpure (v, wset)
  else if rv r =? 0 then
    (if (tooptr v =? toiptr v)%nat then Shutdown sockfd SHUT_WR else mpure tt) ;;;   (* send FIN *)
    mpure (NB (to v) (toiptr v) (tooptr v) (fr v) (friptr v) (froptr v) true, wset)
  else
    wset <~ checked (FD_SET sockfd wset) ;;              (* try and write to socket below *)
    mpure (NB to' (toiptr v + Z.to_nat (rv r)) (tooptr v) (fr v) (friptr v) (froptr v)
             (stdineof v), wset).

(** [if (FD_ISSET (sockfd, &rset))]: read from the socket; [Return] is the return from
    [str_cli]. *)
Definition read_socket (v : nbstate) (wset : list Z) : M (flow (nbstate * list Z) nbstate) :=
  r <~ sys (sys_read sockfd (MAXLINE - Z.of_nat (friptr v))) ;;
  fr' <~ checked (memcpy (fr v) (friptr v) (rbytes r)) ;;
  if rv r <? 0 then
    e <~ get_errno ;;
    if negb (e =? EWOULDBLOCK) then err_sys c["read error on socket"] [] else mpure (Next (v, wset))
  else if rv r =? 0 then
    if stdineof v then mpure (Return v)                  (* normal termination *)
    else err_quit c["str_cli: server terminated prematurely"] []
  else
    wset <~ checked (FD_SET STDOUT_FILENO wset) ;;       (* try and write below *)
    mpure (Next (NB (to v) (toiptr v) (tooptr v) fr' (friptr v + Z.to_nat (rv r)) (froptr v)
                   (stdineof v), wset)).

(** [if (FD_ISSET (STDOUT_FILENO, &wset) && ((n = friptr - froptr) > 0))] *)
Definition write_stdout (v : nbstate) : M nbstate :=
  let n := Z.of_nat (friptr v) - Z.of_nat (froptr v) in
  if n >? 0 then
    r <~ sys (sys_write STDOUT_FILENO (slice (fr v) (froptr v) n)) ;;
    if rv r <? 0 then
      e <~ get_errno ;;
      if negb (e =? EWOULDBLOCK) then err_sys c["write error to stdout"] [] else mpure v
    else
      let froptr' := (froptr v + Z.to_nat (rv r))%nat in
      if (froptr' =? friptr v)%nat                       (* back to beginning of buffer *)
      then mpure (NB (to v) (toiptr v) (tooptr v) (fr v) 0 0 (stdineof v))
      else mpure (NB (to v) (toiptr v) (tooptr v) (fr v) (friptr v) froptr' (stdineof v))
  else mpure v.

(** [if (FD_ISSET (sockfd, &wset) && ((n = toiptr - tooptr) > 0))] *)
Definition write_socket (v : nbstate) : M nbstate :=
  let n := Z.of_nat (toiptr v) - Z.of_nat (tooptr v) in
  if n >? 0 then
    r <~ sys (sys_write sockfd (slice (to v) (tooptr v) n)) ;;
    if rv r <? 0 then
      e <~ get_errno ;;
      if negb (e =? EWOULDBLOCK) then err_sys c["write error to socket"] [] else mpure v
    else
      let tooptr' := (tooptr v + Z.to_nat (rv r))%nat in
      if (tooptr' =? toiptr v)%nat then                  (* back to beginning of buffer *)
        (if stdineof v then Shutdown sockfd SHUT_WR else mpure tt) ;;;               (* send FIN *)
        mpure (NB (to v) 0 0 (fr v) (friptr v) (froptr v) (stdineof v))
      else mpure (NB (to v) (toiptr v) tooptr' (fr v) (friptr v) (froptr v) (stdineof v))
  else mpure v.

(** One iteration of [for ( ; ; )]. *)
Definition nb_round (v : nbstate) : M (flow nbstate nbstate) :=
  rset <~ checked (nb_rset v) ;;
  wset <~ checked (nb_wset v) ;;
  r <~ Select (Z.max (Z.max STDIN_FILENO STDOUT_FILENO) sockfd + 1) rset wset [] None ;;
  in_ready <~ checked (FD_ISSET STDIN_FILENO (rset_of r)) ;;
  p <~ (if in_ready : bool then read_stdin v (wset_of r) else mpure (v, wset_of r)) ;;
  let '(v, wset) := p in
  sock_ready <~ checked (FD_ISSET sockfd (rset_of r)) ;;
  q <~ (if sock_ready : bool then read_socket v wset else mpure (Next (v, wset))) ;;
  match q with
  | Return v => mpure (Return v)
  | Next (v, wset) | Break (v, wset) =>
      out_ready <~ checked (FD_ISSET STDOUT_FILENO wset) ;;
      v <~ (if out_ready : bool then write_stdout v else mpure v) ;;
      send_ready <~ checked (FD_ISSET sockfd wset) ;;
      v <~ (if send_ready : bool then write_socket v else mpure v) ;;
      mpure (Next v)
  end.

(** [rounds] iterations, fewer when [str_cli] returns before. *)
Fixpoint nb_loop (rounds : nat) (v : nbstate) : M (flow nbstate nbstate) :=
  match rounds with
  | O => mpure (Next v)
  | S k =>
      q <~ nb_round v ;;
      match q with
      | Next v | Break v => nb_loop k v
      | Return v => mpure (Return v)
      end
  end.

(** [str_cli], observed after [rounds] iterations of its loop: [Return] when it has returned. *)
Definition str_cli_nonb (rounds : nat) : M (flow nbstate nbstate) :=
  set_nonblock sockfd ;;;
  set_nonblock STDIN_FILENO ;;;
  set_nonblock STDOUT_FILENO ;;;
  nb_loop rounds nb_init.

End Nonblock.
