(* ===== verification/NonblockFacts.v ===== *)
(** The nonblocking echo client loses and reorders nothing: what it holds in its two buffers is
    exactly what it has read and not yet written. *)

From S2P Require Import Prelude CText Sys Traces Error Wrappers RobustIO Connect StreamFacts Servers.
From S2P Require Import NonblockCli.

(** * Windows of a buffer *)

Definition window (buf : list Z) (o i : nat) : list Z := slice buf o (Z.of_nat i - Z.of_nat o).

Lemma window_eq buf o i : (o <= i)%nat -> window buf o i = drop o (take i buf).
Proof.
  intros H. unfold window, slice. rewrite take_drop_commute. do 2 f_equal. lia.
Qed.

Lemma window_memcpy buf buf' d o i :
  memcpy buf i d = Some buf' -> (o <= i <= length buf)%nat ->
  window buf' o (i + length d) = window buf o i ++ d.
Proof.
  unfold memcpy. case_decide as Hl; [|done]. intros [= <-] Ho. rewrite !window_eq by lia.
  rewrite (app_assoc (take i buf)), take_app_length' by llia. apply drop_app_le. llia.
Qed.

Lemma window_advance buf o i k :
  (o + k <= i <= length buf)%nat -> window buf o i = take k (window buf o i) ++ window buf (o + k) i.
Proof.
  intros H. rewrite !window_eq by lia. rewrite <- (drop_drop _ k o). symmetry. apply take_drop.
Qed.

Lemma window_empty buf o : window buf o o = [].
Proof. unfold window, slice. by rewrite Z.sub_diag. Qed.

Lemma window_length buf o i : (o <= i <= length buf)%nat -> length (window buf o i) = (i - o)%nat.
Proof. intros H. rewrite window_eq by lia. llia. Qed.

(** * The invariant *)

Section Invariant.
Context (sockfd : Z).

Definition is_fin (e : event) : bool :=
  match e.1 with sys_shutdown fd how => (fd =? sockfd) && (how =? SHUT_WR) | _ => false end.

(** The number of times the end of the data was announced to the server. *)
Definition fins (h : list event) : nat := length (List.filter is_fin h).

(** The end of standard input has been read. *)
Definition stdin_ended (h : list event) : Prop :=
  exists n r, 0 < n /\ rv r = 0 /\ (sys_read STDIN_FILENO n, r) ∈ h.

Record buffer_ok (buf : list Z) (i o : nat) : Prop := {
  bo_length : length buf = Z.to_nat MAXLINE;
  bo_range : (o <= i <= Z.to_nat MAXLINE)%nat;
  bo_reset : o = i -> i = 0%nat;
}.

Record nb_inv (v : nbstate) (h : list event) : Prop := {
  nb_to : buffer_ok (to v) (toiptr v) (tooptr v);
  nb_fr : buffer_ok (fr v) (friptr v) (froptr v);
  nb_sent : received STDIN_FILENO h = sent sockfd h ++ window (to v) (tooptr v) (toiptr v);
  nb_shown : received sockfd h = sent STDOUT_FILENO h ++ window (fr v) (froptr v) (friptr v);
  nb_fin : fins h = if stdineof v && (tooptr v =? toiptr v)%nat then 1%nat else 0%nat;
  nb_eof : stdineof v = true -> stdin_ended h;
}.

(** What holds of the history at every moment, also in the middle of an iteration. *)
Record nb_always (h : list event) : Prop := {
  al_sent : sent sockfd h `prefix_of` received STDIN_FILENO h;
  al_shown : sent STDOUT_FILENO h `prefix_of` received sockfd h;
  al_fin : fins h = 0%nat \/
    (fins h = 1%nat /\ sent sockfd h = received STDIN_FILENO h /\ stdin_ended h);
}.

Lemma nb_inv_always v h : nb_inv v h -> nb_always h.
Proof.
  intros []. constructor.
  - rewrite nb_sent0. by eexists.
  - rewrite nb_shown0. by eexists.
  - destruct (stdineof v); [|by left]. destruct (Nat.eqb_spec (tooptr v) (toiptr v)) as [E|];
      [right|by left]. split_and!; [done| |by apply nb_eof0].
    rewrite nb_sent0, E, window_empty. by rewrite app_nil_r.
Qed.

(** The effect of one more call. *)
Lemma received_cons fd e h : received fd (e :: h) = received fd h ++ read_data fd e.
Proof. apply collect_cons. Qed.

Lemma sent_cons fd e h : sent fd (e :: h) = sent fd h ++ write_data fd e.
Proof. apply collect_cons. Qed.

Lemma fins_cons e h : fins (e :: h) = ((if is_fin e then 1 else 0) + fins h)%nat.
Proof. unfold fins. cbn. by destruct (is_fin e). Qed.

Lemma stdin_ended_cons e h : stdin_ended h -> stdin_ended (e :: h).
Proof. intros (n & r & ? & ? & ?). exists n, r. split_and!; try done. by right. Qed.

(** Calls with no effect on the data or the announcement. *)
Definition idle_call (c : syscall) : bool :=
  match c with sys_read _ _ | sys_write _ _ | sys_shutdown _ _ => false | _ => true end.

Lemma idle_effects c r h :
  idle_call c = true ->
  (forall fd, received fd ((c, r) :: h) = received fd h) /\
  (forall fd, sent fd ((c, r) :: h) = sent fd h) /\ fins ((c, r) :: h) = fins h.
Proof.
  intros Hc. split_and!.
  - intros fd. rewrite received_cons. destruct c; try discriminate Hc; apply app_nil_r.
  - intros fd. rewrite sent_cons. destruct c; try discriminate Hc; apply app_nil_r.
  - rewrite fins_cons. by destruct c.
Qed.

Lemma nb_inv_idle v c r h : idle_call c = true -> nb_inv v h -> nb_inv v ((c, r) :: h).
Proof.
  intros Hc []. destruct (idle_effects c r h Hc) as (Hr & Hs & Hf).
  constructor; rewrite ?Hr, ?Hs, ?Hf; try done. intros. by apply stdin_ended_cons, nb_eof0.
Qed.

Lemma nb_always_idle c r h : idle_call c = true -> nb_always h -> nb_always ((c, r) :: h).
Proof.
  intros Hc []. destruct (idle_effects c r h Hc) as (Hr & Hs & Hf).
  constructor; rewrite ?Hr, ?Hs, ?Hf; try done.
  destruct al_fin0 as [?|(? & ? & ?)]; [by left|right]. split_and!; try done.
  by apply stdin_ended_cons.
Qed.

Lemma nb_always_output evs h : Forall output evs -> nb_always h -> nb_always (evs ++ h).
Proof.
  induction 1 as [|[c r] evs He _ IH]; intros Hh; [done|]. cbn [app].
  apply nb_always_idle; [|by apply IH]. unfold output in He. by destruct c.
Qed.
End Invariant.

(** * The steps of an iteration *)

Section Steps.
Context {os : OS} {SE : Strerror} {RDL : ReadLaw} {WL : WriteLaw}.
Context (sockfd : Z) (Hsock : 2 <= sockfd < FD_SETSIZE).

Abbreviation inv := (nb_inv sockfd).
Abbreviation always := (nb_always sockfd).
Abbreviation goes := (ends always (fun _ => False)).

Record nb_at (v : nbstate) (s : st) : Prop := {
  at_foreground : daemon_proc s = 0;
  at_inv : inv v (trace s);
}.

(** A call that transferred nothing. *)
Lemma inv_no_data v c r h :
  (exists fd n, c = sys_read fd n /\ rbytes r = []) \/ (exists fd d, c = sys_write fd d /\ rv r <= 0) ->
  inv v h -> inv v ((c, r) :: h).
Proof.
  intros Hc [].
  assert (Hr : forall fd, received fd ((c, r) :: h) = received fd h).
  { intros fd. rewrite received_cons. destruct Hc as [(fd' & n & -> & Hb)|(fd' & d & -> & _)];
      cbn; [rewrite Hb; destruct (_ =? _)|]; apply app_nil_r. }
  assert (Hs : forall fd, sent fd ((c, r) :: h) = sent fd h).
  { intros fd. rewrite sent_cons. destruct Hc as [(fd' & n & -> & Hb)|(fd' & d & -> & Hb)];
      [apply app_nil_r|]. cbn. replace (Z.to_nat (rv r)) with 0%nat by lia.
    destruct (_ =? _); apply app_nil_r. }
  assert (Hf : fins sockfd ((c, r) :: h) = fins sockfd h)
    by (rewrite fins_cons; destruct Hc as [(? & ? & -> & _)|(? & ? & -> & _)]; done).
  constructor; rewrite ?Hr, ?Hs, ?Hf; try done. intros. by apply stdin_ended_cons, nb_eof0.
Qed.

(** [if (errno != EWOULDBLOCK) err_sys (...)] after a call that transferred nothing. *)
Lemma would_block {A} v msg (a : A) (Q : A -> st -> Prop) s :
  plain msg = true -> nb_at v s -> Q a s ->
  wp (e <~ get_errno ;; if negb (e =? EWOULDBLOCK) then err_sys msg [] else mpure a) (goes Q) s.
Proof.
  intros Hp [Hd Hi] HQ. apply wp_then. cbn [wp get_errno andthen].
  destruct (negb _); [|by apply ends_pure].
  apply ends_err_sys; [apply nb_always_output|done|done|by eapply nb_inv_always].
Qed.

Definition with_to (v : nbstate) (buf : list Z) (i o : nat) (eof : bool) : nbstate :=
  NB buf i o (fr v) (friptr v) (froptr v) eof.
Definition with_fr (v : nbstate) (buf : list Z) (i o : nat) : nbstate :=
  NB (to v) (toiptr v) (tooptr v) buf i o (stdineof v).

(** The announcement of the end of the data, when all of it has been sent. *)
Lemma announce v s (Q : unit -> st -> Prop) :
  daemon_proc s = 0 -> tooptr v = toiptr v -> stdin_ended (trace s) ->
  received STDIN_FILENO (trace s) = sent sockfd (trace s) -> fins sockfd (trace s) = 0%nat ->
  buffer_ok (to v) (toiptr v) (tooptr v) -> buffer_ok (fr v) (friptr v) (froptr v) ->
  received sockfd (trace s) = sent STDOUT_FILENO (trace s) ++ window (fr v) (froptr v) (friptr v) ->
  (forall s', nb_at (with_to v (to v) (toiptr v) (tooptr v) true) s' -> Q tt s') ->
  wp (Shutdown sockfd SHUT_WR) (goes Q) s.
Proof.
  intros Hd Ho He Hr Hf Hto Hfr Hrs HQ. set (c := sys_shutdown sockfd SHUT_WR).
  set (v' := with_to v (to v) (toiptr v) (tooptr v) true).
  assert (Hinv : inv v' (trace (after c (answer c s) s))).
  { constructor; cbn [after trace v' with_to to toiptr tooptr fr friptr froptr stdineof]; try done.
    - rewrite received_cons, sent_cons, !app_nil_r, Ho, window_empty, app_nil_r. done.
    - rewrite received_cons, sent_cons, !app_nil_r. done.
    - rewrite fins_cons, Hf, Ho, Nat.eqb_refl. cbn. by rewrite Z.eqb_refl.
    - intros _. by apply stdin_ended_cons. }
  unfold Shutdown. eapply (ends_then _ _ _ _ (fun _ s' => s' = after c (answer c s) s)).
  - apply ends_call; [apply nb_always_output|done|done|by eapply nb_inv_always|done].
  - intros _ s' ->. apply ends_pure, HQ. by constructor.
Qed.

Lemma read_stdin_spec v wset s :
  nb_at v s -> stdineof v = false -> (toiptr v < Z.to_nat MAXLINE)%nat ->
  wp (read_stdin sockfd v wset) (goes (fun p s' => nb_at p.1 s' /\ friptr p.1 = friptr v)) s.
Proof.
  intros Hat Heof Hroom. pose proof Hat as [Hd Hinv]. pose proof Hinv as [[Hl Hb Hz] Hfr Hs Hsh Hfin _].
  unfold read_stdin. apply wp_then, wp_sys. cbn [andthen].
  set (n := MAXLINE - Z.of_nat (toiptr v)). assert (0 < n) by (unfold n, MAXLINE in *; lia).
  destruct (read_cases STDIN_FILENO n s ltac:(lia))
    as [r d s1 Hv Hdt Hlen Hle _ ->|r s1 Hv Hdt ->|r s1 Hv Hdt Hx He ->|r s1 x Hv Hdt Hx Hne He ->];
    set (s1 := after (sys_read STDIN_FILENO n) r s) in *; rewrite Hdt, Hv.
  - destruct (memcpy (to v) (toiptr v) d) as [to'|] eqn:E;
      [|unfold memcpy in E; case_decide; [done|lia]].
    eapply wp_checked; [done|]. destruct (Z.ltb_spec (Z.of_nat (length d)) 0); [lia|].
    destruct (Z.eqb_spec (Z.of_nat (length d)) 0); [lia|].
    destruct (FD_SET_spec sockfd wset ltac:(lia)) as (w & -> & _). eapply wp_checked; [done|].
    apply ends_pure. split; [|done]. constructor; [done|]. cbn [fst]. rewrite Nat2Z.id.
    constructor; cbn [to toiptr tooptr fr friptr froptr stdineof s1 after trace]; try done.
    + constructor; [by rewrite (memcpy_length _ _ _ _ E)|lia|lia].
    + rewrite received_cons, sent_cons, app_nil_r, (window_memcpy (to v) to' d) by (done || lia).
      by rewrite read_data_eq, Hdt, Hs, app_assoc.
    + rewrite received_cons, sent_cons, read_data_ne by (unfold STDIN_FILENO; lia).
      by rewrite !app_nil_r.
    + rewrite fins_cons, Hfin, Heof. done.
    + by rewrite Heof.
  - rewrite memcpy_nil by lia. eapply wp_checked; [done|]. cbn [Z.ltb Z.eqb Z.compare].
    assert (Hat1 : nb_at v s1) by (constructor; [done|]; apply inv_no_data; [left; eauto|done]).
    assert (Hend : stdin_ended (trace s1)) by (exists n, r; split_and!; [done|done|by constructor]).
    pose proof Hat1 as [_ [Hto1 Hfr1 Hs1 Hsh1 Hfin1 _]]. rewrite Heof in Hfin1. cbn [andb] in Hfin1.
    eapply (ends_then _ _ _ _ (fun _ s2 => nb_at (with_to v (to v) (toiptr v) (tooptr v) true) s2)).
    + destruct (Nat.eqb_spec (tooptr v) (toiptr v)) as [Ho|Ho].
      * rewrite Ho, window_empty, app_nil_r in Hs1. by apply (announce v).
      * apply ends_pure. constructor; [done|].
        constructor; cbn [with_to to toiptr tooptr fr friptr froptr stdineof]; try done.
        cbn [andb]. by rewrite Hfin1, (proj2 (Nat.eqb_neq _ _) Ho).
    + intros _ s2 H2. by apply ends_pure.
  - rewrite memcpy_nil by lia. eapply wp_checked; [done|]. cbn [Z.ltb Z.compare].
    assert (Hat1 : nb_at v s1) by (constructor; [done|]; apply inv_no_data; [left; eauto|done]).
    by apply (would_block v).
  - rewrite memcpy_nil by lia. eapply wp_checked; [done|]. cbn [Z.ltb Z.compare].
    assert (Hat1 : nb_at v s1) by (constructor; [done|]; apply inv_no_data; [left; eauto|done]).
    by apply (would_block v).
Qed.

(** The socket has ended after the end of standard input. *)
Definition server_done (h : list event) : Prop :=
  exists n r, 0 < n /\ rv r = 0 /\ (sys_read sockfd n, r) ∈ h.

Lemma read_socket_spec v wset s :
  nb_at v s -> (friptr v < Z.to_nat MAXLINE)%nat ->
  wp (read_socket sockfd v wset) (goes (fun q s' =>
    match q with
    | Return v' => nb_at v' s' /\ stdineof v' = true /\ server_done (trace s')
    | Next (v', _) | Break (v', _) => nb_at v' s'
    end)) s.
Proof.
  intros Hat Hroom. pose proof Hat as [Hd Hinv]. pose proof Hinv as [Hto [Hl Hb Hz] Hs Hsh Hfin Heof].
  unfold read_socket. apply wp_then, wp_sys. cbn [andthen].
  set (n := MAXLINE - Z.of_nat (friptr v)). assert (0 < n) by (unfold n, MAXLINE in *; lia).
  destruct (read_cases sockfd n s ltac:(lia))
    as [r d s1 Hv Hdt Hlen Hle _ ->|r s1 Hv Hdt ->|r s1 Hv Hdt Hx He ->|r s1 x Hv Hdt Hx Hne He ->];
    set (s1 := after (sys_read sockfd n) r s) in *; rewrite Hdt, Hv.
  - destruct (memcpy (fr v) (friptr v) d) as [fr'|] eqn:E;
      [|unfold memcpy in E; case_decide; [done|lia]].
    eapply wp_checked; [done|]. destruct (Z.ltb_spec (Z.of_nat (length d)) 0); [lia|].
    destruct (Z.eqb_spec (Z.of_nat (length d)) 0); [lia|].
    destruct (FD_SET_spec STDOUT_FILENO wset ltac:(done)) as (w & -> & _). eapply wp_checked; [done|].
    apply ends_pure. constructor; [done|]. rewrite Nat2Z.id.
    constructor; cbn [to toiptr tooptr fr friptr froptr stdineof s1 after trace]; try done.
    + constructor; [by rewrite (memcpy_length _ _ _ _ E)|lia|lia].
    + rewrite received_cons, sent_cons, read_data_ne by (unfold STDIN_FILENO; lia).
      by rewrite !app_nil_r.
    + rewrite received_cons, sent_cons, app_nil_r, (window_memcpy (fr v) fr' d) by (done || lia).
      by rewrite read_data_eq, Hdt, Hsh, app_assoc.
    + intros. by apply stdin_ended_cons, Heof.
  - rewrite memcpy_nil by lia. eapply wp_checked; [done|]. cbn [Z.ltb Z.eqb Z.compare].
    assert (Hat1 : nb_at v s1) by (constructor; [done|]; apply inv_no_data; [left; eauto|done]).
    destruct (stdineof v) eqn:Ee.
    + apply ends_pure. split_and!; [done|done|]. exists n, r. split_and!; [done..|by constructor].
    + apply ends_err_quit; [apply nb_always_output|done|done|by eapply nb_inv_always, at_inv].
  - rewrite memcpy_nil by lia. eapply wp_checked; [done|]. cbn [Z.ltb Z.compare].
    assert (Hat1 : nb_at v s1) by (constructor; [done|]; apply inv_no_data; [left; eauto|done]).
    by apply (would_block v).
  - rewrite memcpy_nil by lia. eapply wp_checked; [done|]. cbn [Z.ltb Z.compare].
    assert (Hat1 : nb_at v s1) by (constructor; [done|]; apply inv_no_data; [left; eauto|done]).
    by apply (would_block v).
Qed.

(** The window after a write that took [k] bytes of it. *)
Lemma write_window buf i o k r fd h rest :
  buffer_ok buf i o -> Z.of_nat k = rv r -> (o + k <= i)%nat ->
  rest = sent fd h ++ window buf o i ->
  rest = sent fd ((sys_write fd (window buf o i), r) :: h) ++ window buf (o + k) i.
Proof.
  intros [] Hk Hle ->. rewrite sent_cons, write_data_eq, <- app_assoc. f_equal.
  replace (Z.to_nat (rv r)) with k by lia. apply window_advance. lia.
Qed.

Lemma write_result fd buf i o s :
  buffer_ok buf i o -> (o < i)%nat ->
  let r := answer (sys_write fd (window buf o i)) s in
  rv r < 0 \/ exists k, Z.of_nat k = rv r /\ (o + k <= i)%nat.
Proof.
  intros [] Hlt. cbv zeta. pose proof (write_law (trace s) fd (window buf o i)) as Hw.
  fold (answer (sys_write fd (window buf o i)) s) in Hw. cbv zeta in Hw.
  rewrite window_length in Hw by lia. destruct Hw as [[-> _]|Hw]; [left; lia|right].
  exists (Z.to_nat (rv (answer (sys_write fd (window buf o i)) s))). lia.
Qed.

Lemma write_stdout_spec v s : nb_at v s -> wp (write_stdout v) (goes nb_at) s.
Proof.
  intros Hat. pose proof Hat as [Hd Hinv]. pose proof Hinv as [Hto Hfr Hs Hsh Hfin Heof].
  unfold write_stdout. destruct (Z.gtb_spec (Z.of_nat (friptr v) - Z.of_nat (froptr v)) 0) as [Hn|];
    [|done]. fold (window (fr v) (froptr v) (friptr v)).
  apply wp_then, wp_sys. cbn [andthen]. set (c := sys_write _ _). set (r := answer c s).
  destruct (write_result STDOUT_FILENO (fr v) (friptr v) (froptr v) s Hfr ltac:(lia))
    as [Hv|(k & Hk & Hle)].
  - fold c in Hv. fold r in Hv. rewrite (proj2 (Z.ltb_lt _ _) Hv).
    assert (Hat1 : nb_at v (after c r s))
      by (constructor; [done|]; apply inv_no_data; [right; eexists _, _; split; [done|lia]|done]).
    by apply (would_block v).
  - fold c in Hk. fold r in Hk. rewrite (proj2 (Z.ltb_ge (rv r) 0) ltac:(lia)).
    replace (Z.to_nat (rv r)) with k by lia.
    pose proof (write_window _ _ _ k r STDOUT_FILENO (trace s) _ Hfr Hk Hle Hsh) as Hsh1. fold c in Hsh1.
    assert (Hto1 : received STDIN_FILENO ((c, r) :: trace s) =
      sent sockfd ((c, r) :: trace s) ++ window (to v) (tooptr v) (toiptr v)).
    { rewrite received_cons, sent_cons. unfold c.
      rewrite write_data_ne by (unfold STDOUT_FILENO; lia). by rewrite !app_nil_r. }
    assert (Hr1 : received sockfd ((c, r) :: trace s) = received sockfd (trace s))
      by (rewrite received_cons; apply app_nil_r).
    destruct Hfr as [Hl Hb Hz].
    destruct (Nat.eqb_spec (froptr v + k) (friptr v)) as [E|E]; apply ends_pure;
      (constructor; [done|]); constructor;
      cbn [to toiptr tooptr fr friptr froptr stdineof after trace]; try done.
    + constructor; [done|lia|done].
    + rewrite window_empty, Hr1. by rewrite E, window_empty in Hsh1.
    + intros. by apply stdin_ended_cons, Heof.
    + constructor; [done|lia|done].
    + by rewrite Hr1.
    + intros. by apply stdin_ended_cons, Heof.
Qed.

Lemma write_socket_spec v s : nb_at v s -> wp (write_socket sockfd v) (goes nb_at) s.
Proof.
  intros Hat. pose proof Hat as [Hd Hinv]. pose proof Hinv as [Hto Hfr Hs Hsh Hfin Heof].
  unfold write_socket. destruct (Z.gtb_spec (Z.of_nat (toiptr v) - Z.of_nat (tooptr v)) 0) as [Hn|];
    [|done]. fold (window (to v) (tooptr v) (toiptr v)).
  apply wp_then, wp_sys. cbn [andthen]. set (c := sys_write _ _). set (r := answer c s).
  assert (Hfin0 : fins sockfd ((c, r) :: trace s) = 0%nat).
  { rewrite fins_cons, Hfin. destruct (Nat.eqb_spec (tooptr v) (toiptr v)); [lia|].
    by destruct (stdineof v). }
  destruct (write_result sockfd (to v) (toiptr v) (tooptr v) s Hto ltac:(lia)) as [Hv|(k & Hk & Hle)].
  - fold c in Hv. fold r in Hv. rewrite (proj2 (Z.ltb_lt _ _) Hv).
    assert (Hat1 : nb_at v (after c r s))
      by (constructor; [done|]; apply inv_no_data; [right; eexists _, _; split; [done|lia]|done]).
    by apply (would_block v).
  - fold c in Hk. fold r in Hk. rewrite (proj2 (Z.ltb_ge (rv r) 0) ltac:(lia)).
    replace (Z.to_nat (rv r)) with k by lia.
    pose proof (write_window _ _ _ k r sockfd (trace s) _ Hto Hk Hle Hs) as Hs1. fold c in Hs1.
    assert (Hsh1 : received sockfd ((c, r) :: trace s) =
      sent STDOUT_FILENO ((c, r) :: trace s) ++ window (fr v) (froptr v) (friptr v)).
    { rewrite received_cons, sent_cons. unfold c.
      rewrite write_data_ne by (unfold STDOUT_FILENO; lia). by rewrite !app_nil_r. }
    assert (Hr1 : received STDIN_FILENO ((c, r) :: trace s) = received STDIN_FILENO (trace s))
      by (rewrite received_cons; apply app_nil_r).
    assert (Heof1 : stdineof v = true -> stdin_ended ((c, r) :: trace s))
      by (intros; by apply stdin_ended_cons, Heof).
    destruct Hto as [Hl Hb Hz].
    destruct (Nat.eqb_spec (tooptr v + k) (toiptr v)) as [E|E].
    + rewrite E, window_empty, app_nil_r in Hs1. destruct (stdineof v) eqn:Ee.
      * set (v' := with_to v (to v) 0 0 true).
        eapply (ends_then _ _ _ _ (fun _ s2 => nb_at v' s2)).
        -- apply (announce v'); try done; [by apply Heof1|exact (eq_trans Hr1 Hs1)|constructor; [exact Hl|cbn [v' with_to toiptr tooptr]; lia|done]].
        -- intros _ s2 H2. by apply ends_pure.
      * eapply (ends_then _ _ _ _ (fun _ s2 => s2 = after c r s)); [done|]. intros _ s2 ->.
        apply ends_pure. constructor; [done|].
        constructor; cbn [to toiptr tooptr fr friptr froptr stdineof after trace]; try done.
        -- constructor; [done|lia|done].
        -- by rewrite window_empty, app_nil_r, Hr1.
    + apply ends_pure. constructor; [done|].
      constructor; cbn [to toiptr tooptr fr friptr froptr stdineof after trace]; try done.
      * constructor; [done|lia|done].
      * by rewrite Hr1.
      * rewrite Hfin0, (proj2 (Nat.eqb_neq _ _) E). by destruct (stdineof v).
Qed.

Context {SL : SelectLaw}.

(** The sets handed to [select]: what is asked for, and that it is never nothing. *)
Lemma nb_sets_spec v h :
  inv v h ->
  exists rset wset, nb_rset sockfd v = Some rset /\ nb_wset sockfd v = Some wset /\
    (STDIN_FILENO ∈ rset -> stdineof v = false /\ (toiptr v < Z.to_nat MAXLINE)%nat) /\
    (sockfd ∈ rset -> (friptr v < Z.to_nat MAXLINE)%nat) /\
    (sockfd ∈ rset \/ STDOUT_FILENO ∈ wset).
Proof.
  intros [_ [Hl Hb Hz] _ _ _ _].
  destruct (FD_SET_spec STDIN_FILENO [] ltac:(done)) as (r0 & E0 & H0).
  assert (Hr : exists r1, (if negb (stdineof v) && (Z.of_nat (toiptr v) <? MAXLINE)
      then FD_SET STDIN_FILENO [] else Some []) = Some r1 /\
    forall x, x ∈ r1 -> x = STDIN_FILENO /\ stdineof v = false /\ Z.of_nat (toiptr v) < MAXLINE).
  { rewrite E0. destruct (stdineof v), (Z.ltb_spec (Z.of_nat (toiptr v)) MAXLINE); cbn [negb andb];
      eexists; (split; [done|]); intros x Hx; try by apply elem_of_nil in Hx.
    apply H0 in Hx as [->|Hx]; [done|by apply elem_of_nil in Hx]. }
  destruct Hr as (r1 & E1 & H1).
  destruct (FD_SET_spec sockfd r1 ltac:(lia)) as (r2 & E2 & H2).
  assert (Hw : exists w0, (if negb (tooptr v =? toiptr v)%nat then FD_SET sockfd [] else Some []) = Some w0).
  { destruct (FD_SET_spec sockfd [] ltac:(lia)) as (w & -> & _).
    destruct (tooptr v =? toiptr v)%nat; cbn [negb]; by eexists. }
  destruct Hw as (w0 & E3). destruct (FD_SET_spec STDOUT_FILENO w0 ltac:(done)) as (w1 & E4 & H4).
  unfold nb_rset, nb_wset. rewrite E1, E3. cbn [mbind option_bind]. rewrite E2, E4.
  exists (if Z.of_nat (friptr v) <? MAXLINE then r2 else r1),
    (if negb (froptr v =? friptr v)%nat then w1 else w0).
  split_and!; [by destruct (Z.of_nat (friptr v) <? MAXLINE)|by destruct (froptr v =? friptr v)%nat|..].
  - destruct (Z.ltb_spec (Z.of_nat (friptr v)) MAXLINE); [intros [Hx|Hx]%H2|intros Hx];
      [unfold STDIN_FILENO in Hx; lia|..]; apply H1 in Hx; unfold MAXLINE in *; split; try tauto; lia.
  - destruct (Z.ltb_spec (Z.of_nat (friptr v)) MAXLINE); [unfold MAXLINE in *; lia|].
    intros [Hx _]%H1. unfold STDIN_FILENO in Hx. lia.
  - destruct (Z.ltb_spec (Z.of_nat (friptr v)) MAXLINE); [left; apply H2; by left|right].
    destruct (Nat.eqb_spec (froptr v) (friptr v)) as [E|_]; [specialize (Hz E); unfold MAXLINE in *; lia|].
    apply H4. by left.
Qed.

(** What [str_cli] has done when it returns. *)
Definition nb_result (q : flow nbstate nbstate) (s : st) : Prop :=
  match q with
  | Next v | Break v => nb_at v s
  | Return v => nb_at v s /\ stdineof v = true /\ server_done (trace s)
  end.

Lemma nb_idle_call v c bad msg s (Q : sysret -> st -> Prop) :
  nb_at v s -> plain msg = true -> idle_call c = true ->
  (bad (rv (answer c s)) = false -> nb_at v (after c (answer c s) s) ->
     Q (answer c s) (after c (answer c s) s)) ->
  wp (call c bad msg) (goes Q) s.
Proof.
  intros [Hd Hi] Hp Hc HQ.
  assert (Hat : nb_at v (after c (answer c s) s)) by (constructor; [done|by apply nb_inv_idle]).
  apply ends_call; [apply nb_always_output|done|done|by eapply nb_inv_always, at_inv|auto].
Qed.

Lemma nb_round_spec v s : nb_at v s -> wp (nb_round sockfd v) (goes nb_result) s.
Proof.
  intros Hat. pose proof (at_inv _ _ Hat) as Hinv.
  destruct (nb_sets_spec v _ Hinv) as (rset & wset & Er & Ew & Hin & Hsk & _).
  unfold nb_round. eapply wp_checked; [exact Er|]. eapply wp_checked; [exact Ew|].
  unfold Select. set (c := sys_select _ _ _ _ _).
  eapply (ends_then _ _ _ _ (fun r s1 => nb_at v s1 /\ rset_of r ⊆ rset)).
  { apply (nb_idle_call v); [done..|]. unfold negative. intros Hb%Z.ltb_ge Hat1. split; [done|].
    by destruct (select_law (trace s) _ _ _ _ Hb) as (_ & ? & _). }
  intros r s1 [Hat1 Hsub]. eapply wp_checked; [by apply FD_ISSET_spec|].
  eapply (ends_then _ _ _ _ (fun p s2 => nb_at p.1 s2 /\ friptr p.1 = friptr v)).
  { case_bool_decide as Hi; [|done]. destruct (Hin (Hsub _ Hi)). by apply read_stdin_spec. }
  intros [v1 w1] s2 [Hat2 Hf]. cbn [fst] in *. eapply wp_checked; [apply FD_ISSET_spec; lia|].
  eapply (ends_then _ _ _ _ (fun q s3 => match q with
    | Return v' => nb_at v' s3 /\ stdineof v' = true /\ server_done (trace s3)
    | Next (v', _) | Break (v', _) => nb_at v' s3 end)).
  { case_bool_decide as Hi; [|done]. apply read_socket_spec; [done|]. rewrite Hf. by apply Hsk, Hsub. }
  assert (Hwrites : forall v2 w2 s3, nb_at v2 s3 -> wp (
      out_ready <~ checked (FD_ISSET STDOUT_FILENO w2) ;;
      v <~ (if out_ready : bool then write_stdout v2 else mpure v2) ;;
      send_ready <~ checked (FD_ISSET sockfd w2) ;;
      v <~ (if send_ready : bool then write_socket sockfd v else mpure v) ;;
      mpure (Next v)) (goes nb_result) s3).
  { intros v2 w2 s3 H3. eapply wp_checked; [by apply FD_ISSET_spec|].
    eapply (ends_then _ _ _ _ nb_at); [case_bool_decide; [by apply write_stdout_spec|done]|].
    intros v4 s4 H4. eapply wp_checked; [apply FD_ISSET_spec; lia|].
    eapply (ends_then _ _ _ _ nb_at); [case_bool_decide; [by apply write_socket_spec|done]|].
    by intros. }
  intros [[v2 w2]|[v2 w2]|v2] s3 H3; [by apply Hwrites..|by apply ends_pure].
Qed.

Lemma nb_loop_spec rounds v s : nb_at v s -> wp (nb_loop sockfd rounds v) (goes nb_result) s.
Proof.
  revert v s. induction rounds as [|k IH]; intros v s Hat; [done|]. cbn [nb_loop].
  eapply ends_then; [by apply nb_round_spec|]. intros [v1|v1|v1] s1 H1; [by apply IH..|done].
Qed.

Lemma set_nonblock_spec fd v s (Q : unit -> st -> Prop) :
  nb_at v s -> (forall s', nb_at v s' -> Q tt s') -> wp (set_nonblock fd) (goes Q) s.
Proof.
  intros Hat HQ. unfold set_nonblock, Fcntl.
  eapply (ends_then _ _ _ _ (fun _ s1 => nb_at v s1)).
  { eapply (ends_then _ _ _ _ (fun _ s1 => nb_at v s1)); [by apply (nb_idle_call v)|done]. }
  intros val s1 H1. eapply (ends_then _ _ _ _ (fun _ s2 => nb_at v s2)).
  { eapply (ends_then _ _ _ _ (fun _ s2 => nb_at v s2)); [by apply (nb_idle_call v)|done]. }
  intros. by apply ends_pure, HQ.
Qed.

Lemma str_cli_nonb_spec rounds s :
  nb_at nb_init s -> wp (str_cli_nonb sockfd rounds) (goes nb_result) s.
Proof.
  intros Hat. unfold str_cli_nonb.
  do 3 (eapply (ends_then _ _ _ _ (fun _ s1 => nb_at nb_init s1));
        [by eapply set_nonblock_spec|clear s Hat; intros _ s Hat]).
  by apply nb_loop_spec.
Qed.
End Steps.
