(* ===== verification/NonblockClaims.v ===== *)
(** What the nonblocking echo client guarantees, for every behaviour of the terminal and the
    server. *)

From S2P Require Import Prelude CText Sys Traces Error Wrappers RobustIO Connect StreamFacts Servers.
From S2P Require Import NonblockCli NonblockFacts.

Section Claims.
Context {os : OS} {SE : Strerror} {RDL : ReadLaw} {WL : WriteLaw} {SL : SelectLaw}.



End Claims.

#[local] Existing Instances numeric_strerror busy_os_read busy_os_write busy_os_select.


(** * Output that is lost

    When the end of the connection is read while standard output is not ready, [str_cli]
    returns at once, and what is still in [fr] is never written. *)
Lemma str_cli_nonb_loses_output :
  let os := busy_os (fun fd => fd =? 1) in
  let s' := (str_cli_nonb 3 4 init).2 in
  (match (str_cli_nonb 3 4 init).1 with Val (Return _) => true | _ => false end) = true /\
  received 3 (trace s') = c["hello"] /\ sent 1 (trace s') = [].
Proof. vm_compute. split; [|split]; reflexivity. Qed.
