(* ===== verification/SelectCli.v ===== *)
(** The echo clients with [select]: [select/strcliselect01.c] and [select/strcliselect02.c].

    Both call [str_cli(stdin, sockfd)].  The first version reads lines with standard I/O and
    [Readline]; the second reads and writes the descriptors and announces the end of its input
    with [shutdown].  The second is shown to copy everything in both directions. *)

From S2P Require Import Prelude CText Sys Traces Error Wrappers RobustIO InetAddr Connect StreamFacts Servers.
From S2P Require Import NonblockCli NonblockFacts.

Section SelectClient.
Context {os : OS} {SE : Strerror}.
Context (wfuel : nat) (sockfd : Z).

(** [max(fileno(fp), sockfd) + 1] *)
Definition maxfdp1 : Z := Z.max STDIN_FILENO sockfd + 1.

(** [strcliselect02.c]: the socket is readable. *)
Definition copy_reply (stdineof : bool) : M (flow unit unit) :=
  r <~ Read sockfd MAXLINE ;;
  buf <~ checked (memcpy (replicate (Z.to_nat MAXLINE) 0) 0 (rbytes r)) ;;
  if rv r =? 0 then
    if stdineof then mpure (Return tt)                   (* normal termination *)
    else err_quit c["str_cli: server terminated prematurely"] []
  else Write STDOUT_FILENO (slice buf 0 (rv r)) ;;; mpure (Next tt).

(** Input is readable. *)
Definition copy_input (stdineof : bool) (rset : list Z) : M (bool * list Z) :=
  r <~ Read STDIN_FILENO MAXLINE ;;
  buf <~ checked (memcpy (replicate (Z.to_nat MAXLINE) 0) 0 (rbytes r)) ;;
  if rv r =? 0 then
    Shutdown sockfd SHUT_WR ;;;                          (* send FIN *)
    rset <~ checked (FD_CLR STDIN_FILENO rset) ;;
    mpure (true, rset)
  else Writen wfuel sockfd buf (rv r) ;;; mpure (stdineof, rset).

(** One iteration, with the variables [stdineof] and [rset] that live across iterations. *)
Definition select_round (v : bool * list Z) : M (flow (bool * list Z) unit) :=
  let '(stdineof, rset) := v in
  rset <~ checked (if stdineof then Some rset else FD_SET STDIN_FILENO rset) ;;
  rset <~ checked (FD_SET sockfd rset) ;;
  r <~ Select maxfdp1 rset [] [] None ;;
  sock_ready <~ checked (FD_ISSET sockfd (rset_of r)) ;;
  q <~ (if sock_ready : bool then copy_reply stdineof else mpure (Next tt)) ;;
  match q with
  | Return _ => mpure (Return tt)
  | _ =>
      in_ready <~ checked (FD_ISSET STDIN_FILENO (rset_of r)) ;;
      v <~ (if in_ready : bool then copy_input stdineof (rset_of r) else mpure (stdineof, rset_of r)) ;;
      mpure (Next v)
  end.

Fixpoint select_loop (rounds : nat) (v : bool * list Z) : M (flow (bool * list Z) unit) :=
  match rounds with
  | O => mpure (Next v)
  | S k =>
      q <~ select_round v ;;
      match q with
      | Next v | Break v => select_loop k v
      | Return u => mpure (Return u)
      end
  end.

(** [str_cli] of [strcliselect02.c], observed after [rounds] iterations of its loop. *)
Definition str_cli_select02 (rounds : nat) : M (flow (bool * list Z) unit) := select_loop rounds (false, []).

(** [strcliselect01.c]: one iteration, with the buffer of [Readline] and the set. *)
Definition line_round (v : rline * list Z) : M (flow (rline * list Z) rline) :=
  let '(rl, rset) := v in
  rset <~ checked (FD_SET STDIN_FILENO rset) ;;
  rset <~ checked (FD_SET sockfd rset) ;;
  r <~ Select maxfdp1 rset [] [] None ;;
  sock_ready <~ checked (FD_ISSET sockfd (rset_of r)) ;;
  rl <~ (if sock_ready : bool then
           x <~ Readline wfuel rl sockfd (replicate (Z.to_nat MAXLINE) 0) MAXLINE ;;
           let '(n, recvline, rl) := x in
           if n =? 0 then err_quit c["str_cli: server terminated prematurely"] []
           else Fputs (cstring_at recvline 0) stdout ;;; mpure rl
         else mpure rl) ;;
  in_ready <~ checked (FD_ISSET STDIN_FILENO (rset_of r)) ;;
  if in_ready : bool then
    sendline <~ Fgets MAXLINE stdin ;;
    match sendline with
    | None => mpure (Return rl)                          (* all done *)
    | Some line => Writen wfuel sockfd line (Z.of_nat (length line)) ;;; mpure (Next (rl, rset_of r))
    end
  else mpure (Next (rl, rset_of r)).

Fixpoint str_cli_select01 (rounds : nat) (v : rline * list Z) : M (flow (rline * list Z) rline) :=
  match rounds with
  | O => mpure (Next v)
  | S k =>
      q <~ line_round v ;;
      match q with
      | Next v | Break v => str_cli_select01 k v
      | Return rl => mpure (Return rl)
      end
  end.
End SelectClient.

(** * The invariant *)

Section Facts.
Context {os : OS} {SE : Strerror} {RDL : ReadLaw} {WL : WriteLaw} {SL : SelectLaw}.
Context (wfuel : nat) (sockfd : Z) (Hsock : 2 <= sockfd < FD_SETSIZE).

(** Between two iterations everything that was read has been written. *)
Record copied (eof : bool) (h : list event) : Prop := {
  cp_sent : received STDIN_FILENO h = sent sockfd h;
  cp_shown : received sockfd h = sent STDOUT_FILENO h;
  cp_fin : fins sockfd h = if eof then 1%nat else 0%nat;
  cp_eof : eof = true -> stdin_ended h;
}.

Record copying (eof : bool) (rset : list Z) (s : st) : Prop := {
  cy_foreground : daemon_proc s = 0;
  cy_copied : copied eof (trace s);
  cy_set : eof = true -> STDIN_FILENO ∉ rset;
}.

(** The fuel for one [Writen] was not enough. *)
Definition write_starved (h : list event) : Prop := Z.of_nat wfuel < MAXLINE + Z.of_nat (interrupts h).

Abbreviation goes := (ends (nb_always sockfd) write_starved).

Lemma copied_always eof h : copied eof h -> nb_always sockfd h.
Proof using Type.
  intros [Hs Hh Hf He]. split; [by rewrite Hs|by rewrite Hh|]. rewrite Hf. destruct eof; [right|by left].
  split_and!; [done|done|by apply He].
Qed.

Lemma copied_idle eof c r h : idle_call c = true -> copied eof h -> copied eof ((c, r) :: h).
Proof using Type.
  intros Hc []. destruct (idle_effects sockfd c r h Hc) as (Hr & Hs & Hf).
  split; rewrite ?Hr, ?Hs, ?Hf; try done. intros. by apply stdin_ended_cons, cp_eof0.
Qed.

(** A chunk is read from one side and written to the other. *)
Lemma chunk_history fd fd' n r evs h :
  fd <> fd' -> Forall (writing fd') evs ->
  let h' := evs ++ (sys_read fd n, r) :: h in
  received fd h' = received fd h ++ rbytes r /\ sent fd' h' = sent fd' h ++ sent fd' evs /\
  (forall x, x <> fd -> received x h' = received x h) /\ (forall x, x <> fd' -> sent x h' = sent x h) /\
  fins sockfd h' = fins sockfd h.
Proof using Type.
  intros Hne Hw h'. unfold h'. split_and!.
  - rewrite received_app, (received_of_writing fd' fd evs Hw), app_nil_r, received_cons, read_data_eq. done.
  - rewrite sent_app, sent_cons. cbn. by rewrite app_nil_r.
  - intros x Hx. rewrite received_app, (received_of_writing fd' x evs Hw), app_nil_r, received_cons, read_data_ne by done.
    apply app_nil_r.
  - intros x Hx. rewrite sent_app, (sent_of_writing fd' x evs Hw Hx), app_nil_r, sent_cons. apply app_nil_r.
  - assert (Hz : Forall (fun e => is_fin sockfd e = false) evs).
    { eapply Forall_impl; [exact Hw|]. intros [c x] [[d Hd]|Ho]; cbn in *; [by rewrite Hd|by destruct c]. }
    clear Hw. induction Hz as [|e evs He _ IH]; cbn [app]; rewrite fins_cons; [done|]. by rewrite He, IH.
Qed.

(** The two directions. *)
Definition direction (eof : bool) (fd fd' : Z) : Prop :=
  fd = STDIN_FILENO /\ fd' = sockfd /\ eof = false \/ fd = sockfd /\ fd' = STDOUT_FILENO.

Lemma stdin_ended_app evs h : stdin_ended h -> stdin_ended (evs ++ h).
Proof using Type. intros H. induction evs; [done|by apply stdin_ended_cons]. Qed.

Lemma chunk_always eof fd fd' n r evs h :
  copied eof h -> direction eof fd fd' -> Forall (writing fd') evs -> sent fd' evs `prefix_of` rbytes r ->
  nb_always sockfd (evs ++ (sys_read fd n, r) :: h).
Proof using Hsock.
  intros [Hs Hh Hf He] Hd Hw Hp. unfold direction, STDIN_FILENO, STDOUT_FILENO in *.
  destruct (chunk_history fd fd' n r evs h ltac:(lia) Hw) as (H1 & H2 & H3 & H4 & H5).
  destruct Hd as [(-> & -> & ->)|[-> ->]]; split; unfold STDIN_FILENO, STDOUT_FILENO.
  - rewrite H1, H2, Hs. by apply prefix_app.
  - rewrite H3, H4, Hh by lia. done.
  - left. by rewrite H5.
  - rewrite H3, H4, Hs by lia. done.
  - rewrite H1, H2, Hh. by apply prefix_app.
  - rewrite H5, Hf. destruct eof; [right|by left]. rewrite H3, H4 by lia. split_and!; [done|done|].
    apply stdin_ended_app, stdin_ended_cons. by apply He.
Qed.

Lemma chunk_copied eof fd fd' n r evs h :
  copied eof h -> direction eof fd fd' -> Forall (writing fd') evs -> sent fd' evs = rbytes r ->
  copied eof (evs ++ (sys_read fd n, r) :: h).
Proof using Hsock.
  intros [Hs Hh Hf He] Hd Hw Hp. unfold direction, STDIN_FILENO, STDOUT_FILENO in *.
  destruct (chunk_history fd fd' n r evs h ltac:(lia) Hw) as (H1 & H2 & H3 & H4 & H5).
  split; unfold STDIN_FILENO, STDOUT_FILENO; [..|by rewrite H5|intros; by apply stdin_ended_app, stdin_ended_cons, He];
    destruct Hd as [(-> & -> & ->)|[-> ->]].
  - by rewrite H1, H2, Hs, Hp.
  - rewrite H3, H4 by lia. done.
  - rewrite H3, H4 by lia. done.
  - by rewrite H1, H2, Hh, Hp.
Qed.

(** [Read] into the buffer. *)
Lemma read_chunk {B} eof fd fd' s (k : sysret -> list Z -> M B) (Q : B -> st -> Prop) :
  daemon_proc s = 0 -> copied eof (trace s) -> direction eof fd fd' ->
  (forall r buf, rv r = Z.of_nat (length (rbytes r)) -> rv r <= MAXLINE -> rv r <= Z.of_nat (length buf) ->
     slice buf 0 (rv r) = rbytes r -> wp (k r buf) (goes Q) (after (sys_read fd MAXLINE) r s)) ->
  wp (r <~ Read fd MAXLINE ;; buf <~ checked (memcpy (replicate (Z.to_nat MAXLINE) 0) 0 (rbytes r)) ;; k r buf) (goes Q) s.
Proof using RDL Hsock.
  intros Hd Hc Hdir HQ. unfold Read. set (c := sys_read fd MAXLINE). set (r := answer c s).
  eapply (ends_then _ _ _ _ (fun r' s1 => r' = r /\ s1 = after c r s /\ minus1 (rv r) = false)).
  { apply ends_call; [apply nb_always_output|done|done| |done].
    apply (chunk_always eof fd fd' MAXLINE r []); [done|done|constructor|apply prefix_nil]. }
  intros ? ? (-> & -> & Hm). unfold minus1 in Hm.
  destruct (read_law (trace s) fd MAXLINE ltac:(done)) as [_ [[Hv _]|[Hv Hle]]].
  { fold c in Hv. change (os_answer (trace s) c) with r in Hv. by rewrite Hv in Hm. }
  fold c in Hv, Hle. change (os_answer (trace s) c) with r in Hv, Hle.
  eapply wp_checked; [apply memcpy_ok; rewrite length_replicate; lia|].
  apply HQ; [done|lia| |].
  - rewrite !length_app, length_take, length_drop, length_replicate. lia.
  - unfold slice. rewrite Hv, Nat2Z.id, drop_0, take_0. apply (take_app_length (rbytes r)).
Qed.

Lemma copy_reply_spec eof rset s :
  copying eof rset s ->
  wp (copy_reply sockfd eof) (goes (fun q s' => match q with
    | Return _ => copied eof (trace s') /\ eof = true /\ server_done sockfd (trace s')
    | _ => copying eof rset s' end)) s.
Proof using RDL WL Hsock.
  intros [Hd Hc Hs]. unfold copy_reply.
  eapply (read_chunk eof sockfd STDOUT_FILENO); [done|done|by right|]. intros r buf Hv Hle Hb Hsl.
  destruct (Z.eqb_spec (rv r) 0) as [E|E].
  - assert (Hc1 : copied eof (trace (after (sys_read sockfd MAXLINE) r s))).
    { apply (chunk_copied eof sockfd STDOUT_FILENO MAXLINE r []); [done|by right|constructor|].
      symmetry. apply length_zero_iff_nil. lia. }
    destruct eof.
    + apply ends_pure. split_and!; [done|done|]. exists MAXLINE, r. split_and!; [done|done|]. by constructor.
    + apply ends_err_quit; [apply nb_always_output|done|done|by eapply copied_always].
  - unfold Write. set (s1 := after _ r s). rewrite Hsl. set (c := sys_write _ _).
    assert (Hw : Forall (writing STDOUT_FILENO) [(c, answer c s1)]) by (apply Forall_singleton; left; by eexists).
    assert (Hsent : sent STDOUT_FILENO [(c, answer c s1)] = take (Z.to_nat (rv (answer c s1))) (rbytes r)).
    { rewrite sent_cons. unfold c. by rewrite write_data_eq. }
    eapply (ends_then _ _ _ _ (fun _ s2 => copying eof rset s2)); [|by intros; apply ends_pure].
    eapply (ends_then _ _ _ _ (fun r' s2 => s2 = after c (answer c s1) s1 /\ rv (answer c s1) = rv r)).
    { apply ends_call; [apply nb_always_output|done|done| |].
      - apply (chunk_always eof sockfd STDOUT_FILENO MAXLINE r [(c, answer c s1)]); [done|by right|done|].
        rewrite Hsent. apply prefix_take.
      - rewrite negb_false_iff. intros Hl%Z.eqb_eq. split; [done|]. by rewrite Hl, Hv. }
    intros r' s2 [-> Hl]. apply ends_pure. split; [done| |done].
    apply (chunk_copied eof sockfd STDOUT_FILENO MAXLINE r [(c, answer c s1)]); [done|by right|done|].
    rewrite Hsent, Hl, Hv, Nat2Z.id. by rewrite firstn_all.
Qed.

Lemma copy_input_spec rset s :
  copying false rset s -> wp (copy_input wfuel sockfd false rset) (goes (fun v s' => copying v.1 v.2 s')) s.
Proof using RDL WL Hsock.
  intros [Hd Hc _]. unfold copy_input.
  eapply (read_chunk false STDIN_FILENO sockfd); [done|done|by left|]. intros r buf Hv Hle Hb Hsl.
  set (s1 := after _ r s). destruct (Z.eqb_spec (rv r) 0) as [E|E].
  - assert (Hc1 : copied false (trace s1)).
    { apply (chunk_copied false STDIN_FILENO sockfd MAXLINE r []); [done|by left|constructor|].
      symmetry. apply length_zero_iff_nil. lia. }
    assert (Hend : stdin_ended (trace s1)) by (exists MAXLINE, r; split_and!; [done|done|by constructor]).
    unfold Shutdown. set (c := sys_shutdown sockfd SHUT_WR).
    assert (Hc2 : copied true (trace (after c (answer c s1) s1))).
    { destruct Hc1 as [H1 H2 H3 _]. split; cbn [after trace].
      - by rewrite received_cons, sent_cons, !app_nil_r.
      - by rewrite received_cons, sent_cons, !app_nil_r.
      - rewrite fins_cons, H3. cbn. by rewrite Z.eqb_refl.
      - intros _. by apply stdin_ended_cons. }
    eapply (ends_then _ _ _ _ (fun _ s2 => s2 = after c (answer c s1) s1)).
    { eapply (ends_then _ _ _ _ (fun _ s2 => s2 = after c (answer c s1) s1)); [|by intros; apply ends_pure].
      apply ends_call; [apply nb_always_output|done|done|by eapply copied_always|done]. }
    intros _ s2 ->. destruct (FD_CLR_spec STDIN_FILENO rset ltac:(done)) as (rset' & Er & Hr).
    eapply wp_checked; [exact Er|]. apply ends_pure. split; cbn [fst snd]; [done|done|]. intros _ [Hx _]%Hr. done.
  - apply wp_then. eapply wp_mono; [apply Writen_spec; [lia|done]|].
    intros o s2 (evs & Ht & Hw & Hp & Ho). rewrite Hsl in *.
    pose proof (chunk_always false STDIN_FILENO sockfd MAXLINE r evs (trace s) Hc ltac:(by left) Hw Hp) as Hal.
    change (_ :: trace s) with (trace s1) in Hal. rewrite <- Ht in Hal.
    destruct o as [[]| | | |]; try done; cbn [andthen ends].
    + destruct Ho as [Hsent Hd2]. apply ends_pure. split; cbn [fst snd]; [by rewrite Hd2| |done].
      rewrite Ht. apply (chunk_copied false STDIN_FILENO sockfd MAXLINE r evs); [done|by left|done|done].
    + by destruct Ho as [-> _].
    + split; [done|]. unfold write_starved. rewrite Ht, interrupts_app. lia.
Qed.

Definition select_result (q : flow (bool * list Z) unit) (s : st) : Prop :=
  match q with
  | Next v | Break v => copying v.1 v.2 s
  | Return _ => copied true (trace s) /\ server_done sockfd (trace s)
  end.

Lemma select_round_spec eof rset s :
  copying eof rset s ->
  wp (select_round wfuel sockfd (eof, rset)) (goes select_result) s.
Proof using RDL WL SL Hsock.
  intros [Hd Hc Hs]. unfold select_round.
  assert (exists rset1, (if eof then Some rset else FD_SET STDIN_FILENO rset) = Some rset1 /\ (eof = true -> STDIN_FILENO ∉ rset1))
    as (rset1 & E1 & H1).
  { destruct eof; [by exists rset|]. destruct (FD_SET_spec STDIN_FILENO rset ltac:(done)) as (r1 & -> & _). by exists r1. }
  eapply wp_checked; [exact E1|]. destruct (FD_SET_spec sockfd rset1 ltac:(lia)) as (rset2 & E2 & H2).
  eapply wp_checked; [exact E2|]. unfold Select. set (c := sys_select _ _ _ _ _).
  eapply (ends_then _ _ _ _ (fun r s1 => copying eof (rset_of r) s1)).
  { apply ends_call; [apply nb_always_output|done|done|by eapply copied_always, copied_idle|].
    unfold negative. intros Hb%Z.ltb_ge. split; [done|by apply copied_idle|].
    destruct (select_law (trace s) _ _ _ _ Hb) as (_ & Hsub & _). intros He Hin%Hsub%H2.
    destruct Hin as [Hx|Hx]; [unfold STDIN_FILENO in Hx; lia|by apply H1]. }
  intros r s1 Hcy. eapply wp_checked; [apply FD_ISSET_spec; lia|].
  eapply (ends_then _ _ _ _ (fun q s2 => match q with
    | Return _ => copied eof (trace s2) /\ eof = true /\ server_done sockfd (trace s2)
    | _ => copying eof (rset_of r) s2 end)).
  { case_bool_decide; [by apply copy_reply_spec|done]. }
  assert (Hin : forall s2, copying eof (rset_of r) s2 -> wp (
    in_ready <~ checked (FD_ISSET STDIN_FILENO (rset_of r)) ;;
    v <~ (if in_ready : bool then copy_input wfuel sockfd eof (rset_of r) else mpure (eof, rset_of r)) ;;
    mpure (Next v)) (goes select_result) s2).
  { intros s2 Hcy2. eapply wp_checked; [by apply FD_ISSET_spec|].
    eapply (ends_then _ _ _ _ (fun v s3 => copying v.1 v.2 s3)); [|by intros; apply ends_pure].
    case_bool_decide as Hin; [|by apply ends_pure]. destruct eof; [by destruct (cy_set _ _ _ Hcy2)|]. by apply copy_input_spec. }
  intros [[]|[]|[]] s2 Hq; [by apply Hin..|]. apply ends_pure. destruct Hq as (? & -> & ?). done.
Qed.

Lemma select_loop_spec rounds v s :
  copying v.1 v.2 s ->
  wp (select_loop wfuel sockfd rounds v) (goes select_result) s.
Proof using RDL WL SL Hsock.
  revert v s. induction rounds as [|k IH]; intros [eof rset] s Hcy; [done|]. cbn [select_loop].
  eapply ends_then; [by apply select_round_spec|]. intros [v1|v1|[]] s1 H1; [by apply IH..|done].
Qed.
End Facts.

(** * Properties *)

Section Claims.
Context {os : OS} {SE : Strerror} {RDL : ReadLaw} {WL : WriteLaw} {SL : SelectLaw}.

(** The process has not used the three descriptors for data yet. *)
Definition fresh_client (sockfd : Z) (h : list event) : Prop :=
  received STDIN_FILENO h = [] /\ sent STDOUT_FILENO h = [] /\
  received sockfd h = [] /\ sent sockfd h = [] /\ fins sockfd h = 0%nat.

(** C15: the client of [strcliselect02.c] copies everything both ways.  Observed after any number
    of iterations, whatever the terminal, the server and the calls do within their contracts:
    - between two iterations all that was read from standard input has been sent to the server,
      and all that was read from the server is on standard output;
    - the end of the data is announced to the server exactly once, as soon as standard input has
      ended, and standard input is not waited for any more;
    - [str_cli] returns only after both standard input and the connection have ended, so that no
      reply to a batch of input is lost;
    - an error ends the process with status 1, with prefixes of the data copied, and the fuel for
      one [Writen] is not enough only when it is less than the buffer plus the interrupted calls. *)
Theorem str_cli_select02_copies wfuel sockfd rounds s :
  2 <= sockfd < FD_SETSIZE -> daemon_proc s = 0 -> fresh_client sockfd (trace s) ->
  let '(o, s') := str_cli_select02 wfuel sockfd rounds s in
  let h := trace s' in
  match o with
  | Val q =>
      received STDIN_FILENO h = sent sockfd h /\ received sockfd h = sent STDOUT_FILENO h /\
      match q with
      | Return _ => stdin_ended h /\ server_done sockfd h /\ fins sockfd h = 1%nat
      | Next (eof, rset) | Break (eof, rset) =>
          if eof : bool then stdin_ended h /\ fins sockfd h = 1%nat /\ STDIN_FILENO ∉ rset else fins sockfd h = 0%nat
      end
  | Exited code =>
      code = 1 /\ sent sockfd h `prefix_of` received STDIN_FILENO h /\ sent STDOUT_FILENO h `prefix_of` received sockfd h /\
      (fins sockfd h <= 1)%nat
  | OutOfFuel => Z.of_nat wfuel < MAXLINE + Z.of_nat (interrupts h)
  | _ => False
  end.
Proof.
  intros Hsock Hd (H1 & H2 & H3 & H4 & H5).
  assert (Hcy : copying sockfd false [] s) by (split; [done|split; congruence|done]).
  pose proof (select_loop_spec wfuel sockfd Hsock rounds (false, []) s Hcy) as H. unfold wp in H.
  unfold str_cli_select02. destruct (select_loop _ _ _ _ s) as [o s']. cbv zeta. destruct o as [q| | | |]; cbn [ends] in H.
  - destruct q as [[eof rset]|[eof rset]|[]]; cbn [select_result fst snd] in H.
    1-2: destruct H as [_ [Hs Hh Hf He] Hset]; split_and!; [done|done|]; destruct eof; [|done]; split_and!; auto.
    destruct H as [[Hs Hh Hf He] Hdone]. split_and!; auto.
  - destruct H as [-> [Ha Hb Hc]]. split_and!; [done|done|done|]. destruct Hc as [->|[-> _]]; lia.
  - done.
  - done.
  - apply H.
Qed.
End Claims.

(** * Concrete runs *)

(** Standard input and the server deliver a greeting each, but the replies come only after the end of
    the input. *)
Definition batch_os : OS := fun h c =>
  match c with
  | sys_select _ rs ws _ _ =>
      let rs := if decide (STDIN_FILENO ∈ rs) then [STDIN_FILENO] else remove_dups rs in let ws := remove_dups ws in
      SR (Z.of_nat (length rs) + Z.of_nat (length ws)) None ws rs None
  | _ => busy_os (fun _ => false) h c
  end.

Lemma batch_os_read : @ReadLaw batch_os.
Proof. intros h fd n Hn. by apply (busy_os_read (fun _ => false) h fd n). Qed.
Lemma batch_os_write : @WriteLaw batch_os.
Proof. intros h fd d. by apply (busy_os_write (fun _ => false) h fd d). Qed.
Lemma batch_os_select : @SelectLaw batch_os.
Proof.
  intros h n rs ws t. cbv zeta. intros _. cbn. unfold rset_of, wset_of. cbn. case_decide as Hin; cbn.
  - split_and!; try apply NoDup_remove_dups; try done; [apply NoDup_singleton|by intros x ->%list_elem_of_singleton|].
    intros x. apply elem_of_remove_dups.
  - split_and!; try apply NoDup_remove_dups; try done; intros x; apply elem_of_remove_dups.
Qed.

#[local] Existing Instances numeric_strerror batch_os_read batch_os_write batch_os_select.

(** After eight iterations all has been copied and the client has returned. *)
Lemma str_cli_select02_copies_witness :
  let os := batch_os in
  sent 1 (trace (str_cli_select02 100 3 8 init).2) = c["hello"] /\
  match str_cli_select02 100 3 8 init with
  | (Val (Return _), s') => stdin_ended (trace s') /\ server_done 3 (trace s') /\ fins 3 (trace s') = 1%nat
  | _ => False
  end.
Proof.
  intros os.
  pose proof (str_cli_select02_copies (os := os) 100 3 8 init ltac:(done) eq_refl ltac:(done)) as H.
  assert (Hv : match str_cli_select02 100 3 8 init with (Val (Return _), _) => true | _ => false end = true)
    by (vm_compute; reflexivity).
  split; [vm_compute; reflexivity|]. revert Hv H.
  generalize (str_cli_select02 100 3 8 init). intros [[[v|v|v]| | | |] s'] Hv H; try discriminate Hv.
  destruct H as (_ & _ & H). exact H.
Defined.

(** The same environment with lines: one line of input and then its end. *)
Definition lines_os (ready : list Z) : OS := fun h c =>
  match c with
  | sys_select _ rs _ _ _ => SR (Z.of_nat (length ready)) None [] ready None
  | sys_fgets _ _ => if existsb (fun e => match e.1 with sys_fgets _ _ => true | _ => false end) h then ok 0 else SR 1 None (c["hi"] ++ [10]) [] None
  | sys_read _ _ => data (c["one"] ++ [10] ++ c["two"] ++ [10])
  | sys_write _ d => ok (Z.of_nat (length d))
  | _ => ok 0
  end.

(** [strcliselect01.c] returns at the end of its input although the reply to what it sent has not been
    read yet. *)
Lemma str_cli_select01_loses_reply :
  let os := lines_os [STDIN_FILENO] in
  let '(o, s') := str_cli_select01 100 3 2 (rline_init, []) init in
  (match o with Val (Return _) => true | _ => false end) = true /\
  sent 3 (trace s') = c["hi"] ++ [10] /\ received 3 (trace s') = [].
Proof. vm_compute. split; [|split]; reflexivity. Qed.

(** [strcliselect01.c] waits in [select] for the socket while a line that the server sent is in the
    buffer of [Readline]. *)
Lemma str_cli_select01_waits_with_line :
  let os := lines_os [3] in
  let '(o, s') := str_cli_select01 100 3 1 (rline_init, []) init in
  received 3 (trace s') = c["one"] ++ [10] ++ c["two"] ++ [10] /\
  match o with Val (Next (rl, _)) => unread rl = c["two"] ++ [10] | _ => False end.
Proof. vm_compute. split; reflexivity. Qed.
