(* ===== verification/SockTool.v ===== *)
(** The test tool [sock/]: its error reports ([sock/error.c]), the translation of line ends
    ([sock/crlf.c]), writing in chunks ([sock/write.c]), the test pattern ([sock/pattern.c]), pauses
    ([sock/sleepus.c]) and the TCP programs: the source ([sock/sourcetcp.c]), the sink
    ([sock/sinktcp.c]) and the loop that copies both ways ([sock/looptcp.c]).

    The tool is linked with its own [error.c] and with the [writen] of [lib/]. *)

From S2P Require Import Prelude CText Sys Traces Error Wrappers RobustIO Connect StreamFacts Servers NonblockCli.

(** * Definitions *)

Module SockError.
Section SockError.
Context {os : OS} {SE : Strerror}.

(** The message is put together in [buf[MAXLINE]] without a bound on its length. *)
Definition err_doit (errnoflag : bool) (fmt : cstring) (ap : list arg) : M unit :=
  let buf := replicate (Z.to_nat MAXLINE) 0 in
  errno_save <~ get_errno ;;
  text <~ checked (vformat fmt ap) ;;
  buf <~ checked (put_text buf 0 text) ;;
  buf <~ (if errnoflag
          then checked (put_text buf (length (cstring_at buf 0)) (c[": "] ++ strerror errno_save))
          else mpure buf) ;;
  buf <~ checked (put_text buf (length (cstring_at buf 0)) [10]) ;;
  sys (sys_fflush stdout) ;;;
  sys (sys_fputs (cstring_at buf 0) stderr) ;;;
  sys (sys_fflush stderr) ;;; mpure tt.

Definition err_ret (fmt : cstring) (ap : list arg) : M unit := err_doit true fmt ap.
Definition err_sys {A} (fmt : cstring) (ap : list arg) : M A := err_doit true fmt ap ;;; exit_ 1.
Definition err_dump {A} (fmt : cstring) (ap : list arg) : M A :=
  err_doit true fmt ap ;;; abort_ (A := unit) ;;; exit_ 1.
Definition err_msg (fmt : cstring) (ap : list arg) : M unit := err_doit false fmt ap.
Definition err_quit {A} (fmt : cstring) (ap : list arg) : M A := err_doit false fmt ap ;;; exit_ 1.
End SockError.
End SockError.
Import SockError.

(** The options of the command line that the modelled functions look at, and the limit that
    [<sys/uio.h>] or [write.c] defines. *)
Class SockOpts : Type := {
  chunkwrite : Z;
  crlf : Z;
  halfclose : Z;
  ignorewerr : Z;
  msgpeek : Z;
  nbuf : Z;
  pauseclose : Z;
  pauseinit : Z;
  pauserw : Z;
  readlen : Z;
  writelen : Z;
  urgwrite : Z;
  usewritev : Z;
  verbose : Z;
  UIO_MAXIOV : Z;
}.

Definition MSG_OOB : Z := 1.
Definition MSG_PEEK : Z := 2.

(** An [int] as a condition. *)
Definition is_set (v : Z) : bool := negb (v =? 0).

(** The product of two [int]s, undefined when it overflows. *)
Definition int_mul (a b : Z) : option Z :=
  if (- 2 ^ 31 <=? a * b) && (a * b <? 2 ^ 31) then Some (a * b) else None.

(** The [n] bytes at [buf + off], which have to be inside the array. *)
Definition bytes_of (buf : list Z) (off n : Z) : option (list Z) :=
  if (0 <=? off) && (0 <=? n) && (off + n <=? Z.of_nat (length buf)) then Some (slice buf (Z.to_nat off) n) else None.

Section SockTool.
Context {os : OS} {SE : Strerror} {SO : SockOpts}.

(** [fprintf (stderr, ...)] of what is going on, with [-v]. *)
Definition say (fmt : cstring) (ap : list arg) : M unit :=
  if is_set verbose then text <~ checked (vformat fmt ap) ;; sys (sys_fputs text stderr) ;;; mpure tt
  else mpure tt.

(** ** sleepus.c *)

Fixpoint sleep_us (fuel : nat) (nusecs : Z) : M unit :=
  match fuel with
  | O => no_fuel
  | S f =>
      r <~ sys (sys_select 0 [] [] [] (Some (nusecs / 1000000, nusecs mod 1000000))) ;;
      if rv r =? 0 then mpure tt                           (* all OK *)
      else
        e <~ get_errno ;;
        if e =? EINTR then sleep_us f nusecs
        else err_sys c["sleep_us: select error"] []
  end.

(** [if (ms) sleep_us (ms*1000)] *)
Definition pause (fuel : nat) (ms : Z) : M unit :=
  if is_set ms then us <~ checked (int_mul ms 1000) ;; sleep_us fuel (u32 us) else mpure tt.

(** ** crlf.c: [i] and [d] are the offsets reached in [src] and [dst] *)

Fixpoint crlf_add_loop (lenin : nat) (dst : list Z) (d : nat) (dstsize : Z) (src : list Z) (i : nat) (lenout : Z)
    : M (Z * list Z) :=
  match lenin with
  | O => mpure (lenout, dst)
  | S lenin =>
      c <~ checked (src !! i) ;;
      if c =? 10 then
        let lenout := lenout + 1 in
        if lenout >=? dstsize then err_quit c["crlf_add: destination not big enough"] []
        else
          dst <~ checked (store dst d 13) ;;
          dst <~ checked (store dst (S d) c) ;;
          crlf_add_loop lenin dst (S (S d)) dstsize src (S i) lenout
      else
        dst <~ checked (store dst d c) ;;
        crlf_add_loop lenin dst (S d) dstsize src (S i) lenout
  end.

(** Convert newline to return/newline. *)
Definition crlf_add (dst : list Z) (dstsize : Z) (src : list Z) (lenin : Z) : M (Z * list Z) :=
  if lenin >? dstsize then err_quit c["crlf_add: destination not big enough"] []
  else crlf_add_loop (Z.to_nat lenin) dst 0 dstsize src 0 lenin.

Fixpoint crlf_strip_loop (lenin : nat) (dst : list Z) (d : nat) (dstsize : Z) (src : list Z) (i : nat) (lenout : Z)
    : M (Z * list Z) :=
  match lenin with
  | O => mpure (lenout, dst)
  | S lenin =>
      c <~ checked (src !! i) ;;
      if negb (c =? 13) then
        let lenout := lenout + 1 in
        if lenout >=? dstsize then err_quit c["crlf_strip: destination not big enough"] []
        else
          dst <~ checked (store dst d c) ;;
          crlf_strip_loop lenin dst (S d) dstsize src (S i) lenout
      else crlf_strip_loop lenin dst d dstsize src (S i) lenout
  end.

Definition crlf_strip (dst : list Z) (dstsize : Z) (src : list Z) (lenin : Z) : M (Z * list Z) :=
  crlf_strip_loop (Z.to_nat lenin) dst 0 dstsize src 0 0.

(** ** write.c *)

(** The chunks: offset and length of each entry of [iov] that is filled; [None] when the loop ends
    with [i == UIO_MAXIOV].  [left] is [UIO_MAXIOV - i]. *)
Fixpoint fill_iov (left : nat) (ptr nleft chunksize : Z) : option (list (Z * Z)) :=
  match left with
  | O => None
  | S k =>
      let n := if nleft >=? chunksize then chunksize else nleft in
      if nleft - n =? 0 then Some [(ptr, n)]
      else cons (ptr, n) <$> fill_iov k (ptr + n) (nleft - n) chunksize
  end.

(** Try to use [UIO_MAXIOV] chunks. *)
Definition chunk_size (nbytes : Z) : Z :=
  let chunksize := nbytes / UIO_MAXIOV in
  if chunksize <=? 0 then 1
  else if negb (nbytes mod UIO_MAXIOV =? 0) then chunksize + 1 else chunksize.

Fixpoint write_iov (fd : Z) (vptr : list Z) (iov : list (Z * Z)) (ntotal : Z) : M Z :=
  match iov with
  | [] => mpure ntotal
  | (base, len) :: iov =>
      d <~ checked (bytes_of vptr base len) ;;
      r <~ sys (sys_write fd d) ;;
      if negb (rv r =? len) then mpure (-1) else write_iov fd vptr iov (ntotal + rv r)
  end.

(** The description of the chunks that [-v] prints is left out. *)
Definition dowrite (fd : Z) (vptr : list Z) (nbytes : Z) : M Z :=
  if negb (is_set chunkwrite) && negb (is_set usewritev) then
    d <~ checked (bytes_of vptr 0 nbytes) ;;
    r <~ sys (sys_write fd d) ;; mpure (rv r)                 (* common case *)
  else
    match fill_iov (Z.to_nat UIO_MAXIOV) 0 nbytes (chunk_size nbytes) with
    | None => err_quit c["i == UIO_MAXIOV"] []
    | Some iov =>
        if is_set usewritev then
          ds <~ checked (mapM (fun e => bytes_of vptr e.1 e.2) iov) ;;
          r <~ sys (sys_writev fd ds) ;; mpure (rv r)
        else write_iov fd vptr iov 0
    end.

(** ** pattern.c *)

(** [isprint] in the C locale. *)
Definition isprint (c : Z) : bool := (32 <=? c) && (c <=? 126).

(** [while (isprint((c & 0x7F)) == 0) c++], with a [char] of eight bits; at most 128 characters
    are tried. *)
Fixpoint skip_nonprinting (fuel : nat) (c : Z) : Z :=
  match fuel with
  | O => c
  | S f => if isprint (Z.land c 127) then c else skip_nonprinting f (u8 (c + 1))
  end.

Fixpoint pattern_loop (len : nat) (ptr : list Z) (p : nat) (c : Z) : option (list Z) :=
  match len with
  | O => Some ptr
  | S len =>
      let c := skip_nonprinting 128 c in
      ptr ← store ptr p (Z.land c 127);
      pattern_loop len ptr (S p) (u8 (c + 1))
  end.

Definition pattern (ptr : list Z) (len : Z) : option (list Z) := pattern_loop (Z.to_nat len) ptr 0 0.

(** The end of each of the TCP programs. *)
Definition finish (sfuel : nat) (sockfd : Z) : M unit :=
  (if is_set pauseclose then say (c["pausing before close"] ++ [10]) [] ;;; pause sfuel pauseclose else mpure tt) ;;;
  r <~ sys (sys_close sockfd) ;;
  if rv r <? 0 then err_sys c["close error"] [] else mpure tt.

(** ** sourcetcp.c: buffer number [i] and the following ones, [left] in all *)

Fixpoint source_loop (sfuel left : nat) (sockfd : Z) (wbuf : list Z) (i : Z) : M unit :=
  match left with
  | O => mpure tt
  | S k =>
      (if urgwrite =? i then
         r <~ sys (sys_send sockfd [u8 urgwrite] MSG_OOB) ;;
         if negb (rv r =? 1) then err_sys c["send of MSG_OOB returned %d, expected %d"] [AInt (rv r); AInt writelen]
         else say (c["wrote %d byte of urgent data"] ++ [10]) [AInt (rv r)]
       else mpure tt) ;;;
      d <~ checked (bytes_of wbuf 0 writelen) ;;
      r <~ sys (sys_write sockfd d) ;;
      (if negb (rv r =? writelen) then
         if is_set ignorewerr then
           err_ret c["write returned %d, expected %d"] [AInt (rv r); AInt writelen] ;;;
           g <~ sys (sys_getsockopt sockfd SOL_SOCKET SO_ERROR 4) ;;
           if rv g <? 0 then err_sys c["SO_ERROR getsockopt error"] [] else mpure tt
         else err_sys c["write returned %d, expected %d"] [AInt (rv r); AInt writelen]
       else say (c["wrote %d bytes"] ++ [10]) [AInt (rv r)]) ;;;
      pause sfuel pauserw ;;;
      source_loop sfuel k sockfd wbuf (i + 1)
  end.

Definition source_tcp (sfuel : nat) (sockfd : Z) (wbuf : list Z) : M unit :=
  wbuf <~ checked (pattern wbuf writelen) ;;
  pause sfuel pauseinit ;;;
  source_loop sfuel (Z.to_nat nbuf) sockfd wbuf 1 ;;;
  finish sfuel sockfd.

(** ** sinktcp.c *)

(** One [recv] with what follows it; [None] when the peer has closed the connection. *)
Definition sink_once (sfuel : nat) (sockfd flags : Z) (rbuf : list Z) : M (option (list Z)) :=
  r <~ sys (sys_recv sockfd readlen flags) ;;
  rbuf <~ checked (memcpy rbuf 0 (rbytes r)) ;;
  if rv r <? 0 then err_sys c["recv error"] []
  else if rv r =? 0 then say (c["connection closed by peer"] ++ [10]) [] ;;; mpure None
  else
    say (c["received %d bytes%s"] ++ [10]) [AInt (rv r); AStr (if flags =? MSG_PEEK then c[" (MSG_PEEK)"] else [])] ;;;
    pause sfuel pauserw ;;;
    mpure (Some rbuf).

(** [rounds] iterations; the value is [None] when the function has returned. *)
Fixpoint sink_loop (sfuel rounds : nat) (sockfd : Z) (rbuf : list Z) : M (option (list Z)) :=
  match rounds with
  | O => mpure (Some rbuf)
  | S k =>
      q <~ sink_once sfuel sockfd msgpeek rbuf ;;
      q <~ match q with
           | Some rbuf => if is_set msgpeek then sink_once sfuel sockfd 0 rbuf   (* read the message again *)
                          else mpure (Some rbuf)
           | None => mpure None
           end ;;
      match q with
      | Some rbuf => sink_loop sfuel k sockfd rbuf
      | None => mpure None
      end
  end.

Definition sink_tcp (sfuel rounds : nat) (sockfd : Z) (rbuf : list Z) : M (option (list Z)) :=
  pause sfuel pauseinit ;;;
  q <~ sink_loop sfuel rounds sockfd rbuf ;;
  match q with
  | Some rbuf => mpure (Some rbuf)
  | None => finish sfuel sockfd ;;; mpure None
  end.

(** ** looptcp.c *)

(** The variables that live across iterations: [stdineof], [rset] and the buffers [rbuf] and [wbuf]. *)
Record lstate : Type := LS {
  stdineof : bool;
  rset : list Z;
  rbuf : list Z;
  wbuf : list Z;
}.

Section Loop.
Context (sfuel wfuel : nat) (sockfd : Z).

(** Data to read on stdin: [Next] goes on to the socket, [Return] is [continue], [Break] leaves the
    loop. *)
Definition from_stdin (v : lstate) : M (flow lstate lstate) :=
  r <~ sys (sys_read STDIN_FILENO readlen) ;;
  rbuf <~ checked (memcpy (rbuf v) 0 (rbytes r)) ;;
  let v := LS (stdineof v) (rset v) rbuf (wbuf v) in
  if rv r <? 0 then err_sys c["read error from stdin"] []
  else if rv r =? 0 then                                      (* EOF on stdin *)
    if is_set halfclose then
      q <~ sys (sys_shutdown sockfd SHUT_WR) ;;
      if rv q <? 0 then err_sys c["shutdown() error"] []
      else
        rset <~ checked (FD_CLR STDIN_FILENO (rset v)) ;;
        mpure (Return (LS true rset rbuf (wbuf v)))
    else mpure (Break v)
  else if is_set crlf then
    p <~ crlf_add (wbuf v) writelen rbuf (rv r) ;;
    let '(ntowrite, wbuf) := p in
    n <~ dowrite sockfd wbuf ntowrite ;;
    if negb (n =? ntowrite) then err_sys c["write error"] []
    else mpure (Next (LS (stdineof v) (rset v) rbuf wbuf))
  else
    n <~ dowrite sockfd rbuf (rv r) ;;
    if negb (n =? rv r) then err_sys c["write error"] [] else mpure (Next v).

(** One [recv] from the socket, and the output of what it delivers. *)
Definition recv_once (flags : Z) (v : lstate) : M (flow lstate lstate) :=
  r <~ sys (sys_recv sockfd readlen flags) ;;
  rbuf <~ checked (memcpy (rbuf v) 0 (rbytes r)) ;;
  let v := LS (stdineof v) (rset v) rbuf (wbuf v) in
  if rv r <? 0 then err_sys c["recv error"] []
  else if rv r =? 0 then say (c["connection closed by peer"] ++ [10]) [] ;;; mpure (Break v)
  else if is_set crlf then
    p <~ crlf_strip (wbuf v) writelen rbuf (rv r) ;;
    let '(ntowrite, wbuf) := p in
    n <~ writen wfuel STDOUT_FILENO wbuf ntowrite ;;
    if negb (n =? ntowrite) then err_sys c["writen error to stdout"] []
    else mpure (Next (LS (stdineof v) (rset v) rbuf wbuf))
  else
    n <~ writen wfuel STDOUT_FILENO rbuf (rv r) ;;
    if negb (n =? rv r) then err_sys c["writen error to stdout"] [] else mpure (Next v).

Definition from_socket (v : lstate) : M (flow lstate lstate) :=
  q <~ recv_once msgpeek v ;;
  match q with
  | Next v => if is_set msgpeek then recv_once 0 v else mpure (Next v)   (* read the message again *)
  | q => mpure q
  end.

Definition loop_round (v : lstate) : M (flow lstate lstate) :=
  rset <~ checked (if stdineof v then Some (rset v) else FD_SET STDIN_FILENO (rset v)) ;;
  rset <~ checked (FD_SET sockfd rset) ;;
  r <~ sys (sys_select (sockfd + 1) rset [] [] None) ;;
  if rv r <? 0 then err_sys c["select error"] []
  else
    let v := LS (stdineof v) (rset_of r) (rbuf v) (wbuf v) in
    in_ready <~ checked (FD_ISSET STDIN_FILENO (rset_of r)) ;;
    q <~ (if in_ready : bool then from_stdin v else mpure (Next v)) ;;
    match q with
    | Next v =>
        sock_ready <~ checked (FD_ISSET sockfd (rset_of r)) ;;
        if sock_ready : bool then from_socket v else mpure (Next v)
    | Return v => mpure (Next v)
    | Break v => mpure (Break v)
    end.

Fixpoint loop_rounds (rounds : nat) (v : lstate) : M (flow lstate lstate) :=
  match rounds with
  | O => mpure (Next v)
  | S k =>
      q <~ loop_round v ;;
      match q with
      | Next v | Return v => loop_rounds k v
      | Break v => mpure (Break v)
      end
  end.

(** Copy everything from stdin to [sockfd], and everything from [sockfd] to stdout; observed after
    [rounds] iterations.  [Return] is the return of the function. *)
Definition loop_tcp (rounds : nat) (rbuf wbuf : list Z) : M (flow lstate unit) :=
  pause sfuel pauseinit ;;;
  q <~ loop_rounds rounds (LS false [] rbuf wbuf) ;;
  match q with
  | Break _ => finish sfuel sockfd ;;; mpure (Return tt)
  | Next v | Return v => mpure (Next v)
  end.
End Loop.
End SockTool.
