(* ===== verification/SockToolClaims.v ===== *)
(** The test tool [sock/]: what its reports, translations and writes do, the loop that copies between
    the terminal and the connection, and the pattern it sends. *)

From S2P Require Import Prelude CText Sys Traces Error Wrappers RobustIO Connect StreamFacts Servers NonblockCli NonblockFacts SockTool.

(** * Reports *)

(** The texts of the system's errors are short, and the messages of the tool too. *)
Class ShortErrors `{Strerror} : Prop := short_errors : forall e, (length (strerror e) < 1024)%nat.

Section Reports.
Context {os : OS} {SE : Strerror}.

(** A message that fits is printed as it is. *)
Lemma sock_err_doit_line (errnoflag : bool) fmt ap text s :
  let tail := if errnoflag then c[": "] ++ strerror (errno s) else [] in
  vformat fmt ap = Some text -> nul_free text -> (length text + length tail + 1 < Z.to_nat MAXLINE)%nat ->
  SockError.err_doit errnoflag fmt ap s = (Val tt, reported (text ++ tail ++ [10]) s).
Proof.
  intros tail Ef Hn Hl. pose proof (tail_nul_free errnoflag (errno s) : nul_free tail) as Ht. unfold SockError.err_doit.
  rewrite (then_val get_errno _ s (errno s) s) by done. rewrite Ef. cbn [checked]. rewrite then_pure.
  set (b0 := replicate _ 0). assert (Hb : length b0 = Z.to_nat MAXLINE) by apply length_replicate.
  destruct (append_checked b0 [] text) as (b1 & E1 & L1 & C1); [by unfold b0, cstring_at|done|cbn; lia|].
  cbn [length app] in E1, C1. rewrite E1, then_pure, C1.
  assert (exists b2, (if errnoflag then checked (put_text b1 (length text) (c[": "] ++ strerror (errno s))) else mpure b1) = mpure b2 /\
    length b2 = length b1 /\ cstring_at b2 0 = text ++ tail) as (b2 & E2 & L2 & C2).
  { unfold tail in *. destruct errnoflag; [apply append_checked; [done|done|lia]|]. exists b1. by rewrite app_nil_r. }
  rewrite E2, then_pure, C2.
  destruct (append_checked b2 (text ++ tail) [10]) as (b3 & E3 & L3 & C3); [done|by repeat constructor|rewrite length_app; cbn [length]; lia|].
  rewrite E3, then_pure, C3, <- app_assoc. done.
Qed.

(** A longer one is written past the end of the buffer. *)
Lemma sock_err_doit_overflow errnoflag fmt ap text s :
  vformat fmt ap = Some text -> (Z.to_nat MAXLINE <= length text)%nat ->
  (SockError.err_doit errnoflag fmt ap s).1 = Undefined.
Proof.
  intros Ef Hl. unfold SockError.err_doit. rewrite (then_val get_errno _ s (errno s) s) by done. rewrite Ef. cbn [checked].
  rewrite then_pure. unfold put_text, memcpy. rewrite decide_False; [done|]. rewrite length_replicate, length_app. cbn [length]. lia.
Qed.

Context {SH : ShortErrors} (I Y : list event -> Prop).
Hypothesis I_output : forall evs h, Forall output evs -> I h -> I (evs ++ h).

Lemma ends_sys {A} msg (Q : A -> st -> Prop) s :
  plain msg && (length msg <? 1024)%nat = true -> I (trace s) -> wp (SockError.err_sys msg []) (ends I Y Q) s.
Proof using SH I_output.
  intros [[Hf Hn]%plain_of_bool Hl%Nat.ltb_lt]%andb_prop HI. unfold SockError.err_sys, wp.
  erewrite then_val; [|apply (sock_err_doit_line true _ _ msg); [by apply vformat_plain|done|]].
  2:{ rewrite length_app. pose proof (short_errors (errno s)). unfold MAXLINE. cbn [length cstr]. lia. }
  split; [done|]. edestruct reported_history as (evs & -> & ? & _). by apply I_output.
Qed.

Lemma ends_quit {A} msg (Q : A -> st -> Prop) s :
  plain msg && (length msg <? 1024)%nat = true -> I (trace s) -> wp (SockError.err_quit msg []) (ends I Y Q) s.
Proof using I_output.
  intros [[Hf Hn]%plain_of_bool Hl%Nat.ltb_lt]%andb_prop HI. unfold SockError.err_quit, wp.
  erewrite then_val; [|apply (sock_err_doit_line false _ _ msg); [by apply vformat_plain|done|cbn [length]; unfold MAXLINE; lia]].
  split; [done|]. edestruct reported_history as (evs & -> & ? & _). by apply I_output.
Qed.
End Reports.

(** * The translations *)

Definition add_cr (l : list Z) : list Z := l ≫= (fun c => if c =? 10 then [13; 10] else [c]).
Definition strip_cr (l : list Z) : list Z := filter (fun c => c <> 13) l.

Lemma add_cr_app a b : add_cr (a ++ b) = add_cr a ++ add_cr b.
Proof. apply bind_app. Qed.

Lemma strip_cr_app a b : strip_cr (a ++ b) = strip_cr a ++ strip_cr b.
Proof. apply filter_app. Qed.

Lemma add_cr_length l : (length l <= length (add_cr l))%nat.
Proof. induction l as [|c l IH]; [done|]. unfold add_cr in *. cbn. destruct (c =? 10); cbn; lia. Qed.

Lemma add_cr_plain l : 10 ∉ l -> add_cr l = l.
Proof.
  induction l as [|c l IH]; [done|]. rewrite not_elem_of_cons. intros [Hc Hl]. unfold add_cr in *. cbn.
  destruct (Z.eqb_spec c 10); [congruence|]. by rewrite IH.
Qed.

(** Stripping undoes adding where there was no return. *)
Lemma strip_add l : 13 ∉ l -> strip_cr (add_cr l) = l.
Proof.
  induction l as [|c l IH]; [done|]. rewrite not_elem_of_cons. intros [Hc Hl].
  change (add_cr (c :: l)) with ((if c =? 10 then [13; 10] else [c]) ++ add_cr l). rewrite strip_cr_app, IH by done.
  destruct (Z.eqb_spec c 10) as [->|]; [done|]. unfold strip_cr. by rewrite filter_cons_True, filter_nil by congruence.
Qed.

Lemma store_is_memcpy {A} (dst dst1 : list A) d x : store dst d x = Some dst1 -> memcpy dst d [x] = Some dst1.
Proof.
  unfold store, memcpy. case_decide as H; [|done]. intros [= <-]. cbn [length app].
  rewrite decide_True by lia. by rewrite insert_take_drop, Nat.add_1_r.
Qed.

Lemma store_room {A} (dst : list A) d x : (d < length dst)%nat -> exists dst1, store dst d x = Some dst1 /\ length dst1 = length dst.
Proof. intros H. unfold store. rewrite decide_True by done. eexists. split; [done|]. by rewrite length_insert. Qed.

Lemma store_memcpy_cons {A} (dst dst1 : list A) d x l :
  store dst d x = Some dst1 -> (d + S (length l) <= length dst)%nat -> memcpy dst1 (S d) l = memcpy dst d (x :: l).
Proof.
  intros H Hl. apply store_is_memcpy in H. rewrite <- Nat.add_1_r. apply (memcpy_app dst d [x] l dst1 H). cbn [length]. lia.
Qed.

Section Crlf.
Context {os : OS} {SE : Strerror}.

(** The outcome of a translation into [dst] of [dstsize] bytes: the text [out] and its length, or the end of
    the process when the code takes it for too long. *)
Definition translated (dst : list Z) (d : nat) (out : list Z) (fits : Prop) (s : st) (o : outcome (Z * list Z)) (s' : st) : Prop :=
  match o with
  | Val (n, dst') => s' = s /\ n = Z.of_nat (d + length out) /\ memcpy dst d out = Some dst' /\ fits
  | Exited code => code = 1 /\ (exists line, s' = reported line s) /\ ~ fits
  | _ => False
  end.

Lemma translated_quit dst d out (fits : Prop) msg s :
  plain msg && (length msg <? 1024)%nat = true -> ~ fits -> wp (SockError.err_quit msg []) (translated dst d out fits s) s.
Proof.
  intros [[Hf Hn]%plain_of_bool Hl%Nat.ltb_lt]%andb_prop Hfit. unfold SockError.err_quit, wp.
  erewrite then_val; [|apply (sock_err_doit_line false _ _ msg); [by apply vformat_plain|done|cbn [length]; unfold MAXLINE; lia]].
  split_and!; [done|by eexists|done].
Qed.

Lemma translated_cons dst dst1 d x out (P P' : Prop) s o s' :
  store dst d x = Some dst1 -> (d + S (length out) <= length dst)%nat \/ ~ P -> (P <-> P') ->
  translated dst1 (S d) out P s o s' -> translated dst d (x :: out) P' s o s'.
Proof.
  intros Hs Hl HP. destruct o as [[n dst']|code| | |]; try done; cbn [translated].
  - intros (-> & -> & Hm & H). destruct Hl as [Hl|]; [|done]. rewrite (store_memcpy_cons dst dst1 d x) in Hm by done.
    split_and!; [done|cbn [length]; lia|done|by apply HP].
  - intros (-> & ? & H). by rewrite <- HP.
Qed.

(** [crlf_add] is content with a text without newlines that fills the destination, and otherwise wants one byte
    to be left. *)
Definition add_fits (d : nat) (dstsize : Z) (l : list Z) : Prop :=
  ((10 ∉ l) /\ Z.of_nat (d + length l) <= dstsize) \/ Z.of_nat (d + length (add_cr l)) < dstsize.

Lemma crlf_add_loop_spec lenin : forall dst d dstsize src i lenout l s,
  take lenin (drop i src) = l -> length l = lenin -> lenout = Z.of_nat (d + lenin) ->
  dstsize = Z.of_nat (length dst) -> lenout <= dstsize ->
  wp (crlf_add_loop lenin dst d dstsize src i lenout) (translated dst d (add_cr l) (add_fits d dstsize l) s) s.
Proof.
  induction lenin as [|k IH]; intros dst d dstsize src i lenout l s Hl Hk Ho Hd Hle.
  { apply nil_length_inv in Hk as ->. apply wp_pure. cbn. rewrite Nat.add_0_r in *. split_and!; [done|done| |].
    - apply memcpy_nil. lia.
    - left. split; [apply not_elem_of_nil|]. cbn. lia. }
  destruct l as [|c l]; [done|]. injection Hk as Hk. cbn [crlf_add_loop].
  assert (Hi : src !! i = Some c).
  { rewrite <- (Nat.add_0_r i), <- lookup_drop. destruct (drop i src); [done|]. by injection Hl as ->. }
  assert (Hl' : take k (drop (S i) src) = l).
  { rewrite (drop_S _ c) in Hl by done. by injection Hl. }
  pose proof (add_cr_length l) as Hlen. change (add_cr (c :: l)) with ((if c =? 10 then [13; 10] else [c]) ++ add_cr l).
  eapply wp_checked; [exact Hi|]. destruct (Z.eqb_spec c 10) as [->|Hc].
  - rewrite Z.geb_leb. destruct (Z.leb_spec dstsize (lenout + 1)) as [Hf|Hf].
    { apply translated_quit; [done|]. intros [[Hn _]|Hn]; [by apply Hn; constructor|].
      change (add_cr (10 :: l)) with ([13; 10] ++ add_cr l) in Hn. rewrite length_app in Hn. cbn [length] in Hn. lia. }
    destruct (store_room dst d 13) as (dst1 & E1 & L1); [lia|]. eapply wp_checked; [exact E1|].
    destruct (store_room dst1 (S d) 10) as (dst2 & E2 & L2); [lia|]. eapply wp_checked; [exact E2|].
    eapply wp_mono; [apply (IH dst2 (S (S d)) dstsize src (S i) (lenout + 1) l s Hl' Hk); lia|]. intros o s' H.
    assert (Hiff : add_fits (S (S d)) dstsize l <-> add_fits d dstsize (10 :: l)).
    { unfold add_fits. change (add_cr (10 :: l)) with ([13; 10] ++ add_cr l). rewrite length_app. cbn [length]. split.
      - intros [[Hn Hx]|Hx]; right; [rewrite add_cr_plain by done|]; lia.
      - intros [[Hn Hx]|Hx]; [by destruct Hn; constructor|right; lia]. }
    assert (Hroom : (S (S d) + length (add_cr l) <= length dst)%nat \/ ~ add_fits (S (S d)) dstsize l).
    { destruct (decide (S (S d) + length (add_cr l) <= length dst)%nat); [by left|right].
      intros [[Hn Hx]|Hx]; [rewrite add_cr_plain in * by done|]; lia. }
    apply (translated_cons dst1 dst2 (S d) 10 _ _ (add_fits (S (S d)) dstsize l)) in H; [|done| |done].
    + apply (translated_cons dst dst1 d 13 (10 :: add_cr l) _ (add_fits d dstsize (10 :: l)) s o s' E1) in H; [exact H| |exact Hiff].
      destruct Hroom; [left; cbn [length]; lia|by right].
    + destruct Hroom; [left; lia|by right].
  - destruct (store_room dst d c) as (dst1 & E1 & L1); [lia|]. eapply wp_checked; [exact E1|].
    eapply wp_mono; [apply (IH dst1 (S d) dstsize src (S i) lenout l s Hl' Hk); lia|]. intros o s' H.
    eapply (translated_cons dst dst1); [done| | |exact H].
    + destruct (decide (S d + length (add_cr l) <= length dst)%nat); [left; cbn [app]; lia|right].
      intros [[Hn Hx]|Hx]; [rewrite add_cr_plain in * by done|]; lia.
    + unfold add_fits. change (add_cr (c :: l)) with ((if c =? 10 then [13; 10] else [c]) ++ add_cr l).
      rewrite (proj2 (Z.eqb_neq c 10)), length_app, not_elem_of_cons by done. cbn [length].
      split; (intros [[Hn Hx]|Hx]; [left|right; lia]); (split; [|lia]); [by split|by destruct Hn].
Qed.

Lemma crlf_add_spec dst dstsize src lenin s :
  dstsize = Z.of_nat (length dst) -> 0 <= lenin <= Z.of_nat (length src) ->
  let l := slice src 0 lenin in
  wp (crlf_add dst dstsize src lenin) (translated dst 0 (add_cr l) (add_fits 0 dstsize l) s) s.
Proof.
  intros Hd Hl l. unfold crlf_add.
  assert (Hlen : length l = Z.to_nat lenin) by (apply slice_length; lia). rewrite Z.gtb_ltb.
  destruct (Z.ltb_spec dstsize lenin) as [Hb|Hb].
  - apply translated_quit; [done|]. pose proof (add_cr_length l). intros [[_ Hx]|Hx]; lia.
  - apply crlf_add_loop_spec; [done|done|lia|done|done].
Qed.

(** [crlf_strip] always wants one byte to be left. *)
Definition strip_fits (d : nat) (dstsize : Z) (l : list Z) : Prop :=
  strip_cr l = [] \/ Z.of_nat (d + length (strip_cr l)) < dstsize.

Lemma crlf_strip_loop_spec lenin : forall dst d dstsize src i l s,
  take lenin (drop i src) = l -> length l = lenin -> dstsize = Z.of_nat (length dst) -> (d <= length dst)%nat ->
  wp (crlf_strip_loop lenin dst d dstsize src i (Z.of_nat d)) (translated dst d (strip_cr l) (strip_fits d dstsize l) s) s.
Proof.
  induction lenin as [|k IH]; intros dst d dstsize src i l s Hl Hk Hd Hle.
  { apply nil_length_inv in Hk as ->. apply wp_pure. cbn. rewrite Nat.add_0_r in *. split_and!; [done|done| |by left].
    by apply memcpy_nil. }
  destruct l as [|c l]; [done|]. injection Hk as Hk. cbn [crlf_strip_loop].
  assert (Hi : src !! i = Some c).
  { rewrite <- (Nat.add_0_r i), <- lookup_drop. destruct (drop i src); [done|]. by injection Hl as ->. }
  assert (Hl' : take k (drop (S i) src) = l).
  { rewrite (drop_S _ c) in Hl by done. by injection Hl. }
  eapply wp_checked; [exact Hi|]. destruct (Z.eqb_spec c 13) as [->|Hc]; cbn [negb].
  { replace (strip_cr (13 :: l)) with (strip_cr l) by (unfold strip_cr; by rewrite filter_cons_False by congruence).
    replace (strip_fits d dstsize (13 :: l)) with (strip_fits d dstsize l) by
      (unfold strip_fits, strip_cr; by rewrite filter_cons_False by congruence). by apply IH. }
  assert (Hs : strip_cr (c :: l) = c :: strip_cr l) by (unfold strip_cr; by rewrite filter_cons_True).
  rewrite Hs, Z.geb_leb. destruct (Z.leb_spec dstsize (Z.of_nat d + 1)) as [Hf|Hf].
  { apply translated_quit; [done|]. unfold strip_fits. rewrite Hs. cbn [length]. intros [|]; [done|lia]. }
  destruct (store_room dst d c) as (dst1 & E1 & L1); [lia|]. eapply wp_checked; [exact E1|].
  replace (Z.of_nat d + 1) with (Z.of_nat (S d)) by lia.
  eapply wp_mono; [apply (IH dst1 (S d) dstsize src (S i) l s Hl' Hk); lia|]. intros o s' H.
  eapply (translated_cons dst dst1); [done| | |exact H]; unfold strip_fits; rewrite ?Hs; cbn [length].
  - destruct (decide (d + S (length (strip_cr l)) <= length dst)%nat); [by left|right].
    intros [Hx|Hx]; [rewrite Hx in *; cbn [length] in *|]; lia.
  - split; [intros [Hx|Hx]; right; [rewrite Hx; cbn [length]|]; lia|intros [|]; [done|right; lia]].
Qed.

Lemma crlf_strip_spec dst dstsize src lenin s :
  dstsize = Z.of_nat (length dst) -> 0 <= lenin <= Z.of_nat (length src) ->
  let l := slice src 0 lenin in
  wp (crlf_strip dst dstsize src lenin) (translated dst 0 (strip_cr l) (strip_fits 0 dstsize l) s) s.
Proof.
  intros Hd Hl l. apply (crlf_strip_loop_spec _ dst 0); [done|unfold l; apply slice_length; lia|done|lia].
Qed.
End Crlf.

(** * Data that is moved: also with [recv] and [writev] *)

Definition fed_data (fd : Z) (e : event) : list Z :=
  match e.1 with
  | sys_read fd' _ => if fd' =? fd then rbytes e.2 else []
  | sys_recv fd' _ flags => if (fd' =? fd) && (flags =? 0) then rbytes e.2 else []
  | _ => []
  end.

Definition put_data (fd : Z) (e : event) : list Z :=
  match e.1 with
  | sys_write fd' d => if fd' =? fd then take (Z.to_nat (rv e.2)) d else []
  | sys_writev fd' ds => if fd' =? fd then take (Z.to_nat (rv e.2)) (concat ds) else []
  | _ => []
  end.

Definition fed (fd : Z) : list event -> list Z := collect (fed_data fd).
Definition put (fd : Z) : list event -> list Z := collect (put_data fd).

Lemma fed_app fd a b : fed fd (a ++ b) = fed fd b ++ fed fd a.
Proof. apply collect_app. Qed.
Lemma put_app fd a b : put fd (a ++ b) = put fd b ++ put fd a.
Proof. apply collect_app. Qed.
Lemma put_one fd e : put fd [e] = put_data fd e.
Proof. apply collect_one. Qed.
Lemma fed_cons fd e h : fed fd (e :: h) = fed fd h ++ fed_data fd e.
Proof. apply collect_cons. Qed.
Lemma put_cons fd e h : put fd (e :: h) = put fd h ++ put_data fd e.
Proof. apply collect_cons. Qed.

(** Calls that at most write to [fd]. *)
Definition putting (fd : Z) (e : event) : Prop :=
  match e.1 with
  | sys_write fd' _ | sys_writev fd' _ => fd' = fd
  | sys_read _ _ | sys_recv _ _ _ | sys_shutdown _ _ | sys_close _ => False
  | _ => True
  end.

Lemma putting_fed fd fd' evs : Forall (putting fd) evs -> fed fd' evs = [].
Proof. intros H. apply collect_nil_of. eapply Forall_impl; [exact H|]. by intros [[] r]. Qed.

Lemma putting_put fd fd' evs : Forall (putting fd) evs -> fd' <> fd -> put fd' evs = [].
Proof.
  intros H Hne. apply collect_nil_of. eapply Forall_impl; [exact H|].
  intros [[] r] He; try done; cbn in He; subst; unfold put_data; cbn; by rewrite (proj2 (Z.eqb_neq _ _)) by done.
Qed.

Lemma putting_output fd evs : Forall output evs -> Forall (putting fd) evs /\ put fd evs = [].
Proof.
  intros H. split; [|apply collect_nil_of]; (eapply Forall_impl; [exact H|]); by intros [[] r].
Qed.

Lemma putting_writes fd evs : Forall (on_write fd) evs -> Forall (putting fd) evs /\ put fd evs = sent fd evs.
Proof.
  intros H. split; [eapply Forall_impl; [exact H|]; intros [c r] [d Hd]; cbn in Hd; by rewrite Hd|].
  unfold put, sent. induction H as [|[c r] evs [d Hd] _ IH]; [done|]. rewrite !collect_cons, IH. f_equal.
  cbn in Hd. by rewrite Hd.
Qed.

(** ** dowrite *)

Section Dowrite.
Context {os : OS} {SE : Strerror} {SO : SockOpts}.

(** The chunks follow each other from [ptr] on and are [n] bytes in all. *)
Fixpoint consecutive (ptr n : Z) (iov : list (Z * Z)) : Prop :=
  match iov with
  | [] => n = 0
  | (base, len) :: iov => base = ptr /\ 0 <= len <= n /\ consecutive (ptr + len) (n - len) iov
  end.

Lemma fill_iov_spec k : forall ptr nleft size,
  1 <= size -> 0 <= nleft <= Z.of_nat k * size -> (0 < k)%nat ->
  exists iov, fill_iov k ptr nleft size = Some iov /\ consecutive ptr nleft iov /\ (length iov <= k)%nat.
Proof.
  induction k as [|k IH]; intros ptr nleft size Hs Hn Hk; [lia|]. cbn [fill_iov]. rewrite Z.geb_leb.
  destruct (Z.leb_spec size nleft) as [Hle|Hle].
  - destruct (Z.eqb_spec (nleft - size) 0) as [E|E].
    + eexists. split; [done|]. cbn. split_and!; lia.
    + destruct (IH (ptr + size) (nleft - size) size) as (iov & -> & Hc & Hl); [lia|nia|nia|].
      eexists. split; [done|]. cbn. split_and!; [done|lia|lia|done|lia].
  - rewrite Z.sub_diag, Z.eqb_refl. eexists. split; [done|]. cbn. split_and!; lia.
Qed.

(** [UIO_MAXIOV] chunks are always enough. *)
Lemma chunk_size_spec n : 1 <= UIO_MAXIOV -> 0 <= n -> 1 <= chunk_size n /\ n <= UIO_MAXIOV * chunk_size n.
Proof.
  intros Hu Hn. unfold chunk_size. assert (Hu0 : 0 < UIO_MAXIOV) by lia. assert (Hu1 : UIO_MAXIOV <> 0) by lia.
  pose proof (Z.div_mod n _ Hu1) as Hd. pose proof (Z.mod_pos_bound n _ Hu0) as Hm. pose proof (Z.div_pos n _ Hn Hu0) as Hq. set (q := n / UIO_MAXIOV) in *.
  destruct (Z.leb_spec q 0) as [H|H]; [replace q with 0 in Hd by lia; lia|].
  destruct (Z.eqb_spec (n mod UIO_MAXIOV) 0); cbn [negb]; split; nia.
Qed.

Lemma bytes_of_ok buf off n :
  0 <= off -> 0 <= n -> off + n <= Z.of_nat (length buf) -> bytes_of buf off n = Some (slice buf (Z.to_nat off) n).
Proof.
  intros. unfold bytes_of. destruct (Z.leb_spec 0 off), (Z.leb_spec 0 n), (Z.leb_spec (off + n) (Z.of_nat (length buf))); try lia.
  done.
Qed.

(** What was handed to [fd]: at most the bytes, and all of them when the count is right. *)
Definition wrote (fd : Z) (d : list Z) (n : Z) (s : st) (o : outcome Z) (s' : st) : Prop :=
  exists evs, trace s' = evs ++ trace s /\ Forall (putting fd) evs /\ put fd evs `prefix_of` d /\
    match o with Val k => k = n -> put fd evs = d | _ => False end.

Lemma write_iov_spec fd vptr iov : forall ptr n ntotal s,
  consecutive ptr n iov -> 0 <= ptr -> 0 <= n -> 0 <= ntotal -> ptr + n <= Z.of_nat (length vptr) ->
  wp (write_iov fd vptr iov ntotal) (wrote fd (slice vptr (Z.to_nat ptr) n) (ntotal + n) s) s.
Proof.
  induction iov as [|[base len] iov IH]; intros ptr n ntotal s Hc Hp Hn Ht Hl; cbn [write_iov consecutive] in *.
  { subst n. apply wp_pure. exists []. by split_and!. }
  destruct Hc as (-> & Hlen & Hc). eapply wp_checked; [apply bytes_of_ok; lia|]. apply wp_then, wp_sys. cbn [andthen].
  set (c := sys_write _ _). set (r := answer c s).
  replace n with (len + (n - len)) at 1 by lia. rewrite slice_add by lia.
  assert (Hlc : length (slice vptr (Z.to_nat ptr) len) = Z.to_nat len) by (apply slice_length; lia).
  assert (Hd : put_data fd (c, r) = take (Z.to_nat (rv r)) (slice vptr (Z.to_nat ptr) len)) by (unfold put_data, c; cbn; by rewrite Z.eqb_refl).
  destruct (Z.eqb_spec (rv r) len) as [E|E]; cbn [negb].
  - eapply wp_mono; [apply (IH (ptr + len) (n - len) (ntotal + rv r) (after c r s)); [done|lia..]|].
    intros o s' (evs & Htr & Hw & Hpre & Ho). exists (evs ++ [(c, r)]). rewrite Htr, <- app_assoc, put_app.
    rewrite put_one, Hd, E, take_ge by lia. replace (Z.to_nat (ptr + len)) with (Z.to_nat ptr + Z.to_nat len)%nat in * by lia.
    split_and!; [done|apply Forall_app; split; [done|by repeat constructor]|by apply prefix_app|].
    destruct o; try done. intros ->. rewrite Ho; [done|lia].
  - apply wp_pure. exists [(c, r)]. rewrite put_one, Hd. split_and!; [done|by repeat constructor| |lia].
    apply prefix_app_r, prefix_take.
Qed.

Lemma mapM_consecutive vptr iov : forall ptr n,
  consecutive ptr n iov -> 0 <= ptr -> 0 <= n -> ptr + n <= Z.of_nat (length vptr) ->
  exists ds, mapM (fun e => bytes_of vptr e.1 e.2) iov = Some ds /\ concat ds = slice vptr (Z.to_nat ptr) n.
Proof.
  induction iov as [|[base len] iov IH]; intros ptr n Hc Hp Hn Hl; cbn [consecutive] in Hc.
  - subst n. by exists [].
  - destruct Hc as (-> & Hlen & Hc). destruct (IH (ptr + len) (n - len) Hc) as (ds & E & Hd); [lia..|].
    exists (slice vptr (Z.to_nat ptr) len :: ds). cbn. rewrite bytes_of_ok by lia. cbn. rewrite E. split; [done|].
    cbn. rewrite Hd. replace (Z.to_nat (ptr + len)) with (Z.to_nat ptr + Z.to_nat len)%nat by lia. rewrite <- slice_add by lia. f_equal. lia.
Qed.

Lemma one_write fd d c n s :
  (c = sys_write fd d \/ exists ds, c = sys_writev fd ds /\ concat ds = d) -> n = Z.of_nat (length d) ->
  wp (r <~ sys c ;; mpure (rv r)) (wrote fd d n s) s.
Proof.
  intros Hc Hn. apply wp_then, wp_sys. cbn [andthen]. apply wp_pure. set (r := answer c s). exists [(c, r)]. rewrite put_one.
  assert (put_data fd (c, r) = take (Z.to_nat (rv r)) d) as ->.
  { destruct Hc as [->|(ds & -> & <-)]; unfold put_data; cbn; by rewrite Z.eqb_refl. }
  split_and!; [done|apply Forall_singleton; by destruct Hc as [->|(ds & -> & _)]|apply prefix_take|].
  intros ->. rewrite Hn, Nat2Z.id. apply firstn_all.
Qed.

Lemma dowrite_spec fd vptr n s :
  1 <= UIO_MAXIOV -> 0 <= n <= Z.of_nat (length vptr) -> wp (dowrite fd vptr n) (wrote fd (slice vptr 0 n) n s) s.
Proof.
  intros Hu Hn. unfold dowrite. assert (Hl : n = Z.of_nat (length (slice vptr 0 n))) by (rewrite slice_length; lia).
  destruct (negb (is_set chunkwrite) && negb (is_set usewritev)).
  { eapply wp_checked; [apply bytes_of_ok; lia|]. apply one_write; [by left|done]. }
  destruct (chunk_size_spec n Hu) as [Hc1 Hc2]; [lia|].
  destruct (fill_iov_spec (Z.to_nat UIO_MAXIOV) 0 n (chunk_size n)) as (iov & -> & Hc & _); [lia|lia|lia|].
  destruct (is_set usewritev).
  - destruct (mapM_consecutive vptr iov 0 n Hc) as (ds & E & Hd); [lia..|]. eapply wp_checked; [exact E|].
    apply one_write; [right; by exists ds|done].
  - apply (write_iov_spec fd vptr iov 0 n 0); [done|lia..].
Qed.
End Dowrite.

(** * The loop *)

(** [recv] promises what [read] does. *)
Class RecvLaw `{OS} : Prop :=
  recv_law : forall h fd n flags, 0 <= n -> read_ok n (os_answer h (sys_recv fd n flags)).

(** A pause that [select] did not sleep through. *)
Definition cut_nap (e : event) : bool :=
  match e.1 with sys_select 0 [] [] [] (Some _) => negb (rv e.2 =? 0) | _ => false end.
Definition cut_naps (h : list event) : nat := length (List.filter cut_nap h).

Lemma cut_naps_app a b : cut_naps (a ++ b) = (cut_naps a + cut_naps b)%nat.
Proof. unfold cut_naps. by rewrite List.filter_app, length_app. Qed.

(** Calls that neither move data nor announce its end. *)
Definition idle (e : event) : Prop :=
  match e.1 with
  | sys_read _ _ | sys_recv _ _ _ | sys_write _ _ | sys_writev _ _ | sys_shutdown _ _ => False
  | _ => True
  end.

Lemma output_moves_none evs : Forall output evs -> Forall idle evs.
Proof. intros H. eapply Forall_impl; [exact H|]. by intros [[] r]. Qed.

(** ** Pauses, reports and the end

    [I] is what holds at the end of the process, [Y] why the fuel was not enough. *)

Section Pauses.
Context {os : OS} {SE : Strerror} {SH : ShortErrors} {SO : SockOpts}.
Context (sfuel : nat) (sockfd : Z) (I Y : list event -> Prop).
Hypothesis I_output : forall evs h, Forall output evs -> I h -> I (evs ++ h).
Hypothesis Y_naps : forall h, (sfuel <= cut_naps h)%nat -> Y h.

Lemma sleep_us_spec (P : list event -> Prop) fuel us : forall s,
  P (trace s) -> (forall evs h, Forall idle evs -> P h -> P (evs ++ h)) ->
  wp (sleep_us fuel us) (ends P (fun h => (fuel + cut_naps (trace s) <= cut_naps h)%nat) (fun _ s' => P (trace s'))) s.
Proof using SH.
  induction fuel as [|k IH]; intros s Hs HP; cbn [sleep_us]; [by split|].
  apply wp_then, wp_sys. cbn [andthen]. set (c := sys_select _ _ _ _ _). set (r := answer c s).
  assert (Hs1 : P (trace (after c r s))) by (apply (HP [(c, r)]); [by repeat constructor|done]).
  destruct (Z.eqb_spec (rv r) 0) as [E|E]; [done|]. apply wp_then. unfold wp at 1. cbn [get_errno andthen].
  case_match; [|apply ends_sys; [intros evs h He%output_moves_none; by apply HP|done|done]].
  eapply wp_mono; [by apply IH|]. intros o s' Ho. destruct o; try done. destruct Ho as [Hp Hl]. split; [done|].
  assert (Hc : cut_naps (trace (after c r s)) = S (cut_naps (trace s))).
  { cbn [after trace]. unfold cut_naps, cut_nap, c. cbn. by rewrite (proj2 (Z.eqb_neq _ _) E). }
  rewrite Hc in Hl. lia.
Qed.

(** The pauses asked for can be converted to microseconds. *)
Definition pause_ok (ms : Z) : Prop := - 2 ^ 31 <= ms * 1000 < 2 ^ 31.

(** What calls that move nothing keep. *)
Record steady (P : list event -> Prop) : Prop := {
  sd_idle : forall evs h, Forall idle evs -> P h -> P (evs ++ h);
  sd_part : forall h, P h -> I h;
}.

Lemma steady_and P (R : list event -> Prop) : steady P -> (forall evs h, R h -> R (evs ++ h)) -> steady (fun h => P h /\ R h).
Proof using Type. intros [Hi Hp] HR. split; [intros evs h He [? ?]; split; auto|intros h [? _]; auto]. Qed.

Lemma pause_spec P ms s :
  steady P -> pause_ok ms -> P (trace s) -> wp (pause sfuel ms) (ends I Y (fun _ s' => P (trace s'))) s.
Proof using SH Y_naps.
  intros [Hi Hp] Hm Hb. unfold pause. destruct (is_set ms); [|done].
  eapply wp_checked.
  { unfold int_mul. unfold pause_ok in Hm. rewrite (proj2 (Z.leb_le _ _)), (proj2 (Z.ltb_lt _ _)) by lia. done. }
  eapply wp_mono; [by apply (sleep_us_spec P)|]. intros o s' Ho. destruct o; try done; cbn [ends] in *.
  - destruct Ho as [-> H]. split; [done|by apply Hp].
  - destruct Ho as [H Hl]. split; [by apply Hp|]. apply Y_naps. lia.
Qed.

Lemma say_text P fmt ap text s :
  steady P -> vformat fmt ap = Some text -> P (trace s) -> wp (say fmt ap) (ends I Y (fun _ s' => P (trace s'))) s.
Proof using Type.
  intros [Hi _] Hf Hb. unfold say. destruct (is_set verbose); [|done].
  eapply wp_checked; [exact Hf|]. apply wp_then, wp_sys. cbn [andthen]. apply wp_pure.
  by apply (Hi [_]); [repeat constructor|].
Qed.

Lemma say_plain P msg s :
  steady P -> plain msg = true -> P (trace s) -> wp (say msg []) (ends I Y (fun _ s' => P (trace s'))) s.
Proof using Type. intros HP [Hp _]%plain_of_bool. by apply say_text with msg, vformat_plain. Qed.

Definition is_close (e : event) : bool := match e.1 with sys_close fd => fd =? sockfd | _ => false end.
(** The last call is the [close] of the socket. *)
Definition closed_last (h : list event) : Prop := exists e h', h = e :: h' /\ is_close e = true /\ 0 <= rv e.2.

Lemma finish_spec P s :
  steady P -> pause_ok pauseclose -> P (trace s) ->
  wp (finish sfuel sockfd) (ends I Y (fun _ s' => P (trace s') /\ closed_last (trace s'))) s.
Proof using SH I_output Y_naps.
  intros HP Hm Hb. unfold finish. eapply (ends_then _ _ _ _ (fun _ s1 => P (trace s1))).
  { destruct (is_set pauseclose); [|done]. eapply ends_then; [by apply (say_plain P)|]. intros ? s1 H1. by apply pause_spec. }
  intros _ s1 H1. apply wp_then, wp_sys. cbn [andthen]. set (c := sys_close sockfd).
  assert (H2 : P (trace (after c (answer c s1) s1))) by (apply (sd_idle _ HP [_]); [by repeat constructor|done]).
  destruct (Z.ltb_spec (rv (answer c s1)) 0) as [Hl|Hl]; [apply ends_sys; [done|done|by apply (sd_part _ HP)]|].
  apply wp_pure. split; [done|]. eexists _, _. split; [done|]. split; [|done]. unfold is_close, c. cbn. apply Z.eqb_refl.
Qed.
End Pauses.

Section Loops.
Context {os : OS} {SE : Strerror} {SH : ShortErrors} {SO : SockOpts}.
Context (sfuel wfuel : nat) (sockfd : Z) (Hsock : 2 <= sockfd < FD_SETSIZE).

(** The two directions: from standard input to the socket, and from the socket to standard output. *)
Definition in_call (out : bool) : syscall :=
  if out then sys_read STDIN_FILENO readlen else sys_recv sockfd readlen 0.
Definition src_of (out : bool) : Z := if out then STDIN_FILENO else sockfd.
Definition dst_of (out : bool) : Z := if out then sockfd else STDOUT_FILENO.

(** What the peer of a direction is to get. *)
Definition trans (out : bool) (d : list Z) : list Z :=
  if is_set crlf then if out then add_cr d else strip_cr d else d.

Lemma trans_app out a b : trans out (a ++ b) = trans out a ++ trans out b.
Proof using Type. unfold trans. destruct (is_set crlf), out; auto using add_cr_app, strip_cr_app. Qed.

(** Between two iterations everything has been copied; [eof] is [stdineof]. *)
Record both_ways (eof : bool) (h : list event) : Prop := {
  bw_put : forall out, put (dst_of out) h = trans out (fed (src_of out) h);
  bw_fin : fins sockfd h = if eof then 1%nat else 0%nat;
  bw_eof : eof = true -> stdin_ended h;
}.

(** At every moment. *)
Record part_way (h : list event) : Prop := {
  pw_put : forall out, put (dst_of out) h `prefix_of` trans out (fed (src_of out) h);
  pw_fin : (fins sockfd h <= 1)%nat;
}.

Lemma both_part eof h : both_ways eof h -> part_way h.
Proof using Type. intros [Hp Hf _]. split; [intros out; by rewrite Hp|]. rewrite Hf. destruct eof; lia. Qed.

Lemma idle_same evs h : Forall idle evs ->
  (forall fd, fed fd (evs ++ h) = fed fd h) /\ (forall fd, put fd (evs ++ h) = put fd h) /\ fins sockfd (evs ++ h) = fins sockfd h.
Proof using Type.
  intros H. assert (Hf : forall fd, fed fd evs = []) by (intros; apply collect_nil_of; eapply Forall_impl; [exact H|by intros [[] r]]).
  assert (Hp : forall fd, put fd evs = []) by (intros; apply collect_nil_of; eapply Forall_impl; [exact H|by intros [[] r]]).
  split_and!.
  - intros fd. by rewrite fed_app, Hf, app_nil_r.
  - intros fd. by rewrite put_app, Hp, app_nil_r.
  - clear Hf Hp. induction H as [|[c r] evs He _ IH]; [done|]. cbn [app]. rewrite fins_cons, IH. by destruct c.
Qed.

Lemma stdin_ended_after evs h : stdin_ended h -> stdin_ended (evs ++ h).
Proof using Type. intros H. induction evs; [done|by apply stdin_ended_cons]. Qed.

Lemma both_ways_idle eof evs h : Forall idle evs -> both_ways eof h -> both_ways eof (evs ++ h).
Proof using Type.
  intros He [Hp Hf Hx]. destruct (idle_same evs h He) as (Hfed & Hput & Hfin).
  split; [intros out; by rewrite Hput, Hfed|by rewrite Hfin|]. intros E. by apply stdin_ended_after, Hx.
Qed.

Lemma part_way_idle evs h : Forall idle evs -> part_way h -> part_way (evs ++ h).
Proof using Type.
  intros He [Hp Hf]. destruct (idle_same evs h He) as (Hfed & Hput & Hfin).
  split; [intros out; by rewrite Hput, Hfed|by rewrite Hfin].
Qed.

Lemma part_way_output evs h : Forall output evs -> part_way h -> part_way (evs ++ h).
Proof using Type. intros He%output_moves_none. by apply part_way_idle. Qed.

(** One piece is taken from one side and some of it handed to the other. *)
Lemma piece out r evs h :
  Forall (putting (dst_of out)) evs ->
  let h' := evs ++ (in_call out, r) :: h in
  fed (src_of out) h' = fed (src_of out) h ++ rbytes r /\ put (dst_of out) h' = put (dst_of out) h ++ put (dst_of out) evs /\
  fed (src_of (negb out)) h' = fed (src_of (negb out)) h /\ put (dst_of (negb out)) h' = put (dst_of (negb out)) h /\
  fins sockfd h' = fins sockfd h.
Proof using Hsock.
  intros Hw h'. unfold h'. assert (Hne : src_of (negb out) <> src_of out /\ dst_of (negb out) <> dst_of out).
  { unfold src_of, dst_of, STDIN_FILENO, STDOUT_FILENO. destruct out; cbn; lia. }
  assert (Hd : fed_data (src_of out) (in_call out, r) = rbytes r /\ fed_data (src_of (negb out)) (in_call out, r) = []).
  { unfold fed_data, in_call, src_of, STDIN_FILENO. destruct out; cbn [fst snd negb]; rewrite ?Z.eqb_refl; split; try done.
    - by rewrite (proj2 (Z.eqb_neq 0 sockfd)) by lia.
    - by rewrite (proj2 (Z.eqb_neq sockfd 0)) by lia. }
  assert (Hp : forall fd, put_data fd (in_call out, r) = []) by (intros; by destruct out).
  split_and!.
  - by rewrite fed_app, fed_cons, (putting_fed _ _ _ Hw), app_nil_r, (proj1 Hd).
  - by rewrite put_app, put_cons, Hp, app_nil_r.
  - by rewrite fed_app, fed_cons, (putting_fed _ _ _ Hw), (proj2 Hd), !app_nil_r.
  - by rewrite put_app, put_cons, Hp, (putting_put _ _ _ Hw (proj2 Hne)), !app_nil_r.
  - clear Hd Hp Hne. induction Hw as [|[c x] evs He _ IH]; cbn [app]; rewrite fins_cons; [by destruct out|].
    rewrite IH. by destruct c.
Qed.

Lemma piece_part eof out r evs h :
  both_ways eof h -> Forall (putting (dst_of out)) evs -> put (dst_of out) evs `prefix_of` trans out (rbytes r) ->
  part_way (evs ++ (in_call out, r) :: h).
Proof using Hsock.
  intros [Hp Hf _] Hw Hpre. destruct (piece out r evs h Hw) as (H1 & H2 & H3 & H4 & H5).
  split; [|rewrite H5, Hf; destruct eof; lia]. intros out'. destruct (decide (out' = out)) as [->|Hne].
  - rewrite H1, H2, trans_app, Hp. by apply prefix_app.
  - replace out' with (negb out) by (by destruct out, out'). by rewrite H3, H4, Hp.
Qed.

Lemma piece_both eof out r evs h :
  both_ways eof h -> Forall (putting (dst_of out)) evs -> put (dst_of out) evs = trans out (rbytes r) ->
  both_ways eof (evs ++ (in_call out, r) :: h).
Proof using Hsock.
  intros [Hp Hf Hx] Hw Hpre. destruct (piece out r evs h Hw) as (H1 & H2 & H3 & H4 & H5).
  split; [|by rewrite H5, Hf|intros E; by apply stdin_ended_after, stdin_ended_cons, Hx].
  intros out'. destruct (decide (out' = out)) as [->|Hne].
  - by rewrite H1, H2, trans_app, Hp, Hpre.
  - replace out' with (negb out) by (by destruct out, out'). by rewrite H3, H4, Hp.
Qed.

(** The fuel was not enough: for one [writen], or for one pause. *)
Definition short_of_fuel (h : list event) : Prop :=
  Z.of_nat wfuel < Z.max readlen writelen + Z.of_nat (interrupts h) \/ (sfuel <= cut_naps h)%nat.

Abbreviation loops := (ends part_way short_of_fuel).

Lemma both_ways_steady eof : steady part_way (both_ways eof).
Proof using Type. split; [by intros; apply both_ways_idle|apply both_part]. Qed.

Lemma short_of_naps h : (sfuel <= cut_naps h)%nat -> short_of_fuel h.
Proof using Type. by right. Qed.

(** ** Taking a piece and handing it on *)

Context {RDL : ReadLaw} {RVL : RecvLaw} {WL : WriteLaw} {SL : SelectLaw}.

(** The options and the buffers [buffers] has allocated for them. *)
Record opts_ok : Prop := {
  oo_read : 0 < readlen;
  oo_write : 0 <= writelen;
  oo_peek : msgpeek = 0;
  oo_iov : 1 <= UIO_MAXIOV;
  oo_init : pause_ok pauseinit;
  oo_close : pause_ok pauseclose;
}.
Context (Hopts : opts_ok).

Record bufs_ok (v : lstate) : Prop := {
  bo_rbuf : Z.of_nat (length (rbuf v)) = readlen;
  bo_wbuf : Z.of_nat (length (wbuf v)) = writelen;
}.

Lemma take_piece {B} out rb s (k : sysret -> list Z -> M B) (Q : outcome B -> st -> Prop) :
  Z.of_nat (length rb) = readlen ->
  (forall r rb', Z.of_nat (length rb') = readlen ->
     (rv r = -1 /\ rbytes r = []) \/ (rv r = Z.of_nat (length (rbytes r)) /\ rv r <= readlen /\ slice rb' 0 (rv r) = rbytes r) ->
     wp (k r rb') Q (after (in_call out) r s)) ->
  wp (r <~ sys (in_call out) ;; rb' <~ checked (memcpy rb 0 (rbytes r)) ;; k r rb') Q s.
Proof using RDL RVL Hopts.
  intros Hb HQ. apply wp_then, wp_sys. cbn [andthen]. set (r := answer _ s). pose proof (oo_read Hopts) as Hr.
  assert (Hlaw : read_ok readlen r).
  { destruct out; [apply read_law|apply recv_law]; lia. }
  destruct Hlaw as [_ [(Hv & _ & Hn)|[Hv Hle]]].
  - eapply wp_checked; [rewrite Hn; apply memcpy_nil; lia|]. apply HQ; [done|by left].
  - eapply wp_checked; [apply memcpy_ok; lia|]. apply HQ; [rewrite !length_app, length_take, length_drop; lia|right].
    split_and!; [done|done|]. unfold slice. rewrite Hv, Nat2Z.id, drop_0, take_0. apply (take_app_length (rbytes r)).
Qed.

(** What [dowrite] and [writen] have in common. *)
Definition handed (fd : Z) (d : list Z) (n : Z) (s : st) (o : outcome Z) (s' : st) : Prop :=
  exists evs, trace s' = evs ++ trace s /\ Forall (putting fd) evs /\ put fd evs `prefix_of` d /\
    match o with
    | Val k => k = n -> put fd evs = d
    | OutOfFuel => Z.of_nat wfuel < n + Z.of_nat (interrupts evs)
    | _ => False
    end.

Lemma dowrite_handed vptr n s :
  0 <= n <= Z.of_nat (length vptr) -> wp (dowrite sockfd vptr n) (handed sockfd (slice vptr 0 n) n s) s.
Proof using Hopts.
  intros Hn. eapply wp_mono; [apply dowrite_spec; [apply Hopts|done]|].
  intros o s' (evs & ? & ? & ? & Ho). exists evs. split_and!; [done..|]. by destruct o.
Qed.

Lemma writen_handed vptr n s :
  0 <= n <= Z.of_nat (length vptr) -> wp (writen wfuel STDOUT_FILENO vptr n) (handed STDOUT_FILENO (slice vptr 0 n) n s) s.
Proof using WL.
  intros Hn. eapply wp_mono; [apply writen_loop_spec; lia|]. intros o s' (evs & Ht & _ & Hw & Ho).
  destruct (putting_writes _ _ Hw) as [Hp He]. exists evs. rewrite He.
  assert (Hpre : forall m, 0 <= m <= n -> slice vptr 0 m `prefix_of` slice vptr 0 n).
  { intros m Hm. replace n with (m + (n - m)) by lia. rewrite slice_add by lia. by eexists. }
  destruct o as [k| | | |]; try done.
  - destruct Ho as [[-> Hs]|(-> & m & Hs & Hm & _)]; rewrite Hs; split_and!; try done; [apply Hpre; lia|lia].
  - destruct Ho as (_ & Hl & m & Hs & Hm). rewrite Hs. split_and!; [done|done|apply Hpre; lia|done].
Qed.

(** The piece has been taken and is handed on. *)
Lemma hand_on eof out r s (m : M Z) d n msg (v : lstate) :
  let s1 := after (in_call out) r s in
  both_ways eof (trace s) -> d = trans out (rbytes r) -> n <= Z.max readlen writelen ->
  plain msg && (length msg <? 1024)%nat = true ->
  wp m (handed (dst_of out) d n s1) s1 ->
  wp (k <~ m ;; if negb (k =? n) then SockError.err_sys msg [] else mpure (Next (R := lstate) v))
     (loops (fun (q : flow lstate lstate) s' => q = Next v /\ both_ways eof (trace s'))) s1.
Proof using SH Hsock.
  intros s1 Hb -> Hn Hmsg Hm. apply wp_then. eapply wp_mono; [exact Hm|]. intros o s2 (evs & Ht & Hw & Hpre & Ho).
  assert (Hpart : part_way (trace s2)) by (rewrite Ht; by eapply piece_part).
  destruct o as [k| | | |]; try done; cbn [andthen ends].
  - destruct (Z.eqb_spec k n) as [->|Hk]; cbn [negb]; [|by apply ends_sys; [apply part_way_output|..]].
    apply wp_pure. split; [done|]. rewrite Ht. apply piece_both; [done|done|by apply Ho].
  - split; [done|]. left. rewrite Ht, interrupts_app. lia.
Qed.

(** The translation of a piece that fits is handed on; one that does not ends the process. *)
Lemma translate_on eof out r s (tr : M (Z * list Z)) wb (fits : Prop) (next : list Z -> Z -> M Z) msg (v : list Z -> lstate) :
  let s1 := after (in_call out) r s in
  let d := trans out (rbytes r) in
  both_ways eof (trace s) -> Z.of_nat (length wb) = writelen -> plain msg && (length msg <? 1024)%nat = true ->
  wp tr (translated wb 0 d fits s1) s1 ->
  (forall wb' n s0, 0 <= n <= Z.of_nat (length wb') -> wp (next wb' n) (handed (dst_of out) (slice wb' 0 n) n s0) s0) ->
  wp (p <~ tr ;; let '(n, wb') := p in k <~ next wb' n ;;
      if negb (k =? n) then SockError.err_sys msg [] else mpure (Next (R := lstate) (v wb')))
     (loops (fun (q : flow lstate lstate) s' => exists wb', length wb' = length wb /\ q = Next (v wb') /\ both_ways eof (trace s'))) s1.
Proof using SH Hsock.
  intros s1 d Hb Hwb Hmsg Htr Hnext. apply wp_then. eapply wp_mono; [exact Htr|].
  intros o s2 Ho. destruct o as [[n wb']|code| | |]; try done; cbn [andthen translated] in *.
  - destruct Ho as (-> & -> & Hm & _). cbn [Nat.add]. pose proof (memcpy_length _ _ _ _ Hm) as Hlen.
    unfold memcpy in Hm. case_decide as Hd; [|done]. injection Hm as Hm. cbn [take app Nat.add] in Hm, Hd.
    assert (Hsl : slice wb' 0 (Z.of_nat (length d)) = d) by (unfold slice; rewrite Nat2Z.id, drop_0, <- Hm; apply (take_app_length d)).
    eapply ends_mono; [apply (hand_on eof out r s _ d); [done|done|lia|done|]|intros q s' [-> ?]; by exists wb'].
    pose proof (Hnext wb' (Z.of_nat (length d)) (after (in_call out) r s) ltac:(lia)) as Hn. by rewrite Hsl in Hn.
  - destruct Ho as (-> & [line ->] & _). split; [done|]. destruct (reported_history line s1) as (evs & -> & Hevs & _).
    apply part_way_output; [done|]. apply (piece_part eof out r []); [done|constructor|apply prefix_nil].
Qed.

(** ** The iterations *)

Record loop_inv (v : lstate) (s : st) : Prop := {
  li_both : both_ways (stdineof v) (trace s);
  li_bufs : bufs_ok v;
  li_rset : stdineof v = true -> STDIN_FILENO ∉ rset v;
}.

(** The peer has closed the connection. *)
Definition peer_closed (h : list event) : Prop :=
  exists r, rv r = 0 /\ (sys_recv sockfd readlen 0, r) ∈ h.

Lemma peer_closed_after evs h : peer_closed h -> peer_closed (evs ++ h).
Proof using Type. intros (r & ? & ?). exists r. split; [done|]. apply elem_of_app. by right. Qed.

(** Why the loop is left: standard input has ended and no half-close was asked for, or the peer has closed. *)
Definition loop_over (v : lstate) (h : list event) : Prop :=
  (stdin_ended h /\ is_set halfclose = false /\ stdineof v = false) \/ peer_closed h.

Definition loop_result (q : flow lstate lstate) (s : st) : Prop :=
  match q with
  | Next v | Return v => loop_inv v s
  | Break v => both_ways (stdineof v) (trace s) /\ loop_over v (trace s)
  end.

(** Nothing was delivered. *)
Lemma empty_piece eof out r s :
  both_ways eof (trace s) -> rbytes r = [] -> both_ways eof (trace (after (in_call out) r s)).
Proof using Hsock.
  intros Hb Hr. apply (piece_both eof out r []); [done|constructor|]. rewrite Hr. unfold trans. by destruct (is_set crlf), out.
Qed.

Lemma from_stdin_spec v s :
  loop_inv v s -> stdineof v = false -> wp (from_stdin sockfd v) (loops loop_result) s.
Proof using SH Hsock RDL RVL Hopts.
  intros [Hb [Hrb Hwb] _] He. rewrite He in Hb. unfold from_stdin. apply (take_piece true); [done|]. intros r rb' Hrb' Hr.
  pose proof (oo_read Hopts). assert (Hw0 : rv r = 0 -> rbytes r = []).
  { intros E. destruct Hr as [[? ?]|(Hv & _)]; [done|]. apply length_zero_iff_nil. lia. }
  destruct (Z.ltb_spec (rv r) 0) as [Hneg|Hneg].
  { destruct Hr as [[_ Hn]|(Hv & _)]; [|lia]. apply ends_sys; [apply part_way_output|done|]. by eapply both_part, empty_piece. }
  destruct Hr as [[? ?]|(Hv & Hle & Hsl)]; [lia|]. destruct (Z.eqb_spec (rv r) 0) as [E|E].
  - pose proof (empty_piece false true r s Hb (Hw0 E)) as Hb1. set (s1 := after (in_call true) r s) in *.
    assert (Hend : stdin_ended (trace s1)) by (exists readlen, r; split_and!; [done|done|by constructor]).
    destruct (is_set halfclose) eqn:Eh; [|apply wp_pure; cbn [stdineof loop_result]; rewrite He; split; [done|left; by split_and!]].
    apply wp_then, wp_sys. cbn [andthen]. set (c := sys_shutdown sockfd SHUT_WR). set (q := answer c s1).
    assert (Hb2 : both_ways true (trace (after c q s1))).
    { destruct Hb1 as [H1 H2 _]. split; cbn [after trace].
      - intros out. by rewrite put_cons, fed_cons, !app_nil_r.
      - rewrite fins_cons, H2. unfold is_fin, c. cbn. by rewrite Z.eqb_refl.
      - intros _. by apply stdin_ended_cons. }
    destruct (rv q <? 0); [apply ends_sys; [apply part_way_output|done|by eapply both_part]|].
    destruct (FD_CLR_spec STDIN_FILENO (rset v) ltac:(done)) as (rs & Er & Hrs). eapply wp_checked; [exact Er|].
    apply wp_pure. split; [done|by split|]. intros _ [Hx _]%Hrs. done.
  - destruct (is_set crlf) eqn:Ec.
    + eapply ends_mono; [apply (translate_on false true r s _ (wbuf v) (add_fits 0 writelen (rbytes r)) _ _
        (LS (stdineof v) (rset v) rb')); [done|done|done| |intros; by apply dowrite_handed]|].
      * unfold trans. rewrite Ec, <- Hsl. apply crlf_add_spec; [done|lia].
      * intros q s' (wb' & Hl & -> & Hb'). split; cbn; [by rewrite He|split; cbn; [done|by rewrite Hl]|by rewrite He].
    + eapply ends_mono; [apply (hand_on false true r s _ (rbytes r)); [done|unfold trans; by rewrite Ec|lia|done|]|].
      * pose proof (dowrite_handed rb' (rv r) (after (in_call true) r s) ltac:(lia)) as Hn. by rewrite Hsl in Hn.
      * intros q s' [-> Hb']. split; cbn; [by rewrite He|by split|by rewrite He].
Qed.

Lemma from_socket_spec v s : loop_inv v s -> wp (from_socket wfuel sockfd v) (loops loop_result) s.
Proof using SH Hsock RDL RVL WL Hopts.
  intros [Hb [Hrb Hwb] Hrs]. pose proof (oo_read Hopts). unfold from_socket. rewrite (oo_peek Hopts). cbn [is_set Z.eqb negb].
  eapply (ends_then _ _ _ _ loop_result); [|by intros [v1|v1|v1] s1 H1; apply wp_pure].
  unfold recv_once. apply (take_piece false); [done|]. intros r rb' Hrb' Hr.
  destruct (Z.ltb_spec (rv r) 0) as [Hneg|Hneg].
  { destruct Hr as [[_ Hn]|(Hv & _)]; [|lia]. apply ends_sys; [apply part_way_output|done|]. by eapply both_part, empty_piece. }
  destruct Hr as [[? ?]|(Hv & Hle & Hsl)]; [lia|]. destruct (Z.eqb_spec (rv r) 0) as [E|E].
  - assert (Hn : rbytes r = []) by (apply length_zero_iff_nil; lia).
    pose proof (empty_piece (stdineof v) false r s Hb Hn) as Hb1. set (s1 := after (in_call false) r s) in *.
    eapply (ends_then _ _ _ _ (fun _ s2 => both_ways (stdineof v) (trace s2) /\ peer_closed (trace s2))).
    2:{ intros _ s2 [H2 Hp]. apply wp_pure. split; [done|by right]. }
    apply (say_plain part_way _ (fun h => both_ways (stdineof v) h /\ peer_closed h)); [apply steady_and|done|split; [done|]].
    + apply both_ways_steady.
    + intros evs h. apply peer_closed_after.
    + exists r. split; [done|]. by constructor.
  - destruct (is_set crlf) eqn:Ec.
    + eapply ends_mono; [apply (translate_on (stdineof v) false r s _ (wbuf v) (strip_fits 0 writelen (rbytes r)) _ _
        (LS (stdineof v) (rset v) rb')); [done|done|done| |intros; by apply writen_handed]|].
      * unfold trans. rewrite Ec, <- Hsl. apply crlf_strip_spec; [done|lia].
      * intros q s' (wb' & Hl & -> & Hb'). split; cbn; [done|split; cbn; [done|by rewrite Hl]|done].
    + eapply ends_mono; [apply (hand_on (stdineof v) false r s _ (rbytes r)); [done|unfold trans; by rewrite Ec|lia|done|]|].
      * pose proof (writen_handed rb' (rv r) (after (in_call false) r s) ltac:(lia)) as Hn. by rewrite Hsl in Hn.
      * intros q s' [-> Hb']. split; cbn; [done|by split|done].
Qed.

Lemma loop_round_spec v s : loop_inv v s -> wp (loop_round wfuel sockfd v) (loops loop_result) s.
Proof using SH Hsock RDL RVL WL SL Hopts.
  intros [Hb Hbufs Hrs]. unfold loop_round.
  assert (exists rs1, (if stdineof v then Some (rset v) else FD_SET STDIN_FILENO (rset v)) = Some rs1 /\
    (stdineof v = true -> STDIN_FILENO ∉ rs1)) as (rs1 & E1 & H1).
  { destruct (stdineof v); [by exists (rset v); split; [|auto]|].
    destruct (FD_SET_spec STDIN_FILENO (rset v) ltac:(done)) as (r1 & -> & _). by exists r1. }
  eapply wp_checked; [exact E1|]. destruct (FD_SET_spec sockfd rs1 ltac:(lia)) as (rs2 & E2 & H2).
  eapply wp_checked; [exact E2|]. apply wp_then, wp_sys. cbn [andthen]. set (c := sys_select _ _ _ _ _). set (r := answer c s).
  assert (Hb1 : both_ways (stdineof v) (trace (after c r s))) by (apply (both_ways_idle _ [_]); [by repeat constructor|done]).
  destruct (Z.ltb_spec (rv r) 0) as [Hneg|Hneg]; [apply ends_sys; [apply part_way_output|done|by eapply both_part]|].
  set (v1 := LS (stdineof v) (rset_of r) (rbuf v) (wbuf v)).
  assert (Hin : stdineof v = true -> STDIN_FILENO ∉ rset_of r).
  { destruct (select_law (trace s) _ _ _ _ Hneg) as (_ & Hsub & _). intros He Hin%Hsub%H2.
    destruct Hin as [Hx|Hx]; [unfold STDIN_FILENO in Hx; lia|by apply H1]. }
  assert (Hi1 : loop_inv v1 (after c r s)) by (split; [done|by destruct Hbufs|done]).
  eapply wp_checked; [by apply FD_ISSET_spec|]. eapply (ends_then _ _ _ _ loop_result).
  { case_bool_decide as Hd; [|done]. apply from_stdin_spec; [done|]. cbn. by destruct (stdineof v); [destruct Hin|]. }
  intros [v2|v2|v2] s2 H; [|by apply wp_pure..]. eapply wp_checked; [apply FD_ISSET_spec; lia|].
  case_bool_decide; [by apply from_socket_spec|done].
Qed.

Lemma loop_rounds_spec rounds : forall v s, loop_inv v s -> wp (loop_rounds wfuel sockfd rounds v) (loops loop_result) s.
Proof using SH Hsock RDL RVL WL SL Hopts.
  induction rounds as [|k IH]; intros v s Hi; [done|]. cbn [loop_rounds].
  eapply ends_then; [by apply loop_round_spec|]. intros [v1|v1|v1] s1 H1; [by apply IH|by apply wp_pure|by apply IH].
Qed.

Lemma loop_tcp_spec rounds rb wb s :
  both_ways false (trace s) -> Z.of_nat (length rb) = readlen -> Z.of_nat (length wb) = writelen ->
  wp (loop_tcp sfuel wfuel sockfd rounds rb wb) (loops (fun q s' => match q with
    | Next v | Break v => loop_inv v s'
    | Return _ => exists v, (both_ways (stdineof v) (trace s') /\ loop_over v (trace s')) /\ closed_last sockfd (trace s')
    end)) s.
Proof using SH Hsock RDL RVL WL SL Hopts.
  intros Hb Hrb Hwb. unfold loop_tcp. eapply ends_then; [apply (pause_spec sfuel part_way _ short_of_naps); [apply both_ways_steady|apply Hopts|exact Hb]|].
  cbn beta. intros _ s1 H1. eapply ends_then; [by apply loop_rounds_spec|]. intros [v|v|v] s2 H2; [by apply wp_pure| |by apply wp_pure].
  eapply ends_then; [apply (finish_spec sfuel sockfd part_way _ part_way_output short_of_naps (fun h => both_ways (stdineof v) h /\ loop_over v h)); [apply steady_and| |exact H2]|].
  - apply both_ways_steady.
  - intros evs h [(? & ? & ?)|?]; [left|right; by apply peer_closed_after]. split_and!; [by apply stdin_ended_after|done..].
  - apply Hopts.
  - cbn beta. intros ? s3 H3. apply wp_pure. by exists v.
Qed.
End Loops.

(** * The pattern and the source *)

(** The printing characters in order, again and again. *)
Definition pattern_text (n : Z) : list Z := (fun i => 32 + i mod 95) <$> seqZ 0 n.

(** One character after [c]. *)
Definition next_ok (c : Z) : bool :=
  let c' := skip_nonprinting 128 (u8 (c + 1)) in
  negb (isprint (Z.land c 127)) ||
  (is_byte c' && isprint (Z.land c' 127) && (Z.land c' 127 =? (if Z.land c 127 =? 126 then 32 else Z.land c 127 + 1))).

Lemma next_character c : 0 <= c < 256 -> isprint (Z.land c 127) = true ->
  let c' := skip_nonprinting 128 (u8 (c + 1)) in
  0 <= c' < 256 /\ isprint (Z.land c' 127) = true /\ Z.land c' 127 = if Z.land c 127 =? 126 then 32 else Z.land c 127 + 1.
Proof.
  intros Hc Hp. assert (Hall : forallb next_ok (seqZ 0 256) = true) by (vm_compute; reflexivity).
  rewrite forallb_forall in Hall. specialize (Hall c). rewrite <- list_elem_of_In, elem_of_seqZ in Hall. specialize (Hall ltac:(lia)).
  unfold next_ok in Hall. rewrite Hp in Hall. cbn [negb orb] in Hall. cbv zeta. unfold is_byte in Hall.
  rewrite !andb_true_iff in Hall. destruct Hall as [[[H1 H2] H3] H4]. split_and!; [lia|lia|done|by apply Z.eqb_eq].
Qed.

Lemma pattern_loop_spec len : forall ptr p c,
  (p + len <= length ptr)%nat -> 0 <= skip_nonprinting 128 c < 256 ->
  Z.land (skip_nonprinting 128 c) 127 = 32 + Z.of_nat p mod 95 ->
  pattern_loop len ptr p c = memcpy ptr p ((fun i => 32 + i mod 95) <$> seqZ (Z.of_nat p) (Z.of_nat len)).
Proof.
  induction len as [|k IH]; intros ptr p c Hl Hc Hp; cbn [pattern_loop].
  { symmetry. apply memcpy_nil. lia. }
  pose proof (Z.mod_pos_bound (Z.of_nat p) 95 ltac:(lia)) as Hm.
  destruct (store_room ptr p (Z.land (skip_nonprinting 128 c) 127)) as (ptr1 & E1 & L1); [lia|].
  rewrite E1. cbn [mbind option_bind]. set (c1 := skip_nonprinting 128 c) in *.
  destruct (next_character c1 Hc) as (H1 & _ & H3).
  { unfold isprint. rewrite Hp, andb_true_iff, !Z.leb_le. lia. }
  rewrite IH; [|lia|done|].
  - rewrite (seqZ_cons (Z.of_nat p)) by lia. rewrite Nat2Z.inj_succ, <- Z.add_1_r.
    replace (Z.pred (Z.of_nat (S k))) with (Z.of_nat k) by lia. rewrite fmap_cons, <- Hp. apply store_memcpy_cons; [done|].
    rewrite length_fmap, length_seqZ. lia.
  - rewrite H3, Hp, Nat2Z.inj_succ, <- Z.add_1_r. destruct (Z.eqb_spec (32 + Z.of_nat p mod 95) 126) as [E|E].
    + rewrite <- Z.add_mod_idemp_l by lia. by replace (Z.of_nat p mod 95) with 94 by lia.
    + rewrite <- (Z.add_mod_idemp_l (Z.of_nat p) 1 95), (Z.mod_small (_ + 1)) by lia. lia.
Qed.

Lemma pattern_fills ptr n :
  n = Z.of_nat (length ptr) -> pattern ptr n = Some (pattern_text n).
Proof.
  intros ->. unfold pattern. rewrite Nat2Z.id. rewrite pattern_loop_spec; [|lia|by vm_compute|by vm_compute].
  rewrite memcpy_ok by (rewrite length_fmap, length_seqZ; lia).
  rewrite drop_ge by (rewrite length_fmap, length_seqZ; lia). cbn [take app]. by rewrite app_nil_r.
Qed.

Lemma print_d_short n : - 10 ^ 20 < n < 10 ^ 20 -> (length (print_d n) <= 21)%nat.
Proof.
  intros Hn. unfold print_d. destruct (Z.ltb_spec n 0); cbn [length].
  - pose proof (print_u_length 10 (- n) 19 ltac:(lia)). lia.
  - pose proof (print_u_length 10 n 19 ltac:(lia)). lia.
Qed.

(** [send] takes a prefix of the data; or it returns -1. *)
Class SendLaw `{OS} : Prop :=
  send_law : forall h fd d flags, -1 <= rv (os_answer h (sys_send fd d flags)) <= Z.of_nat (length d).

Lemma wp_assoc {A B C} (m : M A) (k : A -> M B) (j : B -> M C) Q s :
  wp (mthen (mthen m k) j) Q s -> wp (mthen m (fun a => mthen (k a) j)) Q s.
Proof. unfold wp, mthen. by destruct (m s) as [[] ?]. Qed.

Section Source.
Context {os : OS} {SE : Strerror} {SH : ShortErrors} {SO : SockOpts} {WL : WriteLaw} {SDL : SendLaw}.
Context (sfuel : nat) (sockfd : Z).
Hypothesis Hwrite : 0 <= writelen < 2 ^ 31.
Hypothesis Hstrict : is_set ignorewerr = false.
Hypothesis Hpause : pause_ok pauserw /\ pause_ok pauseinit /\ pause_ok pauseclose.

Definition copies (k : nat) : list Z := concat (replicate k (pattern_text writelen)).

Lemma pattern_text_length : Z.of_nat (length (pattern_text writelen)) = writelen.
Proof using Hwrite. unfold pattern_text. rewrite length_fmap, length_seqZ. lia. Qed.

Lemma copies_prefix k n : (k <= n)%nat -> copies k `prefix_of` copies n.
Proof using Type.
  intros Hk. unfold copies. replace n with (k + (n - k))%nat by lia. rewrite replicate_add, concat_app. by eexists.
Qed.

(** [k] of [n] buffers have been sent. *)
Definition sent_copies (k : nat) (h : list event) : Prop := put sockfd h = copies k.
Definition some_copies (n : nat) (h : list event) : Prop := put sockfd h `prefix_of` copies n.
Definition naps_short (h : list event) : Prop := (sfuel <= cut_naps h)%nat.

Lemma some_copies_idle n evs h : Forall idle evs -> some_copies n h -> some_copies n (evs ++ h).
Proof using Type. intros He. unfold some_copies. by rewrite (proj1 (proj2 (idle_same sockfd evs h He))). Qed.

Lemma sent_copies_steady k n : (k <= n)%nat -> steady (some_copies n) (sent_copies k).
Proof using Type.
  intros Hk. split.
  - intros evs h He. unfold sent_copies. by rewrite (proj1 (proj2 (idle_same sockfd evs h He))).
  - unfold sent_copies, some_copies. intros h ->. by apply copies_prefix.
Qed.

(** A report with two numbers. *)
Lemma ends_sys_numbers {A} n pre mid a b (Q : A -> st -> Prop) s :
  plain pre && plain mid && (length pre + length mid <? 512)%nat = true -> - 10 ^ 20 < a < 10 ^ 20 -> - 10 ^ 20 < b < 10 ^ 20 ->
  some_copies n (trace s) -> wp (SockError.err_sys (pre ++ c["%d"] ++ mid ++ c["%d"]) [AInt a; AInt b]) (ends (some_copies n) naps_short Q) s.
Proof using SH.
  intros [[[Hf Hn]%plain_of_bool [Hf' Hn']%plain_of_bool]%andb_prop Hl%Nat.ltb_lt]%andb_prop Ha Hb HI. unfold SockError.err_sys, wp.
  pose proof (print_d_short a Ha). pose proof (print_d_short b Hb). pose proof (short_errors (errno s)).
  erewrite then_val; [|apply (sock_err_doit_line true _ _ (pre ++ print_d a ++ mid ++ print_d b))].
  - split; [done|]. edestruct reported_history as (evs & -> & ?%output_moves_none & _). by apply some_copies_idle.
  - rewrite vformat_app_plain by done. change (vformat (c["%d"] ++ mid ++ c["%d"]) [AInt a; AInt b]) with (app (print_d a) <$> vformat (mid ++ c["%d"]) [AInt b]).
    rewrite vformat_app_plain by done. change (vformat c["%d"] [AInt b]) with (Some (print_d b ++ [])). by rewrite app_nil_r.
  - repeat (apply Forall_app; split); try done; unfold print_d;
      (match goal with |- context [?x <? 0] => destruct (x <? 0) end; [constructor; [done|]|]; by apply digit_char_nonzero).
  - rewrite !length_app. unfold MAXLINE. cbn [length cstr]. lia.
Qed.

(** The urgent byte, and what is said of it. *)
Lemma urgent_spec n k s :
  (k <= n)%nat -> sent_copies k (trace s) ->
  wp (r <~ sys (sys_send sockfd [u8 urgwrite] MSG_OOB) ;;
      if negb (rv r =? 1) then SockError.err_sys c["send of MSG_OOB returned %d, expected %d"] [AInt (rv r); AInt writelen]
      else say (c["wrote %d byte of urgent data"] ++ [10]) [AInt (rv r)])
     (ends (some_copies n) naps_short (fun _ s' => sent_copies k (trace s'))) s.
Proof using SH SDL Hwrite.
  intros Hk Hs. apply wp_then, wp_sys. cbn [andthen]. set (c := sys_send _ _ _).
  pose proof (send_law (trace s) sockfd [u8 urgwrite] MSG_OOB) as Hr. fold c in Hr. change (os_answer _ c) with (answer c s) in Hr.
  cbn [length] in Hr. pose proof (sent_copies_steady k n Hk) as HP.
  assert (Hs1 : sent_copies k (trace (after c (answer c s) s))) by (apply (sd_idle _ _ HP [_]); [by repeat constructor|done]).
  destruct (negb _).
  - apply (ends_sys_numbers n c["send of MSG_OOB returned "] c[", expected "]); [done|lia|lia|by apply (sd_part _ _ HP)].
  - eapply say_text; [done| |done]. apply (vformat_int c["wrote "] (c[" byte of urgent data"] ++ [10])); done.
Qed.

(** One buffer more. *)
Lemma buffer_spec n k s :
  (k < n)%nat -> sent_copies k (trace s) ->
  wp (r <~ sys (sys_write sockfd (pattern_text writelen)) ;;
      if negb (rv r =? writelen) then SockError.err_sys c["write returned %d, expected %d"] [AInt (rv r); AInt writelen]
      else say (c["wrote %d bytes"] ++ [10]) [AInt (rv r)])
     (ends (some_copies n) naps_short (fun _ s' => sent_copies (S k) (trace s'))) s.
Proof using SH WL Hwrite.
  intros Hk Hs. apply wp_then, wp_sys. cbn [andthen]. set (c := sys_write _ _). set (r := answer c s).
  pose proof (write_law (trace s) sockfd (pattern_text writelen)) as Hr. cbv zeta in Hr. fold c in Hr.
  change (os_answer (trace s) c) with r in Hr. rewrite pattern_text_length in Hr.
  assert (Hput : put sockfd (trace (after c r s)) = copies k ++ take (Z.to_nat (rv r)) (pattern_text writelen)).
  { cbn [after trace]. rewrite put_cons, Hs. unfold put_data, c. cbn [fst snd]. by rewrite Z.eqb_refl. }
  assert (HS : copies (S k) = copies k ++ pattern_text writelen).
  { unfold copies. rewrite replicate_S_end, concat_app. cbn. by rewrite app_nil_r. }
  pose proof (sent_copies_steady (S k) n Hk) as HP. destruct (Z.eqb_spec (rv r) writelen) as [E|E]; cbn [negb].
  - eapply say_text; [done|apply (vformat_int c["wrote "] (c[" bytes"] ++ [10])); done|].
    unfold sent_copies. rewrite Hput, HS, E, take_ge; [done|]. pose proof pattern_text_length. lia.
  - apply (ends_sys_numbers n c["write returned "] c[", expected "]); [done|lia|lia|]. unfold some_copies. rewrite Hput.
    transitivity (copies (S k)); [rewrite HS; apply prefix_app, prefix_take|].
    by apply copies_prefix.
Qed.

Lemma source_loop_spec n left : forall k i s,
  (k + left = n)%nat -> sent_copies k (trace s) ->
  wp (source_loop sfuel left sockfd (pattern_text writelen) i) (ends (some_copies n) naps_short (fun _ s' => sent_copies n (trace s'))) s.
Proof using SH WL SDL Hwrite Hstrict Hpause.
  induction left as [|m IH]; intros k i s Hk Hs; cbn [source_loop].
  { replace n with k by lia. done. }
  eapply (ends_then _ _ _ _ (fun _ s1 => sent_copies k (trace s1))).
  { destruct (urgwrite =? i); [|done]. apply urgent_spec; [lia|done]. }
  intros _ s1 H1. eapply wp_checked; [apply bytes_of_ok; rewrite ?pattern_text_length; lia|].
  replace (slice (pattern_text writelen) (Z.to_nat 0) writelen) with (pattern_text writelen).
  2:{ symmetry. unfold slice. change (Z.to_nat 0) with 0%nat. rewrite drop_0. apply take_ge. pose proof pattern_text_length. lia. }
  rewrite Hstrict. apply (wp_assoc (sys _)). eapply (ends_then _ _ _ _ (fun _ s2 => sent_copies (S k) (trace s2))); [apply buffer_spec; [lia|done]|].
  intros _ s2 H2. eapply ends_then.
  { apply (pause_spec sfuel (some_copies n) naps_short); [done|apply (sent_copies_steady (S k)); lia|apply Hpause|exact H2]. }
  cbn beta. intros _ s3 H3. apply (IH (S k)); [lia|done].
Qed.
End Source.

(** * Properties *)

Section Claims.
Context {os : OS} {SE : Strerror} {SH : ShortErrors} {SO : SockOpts}.
Context {RDL : ReadLaw} {RVL : RecvLaw} {WL : WriteLaw} {SDL : SendLaw} {SL : SelectLaw}.

(** The process has not used the terminal and the connection for data yet. *)
Definition unused (sockfd : Z) (h : list event) : Prop :=
  (forall fd, fed fd h = [] /\ put fd h = []) /\ fins sockfd h = 0%nat.

(** C16: [loop_tcp] copies everything both ways and translates the line ends.  Whatever the options
    for writing in chunks or with [writev], for the half-close and for pauses are, and whatever the
    terminal, the peer and the calls do within their contracts:
    - between two iterations the peer has got exactly what was read from standard input, and standard
      output exactly what was received, with returns added and removed when that was asked for;
    - with the half-close option the end of standard input is announced to the peer once, after all
      of the data, and standard input is not waited for any more;
    - the function returns after the peer has closed the connection, or at the end of standard input
      without the half-close option, and its last call closes the socket;
    - an error, also a translation that is taken for too long, ends the process with status 1, with
      prefixes of the data copied; no access leaves the two buffers;
    - the fuel is not enough only for interrupted writes and pauses. *)
Theorem loop_tcp_copies sfuel wfuel sockfd rounds rb wb s :
  2 <= sockfd < FD_SETSIZE -> opts_ok -> Z.of_nat (length rb) = readlen -> Z.of_nat (length wb) = writelen ->
  unused sockfd (trace s) ->
  let '(o, s') := loop_tcp sfuel wfuel sockfd rounds rb wb s in
  let h := trace s' in
  match o with
  | Val q =>
      put sockfd h = trans true (fed STDIN_FILENO h) /\ put STDOUT_FILENO h = trans false (fed sockfd h) /\
      match q with
      | Return _ =>
          closed_last sockfd h /\
          (stdin_ended h /\ is_set halfclose = false /\ fins sockfd h = 0%nat \/ peer_closed sockfd h)
      | Next v | Break v =>
          if stdineof v then stdin_ended h /\ fins sockfd h = 1%nat /\ STDIN_FILENO ∉ rset v else fins sockfd h = 0%nat
      end
  | Exited code =>
      code = 1 /\ put sockfd h `prefix_of` trans true (fed STDIN_FILENO h) /\
      put STDOUT_FILENO h `prefix_of` trans false (fed sockfd h) /\ (fins sockfd h <= 1)%nat
  | OutOfFuel => Z.of_nat wfuel < Z.max readlen writelen + Z.of_nat (interrupts h) \/ (sfuel <= cut_naps h)%nat
  | _ => False
  end.
Proof.
  intros Hsock Hopts Hrb Hwb [Hd Hf].
  assert (Hb : both_ways sockfd false (trace s)).
  { split; [|done|done]. intros out. destruct (Hd (dst_of sockfd out)) as [_ ->], (Hd (src_of sockfd out)) as [-> _].
    unfold trans. by destruct (is_set crlf), out. }
  pose proof (loop_tcp_spec sfuel wfuel sockfd Hsock Hopts rounds rb wb s Hb Hrb Hwb) as H. unfold wp in H.
  destruct (loop_tcp _ _ _ _ _ _ s) as [o s']. cbv zeta. destruct o as [q| | | |]; cbn [ends] in H; [..|by apply H].
  - assert (Hcopied : forall eof, both_ways sockfd eof (trace s') ->
      put sockfd (trace s') = trans true (fed STDIN_FILENO (trace s')) /\ put STDOUT_FILENO (trace s') = trans false (fed sockfd (trace s'))).
    { intros eof [Hp _ _]. split; [apply (Hp true)|apply (Hp false)]. }
    destruct q as [v|v|[]].
    1-2: destruct H as [Hbw _ Hrs]; destruct (Hcopied _ Hbw); split_and!; [done|done|]; destruct Hbw as [_ Hfin Hend];
      destruct (stdineof v); auto.
    destruct H as (v & [Hbw Hover] & Hcl). destruct (Hcopied _ Hbw). split_and!; [done|done|done|]. destruct Hbw as [_ Hfin _].
    destruct Hover as [(? & ? & E)|?]; [left|by right]. rewrite E in Hfin. by split_and!.
  - destruct H as [-> [Hp Hfin]]. split_and!; [done|apply (Hp true)|apply (Hp false)|done].
  - done.
  - done.
Qed.

(** The source sends [nbuf] copies of the pattern and then closes the connection; an error ends the process
    with a prefix of that sent; the fuel is not enough only for pauses that were cut short. *)
Theorem source_tcp_sends sfuel sockfd wb s :
  0 <= writelen < 2 ^ 31 -> is_set ignorewerr = false -> pause_ok pauserw /\ pause_ok pauseinit /\ pause_ok pauseclose ->
  Z.of_nat (length wb) = writelen -> put sockfd (trace s) = [] ->
  let total := concat (replicate (Z.to_nat nbuf) (pattern_text writelen)) in
  let '(o, s') := source_tcp sfuel sockfd wb s in
  match o with
  | Val _ => put sockfd (trace s') = total /\ closed_last sockfd (trace s')
  | Exited code => code = 1 /\ put sockfd (trace s') `prefix_of` total
  | OutOfFuel => (sfuel <= cut_naps (trace s'))%nat
  | _ => False
  end.
Proof.
  intros Hw Hstrict Hpause Hwb Hs total. set (n := Z.to_nat nbuf).
  assert (H : wp (source_tcp sfuel sockfd wb) (ends (some_copies sockfd n) (naps_short sfuel)
    (fun _ s' => sent_copies sockfd n (trace s') /\ closed_last sockfd (trace s'))) s).
  { unfold source_tcp. eapply wp_checked; [by apply pattern_fills|].
    eapply ends_then; [apply (pause_spec sfuel (some_copies sockfd n) (naps_short sfuel));
      [done|apply (sent_copies_steady sockfd 0); lia|apply Hpause|exact Hs]|]. cbn beta. intros _ s1 H1.
    eapply ends_then; [by apply (source_loop_spec sfuel sockfd Hw Hstrict Hpause n n 0)|]. cbn beta. intros _ s2 H2.
    apply finish_spec; [|done|by apply sent_copies_steady|apply Hpause|done].
    intros evs h He%output_moves_none. by apply some_copies_idle. }
  unfold wp in H. destruct (source_tcp sfuel sockfd wb s) as [o s']. destruct o; cbn [ends] in H; try done. apply H.
Qed.

(** Adding and then stripping returns gives the text back, where it has none of its own and the buffers are large
    enough. *)
Theorem crlf_roundtrip l dst dst2 s :
  13 ∉ l -> (length (add_cr l) < length dst)%nat -> (length l < length dst2)%nat ->
  exists n dst' dst2',
    crlf_add dst (Z.of_nat (length dst)) l (Z.of_nat (length l)) s = (Val (n, dst'), s) /\
    crlf_strip dst2 (Z.of_nat (length dst2)) dst' n s = (Val (Z.of_nat (length l), dst2'), s) /\ take (length l) dst2' = l.
Proof.
  intros Hcr Hl Hl2. set (n := Z.of_nat (length (add_cr l))).
  pose proof (crlf_add_spec dst _ l (Z.of_nat (length l)) s eq_refl ltac:(lia)) as H. cbv zeta in H.
  assert (Hsl : slice l 0 (Z.of_nat (length l)) = l) by (unfold slice; rewrite Nat2Z.id, drop_0; apply firstn_all).
  rewrite Hsl in H. unfold wp in H. destruct (crlf_add _ _ _ _ s) as [[[k dst']|code| | |] s1]; try done; cbn [translated] in H.
  2:{ destruct H as (_ & _ & H). destruct H. right. cbn [Nat.add]. lia. }
  destruct H as (-> & -> & Hm & _). cbn [Nat.add]. fold n. pose proof (memcpy_length _ _ _ _ Hm) as Hlen.
  unfold memcpy in Hm. case_decide; [|done]. injection Hm as Hm. cbn [take app Nat.add] in Hm.
  pose proof (crlf_strip_spec dst2 _ dst' n s eq_refl ltac:(lia)) as H2. cbv zeta in H2.
  assert (Hsl2 : slice dst' 0 n = add_cr l) by (unfold slice, n; rewrite Nat2Z.id, drop_0, <- Hm; apply (take_app_length (add_cr l))).
  unfold strip_fits in H2. rewrite Hsl2, strip_add in H2 by done. unfold wp in H2.
  destruct (crlf_strip _ _ _ _ s) as [[[k dst2']|code| | |] s1] eqn:E2; try done; cbn [translated] in H2.
  2:{ destruct H2 as (_ & _ & H2). destruct H2. right. cbn [Nat.add]. lia. }
  destruct H2 as (-> & -> & Hm2 & _). exists n, dst', dst2'. split_and!; [done|exact E2|].
  unfold memcpy in Hm2. case_decide; [|done]. injection Hm2 as <-. apply (take_app_length l).
Qed.

(** Where the code does not do what it means to: a text of exactly the size of the destination, which it would
    hold, is refused, so that with the default sizes a full read ends the process under the option [-c]. *)
Theorem crlf_strip_refuses_full dst l s :
  13 ∉ l -> l <> [] -> length l = length dst ->
  exists s', crlf_strip dst (Z.of_nat (length dst)) l (Z.of_nat (length l)) s = (Exited 1, s').
Proof.
  intros Hcr Hne Hl. pose proof (crlf_strip_spec dst _ l (Z.of_nat (length l)) s eq_refl ltac:(lia)) as H. cbv zeta in H.
  assert (Hsl : slice l 0 (Z.of_nat (length l)) = l) by (unfold slice; rewrite Nat2Z.id, drop_0; apply firstn_all).
  assert (Hst : strip_cr l = l).
  { unfold strip_cr. clear -Hcr. induction l as [|c l IH]; [done|]. rewrite not_elem_of_cons in Hcr. destruct Hcr.
    rewrite filter_cons_True by congruence. by rewrite IH. }
  unfold strip_fits in H. rewrite Hsl, Hst in H. unfold wp in H.
  destruct (crlf_strip _ _ _ _ s) as [[[k dst']|code| | |] s1]; try done; cbn [translated] in H.
  - destruct H as (_ & _ & _ & [?|Hx]); [done|]. lia.
  - destruct H as (-> & _). by exists s1.
Qed.
End Claims.

(** * Concrete runs *)

Definition one_strerror : Strerror.
Proof. refine {| strerror := fun _ => c["error"] |}. intros e. by repeat constructor. Defined.

(** Standard input is a line, the reply another one; everything is always ready. *)
Definition chat_os : OS := fun h c =>
  match c with
  | sys_read _ n => data (take (Z.to_nat n) (drop (length (fed 0 h)) (c["hi"] ++ [10])))
  | sys_recv fd n flags => data (take (Z.to_nat n) (drop (length (fed fd h)) (c["ok"] ++ [13; 10])))
  | c => busy_os (fun _ => false) h c
  end.

Lemma chat_os_data t k m : bytes_ok t -> 0 <= m -> read_ok m (data (take (Z.to_nat m) (drop k t))).
Proof.
  intros Ht Hm. split; [by apply Forall_take, Forall_drop|]. right. split; [done|]. cbn [data rv]. rewrite length_take. lia.
Qed.
Lemma chat_os_read : @ReadLaw chat_os.
Proof. intros h fd n Hn. apply chat_os_data; [by apply bytes_ok_bool|done]. Qed.
Lemma chat_os_recv : @RecvLaw chat_os.
Proof. intros h fd n flags Hn. apply chat_os_data; [by apply bytes_ok_bool|done]. Qed.
Lemma chat_os_write : @WriteLaw chat_os.
Proof. intros h fd d. by apply (busy_os_write (fun _ => false) h fd d). Qed.
Lemma chat_os_select : @SelectLaw chat_os.
Proof. intros h n rs ws t. by apply (busy_os_select (fun _ => false) h n rs ws t). Qed.
Lemma one_strerror_short : @ShortErrors one_strerror.
Proof. intros e. cbn. lia. Qed.

(** Line ends are translated, data is written in chunks, and the end of the input is announced. *)
Definition chat_opts : SockOpts :=
  {| chunkwrite := 1; crlf := 1; halfclose := 1; ignorewerr := 0; msgpeek := 0; nbuf := 1; pauseclose := 1; pauseinit := 0;
     pauserw := 0; readlen := 8; writelen := 8; urgwrite := 0; usewritev := 0; verbose := 1; UIO_MAXIOV := 16 |}.

Lemma chat_opts_ok : @opts_ok chat_opts.
Proof. by split. Qed.

#[local] Existing Instances one_strerror chat_os_read chat_os_recv chat_os_write chat_os_select one_strerror_short chat_opts.

(** After three iterations the peer has closed the connection and everything has been copied. *)
Lemma loop_tcp_copies_witness :
  let os := chat_os in
  let run := loop_tcp 1 100 3 3 (replicate 8 0) (replicate 8 0) init in
  put 3 (trace run.2) = c["hi"] ++ [13; 10] /\ put 1 (trace run.2) = c["ok"] ++ [10] /\
  match run with
  | (Val (Return _), s') => closed_last 3 (trace s')
  | _ => False
  end.
Proof.
  intros os run.
  pose proof (loop_tcp_copies (os := os) 1 100 3 3 (replicate 8 0) (replicate 8 0) init ltac:(done) chat_opts_ok eq_refl eq_refl
    ltac:(done)) as H. fold run in H.
  assert (Hv : match run with (Val (Return _), _) => true | _ => false end = true) by (vm_compute; reflexivity).
  split; [vm_compute; reflexivity|]. split; [vm_compute; reflexivity|]. revert Hv H. generalize run.
  intros [[[v|v|v]| | | |] s'] Hv H; try discriminate Hv. destruct H as (_ & _ & H & _). exact H.
Defined.

(** The reports of [sock/error.c] have no bound: a long argument of the command line overruns the buffer. *)
Lemma long_argument_overruns :
  let os := chat_os in
  let host := replicate (Z.to_nat MAXLINE) 97 in
  (SockError.err_quit (A := unit) c["too many source routes with: %s"] [AStr host] init).1 = Undefined.
Proof. vm_compute. reflexivity. Qed.
