(* ===== verification/SourceRoute.v ===== *)
(** IP source routes: building and printing of the option in [ipopts/sourceroute.c], and the version
    of the test tool in [sock/sourceroute.c].

    The option is built in a block of 44 bytes; a pointer into it is an offset.  What is received is a
    list of bytes and a pointer into it the bytes that follow, so that reading past the end is
    undefined. *)

From S2P Require Import Prelude CText Sys Traces Error Wrappers InetAddr PtonFacts SockUtil Gai Connect Packet RobustIO StreamFacts Servers SockTool SockToolClaims.

Definition IPOPT_NOP : Z := 1.
Definition IPOPT_LSRR : Z := 131.
Definition IPOPT_SSRR : Z := 137.
Definition IP_OPTIONS : Z := 4.

Definition srr_type (strict : bool) : Z := if strict then IPOPT_SSRR else IPOPT_LSRR.

(** * ipopts/sourceroute.c *)

(** The static variables, and the bytes of the block whose address is [block]. *)
Record srcrt : Type := SRT {
  block : Z;
  opts : list Z;
  optr : nat;
  lenptr : nat;
  ocnt : Z;
}.

Section Srcrt.
Context {os : OS} {SE : Strerror} {RS : Resolver}.

Definition inet_srcrt_init (type : bool) : M srcrt :=
  block <~ Malloc 44 ;;                               (* NOP, code, len, ptr, up to 10 addresses *)
  let opts := replicate 44 0 in                       (* guarantees EOLs at end *)
  opts <~ checked (store opts 0 IPOPT_NOP) ;;         (* NOP for alignment *)
  opts <~ checked (store opts 1 (srr_type type)) ;;
  opts <~ checked (store opts 3 4) ;;                 (* offset to first address *)
  mpure (SRT block opts 4 2 0).

(** The value is the size for [setsockopt]. *)
Definition inet_srcrt_add (hostptr : cstring) (v : srcrt) : M (Z * srcrt) :=
  if ocnt v >? 9 then err_quit c["too many source routes with: %s"] [AStr hostptr]
  else
    ai <~ Host_serv (Some hostptr) None AF_INET 0 ;;
    match snd <$> (head ai ≫= ai_addr) with
    | Some (SockIn _ sin_addr) =>
        a <~ checked (bytes_of sin_addr 0 4) ;;
        opts <~ checked (memcpy (opts v) (optr v) a) ;;
        release ai ;;;
        let ocnt := ocnt v + 1 in
        let len := 3 + ocnt * 4 in
        opts <~ checked (store opts (lenptr v) (u8 len)) ;;
        mpure (len + 1, SRT (block v) opts (optr v + 4) (lenptr v) ocnt)
    | _ => undefined
    end.

(** The callers add the hosts of the command line one after the other. *)
Fixpoint add_hosts (hosts : list cstring) (len : Z) (v : srcrt) : M (Z * srcrt) :=
  match hosts with
  | [] => mpure (len, v)
  | h :: hosts => r <~ inet_srcrt_add h v ;; add_hosts hosts r.1 r.2
  end.

(** [while ( (c = *ptr++) == IPOPT_NOP)]: the first other byte and what follows it. *)
Fixpoint skip_nops (ptr : list Z) : option (Z * list Z) :=
  match ptr with
  | [] => None
  | c :: ptr => if c =? IPOPT_NOP then skip_nops ptr else Some (c, ptr)
  end.

(** [printf ("%s ", Inet_ntop (AF_INET, ptr, str, sizeof (str)))] *)
Definition print_address (ptr : list Z) : M unit :=
  str <~ Inet_ntop AF_INET ptr (Some (replicate (Z.to_nat INET_ADDRSTRLEN) 0)) INET_ADDRSTRLEN ;;
  printf c["%s "] [AStr (cstring_at str 0)].

(** [while (len > 0)]; [len] iterations are more than enough. *)
Fixpoint print_hops (fuel : nat) (ptr : list Z) (len : Z) : M unit :=
  if len >? 0 then
    match fuel with
    | O => no_fuel
    | S f =>
        print_address ptr ;;;
        print_hops f (drop 4 ptr) (len - 4)
    end
  else mpure tt.

Definition inet_srcrt_print (ptr : list Z) (len : Z) : M unit :=
  hop1 <~ checked (bytes_of ptr 0 4) ;;
  p <~ checked (skip_nops (drop 4 ptr)) ;;
  let '(c, ptr) := p in
  if negb (c =? IPOPT_LSRR) && negb (c =? IPOPT_SSRR) then printf (c["received option type %d"] ++ [10]) [AInt c]
  else
    printf (if c =? IPOPT_LSRR then c["received LSRR: "] else c["received SSRR: "]) [] ;;;
    print_address hop1 ;;;
    optlen <~ checked (head ptr) ;;
    let len := optlen - 4 in                          (* subtract dest IP addr *)
    print_hops (Z.to_nat len) (drop 2 ptr) len ;;;    (* skip over length and pointer *)
    printf [10] [].
End Srcrt.

(** * sock/sourceroute.c *)

Module SockRoute.

(** The global variables; [sizeof_u_long] is the size of a [u_long]. *)
Record sroute : Type := SRO {
  sroute_opt : list Z;
  optr : nat;
  sroute_cnt : Z;
}.

Section SockRoute.
Context {os : OS} {SE : Strerror} {SO : SockOpts} {DB : Netdb}.
Context (sizeof_u_long : Z).

(** [memcpy (optr, addr, sizeof (u_long))] and the step to the next address; [src] are the bytes of
    the object that begins with the address. *)
Definition put_address (v : sroute) (src : list Z) : M sroute :=
  d <~ checked (bytes_of src 0 sizeof_u_long) ;;
  sroute_opt <~ checked (memcpy (sroute_opt v) (optr v) d) ;;
  mpure (SRO sroute_opt (optr v + Z.to_nat sizeof_u_long) (sroute_cnt v + 1)).

(** With [-v], the address as [inet_ntoa] writes it. *)
Definition say_route (a : list Z) : M unit :=
  if is_set verbose then
    str <~ checked (Ipv4Only.inet_ntop AF_INET a (replicate 16 0) 16) ;;
    match str with
    | inr str => say (c["source route to %s"] ++ [10]) [AStr (cstring_at str 0)]
    | inl _ => undefined
    end
  else mpure tt.

Definition sroute_doopt (strict : bool) (argptr : cstring) (v : sroute) : M sroute :=
  if sroute_cnt v >=? 9 then SockError.err_quit c["too many source routes with: %s"] [AStr argptr]
  else
    v <~ (if sroute_cnt v =? 0 then                   (* first one *)
            let opt := replicate 44 0 in
            opt <~ checked (store opt 0 (srr_type strict)) ;;
            opt <~ checked (store opt 2 4) ;;         (* ptr to first source-route address *)
            mpure (SRO opt 3 (sroute_cnt v))
          else mpure v) ;;
    match Aton.inet_aton argptr with
    | Some a =>
        v <~ put_address v (Aton.be32_bytes a) ;;     (* dotted decimal *)
        say_route (Aton.be32_bytes a) ;;; mpure v
    | None =>
        match gethostbyname false argptr with
        | inl hp =>
            h_addr <~ checked (head (h_addr_list hp)) ;;
            v <~ put_address v h_addr ;;              (* hostname *)
            say_route h_addr ;;; mpure v
        | inr _ => SockError.err_quit (c["unknown host: %s"] ++ [10]) [AStr argptr]
        end
    end.

(** [while ((optr - sroute_opt) & 3) optr++] *)
Definition round_up (n : nat) : nat := (n + (4 - n mod 4) mod 4)%nat.

(** The destination is followed by [sin_zero] in [servaddr]. *)
Definition sroute_set (sockfd : Z) (sin_addr : list Z) (v : sroute) : M sroute :=
  opt <~ checked (store (sroute_opt v) 1 (u8 (3 + (sroute_cnt v + 1) * 4))) ;;   (* total length, incl. destination *)
  v <~ put_address (SRO opt (optr v) (sroute_cnt v)) (sin_addr ++ replicate 8 0) ;;
  say_route sin_addr ;;;
  total <~ checked (sroute_opt v !! 1%nat) ;;
  say (c["source route size %d bytes"] ++ [10]) [AInt total] ;;;
  let size := round_up (optr v) in
  d <~ checked (bytes_of (sroute_opt v) 0 (Z.of_nat size)) ;;
  r <~ sys (sys_setsockopt sockfd IPPROTO_IP IP_OPTIONS (OBytes d)) ;;
  if rv r <? 0 then SockError.err_sys c["setsockopt error for IP_OPTIONS"] []
  else mpure (SRO (sroute_opt v) size 0).             (* don't call this function again *)

(** The options of the command line, one after the other. *)
Fixpoint do_opts (args : list (bool * cstring)) (v : sroute) : M sroute :=
  match args with
  | [] => mpure v
  | (strict, argptr) :: args => v <~ sroute_doopt strict argptr v ;; do_opts args v
  end.
End SockRoute.
End SockRoute.

(** * The option *)

(** The text on standard output. *)
Definition shown_data (e : event) : list Z :=
  match e.1 with sys_fputs t fp => if fp =? stdout then t else [] | _ => [] end.
Definition shown : list event -> list Z := collect shown_data.

Definition quad (a : list Z) : cstring := match a with [w; x; y; z] => Ntop.quad_text w x y z | _ => [] end.

(** Four bytes. *)
Definition address (a : list Z) : Prop := length a = 4%nat /\ bytes_ok a.

(** The block after [addrs] have been added: a NOP, the option with its length and the offset of the first
    address, the addresses, and zeros. *)
Definition route_block (strict : bool) (addrs : list (list Z)) : list Z :=
  let k := length addrs in
  [IPOPT_NOP; srr_type strict; match k with O => 0 | _ => 3 + Z.of_nat k * 4 end; 4] ++ concat addrs ++ replicate (40 - 4 * k) 0.

Lemma concat_addresses addrs : Forall address addrs -> length (concat addrs) = (4 * length addrs)%nat.
Proof. induction 1 as [|a addrs [Ha _] _ IH]; [done|]. cbn [concat length]. rewrite length_app. lia. Qed.

Lemma four_bytes a : address a -> exists w x y z, a = [w; x; y; z].
Proof. intros [Hl _]. destruct a as [|w [|x [|y [|z []]]]]; try done. by exists w, x, y, z. Qed.

Lemma bytes_of_all a rest : length a = 4%nat -> bytes_of (a ++ rest) 0 4 = Some a.
Proof.
  intros Hl. rewrite bytes_of_ok by (rewrite ?length_app; lia). unfold slice. change (Z.to_nat 0) with 0%nat.
  rewrite drop_0. change (Z.to_nat 4) with 4%nat. rewrite <- Hl. by rewrite take_app_length.
Qed.

Lemma memcpy_after (p a : list Z) n :
  (length a <= n)%nat -> memcpy (p ++ replicate n 0) (length p) a = Some (p ++ a ++ replicate (n - length a) 0).
Proof.
  intros Hl. rewrite memcpy_ok by (rewrite length_app, length_replicate; lia).
  rewrite take_app_length, drop_app_ge by lia. rewrite drop_replicate. do 4 f_equal. lia.
Qed.

Section SrcrtFacts.
Context {os : OS} {SE : Strerror} {RS : Resolver}.

(** The resolver knows [h] by the address [addr h]. *)
Definition known (addr : cstring -> list Z) (h : cstring) : Prop :=
  address (addr h) /\
  (forall s, exists ai ais p port s', resolve (Some h) None (Some (Hints AI_CANONNAME AF_INET 0 0)) s = (Val (inr (ai :: ais)), s') /\
     ai_addr ai = Some (p, SockIn port (addr h)) /\ forall s1, exists s2, release (ai :: ais) s1 = (Val tt, s2)).

Record built (strict : bool) (addrs : list (list Z)) (v : srcrt) : Prop := {
  bt_opts : opts v = route_block strict addrs;
  bt_optr : optr v = (4 + 4 * length addrs)%nat;
  bt_lenptr : lenptr v = 2%nat;
  bt_ocnt : ocnt v = Z.of_nat (length addrs);
}.

(** Without memory the process ends. *)
Lemma init_builds strict s :
  daemon_proc s = 0 -> wp (inet_srcrt_init strict) (ends anything (fun _ => False) (fun v _ => built strict [] v)) s.
Proof.
  intros Hd. unfold inet_srcrt_init, Malloc. eapply (ends_then _ _ _ _ (fun _ _ => True)).
  - eapply (ends_then _ _ _ _ (fun _ _ => True)); [|done]. by apply ends_call.
  - intros p s1 _. apply wp_pure. by split.
Qed.

(** One address more. *)
Lemma block_grows strict addrs a :
  Forall address addrs -> address a -> (length addrs <= 9)%nat ->
  exists b, memcpy (route_block strict addrs) (4 + 4 * length addrs) a = Some b /\
    store b 2 (u8 (3 + (Z.of_nat (length addrs) + 1) * 4)) = Some (route_block strict (addrs ++ [a])).
Proof.
  intros Hs [Ha _] Hk. pose proof (concat_addresses addrs Hs) as Hc. unfold route_block. set (k := length addrs) in *.
  set (hdr := [IPOPT_NOP; _; _; 4]). assert (Hh : (4 + 4 * k)%nat = length (hdr ++ concat addrs)) by (rewrite length_app, Hc; done).
  rewrite (app_assoc hdr), Hh, memcpy_after by lia. eexists. split; [done|]. rewrite Ha.
  unfold store. rewrite decide_True by (rewrite !length_app; cbn; lia). f_equal. rewrite <- !app_assoc. cbn [hdr app].
  rewrite length_app, concat_app. cbn [length concat]. rewrite app_nil_r. fold k. cbn [insert list_insert].
  replace (k + 1)%nat with (S k) by lia. unfold wrap. rewrite Z.mod_small by lia. do 3 f_equal; [lia|]. rewrite <- app_assoc. do 4 f_equal. lia.
Qed.

Lemma add_known strict addr addrs h v s :
  known addr h -> Forall address addrs -> (length addrs <= 9)%nat -> built strict addrs v ->
  exists v' s', inet_srcrt_add h v s = (Val (8 + 4 * Z.of_nat (length addrs), v'), s') /\ built strict (addrs ++ [addr h]) v'.
Proof.
  intros [Ha Hr] Hs Hk [Hopts Hptr Hlen Hcnt]. unfold inet_srcrt_add. rewrite Hcnt, Hopts, Hptr, Hlen, Z.gtb_ltb.
  destruct (Z.ltb_spec 9 (Z.of_nat (length addrs))); [lia|].
  destruct (Hr s) as (ai & ais & p & port & s1 & Er & Eai & Hrel).
  erewrite then_val; [|unfold Host_serv; erewrite then_val; [|exact Er]; reflexivity].
  cbn [head mbind option_bind fmap option_fmap option_map]. rewrite Eai. cbn [fmap option_fmap option_map snd].
  rewrite <- (app_nil_r (addr h)), (bytes_of_all (addr h) []), app_nil_r by apply Ha. cbn [checked]. rewrite then_pure.
  destruct (block_grows strict addrs (addr h) Hs Ha Hk) as (b & E1 & E2). rewrite E1. cbn [checked]. rewrite then_pure.
  destruct (Hrel s1) as (s2 & E3). erewrite then_val; [|exact E3]. rewrite E2. cbn [checked]. rewrite then_pure.
  replace (3 + (Z.of_nat (length addrs) + 1) * 4 + 1) with (8 + 4 * Z.of_nat (length addrs)) by lia.
  eexists _, _. split; [done|]. split; cbn; rewrite ?length_app; cbn [length]; [done|lia|done|lia].
Qed.

Lemma add_hosts_known strict addr hosts : forall addrs len v s,
  Forall (known addr) hosts -> Forall address addrs -> (length addrs + length hosts <= 10)%nat ->
  len = match length addrs with O => 0 | k => 4 + 4 * Z.of_nat k end -> built strict addrs v ->
  exists v' s', let all := addrs ++ (addr <$> hosts) in
    add_hosts hosts len v s = (Val (match length all with O => 0 | k => 4 + 4 * Z.of_nat k end, v'), s') /\ built strict all v'.
Proof.
  induction hosts as [|h hosts IH]; intros addrs len v s Hh Hs Hk -> Hb; cbn [add_hosts fmap list_fmap].
  { rewrite app_nil_r. by exists v, s. }
  apply Forall_cons in Hh as [Hh1 Hh2]. cbn [length] in Hk.
  destruct (add_known strict addr addrs h v s Hh1 Hs) as (v1 & s1 & E & Hb1); [lia|done|].
  erewrite then_val; [|exact E]. cbn [fst snd].
  destruct (IH (addrs ++ [addr h]) (8 + 4 * Z.of_nat (length addrs)) v1 s1) as (v' & s' & E' & Hb'); [done| | | |done|].
  - apply Forall_app. split; [done|]. apply Forall_singleton, Hh1.
  - rewrite length_app. cbn [length]. lia.
  - rewrite length_app, Nat.add_1_r. lia.
  - exists v', s'. rewrite <- app_assoc in E', Hb'. by split.
Qed.

(** ** Printing *)

Lemma printf_shows fmt ap text s :
  vformat fmt ap = Some text -> exists s', printf fmt ap s = (Val tt, s') /\ shown (trace s') = shown (trace s) ++ text.
Proof.
  intros E. unfold printf. rewrite E. cbn [checked]. rewrite then_pure, then_sys. eexists. split; [done|].
  cbn [after trace]. unfold shown. by rewrite collect_cons.
Qed.

Lemma print_address_shows a rest s :
  address a -> exists s', print_address (a ++ rest) s = (Val tt, s') /\ shown (trace s') = shown (trace s) ++ quad a ++ c[" "].
Proof.
  intros Ha. destruct (four_bytes a Ha) as (w & x & y & z & ->). destruct Ha as [_ Hb]. unfold print_address, Inet_ntop.
  cbn [app]. unfold Ntop.inet_ntop. change (AF_INET =? AF_INET) with true. cbv iota. rewrite inet_ntop4_spec by done.
  pose proof (quad_text_length w x y z Hb) as Hl. rewrite Z.gtb_ltb.
  destruct (Z.ltb_spec INET_ADDRSTRLEN (Z.of_nat (length (Ntop.quad_text w x y z)))) as [Hx|_]; [unfold INET_ADDRSTRLEN in Hx; lia|].
  rewrite put_text_ok by (rewrite length_replicate; unfold INET_ADDRSTRLEN; lia). cbn [fmap option_fmap option_map checked take app].
  erewrite then_val; [|by rewrite then_pure].
  rewrite (cstring_at_text [] (Ntop.quad_text w x y z)) by (apply quad_text_nul_free || done). apply printf_shows. done.
Qed.

Definition quads (addrs : list (list Z)) : cstring := concat ((fun a => quad a ++ c[" "]) <$> addrs).

Lemma print_hops_shows addrs : forall fuel len rest s,
  Forall address addrs -> (length addrs <= fuel)%nat ->
  4 * Z.of_nat (length addrs) - 4 < len <= 4 * Z.of_nat (length addrs) ->
  exists s', print_hops fuel (concat addrs ++ rest) len s = (Val tt, s') /\ shown (trace s') = shown (trace s) ++ quads addrs.
Proof.
  induction addrs as [|a addrs IH]; intros fuel len rest s Hs Hf Hl; cbn [length concat] in *.
  - exists s. split; [|by rewrite app_nil_r]. destruct fuel; cbn [print_hops]; (destruct (Z.gtb_spec len 0); [lia|done]).
  - apply Forall_cons in Hs as [Ha Hs]. destruct fuel as [|f]; [lia|]. cbn [print_hops]. destruct (Z.gtb_spec len 0); [|lia].
    rewrite <- app_assoc. destruct (print_address_shows a (concat addrs ++ rest) s Ha) as (s1 & E1 & H1).
    erewrite then_val; [|exact E1]. rewrite drop_app_length' by (symmetry; apply Ha).
    destruct (IH f (len - 4) rest s1 Hs) as (s2 & E2 & H2); [lia|lia|]. exists s2. split; [done|].
    rewrite H2, H1. unfold quads. cbn [fmap list_fmap concat]. by rewrite <- !app_assoc.
Qed.

(** What is printed for a block with at least one address behind the address of the first hop. *)
Definition route_text (strict : bool) (addrs : list (list Z)) : cstring :=
  (if strict then c["received SSRR: "] else c["received LSRR: "]) ++ quads addrs ++ [10].

Lemma print_block strict hop1 addrs len s :
  address hop1 -> Forall address addrs -> (1 <= length addrs)%nat ->
  exists s', inet_srcrt_print (hop1 ++ route_block strict addrs) len s = (Val tt, s') /\
    shown (trace s') = shown (trace s) ++ route_text strict (hop1 :: addrs).
Proof.
  intros Hh Hs Hk. unfold inet_srcrt_print. rewrite bytes_of_all by apply Hh. cbn [checked]. rewrite then_pure.
  rewrite drop_app_length' by (symmetry; apply Hh). unfold route_block. cbn [app skip_nops]. change (IPOPT_NOP =? IPOPT_NOP) with true. cbv iota.
  assert ((srr_type strict =? IPOPT_NOP) = false) as -> by (by destruct strict). cbn [checked]. rewrite then_pure.
  destruct (printf_shows (if srr_type strict =? IPOPT_LSRR then c["received LSRR: "] else c["received SSRR: "]) []
    (if strict then c["received SSRR: "] else c["received LSRR: "]) s ltac:(by destruct strict)) as (s1 & E1 & H1).
  assert ((negb (srr_type strict =? IPOPT_LSRR) && negb (srr_type strict =? IPOPT_SSRR)) = false) as -> by (by destruct strict).
  erewrite then_val; [|exact E1]. destruct (print_address_shows hop1 [] s1 Hh) as (s2 & E2 & H2). rewrite app_nil_r in E2.
  erewrite then_val; [|exact E2]. cbn [head checked]. rewrite then_pure. cbn [drop].
  destruct (length addrs) as [|k] eqn:Ek; [lia|]. set (n := 3 + Z.of_nat (S k) * 4 - 4).
  destruct (print_hops_shows addrs (Z.to_nat n) n (replicate (40 - 4 * S k) 0) s2 Hs) as (s3 & E3 & H3); [unfold n; lia..|].
  erewrite then_val; [|exact E3]. destruct (printf_shows [10] [] [10] s3 eq_refl) as (s4 & E4 & H4).
  exists s4. split; [exact E4|]. rewrite H4, H3, H2, H1. unfold route_text, quads. cbn [fmap list_fmap concat]. by rewrite <- !app_assoc.
Qed.
End SrcrtFacts.

(** * Properties *)

Section Claims.
Context {os : OS} {SE : Strerror} {RS : Resolver}.

(** C17: a source route is built as the protocol wants it, and read back.  For up to ten hosts that
    the resolver knows, [inet_srcrt_init] and an [inet_srcrt_add] for each of them leave in the 44
    bytes a NOP, the option with its type, length and first offset, and the addresses in order, aligned
    to four bytes and followed by zeros, and return the size of this; no access leaves the block; an
    eleventh host ends the process.  [inet_srcrt_print] of such a block behind the address of a first
    hop prints that address and those of the hosts, in order, whatever length it is told.  If the
    memory for the block cannot be had, the process ends. *)
Theorem source_route_roundtrip addr strict hosts hop1 s :
  Forall (known addr) hosts -> (1 <= length hosts <= 10)%nat -> address hop1 -> daemon_proc s = 0 ->
  let addrs := addr <$> hosts in
  let k := Z.of_nat (length hosts) in
  match inet_srcrt_init strict s with
  | (Val v0, s1) =>
      exists v s2, add_hosts hosts 0 v0 s1 = (Val (4 + 4 * k, v), s2) /\
        opts v = [IPOPT_NOP; srr_type strict; 3 + 4 * k; 4] ++ concat addrs ++ replicate (40 - 4 * length hosts) 0 /\
        (forall len s3, exists s4, inet_srcrt_print (hop1 ++ opts v) len s3 = (Val tt, s4) /\
           shown (trace s4) = shown (trace s3) ++ route_text strict (hop1 :: addrs)) /\
        (forall h s3, length hosts = 10%nat -> nul_free h -> daemon_proc s3 = 0 -> exists s4, inet_srcrt_add h v s3 = (Exited 1, s4))
  | (Exited code, _) => code = 1
  | _ => False
  end.
Proof.
  intros Hh Hk Hhop Hd addrs k. pose proof (init_builds strict s Hd) as Hi. unfold wp in Hi.
  destruct (inet_srcrt_init strict s) as [[v0|code| | |] s1]; cbn [ends] in Hi; [|by destruct Hi|done|done|by destruct Hi].
  assert (Hs : Forall address addrs).
  { apply Forall_fmap. eapply Forall_impl; [exact Hh|]. intros h [Ha _]. exact Ha. }
  destruct (add_hosts_known strict addr hosts [] 0 v0 s1 Hh (Forall_nil_2 _) ltac:(cbn; lia) eq_refl Hi) as (v & s2 & E & [H1 H2 H3 H4]).
  cbn [app] in E, H1, H2, H4. fold addrs in E, H1, H2, H4. assert (Hl : length addrs = length hosts) by apply length_fmap.
  rewrite Hl in E, H4. unfold k.
  destruct (length hosts) as [|m] eqn:Em; [lia|]. exists v, s2. split_and!.
  - exact E.
  - rewrite H1. unfold route_block. rewrite Hl. replace (4 * Z.of_nat (S m)) with (Z.of_nat (S m) * 4) by lia. done.
  - intros len s3. rewrite H1. apply print_block; [done|done|]. lia.
  - intros h s3 E10 Hn Hd3. unfold inet_srcrt_add. rewrite H4, E10. change (Z.of_nat 10 >? 9) with true. cbv iota.
    rewrite (err_quit_exits _ _ (c["too many source routes with: "] ++ h)); [by eexists| | |done].
    + apply (vformat_one_string c["too many source routes with: "]). by apply plain_of_bool.
    + apply Forall_app. split; [by repeat constructor|done].
Qed.
End Claims.

(** ** The test tool *)

Section SockRouteFacts.
Context {os : OS} {SE : Strerror} {SH : ShortErrors} {SO : SockOpts} {DB : Netdb}.
Import SockRoute.
Hypothesis Hquiet : is_set verbose = false.

(** The address an argument stands for: dotted decimal or the name of a host. *)
Definition route_address (arg : cstring) : option (list Z) :=
  match Aton.inet_aton arg with
  | Some a => Some (Aton.be32_bytes a)
  | None => match gethostbyname false arg with inl hp => head (h_addr_list hp) | inr _ => None end
  end.

(** The option after [addrs], with the byte for its length. *)
Record sbuilt (strict : bool) (len : Z) (addrs : list (list Z)) (v : sroute) : Prop := {
  sb_opt : sroute_opt v = [srr_type strict; len; 4] ++ concat addrs ++ replicate (41 - 4 * length addrs) 0;
  sb_optr : SockRoute.optr v = (3 + 4 * length addrs)%nat;
  sb_cnt : sroute_cnt v = Z.of_nat (length addrs);
}.

Lemma put_address_builds strict len addrs a rest v s :
  Forall address addrs -> address a -> (length addrs <= 9)%nat -> sbuilt strict len addrs v ->
  exists v', put_address 4 v (a ++ rest) s = (Val v', s) /\ sbuilt strict len (addrs ++ [a]) v'.
Proof using Type.
  intros Hs Ha Hk [Hopt Hptr Hcnt]. pose proof (concat_addresses addrs Hs) as Hc. unfold put_address.
  rewrite bytes_of_all by apply Ha. cbn [checked]. rewrite then_pure, Hopt, Hptr, Hcnt, app_assoc.
  replace (3 + 4 * length addrs)%nat with (length ([srr_type strict; len; 4] ++ concat addrs)) by (rewrite length_app, Hc; done).
  destruct Ha as [Ha _]. rewrite memcpy_after by lia. cbn [checked]. rewrite then_pure. eexists. split; [done|].
  split; cbn [sroute_opt SockRoute.optr sroute_cnt]; rewrite ?length_app, ?concat_app, ?Hc; cbn [length concat]; [|lia|lia].
  rewrite app_nil_r, <- !app_assoc, Ha. do 4 f_equal. lia.
Qed.

Lemma doopt_builds strict strict' addrs a arg v s :
  route_address arg = Some a -> address a -> Forall address addrs -> (length addrs <= 8)%nat ->
  (addrs = [] /\ sroute_cnt v = 0 /\ strict' = strict \/ addrs <> [] /\ sbuilt strict' 0 addrs v) ->
  exists v', sroute_doopt 4 strict arg v s = (Val v', s) /\ sbuilt strict' 0 (addrs ++ [a]) v'.
Proof using Hquiet.
  intros Hr Ha Hs Hk Hv. unfold sroute_doopt.
  assert (Hcnt : sroute_cnt v = Z.of_nat (length addrs)) by (destruct Hv as [(-> & -> & _)|[_ []]]; done).
  rewrite Hcnt, Z.geb_leb. destruct (Z.leb_spec 9 (Z.of_nat (length addrs))); [lia|].
  assert (exists v1, (if Z.of_nat (length addrs) =? 0 then
      opt <~ checked (store (replicate 44 0) 0 (srr_type strict)) ;; opt <~ checked (store opt 2 4) ;; mpure (SRO opt 3 (Z.of_nat (length addrs)))
    else mpure v) s = (Val v1, s) /\ sbuilt strict' 0 addrs v1) as (v1 & E1 & H1).
  { destruct Hv as [(-> & Hz & ->)|[Hne Hb]]; [eexists; split; [reflexivity|by split]|].
    destruct addrs; [done|]. by exists v. }
  erewrite then_val; [|exact E1]. destruct (put_address_builds strict' 0 addrs a [] v1 s Hs Ha ltac:(lia) H1) as (v2 & E2 & H2).
  rewrite app_nil_r in E2. unfold route_address in Hr. unfold say_route. rewrite Hquiet.
  destruct (Aton.inet_aton arg); [|destruct (gethostbyname false arg) as [hp|]; [|done]].
  - injection Hr as ->. erewrite then_val; [|exact E2]. by exists v2.
  - rewrite Hr. cbn [checked]. rewrite then_pure. erewrite then_val; [|exact E2]. by exists v2.
Qed.

Lemma do_opts_builds strict args : forall addrs addrs' v s,
  mapM (fun a => route_address a.2) args = Some addrs' -> Forall address addrs' -> Forall address addrs ->
  (length addrs + length args <= 9)%nat -> addrs <> [] -> sbuilt strict 0 addrs v ->
  exists v', do_opts 4 args v s = (Val v', s) /\ sbuilt strict 0 (addrs ++ addrs') v'.
Proof using Hquiet.
  induction args as [|[st arg] args IH]; intros addrs addrs' v s Hm Ha Hs Hk Hne Hb; cbn [do_opts length] in *.
  { injection Hm as <-. exists v. by rewrite app_nil_r. }
  apply mapM_Some in Hm. apply Forall2_cons_inv_l in Hm as (a & rest & H1 & H2 & ->). cbn [snd] in H1.
  apply Forall_cons in Ha as [Ha Hr]. destruct (doopt_builds st strict addrs a arg v s H1 Ha Hs) as (v1 & E1 & Hb1); [lia|by right|].
  erewrite then_val; [|exact E1]. apply mapM_Some in H2.
  destruct (IH (addrs ++ [a]) rest v1 s H2 Hr) as (v2 & E2 & Hb2); [|rewrite length_app; cbn [length]; lia|by destruct addrs|done|].
  - apply Forall_app. by rewrite Forall_singleton.
  - exists v2. by rewrite <- app_assoc in Hb2.
Qed.

(** On a host where a [long] has four bytes, the options [-g] and [-G] and [sroute_set] hand the kernel the
    source route: the type of the first option, the length, the addresses of the arguments in order and then the
    destination, padded to a multiple of four bytes. *)
Theorem sroute_option sockfd dest strict arg args addrs v s :
  sroute_cnt v = 0 -> mapM (fun a => route_address a.2) ((strict, arg) :: args) = Some addrs ->
  Forall address addrs -> address dest -> (length args <= 8)%nat ->
  let k := Z.of_nat (length addrs) in
  match (v <~ do_opts 4 ((strict, arg) :: args) v ;; sroute_set 4 sockfd dest v) s with
  | (Val v', s') =>
      sroute_cnt v' = 0 /\ exists r, 0 <= rv r /\ trace s' =
        (sys_setsockopt sockfd IPPROTO_IP IP_OPTIONS (OBytes ([srr_type strict; 3 + (k + 1) * 4; 4] ++ concat addrs ++ dest ++ [0])), r) :: trace s
  | (Exited code, _) => code = 1
  | _ => False
  end.
Proof using Hquiet SH.
  intros Hz Hm Ha Hdest Hk k. pose proof (length_mapM _ _ _ Hm) as Hlen. cbn [length] in Hlen.
  apply mapM_Some in Hm. apply Forall2_cons_inv_l in Hm as (a & rest & H1 & H2 & ->). cbn [snd] in H1. apply mapM_Some in H2.
  apply Forall_cons in Ha as [Ha Hr]. cbn [length] in Hlen.
  destruct (doopt_builds strict strict [] a arg v s H1 Ha (Forall_nil_2 _)) as (v1 & E1 & Hb1); [cbn; lia|by left|].
  destruct (do_opts_builds strict args [a] rest v1 s H2 Hr) as (v2 & E2 & Hb2); [by apply Forall_singleton|cbn; lia|done|done|].
  cbn [app] in Hb2. set (addrs := a :: rest) in *. assert (Hall : Forall address addrs) by by apply Forall_cons.
  pose proof (concat_addresses addrs Hall) as Hc. assert (Hl : (length addrs <= 9)%nat) by (unfold addrs; cbn [length]; lia).
  erewrite then_val; [|cbn [do_opts]; erewrite then_val; [|exact E1]; exact E2].
  destruct Hb2 as [Hopt Hptr Hcnt]. unfold sroute_set. rewrite Hopt, Hcnt. fold k.
  set (n := u8 (3 + (k + 1) * 4)). assert (Hn : n = 3 + (k + 1) * 4) by (unfold n, wrap; rewrite Z.mod_small by lia; done).
  set (opt := [srr_type strict; n; 4] ++ concat addrs ++ replicate (41 - 4 * length addrs) 0).
  change (store _ 1 n) with (Some opt). cbn [checked]. rewrite then_pure.
  destruct (put_address_builds strict n addrs dest (replicate 8 0) (SRO opt (SockRoute.optr v2) k) s Hall Hdest Hl) as (v3 & E3 & Hb3).
  { by split. }
  erewrite then_val; [|exact E3]. destruct Hb3 as [Hopt3 Hptr3 Hcnt3]. unfold say_route, say. rewrite Hquiet.
  assert (E4 : sroute_opt v3 !! 1%nat = Some n) by (by rewrite Hopt3). rewrite then_pure, E4. cbn [checked]. rewrite then_pure, then_pure.
  set (L := [srr_type strict; n; 4] ++ concat addrs ++ dest ++ [0]).
  assert (HL : length L = round_up (SockRoute.optr v3)).
  { unfold L. rewrite Hptr3, !length_app, Hc, (proj1 Hdest). cbn [length]. unfold round_up.
    replace (3 + 4 * (length addrs + 1))%nat with (3 + (length addrs + 1) * 4)%nat by lia. rewrite Nat.Div0.mod_add. cbn. lia. }
  assert (Hfull : sroute_opt v3 = L ++ replicate (36 - 4 * length addrs) 0).
  { rewrite Hopt3. unfold L. rewrite concat_app, length_app. cbn [concat length].
    replace (41 - 4 * (length addrs + 1))%nat with (S (36 - 4 * length addrs)) by lia. cbn [replicate]. by rewrite app_nil_r, <- !app_assoc. }
  rewrite <- HL, Hfull, bytes_of_ok by (rewrite ?length_app; lia). unfold slice. change (Z.to_nat 0) with 0%nat.
  rewrite drop_0, Nat2Z.id, take_app_length. cbn [checked]. rewrite then_pure, then_sys. set (c := sys_setsockopt _ _ _ _).
  destruct (Z.ltb_spec (rv (answer c s)) 0) as [Hneg|Hpos].
  - pose proof (ends_sys (A := sroute) anything (fun _ => False) anything_output c["setsockopt error for IP_OPTIONS"] (fun _ _ => False)
      (after c (answer c s) s) eq_refl Logic.I) as He. unfold wp in He. destruct (SockError.err_sys _ _ _) as [o s'].
    destruct o; cbn [ends] in He; [done|by destruct He|done|done|by destruct He].
  - split; [done|]. exists (answer c s). split; [done|]. unfold c, L. by rewrite Hn.
Qed.

(** Where a [long] has eight bytes, the first option already copies eight bytes out of an address of four. *)
Theorem sroute_long_undefined strict arg v s :
  sroute_cnt v = 0 -> is_Some (Aton.inet_aton arg) -> (sroute_doopt 8 strict arg v s).1 = Undefined.
Proof using Type.
  intros Hz [a Ha]. unfold sroute_doopt. rewrite Hz, Ha. reflexivity.
Qed.
End SockRouteFacts.

(** * Concrete runs *)

(** A resolver that knows two hosts. *)
Definition two_hosts (h : cstring) : list Z := if decide (h = c["a"]) then [10; 0; 0; 1] else [10; 0; 0; 2].

Definition two_resolver : Resolver :=
  {| resolve := fun host _ _ => mpure (inr [AI 1 0 AF_INET 0 0 16 None (Some (2, SockIn [0; 0] (two_hosts (default [] host))))]);
     release := fun _ => mpure tt |}.

Lemma two_hosts_known h : @known two_resolver two_hosts h.
Proof.
  split; [unfold two_hosts, address; case_decide; by repeat constructor|].
  intros s. eexists _, _, _, _, _. split; [reflexivity|]. split; [reflexivity|]. intros s1. by eexists.
Qed.

#[local] Existing Instances two_resolver numeric_strerror.

(** [tcpcli01 -g a b], with the destination [b] at the end. *)
Lemma source_route_roundtrip_witness :
  let os := script [ok 1] in
  match inet_srcrt_init false init with
  | (Val v0, s1) =>
      match add_hosts [c["a"]; c["b"]] 0 v0 s1 with
      | (Val (n, v), _) =>
          n = 12 /\ opts v = [1; 131; 11; 4; 10; 0; 0; 1; 10; 0; 0; 2] ++ replicate 32 0 /\
          shown (trace (inet_srcrt_print ([192; 0; 2; 1] ++ opts v) 16 init).2) = c["received LSRR: 192.0.2.1 10.0.0.1 10.0.0.2 "] ++ [10]
      | _ => False
      end
  | _ => False
  end.
Proof.
  intros os.
  pose proof (source_route_roundtrip (os := os) two_hosts false [c["a"]; c["b"]] [192; 0; 2; 1] init
    (Forall_true _ _ two_hosts_known) ltac:(cbn; lia) ltac:(split; [done|by repeat constructor]) eq_refl) as H.
  destruct (inet_srcrt_init false init) as [[v0|code| | |] s1] eqn:E0; [|discriminate E0..].
  destruct H as (v & s2 & E & Ho & Hp & _). rewrite E. split; [reflexivity|]. split; [exact Ho|].
  destruct (Hp 16 init) as (s4 & E4 & Hs). rewrite E4. cbn [snd]. rewrite Hs. vm_compute. reflexivity.
Defined.

(** [inet_srcrt_print] takes the length of the option from the option itself, and does not look at its own
    argument: with the 44 bytes of the servers, a length of 255 makes it read past the end. *)
Lemma print_reads_past_end :
  let os := script [] in
  let options := [192; 0; 2; 1; IPOPT_LSRR; 255; 4] ++ replicate 37 0 in
  length options = 44%nat /\ (inet_srcrt_print options 44 init).1 = Undefined.
Proof. vm_compute. done. Qed.
