(* ===== verification/Sigio.v ===== *)
(** The signal-driven UDP echo server: [sigio/dgecho01.c].

    The handler of [SIGIO] reads all datagrams that have arrived into a ring of [QSIZE]
    buffers; the main loop takes them out and sends them back.  The two share the ring
    without a lock: the main loop blocks [SIGIO] while it changes [nqueue].

    The handler and the pieces of the main loop are programs; how they interleave is the
    step relation [step], in which [SIGIO] is delivered exactly where it is not blocked.  A
    handler is not interrupted by the signal it handles. *)

From S2P Require Import Prelude CText Sys Error Wrappers SockUtil Connect RobustIO StreamFacts.

Definition QSIZE : nat := 8.        (* size of input queue *)
Definition MAXDG : Z := 4096.       (* max datagram size *)

Definition SIGIO : Z := 29.
Definition SIG_BLOCK : Z := 0.
Definition F_SETOWN : Z := 8.
Definition FIOASYNC : Z := 21586.
Definition FIONBIO : Z := 21537.

(** A datagram: its data, its length, and the client's address. *)
Record DG : Type := Dgram {
  dg_data : list Z;
  dg_len : Z;
  dg_sa : option sockaddr;
  dg_salen : Z;
}.

(** The static variables. *)
Record queue : Type := Queue {
  dg : list DG;             (* queue of datagrams to process *)
  cntread : list Z;         (* diagnostic counter *)
  iget : nat;               (* next one for main loop to process *)
  iput : nat;               (* next one for signal handler to read into *)
  nqueue : nat;             (* # on queue for main loop to process *)
}.

(** [if (++i >= QSIZE) i = 0;] *)
Definition next_index (i : nat) : nat := if (QSIZE <=? S i)%nat then 0%nat else S i.

Section Sigio.
Context {os : OS} {SE : Strerror}.
Context (sockfd clilen : Z).

(** ** The handler *)

(** The [for] loop of [sig_io]; each iteration but the last adds to [nqueue], so that fuel
    [QSIZE + 1] is enough. *)
Fixpoint sig_io_loop (fuel : nat) (nread : nat) (q : queue) : M (nat * queue) :=
  match fuel with
  | O => no_fuel
  | S f =>
      if (QSIZE <=? nqueue q)%nat then err_quit c["receive overflow"] []
      else
        ptr <~ checked (dg q !! iput q) ;;
        r <~ sys (sys_recvfrom sockfd MAXDG 0 true) ;;
        buf <~ checked (memcpy (dg_data ptr) 0 (rbytes r)) ;;
        let salen := hd clilen (rints r) in
        if rv r <? 0 then
          e <~ get_errno ;;
          if e =? EWOULDBLOCK then                        (* all done; no more queued to read *)
            dg' <~ checked (store (dg q) (iput q) (Dgram buf (dg_len ptr) (dg_sa ptr) salen)) ;;
            mpure (nread, Queue dg' (cntread q) (iget q) (iput q) (nqueue q))
          else err_sys c["recvfrom error"] []
        else
          let sa := match rsa r with Some a => Some a | None => dg_sa ptr end in
          dg' <~ checked (store (dg q) (iput q) (Dgram buf (rv r) sa salen)) ;;
          sig_io_loop f (S nread)
            (Queue dg' (cntread q) (iget q) (next_index (iput q)) (S (nqueue q)))
  end.

Definition sig_io (q : queue) : M queue :=
  p <~ sig_io_loop (S QSIZE) 0 q ;;
  let '(nread, q) := p in
  n <~ checked (cntread q !! nread) ;;
  cnt <~ checked (store (cntread q) nread (n + 1)) ;;     (* histogram of # datagrams per signal *)
  mpure (Queue (dg q) cnt (iget q) (iput q) (nqueue q)).

(** [for (i = 0; i <= QSIZE; i++) printf (...)] *)
Fixpoint hup_loop (idx : list nat) (q : queue) : M unit :=
  match idx with
  | [] => mpure tt
  | i :: idx' =>
      n <~ checked (cntread q !! i) ;;
      text <~ checked (vformat c["cntread[%d] = %ld"] [AInt (Z.of_nat i); AInt n]) ;;
      sys (sys_fputs (text ++ [10]) stdout) ;;; hup_loop idx' q
  end.

Definition sig_hup (q : queue) : M unit := hup_loop (seq 0 (S QSIZE)) q.

(** ** The main program *)

Definition fresh_buffer : DG := Dgram (replicate (Z.to_nat MAXDG) 0) 0 None clilen.

Fixpoint alloc_buffers (todo : nat) : M (list DG) :=
  match todo with
  | O => mpure []
  | S k =>
      Malloc MAXDG ;;;
      Malloc clilen ;;;
      rest <~ alloc_buffers k ;;
      mpure (fresh_buffer :: rest)
  end.

(** The signal sets [zeromask], [newmask], [oldmask]. *)
Record masks : Type := Masks { zeromask : Z; newmask : Z; oldmask : Z }.

(** [dg_echo] up to its loop; [hup] and [io] are the addresses of the handlers. *)
Definition dg_echo_init (hup io : Z) : M (queue * masks) :=
  bufs <~ alloc_buffers QSIZE ;;
  let q := Queue bufs (replicate (S QSIZE) 0) 0 0 0 in
  Signal SIGHUP hup ;;;
  Signal SIGIO io ;;;
  pid <~ sys sys_getpid ;;
  Fcntl sockfd F_SETOWN (rv pid) ;;;
  Ioctl sockfd FIOASYNC 1 ;;;
  Ioctl sockfd FIONBIO 1 ;;;
  zero <~ Sigemptyset ;;
  old <~ Sigemptyset ;;
  new <~ Sigemptyset ;;
  new <~ Sigaddset (hd 0 (rints new)) SIGIO ;;
  let new := hd 0 (rints new) in
  prev <~ Sigprocmask SIG_BLOCK (Some new) ;;
  mpure (q, Masks (hd 0 (rints zero)) new (hd 0 (rints prev))).

(** [Sigprocmask (SIG_SETMASK, &oldmask, NULL);]: unblock SIGIO. *)
Definition unblock (m : masks) : M unit := Sigprocmask SIG_SETMASK (Some (oldmask m)) ;;; mpure tt.

(** [Sendto (sockfd, dg[iget].dg_data, dg[iget].dg_len, ...)] *)
Definition send_current (q : queue) : M unit :=
  d <~ checked (dg q !! iget q) ;;
  Sendto sockfd (slice (dg_data d) 0 (dg_len d)) 0 (dg_sa d).

(** [if (++iget >= QSIZE) iget = 0;] *)
Definition advance (q : queue) : queue :=
  Queue (dg q) (cntread q) (next_index (iget q)) (iput q) (nqueue q).

(** [Sigprocmask (SIG_BLOCK, &newmask, &oldmask);]: block SIGIO. *)
Definition block (m : masks) : M masks :=
  prev <~ Sigprocmask SIG_BLOCK (Some (newmask m)) ;;
  mpure (Masks (zeromask m) (newmask m) (hd 0 (rints prev))).

(** [nqueue--;] *)
Definition take_one (q : queue) : queue :=
  Queue (dg q) (cntread q) (iget q) (iput q) (nqueue q - 1).

(** ** The interleaving

    Where the main program is: at the test of [while (nqueue == 0)], before [Sendto], after
    it, after the increment of [iget], before the decrement of [nqueue].  SIGIO is blocked at
    the first (except while [sigsuspend] waits) and at the last. *)
Inductive pc : Type := AtTest | AtSend | AtAdvance | AtBlock | AtTake.

Definition unblocked (p : pc) : bool :=
  match p with AtSend | AtAdvance | AtBlock => true | AtTest | AtTake => false end.

Record config : Type := Config { at_pc : pc; at_queue : queue; at_masks : masks; at_st : st }.

Inductive step : config -> config -> Prop :=
(* sigsuspend: a signal is delivered and handled while the process waits *)
| step_suspend q m s q' s' :
    nqueue q = 0%nat ->
    sig_io q (after (sys_sigsuspend (zeromask m)) (failed (-1) EINTR) s) = (Val q', s') ->
    step (Config AtTest q m s) (Config AtTest q' m s')
| step_unblock q m s s' :
    nqueue q <> 0%nat -> unblock m s = (Val tt, s') ->
    step (Config AtTest q m s) (Config AtSend q m s')
(* SIGIO is delivered *)
| step_sigio p q m s q' s' :
    unblocked p = true -> sig_io q s = (Val q', s') ->
    step (Config p q m s) (Config p q' m s')
(* SIGHUP is delivered *)
| step_sighup p q m s s' :
    sig_hup q s = (Val tt, s') -> step (Config p q m s) (Config p q m s')
| step_send q m s s' :
    send_current q s = (Val tt, s') ->
    step (Config AtSend q m s) (Config AtAdvance q m s')
| step_advance q m s :
    step (Config AtAdvance q m s) (Config AtBlock (advance q) m s)
| step_block q m m' s s' :
    block m s = (Val m', s') ->
    step (Config AtBlock q m s) (Config AtTake q m' s')
| step_take q m s :
    step (Config AtTake q m s) (Config AtTest (take_one q) m s).

(** The configurations the server reaches from its start in state [s0]. *)
Inductive reachable (hup io : Z) (s0 : st) : config -> Prop :=
| reach_init q m s :
    dg_echo_init hup io s0 = (Val (q, m), s) -> reachable hup io s0 (Config AtTest q m s)
| reach_step c c' : reachable hup io s0 c -> step c c' -> reachable hup io s0 c'.

End Sigio.
