(* ===== verification/SigioClaims.v ===== *)
(** The signal-driven echo server: the ring of datagrams that the handler and the main loop share is always
    the part of the datagrams received that has not been answered, in order; and what the server guarantees for
    every interleaving of the handler with the main loop. *)

From S2P Require Import Prelude CText Sys Traces Error Wrappers SockUtil Connect RobustIO.
From S2P Require Import Ring StreamFacts Servers Sigio.
From Stdlib Require Import ZifyNat.

Ltac Zify.zify_post_hook ::= Z.to_euclidean_division_equations.

(** * Datagrams in a history *)

Definition datagram : Type := option sockaddr * list Z.

Definition dg_in (fd : Z) (e : event) : list datagram :=
  match e.1 with
  | sys_recvfrom fd' _ _ _ => if (fd' =? fd) && (0 <=? rv e.2) then [(rsa e.2, rbytes e.2)] else []
  | _ => []
  end.

Definition dg_out (fd : Z) (e : event) : list datagram :=
  match e.1 with
  | sys_sendto fd' d _ sa => if fd' =? fd then [(sa, d)] else []
  | _ => []
  end.

Definition arrived (fd : Z) : list event -> list datagram := collect (dg_in fd).
Definition answered (fd : Z) : list event -> list datagram := collect (dg_out fd).

(** [recvfrom] with room for an address: at most the number of bytes asked for, and the address
    of the sender; or -1. *)
Class RecvfromLaw `{OS} : Prop :=
  recvfrom_law : forall h fd n flags, 0 <= n ->
    let r := os_answer h (sys_recvfrom fd n flags true) in
    (rv r = -1 /\ is_Some (rerrno r) /\ rbytes r = []) \/
    (rv r = Z.of_nat (length (rbytes r)) /\ rv r <= n /\ is_Some (rsa r)).

(** * The ring *)

Definition entry (d : DG) : datagram := (dg_sa d, slice (dg_data d) 0 (dg_len d)).

(** The [n] datagrams from index [i] on. *)
Definition window (ring : list DG) (i n : nat) : list datagram := entry <$> Ring.window QSIZE ring i n.

(** The ring holds [n] datagrams from [iget] to [iput]. *)
Record ring_ok (q : queue) (n : nat) : Prop := {
  rk_length : length (dg q) = QSIZE;
  rk_buffers : Forall (fun d => length (dg_data d) = Z.to_nat MAXDG) (dg q);
  rk_counters : length (cntread q) = S QSIZE;
  rk_iget : (iget q < QSIZE)%nat;
  rk_iput : iput q = ((iget q + n) mod QSIZE)%nat;
  rk_nqueue : (n <= nqueue q <= QSIZE)%nat;
}.

Lemma next_index_mod i : (i < QSIZE)%nat -> next_index i = (S i mod QSIZE)%nat.
Proof.
  intros H. unfold next_index. destruct (Nat.leb_spec QSIZE (S i)); unfold QSIZE in *; lia.
Qed.

Lemma qsize_pos : (0 < QSIZE)%nat.
Proof. unfold QSIZE. lia. Qed.

(** A datagram stored behind the window does not change it. *)
Lemma datagrams_store ring i n d :
  (n < QSIZE)%nat -> window (<[((i + n) mod QSIZE)%nat := d]> ring) i n = window ring i n.
Proof. intros Hn. unfold window. by rewrite window_store by (apply qsize_pos || done). Qed.

Lemma datagrams_push ring i n d :
  (n < QSIZE)%nat -> length ring = QSIZE ->
  window (<[((i + n) mod QSIZE)%nat := d]> ring) i (S n) = window ring i n ++ [entry d].
Proof. intros Hn Hl. unfold window. by rewrite window_push, fmap_app by (apply qsize_pos || done). Qed.

(** The first datagram of a window. *)
Lemma datagrams_pop ring i n d :
  (i < QSIZE)%nat -> ring !! i = Some d ->
  window ring i (S n) = entry d :: window ring (next_index i) n.
Proof.
  intros Hi Hd. unfold window. rewrite (window_pop QSIZE qsize_pos ring i n d) by done.
  by rewrite next_index_mod.
Qed.

Lemma datagrams_length ring i n : length ring = QSIZE -> length (window ring i n) = n.
Proof. intros Hl. unfold window. rewrite length_fmap. by apply window_full, Hl; apply qsize_pos. Qed.

(** * The handler *)

Section Handler.
Context {os : OS} {SE : Strerror} {RFL : RecvfromLaw}.
Context (sockfd clilen : Z).

(** What holds at every moment: only received datagrams are answered, in order. *)
Definition in_order (h : list event) : Prop := answered sockfd h `prefix_of` arrived sockfd h.

Lemma arrived_cons e h : arrived sockfd (e :: h) = arrived sockfd h ++ dg_in sockfd e.
Proof. apply collect_cons. Qed.
Lemma answered_cons e h : answered sockfd (e :: h) = answered sockfd h ++ dg_out sockfd e.
Proof. apply collect_cons. Qed.

(** Calls that neither receive nor send datagrams. *)
Definition other_call (c : syscall) : bool :=
  match c with sys_recvfrom _ _ _ _ | sys_sendto _ _ _ _ => false | _ => true end.

Lemma other_effects_app (evs : list event) h :
  Forall (fun e => other_call e.1 = true) evs ->
  arrived sockfd (evs ++ h) = arrived sockfd h /\ answered sockfd (evs ++ h) = answered sockfd h.
Proof.
  intros H. unfold arrived, answered. rewrite !collect_app.
  rewrite (collect_nil_of (dg_in sockfd) evs), (collect_nil_of (dg_out sockfd) evs), !app_nil_r;
    [done|..]; (eapply Forall_impl; [exact H|]); by intros [[] r].
Qed.

Lemma in_order_output evs h : Forall output evs -> in_order h -> in_order (evs ++ h).
Proof.
  intros He Hh. unfold in_order. destruct (other_effects_app evs h) as [-> ->]; [|done].
  eapply Forall_impl; [exact He|]. by intros [[] r].
Qed.

Abbreviation goes := (ends in_order (fun _ => False)).

(** One more datagram in the ring. *)
Lemma ring_ok_push q n d :
  ring_ok q n -> (nqueue q < QSIZE)%nat -> length (dg_data d) = Z.to_nat MAXDG ->
  let q' := Queue (<[iput q := d]> (dg q)) (cntread q) (iget q) (next_index (iput q)) (S (nqueue q)) in
  ring_ok q' (S n) /\ window (dg q') (iget q) (S n) = window (dg q) (iget q) n ++ [entry d].
Proof.
  intros [Hl Hb Hc Hg Hp Hn] Hq Hd. cbv zeta. cbn [dg]. split.
  - constructor; cbn [dg cntread iget iput nqueue]; try done.
    + by rewrite length_insert.
    + by apply Forall_insert.
    + rewrite next_index_mod; rewrite Hp; unfold QSIZE in *; lia.
    + unfold QSIZE in *; lia.
  - rewrite Hp. apply datagrams_push; [lia|done].
Qed.

(** The handler's last call: no more datagrams are waiting. *)
Definition drained (s : st) : Prop :=
  exists r h, trace s = (sys_recvfrom sockfd MAXDG 0 true, r) :: h /\ rv r < 0 /\
    errno s = EWOULDBLOCK.

Definition handled (nread : nat) (q : queue) (n : nat) (s : st) (nread' : nat) (q' : queue) (s' : st)
    : Prop :=
  daemon_proc s' = 0 /\ (nqueue q' < QSIZE)%nat /\ iget q' = iget q /\ drained s' /\
  exists k new, nread' = (nread + k)%nat /\ nqueue q' = (nqueue q + k)%nat /\ ring_ok q' (n + k) /\
    window (dg q') (iget q') (n + k) = window (dg q) (iget q) n ++ new /\
    arrived sockfd (trace s') = arrived sockfd (trace s) ++ new /\
    answered sockfd (trace s') = answered sockfd (trace s).

Lemma sig_io_loop_spec fuel nread q n s :
  daemon_proc s = 0 -> in_order (trace s) -> ring_ok q n -> (QSIZE < fuel + nqueue q)%nat ->
  wp (sig_io_loop sockfd clilen fuel nread q) (goes (fun p s' => handled nread q n s p.1 p.2 s')) s.
Proof.
  revert nread q n s. induction fuel as [|fuel IH]; intros nread q n s Hd Hi Hr Hf.
  { pose proof (rk_nqueue _ _ Hr). lia. }
  cbn [sig_io_loop]. destruct (Nat.leb_spec QSIZE (nqueue q)) as [|Hq].
  { by apply ends_err_quit; [apply in_order_output|..]. }
  pose proof Hr as [Hl Hb Hc Hg Hp Hn].
  destruct (lookup_lt_is_Some_2 (dg q) (iput q)) as [ptr Hptr]; [rewrite Hl, Hp; unfold QSIZE; lia|].
  assert (Hdl : length (dg_data ptr) = Z.to_nat MAXDG) by (by eapply Forall_lookup_1 in Hb).
  assert (Hst : forall d, store (dg q) (iput q) d = Some (<[iput q := d]> (dg q))).
  { intros d. unfold store. rewrite decide_True; [done|]. by eapply lookup_lt_Some. }
  eapply wp_checked; [done|]. apply wp_then, wp_sys. cbn [andthen].
  set (c := sys_recvfrom sockfd MAXDG 0 true). set (r := answer c s). set (s1 := after c r s).
  assert (Hans : answered sockfd (trace s1) = answered sockfd (trace s))
    by (cbn [s1 after trace]; rewrite answered_cons; apply app_nil_r).
  destruct (recvfrom_law (trace s) sockfd MAXDG 0 ltac:(done)) as [(Hv & [x Hx] & Hbt)|(Hv & Hle & [sa Hsa])].
  - fold c in Hv, Hx, Hbt. fold (answer c s) in Hv, Hx, Hbt. fold r in Hv, Hx, Hbt.
    assert (Harr : arrived sockfd (trace s1) = arrived sockfd (trace s)).
    { cbn [s1 after trace]. rewrite arrived_cons. cbn. rewrite Hv, andb_false_r. apply app_nil_r. }
    assert (Hi1 : in_order (trace s1)) by (unfold in_order; by rewrite Hans, Harr).
    rewrite Hbt, memcpy_nil, Hv by (rewrite Hdl; lia). eapply wp_checked; [done|].
    cbn [Z.ltb Z.compare]. apply wp_then. cbn [wp get_errno andthen].
    destruct (Z.eqb_spec (errno s1) EWOULDBLOCK) as [He|He].
    2: { by apply ends_err_sys; [apply in_order_output|..]. }
    eapply wp_checked; [apply Hst|]. apply ends_pure. cbn [fst snd]. split_and!; try done.
    { exists r, (trace s). split_and!; [done|lia|done]. }
    exists 0%nat, []. rewrite !Nat.add_0_r, !app_nil_r. cbn [nqueue iget dg].
    split_and!; try done.
    + constructor; cbn [dg cntread iget iput nqueue]; try done; [by rewrite length_insert|by apply Forall_insert].
    + rewrite Hp. apply datagrams_store; lia.
  - fold c in Hv, Hle, Hsa. fold (answer c s) in Hv, Hle, Hsa. fold r in Hv, Hle, Hsa.
    assert (Harr : arrived sockfd (trace s1) = arrived sockfd (trace s) ++ [(Some sa, rbytes r)]).
    { cbn [s1 after trace]. rewrite arrived_cons. cbn. rewrite Z.eqb_refl, Hsa, (proj2 (Z.leb_le 0 (rv r))) by lia. done. }
    assert (Hi1 : in_order (trace s1)).
    { unfold in_order. rewrite Hans, Harr. by apply prefix_app_r. }
    rewrite memcpy_ok by (rewrite Hdl; lia). eapply wp_checked; [done|].
    rewrite (proj2 (Z.ltb_ge (rv r) 0)), Hsa by lia. eapply wp_checked; [apply Hst|].
    set (d := Dgram _ _ _ _).
    assert (Hent : entry d = (Some sa, rbytes r)).
    { unfold entry, d. cbn [dg_sa dg_data dg_len]. f_equal. unfold slice. rewrite Hv, Nat2Z.id, drop_0, take_0.
      apply (take_app_length (rbytes r)). }
    destruct (ring_ok_push q n d Hr Hq) as [Hr' Hw]; [unfold d; cbn [dg_data]; llia|].
    eapply ends_mono; [apply (IH _ _ (S n)); try done; cbn [nqueue]; lia|].
    intros [nread' q'] s' (Hd' & Hq' & Hg' & Hdr & k & new & Hk & Hnq & Hrk & Hwin & Ha & Hb').
    cbn [fst snd nqueue iget dg] in *. split_and!; try done.
    exists (S k), ((Some sa, rbytes r) :: new). rewrite !Nat.add_succ_r.
    split_and!; [lia|lia|done| |rewrite Ha, Harr, <- app_assoc; done|by rewrite Hb'].
    rewrite Nat.add_succ_l in Hwin. rewrite Hwin, Hw, Hent, <- app_assoc. done.
Qed.

Lemma sig_io_spec q n s :
  daemon_proc s = 0 -> in_order (trace s) -> ring_ok q n ->
  wp (sig_io sockfd clilen q) (goes (fun q' s' => exists k, handled 0 q n s k q' s')) s.
Proof.
  intros Hd Hi Hr. unfold sig_io. eapply ends_then; [apply (sig_io_loop_spec _ _ _ n); [done..|lia]|].
  intros [nread q1] s1 H. cbn [fst snd] in H.
  destruct H as (Hd1 & Hq1 & Hg1 & Hdr & k & new & -> & Hnq & Hr1 & Hwin & Ha & Hb).
  rewrite Nat.add_0_l. pose proof Hr1 as [Hl1 Hb1 Hc1 _ Hp1 Hn1].
  destruct (lookup_lt_is_Some_2 (cntread q1) k) as [x Hx]; [rewrite Hc1; lia|].
  eapply wp_checked; [exact Hx|].
  eapply wp_checked; [unfold store; rewrite decide_True; [done|rewrite Hc1; lia]|].
  apply ends_pure. exists k. split_and!; try done. exists k, new. split_and!; try done.
  destruct Hr1. constructor; cbn [dg cntread iget iput nqueue]; try done. by rewrite length_insert.
Qed.

(** * The invariant of the interleaving *)

(** The datagrams in the ring, by the point the main program has reached. *)
Definition in_ring (p : pc) (q : queue) : nat :=
  match p with AtTest | AtSend | AtAdvance => nqueue q | AtBlock | AtTake => (nqueue q - 1)%nat end.

(** Those of them that have not been answered yet. *)
Definition unanswered (p : pc) (q : queue) : list datagram :=
  let w := window (dg q) (iget q) (in_ring p q) in
  match p with AtAdvance => tail w | _ => w end.

Record config_ok (c : config) : Prop := {
  co_foreground : daemon_proc (at_st c) = 0;
  co_ring : ring_ok (at_queue c) (in_ring (at_pc c) (at_queue c));
  co_room : (nqueue (at_queue c) < QSIZE)%nat;
  co_busy : at_pc c <> AtTest -> (0 < nqueue (at_queue c))%nat;
  co_data : arrived sockfd (trace (at_st c)) =
              answered sockfd (trace (at_st c)) ++ unanswered (at_pc c) (at_queue c);
}.

Lemma config_ok_in_order c : config_ok c -> in_order (trace (at_st c)).
Proof. intros []. unfold in_order. rewrite co_data0. by eexists. Qed.

(** Calls without an effect on datagrams keep the invariant. *)
Lemma config_ok_other p q m m' s s' (evs : list event) :
  config_ok (Config p q m s) -> daemon_proc s' = daemon_proc s ->
  trace s' = evs ++ trace s -> Forall (fun e => other_call e.1 = true) evs ->
  config_ok (Config p q m' s').
Proof.
  intros [Hd Hr Hn Hb Ho] Hd' Ht Hf. constructor; cbn [at_pc at_queue at_st] in *; try done.
  - by rewrite Hd'.
  - rewrite Ht. by destruct (other_effects_app evs (trace s) Hf) as [-> ->].
Qed.

Lemma window_head q n :
  (iget q < QSIZE)%nat -> (0 < n)%nat -> length (dg q) = QSIZE ->
  exists d rest, dg q !! iget q = Some d /\ window (dg q) (iget q) n = entry d :: rest /\
    rest = window (dg q) (next_index (iget q)) (n - 1).
Proof.
  intros Hg Hn Hl. destruct n as [|n]; [lia|].
  destruct (lookup_lt_is_Some_2 (dg q) (iget q)) as [d Hd]; [lia|].
  rewrite (datagrams_pop _ _ _ _ Hg Hd). cbn [Nat.sub]. rewrite Nat.sub_0_r. eauto.
Qed.

(** The handler keeps the invariant wherever it is called. *)
Lemma config_ok_sig_io p q m s q' s' :
  config_ok (Config p q m s) -> sig_io sockfd clilen q s = (Val q', s') ->
  config_ok (Config p q' m s').
Proof.
  intros Hc Hrun. pose proof (config_ok_in_order _ Hc) as Hi.
  destruct Hc as [Hd Hr Hn Hb Ho]. cbn [at_pc at_queue at_st] in *.
  pose proof (sig_io_spec q _ s Hd Hi Hr) as H. unfold wp in H. rewrite Hrun in H.
  destruct H as (k & H). pose proof H as (Hd' & Hq' & Hg' & _ & k' & new & Hk & Hnq & Hr' & Hw & Ha & Hb').
  cbn in Hk. subst k'.
  assert (Hin : (in_ring p q + k)%nat = in_ring p q').
  { destruct p; cbn [in_ring]; try lia;
      (assert (0 < nqueue q)%nat by (by apply Hb)); lia. }
  rewrite Hin in *. constructor; cbn [at_pc at_queue at_st]; try done.
  - intros Hp. specialize (Hb Hp). lia.
  - rewrite Ha, Hb', Ho, <- app_assoc. f_equal. unfold unanswered. rewrite Hw.
    destruct p; try done. destruct (window_head q (in_ring AtAdvance q)) as (d & rest & _ & -> & _);
      [by apply Hr|by apply Hb|by apply Hr|done].
Qed.
End Handler.

(** * Program parts that do not touch datagrams *)

Definition steady {A} (m : M A) : Prop := forall s a s', m s = (Val a, s') ->
  daemon_proc s' = daemon_proc s /\
  exists evs : list event, trace s' = evs ++ trace s /\ Forall (fun e => other_call e.1 = true) evs.

Section Steady.
Context {os : OS} {SE : Strerror}.

Lemma steady_pure {A} (a : A) : steady (mpure a).
Proof. intros s b s' [= <- <-]. split; [done|]. by exists []. Qed.

Lemma steady_bind {A B} (m : M A) (k : A -> M B) :
  steady m -> (forall a, steady (k a)) -> steady (mthen m k).
Proof.
  intros Hm Hk s b s' H. unfold mthen in H. destruct (m s) as [[a| | | |] s1] eqn:E; try done.
  destruct (Hm _ _ _ E) as (D1 & e1 & T1 & F1), (Hk _ _ _ _ H) as (D2 & e2 & T2 & F2).
  split; [congruence|]. exists (e2 ++ e1). rewrite T2, T1, app_assoc. split; [done|].
  by apply Forall_app.
Qed.

Lemma steady_sys c : other_call c = true -> steady (sys c).
Proof.
  intros Hc s r s' [= <- <-]. split; [done|]. exists [(c, answer c s)]. split; [done|].
  by constructor.
Qed.

Lemma steady_checked {A} (x : option A) : steady (checked x).
Proof. destruct x; [apply steady_pure|]. by intros s a s' H. Qed.

Lemma steady_err_sys {A} fmt ap : steady (err_sys (A := A) fmt ap).
Proof. intros s a s' H. by apply err_sys_no_return in H. Qed.

Lemma steady_call c bad msg : other_call c = true -> steady (call c bad msg).
Proof.
  intros Hc. apply steady_bind; [by apply steady_sys|]. intros r.
  destruct (bad _); [apply steady_err_sys|apply steady_pure].
Qed.
End Steady.

Create HintDb steady.
#[export] Hint Resolve steady_pure steady_checked steady_err_sys : steady.
Ltac steady_step :=
  first
    [ solve [auto with steady nocore]
    | apply steady_bind; [|intros ?]
    | apply steady_call; reflexivity
    | apply steady_sys; reflexivity
    | case_match ].
Ltac solve_steady := repeat (cbv zeta; steady_step).

Section Main.
Context {os : OS} {SE : Strerror} {RFL : RecvfromLaw}.
Context (sockfd clilen : Z).

Lemma steady_unblock m : steady (unblock m).
Proof. unfold unblock, Sigprocmask. solve_steady. Qed.
Lemma steady_block m : steady (block m).
Proof. unfold block, Sigprocmask. solve_steady. Qed.
Lemma steady_sig_hup q : steady (sig_hup q).
Proof.
  unfold sig_hup. generalize (seq 0 (S QSIZE)). induction l as [|i l IH]; cbn [hup_loop]; solve_steady.
Qed.
Lemma steady_Signal signo f : steady (Signal signo f).
Proof. unfold Signal, signal. solve_steady. Qed.
#[local] Hint Resolve steady_Signal : steady.
Lemma steady_alloc n : steady (alloc_buffers clilen n).
Proof. induction n as [|n IH]; cbn [alloc_buffers]; unfold Malloc; solve_steady. Qed.
#[local] Hint Resolve steady_alloc : steady.
Lemma steady_dg_echo_init hup io : steady (dg_echo_init sockfd clilen hup io).
Proof. unfold dg_echo_init, Fcntl, Ioctl, Sigemptyset, Sigaddset, Sigprocmask. solve_steady. Qed.

(** The buffers at the start. *)
Lemma alloc_buffers_spec n s bufs s' :
  alloc_buffers clilen n s = (Val bufs, s') ->
  length bufs = n /\ Forall (fun d => length (dg_data d) = Z.to_nat MAXDG) bufs.
Proof.
  revert s bufs s'. induction n as [|n IH]; intros s bufs s' H; [by injection H as <- _|].
  cbn [alloc_buffers] in H. unfold mthen at 1 in H.
  destruct (Malloc MAXDG s) as [[p| | | |] s1]; try done. unfold mthen at 1 in H.
  destruct (Malloc clilen s1) as [[p'| | | |] s2]; try done. unfold mthen at 1 in H.
  destruct (alloc_buffers clilen n s2) as [[rest| | | |] s3] eqn:E; try done.
  assert (bufs = fresh_buffer clilen :: rest) as -> by (unfold mpure in H; congruence).
  destruct (IH _ _ _ E) as [<- HF]. split; [done|].
  constructor; [unfold fresh_buffer; cbn [dg_data]; apply length_replicate|done].
Qed.

Lemma dg_echo_init_queue hup io s q m s' :
  dg_echo_init sockfd clilen hup io s = (Val (q, m), s') ->
  exists bufs, q = Queue bufs (replicate (S QSIZE) 0) 0 0 0 /\ length bufs = QSIZE /\
    Forall (fun d => length (dg_data d) = Z.to_nat MAXDG) bufs.
Proof.
  unfold dg_echo_init. intros H. unfold mthen at 1 in H.
  destruct (alloc_buffers clilen QSIZE s) as [[bufs| | | |] s1] eqn:E; try done.
  apply alloc_buffers_spec in E as [Hl HF]. exists bufs. split_and!; try done.
  repeat (unfold mthen at 1 in H; match type of H with
    | context [match ?m ?s with _ => _ end] => destruct (m s) as [[?| | | |] ?]; try done
    end). by injection H as <- _ _.
Qed.

(** Every configuration the server reaches is in order. *)
Lemma reachable_ok hup io s0 c :
  daemon_proc s0 = 0 -> arrived sockfd (trace s0) = [] -> answered sockfd (trace s0) = [] ->
  reachable sockfd clilen hup io s0 c -> config_ok sockfd c.
Proof.
  intros Hd0 Ha0 Hb0. induction 1 as [q m s H|c c' _ IH Hstep].
  - destruct (dg_echo_init_queue _ _ _ _ _ _ H) as (bufs & -> & Hl & HF).
    destruct (steady_dg_echo_init hup io _ _ _ H) as (Hd & evs & Ht & Hf).
    apply (config_ok_other sockfd AtTest _ m m s0 s evs); [|done..].
    constructor; cbn [at_pc at_queue at_st]; try done; [|unfold QSIZE; cbn; lia|by rewrite Ha0, Hb0].
    constructor; cbn [dg cntread iget iput nqueue in_ring]; try done; unfold QSIZE; try lia.
  - destruct Hstep as [q m s q' s' Hn H|q m s s' Hn H|p q m s q' s' Hp H|p q m s s' H|q m s s' H|
      q m s|q m m' s s' H|q m s].
    + eapply config_ok_sig_io; [|exact H].
      eapply (config_ok_other sockfd AtTest q m m s _ [(sys_sigsuspend (zeromask m), failed (-1) EINTR)]);
        [done|done|done|by constructor].
    + destruct (steady_unblock m _ _ _ H) as (Hd & evs & Ht & Hf).
      destruct (config_ok_other sockfd AtTest q m m s s' evs IH Hd Ht Hf) as [? ? ? ? ?].
      constructor; try done. cbn in *. lia.
    + by eapply config_ok_sig_io.
    + destruct (steady_sig_hup q _ _ _ H) as (Hd & evs & Ht & Hf). by eapply config_ok_other.
    + destruct IH as [Hd Hr Hn Hb Ho]. cbn [at_pc at_queue at_st in_ring unanswered] in *.
      destruct (window_head q (nqueue q)) as (d & rest & Hdg & Hw & Hrest);
        [by apply Hr|by apply Hb|by apply Hr|].
      unfold send_current in H. rewrite Hdg in H. cbn [checked] in H. rewrite then_pure in H.
      unfold Sendto, call in H. unfold mthen, sys in H. cbn [rv] in H.
      set (cs := sys_sendto _ _ _ _) in H. destruct (negb _).
      { destruct (err_sys _ _ _) as [[x| | | |] s2] eqn:E; try done. by apply err_sys_no_return in E. }
      injection H as <-. constructor; cbn [at_pc at_queue at_st in_ring]; try done;
        [intros _; by apply Hb|].
      cbn [after trace]. rewrite arrived_cons, answered_cons, app_nil_r, Ho. unfold unanswered, in_ring.
      rewrite Hw. cbn [tail]. rewrite <- app_assoc. f_equal. cbn. by rewrite Z.eqb_refl.
    + destruct IH as [Hd Hr Hn Hb Ho]. cbn [at_pc at_queue at_st in_ring] in *.
      specialize (Hb ltac:(done)). pose proof Hr as [? ? ? Hg Hp ?].
      destruct (window_head q (nqueue q)) as (d & rest & Hdg & Hw & Hrest); [done|done|done|].
      unfold unanswered, in_ring in Ho. rewrite Hw in Ho. cbn [tail] in Ho.
      constructor; cbn [at_pc at_queue at_st in_ring advance nqueue]; try done.
      * constructor; cbn [advance dg cntread iget iput nqueue]; try done; [|rewrite Hp|lia];
          rewrite next_index_mod by done; unfold QSIZE in *; lia.
      * by rewrite Ho, Hrest.
    + destruct (steady_block m _ _ _ H) as (Hd & evs & Ht & Hf).
      destruct (config_ok_other sockfd AtBlock q m m' s s' evs IH Hd Ht Hf) as [? ? ? Hb ?].
      constructor; try done. intros _. by apply Hb.
    + destruct IH as [Hd Hr Hn Hb Ho]. cbn [at_pc at_queue at_st in_ring] in *.
      specialize (Hb ltac:(done)). destruct Hr.
      constructor; cbn [at_pc at_queue at_st in_ring take_one nqueue]; try done; [|lia].
      constructor; cbn [take_one dg cntread iget iput nqueue]; try done. lia.
Qed.
End Main.

(** * What the server guarantees *)

Section Claims.
Context {os : OS} {SE : Strerror} {RFL : RecvfromLaw}.
Context (sockfd clilen hup io : Z) (s0 : st).
Hypothesis fresh : daemon_proc s0 = 0 /\ arrived sockfd (trace s0) = [] /\ answered sockfd (trace s0) = [].

(** The slot of the next datagram to be sent, and how many are left to send: at [AtAdvance] the current one
    has been sent and [iget] still names it; from there to the decrement [nqueue] still counts it. *)
Definition next_slot (p : pc) (q : queue) : nat :=
  match p with AtAdvance => next_index (iget q) | _ => iget q end.
Definition left_to_send (p : pc) (q : queue) : nat :=
  match p with AtTest | AtSend => nqueue q | AtAdvance | AtBlock | AtTake => nqueue q - 1 end.

Lemma unanswered_window p q :
  (iget q < QSIZE)%nat -> length (dg q) = QSIZE -> (p <> AtTest -> (0 < nqueue q)%nat) ->
  unanswered p q = window (dg q) (next_slot p q) (left_to_send p q).
Proof using Type.
  intros Hg Hl Hb. unfold unanswered. destruct p; try done. cbn [in_ring next_slot left_to_send].
  destruct (window_head q (nqueue q) Hg (Hb ltac:(done)) Hl) as (d & rest & _ & -> & ->). done.
Qed.

(** C18: the signal-driven server answers every datagram once, in order, to its sender.  In every
    configuration that any interleaving of signals with the main loop reaches, the datagrams
    received are those answered followed by those still waiting, with the data and the
    address they arrived with, and those waiting are exactly the contents of the ring: the
    entries of [dg] from the slot the main loop sends next, as many as it has still to send.
    The handler never overwrites a datagram that has not been sent, and none is lost, repeated
    or reordered.  There is always a free buffer for the handler, and when the main loop finds
    the queue empty all datagrams received have been answered. *)
Theorem sigio_answers_in_order c :
  reachable sockfd clilen hup io s0 c ->
  let h := trace (at_st c) in let q := at_queue c in
  let k := left_to_send (at_pc c) q in
  exists waiting,
    arrived sockfd h = answered sockfd h ++ waiting /\
    length waiting = k /\
    (forall i, (i < k)%nat -> waiting !! i = entry <$> dg q !! ((next_slot (at_pc c) q + i) mod QSIZE)%nat) /\
    (k <= nqueue q < QSIZE)%nat /\ length (dg q) = QSIZE.
Proof using RFL fresh.
  intros Hr. destruct fresh as (Hd & Ha & Hb).
  destruct (reachable_ok sockfd clilen hup io s0 c Hd Ha Hb Hr) as [_ Hring Hroom Hbusy Ho].
  cbv zeta. exists (unanswered (at_pc c) (at_queue c)). split; [done|].
  destruct c as [p q m s]. cbn [at_pc at_queue] in *.
  destruct Hring as [Hl _ _ Hg _ _]. rewrite (unanswered_window p q) by done.
  split_and!; [by apply datagrams_length| |destruct p; cbn [left_to_send]; lia|done|done].
  intros i Hi. unfold window. rewrite list_lookup_fmap. f_equal. by apply (window_lookup QSIZE qsize_pos).
Qed.

(** The handler of [SIGIO] is safe and complete wherever it interrupts the main loop.  From
    every configuration the server reaches it ends: either it returns, having stored every
    datagram that was waiting in the kernel ([recvfrom] reported that there are no more, so
    that no datagram is left without a signal to announce it) and added their number to
    [nqueue]; or it ends the process with status 1.  It never writes outside the ring, the
    buffers or the histogram, and never loops for ever. *)
Theorem sig_io_drains c :
  reachable sockfd clilen hup io s0 c ->
  let '(o, s') := sig_io sockfd clilen (at_queue c) (at_st c) in
  match o with
  | Val q' =>
      drained sockfd s' /\
      exists new, arrived sockfd (trace s') = arrived sockfd (trace (at_st c)) ++ new /\
        nqueue q' = (nqueue (at_queue c) + length new)%nat /\ (nqueue q' < QSIZE)%nat
  | Exited code => code = 1
  | _ => False
  end.
Proof using RFL fresh.
  intros Hr. destruct fresh as (Hd & Ha & Hb).
  pose proof (reachable_ok sockfd clilen hup io s0 c Hd Ha Hb Hr) as Hok.
  pose proof (sig_io_spec sockfd clilen (at_queue c) _ (at_st c) (co_foreground _ _ Hok)
    (config_ok_in_order _ _ Hok) (co_ring _ _ Hok)) as H.
  unfold wp in H. destruct (sig_io _ _ _ _) as [[q'| | | |] s']; try done; [|by destruct H..].
  destruct H as (k & _ & Hroom & _ & Hdr & k' & new & _ & Hn & Hr' & Hw & Harr & _).
  split; [done|]. exists new. split_and!; try done.
  apply (f_equal length) in Hw. rewrite length_app, !datagrams_length in Hw
    by (apply (rk_length _ _ (co_ring _ _ Hok)) || apply Hr'). lia.
Qed.
End Claims.

(** * Running an interleaving *)

Inductive move : Type := Suspend | Unblock | Sigio | Sighup | Send | Advance | Block | Take.

Section Run.
Context {os : OS} {SE : Strerror}.
Context (sockfd clilen : Z).

Definition exec (l : move) (c : config) : option config :=
  let 'Config p q m s := c in
  match l, p with
  | Suspend, AtTest =>
      if (nqueue q =? 0)%nat then
        match sig_io sockfd clilen q (after (sys_sigsuspend (zeromask m)) (failed (-1) EINTR) s) with
        | (Val q', s') => Some (Config AtTest q' m s')
        | _ => None
        end
      else None
  | Unblock, AtTest =>
      if (nqueue q =? 0)%nat then None
      else match unblock m s with (Val _, s') => Some (Config AtSend q m s') | _ => None end
  | Sigio, _ =>
      if unblocked p then
        match sig_io sockfd clilen q s with (Val q', s') => Some (Config p q' m s') | _ => None end
      else None
  | Sighup, _ => match sig_hup q s with (Val _, s') => Some (Config p q m s') | _ => None end
  | Send, AtSend =>
      match send_current sockfd q s with (Val _, s') => Some (Config AtAdvance q m s') | _ => None end
  | Advance, AtAdvance => Some (Config AtBlock (advance q) m s)
  | Block, AtBlock => match block m s with (Val m', s') => Some (Config AtTake q m' s') | _ => None end
  | Take, AtTake => Some (Config AtTest (take_one q) m s)
  | _, _ => None
  end.

Lemma exec_step l c c' : exec l c = Some c' -> step sockfd clilen c c'.
Proof.
  destruct c as [p q m s]. unfold exec. intros H.
  repeat case_match; simplify_eq; repeat match goal with x : unit |- _ => destruct x end;
    try by econstructor.
  - constructor; [by apply Nat.eqb_eq|done].
  - constructor; [by apply Nat.eqb_neq|done].
Qed.

Fixpoint exec_all (ls : list move) (c : config) : option config :=
  match ls with
  | [] => Some c
  | l :: ls' => c' ← exec l c; exec_all ls' c'
  end.

Definition run (hup io : Z) (s0 : st) (ls : list move) : option config :=
  match dg_echo_init sockfd clilen hup io s0 with
  | (Val (q, m), s) => exec_all ls (Config AtTest q m s)
  | _ => None
  end.

Lemma run_reachable hup io s0 ls c : run hup io s0 ls = Some c -> reachable sockfd clilen hup io s0 c.
Proof.
  unfold run. destruct (dg_echo_init _ _ _ _ _) as [[[q m]| | | |] s] eqn:E; try done.
  assert (H : reachable sockfd clilen hup io s0 (Config AtTest q m s)) by by constructor.
  revert H. generalize (Config AtTest q m s). clear. induction ls as [|l ls IH]; intros c0 H0 H.
  - by injection H as <-.
  - cbn [exec_all] in H. destruct (exec l c0) as [c1|] eqn:E; [|done].
    apply (IH c1); [|done]. eapply reach_step; [exact H0|by apply exec_step in E].
Qed.
End Run.

(** The answers of [recvfrom] are given in advance, [None] for no datagram; everything else
    succeeds. *)
Definition is_recvfrom (e : event) : bool :=
  match e.1 with sys_recvfrom _ _ _ _ => true | _ => false end.

Definition dgram_os (answers : list (option (list Z))) : OS := fun h c =>
  match c with
  | sys_recvfrom _ n _ _ =>
      let k := length (List.filter is_recvfrom h) in
      match answers !! k with
      | Some (Some d) =>
          let d := take (Z.to_nat n) d in
          SR (Z.of_nat (length d)) None d [16] (Some (SockIn (htons (9000 + Z.of_nat k)) [127; 0; 0; 1]))
      | _ => failed (-1) EWOULDBLOCK
      end
  | sys_sendto _ d _ _ => ok (Z.of_nat (length d))
  | sys_malloc _ => ok 4096
  | _ => ok 0
  end.

Lemma dgram_os_recvfrom answers : @RecvfromLaw (dgram_os answers).
Proof.
  intros h fd n flags Hn. cbv zeta. unfold os_answer, dgram_os.
  destruct (answers !! _) as [[d|]|]; [right|left; by repeat split; eexists..].
  cbn [rv rbytes rsa]. split_and!; [done|rewrite length_take; lia|by eexists].
Qed.

#[local] Existing Instances numeric_strerror dgram_os_recvfrom.

(** Two datagrams at the first signal, and one more while the first of them is being
    answered: two rounds of the main loop. *)
Definition demo_os : OS := dgram_os [Some c["one"]; Some c["two"]; None; Some c["three"]; None].
Definition demo_moves : list move :=
  [Suspend; Unblock; Send; Sigio; Advance; Block; Take; Unblock; Send; Sighup; Advance].

Lemma demo_run :
  match run (os := demo_os) 3 16 1 2 init demo_moves with
  | Some c => (snd <$> answered 3 (trace (at_st c)), nqueue (at_queue c))
  | None => ([], 0%nat)
  end = ([c["one"]; c["two"]], 2%nat).
Proof. vm_compute. reflexivity. Qed.

Lemma sigio_answers_in_order_witness :
  match run (os := demo_os) 3 16 1 2 init demo_moves with
  | Some c =>
      let h := trace (at_st c) in let q := at_queue c in
      exists waiting, arrived 3 h = answered 3 h ++ waiting /\
        length waiting = left_to_send (at_pc c) q /\ left_to_send (at_pc c) q = 1%nat /\
        waiting !! 0%nat = entry <$> dg q !! ((next_slot (at_pc c) q + 0) mod QSIZE)%nat
  | None => False
  end.
Proof.
  pose proof (fun c => sigio_answers_in_order (os := demo_os) 3 16 1 2 init
    (conj eq_refl (conj eq_refl eq_refl)) c) as H.
  assert (Hv : match run (os := demo_os) 3 16 1 2 init demo_moves with
    | Some c => (left_to_send (at_pc c) (at_queue c) =? 1)%nat | None => false end = true) by (vm_compute; reflexivity).
  destruct (run (os := demo_os) 3 16 1 2 init demo_moves) as [c|] eqn:E; [|discriminate Hv].
  apply Nat.eqb_eq in Hv.
  destruct (H c (run_reachable 3 16 1 2 init demo_moves c E)) as (w & H1 & H2 & H3 & _).
  exists w. split; [exact H1|]. split; [exact H2|]. split; [exact Hv|]. apply H3. rewrite Hv. constructor.
Defined.

Lemma sig_io_drains_witness :
  match run (os := demo_os) 3 16 1 2 init [Suspend; Unblock; Send] with
  | Some c =>
      match sig_io (os := demo_os) 3 16 (at_queue c) (at_st c) with
      | (Val q', s') => drained 3 s' /\ nqueue q' = 3%nat
      | _ => False
      end
  | None => False
  end.
Proof.
  pose proof (fun c => sig_io_drains (os := demo_os) 3 16 1 2 init
    (conj eq_refl (conj eq_refl eq_refl)) c) as H.
  assert (Hv : match run (os := demo_os) 3 16 1 2 init [Suspend; Unblock; Send] with
    | Some c => match sig_io (os := demo_os) 3 16 (at_queue c) (at_st c) with
                | (Val q', _) => (nqueue q' =? 3)%nat | _ => false end
    | None => false end = true) by (vm_compute; reflexivity).
  destruct (run (os := demo_os) 3 16 1 2 init [Suspend; Unblock; Send]) as [c|] eqn:E; [|discriminate Hv].
  specialize (H c (run_reachable 3 16 1 2 init _ c E)).
  destruct (sig_io (os := demo_os) 3 16 (at_queue c) (at_st c)) as [[q'| | | |] s']; try discriminate Hv.
  destruct H as [Hd _]. split; [exact Hd|exact (proj1 (Nat.eqb_eq _ _) Hv)].
Defined.

(** * A queue that is exactly full

    The handler looks whether the ring is full before it asks for the next datagram: when
    exactly [QSIZE] datagrams have arrived it ends the process with the message "receive
    overflow", although all of them have been stored and none is waiting. *)
Lemma sig_io_full_exits :
  let os := dgram_os (replicate 8 (Some c["x"])) in
  (let '(o, s') := (p <~ dg_echo_init 3 16 1 2 ;; sig_io 3 16 p.1) init in
   (match o with Exited code => code | _ => 0 end, length (arrived 3 (trace s')))) = (1, 8%nat).
Proof. vm_compute. reflexivity. Qed.
