(* ===== verification/UdpCksum.v ===== *)
(** Packets with checksums: the UDP checksum test program ([udpcksum/udpwrite.c],
    [udpcksum/udpread.c], [udpcksum/senddnsquery-raw.c]).

    Packets are byte lists and the fields of the headers are at their offsets: [struct udpiphdr]
    of [<netinet/udp_var.h>] overlays the IP header, with [ui_pr] at 9, [ui_len] at 10, [ui_src]
    at 12, [ui_dst] at 16, [ui_sport] at 20, [ui_dport] at 22, [ui_ulen] at 24 and [ui_sum] at
    26; [struct ip] has version and header length in byte 0, [ip_tos] at 1, [ip_len] at 2,
    [ip_id] at 4, [ip_off] at 6, [ip_ttl] at 8, [ip_p] at 9, [ip_sum] at 10. *)

From S2P Require Import Prelude CText Sys Error Wrappers Cksum SockUtil Packet.

Definition IP_HDRINCL : Z := 3.
Definition IPVERSION : Z := 4.
Definition TTL_OUT : Z := 64.
Definition SIZEOF_IP : Z := 20.
Definition SIZEOF_UDPHDR : Z := 8.
Definition SIZEOF_UDPIPHDR : Z := 28.
Definition DLT_NULL : Z := 0.
Definition DLT_EN10MB : Z := 1.
Definition DLT_SLIP : Z := 8.
Definition DLT_PPP : Z := 9.
Definition ETHERTYPE_IP : Z := 2048.

Section Udp.
Context {os : OS} {SE : Strerror}.

(** The byte order of the host, and whether the kernel takes [ip_len] in network byte order
    ([linux] or [__OpenBSD__]). *)
Context (little net_len : bool).

(** The global variables. *)
Context (dest local : sockaddr) (rawfd : Z) (zerosum : bool).

Definition open_output : M Z :=
  rawfd <~ Socket (sa_family dest) SOCK_RAW 0 ;;
  Setsockopt rawfd IPPROTO_IP IP_HDRINCL (OInt 1) ;;;
  mpure rawfd.

(** [sin_port] and [sin_addr] of an address that is cast to [struct sockaddr_in]. *)
Definition sin_fields (sa : sockaddr) : option (list Z * list Z) :=
  match sa with SockIn port addr => Some (port, addr) | _ => None end.

(** [buf] points to an empty IP/UDP header, followed by [userlen] bytes of user data. *)
Definition udp_write (buf : list Z) (userlen : Z) : M unit :=
  src <~ checked (sin_fields local) ;;
  dst <~ checked (sin_fields dest) ;;
  (* fill in and checksum UDP header *)
  buf <~ checked (memcpy buf 0 (replicate (Z.to_nat SIZEOF_UDPIPHDR) 0)) ;;
  let ui_len := htons (SIZEOF_UDPHDR + userlen) in
  buf <~ checked (memcpy buf 10 ui_len) ;;
  let userlen := userlen + SIZEOF_UDPIPHDR in
  buf <~ checked (memcpy buf 9 [IPPROTO_UDP]) ;;
  buf <~ checked (memcpy buf 12 (snd src)) ;;
  buf <~ checked (memcpy buf 16 (snd dst)) ;;
  buf <~ checked (memcpy buf 20 (fst src)) ;;
  buf <~ checked (memcpy buf 22 (fst dst)) ;;
  buf <~ checked (memcpy buf 24 ui_len) ;;
  buf <~ (if negb zerosum then
            d <~ checked (load buf 0 (Z.to_nat userlen)) ;;
            let sum := in_cksum little d in
            checked (memcpy buf 26 (bytes16 little (if sum =? 0 then 65535 else sum)))
          else mpure buf) ;;
  (* fill in rest of IP header *)
  buf <~ checked (memcpy buf 0 [Z.lor (Z.shiftl IPVERSION 4) (Z.shiftr SIZEOF_IP 2); 0]) ;;
  buf <~ checked (memcpy buf 2 (if net_len then htons userlen else bytes16 little (u16 userlen))) ;;
  buf <~ checked (memcpy buf 4 [0; 0; 0; 0; TTL_OUT]) ;;
  d <~ checked (load buf 0 (Z.to_nat userlen)) ;;
  Sendto rawfd d 0 (Some dest).

(** Build a DNS A query for [a.root-servers.net] and write it to the raw socket.  The contents
    of the memory that [Malloc] returns are [garbage]. *)
Definition dns_name : list Z := [1] ++ c["a"] ++ [12] ++ c["root-servers"] ++ [3] ++ c["net"] ++ [0].

Definition send_dns_query (garbage : list Z) (verbose : bool) : M unit :=
  Malloc (SIZEOF_UDPIPHDR + 100) ;;;
  buf <~ checked (memcpy garbage 28 (htons 1234)) ;;         (* identification *)
  buf <~ checked (memcpy buf 30 (htons 256)) ;;              (* flags: recursion desired *)
  buf <~ checked (memcpy buf 32 (htons 1)) ;;                (* # questions *)
  buf <~ checked (memcpy buf 34 [0; 0]) ;;                   (* # answer RRs *)
  buf <~ checked (memcpy buf 36 [0; 0]) ;;                   (* # authority RRs *)
  buf <~ checked (memcpy buf 38 [0; 0]) ;;                   (* # additional RRs *)
  buf <~ checked (memcpy buf 40 (take 20 dns_name)) ;;
  buf <~ checked (memcpy buf 60 (htons 1)) ;;                (* query type = A *)
  buf <~ checked (memcpy buf 62 (htons 1)) ;;                (* query class = 1 (IP addr) *)
  let nbytes := 64 - SIZEOF_UDPIPHDR in
  udp_write buf nbytes ;;;
  if verbose then
    text <~ checked (vformat c["sent: %d bytes of data"] [AInt nbytes]) ;;
    sys (sys_fputs (text ++ [10]) stdout) ;;; mpure tt
  else mpure tt.

(** Check the received packet: if UDP and OK, return pointer to packet.  The packet afterwards,
    since the check overwrites [ip_sum].  [sizeof] is unsigned, so that [len] is converted to
    [size_t] where it is compared. *)
Definition udp_check (ptr : list Z) (len : Z) : M (list Z) :=
  if u64 len <? SIZEOF_IP + SIZEOF_UDPHDR then err_quit c["len = %d"] [AInt len]
  else
    b0 <~ checked (ptr !! 0%nat) ;;
    let ip_v := Z.shiftr b0 4 in let ip_hl := Z.land b0 15 in
    if negb (ip_v =? IPVERSION) then err_quit c["ip_v = %d"] [AInt ip_v]
    else
      let hlen := Z.shiftl ip_hl 2 in
      if u64 hlen <? SIZEOF_IP then err_quit c["ip_hl = %d"] [AInt ip_hl]
      else if u64 len <? hlen + SIZEOF_UDPHDR then err_quit c["len = %d, hlen = %d"] [AInt len; AInt hlen]
      else
        hdr <~ checked (load ptr 0 (Z.to_nat hlen)) ;;
        let sum := in_cksum little hdr in
        ptr <~ checked (memcpy ptr 10 (bytes16 little sum)) ;;
        if negb (sum =? 0) then err_quit c["ip checksum error"] []
        else
          p <~ checked (ptr !! 9%nat) ;;
          if p =? IPPROTO_UDP then mpure ptr
          else err_quit c["not a UDP packet"] [].

(** The first packet of the [for] loop, which returns or ends the process in its first
    iteration: [ptr] is the packet that [next_pcap] delivers. *)
Definition udp_read (datalink : Z) (ptr : list Z) : M (list Z) :=
  let len := Z.of_nat (length ptr) in
  if datalink =? DLT_NULL then udp_check (drop 4 ptr) (len - 4)
  else if datalink =? DLT_EN10MB then
    t <~ checked (load ptr 12 2) ;;
    if negb (ntohs t =? ETHERTYPE_IP) then err_quit c["Ethernet type %x not IP"] [AInt (ntohs t)]
    else udp_check (drop 14 ptr) (len - 14)
  else if (datalink =? DLT_SLIP) || (datalink =? DLT_PPP) then udp_check (drop 24 ptr) (len - 24)
  else err_quit c["unsupported datalink (%d)"] [AInt datalink].

End Udp.
