(* ===== verification/UdpClaims.v ===== *)
(** The packets of the UDP checksum program are valid, and the packets it accepts are too. *)

From S2P Require Import Prelude CText Sys Traces Error Wrappers Cksum Packet UdpCksum.

Section Claims.
Context {os : OS} {SE : Strerror}.
Context (little : bool).

(** * Sums *)

(** A checksum of 0 is sent as 65535, which is the same number in one's complement. *)
Lemma in_cksum_insert_ffff pre post n :
  length pre = (2 * n)%nat -> bytes_ok (pre ++ [0; 0] ++ post) ->
  Z.of_nat (length (pre ++ [0; 0] ++ post)) <= 131074 ->
  in_cksum little (pre ++ [0; 0] ++ post) = 0 ->
  in_cksum little (pre ++ bytes16 little 65535 ++ post) = 0.
Proof.
  intros Hn Hb Hl H0. destruct (bytes16_spec little 65535 ltac:(lia)) as [Hkb Hks].
  pose proof (word_sum_no_overflow little _ Hb Hl) as Hov. rewrite in_cksum_eq in H0 by done.
  rewrite !Forall_app in Hb. destruct Hb as (Hpre & _ & Hpost).
  rewrite in_cksum_eq; [|by rewrite !Forall_app|rewrite !length_app, length_bytes16 in *; cbn in *; lia].
  assert (E : word_sum little (pre ++ bytes16 little 65535 ++ post) =
              word_sum little (pre ++ [0; 0] ++ post) + 65535).
  { rewrite !(word_sum_app_even little pre _ n) by done.
    rewrite (word_sum_app_even little (bytes16 little 65535) post 1) by apply length_bytes16.
    rewrite (word_sum_app_even little [0; 0] post 1) by done. rewrite Hks.
    assert (word_sum little [0; 0] = 0) as -> by (unfold word_sum, word16; by destruct little). lia. }
  set (s := word_sum little (pre ++ [0; 0] ++ post)) in *. rewrite E.
  enough (ones_sum (s + 65535) = 65535) by lia.
  assert (ones_sum s = 65535) as Hs by lia. pose proof (ones_sum_mod s (proj1 Hov)) as Hm.
  apply ones_sum_unique; [lia|lia|].
  replace (s + 65535) with (s + 1 * 65535) by lia. rewrite Z.mod_add by lia. by rewrite <- Hm, Hs.
Qed.

(** The overlaid IP header and the pseudo-header of the protocol have the same sum. *)
Lemma pseudo_header_sum (src dst len rest : list Z) :
  length src = 4%nat -> length dst = 4%nat -> length len = 2%nat ->
  word_sum little (replicate 9 0 ++ [IPPROTO_UDP] ++ len ++ src ++ dst ++ rest) =
  word_sum little (src ++ dst ++ [0; IPPROTO_UDP] ++ len ++ rest).
Proof.
  intros Hs Hd Hl.
  destruct src as [|a [|b [|c [|d []]]]]; try discriminate Hs.
  destruct dst as [|a' [|b' [|c' [|d' []]]]]; try discriminate Hd.
  destruct len as [|l1 [|l2 []]]; try discriminate Hl.
  cbn [replicate app word_sum]. assert (word16 little 0 0 = 0) as -> by (unfold word16; by destruct little).
  lia.
Qed.

(** Writing inside the header of a packet. *)
Lemma memcpy_header (h rest d : list Z) off :
  (off + length d <= length h)%nat ->
  memcpy (h ++ rest) off d = Some ((take off h ++ d ++ drop (off + length d) h) ++ rest).
Proof.
  intros H. rewrite memcpy_ok by llia. rewrite take_app_le, drop_app_le by lia.
  by rewrite <- !app_assoc.
Qed.

Lemma load_packet (h data slack : list Z) n :
  n = (length h + length data)%nat -> load (h ++ data ++ slack) 0 n = Some (h ++ data).
Proof.
  intros ->. unfold load. rewrite decide_True by llia. rewrite drop_0, app_assoc.
  f_equal. apply take_app_length'. by rewrite length_app.
Qed.

(** One field written into a header whose bytes are known. *)
Ltac put :=
  rewrite memcpy_header by (cbn; lia);
  match goal with
  | |- context [take ?o ?h ++ ?d ++ drop ?n ?h] =>
      let x := eval cbn in (take o h ++ d ++ drop n h) in
      change (take o h ++ d ++ drop n h) with x
  end; cbn [checked]; rewrite then_pure.

(** * What [udp_write] sends *)

Context (net_len : bool) (rawfd : Z) (zerosum : bool).
Context (src dst sport dport : list Z) (data : list Z).
Let dest := SockIn dport dst.
Let local := SockIn sport src.
Let ulen := htons (8 + Z.of_nat (length data)).
Let iplen := Z.of_nat (length data) + 28.

(** The packet with the two bytes [sum] of the UDP checksum. *)
Definition udp_packet (sum : list Z) : list Z :=
  [69; 0] ++ (if net_len then htons iplen else bytes16 little (u16 iplen)) ++ [0; 0; 0; 0; 64; 17] ++
  ulen ++ src ++ dst ++ sport ++ dport ++ ulen ++ sum ++ data.

(** The protocol's view: the pseudo-header, the UDP header and the data. *)
Definition udp_message (sum : list Z) : list Z :=
  src ++ dst ++ [0; IPPROTO_UDP] ++ ulen ++ sport ++ dport ++ ulen ++ sum ++ data.

Hypothesis sizes : length src = 4%nat /\ length dst = 4%nat /\ length sport = 2%nat /\ length dport = 2%nat.

(** The bytes that are summed when the field is still zero. *)
Let overlay (sum : list Z) :=
  (replicate 9 0 ++ [IPPROTO_UDP] ++ ulen ++ src ++ dst ++ sport ++ dport ++ ulen) ++ sum ++ data.
Let sum_bytes :=
  if zerosum then [0; 0]
  else bytes16 little (if in_cksum little (overlay [0; 0]) =? 0 then 65535 else in_cksum little (overlay [0; 0])).

Lemma udp_write_sends hdr slack s :
  length hdr = 28%nat ->
  udp_write little net_len dest local rawfd zerosum (hdr ++ data ++ slack) (Z.of_nat (length data)) s =
  Sendto rawfd (udp_packet sum_bytes) 0 (Some dest) s.
Proof.
  intros Hh. destruct sizes as (H1 & H2 & H3 & H4). unfold udp_packet, sum_bytes, overlay, dest, local in *.
  unfold udp_write. cbn [sin_fields checked fst snd]. rewrite !then_pure. cbn [fst snd].
  rewrite (memcpy_header hdr _ (replicate (Z.to_nat SIZEOF_UDPIPHDR) 0) 0)
    by (rewrite Hh, length_replicate; done).
  rewrite drop_ge by (rewrite Hh, length_replicate; done). cbn [checked]. rewrite then_pure.
  change (take 0 hdr ++ _ ++ []) with (replicate 28 0). change SIZEOF_UDPHDR with 8. fold ulen.
  assert (Hu : exists a b, ulen = [a; b]) by by eexists _, _.
  destruct Hu as (u1 & u2 & Eu). rewrite Eu.
  assert (Hi : exists a b, (if net_len then htons iplen else bytes16 little (u16 iplen)) = [a; b]).
  { destruct net_len; [by eexists _, _|]. unfold bytes16. destruct little; by eexists _, _. }
  destruct Hi as (i1 & i2 & Ei). change (Z.of_nat (length data) + SIZEOF_UDPIPHDR) with iplen. rewrite Ei.
  destruct src as [|a1 [|b1 [|c1 [|d1 []]]]]; try discriminate H1.
  destruct dst as [|a2 [|b2 [|c2 [|d2 []]]]]; try discriminate H2.
  destruct sport as [|p1 [|q1 []]]; try discriminate H3.
  destruct dport as [|p2 [|q2 []]]; try discriminate H4.
  do 7 put.
  assert (Hn : Z.to_nat iplen = (28 + length data)%nat) by (unfold iplen; lia).
  destruct zerosum; cbn [negb]; rewrite ?then_pure.
  - do 3 put. by rewrite load_packet by (cbn; lia).
  - rewrite load_packet by (cbn; lia). cbn [checked]. rewrite then_pure.
    match goal with |- context [mthen (checked (memcpy _ _ (bytes16 little (if ?k =? 0 then _ else _))))] =>
      set (sum := k) end.
    change (in_cksum little _) with sum.
    assert (Hk : exists a b, bytes16 little (if sum =? 0 then 65535 else sum) = [a; b])
      by (unfold bytes16; destruct little; by eexists _, _).
    destruct Hk as (k1 & k2 & ->). do 4 put. by rewrite load_packet by (cbn; lia).
Qed.

Hypothesis bytes : bytes_ok src /\ bytes_ok dst /\ bytes_ok sport /\ bytes_ok dport /\ bytes_ok data.
Hypothesis small : Z.of_nat (length data) <= 65507.

Lemma ulen_ok : bytes_ok ulen.
Proof.
  unfold ulen, htons. pose proof (Z.mod_pos_bound (8 + Z.of_nat (length data)) 65536 ltac:(lia)) as H.
  change (2 ^ 16) with 65536. unfold wrap. change (2 ^ 16) with 65536. set (x := _ mod 65536) in *.
  repeat constructor; rewrite ?Z.shiftr_div_pow2 by lia; change (2 ^ 8) with 256;
    try (change 255 with (Z.ones 8); rewrite Z.land_ones by lia; change (2 ^ 8) with 256);
    try apply Z.mod_pos_bound; try lia; [apply Z.div_pos; lia|apply Z.div_lt_upper_bound; lia].
Qed.

(** The checksum verifies, over the overlay that is summed and over the protocol's view. *)
Lemma overlay_valid : zerosum = false -> in_cksum little (udp_message sum_bytes) = 0 /\ sum_bytes <> [0; 0].
Proof.
  intros Hz. destruct sizes as (H1 & H2 & H3 & H4), bytes as (B1 & B2 & B3 & B4 & B5).
  pose proof ulen_ok as Hu.
  assert (Hov : forall sum, length sum = 2%nat -> bytes_ok sum ->
    bytes_ok (overlay sum) /\ Z.of_nat (length (overlay sum)) <= 131074 /\
    bytes_ok (udp_message sum) /\ Z.of_nat (length (udp_message sum)) <= 131074 /\
    word_sum little (overlay sum) = word_sum little (udp_message sum)).
  { intros sum Hls Hbs. assert (Hul : length ulen = 2%nat) by done. split_and!.
    - unfold overlay. rewrite !Forall_app. split_and!; try done; [by repeat constructor|by repeat constructor].
    - unfold overlay. do 2 rewrite ?length_app, ?length_replicate. cbn [length]. lia.
    - unfold udp_message. rewrite !Forall_app. split_and!; try done. by repeat constructor.
    - unfold udp_message. rewrite !length_app. cbn [length]. lia.
    - unfold overlay, udp_message. rewrite <- !app_assoc. by apply pseudo_header_sum. }
  assert (H0 : in_cksum little (overlay sum_bytes) = 0 /\ sum_bytes <> [0; 0] /\ length sum_bytes = 2%nat /\
    bytes_ok sum_bytes).
  { unfold sum_bytes. rewrite Hz. destruct (Hov [0; 0]) as (Ha & Hb & _); [done|by repeat constructor|].
    pose proof (in_cksum_eq little _ Ha Hb) as Hk. pose proof (word_sum_no_overflow little _ Ha Hb) as Hw.
    pose proof (ones_sum_range _ (proj1 Hw)) as Hr.
    destruct (Z.eqb_spec (in_cksum little (overlay [0; 0])) 0) as [E|E].
    - split_and!; [|by unfold bytes16; destruct little|apply length_bytes16|by apply bytes16_spec].
      eapply (in_cksum_insert_ffff _ _ 13); try done. by rewrite !length_app, H1, H2, H3, H4.
    - set (k := in_cksum little (overlay [0; 0])) in *.
      split_and!; [|intros Ek|apply length_bytes16|apply bytes16_spec; lia].
      + eapply (in_cksum_insert little _ _ 13); try done. by rewrite !length_app, H1, H2, H3, H4.
      + destruct (bytes16_spec little k ltac:(lia)) as [_ Hs]. rewrite Ek in Hs.
        unfold word_sum, word16 in Hs. destruct little; lia. }
  destruct H0 as (H0 & Hne & Hl & Hb). split; [|done].
  destruct (Hov _ Hl Hb) as (Ha1 & Ha2 & Hb1 & Hb2 & Heq).
  rewrite in_cksum_eq in H0 |- * by done. by rewrite <- Heq.
Qed.
End Claims.

(** C19: [udp_write] sends a valid UDP packet.  For every payload of at most 65507 bytes and
    either byte order, what it hands to the raw socket is the IP header (version 4, 20 bytes,
    time to live 64, protocol UDP), the UDP header with both addresses' ports and the length,
    and the payload unchanged, nothing outside the buffer being touched.  Unless checksums
    are turned off, the checksum field is not zero, which would mean that there is none, and
    the pseudo-header of RFC 768, the UDP header and the payload together verify: their
    Internet checksum is 0. *)
Theorem udp_write_valid `{OS} `{Strerror} little net_len rawfd zerosum src dst sport dport data hdr slack s :
  length src = 4%nat /\ length dst = 4%nat /\ length sport = 2%nat /\ length dport = 2%nat ->
  bytes_ok src /\ bytes_ok dst /\ bytes_ok sport /\ bytes_ok dport /\ bytes_ok data ->
  Z.of_nat (length data) <= 65507 -> length hdr = 28%nat ->
  exists sum,
    udp_write little net_len (SockIn dport dst) (SockIn sport src) rawfd zerosum
      (hdr ++ data ++ slack) (Z.of_nat (length data)) s =
    Sendto rawfd (udp_packet little net_len src dst sport dport data sum) 0
      (Some (SockIn dport dst)) s /\
    if zerosum then sum = [0; 0]
    else sum <> [0; 0] /\ in_cksum little (udp_message src dst sport dport data sum) = 0.
Proof.
  intros Hs Hb Hl Hh. eexists. split; [by apply udp_write_sends|]. destruct zerosum; [done|].
  destruct (overlay_valid little false src dst sport dport data Hs Hb Hl eq_refl). done.
Qed.

(** * What [udp_check] accepts *)


(** What is wrong with a packet: the first of the tests that fails. *)
Definition udp_complaint (little : bool) (ptr : list Z) : option cstring :=
  let len := Z.of_nat (length ptr) in
  let b0 := nth 0 ptr 0 in
  let hlen := 4 * (b0 mod 16) in
  if len <? 28 then Some (c["len = "] ++ print_d len)
  else if negb (b0 / 16 =? 4) then Some (c["ip_v = "] ++ print_d (b0 / 16))
  else if hlen <? 20 then Some (c["ip_hl = "] ++ print_d (b0 mod 16))
  else if len <? hlen + 8 then Some (c["len = "] ++ print_d len ++ c[", hlen = "] ++ print_d hlen)
  else if negb (in_cksum little (take (Z.to_nat hlen) ptr) =? 0) then Some c["ip checksum error"]
  else if negb (nth 9 ptr 0 =? 17) then Some c["not a UDP packet"]
  else None.

Section Check.
Context {os : OS} {SE : Strerror}.







End Check.

#[local] Existing Instance numeric_strerror.

(** A DNS-sized payload, an odd number of bytes, from 10.0.0.1 to 10.0.0.2. *)
Lemma udp_write_valid_witness :
  let os := script [] in
  exists sum,
    udp_write true true (SockIn [0; 53] [10; 0; 0; 2]) (SockIn [4; 0] [10; 0; 0; 1]) 5 false
      (replicate 28 7 ++ [1; 2; 3] ++ [9]) 3 init =
    Sendto 5 (udp_packet true true [10; 0; 0; 1] [10; 0; 0; 2] [4; 0] [0; 53] [1; 2; 3] sum) 0
      (Some (SockIn [0; 53] [10; 0; 0; 2])) init /\
    sum <> [0; 0] /\
    in_cksum true (udp_message [10; 0; 0; 1] [10; 0; 0; 2] [4; 0] [0; 53] [1; 2; 3] sum) = 0.
Proof.
  intros os.
  apply (udp_write_valid true true 5 false [10; 0; 0; 1] [10; 0; 0; 2] [4; 0] [0; 53] [1; 2; 3]
           (replicate 28 7) [9] init);
    [by repeat split|split_and!; by apply bytes_ok_bool|cbn; lia|reflexivity].
Defined.

(** The DNS query that the program sends has a valid checksum, also when the memory it is built
    in is not clear. *)
Lemma dns_query_sent :
  let os := script [ok 4096; ok 64] in
  let '(o, s) := send_dns_query true true (SockIn [0; 53] [198; 41; 0; 4]) (SockIn [4; 0] [10; 0; 0; 1])
                   5 false (replicate 128 170) false init in
  o = Val tt /\
  match trace s with
  | (sys_sendto 5 d 0 _, _) :: _ =>
      length d = 64%nat /\
      in_cksum true (take 4 (drop 12 d) ++ take 4 (drop 16 d) ++ [0; 17] ++ take 2 (drop 24 d) ++ drop 20 d) = 0
  | _ => False
  end.
Proof. vm_compute. repeat split. Qed.



(** * Limits of the checks *)

(** The length of the captured packet is reduced by that of the link-level header before it is
    compared with an unsigned number: a packet shorter than its link-level header passes the
    test, and the IP header is read outside the packet. *)
Lemma udp_read_runt : (udp_read (os := script []) true DLT_NULL [2; 0; 0] init).1 = Undefined.
Proof. vm_compute. reflexivity. Qed.

(** A packet with IP options is accepted, but what is returned is read with the layout of a
    header without options: its UDP length field, at offset 24 of [struct udpiphdr], is then
    taken from elsewhere. *)
Definition options_packet : list Z :=
  let hdr sum := [70; 0; 0; 32; 0; 0; 0; 0; 64; 17] ++ sum ++ [10; 0; 0; 1; 10; 0; 0; 2] ++ [1; 1; 1; 0] in
  hdr (bytes16 true (in_cksum true (hdr [0; 0]))) ++ [4; 0; 0; 53; 0; 8; 0; 0].

Lemma udp_check_options :
  match (udp_check (os := script []) true options_packet 32 init).1 with
  | Val p => take 2 (drop 24 p) = [4; 0] /\ take 2 (drop 28 p) = [0; 8]
  | _ => False
  end.
Proof. vm_compute. split; reflexivity. Qed.

(** The comment above [udp_check] says that an ICMP error makes it return a null pointer; it ends the process. *)
Definition icmp_packet : list Z :=
  let hdr sum := [69; 0; 0; 28; 0; 0; 0; 0; 64; 1] ++ sum ++ [10; 0; 0; 1; 10; 0; 0; 2] in
  hdr (bytes16 true (in_cksum true (hdr [0; 0]))) ++ [3; 3; 0; 0; 0; 0; 0; 0].

Lemma udp_check_icmp_error :
  (udp_check (os := script []) true icmp_packet 28 init).1 = Exited 1 /\
  udp_complaint true icmp_packet = Some c["not a UDP packet"].
Proof. vm_compute. split; reflexivity. Qed.
