(* ===== verification/RttClaims.v ===== *)
(** The request-reply protocol of [dg_send_recv]: what it sends, what it accepts as a reply, and
    when it gives up. *)

From Stdlib Require Import SpecFloat.
From S2P Require Import Prelude CText Sys Traces Error Wrappers SockUtil RobustIO StreamFacts Servers Rtt.

(** * Observations *)

(** The datagrams handed to [sendmsg]: destination and pieces. *)
Definition tx (fd : Z) (e : event) : list (option sockaddr * list (list Z)) :=
  match e.1 with
  | sys_sendmsg fd' name iov _ _ => if fd' =? fd then [(name, iov)] else []
  | _ => []
  end.
Definition transmissions (fd : Z) := collect (tx fd).

(** The datagrams that [recvmsg] delivered. *)
Definition rx (fd : Z) (e : event) : list (list Z) :=
  match e.1 with
  | sys_recvmsg fd' _ _ _ => if (fd' =? fd) && (0 <=? rv e.2) then [rbytes e.2] else []
  | _ => []
  end.
Definition deliveries (fd : Z) := collect (rx fd).

(** [recvmsg]: at most the room there is, and the count is the number of bytes; or -1. *)
Class RecvmsgLaw `{OS} : Prop :=
  recvmsg_law : forall h fd a b, 0 <= a -> 0 <= b ->
    let r := os_answer h (sys_recvmsg fd [a; b] 0 0) in
    (rv r = -1 /\ is_Some (rerrno r)) \/
    (rv r = Z.of_nat (length (rbytes r)) /\ rv r <= a + b).

(** The timeouts of the first transmission and of the three retransmissions, with the timeout
    doubled each time, are representable. *)
Definition timeouts_ok (p : rtt_info) : bool :=
  let p1 := (rtt_timeout p).2 in let p2 := (rtt_timeout p1).2 in let p3 := (rtt_timeout p2).2 in
  forallb (fun p => match rtt_start p with Some _ => true | None => false end) [p; p1; p2; p3].

(** The timeouts of a fresh estimator: 3, 6, 12 and 24 seconds. *)
Lemma fresh_timeouts n base :
  let p := RttInfo (S754_zero false) (S754_zero false) (to_f32 three_quarters)
             (rtt_minmax (to_f32 (RTT_RTOCALC (S754_zero false) (to_f32 three_quarters)))) n base in
  let p1 := (rtt_timeout p).2 in let p2 := (rtt_timeout p1).2 in let p3 := (rtt_timeout p2).2 in
  rtt_start <$> [p; p1; p2; p3] = [Some 3; Some 6; Some 12; Some 24].
Proof. reflexivity. Qed.

Section Protocol.
Context {os : OS} {SE : Strerror} {RML : RecvmsgLaw}.
Context (little : bool) (fd : Z) (outbuff : list Z) (inbytes : Z) (destaddr : sockaddr).
Context (fuel : nat) (seq : Z) (s0 : st).
Hypothesis room : 0 <= inbytes < 2 ^ 31.

(** What is sent for this request. *)
Definition is_request (x : option sockaddr * list (list Z)) : Prop :=
  x.1 = Some destaddr /\ exists ts, x.2 = [bytes32 little seq ++ bytes32 little ts; outbuff].

(** [k] transmissions of the request since [s0]. *)
Definition sent_so_far (k : nat) (h : list event) : Prop :=
  exists evs, h = evs ++ trace s0 /\ Forall is_request (transmissions fd evs) /\
    length (transmissions fd evs) = k.

Definition at_most_four (h : list event) : Prop := exists k, (k <= 4)%nat /\ sent_so_far k h.

(** Fuel runs out only on datagrams that are not the reply. *)
Definition flooded (h : list event) : Prop :=
  exists evs, h = evs ++ trace s0 /\ (fuel <= length (deliveries fd evs))%nat.

Definition no_tx (c : syscall) : bool := match c with sys_sendmsg _ _ _ _ _ => false | _ => true end.

Lemma sent_so_far_other k c r h : no_tx c = true -> sent_so_far k h -> sent_so_far k ((c, r) :: h).
Proof.
  intros Hc (evs & -> & Hf & Hl). exists ((c, r) :: evs). split; [done|].
  unfold transmissions in *. rewrite collect_cons.
  replace (tx fd (c, r)) with (@nil (option sockaddr * list (list Z))) by (by destruct c).
  by rewrite app_nil_r.
Qed.

Lemma sent_so_far_output k evs h : Forall output evs -> sent_so_far k h -> sent_so_far k (evs ++ h).
Proof.
  induction 1 as [|[c r] evs He _ IH]; intros Hh; [done|]. cbn [app].
  apply sent_so_far_other; [unfold output in He; by destruct c|by apply IH].
Qed.

Lemma at_most_four_output evs h : Forall output evs -> at_most_four h -> at_most_four (evs ++ h).
Proof. intros He (k & Hk & Hh). exists k. split; [done|by apply sent_so_far_output]. Qed.

Abbreviation goes := (ends at_most_four flooded).

(** The point reached: [k] transmissions, and the last datagram received when it matters. *)
Record now (k : nat) (l : option (list Z)) (s : st) : Prop := {
  now_foreground : daemon_proc s = 0;
  now_few : (k <= 4)%nat;
  now_sent : sent_so_far k (trace s);
  now_last : forall d, l = Some d -> last (deliveries fd (trace s)) = Some d;
}.

(** Calls that keep it. *)
Definition keeps (l : option (list Z)) (c : syscall) : bool :=
  match c with sys_sendmsg _ _ _ _ _ => false | sys_recvmsg _ _ _ _ => bool_decide (l = None) | _ => true end.

Lemma now_after k l c r s : keeps l c = true -> now k l s -> now k l (after c r s).
Proof.
  intros Hc []. constructor; try done.
  - apply sent_so_far_other; [by destruct c|done].
  - intros d Hd. cbn [after trace]. unfold deliveries in *. rewrite collect_cons.
    replace (rx fd (c, r)) with (@nil (list Z)); [rewrite app_nil_r; auto|].
    destruct c; try done. cbn in Hc. case_bool_decide; congruence.
Qed.

Lemma now_few_sent k l s : now k l s -> at_most_four (trace s).
Proof. intros []. by exists k. Qed.

(** A call that is not a transmission. *)
Lemma goes_sys {B} k l c (f : sysret -> M B) (Q : B -> st -> Prop) s :
  keeps l c = true -> now k l s ->
  (forall r, r = answer c s -> now k l (after c r s) -> wp (f r) (goes Q) (after c r s)) ->
  wp (mthen (sys c) f) (goes Q) s.
Proof. intros Hc Hn HQ. apply wp_then, wp_sys. cbn [andthen]. apply HQ; [done|by apply now_after]. Qed.

Lemma goes_call k l c bad msg (Q : sysret -> st -> Prop) s :
  keeps l c = true -> plain msg = true -> now k l s ->
  (forall s', now k l s' -> Q (answer c s) s') -> wp (call c bad msg) (goes Q) s.
Proof.
  intros Hc Hp Hn HQ. pose proof (now_after k l c (answer c s) s Hc Hn) as Hn'.
  apply ends_call; [apply at_most_four_output|done|apply Hn|by eapply now_few_sent|auto].
Qed.

Lemma goes_rtt_ts {B} k l p (f : Z -> M B) (Q : B -> st -> Prop) s :
  now k l s -> (forall ts s', now k l s' -> wp (f ts) (goes Q) s') -> wp (mthen (rtt_ts p) f) (goes Q) s.
Proof.
  intros Hn HQ. unfold rtt_ts, Gettimeofday.
  eapply (ends_then _ _ _ _ (fun _ s' => now k l s')); [|auto].
  eapply (ends_then _ _ _ _ (fun _ s' => now k l s')); [|by intros].
  eapply (ends_then _ _ _ _ (fun _ s' => now k l s')); [|by intros]. by apply (goes_call k l).
Qed.

Lemma goes_debug {B} k l a b n (f : unit -> M B) (Q : B -> st -> Prop) s :
  now k l s -> (forall s', now k l s' -> wp (f tt) (goes Q) s') -> wp (mthen (debug_seq a b n) f) (goes Q) s.
Proof.
  intros Hn HQ. eapply (ends_then _ _ _ _ (fun _ s' => now k l s')); [|by intros []].
  unfold debug_seq. by apply (goes_sys k l).
Qed.

Lemma goes_rtt_debug {B} k l d p (f : unit -> M B) (Q : B -> st -> Prop) s :
  now k l s -> (forall s', now k l s' -> wp (f tt) (goes Q) s') -> wp (mthen (rtt_debug d p) f) (goes Q) s.
Proof.
  intros Hn HQ. eapply (ends_then _ _ _ _ (fun _ s' => now k l s')); [|by intros []].
  unfold rtt_debug. destruct (d =? 0); [by apply ends_pure|].
  apply (goes_sys k l); [done|done|]. intros r _ Hn1. by apply (goes_sys k l).
Qed.

Lemma goes_err_msg {B} k msg (f : unit -> M B) (Q : B -> st -> Prop) s :
  plain msg = true -> now k None s -> (forall s', now k None s' -> wp (f tt) (goes Q) s') ->
  wp (mthen (err_msg msg []) f) (goes Q) s.
Proof.
  intros [Hp Hz]%plain_of_bool Hn HQ. apply wp_then. unfold wp, err_msg.
  rewrite (err_doit_line _ _ _ _ msg) by (done || by apply vformat_plain). destruct Hn as [Hd Hk Hs _].
  rewrite Hd. cbn [Z.eqb andthen]. apply HQ.
  destruct (reported_history (report_line false msg (errno s)) s) as (evs & Ht & Ho & _).
  constructor; [done|done| |done]. rewrite Ht. by apply sent_so_far_output.
Qed.

(** Waiting for the reply. *)
Definition waited_post (inbuff : list Z) (k : nat) (q : waited * list Z * list Z) (s' : st) : Prop :=
  let '(w, hdr, inbuff') := q in
  length hdr = 8%nat /\ length inbuff' = length inbuff /\
  match w with
  | Alarm => now k None s'
  | Reply n => exists d, now k (Some d) s' /\ n = Z.of_nat (length d) /\
      8 <= n <= 8 + inbytes /\ take 8 d = hdr /\ recv_seq little hdr = seq /\
      take (length d - 8) inbuff' = drop 8 d
  end.

Lemma recv_loop_spec f hdr inbuff k s :
  now k None s -> length hdr = 8%nat -> inbytes <= Z.of_nat (length inbuff) ->
  (exists evs, trace s = evs ++ trace s0 /\ (fuel <= f + length (deliveries fd evs))%nat) ->
  wp (recv_loop little f fd seq hdr inbuff inbytes) (goes (waited_post inbuff k)) s.
Proof.
  revert hdr inbuff s. induction f as [|f IH]; intros hdr inbuff s Hn Hh Hi Hfuel; cbn [recv_loop].
  { split; [by eapply now_few_sent|]. destruct Hfuel as (evs & ? & ?). by exists evs. }
  set (c := sys_recvmsg fd [SIZEOF_HDR; inbytes] 0 0). apply (goes_sys k None); [done|done|].
  intros r Er Hn1. apply wp_then. cbn [wp get_errno andthen].
  destruct (recvmsg_law (trace s) fd SIZEOF_HDR inbytes ltac:(done) (proj1 room)) as [[Hv _]|[Hv Hle]];
    fold c in Hv; fold (answer c s) in Hv; rewrite <- Er in Hv.
  - rewrite Hv. cbn [Z.ltb Z.compare andb]. destruct (errno _ =? EINTR).
    + by apply ends_pure.
    + apply ends_err_sys; [apply at_most_four_output|done|apply Hn1|by eapply now_few_sent].
  - fold c in Hle. fold (answer c s) in Hle. rewrite <- Er in Hle.
    rewrite (proj2 (Z.ltb_ge (rv r) 0)) by lia. cbn [andb]. change SIZEOF_HDR with 8 in Hle.
    set (d := rbytes r) in *.
    assert (Hrx : rx fd (c, r) = [d]).
    { unfold rx, c. cbn [fst snd]. by rewrite Z.eqb_refl, (proj2 (Z.leb_le 0 (rv r))) by lia. }
    assert (Hdel : deliveries fd (trace (after c r s)) = deliveries fd (trace s) ++ [d])
      by (cbn [after trace]; unfold deliveries; by rewrite collect_cons, Hrx).
    rewrite memcpy_ok by (rewrite length_take; lia). eapply wp_checked; [done|].
    rewrite memcpy_ok by (rewrite length_drop; lia). eapply wp_checked; [done|].
    cbn [Nat.add]. set (hdr' := take 0 hdr ++ _). set (inbuff' := take 0 inbuff ++ _).
    assert (Hh' : length hdr' = 8%nat) by (unfold hdr'; llia).
    assert (Hi' : length inbuff' = length inbuff) by (unfold inbuff'; llia).
    unfold debug_seq. do 2 apply wp_then. apply wp_sys. cbn [andthen wp mpure].
    set (cp := sys_fputs _ _). set (s2 := after cp _ _).
    assert (Hn2 : now k None s2) by by apply now_after.
    assert (Hdel2 : deliveries fd (trace s2) = deliveries fd (trace s) ++ [d])
      by (rewrite <- Hdel; cbn [s2 after trace]; unfold deliveries; rewrite collect_cons; apply app_nil_r).
    destruct ((u64 (rv r) <? SIZEOF_HDR) || negb (recv_seq little hdr' =? seq)) eqn:Eskip.
    + eapply ends_mono; [apply IH; try done; [lia|]|].
      * destruct Hfuel as (evs & Ht & Hf). cbn [s2 after trace].
        eexists ((cp, _) :: (c, r) :: evs). rewrite Ht. split; [done|]. unfold deliveries in *.
        rewrite !collect_cons, !length_app, Hrx. cbn [length]. lia.
      * intros [[w h3] i3] s3 (? & Hl3 & Hw). split_and!; try done. by rewrite Hl3.
    + apply orb_false_iff in Eskip as [E1%Z.ltb_ge E2%negb_false_iff%Z.eqb_eq].
      assert (E64 : u64 (rv r) = rv r) by (apply Z.mod_small; lia). rewrite E64 in E1.
      change SIZEOF_HDR with 8 in E1.
      apply ends_pure. split_and!; try done. exists d.
      split_and!; try done; try lia.
      * destruct Hn2. constructor; try done. intros d' [= <-]. by rewrite Hdel2, last_snoc.
      * unfold hdr'. rewrite length_take, drop_ge by lia. by rewrite app_nil_r.
      * unfold inbuff'. rewrite take_0. apply (take_app_length' (drop 8 d)). by rewrite length_drop.
Qed.

(** The timeouts of [tries] transmissions are representable. *)
Fixpoint startable (tries : nat) (p : rtt_info) : Prop :=
  match tries with O => True | S t => is_Some (rtt_start p) /\ startable t (rtt_timeout p).2 end.

(** What [dg_send_recv] returns. *)
Definition exchanged (inbuff : list Z) (q : Z * list Z * dg_static) (s' : st) : Prop :=
  let '(n, inbuff', v') := q in
  send_seq v' = seq /\ length inbuff' = length inbuff /\ length (recvhdr v') = 8%nat /\
  ((exists d, last (deliveries fd (trace s')) = Some d /\ n = Z.of_nat (length d) - 8 /\
      0 <= n <= inbytes /\ recv_seq little (take 8 d) = seq /\ take (Z.to_nat n) inbuff' = drop 8 d /\
      at_most_four (trace s')) \/
   (n = -1 /\ sent_so_far 4 (trace s') /\ errno s' = ETIMEDOUT /\ rttinit v' = false)).

Lemma now_transmission k ts s :
  now k None s -> (k < 4)%nat ->
  let c := sys_sendmsg fd (Some destaddr) [bytes32 little seq ++ bytes32 little ts; outbuff] [] 0 in
  now (S k) None (after c (answer c s) s).
Proof.
  intros [Hd Hk (evs & Ht & Hf & Hl) _] Hlt. cbv zeta. constructor; [done|lia| |done].
  eexists ((_, _) :: evs). cbn [after trace]. rewrite Ht. split; [done|].
  unfold transmissions in *. rewrite collect_cons. unfold tx at 2 4. cbn [fst snd].
  rewrite Z.eqb_refl. split.
  - apply Forall_app. split; [done|]. constructor; [|done]. split; [done|by exists ts].
  - rewrite length_app, Hl. cbn. lia.
Qed.

Lemma send_again_spec tries inbuff v s :
  (tries <= 4)%nat -> rtt_nrexmt (rttinfo v) = 4 - Z.of_nat tries -> (0 < tries)%nat ->
  now (4 - tries) None s -> send_seq v = seq -> length (recvhdr v) = 8%nat ->
  inbytes <= Z.of_nat (length inbuff) -> startable tries (rttinfo v) ->
  wp (send_again little tries fuel fd outbuff inbuff inbytes destaddr v) (goes (exchanged inbuff)) s.
Proof.
  revert inbuff v s. induction tries as [|t IH]; intros inbuff v s Ht4 Hre Hpos Hn Hseq Hh Hi Hst; [lia|].
  cbn [send_again]. apply (goes_debug (4 - S t) None); [done|]. clear s Hn. intros s Hn.
  apply (goes_rtt_ts (4 - S t) None); [done|]. clear s Hn. intros ts s Hn.
  rewrite Hseq. unfold Sendmsg. set (c := sys_sendmsg fd _ _ _ _).
  pose proof (now_transmission _ ts s Hn ltac:(lia)) as Hn1. fold c in Hn1.
  replace (S (4 - S t)) with (4 - t)%nat in Hn1 by lia.
  eapply (ends_then _ _ _ _ (fun _ s' => now (4 - t) None s')).
  { eapply (ends_then _ _ _ _ (fun _ s' => now (4 - t) None s')); [|by intros].
    apply ends_call; [apply at_most_four_output|done|apply Hn|by eapply now_few_sent|done]. }
  clear s Hn c Hn1. intros _ s Hn. destruct Hst as [[secs Hsecs] Hst].
  eapply wp_checked; [exact Hsecs|]. apply (goes_sys (4 - t) None); [done|done|]. intros r _ Hn1.
  apply (goes_rtt_debug (4 - t) None); [done|]. clear s Hn r Hn1. intros s Hn.
  eapply ends_then.
  { apply recv_loop_spec; try done. destruct Hn as [_ _ (evs & Htr & _) _]. exists evs. split; [done|lia]. }
  intros [[w hdr] inbuff1] s1 (Hh1 & Hi1 & Hw). destruct w as [n|].
  - destruct Hw as (d & Hn1 & -> & Hle & Htk & Hrs & Hin).
    apply (goes_sys (4 - t) (Some d)); [done|done|]. intros r _ Hn2.
    apply (goes_rtt_ts (4 - t) (Some d)); [done|]. intros ts' s2 Hn3. apply ends_pure.
    split_and!; try done. left. exists d. rewrite Htk.
    split_and!; [by apply Hn3|done|change SIZEOF_HDR with 8; lia|change SIZEOF_HDR with 8; lia|done| |
      by eapply now_few_sent].
    change SIZEOF_HDR with 8. by replace (Z.to_nat (Z.of_nat (length d) - 8)) with (length d - 8)%nat by lia.
  - destruct (rtt_timeout (rttinfo v)) as [rc info] eqn:Eto.
    assert (Hrc : rc = (if 4 - Z.of_nat t >? 3 then -1 else 0) /\ rtt_nrexmt info = 4 - Z.of_nat t).
    { unfold rtt_timeout in Eto. injection Eto as <- <-. cbn [rtt_nrexmt]. rewrite Hre.
      replace (4 - Z.of_nat (S t) + 1) with (4 - Z.of_nat t) by lia. done. }
    destruct Hrc as [-> Hre1]. destruct t as [|t].
    + cbn [Z.of_nat Z.sub Z.gtb Z.compare Z.ltb Z.add Z.opp].
      apply (goes_err_msg 4); [done|done|]. clear s Hn. intros s Hn. apply wp_then.
      cbn [wp set_errno andthen]. apply ends_pure. split_and!; try done. right. split_and!; try done. by destruct Hn.
    + destruct (Z.gtb_spec (4 - Z.of_nat (S t)) 3); [lia|]. cbn [Z.ltb Z.compare].
      apply (goes_err_msg (4 - S t)); [done|done|]. clear s Hn. intros s Hn.
      eapply ends_mono; [apply IH; try done; try lia|].
      intros [[n i2] v2] s2 (? & Hl2 & ? & Hcase). split_and!; try done. by rewrite Hl2.
Qed.
End Protocol.

Lemma startable_ok p : timeouts_ok p = true -> startable 4 p.
Proof.
  unfold timeouts_ok. cbn [forallb startable]. rewrite !andb_true_iff. intros (H1 & H2 & H3 & H4 & _).
  repeat split.
  - by destruct (rtt_start p).
  - by destruct (rtt_start (rtt_timeout p).2).
  - by destruct (rtt_start (rtt_timeout (rtt_timeout p).2).2).
  - by destruct (rtt_start (rtt_timeout (rtt_timeout (rtt_timeout p).2).2).2).
Qed.

Section Claim.
Context {os : OS} {SE : Strerror} {RML : RecvmsgLaw}.

Section Calls.
Context (little : bool) (fuel : nat) (fd : Z) (outbuff : list Z) (destaddr : sockaddr) (seq : Z) (s0 : st).
Abbreviation goes := (ends (at_most_four little fd outbuff destaddr seq s0) (flooded fd fuel s0)).
Abbreviation here := (now little fd outbuff destaddr seq s0 0 None).

(** The estimator, set up on the first call. *)
Lemma estimator_spec v (Q : dg_static -> st -> Prop) s :
  here s -> (rttinit v = true -> timeouts_ok (rttinfo v) = true) -> length (recvhdr v) = 8%nat ->
  (forall v' s', here s' -> timeouts_ok (rttinfo v') = true -> send_seq v' = send_seq v ->
     length (recvhdr v') = 8%nat -> Q v' s') ->
  wp (if rttinit v then mpure v
      else info <~ rtt_init (rttinfo v) ;;
           mpure (DgStatic info true 1 (send_seq v) (send_ts v) (recvhdr v))) (goes Q) s.
Proof.
  intros Hn Hok Hh HQ. destruct (rttinit v); [apply ends_pure; auto|].
  eapply (ends_then _ _ _ _ (fun info s' => here s' /\ timeouts_ok info = true)).
  - unfold rtt_init, Gettimeofday. eapply (ends_then _ _ _ _ (fun _ s' => here s')).
    { eapply (ends_then _ _ _ _ (fun _ s' => here s')); [|by intros].
      by apply (goes_call little fd outbuff destaddr fuel seq s0 0 None). }
    intros tv s' Hn'. apply ends_pure. split; [done|reflexivity].
  - intros info s' [Hn' Hi]. apply ends_pure. by apply HQ.
Qed.

Lemma signal_spec signo func (Q : Z -> st -> Prop) s :
  here s -> (forall v s', here s' -> Q v s') -> wp (Signal signo func) (goes Q) s.
Proof.
  intros Hn HQ. unfold Signal. eapply (ends_then _ _ _ _ (fun _ s' => here s')).
  - unfold signal. apply (goes_sys little fd outbuff destaddr fuel seq s0 0 None); [done|done|].
    intros r _ Hn1. apply (goes_sys little fd outbuff destaddr fuel seq s0 0 None); [done|done|].
    intros r' _ Hn2. by destruct (_ <? 0).
  - intros x s' Hn'. destruct (x =? SIG_ERR); [|apply ends_pure; auto].
    apply ends_err_sys; [apply at_most_four_output|done|apply Hn'|by eapply now_few_sent].
Qed.
End Calls.

(** C21: [dg_send_recv] is a reliable exchange.  Whatever the network does with the datagrams,
    in a foreground process, on the first call or with an estimator whose timeouts can be
    represented (a fresh one uses 3, 6, 12 and 24 seconds):
    - it sends the request at most four times, to the given address, each time with the same
      new sequence number and the same data;
    - it returns [n >= 0] only for a datagram of [n + 8] bytes whose header carries the
      sequence number of this request: stray datagrams, among them replies to earlier
      requests, are skipped; the [n] bytes behind the header are in [inbuff], within its
      bounds;
    - it returns -1 only after four transmissions went unanswered, with [errno] set to
      [ETIMEDOUT] and the estimator marked for a new start;
    - otherwise it ends the process with an error report and status 1; it needs fuel only for
      stray datagrams. *)
Theorem dg_send_recv_exchange little fuel alrm fd outbuff inbuff inbytes destaddr v s :
  0 <= inbytes < 2 ^ 31 -> inbytes <= Z.of_nat (length inbuff) -> length (recvhdr v) = 8%nat ->
  daemon_proc s = 0 -> (rttinit v = true -> timeouts_ok (rttinfo v) = true) ->
  let seq := u32 (send_seq v + 1) in
  let '(o, s') := dg_send_recv little fuel alrm fd outbuff inbuff inbytes destaddr v s in
  exists evs, trace s' = evs ++ trace s /\
    Forall (fun x => x.1 = Some destaddr /\
              exists ts, x.2 = [bytes32 little seq ++ bytes32 little ts; outbuff])
      (transmissions fd evs) /\
    (length (transmissions fd evs) <= 4)%nat /\
    match o with
    | Val (n, inbuff', v') =>
        send_seq v' = seq /\ length inbuff' = length inbuff /\
        ((exists d, last (deliveries fd (trace s')) = Some d /\ n = Z.of_nat (length d) - 8 /\
            0 <= n <= inbytes /\ recv_seq little (take 8 d) = seq /\
            take (Z.to_nat n) inbuff' = drop 8 d) \/
         (n = -1 /\ length (transmissions fd evs) = 4%nat /\ errno s' = ETIMEDOUT /\ rttinit v' = false))
    | Exited code => code = 1
    | OutOfFuel => (fuel <= length (deliveries fd evs))%nat
    | _ => False
    end.
Proof.
  intros Hroom Hin Hh Hd Hok seq.
  set (Q := exchanged little fd outbuff inbytes destaddr seq s inbuff).
  assert (H : wp (dg_send_recv little fuel alrm fd outbuff inbuff inbytes destaddr v)
                (ends (at_most_four little fd outbuff destaddr seq s) (flooded fd fuel s) Q) s).
  { unfold dg_send_recv. eapply ends_then.
    { eapply (estimator_spec _ _ _ _ _ _ _ v (fun v' s' => now little fd outbuff destaddr seq s 0 None s' /\
        timeouts_ok (rttinfo v') = true /\ send_seq v' = send_seq v /\ length (recvhdr v') = 8%nat));
        try done. constructor; [done|lia| |done]. by exists []. }
    intros v1 s1 (Hn1 & Hok1 & Hs1 & Hh1). rewrite Hs1. fold seq.
    eapply ends_then; [by eapply (signal_spec _ _ _ _ _ _ _ _ _ (fun _ s' => now little fd outbuff destaddr seq s 0 None s'))|].
    intros sf s2 Hn2. apply (send_again_spec little fd outbuff inbytes destaddr fuel seq s Hroom 4); try done; [lia|].
    apply startable_ok. by destruct v1 as [[] ? ? ? ? ?]. }
  unfold wp in H. destruct (dg_send_recv _ _ _ _ _ _ _ _ _ s) as [o s'].
  destruct o as [[[n inbuff'] v']|code| | |].
  - destruct H as (Hs & Hl & _ & [(d & Hla & Hn & Hle & Hr & Ht & (k & Hk & evs & He & Hf & Hc))|(Hn & (evs & He & Hf & Hc) & Herr & Hri)]);
      exists evs; split_and!; try done; [lia|by left; exists d|lia|by right].
  - destruct H as [-> (k & Hk & evs & He & Hf & Hc)]. exists evs. split_and!; try done. lia.
  - done.
  - done.
  - destruct H as [(k & Hk & evs & He & Hf & Hc) (evs' & He' & Hfu)]. exists evs.
    assert (evs' = evs) as -> by (eapply app_inv_tail; by rewrite <- He, <- He'). split_and!; try done. lia.
Qed.
End Claim.

(** * A lossy network *)

(** The first transmission brings a reply to another request and then nothing; the second one
    is answered. *)
Definition lossy_os : OS := fun h c =>
  match c with
  | sys_recvmsg fd sizes _ _ =>
      let room := Z.to_nat (fold_right Z.add 0 sizes) in
      match length (transmissions fd h), length (deliveries fd h) with
      | 1%nat, O => data (take room (bytes32 true 7 ++ bytes32 true 0 ++ c["stale"]))
      | 1%nat, _ => failed (-1) EINTR
      | _, _ => data (take room (bytes32 true 1 ++ bytes32 true 0 ++ c["pong"]))
      end
  | sys_sendmsg _ _ iov _ _ => ok (iov_bytes iov 0)
  | _ => ok 0
  end.

Lemma lossy_os_recvmsg : @RecvmsgLaw lossy_os.
Proof.
  intros h fd a b Ha Hb. cbv zeta. unfold os_answer, lossy_os. cbn [fold_right].
  assert (H : forall d, rv (data (take (Z.to_nat (a + (b + 0))) d)) <= a + b)
    by (intros d; cbn [rv data]; rewrite length_take; lia).
  destruct (length _) as [|[|n]]; [right; by split| |right; by split].
  destruct (length _); [right; by split|left; by split; [|eexists]].
Qed.

#[local] Existing Instances numeric_strerror lossy_os lossy_os_recvmsg.

(** The statics before the first call. *)
Definition fresh_statics : dg_static :=
  DgStatic (RttInfo (S754_zero false) (S754_zero false) (S754_zero false) (S754_zero false) 0 0)
    false 0 0 0 (replicate 8 0).

Lemma dg_send_recv_exchange_witness :
  let run := dg_send_recv true 10 77 3 c["ping"] (replicate 100 0) 99 (SockIn [0; 7] [127; 0; 0; 1]) fresh_statics init in
  length (transmissions 3 (trace run.2)) = 2%nat /\
  match run with
  | (Val (n, inbuff, v), s') => n = 4 /\ take (Z.to_nat n) inbuff = c["pong"] /\ send_seq v = 1
  | _ => False
  end.
Proof.
  pose proof (dg_send_recv_exchange true 10 77 3 c["ping"] (replicate 100 0) 99 (SockIn [0; 7] [127; 0; 0; 1])
    fresh_statics init ltac:(done) ltac:(done) eq_refl eq_refl ltac:(discriminate)) as H.
  intros run.
  assert (Hv : match run with (Val (n, inbuff, _), _) => (n =? 4) && bool_decide (take 4 inbuff = c["pong"]) | _ => false end = true)
    by (vm_compute; reflexivity).
  split; [vm_compute; reflexivity|]. cbv zeta in H. revert Hv H. unfold run.
  generalize (dg_send_recv true 10 77 3 c["ping"] (replicate 100 0) 99 (SockIn [0; 7] [127; 0; 0; 1]) fresh_statics init).
  intros [[[[n inbuff] v]| | | |] s'] Hv H; try discriminate Hv.
  apply andb_true_iff in Hv as [->%Z.eqb_eq Hb%bool_decide_eq_true].
  destruct H as (evs & _ & _ & _ & Hs & _). split_and!; [reflexivity|exact Hb|exact Hs].
Defined.
