(* ===== verification/ThreadPool.v ===== *)
(** The prethreaded server: [server/serv08.c], [server/pthread08.c], [server/pthread08.h].

    The main thread accepts the connections and puts them into the ring [clifd]; the threads of
    the pool take them out and serve them.  The ring is protected by the mutex [clifd_mutex];
    a thread that finds it empty sleeps on the condition variable [clifd_cond].

    A move is one statement of one thread, so that all interleavings are executions.  The calls
    of the threads library are moves too: [pthread_mutex_lock] is possible only when the mutex is
    free, [pthread_cond_wait] releases the mutex and sleeps in one move, [pthread_cond_signal]
    wakes one of the sleeping threads if there is one, and a sleeping thread may also wake up
    without a signal; a thread that wakes up has to get the mutex again.  [web_child] touches
    nothing that the threads share and is one move.  Any wrapper, and [web_child], may report an
    error and end the process. *)

From S2P Require Import Prelude.

Definition MAXNCLI : nat := 32.

(** * The shared variables *)

(** Who holds [clifd_mutex]. *)
Inductive tid : Type := MainThread | Worker (i : nat).

#[export] Instance tid_eq_dec : EqDecision tid.
Proof. solve_decision. Defined.

Record pool : Type := Pool {
  clifd : list Z;
  iget : nat;                 (* next one for a thread to take *)
  iput : nat;                 (* next one for main to store into *)
  thread_count : list Z;      (* tptr[i].thread_count: # connections handled *)
  clifd_mutex : option tid;
}.

(** [if (++i == MAXNCLI) i = 0;] *)
Definition next_index (i : nat) : nat := if (S i =? MAXNCLI)%nat then 0%nat else S i.

Definition set_mutex (m : option tid) (p : pool) : pool :=
  Pool (clifd p) (iget p) (iput p) (thread_count p) m.

(** * Where the threads are *)

Inductive main_pc : Type :=
| MCreate                     (* in the loop that creates the threads, or before Signal *)
| MAccept
| MLock (connfd : Z)
| MStore (connfd : Z)         (* before clifd[iput] = connfd *)
| MAdvance                    (* before ++iput *)
| MTest                       (* before if (iput == iget) *)
| MSignal
| MUnlock.

Inductive worker_pc : Type :=
| WStart                      (* before printf *)
| WLock
| WTest                       (* before while (iget == iput) *)
| WAsleep                     (* in Pthread_cond_wait *)
| WWoken                      (* in Pthread_cond_wait, waiting for the mutex *)
| WTake                       (* before connfd = clifd[iget] *)
| WAdvance (connfd : Z)       (* before ++iget *)
| WUnlock (connfd : Z)
| WCount (connfd : Z)         (* before thread_count++ *)
| WServe (connfd : Z)         (* before web_child *)
| WClose (connfd : Z).

#[export] Instance worker_pc_eq_dec : EqDecision worker_pc.
Proof. solve_decision. Defined.

(** What has happened: connections accepted, taken from the ring by a thread, served, closed. *)
Inductive pool_event : Type :=
| Accepted (connfd : Z)
| Taken (i : nat) (connfd : Z)
| Served (i : nat) (connfd : Z)
| Closed (i : nat) (connfd : Z).

Record config : Type := Config {
  main_at : main_pc;
  workers : list worker_pc;   (* the threads that have been created *)
  shared : pool;
  log : list pool_event;      (* oldest first *)
  ended : bool;               (* the process has ended *)
}.

Section ThreadPool.
Context (nthreads : nat).

(** After [Tcp_listen] and [Calloc]: no thread, an empty ring. *)
Definition start : config :=
  Config MCreate [] (Pool (replicate MAXNCLI 0) 0 0 (replicate nthreads 0) None) [] false.

(** * The moves *)

Inductive move : Type :=
| Main                        (* the next statement of main *)
| Accept_conn (connfd : Z)    (* Accept returns connfd *)
| Wake (i : option nat)       (* pthread_cond_signal wakes thread i, or there is none to wake *)
| Thread (i : nat)            (* the next statement of thread i *)
| Spurious (i : nat)          (* thread i wakes up without a signal *)
| Quit.                       (* an error report ends the process *)

Definition set_main (m : main_pc) (c : config) : config :=
  Config m (workers c) (shared c) (log c) (ended c).
Definition set_worker (i : nat) (w : worker_pc) (c : config) : config :=
  Config (main_at c) (<[i := w]> (workers c)) (shared c) (log c) (ended c).
Definition set_shared (p : pool) (c : config) : config :=
  Config (main_at c) (workers c) p (log c) (ended c).
Definition record (e : pool_event) (c : config) : config :=
  Config (main_at c) (workers c) (shared c) (log c ++ [e]) (ended c).
Definition end_process (c : config) : config :=
  Config (main_at c) (workers c) (shared c) (log c) true.

(** [Pthread_mutex_lock]: possible when the mutex is free. *)
Definition lock (t : tid) (c : config) : option config :=
  match clifd_mutex (shared c) with
  | None => Some (set_shared (set_mutex (Some t) (shared c)) c)
  | Some _ => None
  end.
Definition unlock (c : config) : config := set_shared (set_mutex None (shared c)) c.

(** The statements of [main] that are the same whatever the others do. *)
Definition main_move (c : config) : option config :=
  let p := shared c in
  match main_at c with
  | MCreate =>
      if (length (workers c) <? nthreads)%nat                   (* thread_make *)
      then Some (Config MCreate (workers c ++ [WStart]) p (log c) (ended c))
      else Some (set_main MAccept c)                            (* Signal *)
  | MLock connfd => set_main (MStore connfd) <$> lock MainThread c
  | MStore connfd =>
      clifd' ← store (clifd p) (iput p) connfd;
      Some (set_main MAdvance (set_shared (Pool clifd' (iget p) (iput p) (thread_count p) (clifd_mutex p)) c))
  | MAdvance =>
      Some (set_main MTest (set_shared
        (Pool (clifd p) (iget p) (next_index (iput p)) (thread_count p) (clifd_mutex p)) c))
  | MTest => if (iput p =? iget p)%nat then Some (end_process c) else Some (set_main MSignal c)
  | MUnlock => Some (set_main MAccept (unlock c))
  | MAccept | MSignal => None
  end.

Definition wake_move (i : option nat) (c : config) : option config :=
  match main_at c, i with
  | MSignal, Some i =>
      match workers c !! i with
      | Some WAsleep => Some (set_main MUnlock (set_worker i WWoken c))
      | _ => None
      end
  | MSignal, None => if decide (WAsleep ∈ workers c) then None else Some (set_main MUnlock c)
  | _, _ => None
  end.

(** A statement of [thread_main]. *)
Definition thread_move (i : nat) (c : config) : option config :=
  let p := shared c in
  w ← workers c !! i;
  match w with
  | WStart => Some (set_worker i WLock c)
  | WLock | WWoken => set_worker i WTest <$> lock (Worker i) c
  | WTest =>
      if (iget p =? iput p)%nat then Some (set_worker i WAsleep (unlock c))
      else Some (set_worker i WTake c)
  | WAsleep => None
  | WTake => connfd ← clifd p !! iget p; Some (set_worker i (WAdvance connfd) (record (Taken i connfd) c))
  | WAdvance connfd =>
      Some (set_worker i (WUnlock connfd) (set_shared
        (Pool (clifd p) (next_index (iget p)) (iput p) (thread_count p) (clifd_mutex p)) c))
  | WUnlock connfd => Some (set_worker i (WCount connfd) (unlock c))
  | WCount connfd =>
      n ← thread_count p !! i; counts ← store (thread_count p) i (n + 1);
      Some (set_worker i (WServe connfd) (set_shared
        (Pool (clifd p) (iget p) (iput p) counts (clifd_mutex p)) c))
  | WServe connfd => Some (set_worker i (WClose connfd) (record (Served i connfd) c))
  | WClose connfd => Some (set_worker i WLock (record (Closed i connfd) c))
  end.

Definition fire (m : move) (c : config) : option config :=
  if ended c then None
  else
    match m with
    | Main => main_move c
    | Accept_conn connfd =>
        match main_at c with MAccept => Some (set_main (MLock connfd) (record (Accepted connfd) c)) | _ => None end
    | Wake i => wake_move i c
    | Thread i => thread_move i c
    | Spurious i => match workers c !! i with Some WAsleep => Some (set_worker i WWoken c) | _ => None end
    | Quit => Some (end_process c)
    end.

Inductive step (c c' : config) : Prop := Step m : fire m c = Some c' -> step c c'.

Inductive reachable : config -> Prop :=
| reach_start : reachable start
| reach_step c c' : reachable c -> step c c' -> reachable c'.

(** A schedule. *)
Definition run_moves (ms : list move) (c : config) : option config := foldl (fun c m => c ≫= fire m) (Some c) ms.

End ThreadPool.
