(* ===== verification/ThreadPoolFacts.v ===== *)
(** Invariants of the thread pool: mutual exclusion, the ring as a queue, what each thread has in
    hand, and that no wake-up is lost. *)

From S2P Require Import Prelude Ring ThreadPool.

(** * Lists of connections in a log *)

Definition conns (f : pool_event -> option Z) (l : list pool_event) : list Z := omap f l.

Definition accepted : list pool_event -> list Z :=
  conns (fun e => match e with Accepted fd => Some fd | _ => None end).
Definition taken : list pool_event -> list Z :=
  conns (fun e => match e with Taken _ fd => Some fd | _ => None end).
Definition taken_by (i : nat) : list pool_event -> list Z :=
  conns (fun e => match e with Taken j fd => if decide (i = j) then Some fd else None | _ => None end).
Definition served_by (i : nat) : list pool_event -> list Z :=
  conns (fun e => match e with Served j fd => if decide (i = j) then Some fd else None | _ => None end).
Definition closed_by (i : nat) : list pool_event -> list Z :=
  conns (fun e => match e with Closed j fd => if decide (i = j) then Some fd else None | _ => None end).

Lemma conns_snoc f l e : conns f (l ++ [e]) = conns f l ++ match f e with Some fd => [fd] | None => [] end.
Proof. unfold conns. rewrite omap_app. cbn. by destruct (f e). Qed.

(** * Mutual exclusion *)

(** The statements that are executed with the mutex. *)
Definition main_holds (m : main_pc) : bool :=
  match m with MStore _ | MAdvance | MTest | MSignal | MUnlock => true | _ => false end.
Definition worker_holds (w : worker_pc) : bool :=
  match w with WTest | WTake | WAdvance _ | WUnlock _ => true | _ => false end.

(** The mutex is held by the thread, and only by the thread, that executes one of these. *)
Record exclusive (m : main_pc) (ws : list worker_pc) (mx : option tid) : Prop := {
  ex_main : mx = Some MainThread <-> main_holds m = true;
  ex_worker : forall i w, ws !! i = Some w -> (mx = Some (Worker i) <-> worker_holds w = true);
  ex_owner : forall i, mx = Some (Worker i) -> is_Some (ws !! i);
}.

(** * The moves as rules *)

Inductive rule (n : nat) : config -> config -> Prop :=
| r_create ws p l : (length ws < n)%nat ->
    rule n (Config MCreate ws p l false) (Config MCreate (ws ++ [WStart]) p l false)
| r_created ws p l : (n <= length ws)%nat ->
    rule n (Config MCreate ws p l false) (Config MAccept ws p l false)
| r_accept fd ws p l :
    rule n (Config MAccept ws p l false) (Config (MLock fd) ws p (l ++ [Accepted fd]) false)
| r_lock fd ws cl g u k l :
    rule n (Config (MLock fd) ws (Pool cl g u k None) l false)
      (Config (MStore fd) ws (Pool cl g u k (Some MainThread)) l false)
| r_store fd ws cl g u k mx l : (u < length cl)%nat ->
    rule n (Config (MStore fd) ws (Pool cl g u k mx) l false)
      (Config MAdvance ws (Pool (<[u := fd]> cl) g u k mx) l false)
| r_advance ws cl g u k mx l :
    rule n (Config MAdvance ws (Pool cl g u k mx) l false)
      (Config MTest ws (Pool cl g (next_index u) k mx) l false)
| r_overflow ws cl g k mx l :
    rule n (Config MTest ws (Pool cl g g k mx) l false) (Config MTest ws (Pool cl g g k mx) l true)
| r_room ws cl g u k mx l : u <> g ->
    rule n (Config MTest ws (Pool cl g u k mx) l false) (Config MSignal ws (Pool cl g u k mx) l false)
| r_wake i ws p l : ws !! i = Some WAsleep ->
    rule n (Config MSignal ws p l false) (Config MUnlock (<[i := WWoken]> ws) p l false)
| r_nobody ws p l : WAsleep ∉ ws ->
    rule n (Config MSignal ws p l false) (Config MUnlock ws p l false)
| r_unlock ws cl g u k mx l :
    rule n (Config MUnlock ws (Pool cl g u k mx) l false) (Config MAccept ws (Pool cl g u k None) l false)
| r_wstart i m ws p l : ws !! i = Some WStart ->
    rule n (Config m ws p l false) (Config m (<[i := WLock]> ws) p l false)
| r_wlock i w m ws cl g u k l : ws !! i = Some w -> w = WLock \/ w = WWoken ->
    rule n (Config m ws (Pool cl g u k None) l false)
      (Config m (<[i := WTest]> ws) (Pool cl g u k (Some (Worker i))) l false)
| r_wsleep i m ws cl g k mx l : ws !! i = Some WTest ->
    rule n (Config m ws (Pool cl g g k mx) l false)
      (Config m (<[i := WAsleep]> ws) (Pool cl g g k None) l false)
| r_wfound i m ws cl g u k mx l : ws !! i = Some WTest -> g <> u ->
    rule n (Config m ws (Pool cl g u k mx) l false) (Config m (<[i := WTake]> ws) (Pool cl g u k mx) l false)
| r_wtake i fd m ws cl g u k mx l : ws !! i = Some WTake -> cl !! g = Some fd ->
    rule n (Config m ws (Pool cl g u k mx) l false)
      (Config m (<[i := WAdvance fd]> ws) (Pool cl g u k mx) (l ++ [Taken i fd]) false)
| r_wadvance i fd m ws cl g u k mx l : ws !! i = Some (WAdvance fd) ->
    rule n (Config m ws (Pool cl g u k mx) l false)
      (Config m (<[i := WUnlock fd]> ws) (Pool cl (next_index g) u k mx) l false)
| r_wunlock i fd m ws cl g u k mx l : ws !! i = Some (WUnlock fd) ->
    rule n (Config m ws (Pool cl g u k mx) l false)
      (Config m (<[i := WCount fd]> ws) (Pool cl g u k None) l false)
| r_wcount i fd x m ws cl g u k mx l : ws !! i = Some (WCount fd) -> k !! i = Some x ->
    rule n (Config m ws (Pool cl g u k mx) l false)
      (Config m (<[i := WServe fd]> ws) (Pool cl g u (<[i := x + 1]> k) mx) l false)
| r_wserve i fd m ws p l : ws !! i = Some (WServe fd) ->
    rule n (Config m ws p l false) (Config m (<[i := WClose fd]> ws) p (l ++ [Served i fd]) false)
| r_wclose i fd m ws p l : ws !! i = Some (WClose fd) ->
    rule n (Config m ws p l false) (Config m (<[i := WLock]> ws) p (l ++ [Closed i fd]) false)
| r_spurious i m ws p l : ws !! i = Some WAsleep ->
    rule n (Config m ws p l false) (Config m (<[i := WWoken]> ws) p l false)
| r_quit m ws p l : rule n (Config m ws p l false) (Config m ws p l true).

Lemma main_rule n mp ws p l c' :
  main_move n (Config mp ws p l false) = Some c' -> rule n (Config mp ws p l false) c'.
Proof.
  destruct p as [cl g u k mx]. unfold main_move, lock, store.
  cbn [main_at workers shared log ended clifd iget iput clifd_mutex].
  destruct mp as [| |fd|fd| | | |]; try discriminate.
  - destruct (Nat.ltb_spec (length ws) n); intros [= <-]; by constructor.
  - destruct mx; intros [= <-]. constructor.
  - case_decide; intros [= <-]. by constructor.
  - intros [= <-]. constructor.
  - destruct (Nat.eqb_spec u g) as [->|]; intros [= <-]; by constructor.
  - intros [= <-]. constructor.
Qed.

Lemma thread_rule n i mp ws p l c' :
  thread_move i (Config mp ws p l false) = Some c' -> rule n (Config mp ws p l false) c'.
Proof.
  destruct p as [cl g u k mx]. unfold thread_move, lock, store.
  cbn [main_at workers shared log ended clifd iget iput clifd_mutex thread_count].
  destruct (ws !! i) as [w|] eqn:Ew; [|discriminate]. cbn [mbind option_bind].
  destruct w as [| | | | | |fd|fd|fd|fd|fd]; try discriminate.
  - intros [= <-]. by constructor.
  - destruct mx; intros [= <-]. eapply r_wlock; eauto.
  - destruct (Nat.eqb_spec g u) as [->|]; intros [= <-]; by constructor.
  - destruct mx; intros [= <-]. eapply r_wlock; eauto.
  - destruct (cl !! g) eqn:Eg; intros [= <-]. by constructor.
  - intros [= <-]. by constructor.
  - intros [= <-]. by constructor.
  - destruct (k !! i) eqn:Ek; cbn [mbind option_bind]; [|discriminate].
    case_decide; intros [= <-]. by constructor.
  - intros [= <-]. by constructor.
  - intros [= <-]. by constructor.
Qed.

Lemma fire_rule n m c c' : fire n m c = Some c' -> rule n c c'.
Proof.
  intros H. destruct c as [mp ws p l []]; [done|]. destruct m as [|fd|o|i|i|]; cbn [fire ended main_at workers] in H.
  - by apply main_rule.
  - destruct mp; try discriminate H. injection H as <-. constructor.
  - unfold wake_move in H. cbn [main_at workers] in H. destruct mp; try discriminate H.
    destruct o as [i|]; [|case_decide; [discriminate H|]; injection H as <-; by constructor].
    destruct (ws !! i) as [[]|] eqn:Ei; try discriminate H. injection H as <-. by constructor.
  - by eapply thread_rule.
  - destruct (ws !! i) as [[]|] eqn:Ei; try discriminate H. injection H as <-. by constructor.
  - injection H as <-. constructor.
Qed.

(** An invariant of the rules holds in every reachable configuration. *)
Lemma reachable_inv n (I : config -> Prop) :
  I (start n) -> (forall c c', I c -> rule n c c' -> I c') -> forall c, reachable n c -> I c.
Proof. intros H0 Hs c. induction 1 as [|c c' _ IH [m H]]; [done|]. eapply Hs; eauto using fire_rule. Qed.

(** The place of another thread. *)
Lemma lookup_workers_insert (ws : list worker_pc) i j w w' :
  <[i := w]> ws !! j = Some w' ->
  (i = j /\ w' = w) \/ (i <> j /\ ws !! j = Some w').
Proof. intros [(-> & -> & _)|[? ?]]%list_lookup_insert_Some; auto. Qed.

(** What a move of thread [i] may do to the mutex. *)
Lemma exclusive_thread m ws mx i w w' mx' :
  exclusive m ws mx -> ws !! i = Some w ->
  (mx' = mx /\ worker_holds w' = worker_holds w) \/
  (mx = None /\ mx' = Some (Worker i) /\ worker_holds w' = true) \/
  (worker_holds w = true /\ mx' = None /\ worker_holds w' = false) ->
  exclusive m (<[i := w']> ws) mx'.
Proof.
  intros [Hm Hw Ho] Hi Hcase.
  assert (Hlt : (i < length ws)%nat) by by eapply lookup_lt_Some.
  pose proof (Hw i w Hi) as Hwi.
  assert (Hrest : forall j v, i <> j -> ws !! j = Some v -> mx' = Some (Worker j) <-> worker_holds v = true).
  { intros j v Hj Hv. specialize (Hw j v Hv).
    destruct Hcase as [(-> & _)|[(-> & -> & _)|(Hh & -> & _)]]; [done|..].
    - split; [congruence|]. intros ?. by apply Hw in H.
    - apply Hwi in Hh. subst mx. split; [done|]. intros ?%Hw. congruence. }
  constructor.
  - destruct Hcase as [(-> & _)|[(-> & -> & _)|(Hh & -> & _)]]; [done|..].
    + split; [done|]. intros ?%Hm. congruence.
    + apply Hwi in Hh. subst mx. split; [done|]. intros ?%Hm. congruence.
  - intros j v [[<- ->]|[Hj Hv]]%lookup_workers_insert; [|by apply Hrest].
    destruct Hcase as [(-> & ->)|[(-> & -> & ->)|(Hh & -> & ->)]]; done.
  - intros j Hj. apply lookup_lt_is_Some. rewrite length_insert.
    destruct Hcase as [(-> & _)|[(-> & -> & _)|(Hh & -> & _)]]; [by apply lookup_lt_is_Some, Ho|congruence..].
Qed.

Lemma exclusive_main m ws mx m' mx' :
  exclusive m ws mx ->
  (mx' = mx /\ main_holds m' = main_holds m) \/
  (mx = None /\ mx' = Some MainThread /\ main_holds m' = true) \/
  (main_holds m = true /\ mx' = None /\ main_holds m' = false) ->
  exclusive m' ws mx'.
Proof.
  intros [Hm Hw Ho] [(-> & He)|[(-> & -> & He)|(Hh & -> & He)]]; constructor; rewrite ?He; try done.
  - intros i w Hi. specialize (Hw i w Hi). split; [congruence|]. intros ?%Hw. congruence.
  - apply Hm in Hh. subst mx. intros i w Hi. specialize (Hw i w Hi). split; [done|]. intros ?%Hw. congruence.
Qed.

Definition excl (c : config) : Prop := exclusive (main_at c) (workers c) (clifd_mutex (shared c)).

Lemma excl_start n : excl (start n).
Proof. split; cbn; [done|by intros|done]. Qed.

Lemma excl_rule n c c' : excl c -> rule n c c' -> excl c'.
Proof.
  unfold excl. intros He Hr. destruct Hr; cbn [main_at workers shared clifd_mutex] in *; try done;
    try (eapply exclusive_main; [exact He|]; cbn; by tauto);
    try (eapply exclusive_thread; [exact He|eassumption|]; cbn; by tauto).
  - destruct He as [Hm Hw Ho]. constructor; [done|..].
    + intros i w [Hi|[Hi Hx]]%lookup_app_Some; [by apply Hw|].
      apply list_lookup_singleton_Some in Hx as [_ <-]. cbn. split; [|done].
      intros Hx%Ho%lookup_lt_is_Some. lia.
    + intros i [w Hi]%Ho. exists w. by apply lookup_app_l_Some.
  - eapply (exclusive_main MSignal); [|by left]. eapply exclusive_thread; [exact He|eassumption|]; cbn; by tauto.
Qed.

(** * The ring is a queue *)

(** A thread has taken the first entry but not yet advanced [iget]. *)
Definition advancing (ws : list worker_pc) (mx : option tid) : bool :=
  match mx with
  | Some (Worker i) => match ws !! i with Some (WAdvance _) => true | _ => false end
  | _ => false
  end.

(** The connection that main has accepted but not yet counted as stored. *)
Definition main_hand (m : main_pc) (p : pool) : list Z :=
  match m with
  | MLock fd | MStore fd => [fd]
  | MAdvance => match clifd p !! iput p with Some fd => [fd] | None => [] end
  | _ => []
  end.

Definition in_ring (ws : list worker_pc) (p : pool) (n : nat) : list Z :=
  let w := window MAXNCLI (clifd p) (iget p) n in
  if advancing ws (clifd_mutex p) then tail w else w.

(** [n] entries of the ring are in use; the connections accepted are those taken followed by
    those in the ring and the one in the hand of main. *)
Record queue_ok (m : main_pc) (ws : list worker_pc) (p : pool) (l : list pool_event) (n : nat) : Prop := {
  q_len : length (clifd p) = MAXNCLI;
  q_get : (iget p < MAXNCLI)%nat;
  q_put : iput p = ((iget p + n) mod MAXNCLI)%nat;
  q_room : (n < MAXNCLI)%nat \/ (n = MAXNCLI /\ m = MTest);
  q_main : m = MTest -> (0 < n)%nat;
  q_take : forall i w, ws !! i = Some w ->
    match w with WTake | WAdvance _ => True | _ => False end -> (0 < n)%nat;
  q_order : accepted l = taken l ++ in_ring ws p n ++ main_hand m p;
}.

Lemma maxncli_pos : (0 < MAXNCLI)%nat.
Proof. unfold MAXNCLI. lia. Qed.

Lemma pool_next_index_mod i : (i < MAXNCLI)%nat -> next_index i = (S i mod MAXNCLI)%nat.
Proof. intros Hi. unfold next_index. by apply (wrap_index MAXNCLI maxncli_pos). Qed.

(** The ring is empty or full exactly when [iget] and [iput] agree. *)
Lemma put_is_get i n :
  (i < MAXNCLI)%nat -> (n <= MAXNCLI)%nat ->
  ((i + n) mod MAXNCLI = i <-> n = 0 \/ n = MAXNCLI)%nat.
Proof.
  intros Hi Hn. destruct (Nat.lt_ge_cases (i + n) MAXNCLI).
  - rewrite Nat.mod_small by done. lia.
  - replace (i + n)%nat with (i + n - MAXNCLI + 1 * MAXNCLI)%nat by lia.
    rewrite Nat.Div0.mod_add, Nat.mod_small by lia. lia.
Qed.

Lemma advancing_other m ws mx i w w' :
  exclusive m ws mx -> ws !! i = Some w -> worker_holds w = false ->
  advancing (<[i := w']> ws) mx = advancing ws mx.
Proof.
  intros [_ Hw _] Hi Hh. unfold advancing. destruct mx as [[|j]|]; [done| |done].
  destruct (decide (i = j)) as [<-|Hj]; [|by rewrite list_lookup_insert_ne].
  specialize (Hw i w Hi). destruct Hw as [Hw _]. rewrite Hw in Hh; done.
Qed.

Lemma advancing_self ws i w w' :
  ws !! i = Some w ->
  advancing (<[i := w']> ws) (Some (Worker i)) = match w' with WAdvance _ => true | _ => false end.
Proof.
  intros Hi%lookup_lt_Some. unfold advancing. rewrite list_lookup_insert_eq by done. by destruct w'.
Qed.

(** The holder of the mutex. *)
Lemma holder m ws mx i w : exclusive m ws mx -> ws !! i = Some w -> worker_holds w = true -> mx = Some (Worker i).
Proof. intros [_ Hw _] Hi Hh. by apply (Hw i w Hi). Qed.

Lemma main_holder m ws mx : exclusive m ws mx -> main_holds m = true -> mx = Some MainThread.
Proof. intros [Hm _ _] Hh. by apply Hm. Qed.

Lemma q_take_insert (ws : list worker_pc) i w' n :
  (forall j w, ws !! j = Some w -> match w with WTake | WAdvance _ => True | _ => False end -> (0 < n)%nat) ->
  (match w' with WTake | WAdvance _ => (0 < n)%nat | _ => True end) ->
  forall j w, <[i := w']> ws !! j = Some w ->
    match w with WTake | WAdvance _ => True | _ => False end -> (0 < n)%nat.
Proof.
  intros Ht Hw j w [[_ ->]|[_ Hj]]%lookup_workers_insert; [by destruct w'|by apply (Ht j)].
Qed.

(** ** Moves of main *)

Section MainMoves.
Context (ws : list worker_pc) (cl : list Z) (g u : nat) (k : list Z) (l : list pool_event) (n : nat).
Abbreviation p mx := (Pool cl g u k mx).

Lemma in_ring_main : in_ring ws (p (Some MainThread)) n = window MAXNCLI cl g n.
Proof. done. Qed.

Lemma queue_main m m' mx mx' :
  queue_ok m ws (p mx) l n -> advancing ws mx' = advancing ws mx ->
  m <> MTest -> m' <> MTest -> main_hand m' (p mx') = main_hand m (p mx) ->
  queue_ok m' ws (p mx') l n.
Proof.
  intros [Hl Hg Hp Hr Hm Ht Ho] Ha Hm1 Hm2 Hh. constructor; try done.
  - destruct Hr as [?|[? ?]]; [by left|done].
  - unfold in_ring in *. cbn [clifd iget clifd_mutex] in *. by rewrite Ha, Hh.
Qed.

Lemma queue_accept fd mx :
  queue_ok MAccept ws (p mx) l n -> queue_ok (MLock fd) ws (p mx) (l ++ [Accepted fd]) n.
Proof.
  intros [Hl Hg Hp Hr Hm Ht Ho]. constructor; try done.
  - destruct Hr as [?|[? ?]]; [by left|done].
  - unfold accepted, taken in *. rewrite !conns_snoc, Ho, <- !app_assoc. done.
Qed.

Lemma queue_store fd :
  queue_ok (MStore fd) ws (p (Some MainThread)) l n ->
  queue_ok MAdvance ws (Pool (<[u := fd]> cl) g u k (Some MainThread)) l n.
Proof.
  intros [Hl Hg Hp Hr Hm Ht Ho]. cbn [clifd iget iput] in *.
  assert (Hn : (n < MAXNCLI)%nat) by (destruct Hr as [?|[? ?]]; done).
  constructor; cbn [clifd iget iput]; try done; [by rewrite length_insert|by left|].
  rewrite Ho. unfold in_ring, main_hand. cbn. rewrite Hp.
  rewrite window_store by (apply maxncli_pos || done).
  rewrite list_lookup_insert_eq; [done|]. rewrite Hl. apply Nat.mod_upper_bound. done.
Qed.

Lemma queue_advance :
  queue_ok MAdvance ws (p (Some MainThread)) l n ->
  queue_ok MTest ws (Pool cl g (next_index u) k (Some MainThread)) l (S n).
Proof.
  intros [Hl Hg Hp Hr Hm Ht Ho]. cbn [clifd iget iput] in *.
  assert (Hn : (n < MAXNCLI)%nat) by (destruct Hr as [?|[? ?]]; done).
  constructor; cbn [clifd iget iput]; try done.
  - rewrite pool_next_index_mod, Hp by (rewrite Hp; by apply Nat.mod_upper_bound).
    rewrite <- Nat.add_1_l, Nat.Div0.add_mod_idemp_r. f_equal. lia.
  - destruct (decide (S n = MAXNCLI)); [by right|left; lia].
  - lia.
  - lia.
  - rewrite Ho. unfold in_ring, main_hand. cbn [clifd iget iput clifd_mutex advancing].
    rewrite window_S, app_nil_r. by rewrite <- Hp.
Qed.

Lemma queue_tested mx :
  queue_ok MTest ws (p mx) l n -> u <> g -> queue_ok MSignal ws (p mx) l n.
Proof.
  intros [Hl Hg Hp Hr Hm Ht Ho] Hne. cbn [clifd iget iput] in *. constructor; try done. left.
  destruct Hr as [?|[-> _]]; [done|]. rewrite (proj2 (put_is_get g MAXNCLI Hg ltac:(lia))) in Hp by lia. lia.
Qed.
End MainMoves.

(** ** Moves of the threads *)

Section ThreadMoves.
Context (m : main_pc) (ws : list worker_pc) (i : nat) (w : worker_pc).
Context (cl : list Z) (g u : nat) (k : list Z) (mx : option tid) (l : list pool_event) (n : nat).
Hypothesis Hex : exclusive m ws mx.
Hypothesis Hi : ws !! i = Some w.

(** Outside the critical section, and on the way into and out of it. *)
Lemma queue_thread w' k' mx' l' :
  queue_ok m ws (Pool cl g u k mx) l n ->
  match w' with WTake | WAdvance _ => (0 < n)%nat | _ => True end ->
  advancing (<[i := w']> ws) mx' = advancing ws mx ->
  accepted l' = accepted l -> taken l' = taken l ->
  queue_ok m (<[i := w']> ws) (Pool cl g u k' mx') l' n.
Proof using Type.
  intros [Hl Hg Hp Hr Hm Ht Ho] Hw Ha Hacc Htk. constructor; try done.
  - by apply q_take_insert.
  - unfold in_ring in *. cbn [clifd_mutex iget clifd] in *. by rewrite Ha, Hacc, Htk.
Qed.

Lemma queue_take fd :
  w = WTake -> cl !! g = Some fd -> queue_ok m ws (Pool cl g u k mx) l n ->
  queue_ok m (<[i := WAdvance fd]> ws) (Pool cl g u k mx) (l ++ [Taken i fd]) n.
Proof using Hex Hi.
  intros Hw Hfd [Hl Hg Hp Hr Hm Ht Ho]. cbn [clifd iget iput] in *.
  assert (Hn : (0 < n)%nat) by (eapply Ht; [exact Hi|by rewrite Hw]).
  assert (Hmx : mx = Some (Worker i)) by (eapply holder; [exact Hex|exact Hi|by rewrite Hw]).
  constructor; cbn [clifd iget iput]; try done.
  unfold accepted, taken in *. rewrite !conns_snoc, app_nil_r, Ho, <- !app_assoc. f_equal.
  unfold in_ring. cbn [clifd_mutex clifd iget]. rewrite Hmx, (advancing_self _ _ _ _ Hi).
  unfold advancing. rewrite Hi, Hw. destruct n as [|n']; [lia|].
  by rewrite (window_pop MAXNCLI maxncli_pos cl g n' fd).
Qed.

Lemma queue_advanced fd :
  w = WAdvance fd -> queue_ok m ws (Pool cl g u k mx) l n ->
  queue_ok m (<[i := WUnlock fd]> ws) (Pool cl (next_index g) u k mx) l (n - 1) /\ (0 < n)%nat.
Proof using Hex Hi.
  intros Hw [Hl Hg Hp Hr Hm Ht Ho]. cbn [clifd iget iput] in *.
  assert (Hn : (0 < n)%nat) by (eapply Ht; [exact Hi|by rewrite Hw]). split; [|done].
  assert (Hmx : mx = Some (Worker i)) by (eapply holder; [exact Hex|exact Hi|by rewrite Hw]).
  assert (Hmm : main_holds m = false).
  { destruct Hex as [Hx _ _]. destruct (main_holds m); [|done]. rewrite Hmx in Hx. by destruct Hx as [_ Hx]; specialize (Hx eq_refl). }
  destruct n as [|n']; [lia|]. cbn [Nat.sub]. rewrite Nat.sub_0_r.
  assert (Hgx : (g < length cl)%nat) by (rewrite Hl; done).
  destruct (lookup_lt_is_Some_2 cl g Hgx) as [fd' Hfd'].
  constructor; cbn [clifd iget iput]; try done.
  - rewrite pool_next_index_mod by done. by apply Nat.mod_upper_bound.
  - rewrite Hp, pool_next_index_mod, Nat.Div0.add_mod_idemp_l by done. f_equal. lia.
  - destruct Hr as [?|[? ->]]; [left; lia|done].
  - intros ->. done.
  - intros j v [[<- ->]|[Hj Hv]]%lookup_workers_insert Hcase; [done|].
    assert (worker_holds v = true) as Hh by (by destruct v).
    pose proof (holder _ _ _ _ _ Hex Hv Hh). congruence.
  - rewrite Ho. f_equal. unfold in_ring, main_hand in *. cbn [clifd_mutex clifd iget iput].
    rewrite Hmx, (advancing_self _ _ _ _ Hi). unfold advancing. rewrite Hi, Hw.
    rewrite (window_pop MAXNCLI maxncli_pos cl g n' fd') by done. cbn [tail].
    by rewrite pool_next_index_mod.
Qed.
End ThreadMoves.

(** * No lost wake-up *)

Definition awake (ws : list worker_pc) : nat := length (filter (fun w => w <> WAsleep) ws).

(** Main has stored a connection and has not yet called [pthread_cond_signal]. *)
Definition to_signal (m : main_pc) : nat := match m with MTest | MSignal => 1 | _ => 0 end.

(** While a thread sleeps, there are as many threads awake as connections in the ring. *)
Definition wake_ok (m : main_pc) (ws : list worker_pc) (n : nat) : Prop :=
  WAsleep ∈ ws -> (n <= awake ws + to_signal m)%nat.

Lemma awake_insert ws i w w' :
  ws !! i = Some w ->
  (awake (<[i := w']> ws) + (if decide (w = WAsleep) then 0 else 1) =
   awake ws + (if decide (w' = WAsleep) then 0 else 1))%nat.
Proof.
  intros Hi. pose proof (lookup_lt_Some _ _ _ Hi) as Hlt. unfold awake.
  rewrite insert_take_drop by done. rewrite <- (take_drop_middle ws i w Hi) at 3.
  rewrite !filter_app, !length_app, !filter_cons.
  repeat case_decide; cbn [length]; try lia; done.
Qed.

Lemma asleep_insert (ws : list worker_pc) i w w' :
  ws !! i = Some w -> w' <> WAsleep -> WAsleep ∈ <[i := w']> ws -> WAsleep ∈ ws.
Proof.
  intros Hi Hw [j Hj]%list_elem_of_lookup. apply lookup_workers_insert in Hj as [[_ Hj]|[_ Hj]]; [congruence|].
  by eapply list_elem_of_lookup_2.
Qed.

(** A thread that is awake stays awake. *)
Lemma wake_thread m ws i w w' n :
  wake_ok m ws n -> ws !! i = Some w -> w' <> WAsleep -> wake_ok m (<[i := w']> ws) n.
Proof.
  intros Hk Hi Hw' Hs. specialize (Hk (asleep_insert _ _ _ _ Hi Hw' Hs)).
  pose proof (awake_insert ws i w w' Hi). repeat case_decide; try done; lia.
Qed.

(** * The invariant of the pool *)

Definition pool_ok (c : config) : Prop :=
  excl c /\ exists n, queue_ok (main_at c) (workers c) (shared c) (log c) n /\
    wake_ok (main_at c) (workers c) n.

Lemma pool_ok_start nt : pool_ok (start nt).
Proof.
  split; [apply excl_start|]. exists 0%nat. split; [|by intros ?%not_elem_of_nil].
  constructor; cbn; try done; unfold MAXNCLI; try lia.
Qed.

Lemma queue_ok_create ws p l n : queue_ok MCreate ws p l n -> exclusive MCreate ws (clifd_mutex p) ->
  queue_ok MCreate (ws ++ [WStart]) p l n.
Proof.
  intros [Hl Hg Hp Hr Hm Ht Ho] [_ _ Hown]. constructor; try done.
  - intros i w [Hi|[_ [_ <-]%list_lookup_singleton_Some]]%lookup_app_Some; [by eapply Ht|done].
  - assert (Ha : advancing (ws ++ [WStart]) (clifd_mutex p) = advancing ws (clifd_mutex p)).
    { unfold advancing. destruct (clifd_mutex p) as [[|i]|]; try done. rewrite lookup_app_l; [done|].
      by apply lookup_lt_is_Some, Hown. }
    unfold in_ring in *. by rewrite Ha.
Qed.

Lemma pool_ok_rule nt c c' : pool_ok c -> rule nt c c' -> pool_ok c'.
Proof.
  intros [Hex (n & Hq & Hk)] Hr. split; [by eapply excl_rule|].
  unfold excl in Hex.
  destruct Hr; cbn [main_at workers shared log clifd_mutex] in *;
    try (exists n; split; [done|done]).
  - exists n. split; [by apply queue_ok_create|]. intros [Hs|Hs%list_elem_of_singleton]%elem_of_app; [|done].
    specialize (Hk Hs). unfold awake in *. rewrite filter_app, length_app. lia.
  - exists n. split; [|done]. destruct p. by eapply queue_main.
  - exists n. split; [destruct p; by apply queue_accept|done].
  - exists n. split; [|done]. by eapply queue_main.
  - exists n. pose proof (main_holder _ _ _ Hex eq_refl) as ->. split; [by apply queue_store|done].
  - exists (S n). pose proof (main_holder _ _ _ Hex eq_refl) as ->. split; [by apply queue_advance|].
    intros Hs. specialize (Hk Hs). cbn in *. lia.
  - exists n. split; [by apply queue_tested|done].
  - exists n. pose proof (main_holder _ _ _ Hex eq_refl) as Hmx. split.
    + destruct p. cbn in Hmx. subst. eapply (queue_main _ _ _ _ _ _ _ MSignal); [|done..]. by eapply queue_thread.
    + intros Hs. specialize (Hk (asleep_insert _ _ _ WWoken H ltac:(done) Hs)).
      pose proof (awake_insert ws i _ WWoken H) as Ha. rewrite decide_True, decide_False in Ha by done. cbn in *. lia.
  - exists n. split; [destruct p; by eapply queue_main|by intros ?].
  - exists n. pose proof (main_holder _ _ _ Hex eq_refl) as ->. split; [by eapply queue_main|done].
  - exists n. split; [destruct p; eapply queue_thread; try done; by eapply advancing_other|by eapply wake_thread].
  - exists n. split; [|by eapply wake_thread].
    eapply queue_thread; try done. rewrite (advancing_self _ _ _ _ H). done.
  - exists n. pose proof (holder _ _ _ _ _ Hex H eq_refl) as ->. split.
    + eapply queue_thread; try done. unfold advancing. by rewrite H.
    + intros _. destruct Hq as [_ Hg Hp Hr _ _ _]. cbn in Hg, Hp. symmetry in Hp.
      assert (m <> MTest) as Hm by (intros ->; by destruct Hex as [[_ Hx] _ _]; specialize (Hx eq_refl)).
      apply put_is_get in Hp; [|done|]; destruct Hr as [?|[? ?]]; try done; lia.
  - exists n. pose proof (holder _ _ _ _ _ Hex H eq_refl) as ->. split; [|by eapply wake_thread].
    eapply queue_thread; try done.
    + destruct Hq as [_ Hg Hp _ _ _ _]. cbn [iget iput] in Hg, Hp. destruct n; [|lia].
      rewrite Nat.add_0_r, Nat.mod_small in Hp by done. lia.
    + rewrite (advancing_self _ _ _ _ H). unfold advancing. by rewrite H.
  - exists n. split; [by eapply queue_take|by eapply wake_thread].
  - destruct (queue_advanced _ _ _ _ _ _ _ _ _ _ _ Hex H fd eq_refl Hq) as [Hq' Hn]. exists (n - 1)%nat.
    split; [done|]. eapply wake_thread; [|done|done]. intros Hs. specialize (Hk Hs). lia.
  - exists n. pose proof (holder _ _ _ _ _ Hex H eq_refl) as ->. split; [|by eapply wake_thread].
    eapply queue_thread; try done. unfold advancing. by rewrite H.
  - exists n. split; [eapply queue_thread; try done; by eapply advancing_other|by eapply wake_thread].
  - exists n. split; [destruct p; eapply queue_thread; try done; [by eapply advancing_other|..];
      unfold accepted, taken; by rewrite conns_snoc, app_nil_r|by eapply wake_thread].
  - exists n. split; [destruct p; eapply queue_thread; try done; [by eapply advancing_other|..];
      unfold accepted, taken; by rewrite conns_snoc, app_nil_r|by eapply wake_thread].
  - exists n. split; [destruct p; eapply queue_thread; try done; by eapply advancing_other|by eapply wake_thread].
Qed.

(** * What each thread has done *)

(** Taken and not yet served, served and not yet closed, taken and not yet counted. *)
Definition unserved (w : worker_pc) : list Z :=
  match w with WAdvance fd | WUnlock fd | WCount fd | WServe fd => [fd] | _ => [] end.
Definition unclosed (w : worker_pc) : list Z := match w with WClose fd => [fd] | _ => [] end.
Definition uncounted (w : worker_pc) : Z := match w with WAdvance _ | WUnlock _ | WCount _ => 1 | _ => 0 end.

(** The account of thread [i]; a thread that has not been created is about to start. *)
Definition account (ws : list worker_pc) (counts : list Z) (l : list pool_event) (i : nat) : Prop :=
  let w := default WStart (ws !! i) in
  taken_by i l = served_by i l ++ unserved w /\
  served_by i l = closed_by i l ++ unclosed w /\
  ((i < length counts)%nat -> counts !! i = Some (Z.of_nat (length (taken_by i l)) - uncounted w)).

Record accounts (nt : nat) (c : config) : Prop := {
  ac_most : (length (workers c) <= nt)%nat;
  ac_all : main_at c <> MCreate -> length (workers c) = nt;
  ac_counts : length (thread_count (shared c)) = nt;
  ac_each : forall i, account (workers c) (thread_count (shared c)) (log c) i;
}.

(** The events of the other threads do not change an account. *)
Definition event_of (e : pool_event) : option nat :=
  match e with Accepted _ => None | Taken i _ | Served i _ | Closed i _ => Some i end.

Lemma by_other i l e : event_of e <> Some i ->
  taken_by i (l ++ [e]) = taken_by i l /\ served_by i (l ++ [e]) = served_by i l /\
  closed_by i (l ++ [e]) = closed_by i l.
Proof.
  intros He. unfold taken_by, served_by, closed_by. rewrite !conns_snoc.
  destruct e; cbn in He; try rewrite decide_False by congruence; by rewrite !app_nil_r.
Qed.

(** A move of thread [i] from [w] to [w']: it is enough to look at its own account. *)
Lemma accounts_thread nt m m' ws p p' l l' e e' i w w' :
  accounts nt (Config m ws p l e) -> ws !! i = Some w -> (m <> MCreate <-> m' <> MCreate) ->
  length (thread_count p') = length (thread_count p) ->
  (forall j, i <> j -> thread_count p' !! j = thread_count p !! j) ->
  (l' = l \/ exists ev, l' = l ++ [ev] /\ event_of ev = Some i) ->
  (account ws (thread_count p) l i -> account (<[i := w']> ws) (thread_count p') l' i) ->
  accounts nt (Config m' (<[i := w']> ws) p' l' e').
Proof.
  intros [Hm Ha Hc He] Hi Hmm Hlen Hj Hl Hself. cbn [main_at workers shared log] in *.
  constructor; cbn [main_at workers shared log]; rewrite ?length_insert; [done| |congruence|].
  - intros Hx. apply Ha. by apply Hmm.
  - intros j. destruct (decide (i = j)) as [<-|Hne]; [by apply Hself|]. specialize (He j).
    unfold account in *. rewrite list_lookup_insert_ne, Hlen, Hj by done.
    destruct Hl as [->|(ev & -> & Hev)]; [done|].
    destruct (by_other j l ev) as (-> & -> & ->); [congruence|done].
Qed.

(** Nothing is taken, served, closed or counted. *)
Lemma account_same ws counts l i w w' :
  ws !! i = Some w -> unserved w' = unserved w -> unclosed w' = unclosed w -> uncounted w' = uncounted w ->
  account ws counts l i -> account (<[i := w']> ws) counts l i.
Proof.
  intros Hi E1 E2 E3. unfold account. rewrite list_lookup_insert_eq by by eapply lookup_lt_Some.
  rewrite Hi. cbn [default from_option id]. by rewrite E1, E2, E3.
Qed.

Lemma accounts_start nt : accounts nt (start nt).
Proof.
  constructor; cbn [start main_at workers shared log thread_count length]; [lia|done|by rewrite length_replicate|].
  intros i. unfold account. cbn. split_and!; try done. rewrite length_replicate.
  intros Hi. by apply lookup_replicate_2.
Qed.

Lemma accounts_main nt m m' ws p p' l l' e e' :
  accounts nt (Config m ws p l e) -> m <> MCreate \/ (nt <= length ws)%nat ->
  thread_count p' = thread_count p ->
  (l' = l \/ exists fd, l' = l ++ [Accepted fd]) -> accounts nt (Config m' ws p' l' e').
Proof.
  intros [Hm Ha Hc He] Hacc Hk Hl. cbn [main_at workers shared log] in *.
  constructor; cbn [main_at workers shared log]; rewrite ?Hk; try done.
  - intros _. destruct Hacc as [?|?]; [by apply Ha|lia].
  - intros i. destruct Hl as [->|[fd ->]]; [apply He|]. specialize (He i). unfold account in *.
    by destruct (by_other i l (Accepted fd)) as (-> & -> & ->).
Qed.

Lemma account_done ws counts counts' l i w w' ev :
  ws !! i = Some w -> account ws counts l i ->
  (taken_by i l = served_by i l ++ unserved w -> served_by i l = closed_by i l ++ unclosed w ->
   taken_by i (l ++ [ev]) = served_by i (l ++ [ev]) ++ unserved w' /\
   served_by i (l ++ [ev]) = closed_by i (l ++ [ev]) ++ unclosed w' /\
   Z.of_nat (length (taken_by i (l ++ [ev]))) - uncounted w' = Z.of_nat (length (taken_by i l)) - uncounted w) ->
  counts' = counts -> account (<[i := w']> ws) counts' (l ++ [ev]) i.
Proof.
  intros Hi (Ht & Hs & Hc) Hev ->. unfold account.
  rewrite list_lookup_insert_eq by by eapply lookup_lt_Some. rewrite Hi in *. cbn [default from_option id] in *.
  destruct (Hev Ht Hs) as (E1 & E2 & E3). split_and!; [done|done|]. rewrite E3. done.
Qed.

Lemma accounts_rule nt c c' : accounts nt c -> rule nt c c' -> accounts nt c'.
Proof.
  intros Ha Hr.
  destruct Hr;
    try (eapply accounts_main; [exact Ha|by auto|done|by eauto]);
    try (eapply accounts_thread; [exact Ha|eassumption|done|done|done|by left|];
         apply account_same with (1 := H); try done; by destruct H0; subst).
  - destruct Ha as [Hm Ha Hc He]. constructor; cbn [main_at workers shared log] in *; try done.
    { rewrite length_app. cbn. lia. }
    intros i. specialize (He i). unfold account in *. cbn [main_at workers shared log] in *.
    replace (default WStart ((ws ++ [WStart]) !! i)) with (default WStart (ws !! i)); [done|].
    destruct (decide (i < length ws)%nat); [by rewrite lookup_app_l|].
    rewrite lookup_app_r, (lookup_ge_None_2 ws i) by lia. by destruct (i - length ws)%nat as [|[]].
  - eapply accounts_thread; [exact Ha|eassumption|done|done|done|right; by eexists|].
    intros Hacc. eapply account_done; [done|done| |done]. intros Ht Hs.
    unfold taken_by, served_by, closed_by in *. rewrite !conns_snoc, !decide_True, !app_nil_r by done.
    rewrite Ht, app_nil_r, length_app in *. split_and!; try done. cbn. lia.
  - eapply accounts_thread; [exact Ha|eassumption|done|cbn; by rewrite length_insert| |by left|].
    + intros j Hj. cbn. by rewrite list_lookup_insert_ne.
    + unfold account. cbn [thread_count].
      rewrite list_lookup_insert_eq by (by eapply lookup_lt_Some). rewrite H.
      rewrite list_lookup_insert_eq by (by eapply lookup_lt_Some). rewrite length_insert.
      cbn [default from_option id unserved unclosed uncounted]. intros (Ht & Hs & Hc). split_and!; try done.
      intros Hi. specialize (Hc Hi). rewrite H0 in Hc. injection Hc as ->. f_equal. lia.
  - eapply accounts_thread; [exact Ha|eassumption|done|done|done|right; by eexists|].
    intros Hacc. eapply account_done; [done|done| |done]. cbn [unserved unclosed uncounted]. intros Ht Hs.
    unfold taken_by, served_by, closed_by in *. rewrite !conns_snoc, !decide_True, !app_nil_r in * by done.
    rewrite Ht, Hs. by rewrite <- ?app_assoc.
  - eapply accounts_thread; [exact Ha|eassumption|done|done|done|right; by eexists|].
    intros Hacc. eapply account_done; [done|done| |done]. cbn [unserved unclosed uncounted]. intros Ht Hs.
    unfold taken_by, served_by, closed_by in *. rewrite !conns_snoc, !decide_True, !app_nil_r in * by done.
    rewrite Ht, Hs. by rewrite <- ?app_assoc.
  - destruct Ha. by constructor.
Qed.
