(* ===== verification/ThreadPoolClaims.v ===== *)
(** What the prethreaded server guarantees, for every interleaving of its threads. *)

From S2P Require Import Prelude Ring ThreadPool ThreadPoolFacts.

Lemma reachable_pool_ok nt c : reachable nt c -> pool_ok c.
Proof. apply reachable_inv; [apply pool_ok_start|intros ?? Hp; by apply pool_ok_rule]. Qed.

Lemma reachable_accounts nt c : reachable nt c -> accounts nt c.
Proof. apply reachable_inv; [apply accounts_start|intros ?? Hp; by apply accounts_rule]. Qed.

Lemma waiting_length m ws p l n :
  queue_ok m ws p l n -> (length (in_ring ws p n ++ main_hand m p) <= MAXNCLI)%nat.
Proof.
  intros [Hl _ _ Hr _ _ _]. rewrite length_app. unfold in_ring.
  pose proof (window_full MAXNCLI maxncli_pos (clifd p) (iget p) n Hl) as Hw.
  assert (Ht : forall x : list Z, (length (tail x) <= length x)%nat) by (intros []; cbn; lia).
  specialize (Ht (window MAXNCLI (clifd p) (iget p) n)).
  assert (Hh : (length (main_hand m p) <= match m with MLock _ | MStore _ | MAdvance => 1 | _ => 0 end)%nat)
    by (destruct m; cbn; try lia; destruct (clifd p !! iput p); cbn; lia).
  destruct Hr as [?|[-> ->]]; destruct (advancing _ _); try destruct m; lia.
Qed.

(** C22: the prethreaded server hands every connection to exactly one thread, in the order of
    arrival.  In every configuration that any interleaving reaches:
    - the connections accepted are those the threads have taken followed by at most [MAXNCLI]
      that wait: none is lost, duplicated or reordered, although the ring is shared;
    - at most one thread is between lock and unlock;
    - the ring is only accessed inside its bounds;
    - each thread has served and closed the connections it took, in order, except the one it
      has in hand, and its counter is their number. *)
Theorem pool_hands_out_in_order nt c :
  reachable nt c ->
  (exists waiting, accepted (log c) = taken (log c) ++ waiting /\ (length waiting <= MAXNCLI)%nat) /\
  (forall i w, workers c !! i = Some w -> worker_holds w = true ->
     main_holds (main_at c) = false /\
     forall j v, workers c !! j = Some v -> worker_holds v = true -> j = i) /\
  (length (clifd (shared c)) = MAXNCLI /\ (iget (shared c) < MAXNCLI)%nat /\ (iput (shared c) < MAXNCLI)%nat) /\
  (forall i w, workers c !! i = Some w ->
     taken_by i (log c) = closed_by i (log c) ++ unclosed w ++ unserved w /\
     thread_count (shared c) !! i = Some (Z.of_nat (length (taken_by i (log c))) - uncounted w)).
Proof.
  intros Hr. destruct (reachable_pool_ok nt c Hr) as [Hex (n & Hq & _)].
  destruct (reachable_accounts nt c Hr) as [Hm _ Hc He]. split_and!.
  - eexists. split; [apply Hq|]. by eapply waiting_length.
  - intros i w Hi Hw. pose proof (holder _ _ _ _ _ Hex Hi Hw) as Hmx. split.
    + destruct Hex as [[_ Hx] _ _]. destruct (main_holds _); [|done]. specialize (Hx eq_refl). congruence.
    + intros j v Hj Hv. pose proof (holder _ _ _ _ _ Hex Hj Hv). congruence.
  - apply Hq.
  - apply Hq.
  - rewrite (q_put _ _ _ _ _ Hq). by apply Nat.mod_upper_bound.
  - intros i w Hi. destruct (He i) as (Ht & Hs & Hcount). rewrite Hi in Ht, Hs, Hcount.
    cbn [default from_option id] in Ht, Hs, Hcount. split.
    + by rewrite Ht, Hs, <- app_assoc.
    + apply Hcount. rewrite Hc. apply lookup_lt_Some in Hi. lia.
Qed.

(** * The threads drain the ring *)

(** The statements a thread still has to execute, at most, until it sleeps, when it takes no
    further connection. *)
Definition weight (w : worker_pc) : nat :=
  match w with
  | WAsleep => 0 | WAdvance _ => 1 | WTake => 2 | WTest => 3 | WLock | WWoken => 4 | WStart | WClose _ => 5
  | WServe _ => 6 | WCount _ => 7 | WUnlock _ => 8
  end.

Definition total (ws : list worker_pc) : nat := sum_list_with weight ws.

Lemma total_insert ws i w w' : ws !! i = Some w -> (total (<[i := w']> ws) + weight w = total ws + weight w')%nat.
Proof.
  intros Hi. pose proof (lookup_lt_Some _ _ _ Hi). unfold total.
  rewrite insert_take_drop by done. rewrite <- (take_drop_middle ws i w Hi) at 3.
  rewrite !sum_list_with_app. cbn. lia.
Qed.

(** The entries of the ring that are in use, unless it is full. *)
Definition used (p : pool) : nat := ((iput p + MAXNCLI - iget p) mod MAXNCLI)%nat.

Lemma used_queue m ws p l n : queue_ok m ws p l n -> m <> MTest -> n = used p.
Proof.
  intros [_ Hg Hp Hr _ _ _] Hm. assert (Hn : (n < MAXNCLI)%nat) by (destruct Hr as [?|[_ ?]]; done).
  unfold used. rewrite Hp. destruct (Nat.lt_ge_cases (iget p + n) MAXNCLI).
  - rewrite (Nat.mod_small (iget p + n)) by done.
    replace (iget p + n + MAXNCLI - iget p)%nat with (n + 1 * MAXNCLI)%nat by lia.
    by rewrite Nat.Div0.mod_add, Nat.mod_small.
  - replace (iget p + n)%nat with (iget p + n - MAXNCLI + 1 * MAXNCLI)%nat by lia.
    rewrite Nat.Div0.mod_add, (Nat.mod_small (iget p + n - MAXNCLI)), Nat.mod_small; lia.
Qed.

(** What is left to do: for every connection in the ring the statements that serve it. *)
Definition work (c : config) : nat := 8 * used (shared c) + total (workers c).

Lemma thread_step nt i c c' : ended c = false -> thread_move i c = Some c' -> rule nt c c' /\ ended c' = false.
Proof.
  intros He H. destruct c as [m ws p l e]. cbn in He. subst e. split; [by eapply thread_rule|].
  unfold thread_move, lock, store in H. destruct p as [cl g u k mx].
  cbn [workers shared clifd iget iput clifd_mutex thread_count] in H.
  by repeat (case_match || simplify_option_eq).
Qed.

(** The thread has moved to another statement. *)
Ltac works H Hti Hacc :=
  injection H as <-;
  cbn [main_at workers shared log]; split_and!; [done|done || by apply Hacc|];
  unfold work, used; cbn [shared workers iget iput];
  match goal with |- context [<[_ := ?w]> _] => specialize (Hti w) end; cbn [weight] in Hti; lia.

(** A move of a thread leaves less to do. *)
Lemma thread_move_works i c c' :
  pool_ok c -> ended c = false -> main_at c = MAccept -> thread_move i c = Some c' ->
  main_at c' = MAccept /\ accepted (log c') = accepted (log c) /\ (work c' < work c)%nat.
Proof.
  intros [Hex (n & Hq & _)] He Hm H. destruct c as [m ws [cl g u k mx] l e]. cbn in He, Hm, Hq. subst e m.
  unfold thread_move, lock, store in H. cbn [workers shared clifd iget iput clifd_mutex thread_count] in H.
  destruct (ws !! i) as [w|] eqn:Ew; [|discriminate]. cbn [mbind option_bind] in H.
  pose proof (fun w' => total_insert ws i w w' Ew) as Hti.
  assert (Hacc : forall e, match e with Accepted _ => False | _ => True end -> accepted (l ++ [e]) = accepted l).
  { intros e Hev. unfold accepted. rewrite conns_snoc. by destruct e; rewrite ?app_nil_r. }
  destruct w as [| | | | | |fd|fd|fd|fd|fd]; try discriminate H.
  all: unfold set_worker, unlock, set_shared, set_mutex, record in H;
    cbn [main_at workers shared log ended clifd iget iput thread_count clifd_mutex] in H.
  - works H Hti Hacc.
  - destruct mx; [discriminate H|]. works H Hti Hacc.
  - destruct (g =? u)%nat; works H Hti Hacc.
  - destruct mx; [discriminate H|]. works H Hti Hacc.
  - destruct (cl !! g); [|discriminate H]. works H Hti Hacc.
  - injection H as <-. split_and!; try done. specialize (Hti (WUnlock fd)).
    destruct (queue_advanced _ _ _ _ _ _ _ _ _ _ _ Hex Ew fd eq_refl Hq) as [Hq' Hn].
    apply used_queue in Hq; [|done]. apply used_queue in Hq'; [|done].
    unfold work. cbn [shared workers clifd_mutex] in *. rewrite <- Hq, <- Hq'. cbn [weight] in Hti. lia.
  - works H Hti Hacc.
  - destruct (k !! i); [|discriminate H]. cbn [mbind option_bind] in H. case_decide; [|discriminate H]. works H Hti Hacc.
  - works H Hti Hacc.
  - works H Hti Hacc.
Qed.

(** Why a thread cannot move. *)
Lemma thread_blocked nt i c w :
  pool_ok c -> accounts nt c -> main_at c = MAccept -> workers c !! i = Some w -> thread_move i c = None ->
  w = WAsleep \/ exists j v, workers c !! j = Some v /\ worker_holds v = true.
Proof.
  intros [Hex (n & Hq & _)] Hacc Hm Hi H. destruct c as [m ws [cl g u k mx] l e]. cbn in Hm, Hi. subst m.
  unfold thread_move, lock, store in H. cbn [workers shared clifd iget iput clifd_mutex thread_count] in H.
  rewrite Hi in H. cbn [mbind option_bind] in H.
  assert (Hheld : is_Some mx -> exists j v, ws !! j = Some v /\ worker_holds v = true).
  { intros [t ->]. destruct Hex as [[Hx _] Hw Ho]. cbn in *. destruct t as [|j]; [by specialize (Hx eq_refl)|].
    destruct (Ho j eq_refl) as [v Hv]. exists j, v. split; [done|]. by apply (Hw j v Hv). }
  destruct w as [| | | | | |fd|fd|fd|fd|fd]; try discriminate H; try (by left); right.
  - apply Hheld. by destruct mx; [eexists|].
  - by exists i, WTest.
  - apply Hheld. by destruct mx; [eexists|].
  - by exists i, WTake.
  - destruct (ac_each _ _ Hacc i) as (_ & _ & Hc). cbn in Hc.
    assert (Hlt : (i < length k)%nat).
    { destruct Hacc as [? _ Hk _]. cbn in *. apply lookup_lt_Some in Hi. lia. }
    rewrite (Hc Hlt) in H. cbn [mbind option_bind] in H. by rewrite decide_True in H.
Qed.

(** A thread that holds the mutex can move. *)
Lemma holder_moves i c w :
  pool_ok c -> workers c !! i = Some w -> worker_holds w = true -> is_Some (thread_move i c).
Proof.
  intros [_ (n & Hq & _)] Hi Hh. destruct c as [m ws [cl g u k mx] l e]. cbn in Hi, Hq.
  unfold thread_move. cbn [workers shared clifd iget iput clifd_mutex thread_count].
  rewrite Hi. cbn [mbind option_bind]. destruct w; try discriminate Hh.
  - by destruct (g =? u)%nat.
  - destruct (lookup_lt_is_Some_2 cl g) as [fd ->]; [|done].
    pose proof (q_len _ _ _ _ _ Hq) as Hl. pose proof (q_get _ _ _ _ _ Hq). cbn in *. by rewrite Hl.
  - done.
  - done.
Qed.

Lemma all_asleep ws : (forall i w, ws !! i = Some w -> w = WAsleep) -> awake ws = 0%nat.
Proof.
  induction ws as [|w ws IH]; intros Hs; [done|]. unfold awake. rewrite filter_cons, decide_False.
  - apply IH. intros i. apply (Hs (S i)).
  - intros Hw. by apply Hw, (Hs 0%nat).
Qed.

(** When no thread can move, all of them sleep and nothing is left to do. *)
Lemma stuck_done nt c :
  pool_ok c -> accounts nt c -> main_at c = MAccept -> (0 < nt)%nat ->
  (forall i, thread_move i c = None) ->
  taken (log c) = accepted (log c) /\ forall i, closed_by i (log c) = taken_by i (log c).
Proof.
  intros Hp Ha Hm Hnt Hstuck.
  assert (Hs : forall i w, workers c !! i = Some w -> w = WAsleep).
  { intros i w Hi. destruct (thread_blocked nt i c w Hp Ha Hm Hi (Hstuck i)) as [?|(j & v & Hj & Hv)]; [done|].
    destruct (holder_moves j c v Hp Hj Hv) as [? Hmv]. by rewrite Hstuck in Hmv. }
  split.
  - destruct Hp as [_ (n & Hq & Hk)]. rewrite (q_order _ _ _ _ _ Hq), Hm. cbn [main_hand]. rewrite app_nil_r.
    assert (Hin : WAsleep ∈ workers c).
    { pose proof (ac_all _ _ Ha ltac:(by rewrite Hm)) as Hl.
      destruct (lookup_lt_is_Some_2 (workers c) 0%nat) as [w Hw]; [lia|].
      rewrite <- (Hs _ _ Hw). by eapply list_elem_of_lookup_2. }
    specialize (Hk Hin). rewrite (all_asleep _ Hs), Hm in Hk. cbn in Hk.
    assert (n = 0%nat) as -> by lia. unfold in_ring. cbn [window seq omap list_omap].
    destruct (advancing _ _); by rewrite app_nil_r.
  - intros i. destruct (ac_each _ _ Ha i) as (Ht & Hse & _).
    assert (Hd : default WStart (workers c !! i) = WAsleep \/ default WStart (workers c !! i) = WStart).
    { destruct (workers c !! i) eqn:Ei; [left; by apply (Hs i)|by right]. }
    rewrite Ht, Hse. by destruct Hd as [-> | ->]; rewrite !app_nil_r.
Qed.

(** Schedules of the threads. *)
Lemma run_threads nt sched : forall c c',
  pool_ok c -> accounts nt c -> ended c = false -> main_at c = MAccept ->
  run_moves nt (Thread <$> sched) c = Some c' ->
  pool_ok c' /\ accounts nt c' /\ main_at c' = MAccept /\ ended c' = false /\
  accepted (log c') = accepted (log c) /\ (length sched + work c' <= work c)%nat.
Proof.
  induction sched as [|i sched IH]; intros c c' Hp Ha He Hm Hrun.
  { injection Hrun as <-. by split_and!. }
  cbn [fmap list_fmap] in Hrun. unfold run_moves in Hrun. cbn [foldl mbind option_bind] in Hrun.
  unfold fire in Hrun at 2. rewrite He in Hrun.
  destruct (thread_move i c) as [c1|] eqn:E1.
  - destruct (thread_step nt i c c1 He E1) as [Hrule He1].
    destruct (thread_move_works i c c1 Hp He Hm E1) as (Hm1 & Hl1 & Hw).
    destruct (IH c1 c') as (? & ? & ? & ? & Hl & Hlen); [by eapply pool_ok_rule|by eapply accounts_rule|done|done|exact Hrun|].
    split_and!; try done; [congruence|]. cbn [length]. lia.
  - exfalso. clear -Hrun. induction sched as [|j sched IH]; [done|]. by apply IH.
Qed.

Lemma nobody_moves c :
  Forall (fun i => thread_move i c = None) (seq 0 (length (workers c))) -> forall i, thread_move i c = None.
Proof.
  intros Hno i. destruct (decide (i < length (workers c))%nat) as [Hi|Hi].
  - rewrite Forall_forall in Hno. apply Hno, elem_of_seq. lia.
  - unfold thread_move. by rewrite (lookup_ge_None_2 (workers c) i) by lia.
Qed.

(** While a thread can move, let one of them move. *)
Lemma run_to_end nt k : forall c,
  (work c <= k)%nat -> pool_ok c -> accounts nt c -> ended c = false -> main_at c = MAccept ->
  exists sched c', run_moves nt (Thread <$> sched) c = Some c' /\ forall i, thread_move i c' = None.
Proof.
  induction k as [|k IH]; intros c Hk Hp Ha He Hm;
    (destruct (decide (Forall (fun i => thread_move i c = None) (seq 0 (length (workers c))))) as [Hno|Hyes];
     [exists [], c; split; [done|by apply nobody_moves]|]).
  all: apply not_Forall_Exists in Hyes; [|by intros ?; apply _].
  all: apply Exists_exists in Hyes as (i & _ & [c1 E1]%not_eq_None_Some).
  all: destruct (thread_step nt i c c1 He E1) as [Hrule He1].
  all: destruct (thread_move_works i c c1 Hp He Hm E1) as (Hm1 & Hl1 & Hw); try (exfalso; lia).
  destruct (IH c1) as (sched & c' & Hrun & Hend); [lia|by eapply pool_ok_rule|by eapply accounts_rule|done|done|].
  exists (i :: sched), c'. split; [|done]. unfold run_moves in *. cbn [fmap list_fmap foldl mbind option_bind].
  unfold fire at 2. by rewrite He, E1.
Qed.

(** C23: the threads serve every connection that has been accepted, whatever the scheduler does.
    From every configuration the server reaches in which main waits for the next connection,
    with at least one thread: every schedule of the threads is finite (each move leaves less to
    do), a schedule can always be continued until no thread can move, and then no accepted
    connection is left over: all have been taken from the ring, and every thread has served and
    closed what it took.  So there is neither a deadlock nor a lost wake-up: while a connection
    waits, some thread can move. *)
Theorem pool_drains nt c :
  reachable nt c -> ended c = false -> main_at c = MAccept -> (0 < nt)%nat ->
  (forall sched c', run_moves nt (Thread <$> sched) c = Some c' ->
     (length sched <= work c)%nat /\
     (exists more c'', run_moves nt (Thread <$> more) c' = Some c'' /\ forall i, thread_move i c'' = None) /\
     ((forall i, thread_move i c' = None) ->
        taken (log c') = accepted (log c) /\ forall i, closed_by i (log c') = taken_by i (log c'))).
Proof.
  intros Hr He Hm Hnt sched c' Hrun.
  destruct (run_threads nt sched c c' (reachable_pool_ok _ _ Hr) (reachable_accounts _ _ Hr) He Hm Hrun)
    as (Hp & Ha & Hm' & He' & Hl & Hlen).
  split_and!; [lia|by eapply run_to_end|]. intros Hstuck. rewrite <- Hl. by eapply stuck_done.
Qed.

(** * A run with two threads *)

Lemma run_moves_reachable nt ms : forall c c', reachable nt c -> run_moves nt ms c = Some c' -> reachable nt c'.
Proof.
  induction ms as [|m ms IH]; intros c c' Hr Hrun; [by injection Hrun as <-|].
  unfold run_moves in Hrun. cbn [foldl mbind option_bind] in Hrun. destruct (fire nt m c) as [c1|] eqn:E1.
  - eapply IH; [|exact Hrun]. eapply reach_step; [done|by exists m].
  - exfalso. clear -Hrun. induction ms as [|j ms IH]; [done|]. by apply IH.
Qed.

(** Thread 0 finds the ring empty and sleeps; two connections arrive, the first wakes it. *)
Definition demo_moves : list move :=
  [Main; Main; Main; Thread 0; Thread 0; Thread 0] ++
  [Accept_conn 5; Main; Main; Main; Main; Wake (Some 0%nat); Main] ++
  [Accept_conn 6; Main; Main; Main; Main; Wake None; Main].

Definition demo : config := default (start 2) (run_moves 2 demo_moves (start 2)).

Lemma demo_reachable : reachable 2 demo.
Proof. apply (run_moves_reachable 2 demo_moves (start 2)); [apply reach_start|]. vm_compute. reflexivity. Qed.

Lemma pool_hands_out_in_order_witness :
  accepted (log demo) = [5; 6] /\
  exists waiting, accepted (log demo) = taken (log demo) ++ waiting /\ (length waiting <= MAXNCLI)%nat.
Proof.
  split; [reflexivity|]. destruct (pool_hands_out_in_order 2 demo demo_reachable) as [H _]. exact H.
Defined.

(** Thread 1 takes both connections before thread 0 gets the mutex. *)
Definition demo_schedule : list nat := replicate 9 1%nat ++ replicate 8 1%nat ++ replicate 2 0%nat ++ replicate 2 1%nat.

Definition all_blocked (c : config) : bool :=
  forallb (fun i => match thread_move i c with None => true | Some _ => false end) (seq 0 (length (workers c))).

Lemma all_blocked_none c : all_blocked c = true -> forall i, thread_move i c = None.
Proof.
  intros H. apply nobody_moves, Forall_forall. intros i Hi. unfold all_blocked in H.
  rewrite forallb_forall in H. specialize (H i (proj1 (list_elem_of_In _ _) Hi)). by destruct (thread_move i c).
Qed.

Lemma pool_drains_witness :
  match run_moves 2 (Thread <$> demo_schedule) demo with
  | Some c' => all_blocked c' = true /\ taken (log c') = [5; 6] /\ closed_by 1 (log c') = taken_by 1 (log c')
  | None => False
  end.
Proof.
  assert (Hb : match run_moves 2 (Thread <$> demo_schedule) demo with Some c' => all_blocked c' | None => false end = true)
    by (vm_compute; reflexivity).
  pose proof (pool_drains 2 demo demo_reachable eq_refl eq_refl ltac:(lia) demo_schedule) as H.
  destruct (run_moves 2 (Thread <$> demo_schedule) demo) as [c'|]; [|discriminate Hb].
  destruct (H c' eq_refl) as (_ & _ & Hend). destruct (Hend (all_blocked_none c' Hb)) as [Ht Hc].
  split; [exact Hb|]. split; [exact Ht|exact (Hc 1%nat)].
Defined.
