(* ===== verification/WebServer.v ===== *)
(** The servers of [server/]: what a child or a thread does for one connection ([web_child.c],
    [web_child_r.c]), the line readers it is linked with ([lib/readline.c], [server/readline.c],
    [server/readline_r.c]), and the loops of the iterative and the preforked servers ([serv00.c],
    [child02.c], [child03.c], [child04.c], [lock_fcntl.c], [lock_pthread.c]). *)

From S2P Require Import Prelude CText Sys Error Wrappers RobustIO.

Definition MAXN : Z := 16384.        (* max # bytes client can request *)

(** * Line readers

    [web_child] is linked with one of two functions [Readline]; they differ in the state they
    keep between calls. *)

Class LineReader {os : OS} {SE : Strerror} (R : Type) : Type :=
  get_line : nat -> R -> Z -> list Z -> Z -> M (Z * list Z * R).

(** ** server/readline.c: one byte at a time, without a state *)

Module OneByte.
Section OneByte.
Context {os : OS} {SE : Strerror}.

(** The [for] loop; [left] is [maxlen - n] and [ptr] is [n - 1]. *)
Fixpoint readline_loop (left : nat) (fd : Z) (vptr : list Z) (ptr : nat) (n : Z) : M (Z * list Z) :=
  match left with
  | O => vptr <~ checked (store vptr ptr 0) ;; mpure (n, vptr)
  | S left' =>
      r <~ sys (sys_read fd 1) ;;
      if rv r =? 1 then
        c <~ checked (rbytes r !! 0%nat) ;;
        vptr <~ checked (store vptr ptr c) ;;
        if c =? 10 then vptr <~ checked (store vptr (S ptr) 0) ;; mpure (n, vptr)
        else readline_loop left' fd vptr (S ptr) (n + 1)
      else if rv r =? 0 then
        if n =? 1 then mpure (0, vptr)                 (* EOF, no data read *)
        else vptr <~ checked (store vptr ptr 0) ;; mpure (n, vptr)   (* EOF, some data was read *)
      else mpure (-1, vptr)                            (* error *)
  end.

Definition readline (fd : Z) (vptr : list Z) (maxlen : Z) : M (Z * list Z) :=
  readline_loop (Z.to_nat (maxlen - 1)) fd vptr 0 1.

Definition Readline (fd : Z) (ptr : list Z) (maxlen : Z) : M (Z * list Z) :=
  r <~ readline fd ptr maxlen ;;
  if r.1 =? -1 then err_sys c["readline error"] [] else mpure r.
End OneByte.
End OneByte.

#[export] Instance one_byte_reader {os : OS} {SE : Strerror} : LineReader unit :=
  fun _ _ fd line maxlen => r <~ OneByte.Readline fd line maxlen ;; mpure (r, tt).

#[export] Instance library_reader {os : OS} {SE : Strerror} : LineReader rline := Readline.

(** ** server/readline_r.c: the buffer belongs to the caller *)

Record Rline : Type := RLine {
  read_fd : Z;              (* caller's descriptor to read from *)
  read_maxlen : Z;          (* max #bytes to read *)
  rl_cnt : Z;               (* initialize to 0 *)
  rl_bufptr : nat;          (* initialize to rl_buf *)
  rl_buf : list Z;
}.

Section Reentrant.
Context {os : OS} {SE : Strerror}.

Definition set_rl (r : Rline) (cnt : Z) (bufptr : nat) (buf : list Z) : Rline :=
  RLine (read_fd r) (read_maxlen r) cnt bufptr buf.

(** The [again] loop: 1 when there is data in the buffer. *)
Fixpoint my_read_r_fill (fuel : nat) (rptr : Rline) : M (Z * Rline) :=
  match fuel with
  | O => no_fuel
  | S f =>
      r <~ sys (sys_read (read_fd rptr) MAXLINE) ;;
      buf <~ checked (memcpy (rl_buf rptr) 0 (rbytes r)) ;;
      let rptr := set_rl rptr (rv r) (rl_bufptr rptr) buf in
      if rv r <? 0 then
        e <~ get_errno ;;
        if e =? EINTR then my_read_r_fill f rptr else mpure (-1, rptr)
      else if rv r =? 0 then mpure (0, rptr)
      else mpure (1, set_rl rptr (rl_cnt rptr) 0 buf)
  end.

Definition my_read_r (fuel : nat) (rptr : Rline) : M (Z * Z * Rline) :=
  p <~ (if rl_cnt rptr <=? 0 then my_read_r_fill fuel rptr else mpure (1, rptr)) ;;
  let '(rc, rptr) := p in
  if rc =? 1 then
    c <~ checked (rl_buf rptr !! rl_bufptr rptr) ;;
    mpure (1, Z.land c 255, set_rl rptr (rl_cnt rptr - 1) (S (rl_bufptr rptr)) (rl_buf rptr))
  else mpure (rc, 0, rptr).

(** [buf] is the memory of the [Rline], which is not initialised. *)
Definition readline_rinit (fd maxlen : Z) (buf : list Z) : Rline := RLine fd maxlen 0 0 buf.

(** [line] is the caller's buffer, [rptr->read_ptr]. *)
Fixpoint readline_r_loop (fuel left : nat) (rptr : Rline) (line : list Z) (ptr : nat) (n : Z)
    : M (Z * list Z * Rline) :=
  match left with
  | O => line <~ checked (store line ptr 0) ;; mpure (n, line, rptr)
  | S left' =>
      p <~ my_read_r fuel rptr ;;
      let '(rc, c, rptr) := p in
      if rc =? 1 then
        line <~ checked (store line ptr c) ;;
        if c =? 10 then line <~ checked (store line (S ptr) 0) ;; mpure (n, line, rptr)
        else readline_r_loop fuel left' rptr line (S ptr) (n + 1)
      else if rc =? 0 then
        if n =? 1 then mpure (0, line, rptr)           (* EOF, no data read *)
        else line <~ checked (store line ptr 0) ;; mpure (n, line, rptr)   (* EOF, some data was read *)
      else mpure (-1, line, rptr)                      (* error *)
  end.

Definition readline_r (fuel : nat) (rptr : Rline) (line : list Z) : M (Z * list Z * Rline) :=
  readline_r_loop fuel (Z.to_nat (read_maxlen rptr - 1)) rptr line 0 1.

Definition Readline_r (fuel : nat) (rptr : Rline) (line : list Z) : M (Z * list Z * Rline) :=
  r <~ readline_r fuel rptr line ;;
  if r.1.1 =? -1 then err_sys c["readline_r error"] [] else mpure r.
End Reentrant.

(** * The service *)

Section Service.
Context {os : OS} {SE : Strerror} {R : Type} {LR : LineReader R}.

(** [line] and [result] are the local arrays; [rfuel] bounds the reads of one line, [wfuel] the
    writes of one answer, [fuel] the requests. *)
Fixpoint web_child (rfuel wfuel fuel : nat) (r : R) (sockfd : Z) (line result : list Z) : M R :=
  match fuel with
  | O => no_fuel
  | S f =>
      p <~ get_line rfuel r sockfd line MAXLINE ;;
      let '(nread, line, r) := p in
      if nread =? 0 then mpure r                       (* connection closed by other end *)
      else
        (* line from client specifies #bytes to write back *)
        let ntowrite := atoi (cstring_at line 0) in
        if (ntowrite <=? 0) || (ntowrite >? MAXN)
        then err_quit c["client request for %d bytes"] [AInt ntowrite]
        else Writen wfuel sockfd result ntowrite ;;; web_child rfuel wfuel f r sockfd line result
  end.

(** ** The loop of a process that accepts and serves

    [lock] and [release] are what surrounds [Accept]: nothing in [serv00.c] and [child02.c],
    [my_lock_wait] and [my_lock_release] in [child03.c] and [child04.c].  The stack memory of
    [web_child] is [line] and [result]; [rounds] connections. *)
Fixpoint accept_loop (afuel rfuel wfuel fuel rounds : nat) (lock release : M unit) (r : R) (listenfd : Z)
    (line result : list Z) : M R :=
  match rounds with
  | O => mpure r
  | S k =>
      lock ;;;
      a <~ Accept afuel listenfd true ;;
      release ;;;
      r <~ web_child rfuel wfuel fuel r (rv a) line result ;;   (* process the request *)
      Close (rv a) ;;;
      accept_loop afuel rfuel wfuel fuel k lock release r listenfd line result
  end.

(** [child_main] of [child02.c], [child03.c] and [child04.c]. *)
Definition child_main (afuel rfuel wfuel fuel rounds : nat) (lock release : M unit) (r : R)
    (listenfd addrlen : Z) (line result : list Z) : M R :=
  Malloc addrlen ;;;
  pid <~ sys sys_getpid ;;
  text <~ checked (vformat c["child %ld starting"] [AInt (rv pid)]) ;;
  sys (sys_fputs (text ++ [10]) stdout) ;;;
  accept_loop afuel rfuel wfuel fuel rounds lock release r listenfd line result.
End Service.

(** [web_child_r.c]: the same with [Readline_r]; [garbage] is the uninitialised buffer of the
    [Rline]. *)
Section ServiceR.
Context {os : OS} {SE : Strerror}.

Fixpoint web_child_r_loop (rfuel wfuel fuel : nat) (rline : Rline) (sockfd : Z) (line result : list Z) : M Rline :=
  match fuel with
  | O => no_fuel
  | S f =>
      p <~ Readline_r rfuel rline line ;;
      let '(nread, line, rline) := p in
      if nread =? 0 then mpure rline
      else
        let ntowrite := atoi (cstring_at line 0) in
        if (ntowrite <=? 0) || (ntowrite >? MAXN)
        then err_quit c["client request for %d bytes"] [AInt ntowrite]
        else Writen wfuel sockfd result ntowrite ;;; web_child_r_loop rfuel wfuel f rline sockfd line result
  end.

Definition web_child_r (rfuel wfuel fuel : nat) (sockfd : Z) (line result garbage : list Z) : M unit :=
  web_child_r_loop rfuel wfuel fuel (readline_rinit sockfd MAXLINE garbage) sockfd line result ;;; mpure tt.

(** ** lock_fcntl.c *)

Definition F_SETLKW : Z := 7.

(** [lock_it] and [unlock_it] are the addresses of the two [struct flock]. *)
Fixpoint my_lock_wait (fuel : nat) (lock_fd lock_it : Z) : M unit :=
  match fuel with
  | O => no_fuel
  | S f =>
      r <~ sys (sys_fcntl lock_fd F_SETLKW lock_it) ;;
      if rv r <? 0 then
        e <~ get_errno ;;
        if e =? EINTR then my_lock_wait f lock_fd lock_it
        else err_sys c["fcntl error for my_lock_wait"] []
      else mpure tt
  end.

Definition my_lock_release (lock_fd unlock_it : Z) : M unit :=
  r <~ sys (sys_fcntl lock_fd F_SETLKW unlock_it) ;;
  if rv r <? 0 then err_sys c["fcntl error for my_lock_release"] [] else mpure tt.
End ServiceR.
