(* ===== verification/WebServerFacts.v ===== *)
(** The line readers keep one contract, and [web_child] is verified against it. *)

From S2P Require Import Prelude CText Sys Traces Error Wrappers RobustIO StreamFacts.
From S2P Require Import Servers WebServer.

(** * The contract of a line reader *)

(** A line that fits with its NUL into [maxlen] bytes, or the first [maxlen - 1] bytes of a
    longer one. *)
Definition whole_line (maxlen : Z) (L : list Z) : Prop :=
  exists L', (10 ∉ L') /\ ((L = L' ++ [10] /\ Z.of_nat (length L) < maxlen) \/
                        (L = L' /\ Z.of_nat (length L) = maxlen - 1)).

(** The end of the file on [fd]. *)
Definition at_eof (fd : Z) (e : event) : Prop := on_read fd e /\ is_eof e.

(** A whole line, or the bytes that the end of the file leaves of one. *)
Definition is_line (fd maxlen : Z) (evs : list event) (unread' L : list Z) : Prop :=
  whole_line maxlen L \/
  ((10 ∉ L) /\ Z.of_nat (length L) < maxlen - 1 /\ unread' = [] /\ ended_by (at_eof fd) evs).

(** Calls that read from [fd], and the output of an error report. *)
Definition reading (fd : Z) (e : event) : Prop := on_read fd e \/ output e.

(** [get_line] takes the next line from the stream: the bytes [L] followed by what stays unread
    are what was unread followed by what was received.  It returns 0 only at the end of the
    file with nothing left, and otherwise a nonempty [L] with a NUL behind it: a whole line,
    unless a [read] has found the end of the file.  It ends the process only when a [read] has
    failed. *)
Definition line_taken {R} (ok : R -> Prop) (unread : R -> list Z) (fuel : nat) (r : R) (fd maxlen : Z)
    (vptr : list Z) (s : st) (o : outcome (Z * list Z * R)) (s' : st) : Prop :=
  exists evs, trace s' = evs ++ trace s /\ Forall (reading fd) evs /\
    match o with
    | Val (k, vptr', r') =>
        daemon_proc s' = 0 /\ ok r' /\ length vptr' = length vptr /\
        exists L, L ++ unread r' = unread r ++ received fd evs /\
        ((k = 0 /\ L = [] /\ unread r' = [] /\ ended_by (at_eof fd) evs) \/
         (k <> 0 /\ L <> [] /\ is_line fd maxlen evs (unread r') L /\
          vptr' = L ++ [0] ++ drop (S (length L)) vptr))
    | Exited c => c = 1 /\ Exists (call_failed fd) evs
    | OutOfFuel => (fuel <= interrupts evs)%nat
    | _ => False
    end.

Class LineReaderLaw {os : OS} {SE : Strerror} (R : Type) {LR : LineReader R} : Type := {
  reader_ok : R -> Prop;
  reader_unread : R -> list Z;
  get_line_law : forall fuel r fd vptr maxlen s,
    reader_ok r -> 2 <= maxlen <= Z.of_nat (length vptr) -> daemon_proc s = 0 ->
    wp (get_line fuel r fd vptr maxlen) (line_taken reader_ok reader_unread fuel r fd maxlen vptr s) s;
}.

Lemma reads_reading fd evs : Forall (on_read fd) evs -> Forall (reading fd) evs.
Proof. intros H. eapply Forall_impl; [done|by left]. Qed.

Lemma memcpy_text (vptr L vptr' : list Z) :
  memcpy vptr 0 (L ++ [0]) = Some vptr' ->
  vptr' = L ++ [0] ++ drop (S (length L)) vptr /\ (length L < length vptr)%nat.
Proof.
  unfold memcpy. case_decide as Hl; [|done]. intros [= <-]. rewrite length_app in Hl. cbn in Hl.
  split; [|lia]. cbn [take app Nat.add]. rewrite length_app, <- app_assoc. cbn. by rewrite Nat.add_1_r.
Qed.

Section Readers.
Context {os : OS} {SE : Strerror} {RDL : ReadLaw}.

(** A failed read is reported, and the process ends. *)
Lemma report_error {A} msg fd s s1 (evs : list event) (P : outcome A -> st -> Prop) :
  plain msg = true -> daemon_proc s1 = 0 -> trace s1 = evs ++ trace s -> Forall (reading fd) evs ->
  Exists (call_failed fd) evs ->
  (forall evs' s', trace s' = evs' ++ trace s -> Forall (reading fd) evs' -> Exists (call_failed fd) evs' ->
     P (Exited 1) s') ->
  wp (err_sys msg []) P s1.
Proof.
  intros [Hf Hn]%plain_of_bool Hd Ht Hev Hx HP. unfold wp.
  rewrite (err_sys_exits _ _ msg) by (done || by apply vformat_plain).
  destruct (reported_history (report_line true msg (errno s1)) s1) as (evs' & Ht' & Ho & _).
  eapply (HP (evs' ++ evs)); [by rewrite Ht', Ht, app_assoc| |].
  - apply Forall_app. split; [|done]. eapply Forall_impl; [done|by right].
  - apply Exists_app. by right.
Qed.

(** The last call is a [read] on [fd]. *)
Lemma last_read (P : event -> Prop) fd evs :
  Forall (on_read fd) evs -> ended_by P evs -> ended_by (fun e => on_read fd e /\ P e) evs.
Proof. intros H (e & es & -> & He). exists e, es. split; [done|]. split; [exact (Forall_inv H)|done]. Qed.

Lemma last_failed fd evs : Forall (on_read fd) evs -> ended_by is_error evs -> Exists (call_failed fd) evs.
Proof.
  intros H (e & es & -> & He & _). constructor. left. split; [exact (Forall_inv H)|done].
Qed.

(** ** The library's readline *)

Lemma library_get_line fuel rl fd vptr maxlen s :
  rline_ok rl -> 2 <= maxlen <= Z.of_nat (length vptr) -> daemon_proc s = 0 ->
  wp (get_line fuel rl fd vptr maxlen) (line_taken rline_ok unread fuel rl fd maxlen vptr s) s.
Proof.
  intros Hok Hm Hd. unfold get_line, library_reader, Readline.
  apply wp_then. eapply wp_mono; [apply (readline_loop_spec fuel (Z.to_nat (maxlen - 1))); [done|lia]|].
  intros o s1 (evs & Ht & Hdp & Hrd & Hp). pose proof (reads_reading _ _ Hrd) as Hev.
  destruct o as [[[k vptr'] rl']| | | |]; cbn [andthen readline_post] in *; try done; [|by exists evs].
  destruct Hp as (Hok' & L & HL & Hend). cbn [fst].
  assert (Hfin : forall k', memcpy vptr 0 (L ++ [0]) = Some vptr' ->
    (k' = 0 /\ L = [] /\ unread rl' = [] /\ ended_by (at_eof fd) evs) \/
    (k' <> 0 /\ L <> [] /\ is_line fd maxlen evs (unread rl') L) ->
    line_taken rline_ok unread fuel rl fd maxlen vptr s (Val (k', vptr', rl')) s1).
  { intros k' Hm' Hk. destruct (memcpy_text _ _ _ Hm') as [Hv Hlt].
    pose proof (memcpy_length _ _ _ _ Hm') as Hvl.
    exists evs. split_and!; [done|done|by rewrite Hdp|done|done|].
    exists L. split; [done|]. destruct Hk as [?|(? & ? & ?)]; [by left|by right]. }
  destruct Hend as [L' v r2 EL Hnl Hle E|v r2 Hnl Hle E|v r2 Hnl Hle E Hu He|v r2 Hnl Hle Hu He].
  - assert (length L = S (length L')) by (rewrite EL, length_app; cbn; lia).
    destruct (Z.ltb_spec (1 - 1 + Z.of_nat (length L)) 0); [lia|].
    apply Hfin; [done|]. right. split_and!; [lia|by destruct L|]. left. exists L'. split; [done|]. left. split; [done|lia].
  - destruct (Z.ltb_spec (1 + Z.of_nat (length L)) 0); [lia|].
    apply Hfin; [done|]. right. split_and!; [lia|destruct L; cbn in *; [lia|done]|].
    left. exists L. split; [done|]. right. split; [done|lia].
  - destruct (Z.ltb_spec (1 - 1 + Z.of_nat (length L)) 0); [lia|].
    apply (last_read _ _ _ Hrd) in He. apply Hfin; [done|].
    destruct L as [|b L]; [by left|]. right. cbn [length] in *. split_and!; [lia|done|].
    right. cbn [length]. split_and!; [done|lia|done|done].
  - cbn [Z.ltb Z.compare]. eapply (report_error _ fd s s1 evs); try done; [congruence|by apply last_failed|].
    intros evs' s' Ht' Hev' Hx. by exists evs'.
Qed.

#[export] Instance library_reader_law : LineReaderLaw rline :=
  {| reader_ok := rline_ok; reader_unread := unread; get_line_law := library_get_line |}.

(** ** server/readline.c *)

(** How a line of at most [left] more bytes ends. *)
Definition line_ends (left : nat) (fd : Z) (evs : list event) (L : list Z) : Prop :=
  (exists L', (10 ∉ L') /\ L = L' ++ [10]) \/ ((10 ∉ L) /\ length L = left) \/
  ((10 ∉ L) /\ (length L < left)%nat /\ ended_by (at_eof fd) evs).

Definition one_byte_post (left : nat) (fd : Z) (vptr : list Z) (ptr : nat) (n : Z) (evs : list event)
    (o : outcome (Z * list Z)) : Prop :=
  match o with
  | Val (k, vptr') =>
      length vptr' = length vptr /\
      ((k = -1 /\ Exists (call_failed fd) evs) \/
       exists L, received fd evs = L /\ line_ends left fd evs L /\ (length L <= left)%nat /\
         ((k = 0 /\ n = 1 /\ L = [] /\ ended_by (at_eof fd) evs) \/
          (0 < k /\ memcpy vptr ptr (L ++ [0]) = Some vptr' /\ (n = 1 -> (0 < left)%nat -> L <> []))))
  | _ => False
  end.

Lemma line_ends_cons b left fd evs e L :
  b <> 10 -> line_ends left fd evs L -> line_ends (S left) fd (evs ++ [e]) (b :: L).
Proof.
  intros Hb [(L' & Hn & ->)|[[Hn Hl]|(Hn & Hl & He)]].
  - left. exists (b :: L'). split; [set_solver|done].
  - right. left. split; [set_solver|cbn; lia].
  - right. right. split_and!; [set_solver|cbn; lia|by apply ended_by_app].
Qed.

Lemma memcpy_cons (vptr vptr1 : list Z) ptr b d :
  memcpy vptr ptr [b] = Some vptr1 -> (S ptr + length d <= length vptr)%nat ->
  memcpy vptr1 (S ptr) d = memcpy vptr ptr (b :: d).
Proof.
  intros Hm Hl. rewrite <- (Nat.add_1_r ptr). apply (memcpy_app vptr ptr [b] d vptr1 Hm). cbn. lia.
Qed.

Lemma one_byte_loop_spec left fd vptr ptr n s :
  (ptr + left < length vptr)%nat -> 1 <= n ->
  wp (OneByte.readline_loop left fd vptr ptr n) (reads_then fd s (one_byte_post left fd vptr ptr n)) s.
Proof.
  revert vptr ptr n s. induction left as [|left IH]; intros vptr ptr n s Hl Hn; cbn [OneByte.readline_loop].
  - destruct (store_memcpy vptr ptr 0 ltac:(lia)) as (vptr1 & -> & E). exists [].
    split_and!; [done|done|by constructor|]. split; [by eapply memcpy_length|]. right. exists []. split_and!; try done.
    + right. left. split; [set_solver|done].
    + right. split_and!; [lia|done|lia].
  - unfold wp in *. rewrite then_sys.
    destruct (read_cases fd 1 s ltac:(done))
      as [r d s1 Hv Hd Hdl Hle _ ->|r s1 Hv Hd ->|r s1 Hv Hd Hx He ->|r s1 x Hv Hd Hx Hne He ->]; rewrite Hv.
    + assert (exists b, d = [b]) as [b ->]. { destruct d as [|b [|]]; cbn in *; try lia. by exists b. }
      change (Z.of_nat (length [b]) =? 1) with true. cbv iota.
      rewrite Hd. cbn [lookup list_lookup]. cbn [checked]. rewrite then_pure.
      destruct (store_memcpy vptr ptr b ltac:(lia)) as (vptr1 & -> & E1). cbn [checked]. rewrite then_pure.
      pose proof (memcpy_length _ _ _ _ E1) as Hl1. destruct (Z.eqb_spec b 10) as [->|Hb].
      * destruct (store_memcpy vptr1 (S ptr) 0 ltac:(lia)) as (vptr2 & -> & E2). apply reads_then_one.
        cbn [one_byte_post]. split; [rewrite (memcpy_length _ _ _ _ E2); lia|]. right.
        exists [10]. rewrite received_one, Hd. split_and!; [done| |cbn; lia|].
        -- left. exists []. split; [set_solver|done].
        -- right. split_and!; [lia| |done]. rewrite (memcpy_cons vptr vptr1 ptr 10) in E2; [done|done|cbn; lia].
      * specialize (IH vptr1 (S ptr) (n + 1) (after (sys_read fd 1) r s) ltac:(lia) ltac:(lia)).
        destruct (OneByte.readline_loop _ _ _ _ _ _) as [o s2]. revert IH. apply reads_then_step.
        intros evs. destruct o as [[k vptr']| | | |]; try done. cbn [one_byte_post].
        intros (Hvl & Hcase). split; [lia|]. destruct Hcase as [[-> Hf]|(L & HL & Hline & Hlen & Hcase)].
        { left. split; [done|]. apply Exists_app. by left. }
        right. exists (b :: L). unfold received in *. rewrite collect_snoc. cbn. rewrite Z.eqb_refl, Hd, HL.
        split_and!; [done|by apply line_ends_cons|cbn; lia|].
        destruct Hcase as [(_ & ? & _)|(Hk & Hm & _)]; [lia|]. right. split_and!; try done.
        rewrite (memcpy_cons vptr vptr1 ptr b) in Hm; [done|done|]. rewrite length_app. cbn. lia.
    + assert (Heof : ended_by (at_eof fd) [(sys_read fd 1, r)]) by (apply ended_by_one; split; [by eexists|done]).
      assert (Hends : line_ends (S left) fd [(sys_read fd 1, r)] [])
        by (right; right; split_and!; [set_solver|cbn; lia|done]).
      cbn [Z.eqb]. destruct (Z.eqb_spec n 1) as [->|Hn1].
      * apply reads_then_one. split; [done|]. right. exists []. rewrite received_one.
        split_and!; try done; [cbn; lia|by left].
      * destruct (store_memcpy vptr ptr 0 ltac:(lia)) as (vptr1 & -> & E). apply reads_then_one.
        split; [by eapply memcpy_length|]. right. exists []. rewrite received_one.
        split_and!; try done; [cbn; lia|]. right. split_and!; [lia|done|lia].
    + cbn [Z.eqb]. apply reads_then_one. split; [done|]. left. split; [done|]. constructor. left.
      split; [by eexists|cbn; lia].
    + cbn [Z.eqb]. apply reads_then_one. split; [done|]. left. split; [done|]. constructor. left.
      split; [by eexists|cbn; lia].
Qed.

Lemma one_byte_get_line fuel (r : unit) fd vptr maxlen s :
  True -> 2 <= maxlen <= Z.of_nat (length vptr) -> daemon_proc s = 0 ->
  wp (get_line fuel r fd vptr maxlen) (line_taken (fun _ => True) (fun _ => []) fuel r fd maxlen vptr s) s.
Proof.
  intros _ Hm Hd. unfold get_line, one_byte_reader, OneByte.Readline.
  do 2 apply wp_then. eapply wp_mono; [apply (one_byte_loop_spec (Z.to_nat (maxlen - 1))); lia|].
  intros o s1 (evs & Ht & Hdp & Hrd & Hp). pose proof (reads_reading _ _ Hrd) as Hev.
  destruct o as [[k vptr']| | | |]; cbn [andthen one_byte_post] in *; try done.
  destruct Hp as (Hvl & Hcase). cbn [fst]. destruct Hcase as [[-> Hf]|(L & HL & Hline & Hlen & Hcase)].
  - cbn [Z.eqb Pos.eqb]. eapply (report_error _ fd s s1 evs); try done; [congruence|].
    intros evs' s' Ht' Hev' Hx. by exists evs'.
  - destruct (Z.eqb_spec k (-1)) as [->|Hk]; [lia|]. apply wp_pure. cbn [andthen wp mpure].
    exists evs. split_and!; [done|done|by rewrite Hdp|done|done|].
    exists L. rewrite app_nil_r, HL. split; [done|].
    destruct Hcase as [(? & _ & ? & ?)|(Hk0 & Hm' & HLn)]; [by left|]. right.
    destruct (memcpy_text _ _ _ Hm') as [Hv _]. split_and!; try done; [lia|apply HLn; [done|lia]|].
    destruct Hline as [(L' & Hn & ->)|[[Hn Hl]|(Hn & Hl & He)]].
    + left. exists L'. split; [done|]. left. split; [done|lia].
    + left. exists L. split; [done|]. right. split; [done|lia].
    + right. split_and!; [done|lia|done|done].
Qed.

#[export] Instance one_byte_reader_law : LineReaderLaw unit :=
  {| reader_ok := fun _ => True; reader_unread := fun _ => []; get_line_law := one_byte_get_line |}.
End Readers.

(** * web_child *)

Section WebChild.
Context {os : OS} {SE : Strerror} {RDL : ReadLaw} {WL : WriteLaw}.
Context {R : Type} {LR : LineReader R} {LRL : LineReaderLaw R}.
Context (rfuel wfuel : nat) (sockfd : Z) (result : list Z).
Hypothesis result_size : length result = Z.to_nat MAXN.

(** How many bytes a line asks for: [atol] stops at the first NUL. *)
Definition asked (L : list Z) : Z := atoi (cstring_at (L ++ [0]) 0).

Definition valid_request (L : list Z) : Prop := 0 < asked L <= MAXN.

(** The answers to the requests. *)
Definition answers (Ls : list (list Z)) : list Z := concat ((fun L => take (Z.to_nat (asked L)) result) <$> Ls).

(** A [read] finds the end of the file after exactly the bytes [pre] of the stream that begins
    with what was unread. *)
Definition stream_ended (unread0 : list Z) (evs : list event) (pre : list Z) : Prop :=
  exists evs1 evs2, evs = evs2 ++ evs1 /\ ended_by (at_eof sockfd) evs1 /\ unread0 ++ received sockfd evs1 = pre.

(** [Ls] are the lines at the front of the stream: only the end of the file cuts one short. *)
Definition cut_into_lines (unread0 : list Z) (evs : list event) (Ls : list (list Z)) : Prop :=
  concat Ls `prefix_of` unread0 ++ received sockfd evs /\
  forall Ls1 L Ls2, Ls = Ls1 ++ L :: Ls2 ->
    whole_line MAXLINE L \/ ((10 ∉ L) /\ stream_ended unread0 evs (concat (Ls1 ++ [L]))).

Definition web_child_post (fuel : nat) (r : R) (s : st) (o : outcome R) (s' : st) : Prop :=
  exists evs Ls, trace s' = evs ++ trace s /\
    cut_into_lines (reader_unread r) evs Ls /\ Forall valid_request Ls /\
    sent sockfd evs `prefix_of` answers Ls /\
    match o with
    | Val r' => daemon_proc s' = 0 /\ reader_ok r' /\ reader_unread r' = [] /\
        stream_ended (reader_unread r) evs (concat Ls) /\
        concat Ls = reader_unread r ++ received sockfd evs /\ sent sockfd evs = answers Ls
    | Exited c => c = 1 /\
        (Exists (call_failed sockfd) evs \/
         exists L, cut_into_lines (reader_unread r) evs (Ls ++ [L]) /\ ~ valid_request L /\
           sent sockfd evs = answers Ls)
    | OutOfFuel => length Ls = fuel \/ (rfuel <= interrupts evs)%nat \/
        Z.of_nat wfuel < MAXN + Z.of_nat (interrupts evs)
    | _ => False
    end.

Lemma asked_line (L rest : list Z) : atoi (cstring_at (L ++ [0] ++ rest) 0) = asked L.
Proof using Type.
  unfold asked, cstring_at. f_equal. rewrite !drop_0. induction L as [|b L IH]; [done|]. cbn [app until_nul].
  destruct (b =? 0); [done|]. f_equal. exact IH.
Qed.

Lemma sent_of_reading fd evs : Forall (reading fd) evs -> sent sockfd evs = [].
Proof using Type.
  intros H. apply collect_nil_of. eapply Forall_impl; [done|].
  intros [c r] [[n Hn]|Ho]; cbn in *; [by subst c|]. unfold output in Ho. cbn in Ho. by destruct c.
Qed.

(** ** Lines and the stream *)

Lemma cut_nothing u evs : cut_into_lines u evs [].
Proof using Type. split; [apply prefix_nil|]. intros Ls1 L Ls2 H. by destruct Ls1. Qed.

(** A request that has been taken from the stream, before and after the others. *)
Lemma cut_cons u u' evs3 evs2 evs1 L Ls :
  is_line sockfd MAXLINE evs1 u' L -> L ++ u' = u ++ received sockfd evs1 -> received sockfd evs2 = [] ->
  cut_into_lines u' evs3 Ls -> cut_into_lines u (evs3 ++ evs2 ++ evs1) (L :: Ls).
Proof using Type.
  intros Hline Hst H2 [Hp HLs].
  assert (Est : forall e3, u ++ received sockfd (e3 ++ evs2 ++ evs1) = L ++ u' ++ received sockfd e3).
  { intros e3. unfold received in *. by rewrite !collect_app, H2, app_nil_r, !app_assoc, Hst. }
  split; [rewrite Est; cbn [concat]; by apply prefix_app|].
  intros [|L0 Ls1] L1 Ls2 E; injection E; intros.
  - subst L1 Ls2. destruct Hline as [?|(? & _ & -> & He)]; [by left|]. right. split; [done|].
    exists evs1, (evs3 ++ evs2). rewrite <- app_assoc. split_and!; [done|done|].
    rewrite <- Hst. cbn [app concat]. by rewrite !app_nil_r.
  - subst L0. destruct (HLs Ls1 L1 Ls2) as [?|(? & e1 & e2 & -> & He & Er)]; [done|by left|]. right.
    split; [done|]. exists (e1 ++ evs2 ++ evs1), e2. rewrite <- !app_assoc.
    split_and!; [done|by apply ended_by_app|]. rewrite Est, Er. done.
Qed.

Lemma ended_cons u u' evs3 evs2 evs1 L pre :
  L ++ u' = u ++ received sockfd evs1 -> received sockfd evs2 = [] ->
  stream_ended u' evs3 pre -> stream_ended u (evs3 ++ evs2 ++ evs1) (L ++ pre).
Proof using Type.
  intros Hst H2 (e1 & e2 & -> & He & <-). exists (e1 ++ evs2 ++ evs1), e2. rewrite <- !app_assoc.
  split_and!; [done|by apply ended_by_app|].
  unfold received in *. by rewrite !collect_app, H2, app_nil_r, !app_assoc, Hst.
Qed.

(** What has been sent, after one more answer. *)
Lemma sent_answer_cons evs1 evs2 evs L :
  sent sockfd evs1 = [] -> sent sockfd evs2 = take (Z.to_nat (asked L)) result ->
  sent sockfd (evs ++ evs2 ++ evs1) = take (Z.to_nat (asked L)) result ++ sent sockfd evs.
Proof using Type. intros H1 H2. unfold sent in *. by rewrite !collect_app, H1, H2. Qed.

(** A request that is out of range ends the process. *)
Lemma bad_request fuel r u' s s1 n evs1 L :
  daemon_proc s1 = 0 -> trace s1 = evs1 ++ trace s -> sent sockfd evs1 = [] ->
  is_line sockfd MAXLINE evs1 u' L -> L ++ u' = reader_unread r ++ received sockfd evs1 -> ~ valid_request L ->
  wp (err_quit c["client request for %d bytes"] [AInt n]) (web_child_post fuel r s) s1.
Proof using Type.
  intros Hd Ht Hs Hline Hst Hbad.
  destruct (vformat_int c["client request for "] c[" bytes"] n eq_refl eq_refl) as [Hv Hn].
  unfold wp. rewrite (err_quit_exits c["client request for %d bytes"] _ _ _ Hv Hn Hd).
  destruct (reported_history (report_line false (c["client request for "] ++ print_d n ++ c[" bytes"]) (errno s1)) s1)
    as (evs & Ht' & _ & Hq). destruct (Hq sockfd) as [Hq1 Hq2].
  assert (Hsent : sent sockfd (evs ++ evs1) = []) by (unfold sent in *; by rewrite collect_app, Hs, Hq2).
  exists (evs ++ evs1), []. rewrite Hsent.
  split_and!; [by rewrite Ht', Ht, app_assoc|apply cut_nothing|by constructor|apply prefix_nil|done|].
  right. exists L. split_and!; [|done|done].
  apply (cut_cons (reader_unread r) u' [] evs evs1 L []); [done|done|done|apply cut_nothing].
Qed.

Lemma web_child_spec fuel r line s :
  reader_ok r -> length line = Z.to_nat MAXLINE -> daemon_proc s = 0 ->
  wp (web_child rfuel wfuel fuel r sockfd line result) (web_child_post fuel r s) s.
Proof using RDL WL LRL result_size.
  revert r line s. induction fuel as [|f IH]; intros r line s Hok Hline Hd; cbn [web_child].
  { exists [], []. split_and!; [done|apply cut_nothing|by constructor|apply prefix_nil|by left]. }
  apply wp_then. eapply wp_mono; [apply get_line_law; [done|rewrite Hline; done|done]|].
  intros o s1 (evs1 & Ht1 & Hev1 & Ho). pose proof (sent_of_reading _ _ Hev1) as Hs1.
  assert (Hnone : forall o', match o' with Exited c => c = 1 /\ Exists (call_failed sockfd) evs1
      | OutOfFuel => (rfuel <= interrupts evs1)%nat | _ => False end -> web_child_post (S f) r s o' s1).
  { intros o' Ho'. exists evs1, []. rewrite Hs1.
    split_and!; [done|apply cut_nothing|by constructor|apply prefix_nil|].
    destruct o'; try done; [split; [apply Ho'|left; apply Ho']|by right; left]. }
  destruct o as [[[k line'] r']|c| | |]; cbn [andthen]; try done; [|by apply Hnone|by apply Hnone]. clear Hnone.
  destruct Ho as (Hd1 & Hok' & Hl' & L & HL & Hcase).
  destruct Hcase as [(-> & -> & Hu & He)|(Hk & HLn & Hisl & Hv)].
  { cbn [Z.eqb]. exists evs1, []. rewrite Hs1. rewrite Hu in HL. cbn in HL.
    split_and!; [done|apply cut_nothing|by constructor|apply prefix_nil|done|done|done| |done|done].
    exists evs1, []. by rewrite <- HL. }
  destruct (Z.eqb_spec k 0) as [|_]; [done|]. rewrite Hv, asked_line, <- Hv.
  destruct (Z.leb_spec (asked L) 0) as [Hbad|Hpos]; [eapply bad_request; try done; unfold valid_request; lia|].
  destruct (Z.gtb_spec (asked L) MAXN) as [Hbad|Hmax]; [eapply bad_request; try done; unfold valid_request; lia|].
  cbn [orb]. assert (Hvr : valid_request L) by (split; lia).
  apply wp_then. eapply wp_mono; [apply Writen_spec; [rewrite result_size; lia|done]|].
  intros o s2 (evs2 & Ht2 & Hw2 & Hp2 & Ho). unfold slice in *. rewrite drop_0 in *.
  pose proof (received_of_writing _ sockfd _ Hw2) as Hr2.
  assert (Hone : forall o', match o' with Exited c => c = 1 /\ Exists (call_failed sockfd) evs2
      | OutOfFuel => Z.of_nat wfuel < MAXN + Z.of_nat (interrupts evs2) | _ => False end ->
      web_child_post (S f) r s o' s2).
  { intros o' Ho'. exists (evs2 ++ evs1), [L].
    split_and!; [by rewrite Ht2, Ht1, app_assoc|..].
    - apply (cut_cons _ (reader_unread r') [] evs2 evs1 L []); [done|done|done|apply cut_nothing].
    - by constructor.
    - unfold answers, sent in *. cbn [fmap list_fmap concat]. by rewrite collect_app, Hs1, app_nil_r.
    - destruct o'; try done.
      + split; [apply Ho'|]. left. apply Exists_app. left. apply Ho'.
      + right. right. rewrite interrupts_app. lia. }
  destruct o as [[]|c| | |]; cbn [andthen]; try done; [|by apply Hone|].
  2: { apply Hone. rewrite length_take in Ho. lia. }
  clear Hone. destruct Ho as [Hs2 Hd2].
  eapply wp_mono; [apply (IH r' line' s2); [done|by rewrite Hl'|congruence]|].
  intros o s3 (evs3 & Ls & Ht3 & Hcut & HF & Hs3 & Ho). exists (evs3 ++ evs2 ++ evs1), (L :: Ls).
  rewrite (sent_answer_cons evs1 evs2 evs3 L) by done.
  split_and!; [by rewrite Ht3, Ht2, Ht1, <- !app_assoc|by eapply cut_cons|by constructor| |].
  { unfold answers. cbn [fmap list_fmap concat]. by apply prefix_app. }
  destruct o as [r''|c| | |]; try done.
  - destruct Ho as (? & ? & ? & Hend & Hc & Hs). split_and!; try done.
    + cbn [concat]. by eapply ended_cons.
    + cbn [concat]. rewrite Hc. unfold received in *. by rewrite !collect_app, Hr2, app_nil_r, !app_assoc, HL.
    + by rewrite Hs.
  - destruct Ho as [-> [Hx|(L1 & Hc & Hb & Hs)]]; split; try done.
    + left. apply Exists_app. by left.
    + right. exists L1. split_and!; [|done|by rewrite Hs]. by apply (cut_cons _ (reader_unread r')).
  - rewrite !interrupts_app. cbn [length]. lia.
Qed.
End WebChild.
