(* ===== verification/WebServerClaims.v ===== *)
(** What a client of the servers of [server/] gets, and how the line readers relate. *)

From S2P Require Import Prelude CText Sys Traces Error Wrappers RobustIO StreamFacts.
From S2P Require Import StreamClaims Servers WebServer WebServerFacts.

(** * Two programs that make the same calls *)

(** From [s] both programs make the same calls and end in the same state, with outcomes of the
    same kind; values are related by [P]. *)
Definition in_step {A B} (P : A -> B -> st -> Prop) (m1 : M A) (m2 : M B) (s : st) : Prop :=
  let '(o1, s1) := m1 s in let '(o2, s2) := m2 s in
  s1 = s2 /\
  match o1, o2 with
  | Val a, Val b => P a b s1
  | Exited c, Exited d => c = d
  | Aborted, Aborted | Undefined, Undefined | OutOfFuel, OutOfFuel => True
  | _, _ => False
  end.

Section InStep.
Context {os : OS}.

Lemma in_step_then {A B A' B'} (P : A -> B -> st -> Prop) (Q : A' -> B' -> st -> Prop) m1 m2 k1 k2 s :
  in_step P m1 m2 s -> (forall a b s', P a b s' -> in_step Q (k1 a) (k2 b) s') ->
  in_step Q (mthen m1 k1) (mthen m2 k2) s.
Proof.
  unfold in_step, mthen. destruct (m1 s) as [o1 s1], (m2 s) as [o2 s2]. intros [-> H] Hk.
  destruct o1, o2; try done. by apply Hk.
Qed.

Lemma in_step_pure {A B} (P : A -> B -> st -> Prop) a b s : P a b s -> in_step P (mpure a) (mpure b) s.
Proof. done. Qed.

Lemma in_step_sys {A B} (P : A -> B -> st -> Prop) c k1 k2 s :
  (forall r, r = answer c s -> in_step P (k1 r) (k2 r) (after c r s)) ->
  in_step P (mthen (sys c) k1) (mthen (sys c) k2) s.
Proof. intros H. apply (H (answer c s) eq_refl). Qed.

Lemma in_step_checked {A B C} (P : A -> B -> st -> Prop) (x : option C) k1 k2 s :
  (forall a, x = Some a -> in_step P (k1 a) (k2 a) s) ->
  in_step P (mthen (checked x) k1) (mthen (checked x) k2) s.
Proof. intros H. destruct x as [a|]; [by apply H|done]. Qed.

Lemma in_step_errno {A B} (P : A -> B -> st -> Prop) k1 k2 s :
  in_step P (k1 (errno s)) (k2 (errno s)) s ->
  in_step P (mthen get_errno k1) (mthen get_errno k2) s.
Proof. done. Qed.

(** Facts about the second program alone. *)
Lemma in_step_wp {A B} (P : A -> B -> st -> Prop) (R : outcome B -> st -> Prop) m1 m2 s :
  in_step P m1 m2 s -> wp m2 R s -> in_step (fun a b s' => P a b s' /\ R (Val b) s') m1 m2 s.
Proof.
  unfold in_step, wp. destruct (m1 s) as [o1 s1], (m2 s) as [o2 s2]. intros [-> H] HR.
  split; [done|]. destruct o1, o2; done.
Qed.
End InStep.

(** * readline_r and readline *)

Section Reentrant.
Context {os : OS} {SE : Strerror} {RDL : ReadLaw}.

(** The part of an [Rline] that corresponds to the static variables of [lib/readline.c]. *)
Definition to_rl (r : Rline) : rline := RL (rl_cnt r) (rl_bufptr r) (rl_buf r).

Definition same_buffer (r0 r : Rline) (rl : rline) : Prop :=
  to_rl r = rl /\ read_fd r = read_fd r0 /\ bytes_ok (rl_buf r).

Lemma memcpy_bytes (buf d buf' : list Z) off :
  memcpy buf off d = Some buf' -> bytes_ok buf -> bytes_ok d -> bytes_ok buf'.
Proof.
  unfold memcpy. case_decide; [|done]. intros [= <-] Hb Hd.
  rewrite !Forall_app. split_and!; [by apply Forall_take|done|by apply Forall_drop].
Qed.

Lemma my_read_r_fill_in_step fuel r s :
  bytes_ok (rl_buf r) ->
  in_step (fun a b _ => a.1 = b.1 /\ same_buffer r a.2 b.2)
    (my_read_r_fill fuel r) (my_read_fill fuel (to_rl r) (read_fd r)) s.
Proof.
  revert r s. induction fuel as [|f IH]; intros r s Hb; [done|]. cbn [my_read_r_fill my_read_fill].
  apply in_step_sys. intros a Ea. cbn [read_buf to_rl].
  assert (Hd : bytes_ok (rbytes a)).
  { rewrite Ea. apply (read_law (trace s) (read_fd r) MAXLINE). done. }
  apply in_step_checked. intros buf Hm. pose proof (memcpy_bytes _ _ _ _ Hm Hb Hd) as Hb'.
  destruct (rv a <? 0); [|destruct (rv a =? 0); by apply in_step_pure].
  apply in_step_errno. destruct (_ =? EINTR); [|by apply in_step_pure].
  exact (IH (set_rl r (rv a) (rl_bufptr r) buf) _ Hb').
Qed.

Lemma my_read_r_in_step fuel r s :
  bytes_ok (rl_buf r) ->
  in_step (fun a b _ => a.1 = b.1 /\ same_buffer r a.2 b.2)
    (my_read_r fuel r) (my_read fuel (to_rl r) (read_fd r)) s.
Proof.
  intros Hb. unfold my_read_r, my_read. cbn [read_cnt to_rl].
  eapply (in_step_then (fun a b _ => a.1 = b.1 /\ same_buffer r a.2 b.2)).
  { destruct (rl_cnt r <=? 0); [by apply my_read_r_fill_in_step|by apply in_step_pure]. }
  intros [rc r1] [rc' rl1] s1 [Hrc (Hrl & Hfd & Hb1)]. cbn [fst snd] in *. subst rc' rl1.
  destruct (rc =? 1); [|by apply in_step_pure]. cbn [read_buf read_ptr to_rl].
  apply in_step_checked. intros c Hc. apply in_step_pure. cbn [fst snd]. split; [|done].
  f_equal. assert (0 <= c < 256) by (eapply (Forall_lookup_1 _ _ _ _ Hb1 Hc)).
  change 255 with (Z.ones 8). rewrite Z.land_ones by lia. by apply Z.mod_small.
Qed.

Lemma store_length {A} (l l' : list A) i v : store l i v = Some l' -> length l' = length l.
Proof. unfold store. case_decide; [|done]. intros [= <-]. apply length_insert. Qed.

(** How the results relate: at the end of the file [readline_r] counts the NUL. *)
Definition same_line (line : list Z) (n : Z) (r0 : Rline) (a : Z * list Z * Rline) (b : Z * list Z * rline)
    (s' : st) : Prop :=
  let '(k, line', r') := a in let '(k2, line2, rl2) := b in
  same_buffer r0 r' rl2 /\
  ((k = k2 /\ line' = line2) \/
   (k = k2 + 1 /\ line' = line2 /\ 1 < k /\ ended_by is_eof (trace s')) \/
   (n = 1 /\ k = 0 /\ k2 = 0 /\ line' = line /\ ended_by is_eof (trace s'))).

Lemma readline_r_loop_in_step fuel left r line ptr n s :
  bytes_ok (rl_buf r) -> rline_ok (to_rl r) -> 1 <= n -> (ptr + left < length line)%nat ->
  in_step (same_line line n r)
    (readline_r_loop fuel left r line ptr n)
    (readline_loop fuel left (to_rl r) (read_fd r) line ptr n) s.
Proof.
  revert r line ptr n s. induction left as [|left IH]; intros r line ptr n s Hb Hok Hn Hl;
    cbn [readline_r_loop readline_loop].
  { apply in_step_checked. intros v _. apply in_step_pure. split; [done|by left]. }
  eapply in_step_then; [apply in_step_wp; [by apply my_read_r_in_step|by apply my_read_spec]|].
  intros [[rc c] r1] [[rc' c'] rl1] s1 [[Heq (Hrl & Hfd & Hb1)] (evs & Ht & _ & _ & Hok1 & Hcase)].
  cbn [fst snd] in *. injection Heq as <- <-. subst rl1.
  destruct (rc =? 1) eqn:Erc; [|destruct (rc =? 0) eqn:Erc0].
  - apply in_step_checked. intros v1 Hv1. destruct (c =? 10).
    + apply in_step_checked. intros v2 _. apply in_step_pure. split; [done|by left].
    + rewrite <- Hfd. specialize (IH r1 v1 (S ptr) (n + 1) s1 Hb1 Hok1 ltac:(lia)).
      rewrite (store_length _ _ _ _ Hv1) in IH. specialize (IH ltac:(lia)).
      unfold in_step in *. destruct (readline_r_loop _ _ _ _ _ _ _) as [o1 s2], (readline_loop _ _ _ _ _ _ _ _) as [o2 s2'].
      destruct IH as [-> IH]. split; [done|].
      destruct o1 as [[[k l1] r2]| | | |], o2 as [[[k2 l2] rl2]| | | |]; try done.
      destruct IH as [(? & ? & ?) IH]. split; [split_and!; congruence|].
      destruct IH as [?|[?|(? & _)]]; [by left|by right; left|lia].
  - apply Z.eqb_eq in Erc0. subst rc.
    assert (He : ended_by is_eof (trace s1)).
    { rewrite Ht. apply ended_by_app. destruct Hcase as [[? _]|[(_ & _ & _ & ?)|[? _]]]; done. }
    destruct (Z.eqb_spec n 1) as [->|Hn1].
    + unfold store. rewrite decide_True by lia. apply in_step_pure. split; [done|]. by right; right.
    + apply in_step_checked. intros v _. apply in_step_pure. split; [done|]. right. left. split_and!; try done; lia.
  - apply in_step_pure. split; [done|by left].
Qed.

(** The reentrant [readline_r] reads like the library's [readline].  From the same buffer
    contents and the same state, for every behaviour of [read], the two make the same calls in
    the same order and leave the same buffer contents, so that no byte of the stream is read
    twice or skipped whichever of them is used; the line that is stored and the value returned
    are the same, except at the end of the file: there [readline_r] counts the terminating NUL
    when some data was read, and stores nothing when there was none. *)
Theorem readline_r_agrees fuel r line s :
  bytes_ok (rl_buf r) -> rline_ok (to_rl r) -> 1 <= read_maxlen r <= Z.of_nat (length line) ->
  let '(o, s') := readline_r fuel r line s in
  let '(o2, s2) := readline fuel (to_rl r) (read_fd r) line (read_maxlen r) s in
  s' = s2 /\
  match o, o2 with
  | Val (k, line', r'), Val (k2, line2, rl2) =>
      to_rl r' = rl2 /\
      ((k = k2 /\ line' = line2) \/
       (k = k2 + 1 /\ line' = line2 /\ 1 < k /\ ended_by is_eof (trace s')) \/
       (k = 0 /\ k2 = 0 /\ line' = line /\ ended_by is_eof (trace s')))
  | OutOfFuel, OutOfFuel => True
  | _, _ => False
  end.
Proof.
  intros Hb Hok Hm.
  pose proof (readline_r_loop_in_step fuel (Z.to_nat (read_maxlen r - 1)) r line 0 1 s Hb Hok ltac:(lia) ltac:(lia)) as H.
  pose proof (readline_loop_spec fuel (Z.to_nat (read_maxlen r - 1)) (to_rl r) (read_fd r) line 0 1 s Hok ltac:(lia)) as H2.
  unfold in_step, readline_r, readline, wp in *.
  destruct (readline_r_loop _ _ _ _ _ _ _) as [o1 s1], (readline_loop _ _ _ _ _ _ _ _) as [o2 s2].
  destruct H as [-> H], H2 as (evs & _ & _ & _ & H2). split; [done|].
  destruct o1 as [[[k l1] r2]| | | |], o2 as [[[k2 l2] rl2]| | | |]; try done.
  destruct H as [(? & _) [?|[?|(_ & ?)]]]; split; auto.
Qed.
End Reentrant.

(** * web_child *)

Section WebChild.
Context {os : OS} {SE : Strerror} {RDL : ReadLaw} {WL : WriteLaw}.
Context {R : Type} {LR : LineReader R} {LRL : LineReaderLaw R}.

(** C24: [web_child] answers every request line with exactly the number of bytes it asks for.
    With any line reader that keeps its contract (the library's [readline] and the one of
    [server/] do), in a foreground process, whatever the client and the kernel do: the requests
    answered are the lines at the front of the stream that the client sent, each up to its
    newline or [MAXLINE - 1] bytes long (only at the end of the file may the newline be
    missing) and each a number from 1 to [MAXN]; what has been sent is at every end a prefix of
    the answers to them.  When [web_child] returns, a [read] has found the end of the file
    after all of the stream, everything has been answered, and nothing is left in the reader
    for the next connection.  Otherwise it ends the process with status 1, and only because a
    [read] or [write] on the connection failed or because the next line asks for a number that
    is out of range.  It never leaves its arrays; it needs fuel only for requests and
    interrupted calls. *)
Theorem web_child_answers rfuel wfuel fuel r sockfd line result s :
  length line = Z.to_nat MAXLINE -> length result = Z.to_nat MAXN -> reader_ok r -> daemon_proc s = 0 ->
  let '(o, s') := web_child rfuel wfuel fuel r sockfd line result s in
  exists evs Ls, trace s' = evs ++ trace s /\
    cut_into_lines sockfd (reader_unread r) evs Ls /\ Forall valid_request Ls /\
    sent sockfd evs `prefix_of` answers result Ls /\
    match o with
    | Val r' => reader_ok r' /\ reader_unread r' = [] /\
        stream_ended sockfd (reader_unread r) evs (concat Ls) /\
        concat Ls = reader_unread r ++ received sockfd evs /\ sent sockfd evs = answers result Ls
    | Exited c => c = 1 /\
        (Exists (call_failed sockfd) evs \/
         exists L, cut_into_lines sockfd (reader_unread r) evs (Ls ++ [L]) /\ ~ valid_request L /\
           sent sockfd evs = answers result Ls)
    | OutOfFuel => length Ls = fuel \/ (rfuel <= interrupts evs)%nat \/
        Z.of_nat wfuel < MAXN + Z.of_nat (interrupts evs)
    | _ => False
    end.
Proof.
  intros Hline Hres Hok Hd.
  pose proof (web_child_spec rfuel wfuel sockfd result Hres fuel r line s Hok Hline Hd) as H.
  unfold wp in H. destruct (web_child _ _ _ _ _ _ _ s) as [o s'].
  destruct H as (evs & Ls & Ht & Hc & HF & Hs & Ho). exists evs, Ls. split_and!; try done.
  destruct o; try done. by destruct Ho as (_ & ?).
Qed.
End WebChild.

(** * Runs *)

#[local] Existing Instance numeric_strerror.

Definition two_requests : list Z := c["3"] ++ [10] ++ c["2"] ++ [10].

Lemma web_child_answers_witness :
  let os := stream_os two_requests 5 in
  let s' := (web_child 3 30 5 rline_init 4 (replicate (Z.to_nat MAXLINE) 0) (replicate (Z.to_nat MAXN) 120) init).2 in
  sent 4 (trace s') = replicate 5 120 /\
  exists evs Ls, trace s' = evs ++ [] /\ cut_into_lines 4 [] evs Ls /\ Forall valid_request Ls /\
    sent 4 evs `prefix_of` answers (replicate (Z.to_nat MAXN) 120) Ls.
Proof.
  intros os. pose proof (stream_os_read two_requests 5 (bytes_ok_bool two_requests eq_refl)) as RDL.
  pose proof (stream_os_write two_requests 5) as WL. pose (LRL := library_reader_law (os := os)).
  pose proof (web_child_answers (os := os) (LRL := LRL) 3 30 5 rline_init 4 (replicate (Z.to_nat MAXLINE) 0)
    (replicate (Z.to_nat MAXN) 120) init (length_replicate _ _) (length_replicate _ _) rline_init_ok eq_refl) as H.
  cbv zeta. split; [vm_compute; reflexivity|].
  destruct (web_child 3 30 5 rline_init 4 _ _ init) as [o s'].
  destruct H as (evs & Ls & Ht & Hc & HF & Hs & _). exists evs, Ls.
  split; [exact Ht|]. split; [exact Hc|]. split; [exact HF|exact Hs].
Defined.

Lemma readline_r_agrees_witness :
  let os := stream_os two_requests 5 in
  let r := readline_rinit 4 MAXLINE (replicate (Z.to_nat MAXLINE) 0) in
  (readline_r 3 r (replicate (Z.to_nat MAXLINE) 0) init).2 =
  (readline 3 (to_rl r) 4 (replicate (Z.to_nat MAXLINE) 0) MAXLINE init).2.
Proof.
  intros os r. pose proof (stream_os_read two_requests 5 (bytes_ok_bool two_requests eq_refl)) as RDL.
  pose proof (readline_r_agrees (os := os) 3 r (replicate (Z.to_nat MAXLINE) 0) init) as H.
  specialize (H ltac:(by apply Forall_replicate) rline_init_ok ltac:(by rewrite length_replicate)).
  cbn [read_fd read_maxlen r readline_rinit] in H.
  destruct (readline_r 3 r _ init) as [o s'], (readline 3 (to_rl r) 4 _ MAXLINE init) as [o2 s2].
  destruct H as [-> _]. reflexivity.
Defined.

(** * A count that is one too high

    At the end of the file both readers of [server/] return one more than the number of bytes
    that were read. *)
Lemma server_readline_counts_nul :
  let os := stream_os c["ab"] 5 in
  let line := replicate (Z.to_nat MAXLINE) 0 in
  let s := after (sys_getpid) (ok 7) init in
  (match (OneByte.readline 4 line MAXLINE s).1 with Val (n, l) => (n, take 3 l) | _ => (0, []) end) = (3, c["ab"] ++ [0]) /\
  (match (readline_r 3 (readline_rinit 4 MAXLINE line) line s).1 with Val (n, l, _) => (n, take 3 l) | _ => (0, []) end)
    = (3, c["ab"] ++ [0]) /\
  (match (readline 3 rline_init 4 line MAXLINE s).1 with Val (n, l, _) => (n, take 3 l) | _ => (0, []) end) = (2, c["ab"] ++ [0]).
Proof. vm_compute. split_and!; reflexivity. Qed.
