(* ===== verification/PassServer.v ===== *)
(** The preforked server that passes descriptors to its children: [server/serv05.c],
    [server/child05.c], [server/child.h].

    The parent accepts the connections and hands each one over a stream pipe to a child that is
    available; a child that has served a connection writes one byte to its pipe.  [main] is
    modelled from the listening descriptor on, which [Tcp_listen] returns. *)

From S2P Require Import Prelude CText Sys Error Wrappers SockUtil RobustIO Servers WebServer.

Record Child : Type := MkChild {
  child_pid : Z;            (* process ID *)
  child_pipefd : Z;         (* parent's stream pipe to/from child *)
  child_status : Z;         (* 0 = ready *)
  child_count : Z;          (* # connections handled *)
}.

(** The variables of the parent. *)
Record parent : Type := Parent {
  cptr : list Child;
  navail : Z;
  maxfd : Z;
  masterset : list Z;
}.

Definition STDERR_FILENO : Z := 2.
Definition SIGINT : Z := 2.

Section PassServer.
Context {os : OS} {SE : Strerror} {R : Type} {LR : LineReader R}.
Context (listenfd addrlen : Z).

(** ** child05.c *)

(** The loop of [child_main]; [line] and [result] are the arrays of [web_child], [r] the state of
    its reader; [rounds] connections. *)
Fixpoint child_loop (rfuel wfuel fuel rounds : nat) (r : R) (line result : list Z) : M R :=
  match rounds with
  | O => mpure r
  | S k =>
      q <~ Read_fd STDERR_FILENO 1 ;;
      let '(n, _, connfd) := q in
      if n =? 0 then err_quit c["read_fd returned 0"] []
      else
        connfd <~ checked connfd ;;
        if connfd <? 0 then err_quit c["no descriptor from read_fd"] []
        else
          r <~ web_child rfuel wfuel fuel r connfd line result ;;   (* process request *)
          Close connfd ;;;
          Write STDERR_FILENO [0] ;;;                               (* tell parent we're ready again *)
          child_loop rfuel wfuel fuel k r line result
  end.

Definition child_main05 (rfuel wfuel fuel rounds : nat) (r : R) (line result : list Z) : M R :=
  pid <~ sys sys_getpid ;;
  text <~ checked (vformat c["child %ld starting"] [AInt (rv pid)]) ;;
  sys (sys_fputs (text ++ [10]) stdout) ;;;
  child_loop rfuel wfuel fuel rounds r line result.

(** [child_make]: [Next] in the parent, with the table; in the child, [child], which is
    [child_main], and [Return]. *)
Definition child_make (child : M unit) (i : nat) (cptr : list Child) : M (flow (list Child) unit) :=
  sockfd <~ Socketpair AF_LOCAL SOCK_STREAM 0 ;;
  sock0 <~ checked (sockfd !! 0%nat) ;;
  sock1 <~ checked (sockfd !! 1%nat) ;;
  pid <~ Fork ;;
  if pid >? 0 then
    Close sock1 ;;;
    old <~ checked (cptr !! i) ;;
    cptr <~ checked (store cptr i (MkChild pid sock0 0 (child_count old))) ;;
    mpure (Next cptr)                                  (* parent *)
  else
    Dup2 sock1 STDERR_FILENO ;;;                       (* child's stream pipe to parent *)
    Close sock0 ;;;
    Close sock1 ;;;
    Close listenfd ;;;                                 (* child does not need this open *)
    child ;;; mpure (Return tt).

(** ** serv05.c *)

(** Prefork all the children: [todo] values of [i] remain. *)
Fixpoint prefork (child : M unit) (idx : list nat) (p : parent) : M (flow parent unit) :=
  match idx with
  | [] => mpure (Next p)
  | i :: idx' =>
      f <~ child_make child i (cptr p) ;;              (* parent returns *)
      match f with
      | Return _ => mpure (Return tt)
      | Next cptr' | Break cptr' =>
          ch <~ checked (cptr' !! i) ;;
          masterset' <~ checked (FD_SET (child_pipefd ch) (masterset p)) ;;
          prefork child idx' (Parent cptr' (navail p) (Z.max (maxfd p) (child_pipefd ch)) masterset')
      end
  end.

(** [for (i = 0; i < nchildren; i++) if (cptr[i].child_status == 0) break;] *)
Fixpoint available_child (cptr : list Child) : nat :=
  match cptr with
  | [] => 0
  | ch :: cptr' => if child_status ch =? 0 then 0 else S (available_child cptr')
  end.

(** The new connection. *)
Definition pass_connection (afuel : nat) (p : parent) : M parent :=
  a <~ Accept afuel listenfd true ;;
  let connfd := rv a in
  let i := available_child (cptr p) in
  if (i =? length (cptr p))%nat then err_quit c["no available children"] []
  else
    ch <~ checked (cptr p !! i) ;;
    cptr' <~ checked (store (cptr p) i
               (MkChild (child_pid ch) (child_pipefd ch) 1 (child_count ch + 1))) ;;   (* mark child as busy *)
    Write_fd (child_pipefd ch) [0] 1 connfd ;;;
    Close connfd ;;;
    mpure (Parent cptr' (navail p - 1) (maxfd p) (masterset p)).

(** Find any newly-available children: the values of [i] that remain. *)
Fixpoint free_children (idx : list nat) (rset : list Z) (nsel : Z) (p : parent) : M parent :=
  match idx with
  | [] => mpure p
  | i :: idx' =>
      ch <~ checked (cptr p !! i) ;;
      ready <~ checked (FD_ISSET (child_pipefd ch) rset) ;;
      if ready : bool then
        n <~ Read (child_pipefd ch) 1 ;;
        if rv n =? 0 then err_quit c["child %d terminated unexpectedly"] [AInt (Z.of_nat i)]
        else
          cptr' <~ checked (store (cptr p) i (MkChild (child_pid ch) (child_pipefd ch) 0 (child_count ch))) ;;
          let p := Parent cptr' (navail p + 1) (maxfd p) (masterset p) in
          if nsel - 1 =? 0 then mpure p                (* all done with select() results *)
          else free_children idx' rset (nsel - 1) p
      else free_children idx' rset nsel p
  end.

(** One iteration of [for ( ; ; )]. *)
Definition pass_round (afuel : nat) (p : parent) : M parent :=
  rset <~ checked (if navail p <=? 0 then FD_CLR listenfd (masterset p) else Some (masterset p)) ;;
  r <~ Select (maxfd p + 1) rset [] [] None ;;
  let rset := rset_of r in
  let nsel := rv r in
  new <~ checked (FD_ISSET listenfd rset) ;;           (* check for new connections *)
  if new : bool then
    p <~ pass_connection afuel p ;;
    if nsel - 1 =? 0 then mpure p                      (* all done with select() results *)
    else free_children (seq 0 (length (cptr p))) rset (nsel - 1) p
  else free_children (seq 0 (length (cptr p))) rset nsel p.

Fixpoint pass_loop (afuel rounds : nat) (p : parent) : M parent :=
  match rounds with
  | O => mpure p
  | S k => p <~ pass_round afuel p ;; pass_loop afuel k p
  end.

(** [main] from the listening descriptor on, observed after [rounds] iterations; [sig_int] is the
    address of the handler. *)
Definition pass_server (child : M unit) (sig_int : Z) (nchildren afuel rounds : nat) : M (flow parent unit) :=
  masterset <~ checked (FD_SET listenfd []) ;;
  Malloc addrlen ;;;
  Calloc (Z.of_nat nchildren) 24 ;;;
  let cptr := replicate nchildren (MkChild 0 0 0 0) in
  f <~ prefork child (seq 0 nchildren) (Parent cptr (Z.of_nat nchildren) listenfd masterset) ;;
  match f with
  | Return _ => mpure (Return tt)
  | Next p | Break p =>
      Signal SIGINT sig_int ;;;
      p <~ pass_loop afuel rounds p ;;
      mpure (Next p)
  end.

End PassServer.
