(* ===== verification/PassClaims.v ===== *)
(** The server that passes descriptors: its table of children is right, every connection accepted has been handed
    to exactly one child and is closed in the parent; and what the server guarantees from the creation of its
    children on. *)

From S2P Require Import Prelude CText Sys Traces Error Wrappers SockUtil RobustIO StreamFacts Servers.
From S2P Require Import WebServer PassServer.

(** * What the history says *)

(** Connections accepted; descriptors handed over; and to which pipe. *)
Definition accept_of (e : event) : list Z :=
  match e.1 with sys_accept _ _ => if 0 <=? rv e.2 then [rv e.2] else [] | _ => [] end.
Definition hand_of (e : event) : list Z :=
  match e.1 with
  | sys_sendmsg _ _ _ rights _ => if 0 <=? rv e.2 then drop 3 rights else []
  | _ => []
  end.
Definition pass_of (fd : Z) (e : event) : list Z :=
  match e.1 with
  | sys_sendmsg fd' _ _ rights _ => if (fd' =? fd) && (0 <=? rv e.2) then drop 3 rights else []
  | _ => []
  end.
Definition accepted_fds := collect accept_of.
Definition handed_fds := collect hand_of.
Definition passed (fd : Z) (h : list event) : nat := length (collect (pass_of fd) h).
Definition returned (fd : Z) (h : list event) : nat := length (received fd h).

(** The descriptors of the stream pipes. *)
Definition pipe_of (e : event) : list Z :=
  match e.1 with sys_socketpair _ _ _ => if 0 <=? rv e.2 then rints e.2 else [] | _ => [] end.
Definition pipe_ends := collect pipe_of.

(** The connections that are open in the parent. *)
Fixpoint open_conns (h : list event) : list Z :=
  match h with
  | [] => []
  | (c, r) :: h' =>
      match c with
      | sys_accept _ _ => if 0 <=? rv r then rv r :: open_conns h' else open_conns h'
      | sys_close fd => filter (fun x => x <> fd) (open_conns h')
      | _ => open_conns h'
      end
  end.

(** Calls that change none of these. *)
Definition idle (e : event) : bool :=
  match e.1 with
  | sys_accept _ _ => rv e.2 <? 0
  | sys_sendmsg _ _ _ _ _ | sys_read _ _ | sys_close _ | sys_socketpair _ _ _ => false
  | _ => true
  end.

Definition same_history (h h' : list event) : Prop :=
  accepted_fds h' = accepted_fds h /\ handed_fds h' = handed_fds h /\ open_conns h' = open_conns h /\
  pipe_ends h' = pipe_ends h /\
  forall fd, passed fd h' = passed fd h /\ returned fd h' = returned fd h.

Lemma idle_history e h : idle e = true -> same_history h (e :: h).
Proof.
  destruct e as [c r]. intros He.
  assert (accept_of (c, r) = [] /\ hand_of (c, r) = [] /\ open_conns ((c, r) :: h) = open_conns h /\
    pipe_of (c, r) = [] /\ forall fd, pass_of fd (c, r) = [] /\ read_data fd (c, r) = []) as (H1 & H2 & H3 & H5 & H4).
  { destruct c; try done; cbn in He |- *; destruct (Z.ltb_spec (rv r) 0), (Z.leb_spec 0 (rv r)); done || lia. }
  unfold same_history, accepted_fds, handed_fds, passed, returned, received.
  split; [by rewrite collect_cons, H1, app_nil_r|]. split; [by rewrite collect_cons, H2, app_nil_r|].
  split; [exact H3|]. split; [unfold pipe_ends; by rewrite collect_cons, H5, app_nil_r|].
  intros fd. rewrite !collect_cons. destruct (H4 fd) as [-> ->]. by rewrite !app_nil_r.
Qed.

Lemma same_history_trans h1 h2 h3 : same_history h1 h2 -> same_history h2 h3 -> same_history h1 h3.
Proof.
  intros (A1 & B1 & C1 & E1 & D1) (A2 & B2 & C2 & E2 & D2). unfold same_history. rewrite A2, B2, C2, E2, A1, B1, C1, E1.
  split_and!; try done. intros fd. destruct (D1 fd), (D2 fd). split; congruence.
Qed.

Lemma idle_histories evs h : Forall (fun e => idle e = true) evs -> same_history h (evs ++ h).
Proof.
  induction 1 as [|e evs He _ IH]; [done|]. eapply same_history_trans; [exact IH|by apply idle_history].
Qed.

Lemma output_idle evs : Forall output evs -> Forall (fun e => idle e = true) evs.
Proof. intros H. eapply Forall_impl; [exact H|]. by intros [[] r]. Qed.

(** At every moment: what was handed over had been accepted, in order. *)
Definition handing (h : list event) : Prop := handed_fds h `prefix_of` accepted_fds h.

Lemma handing_same h h' : same_history h h' -> handing h -> handing h'.
Proof. intros (A & B & _) H. unfold handing. by rewrite A, B. Qed.

Lemma handing_output evs h : Forall output evs -> handing h -> handing (evs ++ h).
Proof. intros He. apply handing_same. by apply idle_histories, output_idle. Qed.

(** * The table of children *)

Definition ready (ch : Child) : bool := child_status ch =? 0.
Definition available (cptr : list Child) : nat := length (filter (fun ch => ready ch) cptr).

(** A busy child has been handed one connection more than it has reported back. *)
Definition child_ok (h : list event) (ch : Child) : Prop :=
  0 <= child_pipefd ch < FD_SETSIZE /\ child_pipefd ch ∈ pipe_ends h /\
  ((child_status ch = 0 /\ passed (child_pipefd ch) h = returned (child_pipefd ch) h) \/
   (child_status ch = 1 /\ passed (child_pipefd ch) h = S (returned (child_pipefd ch) h))) /\
  child_count ch = Z.of_nat (passed (child_pipefd ch) h).

Record parent_ok (listenfd : Z) (p : parent) (h : list event) : Prop := {
  po_listen : 0 <= listenfd < FD_SETSIZE;
  po_distinct : NoDup (child_pipefd <$> cptr p);
  po_set : forall x, x ∈ masterset p <-> x = listenfd \/ x ∈ child_pipefd <$> cptr p;
  po_maxfd : forall x, x ∈ masterset p -> x <= maxfd p;
  po_avail : navail p = Z.of_nat (available (cptr p));
  po_children : Forall (child_ok h) (cptr p);
}.

(** Between two iterations. *)
Record passing (listenfd : Z) (p : parent) (s : st) : Prop := {
  pa_foreground : daemon_proc s = 0;
  pa_ok : parent_ok listenfd p (trace s);
  pa_handed : handed_fds (trace s) = accepted_fds (trace s);
  pa_closed : open_conns (trace s) = [];
}.

Lemma available_insert cptr i ch ch' :
  cptr !! i = Some ch ->
  (available (<[i := ch']> cptr) + (if ready ch then 1 else 0) =
   available cptr + (if ready ch' then 1 else 0))%nat.
Proof.
  intros Hi. pose proof (lookup_lt_Some _ _ _ Hi) as Hlt. unfold available.
  rewrite insert_take_drop by done. rewrite <- (take_drop_middle cptr i ch Hi) at 3.
  rewrite !filter_app, !length_app, !filter_cons.
  destruct (ready ch), (ready ch'); repeat case_decide; cbn [length]; try done; lia.
Qed.

Lemma available_child_spec cptr :
  (0 < available cptr)%nat ->
  exists ch, cptr !! available_child cptr = Some ch /\ child_status ch = 0.
Proof.
  induction cptr as [|ch cptr IH]; [cbn; lia|]. unfold available. rewrite filter_cons. cbn [available_child].
  destruct (Z.eqb_spec (child_status ch) 0) as [E|E].
  - intros _. by exists ch.
  - rewrite decide_False; [exact IH|]. unfold ready. rewrite (proj2 (Z.eqb_neq _ _) E). by intros [].
Qed.

(** * The steps of the parent *)

(** A child reports once for each connection it was handed (see [child_loop]): while it has
    reported all of them, its pipe delivers no byte. *)
Class ChildLaw `{OS} : Prop :=
  child_law : forall h fd, fd ∈ pipe_ends h -> 0 < rv (os_answer h (sys_read fd 1)) ->
    (returned fd h < passed fd h)%nat.

Lemma child_ok_same h h' ch : same_history h h' -> child_ok h ch -> child_ok h' ch.
Proof.
  intros (_ & _ & _ & E & D) Hc. destruct (D (child_pipefd ch)) as [D1 D2].
  unfold child_ok in *. by rewrite E, D1, D2.
Qed.

Lemma parent_ok_same listenfd p h h' : same_history h h' -> parent_ok listenfd p h -> parent_ok listenfd p h'.
Proof.
  intros Hs []. constructor; try done. eapply Forall_impl; [done|]. intros ch. by apply child_ok_same.
Qed.

Lemma passing_same listenfd p s s' :
  passing listenfd p s -> same_history (trace s) (trace s') -> daemon_proc s' = daemon_proc s -> passing listenfd p s'.
Proof.
  intros [Hd Ho Hh Hc] Hs Hd'. pose proof Hs as (A & B & C & _). constructor.
  - congruence.
  - by eapply parent_ok_same.
  - congruence.
  - congruence.
Qed.

Section Steps.
Context {os : OS} {SE : Strerror} {RDL : ReadLaw} {DL : DescriptorLaw} {CL : ChildLaw} {SL : SelectLaw}.
Context (listenfd : Z) (afuel : nat).

Definition few_aborts (h : list event) : Prop := (afuel <= aborted h)%nat.
Abbreviation goes := (ends handing few_aborts).

Lemma passing_handing p s : passing listenfd p s -> handing (trace s).
Proof. intros []. unfold handing. by rewrite pa_handed0. Qed.

(** A call without effect on the invariant. *)
Lemma passing_call p c bad msg (Q : sysret -> st -> Prop) s :
  passing listenfd p s -> idle (c, answer c s) = true -> plain msg = true ->
  (forall s', passing listenfd p s' -> bad (rv (answer c s)) = false -> Q (answer c s) s') ->
  wp (call c bad msg) (goes Q) s.
Proof.
  intros Hp Hi Hm HQ. assert (Hp' : passing listenfd p (after c (answer c s) s)).
  { eapply passing_same; [done|by apply idle_history|done]. }
  apply ends_call; [apply handing_output|done|apply Hp|by eapply passing_handing|auto].
Qed.

(** The next connection. *)
Lemma accept_spec fuel p s :
  passing listenfd p s -> (afuel <= fuel + aborted (trace s))%nat ->
  wp (Accept fuel listenfd true)
    (goes (fun r s' => daemon_proc s' = 0 /\ 0 <= rv r /\ exists h, trace s' = (sys_accept listenfd true, r) :: h /\
       parent_ok listenfd p h /\ handed_fds h = accepted_fds h /\ open_conns h = [])) s.
Proof.
  revert s. induction fuel as [|fuel IH]; intros s Hp Hf; cbn [Accept].
  { split; [by eapply passing_handing|]. unfold few_aborts. lia. }
  apply wp_then, wp_sys. cbn [andthen]. set (c := sys_accept listenfd true).
  destruct (Z.ltb_spec (rv (answer c s)) 0) as [Hv|Hv].
  - assert (Hid : idle (c, answer c s) = true) by (by apply Z.ltb_lt).
    assert (Hp' : passing listenfd p (after c (answer c s) s))
      by (eapply passing_same; [done|by apply idle_history|done]).
    apply wp_then. cbn [get_errno wp andthen]. destruct (accept_again _).
    + apply IH; [done|]. cbn [after trace aborted List.filter failed_accept fst snd].
      unfold aborted in *. cbn [List.filter failed_accept fst snd c].
      rewrite (proj2 (Z.ltb_lt _ _) Hv). cbn [length]. lia.
    + apply ends_err_sys; [apply handing_output|done|apply Hp'|by eapply passing_handing].
  - apply ends_pure. destruct Hp as [Hd Ho Hh Hc]. split_and!; try done. by exists (trace s).
Qed.

(** What accepting, handing over and closing do to the history. *)
Lemma accept_effect fd r h : 0 <= rv r ->
  let h' := (sys_accept fd true, r) :: h in
  accepted_fds h' = accepted_fds h ++ [rv r] /\ handed_fds h' = handed_fds h /\
  open_conns h' = rv r :: open_conns h /\ pipe_ends h' = pipe_ends h /\
  forall x, passed x h' = passed x h /\ returned x h' = returned x h.
Proof.
  intros Hr. cbv zeta. unfold accepted_fds, handed_fds, pipe_ends, passed, returned, received.
  cbn [open_conns]. rewrite (proj2 (Z.leb_le 0 (rv r))) by done. rewrite !collect_cons.
  unfold accept_of at 2. cbn [fst snd]. rewrite (proj2 (Z.leb_le 0 (rv r))) by done.
  cbn [hand_of pipe_of fst snd]. rewrite !app_nil_r. split_and!; try done.
  intros x. rewrite !collect_cons. cbn [pass_of read_data fst snd]. by rewrite !app_nil_r.
Qed.

Lemma hand_effect fd connfd iov r h : 0 <= rv r ->
  let h' := (sys_sendmsg fd None iov [CMSG_LEN_INT; SOL_SOCKET; SCM_RIGHTS; connfd] 0, r) :: h in
  accepted_fds h' = accepted_fds h /\ handed_fds h' = handed_fds h ++ [connfd] /\
  open_conns h' = open_conns h /\ pipe_ends h' = pipe_ends h /\
  passed fd h' = S (passed fd h) /\
  (forall x, x <> fd -> passed x h' = passed x h) /\ forall x, returned x h' = returned x h.
Proof.
  intros Hr. cbv zeta. unfold accepted_fds, handed_fds, pipe_ends, passed, returned, received.
  cbn [open_conns]. rewrite !collect_cons.
  unfold hand_of at 2, pass_of at 2. cbn [fst snd]. rewrite (proj2 (Z.leb_le 0 (rv r))), Z.eqb_refl by done.
  cbn [andb drop accept_of pipe_of fst snd]. rewrite !app_nil_r, length_app. cbn [length].
  split_and!; try done; [lia|..].
  - intros x Hx. rewrite !collect_cons. cbn [pass_of fst snd]. rewrite (proj2 (Z.eqb_neq fd x)) by done. by rewrite app_nil_r.
  - intros x. rewrite collect_cons. cbn [read_data fst snd]. by rewrite app_nil_r.
Qed.

Lemma close_effect fd r h :
  let h' := (sys_close fd, r) :: h in
  accepted_fds h' = accepted_fds h /\ handed_fds h' = handed_fds h /\
  open_conns h' = filter (fun x => x <> fd) (open_conns h) /\ pipe_ends h' = pipe_ends h /\
  forall x, passed x h' = passed x h /\ returned x h' = returned x h.
Proof.
  cbv zeta. unfold accepted_fds, handed_fds, pipe_ends, passed, returned, received.
  rewrite !collect_cons. cbn [accept_of hand_of pipe_of fst snd]. rewrite !app_nil_r. split_and!; try done.
  intros x. rewrite !collect_cons. cbn [pass_of read_data fst snd]. by rewrite !app_nil_r.
Qed.

(** The other children of the table. *)
Lemma children_update (cs : list Child) i ch ch' h h' :
  NoDup (child_pipefd <$> cs) -> Forall (child_ok h) cs -> cs !! i = Some ch -> child_pipefd ch' = child_pipefd ch ->
  pipe_ends h' = pipe_ends h ->
  (forall x, x <> child_pipefd ch -> passed x h' = passed x h /\ returned x h' = returned x h) ->
  child_ok h' ch' -> Forall (child_ok h') (<[i := ch']> cs).
Proof.
  intros Hnd HF Hi He Hpe Hother Hok. apply Forall_lookup_2. intros j x Hj.
  apply list_lookup_insert_Some in Hj as [(<- & <- & _)|[Hne Hj]]; [done|].
  pose proof (Forall_lookup_1 _ _ _ _ HF Hj) as Hx.
  assert (Hd : child_pipefd x <> child_pipefd ch).
  { intros E. apply Hne. eapply (NoDup_lookup (child_pipefd <$> cs) i j); [done|..];
      rewrite list_lookup_fmap, ?Hi, ?Hj; cbn; by f_equal. }
  destruct (Hother _ Hd) as [H1 H2]. unfold child_ok in *. by rewrite Hpe, H1, H2.
Qed.

Lemma pipefds_insert (cs : list Child) i ch ch' :
  cs !! i = Some ch -> child_pipefd ch' = child_pipefd ch -> child_pipefd <$> <[i := ch']> cs = child_pipefd <$> cs.
Proof.
  intros Hi He. rewrite list_fmap_insert. apply list_insert_id. by rewrite list_lookup_fmap, Hi, He.
Qed.

Lemma Write_fd_ends fd d n connfd (Q : Z -> st -> Prop) s :
  let c := sys_sendmsg fd None [take (Z.to_nat n) d] [CMSG_LEN_INT; SOL_SOCKET; SCM_RIGHTS; connfd] 0 in
  let r := answer c s in
  daemon_proc s = 0 -> handing (trace (after c r s)) -> (0 <= rv r -> Q (rv r) (after c r s)) ->
  wp (Write_fd fd d n connfd) (goes Q) s.
Proof.
  cbv zeta. intros Hd HI HQ. unfold Write_fd, write_fd. do 2 apply wp_then. apply wp_sys. cbn [andthen wp mpure].
  destruct (Z.ltb_spec (rv (answer (sys_sendmsg fd None [take (Z.to_nat n) d]
    [CMSG_LEN_INT; SOL_SOCKET; SCM_RIGHTS; connfd] 0) s)) 0).
  - by apply ends_err_sys; [apply handing_output|..].
  - apply ends_pure. by apply HQ.
Qed.

Lemma failed_hand fd iov rights r h : rv r < 0 -> handing h -> handing ((sys_sendmsg fd None iov rights 0, r) :: h).
Proof.
  intros Hr Hh. unfold handing, accepted_fds, handed_fds in *. rewrite !collect_cons. unfold accept_of at 2, hand_of at 2.
  cbn [fst snd]. rewrite (proj2 (Z.leb_gt 0 (rv r))) by done. by rewrite !app_nil_r.
Qed.

(** Accepting a connection and handing it to an available child. *)
Lemma pass_connection_spec p s :
  passing listenfd p s -> 0 < navail p ->
  wp (pass_connection listenfd afuel p)
    (goes (fun p' s' => passing listenfd p' s' /\ length (cptr p') = length (cptr p))) s.
Proof.
  intros Hp Hav. unfold pass_connection. eapply ends_then; [apply (accept_spec afuel p s Hp); lia|].
  intros r s1 (Hd1 & Hr & h & Ht1 & [Hl Hnd Hset Hmax Hnav Hch] & Hh & Hc).
  destruct (accept_effect listenfd r h Hr) as (A1 & A2 & A3 & A4 & A5).
  destruct (available_child_spec (cptr p)) as (ch & Hi & Hst); [lia|]. set (i := available_child (cptr p)) in *.
  pose proof (lookup_lt_Some _ _ _ Hi) as Hlt. rewrite (proj2 (Nat.eqb_neq i (length (cptr p)))) by lia.
  eapply wp_checked; [exact Hi|]. set (ch' := MkChild _ _ _ _).
  eapply wp_checked; [unfold store; by rewrite decide_True|].
  assert (HI1 : handing (trace s1)) by (rewrite Ht1; unfold handing; rewrite A1, A2, Hh; by eexists).
  set (c := sys_sendmsg (child_pipefd ch) None [take (Z.to_nat 1) [0]] [CMSG_LEN_INT; SOL_SOCKET; SCM_RIGHTS; rv r] 0).
  set (r2 := answer c s1).
  assert (Hhand : 0 <= rv r2 -> handed_fds (trace (after c r2 s1)) = accepted_fds (trace (after c r2 s1))).
  { intros Hv. cbn [after trace]. unfold c at 1 2.
    destruct (hand_effect (child_pipefd ch) (rv r) [take (Z.to_nat 1) [0]] r2 (trace s1) Hv) as (-> & -> & _).
    by rewrite Ht1, A1, A2, Hh. }
  eapply (ends_then _ _ _ _ (fun _ s2 => s2 = after c r2 s1 /\ 0 <= rv r2)).
  { apply Write_fd_ends; fold c; fold r2; [done| |by intros].
    destruct (Z.ltb_spec (rv r2) 0); [by apply failed_hand|]. unfold handing. by rewrite Hhand. }
  intros _ s2 [-> Hv2]. specialize (Hhand Hv2). set (s2 := after c r2 s1) in *.
  destruct (hand_effect (child_pipefd ch) (rv r) [take (Z.to_nat 1) [0]] r2 (trace s1) Hv2)
    as (B1 & B2 & B3 & B4 & B5 & B6 & B7). change ((_, r2) :: trace s1) with (trace s2) in *.
  unfold Close. set (cc := sys_close (rv r)). set (r3 := answer cc s2).
  destruct (close_effect (rv r) r3 (trace s2)) as (C1 & C2 & C3 & C4 & C5).
  change ((_, r3) :: trace s2) with (trace (after cc r3 s2)) in *.
  eapply (ends_then _ _ _ _ (fun _ s3 => s3 = after cc r3 s2)).
  { eapply (ends_then _ _ _ _ (fun _ s3 => s3 = after cc r3 s2)); [|intros ? ? ->; by apply ends_pure].
    apply ends_call; [apply handing_output|done|done| |done]. fold cc. fold r3. unfold handing. by rewrite C1, C2, Hhand. }
  intros _ s3 ->. apply ends_pure. split; [|cbn; by rewrite length_insert].
  assert (Hok' : Forall (child_ok (trace (after cc r3 s2))) (<[i := ch']> (cptr p))).
  { eapply (children_update _ _ ch); try done.
    - by rewrite C4, B4, Ht1, A4.
    - intros x Hx. destruct (C5 x) as [-> ->]. rewrite (B6 x Hx), (B7 x), Ht1. apply A5.
    - destruct (Forall_lookup_1 _ _ _ _ Hch Hi) as (Hrg & Hpe & Hcase & Hcnt). unfold child_ok. cbn [ch' child_pipefd child_status child_count].
      destruct (C5 (child_pipefd ch)) as [-> ->]. rewrite C4, B4, B5, (B7 (child_pipefd ch)), Ht1, A4.
      destruct (A5 (child_pipefd ch)) as [-> ->]. split_and!; try done; [lia|lia| |lia].
      right. split; [done|]. destruct Hcase as [[_ ->]|[? _]]; [done|lia]. }
  constructor.
  - done.
  - constructor; cbn [cptr masterset maxfd navail]; rewrite ?(pipefds_insert _ _ ch ch' Hi eq_refl); try done.
    pose proof (available_insert (cptr p) i ch ch' Hi) as Hai. unfold ready in Hai. cbn [ch' child_status] in Hai.
    rewrite Hst in Hai. cbn in Hai. lia.
  - by rewrite C1, C2, Hhand.
  - rewrite C3, B3, Ht1, A3, Hc. rewrite filter_cons_False by (intros Hx; by apply Hx). done.
Qed.

Lemma read_effect fd n r h :
  let h' := (sys_read fd n, r) :: h in
  accepted_fds h' = accepted_fds h /\ handed_fds h' = handed_fds h /\
  open_conns h' = open_conns h /\ pipe_ends h' = pipe_ends h /\
  (forall x, passed x h' = passed x h) /\ returned fd h' = (returned fd h + length (rbytes r))%nat /\
  forall x, x <> fd -> returned x h' = returned x h.
Proof.
  cbv zeta. unfold accepted_fds, handed_fds, pipe_ends, passed, returned, received.
  rewrite !collect_cons. cbn [accept_of hand_of pipe_of fst snd]. rewrite !app_nil_r, length_app, read_data_eq.
  split_and!; try done.
  - intros x. rewrite collect_cons. cbn [pass_of fst snd]. by rewrite app_nil_r.
  - intros x Hx. rewrite collect_cons, read_data_ne by done. by rewrite app_nil_r.
Qed.

(** A child reports that it is available again. *)
Lemma child_reports p s i ch r :
  passing listenfd p s -> cptr p !! i = Some ch -> r = answer (sys_read (child_pipefd ch) 1) s ->
  rv r <> -1 -> rv r <> 0 ->
  let ch' := MkChild (child_pid ch) (child_pipefd ch) 0 (child_count ch) in
  passing listenfd (Parent (<[i := ch']> (cptr p)) (navail p + 1) (maxfd p) (masterset p))
    (after (sys_read (child_pipefd ch) 1) r s).
Proof.
  intros [Hd [Hl Hnd Hset Hmax Hnav Hch] Hh Hc] Hi Er Hm1 H0. cbv zeta. set (ch' := MkChild _ _ _ _).
  destruct (Forall_lookup_1 _ _ _ _ Hch Hi) as (Hrg & Hpe & Hcase & Hcnt).
  destruct (read_law (trace s) (child_pipefd ch) 1 ltac:(lia)) as [_ Hread].
  fold (answer (sys_read (child_pipefd ch) 1) s) in Hread. rewrite <- Er in Hread.
  destruct Hread as [(? & _)|[Hv Hle]]; [done|].
  pose proof (child_law (trace s) _ Hpe) as Hlaw. fold (answer (sys_read (child_pipefd ch) 1) s) in Hlaw.
  rewrite <- Er in Hlaw. specialize (Hlaw ltac:(lia)).
  assert (Hbusy : child_status ch = 1 /\ passed (child_pipefd ch) (trace s) = S (returned (child_pipefd ch) (trace s)))
    by (destruct Hcase as [[_ ?]|?]; [lia|done]).
  destruct Hbusy as [Hst Hpr]. assert (Hone : length (rbytes r) = 1%nat) by lia.
  destruct (read_effect (child_pipefd ch) 1 r (trace s)) as (A1 & A2 & A3 & A4 & A5 & A6 & A7).
  set (s1 := after _ r s). change ((_, r) :: trace s) with (trace s1) in *. constructor.
  - done.
  - constructor; cbn [cptr masterset maxfd navail]; rewrite ?(pipefds_insert _ _ ch ch' Hi eq_refl); try done.
    + pose proof (available_insert (cptr p) i ch ch' Hi) as Hai. unfold ready in Hai. cbn [ch' child_status] in Hai.
      rewrite Hst in Hai. cbn in Hai. lia.
    + eapply (children_update _ _ ch); try done; [intros x Hx; by rewrite A5, A7|].
      unfold child_ok. cbn [ch' child_pipefd child_status child_count]. rewrite A4, A5, A6, Hone.
      split_and!; try done; try lia.
  - by rewrite A1, A2.
  - by rewrite A3.
Qed.

Lemma free_children_spec idx rset nsel p s :
  passing listenfd p s -> Forall (fun i => (i < length (cptr p))%nat) idx ->
  wp (free_children idx rset nsel p) (goes (fun p' s' => passing listenfd p' s')) s.
Proof.
  revert nsel p s. induction idx as [|i idx IH]; intros nsel p s Hp Hidx; cbn [free_children]; [done|].
  inversion Hidx as [|? ? Hlt Hidx']; subst. destruct (lookup_lt_is_Some_2 _ _ Hlt) as [ch Hi].
  eapply wp_checked; [exact Hi|].
  destruct (Forall_lookup_1 _ _ _ _ (po_children _ _ _ (pa_ok _ _ _ Hp)) Hi) as (Hrg & _).
  eapply wp_checked; [by apply FD_ISSET_spec|]. destruct (bool_decide _); [|by apply IH].
  unfold Read. set (c := sys_read (child_pipefd ch) 1). set (r := answer c s).
  assert (HI : handing (trace (after c r s))).
  { destruct (read_effect (child_pipefd ch) 1 r (trace s)) as (A1 & A2 & _). cbn [after trace]. unfold handing, c.
    rewrite A1, A2. by eapply passing_handing. }
  eapply (ends_then _ _ _ _ (fun r' s1 => r' = r /\ s1 = after c r s /\ rv r <> -1)).
  { apply ends_call; [apply handing_output|done|apply Hp|done|].
    intros Hb. split_and!; try done. intros E. fold c r in Hb. by rewrite E in Hb. }
  intros ? ? (-> & -> & Hm1). destruct (Z.eqb_spec (rv r) 0) as [E0|E0].
  { apply (ends_err_quit_int handing few_aborts handing_output c["child "] c[" terminated unexpectedly"]); [done|done|apply Hp|done]. }
  eapply wp_checked; [unfold store; by rewrite decide_True|].
  pose proof (child_reports p s i ch r Hp Hi eq_refl Hm1 E0) as Hp'.
  destruct (nsel - 1 =? 0); [by apply ends_pure|]. apply IH; [done|]. cbn [cptr]. by rewrite length_insert.
Qed.

Lemma all_indices p : Forall (fun i => (i < length (cptr p))%nat) (seq 0 (length (cptr p))).
Proof. apply Forall_forall. intros i Hi%elem_of_seq. lia. Qed.

Lemma pass_round_spec p s :
  passing listenfd p s -> wp (pass_round listenfd afuel p) (goes (fun p' s' => passing listenfd p' s')) s.
Proof.
  intros Hp. pose proof (pa_ok _ _ _ Hp) as [Hl Hnd Hset Hmax Hnav Hch]. unfold pass_round.
  assert (Hset' : exists rset, (if navail p <=? 0 then FD_CLR listenfd (masterset p) else Some (masterset p)) = Some rset /\
    (listenfd ∈ rset -> 0 < navail p)).
  { destruct (Z.leb_spec (navail p) 0); [|by eexists].
    destruct (FD_CLR_spec listenfd (masterset p) Hl) as (rset & -> & Hr). exists rset. split; [done|].
    by intros [? _]%Hr. }
  destruct Hset' as (rset & -> & Hrs). eapply wp_checked; [done|].
  eapply (ends_then _ _ _ _ (fun r s1 => passing listenfd p s1 /\ (listenfd ∈ rset_of r -> 0 < navail p))).
  { eapply passing_call; [done|done|done|]. intros s1 Hp1 Hb. split; [done|]. intros Hin.
    unfold negative in Hb. apply Z.ltb_ge in Hb.
    destruct (select_law (trace s) _ _ _ _ Hb) as (_ & Hsub & _). by apply Hrs, Hsub. }
  intros r s1 [Hp1 Hin]. eapply wp_checked; [by apply FD_ISSET_spec|]. case_bool_decide as Hnew.
  - eapply ends_then; [by apply pass_connection_spec; [|apply Hin]|]. intros p2 s2 [Hp2 _].
    destruct (rv r - 1 =? 0); [by apply ends_pure|]. by apply free_children_spec; [|apply all_indices].
  - by apply free_children_spec; [|apply all_indices].
Qed.

Lemma pass_loop_spec rounds p s :
  passing listenfd p s -> wp (pass_loop listenfd afuel rounds p) (goes (fun p' s' => passing listenfd p' s')) s.
Proof.
  revert p s. induction rounds as [|k IH]; intros p s Hp; cbn [pass_loop]; [done|].
  eapply ends_then; [by apply pass_round_spec|]. intros p' s' Hp'. by apply IH.
Qed.
End Steps.

(** * From the creation of the children on *)

(** * Creating the children *)

(** The ends of the pipes that are open. *)
Fixpoint live_pipes (h : list event) : list Z :=
  match h with
  | [] => []
  | (c, r) :: h' =>
      match c with
      | sys_socketpair _ _ _ => if 0 <=? rv r then rints r ++ live_pipes h' else live_pipes h'
      | sys_close fd => filter (fun x => x <> fd) (live_pipes h')
      | _ => live_pipes h'
      end
  end.

(** [socketpair] returns two descriptors that are not open, within the limit on open files. *)
Class PipeLaw `{OS} : Prop :=
  pipe_law : forall h f t p, let r := os_answer h (sys_socketpair f t p) in 0 <= rv r ->
    exists a b, rints r = [a; b] /\ a <> b /\ 0 <= a < FD_SETSIZE /\
      (a ∉ live_pipes h) /\ (b ∉ live_pipes h).

(** The process is followed in which [fork] returns the process ID of the child. *)
Class ParentLaw `{OS} : Prop :=
  parent_law : forall h, rv (os_answer h sys_fork) = -1 \/ 0 < rv (os_answer h sys_fork).

(** Nothing has been accepted, handed over or read. *)
Definition unused (h : list event) : Prop :=
  accepted_fds h = [] /\ handed_fds h = [] /\ open_conns h = [] /\
  forall fd, passed fd h = 0%nat /\ returned fd h = 0%nat.

Lemma unused_idle e h : idle e = true -> unused h -> unused (e :: h).
Proof.
  intros He (A & B & C & D). destruct (idle_history e h He) as (A' & B' & C' & _ & D').
  unfold unused. rewrite A', B', C', A, B, C. split_and!; try done. intros fd. destruct (D fd), (D' fd). lia.
Qed.

Lemma unused_output evs h : Forall output evs -> unused h -> unused (evs ++ h).
Proof.
  intros He. apply output_idle in He. induction He as [|e evs He _ IH]; [done|]. intros Hu. apply unused_idle; auto.
Qed.

Lemma unused_pair f t p r h : unused h -> unused ((sys_socketpair f t p, r) :: h).
Proof.
  intros (A & B & C & D). unfold unused, accepted_fds, handed_fds, passed, returned, received in *.
  rewrite !collect_cons. cbn [accept_of hand_of fst snd open_conns]. rewrite A, B. split_and!; try done.
  intros fd. rewrite !collect_cons. cbn [pass_of read_data fst snd]. rewrite !app_nil_r. apply D.
Qed.

Lemma unused_close fd r h : unused h -> unused ((sys_close fd, r) :: h).
Proof.
  intros (A & B & C & D). destruct (close_effect fd r h) as (A' & B' & C' & _ & D'). unfold unused.
  rewrite A', B', C', A, B, C. split_and!; try done. intros x. destruct (D x), (D' x). lia.
Qed.

Lemma unused_handing h : unused h -> handing h.
Proof. intros (A & B & _). unfold handing. by rewrite A, B. Qed.

Section Prefork.
Context {os : OS} {SE : Strerror} {PL : PipeLaw} {PA : ParentLaw}.
Context (listenfd : Z) (afuel n : nat).
Hypothesis listen_ok : 0 <= listenfd < FD_SETSIZE.

Abbreviation goes := (ends handing (few_aborts afuel)).

(** The first [k] children have been created. *)
Record preforked (k : nat) (p : parent) (s : st) : Prop := {
  pf_foreground : daemon_proc s = 0;
  pf_unused : unused (trace s);
  pf_length : length (cptr p) = n;
  pf_idle : Forall (fun ch => child_status ch = 0 /\ child_count ch = 0) (cptr p);
  pf_distinct : NoDup (child_pipefd <$> take k (cptr p));
  pf_pipes : Forall (fun fd => 0 <= fd < FD_SETSIZE /\ fd ∈ pipe_ends (trace s) /\ fd ∈ live_pipes (trace s))
    (child_pipefd <$> take k (cptr p));
  pf_set : forall x, x ∈ masterset p <-> x = listenfd \/ x ∈ child_pipefd <$> take k (cptr p);
  pf_maxfd : forall x, x ∈ masterset p -> x <= maxfd p;
  pf_avail : navail p = Z.of_nat n;
}.

Lemma all_available (cs : list Child) :
  Forall (fun ch => child_status ch = 0 /\ child_count ch = 0) cs -> available cs = length cs.
Proof.
  unfold available. induction 1 as [|ch cs [Hs _] _ IH]; [done|]. rewrite filter_cons_True; [cbn; by rewrite IH|].
  unfold ready. by rewrite Hs.
Qed.

Lemma preforked_passing p s : preforked n p s -> passing listenfd p s.
Proof.
  intros [Hd Hu Hlen Hid Hnd Hpi Hset Hmax Hav]. pose proof Hu as (A & B & C & D).
  rewrite take_ge in * by lia. constructor; [done| |congruence|done]. constructor; try done.
  - by rewrite Hav, all_available, Hlen.
  - apply Forall_lookup_2. intros i ch Hi.
    destruct (Forall_lookup_1 _ _ _ _ Hid Hi) as [Hs Hc].
    assert (Hf : child_pipefd <$> cptr p !! i = Some (child_pipefd ch)) by (by rewrite Hi).
    rewrite <- list_lookup_fmap in Hf. destruct (Forall_lookup_1 _ _ _ _ Hpi Hf) as (? & ? & _).
    destruct (D (child_pipefd ch)) as [D1 D2].
    unfold child_ok. rewrite D1, D2, Hc, Hs. by split_and!; try lia.
Qed.

(** A call without effect on what has been set up. *)
Lemma preforked_call k p c bad msg (Q : sysret -> st -> Prop) s :
  preforked k p s -> idle (c, answer c s) = true -> (forall r, live_pipes ((c, r) :: trace s) = live_pipes (trace s)) ->
  plain msg = true ->
  (forall s', preforked k p s' -> bad (rv (answer c s)) = false -> Q (answer c s) s') ->
  wp (call c bad msg) (goes Q) s.
Proof.
  intros Hp Hi Hlive Hm HQ. set (r := answer c s) in *. pose proof (idle_history (c, r) (trace s) Hi) as (_ & _ & _ & Hpe & _).
  assert (Hp' : preforked k p (after c r s)).
  { destruct Hp. constructor; try done; [by apply unused_idle|]. eapply Forall_impl; [done|].
    intros fd (? & He & Hl). rewrite <- Hpe in He. by rewrite <- (Hlive r) in Hl. }
  apply ends_call; [apply handing_output|done|apply Hp| |auto]. apply unused_handing, Hp'.
Qed.

Lemma live_pipes_pair f t q r h a b : 0 <= rv r -> rints r = [a; b] ->
  live_pipes ((sys_socketpair f t q, r) :: h) = a :: b :: live_pipes h /\
  pipe_ends ((sys_socketpair f t q, r) :: h) = pipe_ends h ++ [a; b].
Proof.
  intros Hr He. unfold pipe_ends. rewrite collect_cons. unfold pipe_of at 2. cbn [live_pipes fst snd].
  by rewrite (proj2 (Z.leb_le 0 (rv r))), He by done.
Qed.

(** The [k]-th child is created: its pipe is new. *)
Lemma child_make_spec child k p s :
  preforked k p s -> (k < n)%nat ->
  wp (child_make listenfd child k (cptr p))
    (goes (fun f s' => exists cs ch, f = Next cs /\ cs !! k = Some ch /\ 0 <= child_pipefd ch < FD_SETSIZE /\
       forall set' m', (forall x, x ∈ set' <-> x = child_pipefd ch \/ x ∈ masterset p) ->
         maxfd p <= m' -> child_pipefd ch <= m' -> preforked (S k) (Parent cs (navail p) m' set') s')) s.
Proof.
  intros Hp Hk. pose proof Hp as [Hd Hu Hlen Hid Hnd Hpi Hset Hmax Hav]. unfold child_make, Socketpair.
  set (c := sys_socketpair _ _ _). set (r := answer c s).
  set (Q := fun a b s' => daemon_proc s' = 0 /\ unused (trace s') /\
     pipe_ends (trace s') = pipe_ends (trace s) ++ [a; b] /\ live_pipes (trace s') = a :: b :: live_pipes (trace s)).
  eapply (ends_then _ _ _ _ (fun fds s1 => exists a b, fds = [a; b] /\ a <> b /\ 0 <= a < FD_SETSIZE /\
     (a ∉ live_pipes (trace s)) /\ (b ∉ live_pipes (trace s)) /\ Q a b s1)).
  { eapply (ends_then _ _ _ _ (fun r' s1 => r' = r /\ s1 = after c r s /\ 0 <= rv r)).
    - apply ends_call; [apply handing_output|done|done| |].
      + by apply unused_handing, unused_pair.
      + unfold negative. intros Hb%Z.ltb_ge. by split_and!.
    - intros ? ? (-> & -> & Hr). destruct (pipe_law (trace s) _ _ _ Hr) as (a & b & He & Hab & Ha & Hna & Hnb).
      fold c in He. fold (answer c s) in He. fold r in He. apply ends_pure. exists a, b. split_and!; try done; try lia.
      destruct (live_pipes_pair AF_LOCAL SOCK_STREAM 0 r (trace s) a b Hr He) as [Hl Hpe].
      unfold Q. split_and!; try done. by apply unused_pair. }
  intros fds s1 (a & b & -> & Hab & Ha & Hna & Hnb & HQ1). do 2 (eapply wp_checked; [done|]).
  eapply (ends_then _ _ _ _ (fun pid s2 => 0 < pid /\ Q a b s2)).
  { destruct HQ1 as (Hd1 & Hu1 & Hpe1 & Hl1). unfold Fork. set (cf := sys_fork).
    assert (HQ2 : Q a b (after cf (answer cf s1) s1)).
    { destruct (idle_history (cf, answer cf s1) (trace s1) eq_refl) as (_ & _ & _ & Hpf & _).
      split; [done|]. split; [by apply unused_idle|]. split; [exact (eq_trans Hpf Hpe1)|exact Hl1]. }
    eapply (ends_then _ _ _ _ (fun r' s2 => 0 < rv r' /\ Q a b s2)).
    - apply ends_call; [apply handing_output|done|done|by apply unused_handing, HQ2|].
      intros Hb. split; [|done]. destruct (parent_law (trace s1)) as [E|?]; [|done].
      unfold minus1 in Hb. fold cf in E. unfold answer in Hb. by rewrite E in Hb.
    - intros r' s2 [? ?]. by apply ends_pure. }
  intros pid s2 [Hpid (Hd2 & Hu2 & Hpe2 & Hl2)]. rewrite (proj2 (Z.gtb_lt pid 0)) by lia.
  unfold Close. set (cc := sys_close b). set (s3 := after cc (answer cc s2) s2).
  assert (Hu3 : unused (trace s3)) by by apply unused_close.
  eapply (ends_then _ _ _ _ (fun _ s' => s' = s3)).
  { eapply (ends_then _ _ _ _ (fun _ s' => s' = s3)); [|intros ? ? ->; by apply ends_pure].
    apply ends_call; [apply handing_output|done|done|by apply unused_handing|done]. }
  intros _ ? ->. assert (Hlt : (k < length (cptr p))%nat) by lia.
  destruct (lookup_lt_is_Some_2 _ _ Hlt) as [old Hold]. eapply wp_checked; [exact Hold|].
  eapply wp_checked; [unfold store; by rewrite decide_True|]. apply ends_pure. set (ch := MkChild _ _ _ _).
  exists (<[k := ch]> (cptr p)), ch. split; [done|]. split; [by apply list_lookup_insert_eq|]. split; [done|].
  intros set' m' Hset' Hm' Hm2.
  destruct (Forall_lookup_1 _ _ _ _ Hid Hold) as [_ Hcnt].
  assert (Htk : child_pipefd <$> take (S k) (<[k := ch]> (cptr p)) = (child_pipefd <$> take k (cptr p)) ++ [a]).
  { rewrite (take_S_r _ _ ch) by (by apply list_lookup_insert_eq). by rewrite take_insert_ge, fmap_app. }
  constructor; cbn [cptr masterset maxfd navail]; rewrite ?Htk; try done.
  - by rewrite length_insert.
  - apply Forall_insert; [done|]. by cbn.
  - apply NoDup_app. split_and!; [done| |apply NoDup_singleton]. intros x Hx ->%list_elem_of_singleton.
    rewrite Forall_forall in Hpi. by destruct (Hpi _ Hx) as (_ & _ & ?).
  - change (trace s3) with ((cc, answer cc s2) :: trace s2). cbn [live_pipes cc]. destruct (close_effect b (answer cc s2) (trace s2)) as (_ & _ & _ & Hpe3 & _).
    fold cc in Hpe3. rewrite Hpe3, Hpe2, Hl2. apply Forall_app. split.
    + eapply Forall_impl; [exact Hpi|]. intros x (? & ? & Hx). split; [done|]. split; [apply elem_of_app; by left|].
      apply list_elem_of_filter. split; [congruence|by do 2 right].
    + constructor; [|done]. split; [done|]. split; [apply elem_of_app; right; by left|].
      apply list_elem_of_filter. split; [done|by left].
  - intros x. rewrite Hset', Hset, elem_of_app, list_elem_of_singleton. cbn [ch child_pipefd]. tauto.
  - intros x [->|Hx]%Hset'; [done|]. specialize (Hmax x Hx). lia.
Qed.

Lemma prefork_spec child todo k p s :
  preforked k p s -> (k + todo = n)%nat ->
  wp (prefork listenfd child (seq k todo) p) (goes (fun f s' => exists p', f = Next p' /\ preforked n p' s')) s.
Proof.
  revert k p s. induction todo as [|todo IH]; intros k p s Hp Hk; cbn [seq prefork].
  { apply ends_pure. exists p. by rewrite Nat.add_0_r in Hk; subst k. }
  eapply ends_then; [apply child_make_spec; [done|lia]|]. intros f s1 (cs & ch & -> & Hch & Hr & Hmk).
  eapply wp_checked; [exact Hch|]. destruct (FD_SET_spec (child_pipefd ch) (masterset p) Hr) as (m & -> & Hm).
  eapply wp_checked; [done|]. apply IH; [|lia]. apply Hmk; [done|lia|lia].
Qed.

(** The handler of [SIGINT] is installed. *)
Lemma prefork_signal_spec signo func p s :
  preforked n p s -> wp (Signal signo func) (goes (fun _ s' => preforked n p s')) s.
Proof.
  assert (Hkeep : forall c s, preforked n p s -> idle (c, answer c s) = true ->
    live_pipes ((c, answer c s) :: trace s) = live_pipes (trace s) -> preforked n p (after c (answer c s) s)).
  { clear s. intros c s [] Hi Hl. pose proof (idle_history _ (trace s) Hi) as (_ & _ & _ & Hpe & _).
    constructor; try done; [by apply unused_idle|]. eapply Forall_impl; [done|].
    intros fd (? & He & Hv). rewrite <- Hpe in He. by rewrite <- Hl in Hv. }
  intros Hp. unfold Signal, signal. do 2 apply wp_then. apply wp_sys. cbn [andthen]. apply wp_then, wp_sys. cbn [andthen].
  match goal with |- context [after ?c ?r (after ?c' ?r' s)] =>
    assert (Hp2 : preforked n p (after c r (after c' r' s)))
      by (apply Hkeep; [apply Hkeep; done|done|done]);
    generalize dependent (after c r (after c' r' s)) end.
  intros s2 Hp2. assert (Hend : forall v, wp (if v =? SIG_ERR then err_sys c["signal error"] [] else mpure v)
    (goes (fun _ s' => preforked n p s')) s2).
  { intros v. destruct (v =? SIG_ERR); [|by apply ends_pure].
    apply ends_err_sys; [apply handing_output|done|apply Hp2|apply unused_handing, Hp2]. }
  destruct (rv _ <? 0); apply Hend.
Qed.
End Prefork.

(** * The server *)

Section Server.
Context {os : OS} {SE : Strerror} {RDL : ReadLaw} {CL : ChildLaw} {SL : SelectLaw} {PL : PipeLaw} {PA : ParentLaw}.

(** Creating [nchildren] children and serving [rounds] results of [select]. *)
Lemma pass_server_spec listenfd addrlen child sig_int nchildren afuel rounds s :
  daemon_proc s = 0 -> unused (trace s) -> 0 <= listenfd < FD_SETSIZE ->
  wp (pass_server listenfd addrlen child sig_int nchildren afuel rounds)
    (ends handing (few_aborts afuel) (fun f s' => exists p, f = Next p /\ passing listenfd p s')) s.
Proof.
  intros Hd Hu Hl. unfold pass_server. destruct (FD_SET_spec listenfd [] Hl) as (m0 & -> & Hm0).
  eapply wp_checked; [done|]. set (p0 := Parent (replicate nchildren (MkChild 0 0 0 0)) (Z.of_nat nchildren) listenfd m0).
  assert (Hp0 : preforked listenfd nchildren 0 p0 s).
  { constructor; cbn [p0 cptr masterset maxfd navail take]; try done.
    - by rewrite length_replicate.
    - by apply Forall_replicate.
    - apply NoDup_nil_2.
    - intros x [->|Hx%elem_of_nil]%Hm0; [lia|done]. }
  eapply (ends_then _ _ _ _ (fun _ s' => preforked listenfd nchildren 0 p0 s')).
  { unfold Malloc. eapply ends_then; [by eapply (preforked_call _ _ _ _ _ _ _ _ (fun _ s' => preforked listenfd nchildren 0 p0 s'))|].
    intros ? ? H. by apply ends_pure. }
  intros _ s1 Hp1. eapply (ends_then _ _ _ _ (fun _ s' => preforked listenfd nchildren 0 p0 s')).
  { unfold Calloc. eapply ends_then; [by eapply (preforked_call _ _ _ _ _ _ _ _ (fun _ s' => preforked listenfd nchildren 0 p0 s'))|].
    intros ? ? H. by apply ends_pure. }
  intros _ s2 Hp2. eapply ends_then; [by apply prefork_spec|]. intros f s3 (p & -> & Hp3).
  eapply (ends_then _ _ _ _ (fun _ s' => preforked listenfd nchildren nchildren p s')); [by apply prefork_signal_spec|].
  intros _ s4 Hp4.
  eapply ends_then; [apply pass_loop_spec; by eapply preforked_passing|].
  intros p' s5 Hp5. apply ends_pure. by exists p'.
Qed.

(** C25: The preforked server (server/serv05.c) hands every connection it accepts to exactly one of its
    children, in the order in which they were accepted, and keeps none of them open itself.  Its table is
    right after any number of rounds: [navail] is the number of children that are ready; a child is busy
    when it has been handed one connection more than it has reported back; [child_count] counts what it was
    handed; [select] is asked about the listening socket and the pipes of the children.  Where the
    process ends early it is with status 1, and what was handed over is still a prefix of what was
    accepted; the calls of [accept] run out only when that many of them have been aborted. *)
Theorem pass_server_hands_over listenfd addrlen child sig_int nchildren afuel rounds s :
  daemon_proc s = 0 -> unused (trace s) -> 0 <= listenfd < FD_SETSIZE ->
  match pass_server listenfd addrlen child sig_int nchildren afuel rounds s with
  | (Val f, s') => exists p, f = Next p /\
      handed_fds (trace s') = accepted_fds (trace s') /\ open_conns (trace s') = [] /\
      navail p = Z.of_nat (available (cptr p)) /\
      (forall x, x ∈ masterset p <-> x = listenfd \/ x ∈ child_pipefd <$> cptr p) /\
      (forall x, x ∈ masterset p -> x <= maxfd p) /\
      Forall (fun ch => let fd := child_pipefd ch in
        child_count ch = Z.of_nat (passed fd (trace s')) /\
        passed fd (trace s') = (returned fd (trace s') + (if ready ch then 0 else 1))%nat) (cptr p)
  | (Exited c, s') => c = 1 /\ handed_fds (trace s') `prefix_of` accepted_fds (trace s')
  | (OutOfFuel, s') => (afuel <= aborted (trace s'))%nat
  | _ => False
  end.
Proof.
  intros Hd Hu Hl. pose proof (pass_server_spec listenfd addrlen child sig_int nchildren afuel rounds s Hd Hu Hl) as H.
  unfold wp in H. destruct (pass_server _ _ _ _ _ _ _ s) as [[f|c| | |] s']; [|exact H|exact H|exact H|by destruct H].
  destruct H as (p & -> & [_ [_ _ Hset Hmax Hnav Hch] Hh Hc]). exists p. split_and!; try done.
  eapply Forall_impl; [exact Hch|]. intros ch (_ & _ & Hst & Hcnt). cbv zeta. split; [done|]. unfold ready.
  destruct Hst as [[-> ->]|[-> ->]]; cbn; lia.
Qed.
End Server.

(** * A concrete run *)

(** Descriptors are taken from the pipes that are not open; a child reports what it was handed at the
    next read; [select] finds the listening socket, and the children that have something to report. *)
Definition pipe_pair (h : list event) : sysret :=
  match filter (fun fd => fd ∉ live_pipes h) (seqZ 10 1000) with
  | a :: b :: _ => SR 0 None [] [a; b] None
  | _ => failed (-1) EINTR
  end.

Definition pass_os : OS := fun h c =>
  match c with
  | sys_socketpair _ _ _ => pipe_pair h
  | sys_fork => ok 77
  | sys_accept _ _ => ok (5 + Z.of_nat (length (accepted_fds h)))
  | sys_read fd n =>
      if bool_decide (returned fd h < passed fd h)%nat then data (take (Z.to_nat n) [0]) else failed (-1) EINTR
  | sys_select _ rs ws _ _ =>
      let rs := remove_dups (filter (fun x => x = 3 \/ (returned x h < passed x h)%nat) rs) in
      let ws := remove_dups ws in
      SR (Z.of_nat (length rs) + Z.of_nat (length ws)) None ws rs None
  | sys_malloc _ | sys_calloc _ _ => ok 4096
  | sys_write _ d => ok (Z.of_nat (length d))
  | _ => ok 0
  end.

Lemma pass_os_read : @ReadLaw pass_os.
Proof.
  intros h fd n Hn. unfold os_answer, pass_os. case_bool_decide.
  - split; [apply Forall_take, bytes_ok_bool; reflexivity|]. right. split; [done|].
    cbn [rv data]. rewrite length_take. lia.
  - split; [by apply bytes_ok_bool|]. left. by split; [|eexists].
Qed.

Lemma pass_os_child : @ChildLaw pass_os.
Proof. intros h fd _. unfold os_answer, pass_os. case_bool_decide; [done|]. cbn. lia. Qed.

Lemma pass_os_select : @SelectLaw pass_os.
Proof.
  intros h n rs ws t. cbv zeta. intros _. unfold os_answer, pass_os, rset_of, wset_of. cbn [rv rbytes rints].
  split_and!; try apply NoDup_remove_dups; try done; intros x; rewrite elem_of_remove_dups; [|done].
  by intros [_ ?]%list_elem_of_filter.
Qed.

Lemma pass_os_pipe : @PipeLaw pass_os.
Proof.
  intros h f t p. cbv zeta. unfold os_answer, pass_os, pipe_pair. set (free := filter _ _).
  assert (Hnd : NoDup free) by apply NoDup_filter, NoDup_seqZ.
  assert (Hfree : forall x, x ∈ free -> (x ∉ live_pipes h) /\ 0 <= x < FD_SETSIZE).
  { intros x [? Hx%elem_of_seqZ]%list_elem_of_filter. unfold FD_SETSIZE. split; [done|lia]. }
  destruct free as [|a [|b l]]; [cbn; lia|cbn; lia|]. intros _. exists a, b.
  apply NoDup_cons in Hnd as [Hab _]. destruct (Hfree a) as [? ?]; [by left|].
  destruct (Hfree b) as [? _]; [right; by left|]. split; [done|]. split; [|done].
  intros ->. apply Hab. by left.
Qed.

Lemma pass_os_parent : @ParentLaw pass_os.
Proof. intros h. right. done. Qed.

Lemma unused_init : unused (trace init).
Proof. done. Qed.

(** Two children and four rounds. *)
Lemma pass_server_hands_over_witness :
  let run := @pass_server pass_os numeric_strerror 3 16 (mpure tt) 1 2 1 4 init in
  handed_fds (trace run.2) = [5; 6; 7; 8] /\
  (handed_fds (trace run.2) = accepted_fds (trace run.2) /\ open_conns (trace run.2) = []).
Proof.
  cbv zeta.
  pose proof (@pass_server_hands_over pass_os numeric_strerror pass_os_read pass_os_child pass_os_select
    pass_os_pipe pass_os_parent 3 16 (mpure tt) 1 2 1 4 init eq_refl) as H.
  assert (Hv : exists v s', @pass_server pass_os numeric_strerror 3 16 (mpure tt) 1 2 1 4 init = (Val v, s'))
    by (eexists _, _; vm_compute; reflexivity).
  split; [vm_compute; reflexivity|].
  specialize (H unused_init ltac:(unfold FD_SETSIZE; lia)).
  destruct (pass_server _ _ _ _ _ _ _ _) as [o s']. destruct Hv as (v & ? & [= -> ->]).
  destruct H as (p & _ & H1 & H2 & _). split; [exact H1|exact H2].
Defined.
