(* ===== verification/Traceroute.v ===== *)
(** The [traceroute] program: [traceroute/recv_v4.c], [recv_v6.c], [traceloop.c],
    [icmpcode_v4.c], [icmpcode_v6.c], [sig_alrm.c].

    [traceloop] sends UDP datagrams with growing time to live; each has its own destination port,
    [dport + seq].  [recv_v4] and [recv_v6] wait at most three seconds for an ICMP error that
    quotes the datagram just sent.  The handler of [SIGALRM] sets the flag [gotalarm]: that the
    signal has been caught since [alarm (3)] was called is decided by the environment, at each
    test of the flag, from the history so far. *)

From S2P Require Import Prelude CText Sys Error Wrappers Cksum SockUtil Packet.

Definition BUFSIZE : Z := 1500.
Definition IP_TTL : Z := 2.
Definition IPV6_UNICAST_HOPS : Z := 16.

(** Whether [gotalarm] is set. *)
Class Alarm : Type := caught : list event -> bool.

(** The globals that change: the receive buffer, the sender of the last packet, and the static
    buffer of [sock_ntop_host]. *)
Record tr : Type := Tr { recvbuf : list Z; sarecv : sockaddr; host_str : list Z }.

(** [struct proto]: what depends on the protocol; [is6] selects the functions. *)
Record proto : Type := Proto { is6 : bool; salen : Z; icmpproto : Z; ttllevel : Z; ttloptname : Z }.

Definition proto_v4 (salen : Z) : proto := Proto false salen IPPROTO_ICMP IPPROTO_IP IP_TTL.
Definition proto_v6 (salen : Z) : proto := Proto true salen IPPROTO_ICMPV6 IPPROTO_IPV6 IPV6_UNICAST_HOPS.

Section Traceroute.
Context {os : OS} {SE : Strerror} {CF : Config} {AL : Alarm}.
Context (sport dport : Z) (verbose : bool).

Definition gotalarm : M bool := fun s => (Val (caught (trace s)), s).

(** [udp->uh_sport == htons(sport) && udp->uh_dport == htons(dport + seq)] *)
Definition our_ports (buf : list Z) (udp : nat) (seq : Z) : option bool :=
  uh_sport ← load buf udp 2; uh_dport ← load buf (udp + 2) 2;
  Some (bool_decide (uh_sport = htons sport) && bool_decide (uh_dport = htons (dport + seq))).

(** The datagram quoted behind the ICMP header: [None] when there is not enough of it to look at,
    otherwise whether it is the probe [seq]. *)
Definition quoted_v4 (buf : list Z) (hlen1 icmplen seq : Z) : option (option bool) :=
  if icmplen <? 8 + 20 then Some None
  else
    let hip := Z.to_nat (hlen1 + 8) in
    hlen2 ← ip_hlen buf hip;
    if icmplen <? 8 + hlen2 + 4 then Some None
    else
      ip_p ← buf !! (hip + 9)%nat;
      ours ← our_ports buf (hip + Z.to_nat hlen2) seq;
      Some (Some ((ip_p =? IPPROTO_UDP) && ours)).

Definition print_other (pr : proto) (g : tr) (type code : Z) : M tr :=
  if verbose then
    p <~ Sock_ntop_host (host_str g) (sarecv g) (salen pr) ;;
    let '(str, off) := p in
    printf (c[" (from %s: type = %d, code = %d)"] ++ [10]) [AStr (cstring_at str off); AInt type; AInt code] ;;;
    mpure (Tr (recvbuf g) (sarecv g) str)
  else mpure g.

(** The loop of [recv_v4]: -3 or the value of [ret] at the [break]. *)
Fixpoint recv_v4_loop (fuel : nat) (pr : proto) (recvfd seq : Z) (g : tr) : M (Z * tr) :=
  match fuel with
  | O => no_fuel
  | S f =>
      alarm <~ gotalarm ;;
      if alarm : bool then mpure (-3, g)                 (* alarm expired *)
      else
        r <~ sys (sys_recvfrom recvfd BUFSIZE 0 true) ;;
        if rv r <? 0 then
          e <~ get_errno ;;
          if e =? EINTR then recv_v4_loop f pr recvfd seq g else err_sys c["recvfrom error"] []
        else
          buf <~ checked (memcpy (recvbuf g) 0 (rbytes r)) ;;
          let g := Tr buf (default (sarecv g) (rsa r)) (host_str g) in
          hlen1 <~ checked (ip_hlen buf 0) ;;
          let icmplen := rv r - hlen1 in
          if icmplen <? 8 then recv_v4_loop f pr recvfd seq g     (* not enough to look at ICMP header *)
          else
            icmp_type <~ checked (buf !! Z.to_nat hlen1) ;;
            icmp_code <~ checked (buf !! (Z.to_nat hlen1 + 1)%nat) ;;
            let other := g <~ print_other pr g icmp_type icmp_code ;; recv_v4_loop f pr recvfd seq g in
            if (icmp_type =? ICMP_TIMXCEED) && (icmp_code =? ICMP_TIMXCEED_INTRANS) then
              q <~ checked (quoted_v4 buf hlen1 icmplen seq) ;;
              match q with
              | None => recv_v4_loop f pr recvfd seq g
              | Some true => mpure (-2, g)               (* we hit an intermediate router *)
              | Some false => other
              end
            else if icmp_type =? ICMP_UNREACH then
              q <~ checked (quoted_v4 buf hlen1 icmplen seq) ;;
              match q with
              | None => recv_v4_loop f pr recvfd seq g
              | Some true =>
                  mpure (if icmp_code =? ICMP_UNREACH_PORT then -1   (* have reached destination *)
                         else icmp_code, g)              (* 0, 1, 2, ... *)
              | Some false => other
              end
            else other
  end.

(** The end of both functions: the alarm is turned off and the time is taken, except after a
    timeout; [tv] is the caller's variable. *)
Definition recv_end (ret : Z) (tv : Z * Z) (g : tr) : M (Z * (Z * Z) * tr) :=
  if ret =? -3 then mpure (-3, tv, g)
  else
    sys (sys_alarm 0) ;;;                               (* don't leave alarm running *)
    t <~ Gettimeofday ;;                                (* get time of packet arrival *)
    tv <~ checked (match t with [s; u] => Some (s, u) | _ => None end) ;;
    mpure (ret, tv, g).

Definition recv_v4 (fuel : nat) (pr : proto) (recvfd seq : Z) (tv : Z * Z) (g : tr) : M (Z * (Z * Z) * tr) :=
  sys (sys_alarm 3) ;;;
  q <~ recv_v4_loop fuel pr recvfd seq g ;;
  recv_end (fst q) tv (snd q).

(** [recv_v6.c]: [None] at the [break] of line 53 when [ret] has not been assigned. *)
Definition quoted_v6 (buf : list Z) (seq : Z) : option bool :=
  ip6_nxt ← buf !! 14%nat;
  ours ← our_ports buf 48 seq;
  Some ((ip6_nxt =? IPPROTO_UDP) && ours).

Fixpoint recv_v6_loop (fuel : nat) (pr : proto) (recvfd seq : Z) (g : tr) : M (option Z * tr) :=
  match fuel with
  | O => no_fuel
  | S f =>
      alarm <~ gotalarm ;;
      if alarm : bool then mpure (Some (-3), g)          (* alarm expired *)
      else
        r <~ sys (sys_recvfrom recvfd BUFSIZE 0 true) ;;
        if rv r <? 0 then
          e <~ get_errno ;;
          if e =? EINTR then recv_v6_loop f pr recvfd seq g else err_sys c["recvfrom error"] []
        else
          buf <~ checked (memcpy (recvbuf g) 0 (rbytes r)) ;;
          let g := Tr buf (default (sarecv g) (rsa r)) (host_str g) in
          let icmp6len := rv r in
          if icmp6len <? 8 then recv_v6_loop f pr recvfd seq g    (* not enough to look at ICMP header *)
          else
            icmp6_type <~ checked (buf !! 0%nat) ;;
            icmp6_code <~ checked (buf !! 1%nat) ;;
            if (icmp6_type =? ICMP6_TIME_EXCEEDED) && (icmp6_code =? ICMP6_TIME_EXCEED_TRANSIT) then
              if icmp6len <? 8 + SIZEOF_IP6 + 4 then recv_v6_loop f pr recvfd seq g
              else
                ours <~ checked (quoted_v6 buf seq) ;;
                mpure (if ours : bool then Some (-2) else None, g)   (* break in either case *)
            else if icmp6_type =? ICMP6_DST_UNREACH then
              if icmp6len <? 8 + SIZEOF_IP6 + 4 then recv_v6_loop f pr recvfd seq g
              else
                ours <~ checked (quoted_v6 buf seq) ;;
                if ours : bool then
                  mpure (Some (if icmp6_code =? ICMP6_DST_UNREACH_NOPORT then -1 else icmp6_code), g)
                else recv_v6_loop f pr recvfd seq g
            else g <~ print_other pr g icmp6_type icmp6_code ;; recv_v6_loop f pr recvfd seq g
  end.

(** Returning a [ret] that has not been assigned is undefined. *)
Definition recv_v6 (fuel : nat) (pr : proto) (recvfd seq : Z) (tv : Z * Z) (g : tr) : M (Z * (Z * Z) * tr) :=
  sys (sys_alarm 3) ;;;
  q <~ recv_v6_loop fuel pr recvfd seq g ;;
  match fst q with
  | Some ret => recv_end ret tv (snd q)
  | None => sys (sys_alarm 0) ;;; Gettimeofday ;;; undefined
  end.

Definition recv (fuel : nat) (pr : proto) (recvfd seq : Z) (tv : Z * Z) (g : tr) : M (Z * (Z * Z) * tr) :=
  if is6 pr then recv_v6 fuel pr recvfd seq tv g else recv_v4 fuel pr recvfd seq tv g.

End Traceroute.

(** * traceloop.c *)

(** Error codes as text; [errbuf] holds 100 characters. *)
Definition icmpcode_v4 (code : Z) : cstring :=
  if code =? 0 then c["network unreachable"] else if code =? 1 then c["host unreachable"]
  else if code =? 2 then c["protocol unreachable"] else if code =? 3 then c["port unreachable"]
  else if code =? 4 then c["fragmentation required but DF bit set"]
  else if code =? 5 then c["source route failed"] else if code =? 6 then c["destination network unknown"]
  else if code =? 7 then c["destination host unknown"] else if code =? 8 then c["source host isolated (obsolete)"]
  else if code =? 9 then c["destination network administratively prohibited"]
  else if code =? 10 then c["destination host administratively prohibited"]
  else if code =? 11 then c["network unreachable for TOS"] else if code =? 12 then c["host unreachable for TOS"]
  else if code =? 13 then c["communication administratively prohibited by filtering"]
  else if code =? 14 then c["host recedence violation"] else if code =? 15 then c["precedence cutoff in effect"]
  else c["[unknown code "] ++ print_d code ++ c["]"].

Definition icmpcode_v6 (code : Z) : cstring :=
  if code =? 0 then c["no route to host"] else if code =? 1 then c["administratively prohibited"]
  else if code =? 2 then c["not a neighbor"] else if code =? 3 then c["address unreachable"]
  else if code =? 4 then c["port unreachable"]
  else c["[unknown code "] ++ print_d code ++ c["]"].

Definition SIZEOF_REC : nat := 24.      (* struct rec: two u_short, padding, a struct timeval *)

Record vars : Type := Vars {
  globals : tr;
  sasend : sockaddr;
  salast : sockaddr;
  sendbuf : list Z;
  tvrecv : Z * Z;
  seqno : Z;
  done_ : Z;
}.

Section Traceloop.
Context {os : OS} {SE : Strerror} {CF : Config} {AL : Alarm}.

(** [getnameinfo] of the address, without flags: the name, if there is one. *)
Context (hostname : sockaddr -> option cstring).
Context (dport : Z) (verbose : bool) (nprobes : nat).

(** What is printed for a reply, when it is from another host than the one before. *)
Definition print_host (pr : proto) (v : vars) : M vars :=
  let g := globals v in
  if sock_cmp_addr (sarecv g) (salast v) =? 0 then mpure v
  else
    p <~ Sock_ntop_host (host_str g) (sarecv g) (salen pr) ;;
    let '(str, off) := p in
    (match hostname (sarecv g) with
     | Some name => printf c[" %s (%s)"] [AStr name; AStr (cstring_at str off)]
     | None => printf c[" %s"] [AStr (cstring_at str off)]
     end) ;;;
    mpure (Vars (Tr (recvbuf g) (sarecv g) str) (sasend v) (sarecv g) (sendbuf v) (tvrecv v) (seqno v) (done_ v)).

(** The body of the inner loop. *)
Definition send_probe (fuel : nat) (sport : Z) (pr : proto) (recvfd sendfd ttl : Z) (v : vars) : M vars :=
  let seq := seqno v + 1 in
  buf <~ checked (memcpy (sendbuf v) 0 (bytes16 little_endian (u16 seq))) ;;
  buf <~ checked (memcpy buf 2 (bytes16 little_endian (u16 ttl))) ;;
  t <~ Gettimeofday ;;
  rec_tv <~ checked (match t with [s; u] => Some (s, u) | _ => None end) ;;
  buf <~ checked (memcpy buf 8 (bytes64 little_endian (fst rec_tv) ++ bytes64 little_endian (snd rec_tv))) ;;
  let dst := sock_set_port (sasend v) (port_field (htons (dport + seq))) in
  d <~ checked (load buf 0 SIZEOF_REC) ;;
  Sendto sendfd d 0 (Some dst) ;;;
  q <~ recv sport dport verbose fuel pr recvfd seq (tvrecv v) (globals v) ;;
  let '(code, tv, g) := q in
  let v := Vars g dst (salast v) buf tv seq (done_ v) in
  v <~ (if code =? -3 then printf c[" *"] [] ;;; mpure v          (* timeout, no reply *)
        else
          v <~ print_host pr v ;;
          let rtt := tv_sub (tvrecv v) rec_tv in
          printf c["  %s ms"] [AStr (ms_text rtt)] ;;;
          (if code =? -1 then mpure tt                            (* port unreachable; at destination *)
           else if code >=? 0 then
             printf c[" (ICMP %s)"] [AStr (if is6 pr then icmpcode_v6 code else icmpcode_v4 code)]
           else mpure tt) ;;;
          mpure (Vars (globals v) (sasend v) (salast v) (sendbuf v) rtt (seqno v)
                   (if code =? -1 then done_ v + 1 else done_ v))) ;;
  sys (sys_fflush stdout) ;;; mpure v.

Fixpoint send_probes (fuel : nat) (sport : Z) (pr : proto) (recvfd sendfd ttl : Z) (left : nat) (v : vars) : M vars :=
  match left with
  | O => mpure v
  | S k => v <~ send_probe fuel sport pr recvfd sendfd ttl v ;; send_probes fuel sport pr recvfd sendfd ttl k v
  end.

(** [for (ttl = 1; ttl <= max_ttl && done == 0; ttl++)]: [left] values of [ttl] remain. *)
Fixpoint ttl_loop (fuel : nat) (sport : Z) (pr : proto) (recvfd sendfd ttl : Z) (left : nat) (v : vars) : M vars :=
  match left with
  | O => mpure v
  | S k =>
      if negb (done_ v =? 0) then mpure v
      else
        Setsockopt sendfd (ttllevel pr) (ttloptname pr) (OInt ttl) ;;;
        let v := Vars (globals v) (sasend v) (SockOther 0) (sendbuf v) (tvrecv v) (seqno v) (done_ v) in
        sys (sys_fputs (pad_left 32 2 (print_d ttl) ++ [32]) stdout) ;;;
        sys (sys_fflush stdout) ;;;
        v <~ send_probes fuel sport pr recvfd sendfd ttl nprobes v ;;
        sys (sys_fputs [10] stdout) ;;;
        ttl_loop fuel sport pr recvfd sendfd (ttl + 1) k v
  end.

(** The filter that passes only the two kinds of message of interest. *)
Definition icmp6_filter : list Z :=
  (if little_endian then [245; 255; 255; 255] else [255; 255; 255; 245]) ++ replicate 28 255.

(** [sabind]: the zeroed address with its family. *)
Definition sabind_of (family : Z) : sockaddr :=
  if family =? AF_INET then SockIn [0; 0] [0; 0; 0; 0]
  else if family =? AF_INET6 then SockIn6 [0; 0] (replicate 16 0) 0 0
  else SockOther family.

(** [dest] is [pr->sasend], [buf] the zeroed [sendbuf]. *)
Definition traceloop (fuel max_ttl : nat) (pr : proto) (dest : sockaddr) (buf : list Z) (g : tr) (tv : Z * Z) : M vars :=
  recvfd <~ Socket (sa_family dest) SOCK_RAW (icmpproto pr) ;;
  uid <~ sys sys_getuid ;;
  sys (sys_setuid (rv uid)) ;;;                       (* don't need special permissions anymore *)
  (if (sa_family dest =? AF_INET6) && negb verbose
   then sys (sys_setsockopt recvfd IPPROTO_IPV6 ICMP6_FILTER (OBytes icmp6_filter)) ;;; mpure tt
   else mpure tt) ;;;
  sendfd <~ Socket (sa_family dest) SOCK_DGRAM 0 ;;
  pid <~ sys sys_getpid ;;
  let sport := Z.lor (Z.land (rv pid) 65535) 32768 in         (* our source UDP port # *)
  Bind sendfd (sock_set_port (sabind_of (sa_family dest)) (port_field (htons sport))) ;;;
  ttl_loop fuel sport pr recvfd sendfd 1 max_ttl (Vars g dest (SockOther 0) buf tv 0 0).

End Traceloop.
