(* ===== verification/TracerouteClaims.v ===== *)
(** [traceroute]: its probes, how the ICMP errors are matched to them, and what the program guarantees. *)

From S2P Require Import Prelude CText Sys Traces Error Wrappers Cksum SockUtil SockClaims RobustIO StreamFacts Servers.
From S2P Require Import Packet Traceroute.

(** * Observations *)

(** The number of attempts to receive. *)
Definition is_recv (e : event) : bool := match e.1 with sys_recvfrom _ _ _ _ => true | _ => false end.
Definition tries (h : list event) : nat := length (List.filter is_recv h).

(** The probes: the time to live in effect and the destination, oldest first. *)
Fixpoint cur_ttl (h : list event) : Z :=
  match h with
  | [] => 0
  | (c, _) :: h' => match c with sys_setsockopt _ _ _ (OInt v) => v | _ => cur_ttl h' end
  end.

Fixpoint sent_probes (h : list event) : list (Z * option sockaddr) :=
  match h with
  | [] => []
  | (c, _) :: h' => sent_probes h' ++ match c with sys_sendto _ _ _ sa => [(cur_ttl h', sa)] | _ => [] end
  end.

(** Calls that send no probe and leave the time to live alone. *)
Definition passive (c : syscall) : bool :=
  match c with sys_sendto _ _ _ _ | sys_setsockopt _ _ _ _ => false | _ => true end.

Definition same_sends (h h' : list event) : Prop := sent_probes h' = sent_probes h /\ cur_ttl h' = cur_ttl h.

Lemma passive_sends c r h : passive c = true -> same_sends h ((c, r) :: h).
Proof. intros H. split; [destruct c; try done; cbn; by rewrite app_nil_r|by destruct c]. Qed.

Lemma same_sends_trans h1 h2 h3 : same_sends h1 h2 -> same_sends h2 h3 -> same_sends h1 h3.
Proof. intros [? ?] [? ?]. split; congruence. Qed.

Lemma packets_quiet c r h : is_recv (c, r) = false -> packets ((c, r) :: h) = packets h /\ tries ((c, r) :: h) = tries h.
Proof.
  intros H. unfold packets, tries. rewrite collect_cons. cbn [List.filter]. rewrite H. split; [|done].
  destruct c; try done; by rewrite app_nil_r.
Qed.

Lemma packets_output evs h : Forall output evs -> packets (evs ++ h) = packets h /\ tries (evs ++ h) = tries h.
Proof.
  induction 1 as [|[c r] evs He _ IH]; [done|]. cbn [app].
  assert (Hq : is_recv (c, r) = false) by (unfold output in He; by destruct c).
  destruct (packets_quiet c r (evs ++ h) Hq) as [E1 E2], IH as [IH1 IH2].
  split; [exact (eq_trans E1 IH1)|exact (eq_trans E2 IH2)].
Qed.

Lemma packets_recv fd n fl w r h :
  packets ((sys_recvfrom fd n fl w, r) :: h) = packets h ++ (if 0 <=? rv r then [rbytes r] else []) /\
  tries ((sys_recvfrom fd n fl w, r) :: h) = S (tries h).
Proof. unfold packets. by rewrite collect_cons. Qed.

(** * What a packet answers *)

Section Spec.
Context (sport dport : Z).

(** The datagram quoted at offset [off] of packet [p], with its header of [hl] bytes, is the probe. *)
Definition probe_at (p : list Z) (off hl : nat) (proto_off : nat) (seq : Z) : Prop :=
  p !! (off + proto_off)%nat = Some IPPROTO_UDP /\
  take 2 (drop (off + hl) p) = htons sport /\ take 2 (drop (off + hl + 2) p) = htons (dport + seq).

(** An ICMPv4 error that quotes the probe: time exceeded in transit, or some kind of unreachable. *)
Definition quotes_v4 (p : list Z) (hl : Z) (seq : Z) : Prop :=
  exists hl2, hl + 28 <= Z.of_nat (length p) /\ ip_hlen p (Z.to_nat hl + 8) = Some hl2 /\
    hl + 8 + hl2 + 4 <= Z.of_nat (length p) /\ probe_at p (Z.to_nat hl + 8) (Z.to_nat hl2) 9 seq.

Definition answers_v4 (p : list Z) (seq code : Z) : Prop :=
  exists hl t k, ip_hlen p 0 = Some hl /\ p !! Z.to_nat hl = Some t /\ p !! (Z.to_nat hl + 1)%nat = Some k /\
    quotes_v4 p hl seq /\
    ((t = ICMP_TIMXCEED /\ k = ICMP_TIMXCEED_INTRANS /\ code = -2) \/
     (t = ICMP_UNREACH /\ code = if k =? ICMP_UNREACH_PORT then -1 else k)).

(** An ICMPv6 error that quotes the probe. *)
Definition quotes_v6 (p : list Z) (seq : Z) : Prop :=
  (52 <= length p)%nat /\ probe_at p 8 40 6 seq.

Definition answers_v6 (p : list Z) (seq code : Z) : Prop :=
  exists t k, p !! 0%nat = Some t /\ p !! 1%nat = Some k /\ quotes_v6 p seq /\
    ((t = ICMP6_TIME_EXCEEDED /\ k = ICMP6_TIME_EXCEED_TRANSIT /\ code = -2) \/
     (t = ICMP6_DST_UNREACH /\ code = if k =? ICMP6_DST_UNREACH_NOPORT then -1 else k)).

(** A time exceeded message that quotes some other datagram. *)
Definition foreign_v6 (p : list Z) (seq : Z) : Prop :=
  p !! 0%nat = Some ICMP6_TIME_EXCEEDED /\ p !! 1%nat = Some ICMP6_TIME_EXCEED_TRANSIT /\
  (52 <= length p)%nat /\ ~ quotes_v6 p seq.

Definition answers (six : bool) : list Z -> Z -> Z -> Prop := if six then answers_v6 else answers_v4.

Definition silent (six : bool) (seq : Z) (p : list Z) : Prop := forall code, ~ answers six p seq code.
End Spec.

(** * Reading the quoted datagram *)

Section Quoted.
Context (sport dport : Z).

Lemma our_ports_spec p tail udp seq :
  (udp + 4 <= length p)%nat ->
  our_ports sport dport (p ++ tail) udp seq =
  Some (bool_decide (take 2 (drop udp p) = htons sport /\ take 2 (drop (udp + 2) p) = htons (dport + seq))).
Proof.
  intros H. unfold our_ports. rewrite !load_prefix by lia. cbn [mbind option_bind]. f_equal.
  by rewrite bool_decide_and.
Qed.

Lemma quoted_v4_spec p tail hl seq :
  0 <= hl <= 60 -> (Z.to_nat hl < length p)%nat ->
  exists o, quoted_v4 sport dport (p ++ tail) hl (Z.of_nat (length p) - hl) seq = Some o /\
    (o = Some true <-> quotes_v4 sport dport p hl seq).
Proof.
  intros Hhl Hl. unfold quoted_v4. replace (Z.to_nat (hl + 8)) with (Z.to_nat hl + 8)%nat by lia.
  destruct (Z.ltb_spec (Z.of_nat (length p) - hl) (8 + 20)) as [Hs|Hs].
  { exists None. split; [done|]. split; [done|]. intros (hl2 & ? & _). lia. }
  destruct (ip_hlen_ok p (Z.to_nat hl + 8) ltac:(lia)) as (hl2 & E2 & H2).
  rewrite ip_hlen_prefix, E2 by lia. cbn [mbind option_bind].
  destruct (Z.ltb_spec (Z.of_nat (length p) - hl) (8 + hl2 + 4)) as [Ht|Ht].
  { exists None. split; [done|]. split; [done|]. intros (hl3 & _ & E3 & ? & _). assert (hl3 = hl2) by congruence. lia. }
  destruct (lookup_lt_is_Some_2 p (Z.to_nat hl + 8 + 9) ltac:(lia)) as [pr Hpr].
  rewrite lookup_app_l, Hpr by lia. cbn [mbind option_bind]. rewrite our_ports_spec by lia. cbn [mbind option_bind].
  eexists. split; [done|]. split.
  - intros [= [Hu%Z.eqb_eq Hp%bool_decide_eq_true]%andb_true_iff]. exists hl2.
    split; [lia|]. split; [done|]. split; [lia|]. split; [by rewrite Hpr, Hu|done].
  - intros (hl3 & _ & E3 & _ & Hu & Hp). assert (hl3 = hl2) as -> by congruence. rewrite Hpr in Hu. injection Hu as ->.
    f_equal. apply andb_true_iff. split; [done|]. by apply bool_decide_eq_true.
Qed.

Lemma quoted_v6_spec p tail seq :
  (52 <= length p)%nat ->
  exists b, quoted_v6 sport dport (p ++ tail) seq = Some b /\ (b = true <-> quotes_v6 sport dport p seq).
Proof.
  intros Hl. unfold quoted_v6. destruct (lookup_lt_is_Some_2 p 14 ltac:(lia)) as [pr Hpr].
  rewrite lookup_app_l, Hpr by lia. cbn [mbind option_bind]. rewrite our_ports_spec by lia. cbn [mbind option_bind].
  eexists. split; [done|]. rewrite andb_true_iff, bool_decide_eq_true, Z.eqb_eq. unfold quotes_v6, probe_at.
  change (8 + 6)%nat with 14%nat. change (8 + 40)%nat with 48%nat. rewrite Hpr. split.
  - intros [-> ?]. by split.
  - intros (_ & [= ->] & ?). by split.
Qed.
End Quoted.

(** * Waiting for an answer *)

Record tr_ok (g : tr) : Prop := {
  tr_buf : length (recvbuf g) = Z.to_nat BUFSIZE;
  tr_str : length (host_str g) = 128%nat;
}.

(** A wait for the answer to probe [seq] that does not come to an end: since the history was [h0], [n] receives
    were made, each of them while the alarm had not been caught, and each was interrupted or got a packet that
    answers nothing. *)
Inductive starving {AL : Alarm} (sport dport : Z) (six : bool) (seq : Z) (h0 : list event) : nat -> list event -> Prop :=
  | starving_start : starving sport dport six seq h0 0 h0
  | starving_other e n h :
      is_recv e = false -> starving sport dport six seq h0 n h -> starving sport dport six seq h0 n (e :: h)
  | starving_recv c r n h :
      is_recv (c, r) = true -> caught h = false -> rv r < 0 \/ silent sport dport six seq (rbytes r) ->
      starving sport dport six seq h0 n h -> starving sport dport six seq h0 (S n) ((c, r) :: h).

Section Recv.
Context {os : OS} {SE : Strerror} {CF : Config} {AL : Alarm} {PL : PacketLaw}.
Context (sport dport : Z) (verbose : bool).
Hypothesis ipv6_on : ipv6 = true.

Lemma starving_trans six seq h0 h1 n m h :
  starving sport dport six seq h1 m h -> starving sport dport six seq h0 n h1 -> starving sport dport six seq h0 (m + n) h.
Proof. induction 1; intros Hst; [done|apply starving_other; auto|apply starving_recv; auto]. Qed.

Lemma starving_quiet six seq evs h : Forall (fun e => is_recv e = false) evs -> starving sport dport six seq h 0 (evs ++ h).
Proof. induction 1; [apply starving_start|by apply starving_other]. Qed.

(** What is to hold of the history wherever the process ends. *)
Context (I : list event -> Prop).
Hypothesis I_passive : forall c r h, passive c = true -> I h -> I ((c, r) :: h).

Lemma I_output evs h : Forall output evs -> I h -> I (evs ++ h).
Proof.
  intros H Hh. induction H as [|[c r] evs He _ IH]; [done|]. apply I_passive; [|done]. unfold output in He. by destruct c.
Qed.

(** The state in which the functions run. *)
Definition runs (s : st) : Prop := daemon_proc s = 0 /\ I (trace s).

(** Output changes nothing that is observed here. *)
Record quiet (s s' : st) : Prop := {
  qu_packets : packets (trace s') = packets (trace s);
  qu_evs : exists evs, trace s' = evs ++ trace s /\ Forall (fun e => is_recv e = false) evs;
  qu_sends : same_sends (trace s) (trace s');
  qu_runs : runs s -> runs s';
}.

Lemma quiet_call c r s : is_recv (c, r) = false -> passive c = true -> quiet s (after c r s).
Proof.
  intros H Hp. destruct (packets_quiet c r (trace s) H). constructor; try done; [by exists [(c, r)]; auto|by apply passive_sends|].
  intros [? ?]. split; [done|]. by apply I_passive.
Qed.

Lemma quiet_refl s : quiet s s.
Proof. constructor; try done. by exists []. Qed.

Lemma quiet_trans s1 s2 s3 : quiet s1 s2 -> quiet s2 s3 -> quiet s1 s3.
Proof.
  intros [A1 B1 C1 D1] [A2 B2 C2 D2]. constructor; [congruence| |by eapply same_sends_trans|auto].
  destruct B1 as (e1 & E1 & H1), B2 as (e2 & E2 & H2). exists (e2 ++ e1). rewrite E2, E1, app_assoc. by split; [|apply Forall_app].
Qed.

(** A wait that began in [s] and is still going on after [n] attempts, or over. *)
Abbreviation goes six seq s n := (ends I (starving sport dport six seq (trace s) n)).

(** What comes before a wait, or before the next attempt, counts as part of it. *)
Lemma ends_starving {A} six seq s s1 n m (Q Q' : A -> st -> Prop) o s' :
  starving sport dport six seq (trace s) n (trace s1) -> goes six seq s1 m Q o s' -> (forall a, Q a s' -> Q' a s') ->
  goes six seq s (m + n) Q' o s'.
Proof. intros H Ho HQ. destruct o; cbn in *; auto. destruct Ho as [? Hs]. split; [done|by eapply starving_trans]. Qed.

Lemma quiet_starving six seq s s1 : quiet s s1 -> starving sport dport six seq (trace s) 0 (trace s1).
Proof. intros [_ (evs & -> & H) _ _]. by apply starving_quiet. Qed.

Lemma print_other_spec Y pr g t k s :
  tr_ok g -> host_ok (sarecv g) ->
  wp (print_other verbose pr g t k) (ends I Y (fun g' s' => tr_ok g' /\ sarecv g' = sarecv g /\ quiet s s')) s.
Proof.
  intros [Hb Hs] Hh. unfold print_other. destruct verbose; [|apply ends_pure; split; [done|split; [done|apply quiet_refl]]].
  destruct (Sock_ntop_host_ok (sarecv g) (salen pr) (host_str g) s Hh Hs ipv6_on) as (str & E & Hl).
  apply wp_then. unfold wp at 1. rewrite E. cbn [andthen]. apply wp_then. unfold printf. eapply wp_checked; [reflexivity|].
  apply wp_then, wp_sys. cbn [andthen]. apply wp_pure. cbn [andthen]. apply ends_pure.
  split; [by constructor|]. split; [done|]. by apply quiet_call.
Qed.

(** What has happened when the wait is over. *)
Definition recv_post (six : bool) (seq : Z) (s : st) (code : Z) (g : tr) (s' : st) : Prop :=
  tr_ok g /\ runs s' /\ same_sends (trace s) (trace s') /\ exists skipped, Forall (silent sport dport six seq) skipped /\
    ((code = -3 /\ caught (trace s') = true /\ packets (trace s') = packets (trace s) ++ skipped) \/
     (-2 <= code /\ host_ok (sarecv g) /\
      exists p, answers sport dport six p seq code /\ packets (trace s') = packets (trace s) ++ skipped ++ [p])).

Lemma recv_post_skip six seq s s1 p code g s' :
  silent sport dport six seq p -> packets (trace s1) = packets (trace s) ++ [p] -> same_sends (trace s) (trace s1) ->
  recv_post six seq s1 code g s' -> recv_post six seq s code g s'.
Proof.
  intros Hp E Hss (Ho & Hd & Hs2 & sk & Hsk & H). split; [done|]. split; [done|].
  split; [by eapply same_sends_trans|]. exists (p :: sk). split; [by constructor|].
  rewrite E in H. destruct H as [(? & ? & H)|(? & ? & q & ? & H)]; [left|right]; rewrite H, <- !app_assoc; eauto 10.
Qed.

Lemma recv_post_same six seq s s1 code g s' :
  packets (trace s1) = packets (trace s) -> same_sends (trace s) (trace s1) ->
  recv_post six seq s1 code g s' -> recv_post six seq s code g s'.
Proof.
  intros E Hss (Ho & Hd & Hs2 & H). rewrite E in H. split; [done|]. split; [done|].
  split; [by eapply same_sends_trans|done].
Qed.

(** Going on after a packet that answers nothing; [P s] is the postcondition of a wait that begins
    in [s]. *)
Lemma recv_again {A} (P : st -> A -> st -> Prop) six seq s s1 s2 r n (loop : M A) fd :
  let c := sys_recvfrom fd BUFSIZE 0 true in
  s1 = after c r s -> quiet s1 s2 -> 0 <= rv r -> caught (trace s) = false -> silent sport dport six seq (rbytes r) ->
  (forall q s', packets (trace s2) = packets (trace s) ++ [rbytes r] -> same_sends (trace s) (trace s2) ->
     P s2 q s' -> P s q s') ->
  wp loop (goes six seq s2 n (P s2)) s2 -> wp loop (goes six seq s (S n) (P s)) s2.
Proof.
  cbv zeta. intros -> Hq Hr Hc Hsil Hskip H. eapply wp_mono; [exact H|]. intros o s' Ho. replace (S n) with (n + 1)%nat by lia.
  eapply ends_starving; [|exact Ho|].
  - change 1%nat with (0 + 1)%nat. eapply starving_trans; [by apply quiet_starving|]. apply starving_recv; auto. apply starving_start.
  - destruct Hq as [Hp _ Hss Hd]. intros a. apply Hskip; [|refine (same_sends_trans _ _ _ _ Hss); by apply passive_sends].
    rewrite Hp. destruct (packets_recv fd BUFSIZE 0 true r (trace s)) as [E _]. cbn [after trace]. rewrite E.
    by rewrite (proj2 (Z.leb_le 0 _)).
Qed.

Lemma short_silent p hl seq :
  ip_hlen p 0 = Some hl \/ p = [] -> Z.of_nat (length p) - hl < 8 -> silent sport dport false seq p.
Proof.
  intros Hh Hl code (hl' & t & k & Hh' & _ & _ & (? & ? & _) & _).
  destruct Hh as [Hh| ->]; [assert (hl' = hl) by congruence; lia|done].
Qed.

(** Receiving: the alarm has been caught; the call was interrupted; or there is a packet in the
    buffer. *)
Lemma receive_rule {A} Y recvfd g s (x : A) (again : M A) (k : sysret -> list Z -> M A) (Q : A -> st -> Prop) :
  tr_ok g -> runs s ->
  let c := sys_recvfrom recvfd BUFSIZE 0 true in let r := answer c s in let s1 := after c r s in
  (caught (trace s) = true -> Q x s) ->
  (caught (trace s) = false -> rv r < 0 -> packets (trace s1) = packets (trace s) -> same_sends (trace s) (trace s1) -> runs s1 ->
     wp again (ends I Y Q) s1) ->
  (forall sa, caught (trace s) = false -> 0 <= rv r -> bytes_ok (rbytes r) -> rv r = Z.of_nat (length (rbytes r)) -> (length (rbytes r) <= 1500)%nat ->
     rsa r = Some sa -> host_ok sa -> packets (trace s1) = packets (trace s) ++ [rbytes r] ->
     same_sends (trace s) (trace s1) -> runs s1 ->
     let buf := rbytes r ++ drop (length (rbytes r)) (recvbuf g) in length buf = 1500%nat ->
     tr_ok (Tr buf sa (host_str g)) -> wp (k r buf) (ends I Y Q) s1) ->
  wp (alarm <~ gotalarm ;;
      if alarm : bool then mpure x
      else
        r <~ sys c ;;
        if rv r <? 0 then e <~ get_errno ;; if e =? EINTR then again else err_sys c["recvfrom error"] []
        else buf <~ checked (memcpy (recvbuf g) 0 (rbytes r)) ;; k r buf) (ends I Y Q) s.
Proof.
  intros [Hb Hs] [Hd HI]. cbv zeta. set (c := sys_recvfrom recvfd BUFSIZE 0 true). set (r := answer c s). set (s1 := after c r s).
  assert (Hss : same_sends (trace s) (trace s1)) by by apply passive_sends.
  assert (Hrun : runs s1) by (split; [done|by apply I_passive]).
  intros Hcaught Hagain Hpacket.
  apply wp_then. unfold wp at 1, gotalarm. cbn [andthen]. destruct (caught (trace s)) eqn:Hc; [by apply ends_pure, Hcaught|].
  apply wp_then, wp_sys. cbn [andthen]. fold r s1.
  destruct (packets_recv recvfd BUFSIZE 0 true r (trace s)) as [Ep _]. change (_ :: trace s) with (trace s1) in Ep.
  destruct (packet_law (trace s) recvfd BUFSIZE 0 ltac:(done)) as [[Hby Hrd] Hsa]. fold c in Hby, Hrd, Hsa.
  change (os_answer (trace s) c) with r in *. destruct (Z.ltb_spec (rv r) 0) as [Hneg|Hpos].
  { rewrite (proj2 (Z.leb_gt 0 _)), app_nil_r in Ep by done.
    apply wp_then. cbn [get_errno wp andthen]. destruct (_ =? EINTR); [by apply Hagain|apply ends_err_sys; [apply I_output|done|done|apply Hrun]]. }
  rewrite (proj2 (Z.leb_le 0 _)) in Ep by done.
  destruct Hrd as [(? & _)|[Hlen Hle]]; [lia|]. destruct (Hsa Hpos) as (sa & Esa & Hh). unfold BUFSIZE in Hle, Hb.
  eapply wp_checked; [apply received_into; lia|]. eapply Hpacket; try done; [lia|llia|].
  constructor; cbn [recvbuf host_str]; [unfold BUFSIZE; llia|done].
Qed.

(** Packets of other kinds, and errors about other datagrams. *)
Lemma silent_type_v4 p hl t k seq :
  ip_hlen p 0 = Some hl -> p !! Z.to_nat hl = Some t -> p !! (Z.to_nat hl + 1)%nat = Some k ->
  t <> ICMP_UNREACH -> (t <> ICMP_TIMXCEED \/ k <> ICMP_TIMXCEED_INTRANS) -> silent sport dport false seq p.
Proof.
  intros Hh Ht Hk H1 H2 code (hl' & t' & k' & Hh' & Ht' & Hk' & _ & Hc). assert (hl' = hl) as -> by congruence.
  assert (t' = t) as -> by congruence. assert (k' = k) as -> by congruence. destruct Hc as [(? & ? & _)|[? _]]; tauto.
Qed.

Lemma silent_quote_v4 p hl seq : ip_hlen p 0 = Some hl -> ~ quotes_v4 sport dport p hl seq -> silent sport dport false seq p.
Proof. intros Hh Hq code (hl' & _ & _ & Hh' & _ & _ & ? & _). assert (hl' = hl) as -> by congruence. tauto. Qed.

Lemma recv_hit six seq s s1 code g p :
  tr_ok g -> host_ok (sarecv g) -> runs s1 -> same_sends (trace s) (trace s1) ->
  packets (trace s1) = packets (trace s) ++ [p] -> -2 <= code ->
  answers sport dport six p seq code -> recv_post six seq s code g s1.
Proof.
  intros Hg Hh Hd Hss Hp Hge Ha. split; [done|]. split; [done|]. split; [done|]. exists []. split; [done|]. right. by eauto.
Qed.

Lemma recv_v4_loop_spec fuel pr recvfd seq : forall g s, tr_ok g -> runs s ->
  wp (recv_v4_loop sport dport verbose fuel pr recvfd seq g)
    (goes false seq s fuel (fun q s' => recv_post false seq s q.1 q.2 s')) s.
Proof.
  induction fuel as [|f IH]; intros g s Hg Hd; cbn [recv_v4_loop]; [by split; [apply Hd|apply starving_start]|].
  eapply receive_rule; [done|done|..].
  { intros Hc. split; [done|]. split; [done|]. split; [done|]. exists []. split; [done|]. left. by rewrite app_nil_r. }
  { intros Hc Hneg Ep Hss Hrun. eapply wp_mono; [by apply IH|]. intros o s' Ho. replace (S f) with (f + 1)%nat by lia.
    eapply ends_starving; [|exact Ho|intros a; by apply recv_post_same]. apply starving_recv; auto. apply starving_start. }
  set (c := sys_recvfrom recvfd BUFSIZE 0 true). set (r := answer c s). set (s1 := after c r s). set (p := rbytes r).
  intros sa Hnc Hpos Hby Hlen Hle -> Hh Ep Hss Hrun buf Hbuf Hg1. cbn [default from_option id]. set (g1 := Tr _ _ _) in *.
  destruct (ip_hlen_ok buf 0 ltac:(lia)) as (hl & Ehl & Hhl). eapply wp_checked; [exact Ehl|].
  assert (Hpl : ip_hlen p 0 = Some hl \/ p = []).
  { destruct (decide (p = [])) as [->|Hne]; [by right|]. left. rewrite <- Ehl. unfold buf. symmetry.
    apply ip_hlen_prefix. destruct p; [done|cbn; lia]. }
  assert (Hagain : forall g2 s2, tr_ok g2 -> quiet s1 s2 -> silent sport dport false seq p ->
    wp (recv_v4_loop sport dport verbose f pr recvfd seq g2)
      (goes false seq s (S f) (fun q s' => recv_post false seq s q.1 q.2 s')) s2).
  { intros g2 s2 Hg2 Hq Hsil.
    eapply (recv_again (fun s q s' => recv_post false seq s q.1 q.2 s') false seq s s1 s2 r f);
      [done..|by intros; eapply recv_post_skip|]. apply IH; [done|by apply Hq]. }
  rewrite Hlen. destruct (Z.ltb_spec (Z.of_nat (length p) - hl) 8) as [Hsh|Hlong].
  { apply Hagain; [done|apply quiet_refl|]. by eapply short_silent. }
  destruct Hpl as [Hpl|Hpl]; [|rewrite Hpl in Hlong; cbn in Hlong; lia].
  destruct (lookup_lt_is_Some_2 p (Z.to_nat hl) ltac:(lia)) as [t Et0].
  destruct (lookup_lt_is_Some_2 p (Z.to_nat hl + 1) ltac:(lia)) as [k Ek].
  do 2 (eapply wp_checked; [unfold buf; rewrite lookup_app_l; [eassumption|lia]|]).
  pose proof (Forall_lookup_1 _ _ _ _ Hby Ek) as Hk. cbn in Hk.
  destruct (quoted_v4_spec sport dport p (drop (length p) (recvbuf g)) hl seq Hhl ltac:(lia)) as (o & Eo & Ho).
  assert (Hother : silent sport dport false seq p ->
    wp (g2 <~ print_other verbose pr g1 t k ;; recv_v4_loop sport dport verbose f pr recvfd seq g2)
      (goes false seq s (S f) (fun q s' => recv_post false seq s q.1 q.2 s')) s1).
  { intros Hsil. eapply ends_then; [by apply print_other_spec|]. intros g2 s2 (Hg2 & _ & Hq2). by apply Hagain. }
  assert (Hq : quiet s1 s1) by apply quiet_refl.
  assert (Hhit : forall code, -2 <= code -> o = Some true ->
    (t = ICMP_TIMXCEED /\ k = ICMP_TIMXCEED_INTRANS /\ code = -2) \/
    (t = ICMP_UNREACH /\ code = if k =? ICMP_UNREACH_PORT then -1 else k) -> recv_post false seq s code g1 s1).
  { intros code Hge Hoq Hc. eapply recv_hit; try done. exists hl, t, k. split_and!; try done. by apply Ho. }
  assert (Hmiss : o <> Some true -> silent sport dport false seq p) by (intros ?; eapply silent_quote_v4; [done|tauto]).
  destruct (Z.eqb_spec t ICMP_TIMXCEED) as [Ht|Ht]; [destruct (Z.eqb_spec k ICMP_TIMXCEED_INTRANS) as [Hkk|Hkk]|]; cbn [andb].
  2: { destruct (Z.eqb_spec t ICMP_UNREACH); [subst; done|]. eapply Hother, silent_type_v4; eauto. }
  2: destruct (Z.eqb_spec t ICMP_UNREACH) as [Hu|Hu]; [|eapply Hother, silent_type_v4; eauto].
  all: eapply wp_checked; [exact Eo|]; destruct o as [[|]|];
    [apply ends_pure|by apply Hother, Hmiss|by apply Hagain; [| |apply Hmiss]].
  - apply (Hhit (-2)); [lia|done|by left].
  - cbn [fst snd]. apply Hhit; [destruct (_ =? _); lia|done|by right].
Qed.

(** ** The same for IPv6

    The wait may also end with a message about another datagram, without a result. *)

Definition recv6_post (seq : Z) (s : st) (q : option Z * tr) (s' : st) : Prop :=
  match q.1 with
  | Some code => recv_post true seq s code q.2 s'
  | None => runs s' /\ exists skipped p, Forall (silent sport dport true seq) skipped /\
      foreign_v6 sport dport p seq /\ packets (trace s') = packets (trace s) ++ skipped ++ [p]
  end.

Lemma recv6_post_skip seq s s1 p q s' :
  silent sport dport true seq p -> packets (trace s1) = packets (trace s) ++ [p] -> same_sends (trace s) (trace s1) ->
  recv6_post seq s1 q s' -> recv6_post seq s q s'.
Proof.
  intros Hp E Hss. unfold recv6_post. destruct q.1; [by eapply recv_post_skip|].
  intros (Hr & sk & p' & Hsk & Hf & H). split; [done|]. exists (p :: sk), p'. split; [by constructor|]. split; [done|].
  by rewrite H, E, <- app_assoc.
Qed.

Lemma silent_v6 p seq :
  ((length p < 52)%nat \/ ~ quotes_v6 sport dport p seq \/
   (p !! 0%nat <> Some ICMP6_DST_UNREACH /\
    (p !! 0%nat <> Some ICMP6_TIME_EXCEEDED \/ p !! 1%nat <> Some ICMP6_TIME_EXCEED_TRANSIT))) ->
  silent sport dport true seq p.
Proof.
  intros H code (t & k & Ht & Hk & Hq & Hc). destruct H as [H|[H|[H1 H2]]]; [destruct Hq; lia|tauto|].
  destruct Hc as [(-> & -> & _)|[-> _]]; tauto.
Qed.

Lemma recv_v6_loop_spec fuel pr recvfd seq : forall g s, tr_ok g -> runs s ->
  wp (recv_v6_loop sport dport verbose fuel pr recvfd seq g)
    (goes true seq s fuel (recv6_post seq s)) s.
Proof.
  induction fuel as [|f IH]; intros g s Hg Hd; cbn [recv_v6_loop]; [by split; [apply Hd|apply starving_start]|].
  eapply receive_rule; [done|done|..].
  { intros Hc. split; [done|]. split; [done|]. split; [done|]. exists []. split; [done|]. left. by rewrite app_nil_r. }
  { intros Hc Hneg Ep Hss Hrun. eapply wp_mono; [by apply IH|]. intros o s' Ho. replace (S f) with (f + 1)%nat by lia.
    eapply ends_starving; [|exact Ho|]; [apply starving_recv; auto; apply starving_start|].
    intros q. unfold recv6_post. destruct q.1; [by apply recv_post_same|by rewrite Ep]. }
  set (c := sys_recvfrom recvfd BUFSIZE 0 true). set (r := answer c s). set (s1 := after c r s). set (p := rbytes r).
  intros sa Hnc Hpos Hby Hlen Hle -> Hh Ep Hss Hrun buf Hbuf Hg1. cbn [default from_option id]. set (g1 := Tr _ _ _) in *.
  assert (Hagain : forall g2 s2, tr_ok g2 -> quiet s1 s2 -> silent sport dport true seq p ->
    wp (recv_v6_loop sport dport verbose f pr recvfd seq g2)
      (goes true seq s (S f) (recv6_post seq s)) s2).
  { intros g2 s2 Hg2 Hq Hsil. eapply (recv_again (recv6_post seq) true seq s s1 s2 r f);
      [done..|by intros; eapply recv6_post_skip|]. apply IH; [done|by apply Hq]. }
  assert (Hq : quiet s1 s1) by apply quiet_refl.
  rewrite Hlen. destruct (Z.ltb_spec (Z.of_nat (length p)) 8) as [Hsh|Hlong].
  { apply Hagain; [done|done|]. apply silent_v6. left. lia. }
  destruct (lookup_lt_is_Some_2 p 0 ltac:(lia)) as [t Et0]. destruct (lookup_lt_is_Some_2 p 1 ltac:(lia)) as [k Ek].
  do 2 (eapply wp_checked; [unfold buf; rewrite lookup_app_l; [eassumption|lia]|]).
  pose proof (Forall_lookup_1 _ _ _ _ Hby Ek) as Hk. cbn in Hk. unfold SIZEOF_IP6.
  destruct (Z.eqb_spec t ICMP6_TIME_EXCEEDED) as [Ht|Ht]; [destruct (Z.eqb_spec k ICMP6_TIME_EXCEED_TRANSIT) as [Hkk|Hkk]|]; cbn [andb].
  2: { destruct (Z.eqb_spec t ICMP6_DST_UNREACH); [subst; done|]. eapply ends_then; [by apply print_other_spec|].
       intros g2 s2 (Hg2 & _ & Hq2). apply Hagain; [done|done|]. apply silent_v6. right. right. rewrite Et0, Ek. split; [|right]; congruence. }
  2: destruct (Z.eqb_spec t ICMP6_DST_UNREACH) as [Hu|Hu].
  3: { eapply ends_then; [by apply print_other_spec|]. intros g2 s2 (Hg2 & _ & Hq2). apply Hagain; [done|done|].
       apply silent_v6. right. right. rewrite Et0. split; [|left]; congruence. }
  all: destruct (Z.ltb_spec (Z.of_nat (length p)) (8 + 40 + 4)) as [Hs|Hs];
    [apply Hagain; [done|done|]; apply silent_v6; left; lia|].
  all: destruct (quoted_v6_spec sport dport p (drop (length p) (recvbuf g)) seq ltac:(lia)) as (b & Eb & Hb).
  all: eapply wp_checked; [exact Eb|]; destruct b; [apply ends_pure; eapply recv_hit; try done|].
  - exists t, k. split_and!; try done; [by apply Hb|by left].
  - apply ends_pure. split; [done|]. exists [], p. split; [done|]. split; [|done]. subst t k.
    split_and!; [done..|lia|]. intros ?%Hb. done.
  - destruct (_ =? _); lia.
  - exists t, k. split_and!; try done; [by apply Hb|by right].
  - apply Hagain; [done|done|]. apply silent_v6. right. left. by intros ?%Hb.
Qed.
End Recv.

(** * What the program guarantees *)

(** A packet answers one probe at most, with one code. *)
Lemma htons_inj a b : htons a = htons b -> u16 a = u16 b.
Proof.
  intros H. rewrite <- (ntohs_htons (u16 a)), <- (ntohs_htons (u16 b)) by (apply Z.mod_pos_bound; lia).
  assert (E : forall x, htons (u16 x) = htons x) by (intros x; unfold htons, u16; by rewrite Z.mod_mod).
  by rewrite !E, H.
Qed.

Lemma answers_unique sport dport six p n1 c1 n2 c2 :
  answers sport dport six p n1 c1 -> answers sport dport six p n2 c2 -> c1 = c2 /\ u16 (dport + n1) = u16 (dport + n2).
Proof.
  destruct six; cbn.
  - intros (t & k & Ht & Hk & (_ & _ & _ & Hp) & Hc) (t' & k' & Ht' & Hk' & (_ & _ & _ & Hp') & Hc').
    assert (t' = t) as -> by congruence. assert (k' = k) as -> by congruence. split; [|apply htons_inj; congruence].
    destruct Hc as [(? & ? & ?)|[? ?]], Hc' as [(? & ? & ?)|[? ?]]; subst; try done.
  - intros (h & t & k & Hh & Ht & Hk & (l & _ & Hl & _ & _ & _ & Hp) & Hc) (h' & t' & k' & Hh' & Ht' & Hk' & (l' & _ & Hl' & _ & _ & _ & Hp') & Hc').
    assert (h' = h) as -> by congruence. assert (l' = l) as -> by congruence.
    assert (t' = t) as -> by congruence. assert (k' = k) as -> by congruence. split; [|apply htons_inj; congruence].
    destruct Hc as [(? & ? & ?)|[? ?]], Hc' as [(? & ? & ?)|[? ?]]; subst; try done.
Qed.

Section Claims.
Context {os : OS} {SE : Strerror} {CF : Config} {AL : Alarm} {PL : PacketLaw} {TL : TimeLaw}.
Context (sport dport : Z) (verbose : bool).
Hypothesis ipv6_on : ipv6 = true.

Section Recv.
Context (I : list event -> Prop).
Hypothesis I_passive : forall c r h, passive c = true -> I h -> I ((c, r) :: h).

Abbreviation goes six seq s n := (ends I (starving sport dport six seq (trace s) n)).

Lemma gettimeofday_spec Y s :
  runs I s -> wp Gettimeofday (ends I Y (fun t s' => (exists sec usec, t = [sec; usec]) /\ quiet I s s')) s.
Proof.
  intros [Hd HI]. unfold Gettimeofday. set (c := sys_gettimeofday).
  eapply (ends_then _ _ _ _ (fun r s' => (exists sec usec, rints r = [sec; usec]) /\ quiet I s s')).
  - apply ends_call; [by apply I_output|done|done|by apply I_passive|]. unfold minus1. intros Hb%Z.eqb_neq.
    split; [by apply time_law|by apply quiet_call].
  - intros r s' [H Hq]. by apply ends_pure.
Qed.

Abbreviation post := (recv_post sport dport I).

Lemma recv_post_after six seq s code g s1 s2 :
  post six seq s code g s1 -> code <> -3 -> quiet I s1 s2 -> post six seq s code g s2.
Proof.
  intros (Hg & Hr & Hss & sk & Hsk & H) Hc [Hp _ Hs2 Hr2]. split; [done|]. split; [by apply Hr2|].
  split; [by eapply same_sends_trans|]. exists sk. split; [done|]. destruct H as [(? & _)|H]; [done|]. right. by rewrite Hp.
Qed.

Lemma recv_end_spec Y six seq s0 ret tv g s :
  post six seq s0 ret g s ->
  wp (recv_end ret tv g) (ends I Y (fun q s' => post six seq s0 q.1.1 q.2 s' /\ (q.1.1 = -3 -> q.1.2 = tv))) s.
Proof.
  intros Hp. unfold recv_end. destruct (Z.eqb_spec ret (-3)) as [->|Hne]; [by apply ends_pure|].
  apply wp_then, wp_sys. cbn [andthen]. set (s1 := after _ _ _).
  assert (Hq1 : quiet I s s1) by by apply quiet_call. pose proof Hp as (_ & Hr & _).
  eapply ends_then; [apply gettimeofday_spec; by apply Hq1|]. intros t s2 [(sec & usec & ->) Hq2].
  eapply wp_checked; [done|]. apply ends_pure. split; [|done]. cbn [fst snd]. eapply recv_post_after; [done|done|by eapply quiet_trans].
Qed.

Lemma recv_v4_spec fuel pr recvfd seq tv g s :
  tr_ok g -> runs I s ->
  wp (recv_v4 sport dport verbose fuel pr recvfd seq tv g)
    (goes false seq s fuel (fun q s' => post false seq s q.1.1 q.2 s' /\ (q.1.1 = -3 -> q.1.2 = tv))) s.
Proof.
  intros Hg Hr. unfold recv_v4. apply wp_then, wp_sys. cbn [andthen]. set (s1 := after _ _ _).
  assert (Hq : quiet I s s1) by by apply quiet_call. pose proof Hq as [Ep _ Hss Hr1].
  eapply ends_then.
  { eapply wp_mono; [apply (recv_v4_loop_spec sport dport verbose ipv6_on I I_passive fuel pr recvfd seq g s1); [done|by apply Hr1]|].
    intros o s2 Ho. replace fuel with (fuel + 0)%nat by lia. eapply ends_starving; [by eapply quiet_starving|exact Ho|]. done. }
  intros [ret g'] s2 H. cbn [fst snd] in *. apply recv_end_spec. by eapply recv_post_same.
Qed.

(** An IPv6 wait ends the same way, or without a value for [ret]. *)
Lemma recv_v6_spec fuel pr recvfd seq tv g s :
  tr_ok g -> runs I s ->
  wp (recv_v6 sport dport verbose fuel pr recvfd seq tv g)
    (fun o s' => match o with
       | Undefined => exists skipped p, Forall (silent sport dport true seq) skipped /\
           foreign_v6 sport dport p seq /\ packets (trace s') = packets (trace s) ++ skipped ++ [p]
       | _ => goes true seq s fuel (fun q s' => post true seq s q.1.1 q.2 s' /\ (q.1.1 = -3 -> q.1.2 = tv)) o s'
       end) s.
Proof.
  intros Hg Hr. unfold recv_v6. apply wp_then, wp_sys. cbn [andthen]. set (s1 := after _ _ _).
  assert (Hq : quiet I s s1) by by apply quiet_call. pose proof Hq as [Ep _ Hss Hr1].
  apply wp_then. eapply wp_mono; [apply (recv_v6_loop_spec sport dport verbose ipv6_on I I_passive fuel pr recvfd seq g s1); [done|by apply Hr1]|].
  intros o s2 Ho. apply (ends_starving sport dport I true seq s s1 0 fuel _ (recv6_post sport dport I seq s1)) in Ho;
    [|by eapply quiet_starving|done]. rewrite Nat.add_0_r in Ho.
  destruct o as [[[ret|] g']|e| | |]; try done; cbn [andthen fst snd] in *.
  - eapply wp_mono; [apply (recv_end_spec (starving sport dport true seq (trace s) fuel) true seq s); by eapply recv_post_same|].
    intros o s3 H3. by destruct o.
  - destruct Ho as (Hrun & sk & p & Hsk & Hf & Hp). rewrite Ep in Hp.
    apply wp_then, wp_sys. cbn [andthen]. set (s3 := after _ _ s2). assert (Hq3 : quiet I s2 s3) by by apply quiet_call.
    apply wp_then. eapply wp_mono; [apply (gettimeofday_spec (starving sport dport true seq (trace s) fuel)); by apply Hq3|].
    intros o s4 Ho. destruct o as [t|e| | |]; try done. cbn in Ho |- *. destruct Ho as [_ [E4 _ _ _]].
    exists sk, p. split_and!; try done. by rewrite E4, (qu_packets _ _ _ Hq3).
Qed.
End Recv.

(** C30: whatever arrives, [recv_v4] and [recv_v6] attribute an ICMP error to the probe [seq] exactly when the
    packet is one, long enough, that quotes a UDP datagram from our port to port [dport + seq]: -2 for time
    exceeded in transit, -1 for port unreachable, otherwise the code of the unreachable message.  The decision
    depends on the bytes of that packet alone, although the buffer still holds those of earlier ones; every
    packet before it answered nothing.  Otherwise they return -3 with the time untouched, when the alarm has been
    caught, or end the process with status 1.  No access leaves the buffer.  Only [recv_v6] can fail: after a
    time exceeded message about some other datagram it returns a variable that was never assigned (the
    [break] in line 53 of recv_v6.c is not part of the [if] above it).  The wait goes on only as
    long as every receive, made before the alarm was caught, is interrupted or gets a packet that answers
    nothing. *)
Theorem recv_identifies_probe fuel pr recvfd seq tv g s :
  tr_ok g -> daemon_proc s = 0 ->
  match recv sport dport verbose fuel pr recvfd seq tv g s with
  | (Val (code, tv', g'), s') => exists skipped, Forall (silent sport dport (is6 pr) seq) skipped /\
      ((code = -3 /\ tv' = tv /\ caught (trace s') = true /\ packets (trace s') = packets (trace s) ++ skipped) \/
       (-2 <= code /\ exists p, answers sport dport (is6 pr) p seq code /\
          packets (trace s') = packets (trace s) ++ skipped ++ [p]))
  | (Exited c, _) => c = 1
  | (Undefined, s') => is6 pr = true /\ exists skipped p, Forall (silent sport dport true seq) skipped /\
      foreign_v6 sport dport p seq /\ packets (trace s') = packets (trace s) ++ skipped ++ [p]
  | (OutOfFuel, s') => starving sport dport (is6 pr) seq (trace s) fuel (trace s')
  | (Aborted, _) => False
  end.
Proof.
  intros Hg Hd. assert (Hr : runs (fun _ => True) s) by done. unfold recv.
  assert (Hval : forall six code tv' g' s',
    recv_post sport dport (fun _ => True) six seq s code g' s' /\ (code = -3 -> tv' = tv) ->
    exists skipped, Forall (silent sport dport six seq) skipped /\
      ((code = -3 /\ tv' = tv /\ caught (trace s') = true /\ packets (trace s') = packets (trace s) ++ skipped) \/
       (-2 <= code /\ exists p, answers sport dport six p seq code /\ packets (trace s') = packets (trace s) ++ skipped ++ [p]))).
  { intros six code tv' g' s' [(_ & _ & _ & sk & Hsk & H) Ht]. exists sk. split; [done|].
    destruct H as [(? & ? & ?)|(? & _ & ?)]; [left; auto|by right]. }
  destruct (is6 pr).
  - pose proof (recv_v6_spec (fun _ => True) ltac:(done) fuel pr recvfd seq tv g s Hg Hr) as H. unfold wp in H.
    destruct (recv_v6 _ _ _ _ _ _ _ _ _ _) as [[[[code tv'] g']|e| | |] s']; try done; [by apply (Hval true code tv' g')|apply H|apply H].
  - pose proof (recv_v4_spec (fun _ => True) ltac:(done) fuel pr recvfd seq tv g s Hg Hr) as H. unfold wp in H.
    destruct (recv_v4 _ _ _ _ _ _ _ _ _ _) as [[[[code tv'] g']|e| | |] s']; try done; [by apply (Hval false code tv' g')|apply H|apply H].
Qed.
End Claims.

(** * The probes *)

Section Probes.
Context {os : OS} {SE : Strerror} {CF : Config} {AL : Alarm} {PL : PacketLaw} {TL : TimeLaw}.
Context (hostname : sockaddr -> option cstring).
Context (dport : Z) (verbose : bool) (nprobes max_ttl : nat) (addr : list Z).
Hypothesis ipv6_on : ipv6 = true.

(** The destination of probe [n], counted from 0: every probe has its own port, and the time to live
    grows by one every [nprobes] probes. *)
Definition probe_dest (n : nat) : Z * option sockaddr :=
  (Z.of_nat (n / nprobes) + 1, Some (SockIn (htons (dport + (Z.of_nat n + 1))) addr)).
Definition plan (n : nat) : list (Z * option sockaddr) := probe_dest <$> seq 0 n.

Lemma plan_S n : plan (S n) = plan n ++ [probe_dest n].
Proof. unfold plan. by rewrite seq_S, fmap_app. Qed.

(** Wherever the process ends, it has sent an initial part of the plan. *)
Definition on_plan (h : list event) : Prop := exists n, (n <= max_ttl * nprobes)%nat /\ sent_probes h = plan n.

Lemma on_plan_passive c r h : passive c = true -> on_plan h -> on_plan ((c, r) :: h).
Proof. intros Hc (n & Hn & E). exists n. destruct (passive_sends c r h Hc) as [E' _]. split; [done|congruence]. Qed.

Lemma on_plan_output evs h : Forall output evs -> on_plan h -> on_plan (evs ++ h).
Proof. apply I_output, on_plan_passive. Qed.

Context (fuel : nat) (sport : Z).
(** The wait for the answer to the last probe does not end. *)
Definition waiting (h : list event) : Prop :=
  exists h0, starving sport dport false (Z.of_nat (length (sent_probes h))) h0 fuel h.
Abbreviation goes := (ends on_plan waiting).
Abbreviation quiet := (quiet on_plan).

(** After [n] probes, those of the current round being from number [lo] on. *)
Record sending (lo n : nat) (ttl : Z) (v : vars) (s : st) : Prop := {
  sd_runs : runs on_plan s;
  sd_probes : sent_probes (trace s) = plan n;
  sd_ttl : cur_ttl (trace s) = ttl;
  sd_seq : seqno v = Z.of_nat n;
  sd_dest : exists port, sasend v = SockIn port addr;
  sd_globals : tr_ok (globals v);
  sd_buf : length (sendbuf v) = Z.to_nat BUFSIZE;
  sd_done : 0 <= done_ v /\ (done_ v <> 0 -> exists k p, (lo < k <= n)%nat /\ p ∈ packets (trace s) /\
     answers_v4 sport dport p (Z.of_nat k) (-1));
}.

Lemma printf_spec fmt args text s :
  vformat fmt args = Some text -> wp (printf fmt args) (goes (fun _ s' => quiet s s')) s.
Proof.
  intros E. unfold printf. eapply wp_checked; [exact E|]. apply wp_then, wp_sys. cbn [andthen]. apply ends_pure.
  apply quiet_call; [apply on_plan_passive|done|done].
Qed.

Lemma quiet_after c s : is_recv (c, answer c s) = false -> passive c = true -> quiet s (after c (answer c s) s).
Proof. apply quiet_call, on_plan_passive. Qed.

Lemma sending_quiet lo n ttl v s s' : sending lo n ttl v s -> quiet s s' -> sending lo n ttl v s'.
Proof.
  intros [] [Ep _ [Es Ec] Hr]. constructor; try done; try congruence; [by apply Hr|]. by rewrite Ep.
Qed.

Lemma htons_field x : bytes16 little_endian (u16 (port_field (htons x))) = htons x.
Proof.
  unfold htons. set (a := Z.shiftr (u16 x) 8). set (b := Z.land (u16 x) 255).
  assert (Hu : 0 <= u16 x < 65536) by (apply Z.mod_pos_bound; lia).
  assert (Ha : 0 <= a < 256).
  { unfold a. rewrite Z.shiftr_div_pow2 by lia. change (2 ^ 8) with 256. split; [apply Z.div_pos; lia|].
    apply Z.div_lt_upper_bound; lia. }
  assert (Hb : 0 <= b < 256).
  { unfold b. change 255 with (Z.ones 8). rewrite Z.land_ones by lia. apply Z.mod_pos_bound. lia. }
  unfold port_field, word16, bytes16, u16, wrap. change (2 ^ 16) with 65536.
  assert (Hm : forall h l, 0 <= h < 256 -> 0 <= l < 256 -> (256 * h + l) mod 65536 = 256 * h + l /\
    (256 * h + l) mod 256 = l /\ (256 * h + l) / 256 = h).
  { intros h l Hh Hl. rewrite (Z.mul_comm 256), Z.div_add_l, Z.div_small by lia.
    split; [apply Z.mod_small; lia|]. split; [|lia]. rewrite Z.add_comm, Z.mod_add by lia. by apply Z.mod_small. }
  destruct little_endian; [rewrite Z.add_comm; destruct (Hm b a) as (-> & -> & ->)|destruct (Hm a b) as (-> & -> & ->)]; done || lia.
Qed.

(** Printing the host changes only the buffers for it. *)
Lemma print_host_spec pr v s :
  tr_ok (globals v) -> host_ok (sarecv (globals v)) ->
  wp (print_host hostname pr v) (goes (fun v' s' => quiet s s' /\ tr_ok (globals v') /\ sasend v' = sasend v /\
    sendbuf v' = sendbuf v /\ seqno v' = seqno v /\ done_ v' = done_ v)) s.
Proof.
  intros Hg Hh. unfold print_host. destruct (_ =? 0).
  { apply ends_pure. split; [apply quiet_refl|]. by split_and!. }
  destruct (Sock_ntop_host_ok (sarecv (globals v)) (salen pr) (host_str (globals v)) s Hh (tr_str _ Hg) ipv6_on) as (str & E & Hl).
  apply wp_then. unfold wp at 1. rewrite E. cbn [andthen].
  eapply (ends_then _ _ _ _ (fun _ s' => quiet s s')).
  { destruct (hostname _); by eapply printf_spec. }
  intros _ s' Hq. apply ends_pure. split; [done|]. cbn. split_and!; try done. constructor; [apply Hg|done].
Qed.

(** Sending probe [n]. *)
Lemma sendto_spec lo n ttl v sendfd d seq s buf :
  sending lo n ttl v s -> (n < max_ttl * nprobes)%nat -> ttl = Z.of_nat (n / nprobes) + 1 -> length buf = Z.to_nat BUFSIZE ->
  seq = seqno v + 1 ->
  let sa := sock_set_port (sasend v) (port_field (htons (dport + seq))) in
  wp (Sendto sendfd d 0 (Some sa))
    (goes (fun _ s' => forall g last tv, tr_ok g -> sending lo (S n) ttl (Vars g sa last buf tv seq (done_ v)) s')) s.
Proof.
  intros [[Hd HI] Hp Ht Hseq [port Hsa] Hg Hb Hdone] Hn Httl Hbuf Hs. cbv zeta.
  assert (Esa : sock_set_port (sasend v) (port_field (htons (dport + seq))) = SockIn (htons (dport + (Z.of_nat n + 1))) addr).
  { rewrite Hsa. cbn [sock_set_port]. by rewrite htons_field, Hs, Hseq. }
  rewrite Esa. unfold Sendto. set (c := sys_sendto _ _ _ _). set (s1 := after c (answer c s) s).
  assert (Ep : sent_probes (trace s1) = plan (S n)).
  { rewrite plan_S, <- Hp. cbn [s1 after trace sent_probes c]. unfold probe_dest. by rewrite Ht, Httl. }
  assert (HI1 : on_plan (trace s1)) by (exists (S n); split; [lia|done]).
  eapply (ends_then _ _ _ _ (fun _ s' => s' = s1)); [by apply ends_call; [apply on_plan_output|..]|].
  intros _ s' ->. apply ends_pure. intros g last tv Hg'.
  destruct (packets_quiet c (answer c s) (trace s) eq_refl) as [Epk _].
  constructor; cbn [seqno sasend globals sendbuf done_]; try done; [by rewrite Hs, Hseq; lia|by eexists|].
  destruct Hdone as [? Hx]. split; [done|]. intros (k & p & ? & ? & ?)%Hx. exists k, p. split; [lia|].
  cbn [s1 after trace]. by rewrite Epk.
Qed.

(** What is printed for a reply. *)
Lemma print_reply_spec lo n ttl pr v code rec_tv s :
  sending lo (S n) ttl v s -> host_ok (sarecv (globals v)) -> code <> -3 ->
  (code = -1 -> (lo <= n)%nat /\ exists p, p ∈ packets (trace s) /\ answers_v4 sport dport p (Z.of_nat (S n)) (-1)) ->
  wp (v <~ print_host hostname pr v ;;
      let rtt := tv_sub (tvrecv v) rec_tv in
      printf c["  %s ms"] [AStr (ms_text rtt)] ;;;
      (if code =? -1 then mpure tt
       else if code >=? 0 then
         printf c[" (ICMP %s)"] [AStr (icmpcode_v4 code)]
       else mpure tt) ;;;
      mpure (Vars (globals v) (sasend v) (salast v) (sendbuf v) rtt (seqno v)
               (if code =? -1 then done_ v + 1 else done_ v)))
    (goes (fun v' s' => sending lo (S n) ttl v' s')) s.
Proof.
  intros Hs Hh Hc3 Hc. eapply ends_then; [apply (print_host_spec pr v s); [apply Hs|done]|].
  intros v1 s1 (Hq1 & Hg1 & Esa & Eb & Eq & Ed). cbv zeta.
  eapply (ends_then _ _ _ _ (fun _ s' => quiet s1 s')); [by eapply printf_spec|]. intros _ s2 Hq2.
  eapply (ends_then _ _ _ _ (fun _ s' => quiet s2 s')).
  { destruct (code =? -1); [apply ends_pure, quiet_refl|]. destruct (code >=? 0); [by eapply printf_spec|apply ends_pure, quiet_refl]. }
  intros _ s3 Hq3. apply ends_pure.
  assert (Hq : quiet s s3) by (eapply quiet_trans; [done|by eapply quiet_trans]).
  destruct (sending_quiet _ _ _ _ _ _ Hs Hq). constructor; cbn [seqno sasend globals sendbuf done_]; rewrite ?Esa, ?Eb, ?Eq, ?Ed; try done.
  destruct (Z.eqb_spec code (-1)) as [E1|]; [|done]. destruct sd_done0 as [? _]. split; [lia|]. intros _.
  destruct (Hc E1) as (Hlo & p & Hp & Ha). exists (S n), p. split; [lia|]. split; [by rewrite (qu_packets _ _ _ Hq)|done].
Qed.

Lemma send_probe_spec lo n ttl pr recvfd sendfd v s :
  is6 pr = false -> sending lo n ttl v s -> (lo <= n < max_ttl * nprobes)%nat -> ttl = Z.of_nat (n / nprobes) + 1 ->
  wp (send_probe hostname dport verbose fuel sport pr recvfd sendfd ttl v)
    (goes (fun v' s' => sending lo (S n) ttl v' s')) s.
Proof.
  intros H4 Hs Hn Httl. unfold send_probe. pose proof (sd_buf _ _ _ _ _ Hs) as Hb. unfold BUFSIZE in Hb.
  destruct (memcpy_some (sendbuf v) (bytes16 little_endian (u16 (seqno v + 1))) 0) as (b1 & E1 & L1); [rewrite length_bytes16; lia|].
  eapply wp_checked; [exact E1|].
  destruct (memcpy_some b1 (bytes16 little_endian (u16 ttl)) 2) as (b2 & E2 & L2); [rewrite length_bytes16; lia|].
  eapply wp_checked; [exact E2|].
  eapply ends_then; [apply (gettimeofday_spec on_plan on_plan_passive), Hs|]. intros t s1 [(sec & usec & ->) Hq1].
  eapply wp_checked; [done|]. cbn [fst snd].
  destruct (memcpy_some b2 (bytes64 little_endian sec ++ bytes64 little_endian usec) 8) as (b3 & E3 & L3);
    [rewrite length_app, !length_bytes64; lia|].
  eapply wp_checked; [exact E3|]. eapply wp_checked; [apply load_ok; unfold SIZEOF_REC; lia|].
  eapply ends_then; [apply (sendto_spec lo n ttl v) with (buf := b3); [by eapply sending_quiet|lia|done|unfold BUFSIZE; lia|done]|].
  intros ? s2 Hsent. unfold recv. rewrite H4.
  set (I := fun h : list event => sent_probes h = plan (S n)).
  assert (HI : forall h, I h -> on_plan h) by (intros h Hh; exists (S n); split; [lia|exact Hh]).
  assert (Hr2 : runs I s2).
  { destruct (Hsent (globals v) (salast v) (tvrecv v)) as [[? _] ? _ _ _ _ _ _]; [apply Hs|by split]. }
  eapply (ends_then _ _ _ _ (fun q s' => recv_post sport dport I false (seqno v + 1) s2 q.1.1 q.2 s')).
  { eapply wp_mono; [apply (recv_v4_spec sport dport verbose ipv6_on I); [|apply Hs|done]|].
    - intros c r h Hc Hh. unfold I. by rewrite (proj1 (passive_sends c r h Hc)).
    - intros o s' Ho. destruct o; cbn in Ho |- *; try done; [apply Ho|split; [apply Ho|apply HI, Ho]|].
      destruct Ho as [Hh Hst]. split; [by apply HI|]. exists (trace s2). rewrite Hh. unfold plan. rewrite length_fmap, length_seq.
      replace (Z.of_nat (S n)) with (seqno v + 1) by (rewrite (sd_seq _ _ _ _ _ Hs); lia). exact Hst. }
  intros [[code tv] g] s3 (Hg & [Hd3 Hi3] & Hss & sk & _ & Hend). cbn [fst snd] in *.
  assert (Hr3 : runs on_plan s3) by (split; [done|by apply HI]).
  assert (Hs3 : sending lo (S n) ttl (Vars g (sock_set_port (sasend v) (port_field (htons (dport + (seqno v + 1))))) (salast v) b3 tv (seqno v + 1) (done_ v)) s3).
  { destruct (Hsent g (salast v) tv Hg) as [Hr Hp Ht Hq Hd Hg' Hbf [Hz Hdn]]. destruct Hss as [Ess Ect].
    constructor; try done; try congruence. split; [done|]. intros (k & p & ? & Hin & ?)%Hdn. exists k, p. split_and!; try done; try lia.
    destruct Hend as [(_ & _ & ->)|(_ & _ & p' & _ & ->)]; apply elem_of_app; by left. }
  eapply (ends_then _ _ _ _ (fun v' s' => sending lo (S n) ttl v' s')).
  - destruct (Z.eqb_spec code (-3)) as [E3'|Hne].
    + eapply (ends_then _ _ _ _ (fun _ s' => quiet s3 s')); [by eapply printf_spec|]. intros _ s4 Hq4. apply ends_pure. by eapply sending_quiet.
    + destruct Hend as [(? & _)|(_ & Hh & p & Ha & Hp)]; [done|].
      eapply wp_mono; [apply (print_reply_spec lo n ttl pr _ code (sec, usec) s3 Hs3 Hh Hne)|].
      * intros ->. split; [lia|]. exists p. split; [rewrite Hp; rewrite !elem_of_app; right; right; by left|].
        replace (Z.of_nat (S n)) with (seqno v + 1) by (rewrite (sd_seq _ _ _ _ _ Hs); lia). exact Ha.
      * done.
  - intros v4 s4 Hs4. apply wp_then, wp_sys. cbn [andthen]. apply ends_pure. eapply sending_quiet; [done|by apply quiet_after].
Qed.

Lemma send_probes_spec t0 pr recvfd sendfd left : forall n v s,
  is6 pr = false -> sending (t0 * nprobes) n (Z.of_nat t0 + 1) v s -> (n + left = t0 * nprobes + nprobes)%nat ->
  (t0 * nprobes <= n)%nat -> (t0 < max_ttl)%nat ->
  wp (send_probes hostname dport verbose fuel sport pr recvfd sendfd (Z.of_nat t0 + 1) left v)
    (goes (fun v' s' => sending (t0 * nprobes) (t0 * nprobes + nprobes) (Z.of_nat t0 + 1) v' s')) s.
Proof.
  induction left as [|k IH]; intros n v s H4 Hs Hn Hlo Ht; cbn [send_probes].
  { apply ends_pure. by replace (t0 * nprobes + nprobes)%nat with n by lia. }
  eapply ends_then.
  { apply (send_probe_spec (t0 * nprobes) n); [done|done| |].
    - split; [lia|]. assert (S t0 * nprobes <= max_ttl * nprobes)%nat by (apply Nat.mul_le_mono_r; lia). lia.
    - replace n with (t0 * nprobes + (n - t0 * nprobes))%nat by lia. rewrite Nat.div_add_l, Nat.div_small by lia. lia. }
  intros v1 s1 Hs1. apply (IH (S n)); [done|done|lia|lia|done].
Qed.

(** The time to live is set for the next round. *)
Lemma set_ttl_spec t0 ttl0 pr sendfd v s :
  sending (pred t0 * nprobes) (t0 * nprobes) ttl0 v s -> done_ v = 0 -> (t0 < max_ttl)%nat ->
  wp (Setsockopt sendfd (ttllevel pr) (ttloptname pr) (OInt (Z.of_nat t0 + 1)))
    (goes (fun _ s' => forall last, sending (t0 * nprobes) (t0 * nprobes) (Z.of_nat t0 + 1)
       (Vars (globals v) (sasend v) last (sendbuf v) (tvrecv v) (seqno v) (done_ v)) s')) s.
Proof.
  intros [[Hd HI] Hp Ht Hseq Hdest Hg Hb Hdone] H0 Hlt. unfold Setsockopt. set (c := sys_setsockopt _ _ _ _).
  set (s1 := after c (answer c s) s).
  assert (Ep : sent_probes (trace s1) = plan (t0 * nprobes)) by (cbn [s1 after trace sent_probes c]; by rewrite app_nil_r).
  assert (HI1 : on_plan (trace s1)).
  { exists (t0 * nprobes)%nat. split; [|done]. apply Nat.mul_le_mono_r. lia. }
  eapply (ends_then _ _ _ _ (fun _ s' => s' = s1)); [by apply ends_call; [apply on_plan_output|..]|].
  intros _ s' ->. apply ends_pure. intros last. constructor; try done. cbn [done_]. split; [lia|]. by rewrite H0.
Qed.

Lemma ttl_loop_spec pr recvfd sendfd left : forall t0 ttl0 v s,
  is6 pr = false -> sending (pred t0 * nprobes) (t0 * nprobes) ttl0 v s -> (t0 + left = max_ttl)%nat ->
  wp (ttl_loop hostname dport verbose nprobes fuel sport pr recvfd sendfd (Z.of_nat t0 + 1) left v)
    (goes (fun v' s' => exists T ttl', (T <= max_ttl)%nat /\ sending (pred T * nprobes) (T * nprobes) ttl' v' s' /\
       (done_ v' = 0 -> T = max_ttl))) s.
Proof.
  induction left as [|k IH]; intros t0 ttl0 v s H4 Hs Ht; cbn [ttl_loop].
  { apply ends_pure. exists t0, ttl0. split_and!; [lia|done|lia]. }
  destruct (Z.eqb_spec (done_ v) 0) as [Hd|Hd]; cbn [negb].
  2: { apply ends_pure. exists t0, ttl0. split_and!; [lia|done|done]. }
  eapply (ends_then _ _ _ _ (fun _ s1 => forall last, sending (t0 * nprobes) (t0 * nprobes) (Z.of_nat t0 + 1)
       (Vars (globals v) (sasend v) last (sendbuf v) (tvrecv v) (seqno v) (done_ v)) s1)); [eapply set_ttl_spec; [done|done|lia]|].
  intros _ s1 Hs1. do 2 (apply wp_then, wp_sys; cbn [andthen]).
  eapply ends_then.
  { apply (send_probes_spec t0 pr recvfd sendfd nprobes (t0 * nprobes)); [done| |lia|lia|lia].
    eapply sending_quiet; [eapply sending_quiet; [apply Hs1|]|]; by apply quiet_after. }
  intros v2 s2 Hs2. apply wp_then, wp_sys. cbn [andthen].
  replace (Z.of_nat t0 + 1 + 1) with (Z.of_nat (S t0) + 1) by lia.
  apply (IH (S t0) (Z.of_nat t0 + 1)); [done| |lia]. cbn [pred]. replace (S t0 * nprobes)%nat with (t0 * nprobes + nprobes)%nat by lia.
  eapply sending_quiet; [done|by apply quiet_after].
Qed.
End Probes.

Section Traceloop.
Context {os : OS} {SE : Strerror} {CF : Config} {AL : Alarm} {PL : PacketLaw} {TL : TimeLaw}.
Context (hostname : sockaddr -> option cstring).
Context (dport : Z) (verbose : bool) (nprobes max_ttl : nat) (addr : list Z) (fuel : nat).
Hypothesis ipv6_on : ipv6 = true.

Abbreviation on_plan := (on_plan dport nprobes max_ttl addr).
Abbreviation plan := (plan dport nprobes addr).

(** Nothing has been sent yet. *)
Definition fresh (s : st) : Prop := runs on_plan s /\ sent_probes (trace s) = [].

Lemma fresh_sys c s : fresh s -> passive c = true -> fresh (after c (answer c s) s).
Proof.
  intros [[Hd HI] Hp] Hc. split; [split; [done|by apply on_plan_passive]|].
  destruct (passive_sends c (answer c s) (trace s) Hc) as [E _]. exact (eq_trans E Hp).
Qed.

Lemma fresh_call Y c bad msg s :
  fresh s -> passive c = true -> plain msg = true -> wp (call c bad msg) (ends on_plan Y (fun _ s' => fresh s')) s.
Proof.
  intros Hf Hc Hm. pose proof (fresh_sys c s Hf Hc) as Hf1. pose proof Hf1 as [[_ HI] _].
  apply ends_call; [apply on_plan_output|done|apply Hf|done|done].
Qed.

(** What is known when [traceloop] waits for ever. *)
Definition unanswered (h : list event) : Prop := exists pid, waiting dport fuel (Z.lor (Z.land pid 65535) 32768) h.

(** C31: [traceloop] sends its probes as planned and stops at the destination.  For an IPv4 destination: the probes
    go to the destination address, probe [k] (from 0) to port [dport + k + 1] with a time to live of [k / nprobes + 1],
    in this order and no others, at most [max_ttl * nprobes] of them.  It returns after a whole number [T] of rounds:
    after [max_ttl] of them, or earlier, and then an ICMP port unreachable message has arrived for a probe of the last
    round.  If the process ends early, it does so with status 1 and has sent an initial part of the same plan.
    It always ends, unless the wait for the answer to the last probe sent goes on: [fuel] receives one after the
    other, each made before the alarm was caught, that were interrupted or got a packet that answers nothing.
    (A receive that blocks for ever, when the alarm comes between the test of [gotalarm] and [recvfrom],
    recv_v4.c:25, is outside the model: a call always returns.) *)
Theorem traceloop_plan pr port buf g tv s :
  is6 pr = false -> tr_ok g -> length buf = Z.to_nat BUFSIZE -> daemon_proc s = 0 -> sent_probes (trace s) = [] ->
  match traceloop hostname dport verbose nprobes fuel max_ttl pr (SockIn port addr) buf g tv s with
  | (Val v, s') => exists T, (T <= max_ttl)%nat /\ sent_probes (trace s') = plan (T * nprobes) /\
      if done_ v =? 0 then T = max_ttl
      else exists pid k p, (pred T * nprobes < k <= T * nprobes)%nat /\ p ∈ packets (trace s') /\
        answers_v4 (Z.lor (Z.land pid 65535) 32768) dport p (Z.of_nat k) (-1)
  | (Exited c, s') => c = 1 /\ exists n, (n <= max_ttl * nprobes)%nat /\ sent_probes (trace s') = plan n
  | (OutOfFuel, s') => exists n pid h0, (n <= max_ttl * nprobes)%nat /\ sent_probes (trace s') = plan n /\
      starving (Z.lor (Z.land pid 65535) 32768) dport false (Z.of_nat n) h0 fuel (trace s')
  | _ => False
  end.
Proof.
  intros H4 Hg Hb Hd Hp. assert (Hf : fresh s) by (split; [split; [done|]|done]; exists 0%nat; split; [lia|done]).
  assert (H : wp (traceloop hostname dport verbose nprobes fuel max_ttl pr (SockIn port addr) buf g tv)
    (ends on_plan unanswered (fun v s' => exists pid T ttl', (T <= max_ttl)%nat /\
       sending dport nprobes max_ttl addr (Z.lor (Z.land pid 65535) 32768) (pred T * nprobes) (T * nprobes) ttl' v s' /\
       (done_ v = 0 -> T = max_ttl))) s).
  { unfold traceloop, Socket, Bind. eapply (ends_then _ _ _ _ (fun _ s1 => fresh s1)).
    { eapply (ends_then _ _ _ _ (fun _ s1 => fresh s1)); [by apply fresh_call|by intros; apply ends_pure]. }
    intros recvfd s1 Hf1. do 2 (apply wp_then, wp_sys; cbn [andthen]).
    eapply (ends_then _ _ _ _ (fun _ s2 => fresh s2)); [apply ends_pure; by apply fresh_sys, eq_refl; apply fresh_sys|].
    intros _ s2 Hf2. eapply (ends_then _ _ _ _ (fun _ s3 => fresh s3)).
    { eapply (ends_then _ _ _ _ (fun _ s1 => fresh s1)); [by apply fresh_call|by intros; apply ends_pure]. }
    intros sendfd s3 Hf3. apply wp_then, wp_sys. cbn [andthen]. set (pid := rv _).
    eapply (ends_then _ _ _ _ (fun _ s4 => fresh s4)).
    { eapply (ends_then _ _ _ _ (fun _ s1 => fresh s1)); [|by intros; apply ends_pure]. apply fresh_call; [by apply fresh_sys|done|done]. }
    intros _ s4 [Hr4 Hp4].
    eapply wp_mono; [apply (ttl_loop_spec hostname dport verbose nprobes max_ttl addr ipv6_on fuel
      (Z.lor (Z.land pid 65535) 32768) pr recvfd sendfd max_ttl 0 (cur_ttl (trace s4))); [done| |lia]|].
    2: { intros o s' Ho. destruct o; cbn in Ho |- *; try done; [by exists pid|]. destruct Ho as [? ?]. split; [done|by exists pid]. }
    constructor; try done. by exists port. }
  unfold wp in H. destruct (traceloop _ _ _ _ _ _ _ _ _ _ _ s) as [[v|e| | |] s']; try done.
  2: { destruct H as [(n & Hn & En) (pid & h0 & Hst)]. rewrite En in Hst. unfold TracerouteClaims.plan in Hst.
       rewrite length_fmap, length_seq in Hst. by exists n, pid, h0. }
  destruct H as (pid & T & ttl' & HT & [] & Hdone). exists T. split; [done|]. split; [done|].
  destruct (Z.eqb_spec (done_ v) 0) as [E|E]; [auto|]. destruct sd_done0 as [_ Hx]. destruct (Hx E) as (k & p & ? & ? & ?). by exists pid, k, p.
Qed.
End Traceloop.

(** * Concrete runs *)

(** The packets arrive one after the other; then the alarm goes off. *)
Definition trace_os (pkts : list (list Z)) : OS := fun h c =>
  match c with
  | sys_recvfrom _ n _ _ =>
      match pkts !! tries h with
      | Some p => SR (Z.of_nat (length (take (Z.to_nat n) p))) None (take (Z.to_nat n) p) [] (Some (SockIn [0; 0] [10; 0; 0; 1]))
      | None => failed (-1) EINTR
      end
  | sys_gettimeofday => SR 0 None [] [1000; Z.of_nat (length h)] None
  | sys_socket _ _ _ => ok 3
  | sys_getpid => ok 4660
  | sys_sendto _ d _ _ => ok (Z.of_nat (length d))
  | _ => ok 0
  end.

Definition trace_alarm (pkts : list (list Z)) : Alarm := fun h => bool_decide (length pkts <= tries h)%nat.

Lemma trace_os_packet pkts : Forall (fun p => bytes_ok p) pkts -> @PacketLaw (trace_os pkts).
Proof.
  intros Hb h fd n fl Hn. cbv zeta. unfold os_answer, trace_os. destruct (pkts !! tries h) as [p|] eqn:E.
  - split; [split|].
    + apply Forall_take. by eapply (Forall_lookup_1 _ _ _ _ Hb E).
    + right. cbn [rv rbytes]. rewrite length_take. lia.
    + intros _. eexists. split; [done|]. split; [done|by apply bytes_ok_bool].
  - split; [split; [by apply bytes_ok_bool|left; by split_and!; [| eexists|]]|cbn; lia].
Qed.

Lemma trace_os_time pkts : @TimeLaw (trace_os pkts).
Proof. intros h _. by eexists _, _. Qed.

#[local] Instance trace_config : Config := {| ipv6 := true; have_sockaddr_dl := false; little_endian := true |}.
#[local] Existing Instance numeric_strerror.

(** An ICMP error from a router: its own IP header, the ICMP header, and the quoted datagram. *)
Definition icmp_error (type code sport dport : Z) : list Z :=
  [69; 0; 0; 56; 0; 0; 0; 0; 64; 1; 0; 0; 10; 0; 0; 1; 10; 0; 0; 9] ++ [type; code; 0; 0; 0; 0; 0; 0] ++
  [69; 0; 0; 52; 0; 0; 0; 0; 1; 17; 0; 0; 10; 0; 0; 9; 10; 0; 0; 7] ++ htons sport ++ htons dport ++ [0; 32; 0; 0].

(** Our port is 37428; of two errors, the second is about our first probe. *)
Definition two_errors : list (list Z) := [icmp_error 11 0 37428 33436; icmp_error 3 3 37428 33435].

Lemma two_errors_bytes : Forall (fun p => bytes_ok p) two_errors.
Proof. do 2 (constructor; [by apply bytes_ok_bool|]). constructor. Qed.

Definition tr0 : tr := Tr (replicate 1500 0) (SockOther 0) (replicate 128 0).
Lemma tr0_ok : tr_ok tr0.
Proof. constructor; [exact (length_replicate 1500 0)|exact (length_replicate 128 0)]. Qed.

Lemma recv_identifies_probe_witness :
  exists tv' g' s', @recv (trace_os two_errors) numeric_strerror trace_config (trace_alarm two_errors)
      37428 33434 false 3 (proto_v4 16) 3 1 (0, 0) tr0 init = (Val (-1, tv', g'), s') /\
    exists skipped p, Forall (silent 37428 33434 false 1) skipped /\ answers 37428 33434 false p 1 (-1) /\
      packets (trace s') = packets (trace init) ++ skipped ++ [p].
Proof.
  pose proof (@recv_identifies_probe (trace_os two_errors) numeric_strerror trace_config (trace_alarm two_errors)
    (trace_os_packet _ two_errors_bytes) (trace_os_time _) 37428 33434 false eq_refl 3 (proto_v4 16) 3 1 (0, 0) tr0 init tr0_ok eq_refl) as H.
  assert (Hv : exists tv' g' s', @recv (trace_os two_errors) numeric_strerror trace_config (trace_alarm two_errors)
      37428 33434 false 3 (proto_v4 16) 3 1 (0, 0) tr0 init = (Val (-1, tv', g'), s'))
    by (eexists _, _, _; vm_compute; reflexivity).
  destruct Hv as (tv' & g' & s' & Hv). exists tv', g', s'. split; [exact Hv|]. rewrite Hv in H.
  destruct H as (sk & Hsk & [(Hc & _)|(_ & p & Ha & Hp)]); [discriminate Hc|]. exists sk, p. split; [exact Hsk|]. split; [exact Ha|exact Hp].
Defined.

(** Two probes for each time to live, at most three; the second one reaches the destination: one round. *)
Definition port_errors : list (list Z) := [icmp_error 11 0 37428 33435; icmp_error 3 3 37428 33436].
Lemma port_errors_bytes : Forall (fun p => bytes_ok p) port_errors.
Proof. do 2 (constructor; [by apply bytes_ok_bool|]). constructor. Qed.

Lemma traceloop_plan_witness :
  exists v s', @traceloop (trace_os port_errors) numeric_strerror trace_config (trace_alarm port_errors) (fun _ => None)
      33434 false 2 5 3 (proto_v4 16) (SockIn [0; 0] [10; 0; 0; 7]) (replicate 1500 0) tr0 (0, 0) init = (Val v, s') /\
    done_ v = 1 /\ exists T, (T <= 3)%nat /\ sent_probes (trace s') = plan 33434 2 [10; 0; 0; 7] (T * 2).
Proof.
  pose proof (@traceloop_plan (trace_os port_errors) numeric_strerror trace_config (trace_alarm port_errors)
    (trace_os_packet _ port_errors_bytes) (trace_os_time _) (fun _ => None) 33434 false 2 3 [10; 0; 0; 7] 5 eq_refl
    (proto_v4 16) [0; 0] (replicate 1500 0) tr0 (0, 0) init eq_refl tr0_ok (length_replicate 1500 0) eq_refl eq_refl) as H.
  assert (Hv : exists v s', @traceloop (trace_os port_errors) numeric_strerror trace_config (trace_alarm port_errors) (fun _ => None)
      33434 false 2 5 3 (proto_v4 16) (SockIn [0; 0] [10; 0; 0; 7]) (replicate 1500 0) tr0 (0, 0) init = (Val v, s') /\ done_ v = 1)
    by (eexists _, _; split; [vm_compute; reflexivity|reflexivity]).
  destruct Hv as (v & s' & Hv & Hd). exists v, s'. split; [exact Hv|]. split; [exact Hd|]. rewrite Hv in H.
  destruct H as (T & HT & Hp & _). exists T. split; [exact HT|exact Hp].
Defined.

(** A time exceeded message about another program's datagram makes [recv_v6] return a variable that was
    never assigned. *)
Definition foreign_error : list Z :=
  [3; 0; 0; 0; 0; 0; 0; 0] ++ [96; 0; 0; 0; 0; 12; 17; 1] ++ replicate 32 0 ++ htons 5000 ++ htons 6000 ++ [0; 12; 0; 0].

Lemma recv_v6_unassigned :
  (@recv_v6 (trace_os [foreign_error]) numeric_strerror trace_config (trace_alarm [foreign_error])
     37428 33434 false 2 (proto_v6 28) 3 1 (0, 0) tr0 init).1 = Undefined.
Proof. vm_compute. reflexivity. Qed.
