(* ===== verification/Icmpd.v ===== *)
(** The daemon that hands ICMP errors to the processes whose datagrams caused them: [icmpd/icmpd.c],
    [readable_listen.c], [readable_conn.c], [readable_v4.c], [readable_v6.c], [icmpd.h], [unpicmpd.h].

    A client connects to a Unix-domain socket and passes the descriptor of its UDP socket, whose local
    port is entered in the table [client].  When a raw socket delivers an ICMP error that quotes a
    UDP datagram, a report is written to every client with the port of that datagram.  The global
    variables are the record [icmpd]; the automatic arrays [buf] and [icmpd_err], which are not
    initialised, are arguments. *)

From S2P Require Import Prelude CText Sys Error Wrappers Cksum SockUtil RobustIO Servers Packet.

Definition ICMPD_PATH : cstring := c["/tmp/icmpd"].

(** Values of Linux. *)
Definition EHOSTUNREACH : Z := 113.
Definition ECONNREFUSED : Z := 111.
Definition EMSGSIZE : Z := 90.

Record client_entry : Type := Client {
  connfd : Z;               (* Unix domain stream socket to client *)
  family : Z;               (* AF_INET or AF_INET6 *)
  lport : Z;                (* local port bound to client's UDP socket, network byte ordered *)
}.

Record icmpd : Type := Icmpd {
  fd4 : Z; fd6 : Z; listenfd : Z;
  maxi : Z; maxfd : Z; nready : Z;
  rset : list Z; allset : list Z;
  client : list client_entry;
  host_str : list Z;        (* the static buffer of sock_ntop_host *)
}.

Definition set_client (d : icmpd) (cs : list client_entry) : icmpd :=
  Icmpd (fd4 d) (fd6 d) (listenfd d) (maxi d) (maxfd d) (nready d) (rset d) (allset d) cs (host_str d).
Definition set_host_str (d : icmpd) (str : list Z) : icmpd :=
  Icmpd (fd4 d) (fd6 d) (listenfd d) (maxi d) (maxfd d) (nready d) (rset d) (allset d) (client d) str.
(** [return(--nready)] *)
Definition one_done (d : icmpd) : icmpd :=
  Icmpd (fd4 d) (fd6 d) (listenfd d) (maxi d) (maxfd d) (nready d - 1) (rset d) (allset d) (client d) (host_str d).

(** [struct icmpd_err]: [icmpd_errno] at 0, the type at 4, the code at 5, [icmpd_len] at 8, and the
    address at 16. *)
Definition SIZEOF_ICMPD_ERR : nat := 144.

Section Icmpd.
Context {os : OS} {SE : Strerror} {CF : Config}.

(** An [int] in memory. *)
Definition int_bytes (w : Z) : list Z :=
  let l := (fun k => Z.shiftr (u32 w) (8 * Z.of_nat k) mod 256) <$> seq 0 4 in
  if little_endian then l else rev l.

(** ** readable_listen.c *)

Fixpoint free_client (cs : list client_entry) : nat :=
  match cs with
  | [] => 0
  | cl :: cs' => if connfd cl <? 0 then 0 else S (free_client cs')
  end.

Definition readable_listen (afuel : nat) (d : icmpd) : M icmpd :=
  r <~ Accept afuel (listenfd d) true ;;
  let fd := rv r in
  (* find first available client[] structure *)
  let i := free_client (client d) in
  if (i =? Z.to_nat FD_SETSIZE)%nat then
    sys (sys_close fd) ;;;                             (* can't handle new client, *)
    mpure (one_done d)                                 (* rudely close the new connection *)
  else
    old <~ checked (client d !! i) ;;
    cs <~ checked (store (client d) i (Client fd (family old) (lport old))) ;;   (* save descriptor *)
    printf (c["new connection, i = %d, connfd = %d"] ++ [10]) [AInt (Z.of_nat i); AInt fd] ;;;
    allset' <~ checked (FD_SET fd (allset d)) ;;       (* add new descriptor to set *)
    mpure (one_done (Icmpd (fd4 d) (fd6 d) (listenfd d)
             (if Z.of_nat i >? maxi d then Z.of_nat i else maxi d)
             (if fd >? maxfd d then fd else maxfd d) (nready d) (rset d) allset' cs (host_str d))).

(** ** readable_conn.c *)

(** [clientdone]: the client is forgotten. *)
Definition clientdone (i : nat) (unixfd recvfd : Z) (d : icmpd) : M icmpd :=
  Close unixfd ;;;
  (if recvfd >=? 0 then Close recvfd else mpure tt) ;;;
  allset' <~ checked (FD_CLR unixfd (allset d)) ;;
  old <~ checked (client d !! i) ;;
  cs <~ checked (store (client d) i (Client (-1) (family old) (lport old))) ;;
  mpure (one_done (Icmpd (fd4 d) (fd6 d) (listenfd d) (maxi d) (maxfd d) (nready d) (rset d) allset' cs (host_str d))).

Definition clienterr (i : nat) (unixfd recvfd : Z) (d : icmpd) : M icmpd :=
  Write unixfd c["0"] ;;;                              (* tell client error occurred *)
  clientdone i unixfd recvfd d.

Definition set_port (i : nat) (fam port : Z) (d : icmpd) : M icmpd :=
  old <~ checked (client d !! i) ;;
  cs <~ checked (store (client d) i (Client (connfd old) fam port)) ;;
  mpure (set_client d cs).

Definition readable_conn (i : nat) (d : icmpd) : M icmpd :=
  cl <~ checked (client d !! i) ;;
  let unixfd := connfd cl in
  q <~ Read_fd unixfd 1 ;;
  let '(n, _, passed) := q in
  let recvfd := default (-1) passed in
  if n =? 0 then
    err_msg c["client %d terminated, recvfd = %d"] [AInt (Z.of_nat i); AInt recvfd] ;;;
    clientdone i unixfd recvfd d                       (* client probably terminated *)
  else if recvfd <? 0 then                             (* data from client; should be descriptor *)
    err_msg c["read_fd did not return descriptor"] [] ;;;
    clienterr i unixfd recvfd d
  else
    r <~ sys (sys_getsockname recvfd) ;;
    if rv r <? 0 then
      err_ret c["getsockname error"] [] ;;;
      clienterr i unixfd recvfd d
    else
      ss <~ checked (rsa r) ;;
      let fam := sa_family ss in
      let port := sock_get_port ss in
      d <~ set_port i fam port d ;;
      b <~ (if port =? 0 then
              port <~ sock_bind_wild recvfd fam ;;
              d <~ set_port i fam port d ;;
              mpure (d, port <=? 0)
            else mpure (d, false)) ;;
      let '(d, failed) := b in
      if failed : bool then
        err_ret c["error binding ephemeral port"] [] ;;;
        clienterr i unixfd recvfd d
      else
        Write unixfd c["1"] ;;;                        (* tell client all OK *)
        Close recvfd ;;;                               (* all done with client's UDP socket *)
        mpure (one_done d).

(** ** readable_v4.c, readable_v6.c *)

(** The report: the fields of [icmpd_err], the rest of it as it was. *)
Definition fill_report (err : list Z) (errno type code : Z) (dest : list Z) : option (list Z) :=
  err ← memcpy err 4 [type];
  err ← memcpy err 5 [code];
  err ← memcpy err 8 (int_bytes (Z.of_nat (length dest)));
  err ← memcpy err 16 dest;
  memcpy err 0 (int_bytes errno).

(** [for (i = 0; i <= maxi; i++)]: the report goes to all clients of the family with the port. *)
Fixpoint notify (idx : list nat) (d : icmpd) (fam sport errno type code : Z) (dest err : list Z) : M unit :=
  match idx with
  | [] => mpure tt
  | i :: idx' =>
      cl <~ checked (client d !! i) ;;
      if (connfd cl >=? 0) && (family cl =? fam) && (lport cl =? sport) then
        err <~ checked (fill_report err errno type code dest) ;;
        Write (connfd cl) err ;;;
        notify idx' d fam sport errno type code dest err
      else notify idx' d fam sport errno type code dest err
  end.

(** Convert type and code to a reasonable [errno] value. *)
Definition errno_v4 (icmp_type icmp_code : Z) : Z :=
  if icmp_type =? ICMP_UNREACH then
    if icmp_code =? ICMP_UNREACH_PORT then ECONNREFUSED
    else if icmp_code =? ICMP_UNREACH_NEEDFRAG then EMSGSIZE
    else EHOSTUNREACH
  else EHOSTUNREACH.

Definition errno_v6 (icmp6_type icmp6_code : Z) : Z :=
  if icmp6_type =? ICMP6_PACKET_TOO_BIG then EMSGSIZE
  else if (icmp6_type =? ICMP6_DST_UNREACH) && (icmp6_code =? ICMP6_DST_UNREACH_NOPORT) then ECONNREFUSED
  else EHOSTUNREACH.

(** [struct sockaddr_in] and [sockaddr_in6] in memory, without a length field. *)
Definition sockaddr_in_bytes (port addr : list Z) : list Z :=
  bytes16 little_endian AF_INET ++ port ++ addr ++ replicate 8 0.
Definition sockaddr_in6_bytes (port addr : list Z) : list Z :=
  bytes16 little_endian AF_INET6 ++ port ++ [0; 0; 0; 0] ++ addr ++ [0; 0; 0; 0].

(** The first message of both functions. *)
Definition print_from (fmt : cstring) (d : icmpd) (r : sysret) (len : Z) : M icmpd :=
  from <~ checked (rsa r) ;;
  p <~ Sock_ntop_host (host_str d) from len ;;
  let '(str, off) := p in
  printf fmt [AInt (rv r); AStr (cstring_at str off)] ;;;
  mpure (set_host_str d str).

Definition readable_v4 (buf err : list Z) (d : icmpd) : M icmpd :=
  r <~ Recvfrom (fd4 d) MAXLINE 0 true ;;
  buf <~ checked (memcpy buf 0 (rbytes r)) ;;
  d <~ print_from c["%d bytes ICMPv4 from %s:"] d r 16 ;;
  hlen1 <~ checked (ip_hlen buf 0) ;;
  let icmplen := rv r - hlen1 in
  if icmplen <? 8 then err_quit c["icmplen (%d) < 8"] [AInt icmplen]
  else
    let icmp := Z.to_nat hlen1 in
    icmp_type <~ checked (buf !! icmp) ;;
    icmp_code <~ checked (buf !! (icmp + 1)%nat) ;;
    printf (c[" type = %d, code = %d"] ++ [10]) [AInt icmp_type; AInt icmp_code] ;;;
    if (icmp_type =? ICMP_UNREACH) || (icmp_type =? ICMP_TIMXCEED) || (icmp_type =? ICMP_SOURCEQUENCH) then
      if icmplen <? 8 + 20 + 8 then err_quit c["icmplen (%d) < 8 + 20 + 8"] [AInt icmplen]
      else
        let hip := (icmp + 8)%nat in
        hlen2 <~ checked (ip_hlen buf hip) ;;
        ip_src <~ checked (load buf (hip + 12) 4) ;;
        ip_dst <~ checked (load buf (hip + 16) 4) ;;
        ip_p <~ checked (buf !! (hip + 9)%nat) ;;
        srcstr <~ Inet_ntop AF_INET ip_src (Some (replicate 16 0)) 16 ;;
        dststr <~ Inet_ntop AF_INET ip_dst (Some (replicate 16 0)) 16 ;;
        printf ([9] ++ c["srcip = %s, dstip = %s, proto = %d"] ++ [10])
          [AStr (cstring_at srcstr 0); AStr (cstring_at dststr 0); AInt ip_p] ;;;
        if ip_p =? IPPROTO_UDP then
          let udp := (hip + Z.to_nat hlen2)%nat in
          uh_sport <~ checked (load buf udp 2) ;;
          uh_dport <~ checked (load buf (udp + 2) 2) ;;
          notify (seq 0 (Z.to_nat (maxi d + 1))) d AF_INET (port_field uh_sport)
            (errno_v4 icmp_type icmp_code) icmp_type icmp_code (sockaddr_in_bytes uh_dport ip_dst) err ;;;
          mpure (one_done d)
        else mpure (one_done d)
    else mpure (one_done d).

Definition readable_v6 (buf err : list Z) (d : icmpd) : M icmpd :=
  r <~ Recvfrom (fd6 d) MAXLINE 0 true ;;
  buf <~ checked (memcpy buf 0 (rbytes r)) ;;
  d <~ print_from c["%d bytes ICMPv6 from %s:"] d r 28 ;;
  let icmp6len := rv r in
  if icmp6len <? 8 then err_quit c["icmp6len (%d) < 8"] [AInt icmp6len]
  else
    icmp6_type <~ checked (buf !! 0%nat) ;;
    icmp6_code <~ checked (buf !! 1%nat) ;;
    printf (c[" type = %d, code = %d"] ++ [10]) [AInt icmp6_type; AInt icmp6_code] ;;;
    if (icmp6_type =? ICMP6_DST_UNREACH) || (icmp6_type =? ICMP6_PACKET_TOO_BIG) || (icmp6_type =? ICMP6_TIME_EXCEEDED) then
      if icmp6len <? 8 + 8 then err_quit c["icmp6len (%d) < 8 + 8"] [AInt icmp6len]
      else
        ip6_src <~ checked (load buf (8 + 8) 16) ;;
        ip6_dst <~ checked (load buf (8 + 24) 16) ;;
        ip6_nxt <~ checked (buf !! (8 + 6)%nat) ;;
        srcstr <~ Inet_ntop AF_INET6 ip6_src (Some (replicate 46 0)) 46 ;;
        dststr <~ Inet_ntop AF_INET6 ip6_dst (Some (replicate 46 0)) 46 ;;
        printf ([9] ++ c["srcip = %s, dstip = %s, next hdr = %d"] ++ [10])
          [AStr (cstring_at srcstr 0); AStr (cstring_at dststr 0); AInt ip6_nxt] ;;;
        if ip6_nxt =? IPPROTO_UDP then
          let udp := (8 + Z.to_nat SIZEOF_IP6)%nat in
          uh_sport <~ checked (load buf udp 2) ;;
          uh_dport <~ checked (load buf (udp + 2) 2) ;;
          notify (seq 0 (Z.to_nat (maxi d + 1))) d AF_INET6 (port_field uh_sport)
            (errno_v6 icmp6_type icmp6_code) icmp6_type icmp6_code (sockaddr_in6_bytes uh_dport ip6_dst) err ;;;
          mpure (one_done d)
        else mpure (one_done d)
    else mpure (one_done d).

(** ** icmpd.c *)

Definition icmpd_init : M icmpd :=
  let client := replicate (Z.to_nat FD_SETSIZE) (Client (-1) 0 0) in   (* -1 indicates available entry *)
  fd4 <~ Socket AF_INET SOCK_RAW IPPROTO_ICMP ;;
  allset <~ checked (FD_SET fd4 []) ;;
  p <~ (if ipv6 then
          fd6 <~ Socket AF_INET6 SOCK_RAW IPPROTO_ICMPV6 ;;
          allset <~ checked (FD_SET fd6 allset) ;;
          mpure (fd6, allset, Z.max fd4 fd6)
        else mpure (0, allset, fd4)) ;;
  let '(fd6, allset, maxfd) := p in
  listenfd <~ Socket AF_LOCAL SOCK_STREAM 0 ;;
  sys (sys_unlink ICMPD_PATH) ;;;
  Bind listenfd (SockUn ICMPD_PATH) ;;;
  Listen listenfd LISTENQ ;;;
  allset <~ checked (FD_SET listenfd allset) ;;
  mpure (Icmpd fd4 fd6 listenfd (-1) (Z.max maxfd listenfd) 0 [] allset client (replicate 128 0)).

(** [if (FD_ISSET(fd, &rset)) if (handler() <= 0) continue;] *)
Definition visit (fd : Z) (handler next : icmpd -> M icmpd) (d : icmpd) : M icmpd :=
  ready <~ checked (FD_ISSET fd (rset d)) ;;
  if ready : bool then
    d <~ handler d ;;
    if nready d <=? 0 then mpure d else next d
  else next d.

(** Check all clients for data: the values of [i] that remain. *)
Fixpoint check_conns (idx : list nat) (d : icmpd) : M icmpd :=
  match idx with
  | [] => mpure d
  | i :: idx' =>
      cl <~ checked (client d !! i) ;;
      if connfd cl <? 0 then check_conns idx' d
      else
        ready <~ checked (FD_ISSET (connfd cl) (rset d)) ;;
        if ready : bool then
          d <~ readable_conn i d ;;
          if nready d <=? 0 then mpure d               (* no more readable descriptors *)
          else check_conns idx' d
        else check_conns idx' d
  end.

(** What is in the uninitialised arrays of the two functions that receive. *)
Definition garbage (stack : list event -> list Z * list Z) : M (list Z * list Z) :=
  fun s => (Val (stack (trace s)), s).

(** One iteration of [for ( ; ; )]. *)
Definition icmpd_round (afuel : nat) (stack : list event -> list Z * list Z) (d : icmpd) : M icmpd :=
  r <~ Select (maxfd d + 1) (allset d) [] [] None ;;
  let d := Icmpd (fd4 d) (fd6 d) (listenfd d) (maxi d) (maxfd d) (rv r) (rset_of r) (allset d) (client d) (host_str d) in
  let clients d := check_conns (seq 0 (Z.to_nat (maxi d + 1))) d in
  let v6 d := if ipv6 then visit (fd6 d) (fun d => g <~ garbage stack ;; readable_v6 g.1 g.2 d) clients d else clients d in
  let v4 d := visit (fd4 d) (fun d => g <~ garbage stack ;; readable_v4 g.1 g.2 d) v6 d in
  visit (listenfd d) (readable_listen afuel) v4 d.

Fixpoint icmpd_loop (afuel rounds : nat) (stack : list event -> list Z * list Z) (d : icmpd) : M icmpd :=
  match rounds with
  | O => mpure d
  | S k => d <~ icmpd_round afuel stack d ;; icmpd_loop afuel k stack d
  end.

Definition icmpd_main (afuel rounds : nat) (stack : list event -> list Z * list Z) : M icmpd :=
  d <~ icmpd_init ;; icmpd_loop afuel rounds stack d.

End Icmpd.
