(* ===== verification/IcmpdClaims.v ===== *)
(** The ICMP daemon: its table describes the connections that are open, no descriptor is lost, neither its own nor
    those its clients pass to it one at a time; and what the daemon guarantees for every behaviour of its clients and of the network. *)

From S2P Require Import Prelude CText Sys Traces Error Wrappers Cksum SockUtil SockClaims RobustIO StreamFacts.
From S2P Require Import Servers ClientTable Packet OpenFds Icmpd.

(** * The tables *)

Definition base (d : icmpd) : list Z := [fd4 d; fd6 d; listenfd d].
Definition conns (d : icmpd) : list Z := connfd <$> client d.
Definition all_fds (K : list Z) (d : icmpd) : list Z := base d ++ clients (conns d) ++ K.

Record daemon_ok (d : icmpd) : Prop := {
  da_table : table_ok (base d) (conns d) (allset d) (maxi d) (maxfd d);
  da_str : length (host_str d) = 128%nat;
}.

(** Descriptors that are lost in a message. *)
Lemma all_fds_later (r K' B C K : list Z) : r ++ K' ++ B ++ C ++ K ≡ₚ r ++ B ++ C ++ K' ++ K.
Proof. solve_Permutation. Qed.

(** Between two iterations. *)
(** [K] are the descriptors that have been lost: they stay open. *)
Definition running (d : icmpd) (s : st) : Prop := daemon_ok d /\ exists K, owns K (all_fds K d) s.

Lemma free_client_spec cs :
  free_client cs = length cs \/ exists cl, cs !! free_client cs = Some cl /\ connfd cl < 0.
Proof.
  induction cs as [|cl cs IH]; cbn [free_client]; [by left|].
  destruct (Z.ltb_spec (connfd cl) 0); [right; by exists cl|]. destruct IH as [->|?]; [by left|by right].
Qed.

Lemma conns_insert (cs : list client_entry) (i : nat) cl : connfd <$> <[i := cl]> cs = <[i := connfd cl]> (connfd <$> cs).
Proof. apply list_fmap_insert. Qed.

Lemma daemon_lookup d i : daemon_ok d -> (i < Z.to_nat FD_SETSIZE)%nat -> exists cl, client d !! i = Some cl.
Proof.
  intros [Ht _] Hi. pose proof (ok_length _ _ _ _ _ Ht) as Hl. unfold conns in Hl. rewrite length_fmap in Hl.
  apply lookup_lt_is_Some_2. lia.
Qed.

Lemma conns_lookup d i cl : client d !! i = Some cl -> conns d !! i = Some (connfd cl).
Proof. intros H. unfold conns. by rewrite list_lookup_fmap, H. Qed.

(** Changing the registration of an entry. *)
Lemma daemon_set_port d i cl fam port K :
  daemon_ok d -> client d !! i = Some cl -> daemon_ok (set_client d (<[i := Client (connfd cl) fam port]> (client d))) /\
  all_fds K (set_client d (<[i := Client (connfd cl) fam port]> (client d))) = all_fds K d.
Proof.
  intros [Ht Hs] Hi. assert (E : conns (set_client d (<[i := Client (connfd cl) fam port]> (client d))) = conns d).
  { unfold conns. cbn [set_client client]. rewrite conns_insert. cbn [connfd]. apply list_insert_id. by apply conns_lookup. }
  split; [|unfold all_fds; by rewrite E]. constructor; [|done]. rewrite E. exact Ht.
Qed.

Section Handlers.
Context {os : OS} {SE : Strerror} {CF : Config} {FL : FreshLaw} {NL : NameLaw} {PL : PacketLaw}.
Context (afuel : nat).

Abbreviation goes := (ends anything (fun h => (afuel <= aborted h)%nat)).

Lemma owns_accept fuel fd K L s :
  owns K L s -> (afuel <= fuel + aborted (trace s))%nat ->
  wp (Accept fuel fd true) (goes (fun r s' => 0 <= rv r < FD_SETSIZE /\ owns K (rv r :: L) s')) s.
Proof.
  revert s. induction fuel as [|fuel IH]; intros s Ho Hf; cbn [Accept]; [by split|].
  apply wp_then, wp_sys. cbn [andthen]. set (c := sys_accept fd true). destruct Ho as [Hd Hop Hnd Hlo].
  destruct (Z.ltb_spec (rv (answer c s)) 0) as [Hv|Hv].
  - assert (Hn : new_fds (c, answer c s) = []) by (cbn; by rewrite (proj2 (Z.leb_gt 0 _))).
    apply wp_then. cbn [get_errno wp andthen]. destruct (accept_again _); [|by apply ends_err_sys].
    apply IH.
    + constructor; [done| |done|done]. cbn [after trace opened fst c]. fold c. by rewrite Hn.
    + cbn [after trace]. unfold aborted in *. cbn [List.filter failed_accept fst snd c]. rewrite (proj2 (Z.ltb_lt _ _) Hv). cbn [length]. lia.
  - assert (Hn : new_fds (c, answer c s) = [rv (answer c s)]) by (cbn; by rewrite (proj2 (Z.leb_le 0 _))).
    destruct (fresh_law (trace s) c (rv (answer c s))) as [? Hfr]; [unfold answer in Hn; rewrite Hn; by left|].
    apply ends_pure. split; [done|]. constructor; [done| | |done].
    + cbn [after trace opened fst c]. fold c. rewrite Hn. cbn [app]. by rewrite Hop.
    + apply NoDup_cons. split; [by rewrite <- Hop|done].
Qed.

Lemma readable_listen_spec d s :
  running d s -> wp (readable_listen afuel d) (goes (fun d' s' => running d' s')) s.
Proof.
  intros [[Ht Hs] [K Ho]]. unfold readable_listen. eapply ends_then; [by apply owns_accept; [|lia]|].
  intros r s1 [Hr Ho1]. destruct (Nat.eqb_spec (free_client (client d)) (Z.to_nat FD_SETSIZE)) as [E|E].
  { apply wp_then, wp_sys. cbn [andthen]. apply ends_pure. split; [by constructor|]. destruct Ho1 as [Hd Hop Hnd Hlo].
    apply NoDup_cons in Hnd as [Hfd Hnd]. exists K. constructor; [done| |done|done].
    cbn [after trace opened fst]. rewrite Hop, filter_cons_False by tauto. by rewrite filter_absent. }
  destruct (free_client_spec (client d)) as [El|(cl & Hcl & Hneg)].
  { exfalso. pose proof (ok_length _ _ _ _ _ Ht) as Hl. unfold conns in Hl. rewrite length_fmap in Hl. congruence. }
  set (i := free_client (client d)) in *. eapply wp_checked; [exact Hcl|].
  pose proof (lookup_lt_Some _ _ _ Hcl) as Hlt. eapply wp_checked; [unfold store; by rewrite decide_True|].
  eapply (ends_then _ _ _ _ (fun _ s2 => owns K (rv r :: all_fds K d) s2)).
  { eapply owns_printf; [done|reflexivity|]. intros s' r' Ho' _. exact Ho'. }
  intros _ s2 Ho2. destruct (FD_SET_spec (rv r) (allset d) Hr) as (allset' & -> & Hset). eapply wp_checked; [done|].
  apply ends_pure. pose proof (conns_lookup d i cl Hcl) as Hcl'.
  pose proof (ow_distinct _ _ _ Ho2) as Hnd. apply NoDup_cons in Hnd as [Hfresh _].
  unfold all_fds in Hfresh. rewrite app_assoc in Hfresh. apply not_elem_of_app in Hfresh as [Hfresh _]. split.
  - constructor; [|done]. unfold conns. cbn [one_done client allset maxi maxfd]. rewrite conns_insert.
    eapply (table_add _ _ _ _ _ Ht i (connfd cl)); done.
  - exists K. eapply owns_perm; [exact Ho2|]. unfold all_fds, conns. cbn [one_done client]. rewrite conns_insert. cbn [connfd].
    rewrite (clients_add _ _ _ (rv r) Hcl') by (done || lia). solve_Permutation.
Qed.

(** A client is forgotten, and what it has passed is closed. *)
Lemma clientdone_spec d i cl recvfd K s :
  daemon_ok d -> client d !! i = Some cl -> 0 <= connfd cl ->
  owns K ((if recvfd >=? 0 then [recvfd] else []) ++ all_fds K d) s ->
  wp (clientdone i (connfd cl) recvfd d) (goes (fun d' s' => running d' s')) s.
Proof.
  intros [Ht Hs] Hi Hc Ho. pose proof (conns_lookup d i cl Hi) as Hi'.
  assert (Hrem : all_fds K d ≡ₚ connfd cl :: base d ++ clients (<[i := -1]> (conns d)) ++ K).
  { unfold all_fds. rewrite (clients_remove _ _ _ Hi' Hc) at 1. solve_Permutation. }
  unfold clientdone. set (L := base d ++ _) in Hrem. set (E := if recvfd >=? 0 then [recvfd] else []) in *.
  eapply (ends_then _ _ _ _ (fun _ s' => owns K (E ++ L) s')).
  { apply owns_close. eapply owns_perm; [exact Ho|]. rewrite Hrem. by rewrite <- Permutation_middle. }
  intros _ s1 Ho1. eapply (ends_then _ _ _ _ (fun _ s' => owns K L s')).
  { unfold E in Ho1. destruct (recvfd >=? 0); [by apply owns_close|by apply ends_pure]. }
  intros _ s2 Ho2.
  assert (Hr : 0 <= connfd cl < FD_SETSIZE).
  { split; [done|]. pose proof (ok_range _ _ _ _ _ Ht) as Hrg. by eapply Forall_lookup_1 in Hrg. }
  destruct (FD_CLR_spec (connfd cl) (allset d) Hr) as (allset' & -> & Hset). eapply wp_checked; [done|].
  eapply wp_checked; [exact Hi|]. pose proof (lookup_lt_Some _ _ _ Hi) as Hlt.
  eapply wp_checked; [unfold store; by rewrite decide_True|]. apply ends_pure. split.
  - constructor; [|done]. unfold conns. cbn [one_done client allset maxi maxfd]. rewrite conns_insert.
    by eapply (table_remove _ _ _ _ _ Ht i (connfd cl)).
  - exists K. unfold all_fds, conns. cbn [one_done client]. by rewrite conns_insert.
Qed.

Lemma clienterr_spec d i cl recvfd K s :
  daemon_ok d -> client d !! i = Some cl -> 0 <= connfd cl ->
  owns K ((if recvfd >=? 0 then [recvfd] else []) ++ all_fds K d) s ->
  wp (clienterr i (connfd cl) recvfd d) (goes (fun d' s' => running d' s')) s.
Proof.
  intros Hd Hi Hc Ho. unfold clienterr. eapply ends_then.
  { eapply (owns_write _ _ _ _ _ _ (fun _ s' => owns K _ s')); [exact Ho|]. intros s' Ho'. exact Ho'. }
  intros ? s1 Ho1. cbv beta in Ho1. by apply (clientdone_spec d i cl recvfd K).
Qed.

Lemma set_port_spec d i cl fam port K L s :
  daemon_ok d -> client d !! i = Some cl -> owns K L s ->
  wp (set_port i fam port d) (goes (fun d' s' => daemon_ok d' /\ all_fds K d' = all_fds K d /\
    client d' !! i = Some (Client (connfd cl) fam port) /\ owns K L s')) s.
Proof.
  intros Hd Hi Ho. unfold set_port. eapply wp_checked; [exact Hi|]. pose proof (lookup_lt_Some _ _ _ Hi) as Hlt.
  eapply wp_checked; [unfold store; by rewrite decide_True|]. apply ends_pure.
  destruct (daemon_set_port d i cl fam port K Hd Hi) as [? ?]. split_and!; try done. cbn [set_client client].
  by apply list_lookup_insert_eq.
Qed.

Lemma sock_bind_wild_spec fd fam K L s :
  owns K L s -> wp (sock_bind_wild fd fam) (goes (fun _ s' => owns K L s')) s.
Proof.
  intros Ho. assert (Hb : forall sa, wp (r <~ sys (sys_bind fd sa) ;; if rv r <? 0 then mpure (-1) else
    r <~ sys (sys_getsockname fd) ;; if rv r <? 0 then mpure (-1) else mpure (sock_get_port (default sa (rsa r))))
    (goes (fun _ s' => owns K L s')) s).
  { intros sa. apply wp_then, wp_sys. cbn [andthen]. destruct (_ <? 0); [apply ends_pure; by apply owns_steady|].
    apply wp_then, wp_sys. cbn [andthen]. destruct (_ <? 0); apply ends_pure; by repeat apply owns_steady. }
  unfold sock_bind_wild. destruct (fam =? AF_INET); [apply Hb|]. destruct ((fam =? AF_INET6) && ipv6); [apply Hb|by apply ends_pure].
Qed.

(** A formatted message of literal text and numbers has no NUL. *)
Ltac nul_free_text :=
  repeat first [apply Forall_app; split; [apply print_d_nul_free|] | apply Forall_cons; split; [done|] | apply Forall_nil; done].

(** A client has sent a descriptor, something else, or nothing more. *)
Lemma readable_conn_spec d i cl s :
  running d s -> client d !! i = Some cl -> 0 <= connfd cl ->
  wp (readable_conn i d) (goes (fun d' s' => running d' s')) s.
Proof.
  intros [Hd [K Ho]] Hi Hc. unfold readable_conn. eapply wp_checked; [exact Hi|].
  eapply ends_then; [by apply owns_read_fd|]. intros [[n b] o] s1 ((K' & Ho1) & Hr & Hn0 & Hn1).
  assert (Ho1' : owns (K' ++ K) (received_fd o ++ all_fds (K' ++ K) d) s1).
  { eapply owns_perm; [exact Ho1|]. unfold all_fds. by rewrite all_fds_later. }
  clear Ho1 Ho. rename Ho1' into Ho1. set (K2 := K' ++ K) in *. clearbody K2. clear K K'. rename K2 into K.
  set (recvfd := default (-1) o).
  assert (E : received_fd o = if recvfd >=? 0 then [recvfd] else []).
  { destruct o as [fd|]; [|done]. cbn. by rewrite Z.geb_leb. }
  rewrite E in Ho1. destruct (Z.eqb_spec n 0) as [Ez|Ez].
  { eapply (ends_then _ _ _ _ (fun _ s2 => owns K _ s2)); [|intros ? ? H; cbv beta in H; by apply (clientdone_spec d i cl recvfd K)].
    eapply owns_message; [exact Ho1|reflexivity| |done].
    nul_free_text. }
  destruct (Z.ltb_spec recvfd 0) as [Hneg|Hpos].
  { eapply (ends_then _ _ _ _ (fun _ s2 => owns K _ s2)); [|intros ? ? H; cbv beta in H; by apply (clienterr_spec d i cl recvfd K)].
    eapply owns_message; [exact Ho1|reflexivity|by repeat constructor|done]. }
  rewrite (proj2 (Z.geb_le recvfd 0)) in Ho1 by lia.
  assert (Herr : forall d' cl' s', daemon_ok d' -> all_fds K d' = all_fds K d -> client d' !! i = Some cl' -> connfd cl' = connfd cl ->
    owns K ([recvfd] ++ all_fds K d) s' -> wp (clienterr i (connfd cl) recvfd d') (goes (fun d' s' => running d' s')) s').
  { intros d' cl' s' Hd' Ha Hcl' Ec Ho'. rewrite <- Ec. apply (clienterr_spec d' i cl' recvfd K); [done|done|lia|].
    by rewrite (proj2 (Z.geb_le recvfd 0)), Ha by lia. }
  apply wp_then, wp_sys. cbn [andthen]. set (c := sys_getsockname recvfd).
  assert (Ho2 : owns K ([recvfd] ++ all_fds K d) (after c (answer c s1) s1)) by by apply owns_steady.
  destruct (Z.ltb_spec (rv (answer c s1)) 0) as [Hf|Hf].
  { eapply (ends_then _ _ _ _ (fun _ s2 => owns K _ s2)); [|intros; by eapply Herr].
    eapply owns_message; [exact Ho2|reflexivity|by repeat constructor|done]. }
  destruct (name_law (trace s1) recvfd Hf) as [ss Ess]. eapply wp_checked; [exact Ess|].
  eapply ends_then; [eapply set_port_spec; [done|done|exact Ho2]|]. intros d2 s2 (Hd2 & Ha2 & Hi2 & Ho3).
  eapply (ends_then _ _ _ _ (fun q s3 => let '(d3, _) := q in daemon_ok d3 /\ all_fds K d3 = all_fds K d /\
    (exists cl3, client d3 !! i = Some cl3 /\ connfd cl3 = connfd cl) /\ owns K ([recvfd] ++ all_fds K d) s3)).
  { destruct (_ =? 0); [|apply ends_pure; split_and!; [done|done|by eexists|done]].
    eapply ends_then; [by apply sock_bind_wild_spec|]. intros port s3 Ho4.
    eapply ends_then; [eapply set_port_spec; [done|exact Hi2|exact Ho4]|]. intros d3 s4 (Hd3 & Ha3 & Hi3 & Ho5).
    apply ends_pure. split_and!; [done|congruence|by eexists|done]. }
  intros [d3 failed] s3 (Hd3 & Ha3 & (cl3 & Hi3 & Ec3) & Ho4). destruct failed.
  { eapply (ends_then _ _ _ _ (fun _ s2 => owns K _ s2)); [|intros; by eapply Herr].
    eapply owns_message; [exact Ho4|reflexivity|by repeat constructor|done]. }
  eapply (ends_then _ _ _ _ (fun _ s4 => owns K ([recvfd] ++ all_fds K d) s4)); [by eapply owns_write|].
  intros _ s4 Ho5. eapply (ends_then _ _ _ _ (fun _ s5 => owns K (all_fds K d) s5)); [by apply owns_close|].
  intros _ s5 Ho6. apply ends_pure. split; [destruct Hd3; by constructor|]. exists K. unfold all_fds, conns, base in *.
  cbn [one_done client fd4 fd6 listenfd]. by rewrite Ha3.
Qed.

(** * Reports *)

Definition write_of (e : event) : list (Z * list Z) :=
  match e.1 with sys_write fd d => [(fd, d)] | _ => [] end.
Definition reports : list event -> list (Z * list Z) := collect write_of.

(** A report about a datagram to [dest]. *)
Record is_report (errno type code : Z) (dest b : list Z) : Prop := {
  rp_size : length b = SIZEOF_ICMPD_ERR;
  rp_errno : field b 0 4 = int_bytes errno;
  rp_type : field b 4 1 = [type];
  rp_code : field b 5 1 = [code];
  rp_len : field b 8 4 = int_bytes (Z.of_nat (length dest));
  rp_dest : field b 16 (length dest) = dest;
}.

Lemma length_int_bytes w : length (int_bytes w) = 4%nat.
Proof. unfold int_bytes. by destruct little_endian. Qed.

Lemma fill_report_spec err errno type code dest :
  length err = SIZEOF_ICMPD_ERR -> (length dest <= 128)%nat ->
  exists b, fill_report err errno type code dest = Some b /\ is_report errno type code dest b.
Proof.
  intros Hl Hd. unfold SIZEOF_ICMPD_ERR in *. unfold fill_report.
  destruct (memcpy_some err [type] 4) as (b1 & E1 & L1); [cbn; lia|]. rewrite E1. cbn [mbind option_bind].
  destruct (memcpy_some b1 [code] 5) as (b2 & E2 & L2); [cbn; lia|]. rewrite E2. cbn [mbind option_bind].
  destruct (memcpy_some b2 (int_bytes (Z.of_nat (length dest))) 8) as (b3 & E3 & L3); [rewrite length_int_bytes; lia|].
  rewrite E3. cbn [mbind option_bind].
  destruct (memcpy_some b3 dest 16) as (b4 & E4 & L4); [lia|]. rewrite E4. cbn [mbind option_bind].
  destruct (memcpy_some b4 (int_bytes errno) 0) as (b5 & E5 & L5); [rewrite length_int_bytes; lia|].
  exists b5. split; [done|].
  assert (K5 : forall o n, (4 <= o)%nat -> field b5 o n = field b4 o n)
    by (intros; eapply field_kept; [done|rewrite length_int_bytes; lia]).
  assert (K4 : forall o n, (o + n <= 16)%nat -> field b4 o n = field b3 o n) by (intros; eapply field_kept; [done|lia]).
  assert (K3 : forall o n, (o + n <= 8)%nat -> field b3 o n = field b2 o n) by (intros; eapply field_kept; [done|lia]).
  constructor.
  - unfold SIZEOF_ICMPD_ERR. lia.
  - pose proof (field_stored _ _ _ _ E5) as H. by rewrite length_int_bytes in H.
  - rewrite K5, K4, K3 by lia. rewrite (field_kept _ _ _ _ 4 1 E2) by (cbn; lia). exact (field_stored _ _ _ _ E1).
  - rewrite K5, K4, K3 by lia. exact (field_stored _ _ _ _ E2).
  - rewrite K5, K4 by lia. pose proof (field_stored _ _ _ _ E3) as H. by rewrite length_int_bytes in H.
  - rewrite K5 by lia. exact (field_stored _ _ _ _ E4).
Qed.

(** The clients that a report concerns. *)
Definition concerns (fam sport : Z) (cl : client_entry) : Prop := 0 <= connfd cl /\ family cl = fam /\ lport cl = sport.
#[export] Instance concerns_dec fam sport cl : Decision (concerns fam sport cl).
Proof. apply and_dec; [|apply and_dec]; apply _. Defined.

Definition notified (d : icmpd) (idx : list nat) (fam sport : Z) : list Z :=
  connfd <$> filter (concerns fam sport) (omap (fun i => client d !! i) idx).

Context (K : list Z).

Lemma notify_spec d fam sport errno type code dest L idx : forall err s,
  Forall (fun i => (i < length (client d))%nat) idx -> length err = SIZEOF_ICMPD_ERR -> (length dest <= 128)%nat -> owns K L s ->
  wp (notify idx d fam sport errno type code dest err)
    (goes (fun _ s' => owns K L s' /\ packets (trace s') = packets (trace s) /\ exists new, reports (trace s') = reports (trace s) ++ new /\
       new.*1 = notified d idx fam sport /\ Forall (is_report errno type code dest) new.*2)) s.
Proof.
  induction idx as [|i idx IH]; intros err s Hidx Herr Hdest Ho; cbn [notify].
  { apply ends_pure. split; [done|]. split; [done|]. exists []. by rewrite app_nil_r. }
  apply Forall_cons in Hidx as [Hi Hidx]. destruct (lookup_lt_is_Some_2 _ _ Hi) as [cl Hcl].
  eapply wp_checked; [exact Hcl|]. unfold notified. cbn [omap list_omap]. rewrite Hcl.
  change (omap _ idx) with (omap (fun i => client d !! i) idx).
  destruct (decide (concerns fam sport cl)) as [Hc|Hc].
  - rewrite filter_cons_True by done. destruct Hc as (H1 & H2 & H3).
    rewrite (proj2 (Z.geb_le _ _)), (proj2 (Z.eqb_eq _ _) H2), (proj2 (Z.eqb_eq _ _) H3) by lia. cbn [andb].
    destruct (fill_report_spec err errno type code dest Herr Hdest) as (b & Eb & Hb). eapply wp_checked; [exact Eb|].
    unfold Write. eapply (ends_then _ _ _ _ (fun _ s1 => owns K L s1 /\ packets (trace s1) = packets (trace s) /\
      reports (trace s1) = reports (trace s) ++ [(connfd cl, b)])).
    { eapply ends_then; [eapply owns_call; [exact Ho|done|done|]|by intros ? ? H; apply ends_pure, H].
      intros s' Ho' _ Ht. split; [done|]. rewrite Ht. split; [unfold packets; rewrite collect_cons; apply app_nil_r|].
      unfold reports. by rewrite collect_cons. }
    intros _ s1 (Ho1 & Ep & Er). eapply ends_mono; [apply IH; [done|apply Hb|done|done]|].
    intros _ s2 (Ho2 & Ep2 & new & Er2 & Hfst & Hsnd). split; [done|]. split; [congruence|]. exists ((connfd cl, b) :: new).
    rewrite Er2, Er, <- app_assoc. split; [done|]. cbn [fmap list_fmap fst snd]. split; [by rewrite Hfst|by constructor].
  - rewrite filter_cons_False by done.
    assert (E : (connfd cl >=? 0) && (family cl =? fam) && (lport cl =? sport) = false).
    { apply not_true_is_false. intros [[?%Z.geb_le ?%Z.eqb_eq]%andb_true_iff ?%Z.eqb_eq]%andb_true_iff. by apply Hc. }
    rewrite E. by apply IH.
Qed.

(** ** Receiving *)

(** The descriptors, the packets received and the reports written so far. *)
Definition held (L : list Z) (P : list (list Z)) (R : list (Z * list Z)) (s : st) : Prop :=
  owns K L s /\ packets (trace s) = P /\ reports (trace s) = R.

Lemma held_printf fmt args text L P R s :
  held L P R s -> vformat fmt args = Some text -> wp (printf fmt args) (goes (fun _ s' => held L P R s')) s.
Proof.
  intros (Ho & Hp & Hr) E. eapply owns_printf; [done|done|]. intros s' r Ho' Ht. split; [done|]. rewrite Ht.
  unfold packets, reports in *. rewrite !collect_cons. cbn. by rewrite !app_nil_r.
Qed.

Hypothesis ipv6_on : ipv6 = true.

(** What both functions begin with. *)
Lemma receive_spec fd fmt len buf d L P R s (Q : icmpd -> st -> Prop) (k : sysret -> list Z -> icmpd -> M icmpd) :
  (forall r t, exists text, vformat fmt [AInt r; AStr t] = Some text) ->
  length buf = Z.to_nat MAXLINE -> bytes_ok buf -> length (host_str d) = 128%nat -> held L P R s ->
  (forall r p str s1, rv r = Z.of_nat (length p) -> rbytes r = p -> bytes_ok p -> (length p <= Z.to_nat MAXLINE)%nat ->
     let buf' := p ++ drop (length p) buf in length buf' = Z.to_nat MAXLINE -> bytes_ok buf' -> length str = 128%nat ->
     held L (P ++ [p]) R s1 -> wp (k r buf' (set_host_str d str)) (goes Q) s1) ->
  wp (r <~ Recvfrom fd MAXLINE 0 true ;; buf <~ checked (memcpy buf 0 (rbytes r)) ;;
      d <~ print_from fmt d r len ;; k r buf d) (goes Q) s.
Proof.
  intros Hfmt Hbuf Hbb Hstr (Ho & Hp & Hr) Hk. unfold Recvfrom. set (c := sys_recvfrom fd MAXLINE 0 true).
  set (r := answer c s). destruct (packet_law (trace s) fd MAXLINE 0 ltac:(done)) as [[Hby Hrd] Hsa].
  fold c in Hby, Hrd, Hsa. change (os_answer (trace s) c) with r in *.
  eapply (ends_then _ _ _ _ (fun r' s1 => r' = r /\ 0 <= rv r /\ held L (P ++ [rbytes r]) R s1)).
  { eapply owns_call; [done|done|done|]. intros s' Ho' Hn%Z.ltb_ge Ht. fold r in Hn, Ht |- *. split; [done|]. split; [done|]. split; [done|].
    rewrite Ht. unfold packets, reports in *. rewrite !collect_cons, Hp, Hr. cbn. rewrite (proj2 (Z.leb_le 0 _)) by done.
    by rewrite app_nil_r. }
  intros ? s1 (-> & Hpos & Hh1). destruct Hrd as [[? _]|[Hlen Hle]]; [lia|]. destruct (Hsa Hpos) as (sa & Esa & Hhost).
  set (p := rbytes r) in *. eapply wp_checked; [apply received_into; unfold MAXLINE in *; lia|].
  eapply (ends_then _ _ _ _ (fun d' s2 => exists str, d' = set_host_str d str /\ length str = 128%nat /\ held L (P ++ [p]) R s2)).
  { unfold print_from. eapply wp_checked; [exact Esa|].
    destruct (Sock_ntop_host_ok sa len (host_str d) s1 Hhost Hstr ipv6_on) as (str & E & Hl).
    apply wp_then. unfold wp at 1. rewrite E. cbn [andthen]. destruct (Hfmt (rv r) (cstring_at str 0)) as [text Et].
    eapply (ends_then _ _ _ _ (fun _ s2 => held L (P ++ [p]) R s2)); [by eapply held_printf|].
    intros _ s2 H2. apply ends_pure. by exists str. }
  intros ? s2 (str & -> & Hl & Hh2). apply Hk; try done; [unfold MAXLINE in *; lia|unfold MAXLINE in *; llia|].
  apply Forall_app. split; [done|by apply Forall_drop].
Qed.

(** The quoted datagram of an ICMPv4 error is a UDP datagram; and its header is all there. *)
Definition about_udp_v4 (p : list Z) : Prop :=
  exists hl t, ip_hlen p 0 = Some hl /\ p !! Z.to_nat hl = Some t /\
    (t = ICMP_UNREACH \/ t = ICMP_TIMXCEED \/ t = ICMP_SOURCEQUENCH) /\
    p !! (Z.to_nat hl + 8 + 9)%nat = Some IPPROTO_UDP.


(** What both functions take from their buffer [m]: the type and the code of the message and, from the
    headers that it quotes, the ports and the destination, whether or not the packet was that long. *)
Definition quotes_udp_v4 (m : list Z) (t k : Z) (sport dport dst : list Z) : Prop :=
  exists hl hl2, ip_hlen m 0 = Some hl /\ m !! Z.to_nat hl = Some t /\ m !! (Z.to_nat hl + 1)%nat = Some k /\
    ip_hlen m (Z.to_nat hl + 8) = Some hl2 /\ sport = field m (Z.to_nat hl + 8 + Z.to_nat hl2) 2 /\
    dport = field m (Z.to_nat hl + 8 + Z.to_nat hl2 + 2) 2 /\ dst = field m (Z.to_nat hl + 8 + 16) 4.



(** One packet has been handled: it was received over the contents of [buf]. *)
Definition delivered (about : list Z -> Prop) (quoted : list Z -> Z -> Z -> list Z -> list Z -> list Z -> Prop)
    (fam : Z) (errno : Z -> Z -> Z) (sa : list Z -> list Z -> list Z) buf L P R (d d' : icmpd) (s' : st) : Prop :=
  (exists str, length str = 128%nat /\ d' = one_done (set_host_str d str)) /\
  exists p new, held L (P ++ [p]) (R ++ new) s' /\
    (about p -> exists t k sport dport dst, quoted (p ++ drop (length p) buf) t k sport dport dst /\
       new.*1 = notified d (seq 0 (Z.to_nat (maxi d + 1))) fam (port_field sport) /\
       Forall (is_report (errno t k) t k (sa dport dst)) new.*2) /\
    (~ about p -> new = []).

Abbreviation delivered_v4 := (delivered about_udp_v4 quotes_udp_v4 AF_INET errno_v4 sockaddr_in_bytes).

Lemma nothing_delivered about quoted fam errno sa buf L P R d str p s :
  length str = 128%nat -> ~ about p ->
  held L (P ++ [p]) R s -> delivered about quoted fam errno sa buf L P R d (one_done (set_host_str d str)) s.
Proof.
  intros Hl Ha Hh. split; [by exists str|]. exists p, []. by rewrite app_nil_r.
Qed.

Lemma load_bytes buf off n d : bytes_ok buf -> load buf off n = Some d -> bytes_ok d /\ length d = n.
Proof.
  intros Hb. unfold load. case_decide; [|done]. intros [= <-]. split; [by apply Forall_take, Forall_drop|llia].
Qed.

Lemma length_sockaddr_in port addr : length port = 2%nat -> length addr = 4%nat -> length (sockaddr_in_bytes port addr) = 16%nat.
Proof. intros Hp Ha. unfold sockaddr_in_bytes. rewrite !length_app, length_bytes16, Hp, Ha. done. Qed.

Lemma length_sockaddr_in6 port addr : length port = 2%nat -> length addr = 16%nat -> length (sockaddr_in6_bytes port addr) = 28%nat.
Proof. intros Hp Ha. unfold sockaddr_in6_bytes. rewrite !length_app, length_bytes16, Hp, Ha. done. Qed.

(** Printing the two addresses of the quoted header. *)
Lemma print_quoted_spec fmt six src dst x L P R s (Q : icmpd -> st -> Prop) (k : M icmpd) :
  (forall a b n, exists text, vformat fmt [AStr a; AStr b; AInt n] = Some text) ->
  bytes_ok src -> bytes_ok dst -> length src = (if six : bool then 16 else 4)%nat -> length dst = (if six then 16 else 4)%nat ->
  held L P R s -> (forall s1, held L P R s1 -> wp k (goes Q) s1) ->
  let fam := if six then AF_INET6 else AF_INET in let len := if six then 46 else 16 in
  wp (srcstr <~ Inet_ntop fam src (Some (replicate (Z.to_nat len) 0)) len ;;
      dststr <~ Inet_ntop fam dst (Some (replicate (Z.to_nat len) 0)) len ;;
      printf fmt [AStr (cstring_at srcstr 0); AStr (cstring_at dststr 0); AInt x] ;;; k) (goes Q) s.
Proof.
  intros Hfmt Hs Hd Ls Ld Hh Hk. cbv zeta.
  assert (Hn : forall a, bytes_ok a -> length a = (if six then 16 else 4)%nat ->
    exists str, Inet_ntop (if six then AF_INET6 else AF_INET) a (Some (replicate (Z.to_nat (if six then 46 else 16)) 0)) (if six then 46 else 16) s = (Val str, s)).
  { intros a Ha La. destruct six; [by apply Inet_ntop6_ok|by apply Inet_ntop4_ok]. }
  destruct (Hn src Hs Ls) as [str1 E1], (Hn dst Hd Ld) as [str2 E2].
  apply wp_then. unfold wp at 1. rewrite E1. cbn [andthen]. apply wp_then. unfold wp at 1. rewrite E2. cbn [andthen].
  destruct (Hfmt (cstring_at str1 0) (cstring_at str2 0) x) as [text Et].
  eapply (ends_then _ _ _ _ (fun _ s1 => held L P R s1)); [by eapply held_printf|]. intros _ s1 H1. by apply Hk.
Qed.

(** The report is written to the clients. *)
Lemma notify_delivers about quoted fam errno sa buf L P R d str p t k sport uh_dport addr err s :
  held L (P ++ [p]) R s -> length str = 128%nat -> length err = SIZEOF_ICMPD_ERR ->
  (Z.to_nat (maxi d + 1) <= length (client d))%nat -> (length (sa uh_dport addr) <= 128)%nat ->
  about p -> quoted (p ++ drop (length p) buf) t k sport uh_dport addr ->
  wp (notify (seq 0 (Z.to_nat (maxi d + 1))) (set_host_str d str) fam (port_field sport) (errno t k) t k (sa uh_dport addr) err ;;;
      mpure (one_done (set_host_str d str)))
    (goes (fun d' s' => delivered about quoted fam errno sa buf L P R d d' s')) s.
Proof.
  intros (Ho & Hp & Hr) Hl He Hm Hd Ha Hq. eapply ends_then.
  { apply notify_spec; [|done|done|done]. apply Forall_forall. intros i Hi%elem_of_seq. cbn [set_host_str client]. lia. }
  intros _ s1 (Ho1 & Hp1 & new & Hr1 & Hf & Hs). apply ends_pure. split; [by exists str|]. exists p, new.
  split; [split; [done|split; [congruence|by rewrite Hr1, Hr]]|]. split; [|done].
  intros _. by exists t, k, sport, uh_dport, addr.
Qed.

Lemma readable_v4_spec buf err d L P R s :
  length buf = Z.to_nat MAXLINE -> bytes_ok buf -> length err = SIZEOF_ICMPD_ERR -> length (host_str d) = 128%nat ->
  (Z.to_nat (maxi d + 1) <= length (client d))%nat -> held L P R s ->
  wp (readable_v4 buf err d) (goes (fun d' s' => delivered_v4 buf L P R d d' s')) s.
Proof.
  intros Hbuf Hbb Herr Hstr Hm Hh. unfold readable_v4. apply (receive_spec _ _ _ _ _ L P R); [by eexists|done|done|done|done|].
  intros r p str s1 Hlen _ Hbp Hle buf' Hbuf' Hbb' Hl Hh1. unfold MAXLINE in *.
  destruct (ip_hlen_ok buf' 0 ltac:(lia)) as (hl & Ehl & Hhl). eapply wp_checked; [exact Ehl|]. rewrite Hlen.
  pose proof (proj1 Hh1) as Ho1.
  destruct (Z.ltb_spec (Z.of_nat (length p) - hl) 8) as [Hs|Hs].
  { apply (ends_err_quit_int anything (fun h => (afuel <= aborted h)%nat) anything_output c["icmplen ("] c[") < 8"]); try done. apply Ho1. }
  assert (Epl : ip_hlen p 0 = Some hl) by (rewrite <- Ehl; unfold buf'; symmetry; apply ip_hlen_prefix; lia).
  destruct (lookup_lt_is_Some_2 p (Z.to_nat hl) ltac:(lia)) as [t Et]. destruct (lookup_lt_is_Some_2 p (Z.to_nat hl + 1) ltac:(lia)) as [k Ek].
  do 2 (eapply wp_checked; [unfold buf'; rewrite lookup_app_l; [eassumption|lia]|]).
  eapply (ends_then _ _ _ _ (fun _ s2 => held L (P ++ [p]) R s2)); [by eapply held_printf|]. intros _ s2 Hh2.
  destruct ((t =? ICMP_UNREACH) || (t =? ICMP_TIMXCEED) || (t =? ICMP_SOURCEQUENCH)) eqn:Ety.
  2: { apply ends_pure. eapply nothing_delivered; [done| |done]. intros (hl' & t' & E' & Et' & Hk & _).
       assert (hl' = hl) as -> by congruence. assert (t' = t) as -> by congruence.
       destruct Hk as [->|[->| ->]]; discriminate Ety. }
  assert (Hty : t = ICMP_UNREACH \/ t = ICMP_TIMXCEED \/ t = ICMP_SOURCEQUENCH).
  { apply orb_true_iff in Ety as [[?%Z.eqb_eq|?%Z.eqb_eq]%orb_true_iff|?%Z.eqb_eq]; tauto. }
  destruct (Z.ltb_spec (Z.of_nat (length p) - hl) (8 + 20 + 8)) as [Hs2|Hs2].
  { apply (ends_err_quit_int anything (fun h => (afuel <= aborted h)%nat) anything_output c["icmplen ("] c[") < 8 + 20 + 8"]); try done.
    apply (proj1 Hh2). }
  destruct (ip_hlen_ok p (Z.to_nat hl + 8) ltac:(lia)) as (hl2 & Ehl2 & Hhl2).
  eapply wp_checked; [unfold buf'; rewrite ip_hlen_prefix; [exact Ehl2|lia]|].
  assert (Esrc : load buf' (Z.to_nat hl + 8 + 12) 4 = Some (field p (Z.to_nat hl + 8 + 12) 4)) by (apply load_prefix; lia).
  assert (Edst : load buf' (Z.to_nat hl + 8 + 16) 4 = Some (field p (Z.to_nat hl + 8 + 16) 4)) by (apply load_prefix; lia).
  eapply wp_checked; [exact Esrc|]. eapply wp_checked; [exact Edst|].
  destruct (load_bytes _ _ _ _ Hbb' Esrc) as [Hbs Hls], (load_bytes _ _ _ _ Hbb' Edst) as [Hbd Hld].
  destruct (lookup_lt_is_Some_2 p (Z.to_nat hl + 8 + 9) ltac:(lia)) as [pr Epr].
  eapply wp_checked; [unfold buf'; rewrite lookup_app_l; [exact Epr|lia]|].
  apply (print_quoted_spec _ false _ _ pr L (P ++ [p]) R); [by eexists|done|done|done|done|done|]. intros s3 Hh3.
  destruct (Z.eqb_spec pr IPPROTO_UDP) as [->|Hpr].
  2: { apply ends_pure. eapply nothing_delivered; [done| |done]. intros (hl' & t' & E' & _ & _ & Hu).
       assert (hl' = hl) as -> by congruence. congruence. }
  pose proof (load_ok buf' (Z.to_nat hl + 8 + Z.to_nat hl2) 2 ltac:(lia)) as El1.
  pose proof (load_ok buf' (Z.to_nat hl + 8 + Z.to_nat hl2 + 2) 2 ltac:(lia)) as El2.
  eapply wp_checked; [exact El1|]. eapply wp_checked; [exact El2|].
  destruct (load_bytes _ _ _ _ Hbb' El2) as [_ Hl2].
  change (maxi (set_host_str d str)) with (maxi d).
  apply (notify_delivers about_udp_v4 quotes_udp_v4 AF_INET errno_v4 sockaddr_in_bytes buf L P R d str p); try done.
  - rewrite length_sockaddr_in by done. lia.
  - exists hl, t. by split_and!.
  - fold buf'. exists hl, hl2. split_and!; try done; unfold buf'.
    + rewrite lookup_app_l; [done|lia].
    + rewrite lookup_app_l; [done|lia].
    + rewrite ip_hlen_prefix; [done|lia].
    + fold buf'. unfold field, buf'. rewrite drop_app_le, take_app_le by llia. done.
Qed.

(** ** The same for ICMPv6 *)

Definition about_udp_v6 (p : list Z) : Prop :=
  exists t, p !! 0%nat = Some t /\
    (t = ICMP6_DST_UNREACH \/ t = ICMP6_PACKET_TOO_BIG \/ t = ICMP6_TIME_EXCEEDED) /\ p !! 14%nat = Some IPPROTO_UDP.


(** What [readable_v6] takes from its buffer. *)
Definition quotes_udp_v6 (m : list Z) (t k : Z) (sport dport dst : list Z) : Prop :=
  m !! 0%nat = Some t /\ m !! 1%nat = Some k /\ sport = field m 48 2 /\ dport = field m 50 2 /\ dst = field m 32 16.



Abbreviation delivered_v6 := (delivered about_udp_v6 quotes_udp_v6 AF_INET6 errno_v6 sockaddr_in6_bytes).

Lemma readable_v6_spec buf err d L P R s :
  length buf = Z.to_nat MAXLINE -> bytes_ok buf -> length err = SIZEOF_ICMPD_ERR -> length (host_str d) = 128%nat ->
  (Z.to_nat (maxi d + 1) <= length (client d))%nat -> held L P R s ->
  wp (readable_v6 buf err d) (goes (fun d' s' => delivered_v6 buf L P R d d' s')) s.
Proof.
  intros Hbuf Hbb Herr Hstr Hm Hh. unfold readable_v6. apply (receive_spec _ _ _ _ _ L P R); [by eexists|done|done|done|done|].
  intros r p str s1 Hlen _ Hbp Hle buf' Hbuf' Hbb' Hl Hh1. unfold MAXLINE in *. rewrite Hlen. pose proof (proj1 Hh1) as Ho1.
  destruct (Z.ltb_spec (Z.of_nat (length p)) 8) as [Hs|Hs].
  { apply (ends_err_quit_int anything (fun h => (afuel <= aborted h)%nat) anything_output c["icmp6len ("] c[") < 8"]); try done. apply Ho1. }
  destruct (lookup_lt_is_Some_2 p 0 ltac:(lia)) as [t Et]. destruct (lookup_lt_is_Some_2 p 1 ltac:(lia)) as [k Ek].
  do 2 (eapply wp_checked; [unfold buf'; rewrite lookup_app_l; [eassumption|lia]|]).
  eapply (ends_then _ _ _ _ (fun _ s2 => held L (P ++ [p]) R s2)); [by eapply held_printf|]. intros _ s2 Hh2.
  destruct ((t =? ICMP6_DST_UNREACH) || (t =? ICMP6_PACKET_TOO_BIG) || (t =? ICMP6_TIME_EXCEEDED)) eqn:Ety.
  2: { apply ends_pure. eapply nothing_delivered; [done| |done]. intros (t' & Et' & Hk & _).
       assert (t' = t) as -> by congruence. destruct Hk as [->|[->| ->]]; discriminate Ety. }
  assert (Hty : t = ICMP6_DST_UNREACH \/ t = ICMP6_PACKET_TOO_BIG \/ t = ICMP6_TIME_EXCEEDED).
  { apply orb_true_iff in Ety as [[?%Z.eqb_eq|?%Z.eqb_eq]%orb_true_iff|?%Z.eqb_eq]; tauto. }
  destruct (Z.ltb_spec (Z.of_nat (length p)) (8 + 8)) as [Hs2|Hs2].
  { apply (ends_err_quit_int anything (fun h => (afuel <= aborted h)%nat) anything_output c["icmp6len ("] c[") < 8 + 8"]); try done.
    apply (proj1 Hh2). }
  pose proof (load_ok buf' (8 + 8) 16 ltac:(lia)) as Esrc. pose proof (load_ok buf' (8 + 24) 16 ltac:(lia)) as Edst.
  eapply wp_checked; [exact Esrc|]. eapply wp_checked; [exact Edst|].
  destruct (load_bytes _ _ _ _ Hbb' Esrc) as [Hbs Hls], (load_bytes _ _ _ _ Hbb' Edst) as [Hbd Hld].
  destruct (lookup_lt_is_Some_2 p 14 ltac:(lia)) as [pr Epr].
  eapply wp_checked; [unfold buf'; rewrite lookup_app_l; [exact Epr|lia]|].
  apply (print_quoted_spec _ true _ _ pr L (P ++ [p]) R); [by eexists|done|done|done|done|done|]. intros s3 Hh3.
  destruct (Z.eqb_spec pr IPPROTO_UDP) as [->|Hpr].
  2: { apply ends_pure. eapply nothing_delivered; [done| |done]. intros (t' & _ & _ & Hu). congruence. }
  pose proof (load_ok buf' (8 + Z.to_nat SIZEOF_IP6) 2 ltac:(unfold SIZEOF_IP6; lia)) as El1.
  pose proof (load_ok buf' (8 + Z.to_nat SIZEOF_IP6 + 2) 2 ltac:(unfold SIZEOF_IP6; lia)) as El2.
  eapply wp_checked; [exact El1|]. eapply wp_checked; [exact El2|]. destruct (load_bytes _ _ _ _ Hbb' El2) as [_ Hl2].
  change (maxi (set_host_str d str)) with (maxi d).
  apply (notify_delivers about_udp_v6 quotes_udp_v6 AF_INET6 errno_v6 sockaddr_in6_bytes buf L P R d str p); try done.
  - rewrite length_sockaddr_in6 by done. lia.
  - exists t. by split_and!.
  - fold buf'. split_and!; try done; unfold buf'; rewrite lookup_app_l; try done; lia.
Qed.

End Handlers.

(** * The daemon *)

Section Daemon.
Context {os : OS} {SE : Strerror} {CF : Config} {FL : FreshLaw} {NL : NameLaw} {PL : PacketLaw}.
Context (afuel : nat).
Hypothesis ipv6_on : ipv6 = true.

Abbreviation goes := (ends anything (fun h => (afuel <= aborted h)%nat)).

Definition stack_ok (stack : list event -> list Z * list Z) : Prop :=
  forall h, length (stack h).1 = Z.to_nat MAXLINE /\ bytes_ok (stack h).1 /\ length (stack h).2 = SIZEOF_ICMPD_ERR.

Lemma running_index d s : running d s -> (Z.to_nat (maxi d + 1) <= length (client d))%nat.
Proof.
  intros [[Ht _] _]. pose proof (ok_length _ _ _ _ _ Ht) as Hl. unfold conns in Hl. rewrite length_fmap in Hl.
  pose proof (ok_maxi _ _ _ _ _ Ht). unfold FD_SETSIZE in *. lia.
Qed.

(** After a packet the tables are as they were. *)
Lemma delivered_running K about quoted fam errno sa buf P R d d' s s' :
  running d s -> delivered K about quoted fam errno sa buf (all_fds K d) P R d d' s' -> running d' s'.
Proof.
  intros [[Ht Hs] _] [(str & Hl & ->) (p & new & (Ho' & _) & _)]. split; [by constructor|exists K; exact Ho'].
Qed.

Lemma visit_spec fd handler next d s :
  running d s -> 0 <= fd < FD_SETSIZE ->
  (forall s, running d s -> wp (handler d) (goes (fun d' s' => running d' s')) s) ->
  (forall d s, running d s -> wp (next d) (goes (fun d' s' => running d' s')) s) ->
  wp (visit fd handler next d) (goes (fun d' s' => running d' s')) s.
Proof.
  intros Hr Hfd Hh Hn. unfold visit. eapply wp_checked; [by apply FD_ISSET_spec|]. case_bool_decide; [|by apply Hn].
  eapply ends_then; [by apply Hh|]. intros d' s' Hr'. destruct (nready d' <=? 0); [by apply ends_pure|by apply Hn].
Qed.

Lemma check_conns_spec idx : forall d s, running d s -> Forall (fun i => (i < Z.to_nat FD_SETSIZE)%nat) idx ->
  wp (check_conns idx d) (goes (fun d' s' => running d' s')) s.
Proof.
  induction idx as [|i idx IH]; intros d s Hr Hidx; cbn [check_conns]; [done|]. apply Forall_cons in Hidx as [Hi Hidx].
  destruct (daemon_lookup d i (proj1 Hr) Hi) as [cl Hcl]. eapply wp_checked; [exact Hcl|].
  destruct (Z.ltb_spec (connfd cl) 0) as [Hn|Hn]; [by apply IH|].
  pose proof (ok_range _ _ _ _ _ (da_table _ (proj1 Hr))) as Hrg. eapply Forall_lookup_1 in Hrg; [|by apply conns_lookup].
  eapply wp_checked; [apply FD_ISSET_spec; lia|]. case_bool_decide; [|by apply IH].
  eapply ends_then; [by eapply readable_conn_spec|]. intros d' s' Hr'. destruct (nready d' <=? 0); [by apply ends_pure|by apply IH].
Qed.

Lemma icmpd_round_spec stack d s :
  stack_ok stack -> running d s -> wp (icmpd_round afuel stack d) (goes (fun d' s' => running d' s')) s.
Proof.
  intros Hst Hr. unfold icmpd_round, Select.
  destruct (proj2 Hr) as [K0 Ho0].
  eapply (ends_then _ _ _ _ (fun _ s1 => owns K0 (all_fds K0 d) s1)); [eapply owns_call; [exact Ho0|done|done|done]|].
  intros r s1 Ho1. set (d1 := Icmpd _ _ _ _ _ _ _ _ _ _).
  assert (Hr1 : running d1 s1) by (destruct Hr as [[Ht Hs] _]; split; [by constructor|by exists K0]).
  assert (Hbase : forall d s fd, running d s -> fd ∈ base d -> 0 <= fd < FD_SETSIZE).
  { intros d0 s0 fd [[Ht _] _] Hin. pose proof (ok_base _ _ _ _ _ Ht) as Hb. rewrite Forall_forall in Hb. by apply Hb. }
  assert (Hgot : forall d s (f : list Z -> list Z -> icmpd -> M icmpd), running d s ->
    (forall buf err, length buf = Z.to_nat MAXLINE -> bytes_ok buf -> length err = SIZEOF_ICMPD_ERR ->
       wp (f buf err d) (goes (fun d' s' => running d' s')) s) ->
    wp (g <~ garbage stack ;; f g.1 g.2 d) (goes (fun d' s' => running d' s')) s).
  { intros d0 s0 f Hr0 Hf. apply wp_then. unfold wp at 1, garbage. cbn [andthen]. destruct (Hst (trace s0)) as (? & ? & ?). by apply Hf. }
  assert (Hclients : forall d s, running d s ->
    wp (check_conns (seq 0 (Z.to_nat (maxi d + 1))) d) (goes (fun d' s' => running d' s')) s).
  { intros d0 s0 Hr0. apply check_conns_spec; [done|]. apply Forall_forall. intros i Hi%elem_of_seq.
    pose proof (ok_maxi _ _ _ _ _ (da_table _ (proj1 Hr0))). unfold FD_SETSIZE in *. lia. }
  apply visit_spec; [done|eapply Hbase; [done|by do 2 right; left]|intros; by apply readable_listen_spec|].
  intros d2 s2 Hr2. apply visit_spec; [done|eapply Hbase; [done|by left]| |].
  { intros s0 Hr0. apply Hgot; [done|]. intros buf err H1 H2 H3. destruct (proj2 Hr0) as [K Ho1'].
    eapply ends_mono; [apply (readable_v4_spec afuel K ipv6_on buf err d2 (all_fds K d2) (packets (trace s0)) (reports (trace s0))); try done; [apply Hr0|by eapply running_index]|].
    intros d' s' Hdel. by eapply delivered_running. }
  rewrite ipv6_on. intros d3 s3 Hr3. apply visit_spec; [done|eapply Hbase; [done|by right; left]| |by intros; apply Hclients].
  intros s0 Hr0. apply Hgot; [done|]. intros buf err H1 H2 H3. destruct (proj2 Hr0) as [K Ho1'].
  eapply ends_mono; [apply (readable_v6_spec afuel K ipv6_on buf err d3 (all_fds K d3) (packets (trace s0)) (reports (trace s0))); try done; [apply Hr0|by eapply running_index]|].
  intros d' s' Hdel. by eapply delivered_running.
Qed.

Lemma icmpd_loop_spec stack rounds : forall d s,
  stack_ok stack -> running d s -> wp (icmpd_loop afuel rounds stack d) (goes (fun d' s' => running d' s')) s.
Proof.
  induction rounds as [|k IH]; intros d s Hst Hr; cbn [icmpd_loop]; [done|].
  eapply ends_then; [by apply icmpd_round_spec|]. intros d' s' Hr'. by apply IH.
Qed.
End Daemon.

(** * What the daemon guarantees *)

Section Claims.
Context {os : OS} {SE : Strerror} {CF : Config} {FL : FreshLaw} {NL : NameLaw} {PL : PacketLaw}.
Context (afuel : nat).
Hypothesis ipv6_on : ipv6 = true.

Abbreviation goes := (ends anything (fun h => (afuel <= aborted h)%nat)).

Lemma icmpd_init_spec s :
  daemon_proc s = 0 -> trace s = [] -> wp icmpd_init (goes (fun d s' => running d s')) s.
Proof using All.
  intros Hd Ht. assert (Ho : owns [] [] s) by (constructor; [done|by rewrite Ht|constructor|by rewrite Ht]).
  unfold icmpd_init. eapply ends_then; [by apply owns_socket|]. intros a s1 [Ha Ho1].
  destruct (FD_SET_spec a [] Ha) as (set1 & -> & Hs1). eapply wp_checked; [done|]. rewrite ipv6_on.
  eapply (ends_then _ _ _ _ (fun q s2 => exists b set2, q = (b, set2, Z.max a b) /\ 0 <= b < FD_SETSIZE /\
    (forall x, x ∈ set2 <-> x = b \/ x ∈ set1) /\ owns [] [b; a] s2)).
  { eapply ends_then; [by apply owns_socket|]. intros b s2 [Hb Ho2].
    destruct (FD_SET_spec b set1 Hb) as (set2 & -> & Hs2). eapply wp_checked; [done|]. apply ends_pure. by exists b, set2. }
  intros q s2 (b & set2 & -> & Hb & Hs2 & Ho2). eapply ends_then; [by apply owns_socket|]. intros l s3 [Hl Ho3].
  apply wp_then, wp_sys. cbn [andthen]. eapply ends_then.
  { apply (owns_wrapper _ [] [l; b; a]); [by apply owns_steady|done|done]. }
  intros ? s4 Ho4. eapply (ends_then _ _ _ _ (fun _ s5 => owns [] [l; b; a] s5)).
  { unfold Listen. apply wp_then, wp_sys. cbn [andthen]. apply owns_wrapper; [by apply owns_steady|done|done]. }
  intros _ s5 Ho5. destruct (FD_SET_spec l set2 Hl) as (set3 & -> & Hs3). eapply wp_checked; [done|]. apply ends_pure.
  assert (Hnd : NoDup [a; b; l]) by (pose proof (ow_distinct _ _ _ Ho5) as H; by rewrite (Permutation_rev [l; b; a]) in H).
  destruct (table_empty [a; b; l] set3 (Z.max (Z.max a b) l)) as [Hok Hno]; [done|do 3 (apply Forall_cons; split; [done|]); by apply Forall_nil| | |].
  { intros x. rewrite Hs3, Hs2, Hs1. rewrite !elem_of_cons, !elem_of_nil. tauto. }
  { intros x Hx. rewrite !elem_of_cons, elem_of_nil in Hx. lia. }
  assert (E : connfd <$> replicate (Z.to_nat FD_SETSIZE) (Client (-1) 0 0) = replicate (Z.to_nat FD_SETSIZE) (-1))
    by exact (fmap_replicate connfd _ _).
  split.
  - constructor; [|done]. unfold conns, base. cbn [fd4 fd6 listenfd client allset maxi maxfd]. by rewrite E.
  - exists []. eapply owns_perm; [exact Ho5|]. unfold all_fds, conns, base. cbn [fd4 fd6 listenfd client]. rewrite E, Hno, !app_nil_r.
    by rewrite (Permutation_rev [l; b; a]).
Qed.

(** C26: the ICMP daemon keeps account of its descriptors for ever.  Started in a fresh foreground
    process and observed after any number of iterations of its loop, whatever its clients, the
    network and the kernel do within the contracts of the calls: it has no undefined behaviour (no
    access outside [client], a buffer or a descriptor set, whatever the packets hold).  The
    descriptors that are open are its two raw sockets, the listening one, those of the clients in
    the table, each in one entry, and the ones that [read_fd] has lost: the descriptors of a
    message with more than one, of which it reports that none was passed ([two_descriptors_lost]).
    So none has leaked that was passed alone.  [allset] is the set of exactly those the daemon uses,
    and [maxi] and [maxfd] bound the entries and descriptors in use.  If it ends, it is with an error
    report and status 1; it needs fuel only for aborted connections. *)
Theorem icmpd_tables stack rounds s :
  stack_ok stack -> daemon_proc s = 0 -> trace s = [] ->
  let '(o, s') := icmpd_main afuel rounds stack s in
  match o with
  | Val d =>
      let fds := [fd4 d; fd6 d; listenfd d] ++ clients (connfd <$> client d) in
      opened (trace s') ≡ₚ fds ++ lost (trace s') /\ NoDup (fds ++ lost (trace s')) /\
      (forall fd, fd ∈ allset d <-> fd ∈ fds) /\
      (forall fd, fd ∈ allset d -> 0 <= fd <= maxfd d /\ fd < FD_SETSIZE) /\
      (forall i cl, client d !! i = Some cl -> 0 <= connfd cl -> Z.of_nat i <= maxi d)
  | Exited code => code = 1
  | OutOfFuel => (afuel <= aborted (trace s'))%nat
  | _ => False
  end.
Proof using All.
  intros Hst Hd Ht.
  assert (H : wp (icmpd_main afuel rounds stack) (goes (fun d s' => running d s')) s).
  { eapply ends_then; [by apply icmpd_init_spec|]. intros d s1 Hr. by apply icmpd_loop_spec. }
  unfold wp in H. destruct (icmpd_main _ _ _ _) as [o s']. destruct o as [d| | | |]; try done; [|by destruct H|by destruct H].
  destruct H as [[[_ Hr Hb _ Hset _ Hi Hmf] _] [K Ho]]. cbv zeta. rewrite (ow_lost _ _ _ Ho), <- app_assoc.
  split_and!; [apply Ho|apply Ho|done| |].
  - intros fd Hfd. specialize (Hmf fd Hfd). apply Hset in Hfd as [Hin|[Hx Hin]%list_elem_of_filter]%elem_of_app.
    + rewrite Forall_forall in Hb. specialize (Hb fd Hin). lia.
    + rewrite Forall_forall in Hr. specialize (Hr fd Hin). unfold is_client in Hx. lia.
  - intros i cl Hcl Hp. by eapply Hi; [apply conns_lookup|].
Qed.
End Claims.

Section Delivery.
Context {os : OS} {SE : Strerror} {CF : Config} {PL : PacketLaw}.
Hypothesis ipv6_on : ipv6 = true.




End Delivery.

(** * Concrete runs

    All descriptors are always ready; a new descriptor is the smallest one from 3 on that is not
    open, so that the raw sockets are 3 and 4; the IPv4 one delivers [pkt] for ever, the IPv6 one an
    empty echo reply; a client first passes a UDP socket that is bound to port 5000 and then closes
    its connection. *)

Definition heard (fd : Z) (h : list event) : bool :=
  existsb (fun e => match e.1 with sys_recvmsg fd' _ _ _ => fd' =? fd | sys_close fd' => fd' =? fd | _ => false end) h.

Definition icmpd_os (pkt : list Z) : OS := fun h c =>
  match c with
  | sys_socket _ _ _ | sys_accept _ _ => ok (next_open h)
  | sys_select _ rs _ _ _ => SR (Z.of_nat (length rs)) None [] rs None
  | sys_recvmsg fd _ _ _ =>
      if heard fd h || (next_open h <? 0) then ok 0 else SR 1 None [0] [CMSG_LEN_INT; SOL_SOCKET; SCM_RIGHTS; next_open h] None
  | sys_getsockname _ => SR 0 None [] [] (Some (SockIn (htons 5000) [10; 0; 0; 9]))
  | sys_recvfrom fd n _ _ =>
      let p := if fd =? 3 then pkt else [129; 0; 0; 0; 0; 0; 0; 0] in
      SR (Z.of_nat (length (take (Z.to_nat n) p))) None (take (Z.to_nat n) p) [] (Some (SockIn [0; 0] [10; 0; 0; 1]))
  | sys_write _ d => ok (Z.of_nat (length d))
  | _ => ok 0
  end.

Lemma icmpd_os_fresh pkt : @FreshLaw (icmpd_os pkt).
Proof.
  constructor.
  - intros h c fd. destruct c; cbn [new_fds fst snd os_answer icmpd_os]; try (by intros ?%elem_of_nil); try apply next_open_list.
    unfold passed_fds. destruct (heard _ h), (Z.ltb_spec (next_open h) 0); cbn [orb]; try (by intros ?%elem_of_nil).
    intros ->%list_elem_of_singleton. by apply next_open_fresh.
  - intros h c. destruct c; cbn [new_fds fst snd os_answer icmpd_os]; try by constructor.
    all: unfold passed_fds; repeat case_match; simplify_eq/=; first [by apply NoDup_singleton|by constructor].
Qed.

Lemma icmpd_os_name pkt : @NameLaw (icmpd_os pkt).
Proof. intros h fd _. by eexists. Qed.

Lemma icmpd_os_packet pkt : bytes_ok pkt -> @PacketLaw (icmpd_os pkt).
Proof.
  intros Hb h fd n fl Hn. cbv zeta. unfold os_answer, icmpd_os. set (p := if fd =? 3 then pkt else _). split; [split|].
  - apply Forall_take. unfold p. destruct (fd =? 3); [done|by apply bytes_ok_bool].
  - right. cbn [rv rbytes]. rewrite length_take. lia.
  - intros _. eexists. split; [done|]. split; [done|by apply bytes_ok_bool].
Qed.

(** A port unreachable message about a datagram from 10.0.0.9, port 5000, to 10.0.0.7, port 7. *)
Definition unreachable : list Z :=
  [69; 0; 0; 56; 0; 0; 0; 0; 64; 1; 0; 0; 10; 0; 0; 1; 10; 0; 0; 9] ++ [3; 3; 0; 0; 0; 0; 0; 0] ++
  [69; 0; 0; 52; 0; 0; 0; 0; 1; 17; 0; 0; 10; 0; 0; 9; 10; 0; 0; 7] ++ htons 5000 ++ htons 7 ++ [0; 32; 0; 0].
Lemma unreachable_bytes : bytes_ok unreachable.
Proof. by apply bytes_ok_bool. Qed.

Definition no_stack : list event -> list Z * list Z := fun _ => (replicate (Z.to_nat MAXLINE) 0, replicate SIZEOF_ICMPD_ERR 0).
Lemma no_stack_ok : stack_ok no_stack.
Proof.
  intros h. split; [apply (length_replicate (Z.to_nat MAXLINE) 0)|]. split; [|apply (length_replicate SIZEOF_ICMPD_ERR 0)].
  by apply Forall_replicate.
Qed.

#[local] Instance daemon_config : Config := {| ipv6 := true; have_sockaddr_dl := false; little_endian := true |}.
#[local] Existing Instance numeric_strerror.

Abbreviation daemon_run n := (@icmpd_main (icmpd_os unreachable) numeric_strerror daemon_config 1 n no_stack init).

Definition registered (d : icmpd) : list (Z * Z * Z) :=
  (fun cl => (connfd cl, family cl, lport cl)) <$> take (Z.to_nat (maxi d + 1)) (client d).

(** Three rounds: three clients have connected; the first one has registered and closed its
    connection, the second one has registered. *)
Lemma daemon_run_value : exists d s', (daemon_run 3) = (Val d, s') /\ registered d = [(-1, 2, 34835); (7, 2, 34835); (8, 0, 0)].
Proof. eexists _, _. split; [vm_compute; reflexivity|vm_compute; reflexivity]. Qed.

Lemma icmpd_tables_witness :
  exists d s', (daemon_run 3) = (Val d, s') /\ registered d = [(-1, 2, 34835); (7, 2, 34835); (8, 0, 0)] /\
    opened (trace s') ≡ₚ ([fd4 d; fd6 d; listenfd d] ++ clients (connfd <$> client d)) ++ lost (trace s').
Proof.
  pose proof (@icmpd_tables (icmpd_os unreachable) numeric_strerror daemon_config (icmpd_os_fresh _) (icmpd_os_name _)
    (icmpd_os_packet _ unreachable_bytes) 1 eq_refl no_stack 3 init no_stack_ok eq_refl eq_refl) as H.
  destruct daemon_run_value as (d & s' & Hv & Hr). exists d, s'. split; [exact Hv|]. split; [exact Hr|].
  rewrite Hv in H. cbv zeta in H. exact (proj1 H).
Defined.



(** In the next round the packet is reported to the second client alone. *)
Abbreviation delivery d s :=
  (@readable_v4 (icmpd_os unreachable) numeric_strerror daemon_config (no_stack []).1 (no_stack []).2 d s).




(** * Limits of the daemon

    Neither [clientdone] nor [readable_listen] clears the family and the port of an entry: a client
    that connects and is given the entry of an earlier one gets the reports for the port of that
    one, before it has passed any socket.  Here the new connection is 6. *)
Lemma stale_registration :
  exists d s d1 s1 d' s', (daemon_run 3) = (Val d, s) /\
    @readable_listen (icmpd_os unreachable) numeric_strerror 1 d s = (Val d1, s1) /\ (client d1 !! 0%nat) = Some (Client 6 AF_INET (port_field (htons 5000))) /\
    (delivery d1 s1) = (Val d', s') /\ (reports (trace s')).*1 = (reports (trace s)).*1 ++ [6; 7].
Proof. eexists _, _, _, _, _, _. do 4 (split; [vm_compute; reflexivity|]). vm_compute. reflexivity. Qed.

(** A message of 16 bytes is enough for [readable_v6], which then takes the next header, the addresses
    and the ports of the quoted datagram from what its array [buf] happens to hold: here the report
    goes to the client of a port that the packet does not name. *)
Definition garbage_v6 : list Z :=
  replicate 16 0 ++ replicate 32 0 ++ htons 5000 ++ replicate (Z.to_nat MAXLINE - 50) 0.
Definition short_v6 : list Z := [1; 4; 0; 0; 0; 0; 0; 0; 96; 0; 0; 0; 0; 12; 17; 64].

Lemma short_v6_reported :
  let d := Icmpd 3 4 5 0 6 1 [] [] [Client 6 AF_INET6 (port_field (htons 5000))] (replicate 128 0) in
  exists d' s', @readable_v6 (fun h c => match c with sys_recvfrom _ _ _ _ => SR 16 None short_v6 [] (Some (SockIn6 [0; 0] (replicate 16 0) 0 0))
      | sys_write _ b => ok (Z.of_nat (length b)) | _ => ok 0 end) numeric_strerror daemon_config garbage_v6 (no_stack []).2 d init = (Val d', s') /\
    (reports (trace s')).*1 = [6].
Proof. eexists _, _. split; [vm_compute; reflexivity|]. vm_compute. reflexivity. Qed.

(** The control buffer of [read_fd], padded to the alignment of a control message, has room for a second
    descriptor where [size_t] has 8 bytes.  When a client passes two, [read_fd] finds a length that is
    not the one for one descriptor and reports that none was passed: the daemon has both open from then on. *)
Lemma two_descriptors_lost :
  let d := Icmpd 3 4 5 0 6 1 [] [6] [Client 6 0 0] (replicate 128 0) in
  exists d' s', @readable_conn (fun h c => match c with
      | sys_recvmsg _ _ _ _ => SR 1 None [0] [CMSG_SPACE_INT; SOL_SOCKET; SCM_RIGHTS; 7; 8] None
      | sys_write _ b => ok (Z.of_nat (length b)) | _ => ok 0 end) numeric_strerror daemon_config 0 d init = (Val d', s') /\
    conns d' = [-1] /\ opened (trace s') = [7; 8] /\ lost (trace s') = [7; 8].
Proof. eexists _, _. split; [vm_compute; reflexivity|]. vm_compute. split_and!; reflexivity. Qed.
