(* ===== verification/Ping.v ===== *)
(** The [ping] program: [ping/send_v4.c], [send_v6.c], [proc_v4.c], [proc_v6.c], [init_v6.c],
    [readloop.c], [sig_alrm.c], [tv_sub.c].

    The handler of [SIGALRM] sends an echo request and starts the alarm again; [readloop] receives
    for ever and prints the replies.  The handler uses only [sendbuf] and [nsent], which nothing else
    uses, so it does not matter where exactly it interrupts the loop: the environment decides before
    each [recvmsg], from the history so far, whether the signal is delivered there. *)

From S2P Require Import Prelude CText Sys Error Wrappers Cksum SockUtil Packet.

Definition PING_BUFSIZE : Z := 1500.
Definition SO_RCVBUF : Z := 8.
Definition IPV6_RECVHOPLIMIT : Z := 51.
Definition IPV6_HOPLIMIT : Z := 52.

(** Whether the alarm goes off here. *)
Class Ticks : Type := ticks : list event -> bool.

(** The globals, with the local buffer of [readloop]; [sarecv] is [*pr->sarecv], [host_str] the static
    buffer of [sock_ntop_host]. *)
Record ping : Type := Ping {
  sendbuf : list Z;
  nsent : Z;
  recvbuf : list Z;
  sarecv : sockaddr;
  host_str : list Z;
}.

(** A [long] read from memory. *)
Definition long_at (little : bool) (b : list Z) : Z :=
  let v := foldr (fun x acc => x + 256 * acc) 0 (if little then b else rev b) in
  if v <? 2 ^ 63 then v else v - 2 ^ 64.

Definition long (n : Z) : option Z := if (- 2 ^ 63 <=? n) && (n <? 2 ^ 63) then Some n else None.

(** [tv_sub.c] on values that need not be times: the overflow of a [long] is undefined. *)
Definition tv_sub_long (out inp : Z * Z) : option (Z * Z) :=
  usec ← long (out.2 - inp.2);
  if usec <? 0 then
    sec ← long (out.1 - 1); usec ← long (usec + 1000000); sec ← long (sec - inp.1); Some (sec, usec)
  else sec ← long (out.1 - inp.1); Some (sec, usec).

(** The loop over the control messages, each of which is its length, level, type and a word of data. *)
Fixpoint hop_limit (cs : list Z) : Z :=
  match cs with
  | _ :: cmsg_level :: cmsg_type :: w :: cs' =>
      if (cmsg_level =? IPPROTO_IPV6) && (cmsg_type =? IPV6_HOPLIMIT)
      then (if u32 w <? 2 ^ 31 then u32 w else u32 w - 2 ^ 32)      (* an int *)
      else hop_limit cs'
  | _ => -1
  end.

Section Ping.
Context {os : OS} {SE : Strerror} {CF : Config} {TK : Ticks}.
Context (six : bool) (sasend : sockaddr) (salen pid datalen : Z) (verbose : bool).

(** The [timeval] in memory at [off]. *)
Definition timeval_at (buf : list Z) (off : nat) : option (Z * Z) :=
  s ← load buf off 8; u ← load buf (off + 8) 8;
  Some (long_at little_endian s, long_at little_endian u).

Definition word_at (buf : list Z) (off : nat) : option Z := b ← load buf off 2; Some (port_field b).

(** Type, code, identifier, sequence number, and the data with the time in front. *)
Definition fill_request (icmp_type : Z) (g : ping) : M (list Z) :=
  buf <~ checked (memcpy (sendbuf g) 0 [icmp_type]) ;;
  buf <~ checked (memcpy buf 1 [0]) ;;
  buf <~ checked (memcpy buf 4 (bytes16 little_endian (u16 pid))) ;;
  buf <~ checked (memcpy buf 6 (bytes16 little_endian (u16 (nsent g)))) ;;
  buf <~ checked (memcpy buf 8 (replicate (Z.to_nat datalen) 165)) ;;      (* fill with pattern *)
  t <~ Gettimeofday ;;
  tv <~ checked (match t with [s; u] => Some (s, u) | _ => None end) ;;
  checked (memcpy buf 8 (bytes64 little_endian tv.1 ++ bytes64 little_endian tv.2)).

Definition sent_one (buf : list Z) (g : ping) : ping := Ping buf (nsent g + 1) (recvbuf g) (sarecv g) (host_str g).

Definition send_v4 (sockfd : Z) (g : ping) : M ping :=
  buf <~ fill_request ICMP_ECHO g ;;
  let len := Z.to_nat (8 + datalen) in                 (* checksum ICMP header and data *)
  buf <~ checked (memcpy buf 2 [0; 0]) ;;
  d <~ checked (load buf 0 len) ;;
  buf <~ checked (memcpy buf 2 (bytes16 little_endian (in_cksum little_endian d))) ;;
  d <~ checked (load buf 0 len) ;;
  Sendto sockfd d 0 (Some sasend) ;;;
  mpure (sent_one buf g).

Definition send_v6 (sockfd : Z) (g : ping) : M ping :=
  buf <~ fill_request ICMP6_ECHO_REQUEST g ;;
  d <~ checked (load buf 0 (Z.to_nat (8 + datalen))) ;;
  Sendto sockfd d 0 (Some sasend) ;;;                  (* kernel calculates and stores checksum for us *)
  mpure (sent_one buf g).

Definition sig_alrm (sockfd : Z) (g : ping) : M ping :=
  g <~ (if six then send_v6 sockfd g else send_v4 sockfd g) ;;
  sys (sys_alarm 1) ;;; mpure g.

(** [Sock_ntop_host(pr->sarecv, pr->salen)] *)
Definition sender (g : ping) : M (cstring * ping) :=
  p <~ Sock_ntop_host (host_str g) (sarecv g) salen ;;
  let '(str, off) := p in
  mpure (cstring_at str off, Ping (sendbuf g) (nsent g) (recvbuf g) (sarecv g) str).

Definition print_message (len type code : Z) (g : ping) : M ping :=
  if verbose then
    q <~ sender g ;;
    printf (c["  %d bytes from %s: type = %d, code = %d"] ++ [10]) [AInt len; AStr q.1; AInt type; AInt code] ;;;
    mpure q.2
  else mpure g.

Definition proc_v4 (len : Z) (tvrecv : Z * Z) (g : ping) : M ping :=
  let ptr := recvbuf g in
  hlen1 <~ checked (ip_hlen ptr 0) ;;
  ip_p <~ checked (ptr !! 9%nat) ;;
  if negb (ip_p =? IPPROTO_ICMP) then mpure g          (* not ICMP *)
  else
    let icmp := Z.to_nat hlen1 in
    let icmplen := len - hlen1 in
    if icmplen <? 8 then mpure g                       (* malformed packet *)
    else
      icmp_type <~ checked (ptr !! icmp) ;;
      if icmp_type =? ICMP_ECHOREPLY then
        icmp_id <~ checked (word_at ptr (icmp + 4)) ;;
        if negb (icmp_id =? pid) then mpure g          (* not a response to our ECHO_REQUEST *)
        else if icmplen <? 16 then mpure g             (* not enough data to use *)
        else
          tvsend <~ checked (timeval_at ptr (icmp + 8)) ;;
          tv <~ checked (tv_sub_long tvrecv tvsend) ;;
          q <~ sender g ;;
          icmp_seq <~ checked (word_at ptr (icmp + 6)) ;;
          ip_ttl <~ checked (ptr !! 8%nat) ;;
          printf (c["%d bytes from %s: seq=%u, ttl=%d, rtt=%s ms"] ++ [10])
            [AInt icmplen; AStr q.1; AInt icmp_seq; AInt ip_ttl; AStr (ms_text tv)] ;;;
          mpure q.2
      else
        icmp_code <~ checked (ptr !! (icmp + 1)%nat) ;;
        print_message icmplen icmp_type icmp_code g.

Definition proc_v6 (len : Z) (cmsgs : list Z) (tvrecv : Z * Z) (g : ping) : M ping :=
  let ptr := recvbuf g in
  if len <? 8 then mpure g                             (* malformed packet *)
  else
    icmp6_type <~ checked (ptr !! 0%nat) ;;
    if icmp6_type =? ICMP6_ECHO_REPLY then
      icmp6_id <~ checked (word_at ptr 4) ;;
      if negb (icmp6_id =? pid) then mpure g           (* not a response to our ECHO_REQUEST *)
      else if len <? 16 then mpure g                   (* not enough data to use *)
      else
        tvsend <~ checked (timeval_at ptr 8) ;;
        tv <~ checked (tv_sub_long tvrecv tvsend) ;;
        let hlim := hop_limit cmsgs in
        q <~ sender g ;;
        icmp6_seq <~ checked (word_at ptr 6) ;;
        printf c["%d bytes from %s: seq=%u, hlim="] [AInt len; AStr q.1; AInt icmp6_seq] ;;;
        (if hlim =? -1 then printf c["???"] []         (* ancillary data missing *)
         else printf c["%d"] [AInt hlim]) ;;;
        printf (c[", rtt=%s ms"] ++ [10]) [AStr (ms_text tv)] ;;;
        mpure q.2
    else
      icmp6_code <~ checked (ptr !! 1%nat) ;;
      print_message len icmp6_type icmp6_code g.

(** Only echo replies pass, unless verbose. *)
Definition reply_filter : list Z :=
  replicate 16 255 ++ (if little_endian then [253; 255; 255; 255] else [255; 255; 255; 253]) ++ replicate 12 255.

Definition init_v6 (sockfd : Z) : M unit :=
  (if negb verbose then
     sys (sys_setsockopt sockfd IPPROTO_IPV6 ICMP6_FILTER (OBytes reply_filter)) ;;; mpure tt
   else mpure tt) ;;;
  sys (sys_setsockopt sockfd IPPROTO_IPV6 IPV6_RECVHOPLIMIT (OInt 1)) ;;; mpure tt.

(** One iteration of [for ( ; ; )], with the signal before [recvmsg]. *)
Definition read_round (sockfd : Z) (g : ping) : M ping :=
  tick <~ (fun s => (Val (ticks (trace s)), s)) ;;
  g <~ (if tick : bool then sig_alrm sockfd g else mpure g) ;;
  r <~ sys (sys_recvmsg sockfd [PING_BUFSIZE] PING_BUFSIZE 0) ;;
  if rv r <? 0 then
    e <~ get_errno ;;
    if e =? EINTR then mpure g else err_sys c["recvmsg error"] []
  else
    buf <~ checked (memcpy (recvbuf g) 0 (rbytes r)) ;;
    let g := Ping (sendbuf g) (nsent g) buf (default (sarecv g) (rsa r)) (host_str g) in
    t <~ Gettimeofday ;;
    tval <~ checked (match t with [s; u] => Some (s, u) | _ => None end) ;;
    if six then proc_v6 (rv r) (rints r) tval g else proc_v4 (rv r) tval g.

Fixpoint read_rounds (rounds : nat) (sockfd : Z) (g : ping) : M ping :=
  match rounds with
  | O => mpure g
  | S k => g <~ read_round sockfd g ;; read_rounds k sockfd g
  end.

Definition readloop (rounds : nat) (g : ping) : M ping :=
  sockfd <~ Socket (sa_family sasend) SOCK_RAW (if six then IPPROTO_ICMPV6 else IPPROTO_ICMP) ;;
  uid <~ sys sys_getuid ;;
  sys (sys_setuid (rv uid)) ;;;                        (* don't need special permissions any more *)
  (if six then init_v6 sockfd else mpure tt) ;;;
  sys (sys_setsockopt sockfd SOL_SOCKET SO_RCVBUF (OInt (60 * 1024))) ;;;   (* OK if setsockopt fails *)
  g <~ sig_alrm sockfd g ;;                            (* send first packet *)
  read_rounds rounds sockfd g.

End Ping.
