(* ===== verification/PingClaims.v ===== *)
(** [ping]: what [send_v4] and [send_v6] put together, what [proc_v4] and [proc_v6] make of a packet, and what the
    program guarantees of its requests and the replies to them. *)

From S2P Require Import Prelude CText Sys Traces Error Wrappers Cksum SockUtil SockClaims Servers Packet Ping.

(** * Longs in memory *)

Lemma fold_bytes v i n :
  0 <= v -> foldr (fun x acc => x + 256 * acc) 0 ((fun k => Z.shiftr v (8 * Z.of_nat k) mod 256) <$> seq i n)
    = Z.shiftr v (8 * Z.of_nat i) mod 256 ^ Z.of_nat n.
Proof.
  intros Hv. revert i. induction n as [|n IH]; intros i; cbn [seq fmap list_fmap foldr].
  - by rewrite Z.mod_1_r.
  - rewrite IH. replace (8 * Z.of_nat (S i)) with (8 * Z.of_nat i + 8) by lia. rewrite <- Z.shiftr_shiftr by lia.
    set (w := Z.shiftr v (8 * Z.of_nat i)). rewrite (Z.shiftr_div_pow2 w 8) by lia. change (2 ^ 8) with 256.
    rewrite Nat2Z.inj_succ, Z.pow_succ_r, Z.rem_mul_r by lia. done.
Qed.

Lemma long_bytes64 little w : - 2 ^ 63 <= w < 2 ^ 63 -> long_at little (bytes64 little w) = w.
Proof.
  intros Hw. unfold long_at, bytes64, wrap. set (v := w mod 2 ^ 64). cbv zeta.
  assert (Hv : 0 <= v < 2 ^ 64) by (apply Z.mod_pos_bound; lia).
  assert (E : foldr (fun x acc => x + 256 * acc) 0 ((fun k => Z.shiftr v (8 * Z.of_nat k) mod 256) <$> seq 0 8) = v).
  { rewrite fold_bytes by lia. rewrite Z.shiftr_0_r. apply Z.mod_small. done. }
  assert (Ev : (if v <? 2 ^ 63 then v else v - 2 ^ 64) = w).
  { unfold v. destruct (Z.leb_spec 0 w).
    - rewrite Z.mod_small by lia. by rewrite (proj2 (Z.ltb_lt _ _)) by lia.
    - rewrite <- (Z.mod_add w 1), Z.mod_small by lia. rewrite (proj2 (Z.ltb_ge _ _)) by lia. lia. }
  destruct little; [by rewrite E|]. by rewrite rev_involutive, E.
Qed.

Lemma bytes_ok_bytes64 little w : bytes_ok (bytes64 little w).
Proof.
  assert (H : bytes_ok ((fun k => Z.shiftr (wrap 64 w) (8 * Z.of_nat k) mod 256) <$> seq 0 8)).
  { apply Forall_fmap, Forall_forall. intros k _. cbn. apply Z.mod_pos_bound. lia. }
  unfold bytes64. cbv zeta. destruct little; [done|]. by apply Forall_rev.
Qed.

Lemma long_ok n : - 2 ^ 63 <= n < 2 ^ 63 -> long n = Some n.
Proof. intros H. unfold long. by rewrite (proj2 (Z.leb_le _ _)), (proj2 (Z.ltb_lt _ _)) by lia. Qed.

(** Times whose difference does not overflow. *)
Definition sane (tv : Z * Z) : Prop := Z.abs tv.1 < 2 ^ 62 /\ Z.abs tv.2 < 2 ^ 61.

Lemma tv_sub_long_ok out inp : sane out -> sane inp -> tv_sub_long out inp = Some (tv_sub out inp).
Proof.
  intros [Ho1 Ho2] [Hi1 Hi2]. destruct out as [s u], inp as [s' u']. unfold tv_sub_long, tv_sub. cbn [fst snd] in *.
  rewrite (long_ok (u - u')) by lia. cbn [mbind option_bind]. destruct (Z.ltb_spec (u - u') 0).
  - rewrite (long_ok (s - 1)), (long_ok (u - u' + 1000000)) by lia. cbn [mbind option_bind]. by rewrite long_ok by lia.
  - by rewrite (long_ok (s - s')) by lia.
Qed.

(** * The history *)

(** The time that a [gettimeofday] has stored, and the last reading of the clock. *)
Definition time_of (e : event) : option (Z * Z) :=
  match e.1, rints e.2 with sys_gettimeofday, [s; u] => Some (s, u) | _, _ => None end.
Fixpoint clock (h : list event) : option (Z * Z) :=
  match h with [] => None | e :: h' => match time_of e with Some tv => Some tv | None => clock h' end end.

Abbreviation request := (list Z * option sockaddr * option (Z * Z))%type.
Abbreviation message := (sysret * option (Z * Z))%type.

(** The requests sent, each with the last reading of the clock before it; the alarms set; the messages
    received, each with the first reading of the clock after it; and the text printed. *)
Definition request_of (t : option (Z * Z)) (e : event) : list request :=
  match e.1 with sys_sendto _ d _ sa => [(d, sa, t)] | _ => [] end.
Definition alarm_of (e : event) : list Z := match e.1 with sys_alarm n => [n] | _ => [] end.
Definition message_of (e : event) : list message :=
  match e.1 with sys_recvmsg _ _ _ _ => if 0 <=? rv e.2 then [(e.2, None)] else [] | _ => [] end.
Definition text_of (e : event) : list Z :=
  match e.1 with sys_fputs t fp => if fp =? stdout then t else [] | _ => [] end.

Definition timed (tv : Z * Z) (m : message) : message := (m.1, match m.2 with Some now => Some now | None => Some tv end).

Fixpoint requests (h : list event) : list request :=
  match h with [] => [] | e :: h' => requests h' ++ request_of (clock h') e end.
Definition alarms : list event -> list Z := collect alarm_of.
Fixpoint messages (h : list event) : list message :=
  match h with
  | [] => []
  | e :: h' => match time_of e with Some tv => timed tv <$> messages h' | None => messages h' ++ message_of e end
  end.
Definition printed : list event -> cstring := collect text_of.

Record seen (R : list request) (A : list Z) (Ms : list message) (P : cstring) (T : option (Z * Z)) (s : st) : Prop := {
  se_fore : daemon_proc s = 0;
  se_requests : requests (trace s) = R;
  se_alarms : alarms (trace s) = A;
  se_messages : messages (trace s) = Ms;
  se_printed : printed (trace s) = P;
  se_clock : clock (trace s) = T;
}.

Lemma seen_after R A Ms P T c r s :
  time_of (c, r) = None -> seen R A Ms P T s ->
  seen (R ++ request_of T (c, r)) (A ++ alarm_of (c, r)) (Ms ++ message_of (c, r)) (P ++ text_of (c, r)) T (after c r s).
Proof.
  intros Ht [Hd HR HA HM HP HT]. unfold alarms, printed in *.
  constructor; cbn [after trace daemon_proc requests messages clock]; unfold alarms, printed; rewrite ?collect_cons, ?Ht; congruence.
Qed.

(** The clock is read. *)
Lemma seen_clock R A Ms P T r tv s :
  rints r = [tv.1; tv.2] -> seen R A Ms P T s ->
  seen R A (timed tv <$> Ms) P (Some tv) (after sys_gettimeofday r s).
Proof.
  intros Hr [Hd HR HA HM HP HT]. unfold alarms, printed in *.
  assert (Ht : time_of (sys_gettimeofday, r) = Some tv) by (unfold time_of; cbn [fst snd]; rewrite Hr; by destruct tv).
  constructor; cbn [after trace daemon_proc requests messages clock]; unfold alarms, printed; rewrite ?collect_cons, ?Ht;
    cbn; rewrite ?app_nil_r; congruence.
Qed.

(** Calls that are none of these. *)
Definition unseen (c : syscall) : bool :=
  match c with sys_sendto _ _ _ _ | sys_alarm _ | sys_recvmsg _ _ _ _ | sys_fputs _ _ | sys_gettimeofday => false | _ => true end.

Lemma seen_unseen R A Ms P T c r s : unseen c = true -> seen R A Ms P T s -> seen R A Ms P T (after c r s).
Proof.
  intros Hc Hs. assert (Ht : time_of (c, r) = None) by (unfold time_of; by destruct c).
  pose proof (seen_after _ _ _ _ _ c r s Ht Hs) as H. destruct c; try discriminate Hc; cbn in H; by rewrite !app_nil_r in H.
Qed.

(** [gettimeofday] gives the time of day. *)
Class ClockLaw `{OS} : Prop :=
  clock_law : forall h, rv (os_answer h sys_gettimeofday) <> -1 ->
    exists tv, rints (os_answer h sys_gettimeofday) = [tv.1; tv.2] /\ sane tv.

Section Ping.
Context {os : OS} {SE : Strerror} {CF : Config} {TK : Ticks} {CL : ClockLaw}.
Context (six : bool) (sasend : sockaddr) (salen pid datalen : Z) (verbose : bool).
Hypothesis pid16 : 0 <= pid < 65536.
Hypothesis datalen_ok : 16 <= datalen <= 1492.
Hypothesis ipv6_on : ipv6 = true.

Abbreviation goes := (ends anything (fun _ => False)).
(** The process does not end. *)
Abbreviation surely := (ends (fun _ => False) (fun _ => False)).

Lemma seen_call R A Ms P T c bad msg s (Q : sysret -> st -> Prop) :
  seen R A Ms P T s -> time_of (c, answer c s) = None -> plain msg = true ->
  (bad (rv (answer c s)) = false ->
    seen (R ++ request_of T (c, answer c s)) (A ++ alarm_of (c, answer c s)) (Ms ++ message_of (c, answer c s)) (P ++ text_of (c, answer c s)) T
      (after c (answer c s) s) -> Q (answer c s) (after c (answer c s) s)) ->
  wp (call c bad msg) (goes Q) s.
Proof using.
  intros Hs Ht Hm HQ. apply ends_call; [apply anything_output|done|apply Hs|done|]. intros Hb. apply HQ; [done|by apply seen_after].
Qed.

Lemma read_clock R A Ms P T s (Q : list Z -> st -> Prop) :
  seen R A Ms P T s -> (forall tv s', sane tv -> seen R A (timed tv <$> Ms) P (Some tv) s' -> Q [tv.1; tv.2] s') ->
  wp Gettimeofday (goes Q) s.
Proof using CL.
  intros Hs HQ. unfold Gettimeofday.
  eapply (ends_then _ _ _ _ (fun r s' => exists tv, rints r = [tv.1; tv.2] /\ sane tv /\ seen R A (timed tv <$> Ms) P (Some tv) s')).
  - apply ends_call; [apply anything_output|done|apply Hs|done|]. unfold minus1. intros Hb%Z.eqb_neq.
    destruct (clock_law (trace s) Hb) as (tv & E & Htv). exists tv. split; [done|]. split; [done|]. by eapply seen_clock.
  - intros r s' (tv & -> & H1 & H2). apply ends_pure. by apply HQ.
Qed.

Lemma seen_time {B} R A Ms P T s (k : Z * Z -> M B) (Q : B -> st -> Prop) :
  seen R A Ms P T s -> (forall tv s', sane tv -> seen R A (timed tv <$> Ms) P (Some tv) s' -> wp (k tv) (goes Q) s') ->
  wp (t <~ Gettimeofday ;; tv <~ checked (match t with [s; u] => Some (s, u) | _ => None end) ;; k tv) (goes Q) s.
Proof using CL.
  intros Hs Hk.
  eapply (ends_then _ _ _ _ (fun t s' => exists tv, t = [tv.1; tv.2] /\ sane tv /\ seen R A (timed tv <$> Ms) P (Some tv) s')).
  - eapply read_clock; [done|]. intros tv s' H1 H2. by exists tv.
  - intros t s' (tv & -> & H1 & H2). eapply wp_checked; [done|]. destruct tv. by apply Hk.
Qed.

Lemma seen_printf R A Ms P T fmt args text s (Q : unit -> st -> Prop) :
  seen R A Ms P T s -> vformat fmt args = Some text -> (forall s', seen R A Ms (P ++ text) T s' -> Q tt s') ->
  wp (printf fmt args) (surely Q) s.
Proof using.
  intros Hs E HQ. unfold printf. eapply wp_checked; [exact E|]. apply wp_then, wp_sys. cbn [andthen]. apply ends_pure, HQ.
  pose proof (seen_after _ _ _ _ _ (sys_fputs text stdout) (answer (sys_fputs text stdout) s) s eq_refl Hs) as H. cbn in H.
  by rewrite !app_nil_r in H.
Qed.

(** * Requests *)

Definition stamp (tv : Z * Z) : list Z := bytes64 little_endian tv.1 ++ bytes64 little_endian tv.2.

(** Identifier, sequence number, time and data. *)
Definition echo_body (seq : Z) (tv : Z * Z) (rest : list Z) : list Z :=
  bytes16 little_endian (u16 pid) ++ bytes16 little_endian (u16 seq) ++ stamp tv ++ rest.

Record is_request (seq : Z) (tv : Z * Z) (d : list Z) : Prop := {
  rq_format : exists ck, length ck = 2%nat /\
    d = [if six then ICMP6_ECHO_REQUEST else ICMP_ECHO; 0] ++ ck ++ echo_body seq tv (replicate (Z.to_nat datalen - 16) 165);
  rq_length : length d = Z.to_nat (8 + datalen);
  rq_cksum : six = false -> in_cksum little_endian d = 0;
}.

Record ping_ok (g : ping) : Prop := {
  pg_send : length (sendbuf g) = Z.to_nat PING_BUFSIZE;
  pg_recv : length (recvbuf g) = Z.to_nat PING_BUFSIZE;
  pg_str : length (host_str g) = 128%nat;
}.

Lemma length_stamp tv : length (stamp tv) = 16%nat.
Proof. unfold stamp. by rewrite length_app, !length_bytes64. Qed.

(** The buffer after [fill_request]: 2 bytes of it are not touched. *)
Lemma fill_request_spec ty g R A Ms P T s :
  ping_ok g -> seen R A Ms P T s ->
  wp (fill_request pid datalen ty g) (goes (fun buf s' => exists tv ck rest, seen R A (timed tv <$> Ms) P (Some tv) s' /\ sane tv /\ length ck = 2%nat /\
    buf = [ty; 0] ++ ck ++ echo_body (nsent g) tv (replicate (Z.to_nat datalen - 16) 165) ++ rest /\
    length buf = Z.to_nat PING_BUFSIZE)) s.
Proof using All.
  intros [Hb _ _] Hs. unfold fill_request, PING_BUFSIZE in *.
  destruct (sendbuf g) as [|x0 [|x1 [|x2 [|x3 [|x4 [|x5 [|x6 [|x7 tl]]]]]]]] eqn:Eb; try (cbn in Hb; lia). cbn [length] in Hb.
  destruct (bytes16 little_endian (u16 pid)) as [|i1 [|i2 [|]]] eqn:Ei;
    try (pose proof (length_bytes16 little_endian (u16 pid)) as H; rewrite Ei in H; cbn in H; lia).
  destruct (bytes16 little_endian (u16 (nsent g))) as [|q1 [|q2 [|]]] eqn:Eq;
    try (pose proof (length_bytes16 little_endian (u16 (nsent g))) as H; rewrite Eq in H; cbn in H; lia).
  rewrite memcpy_ok by (cbn; lia). cbn [take drop app length Nat.add]. eapply wp_checked; [done|].
  do 3 (rewrite memcpy_ok by (cbn; lia); cbn [take drop app length Nat.add]; eapply wp_checked; [done|]).
  rewrite ?drop_0. rewrite memcpy_ok by (rewrite length_replicate; cbn; lia). eapply wp_checked; [done|].
  rewrite length_replicate, ?drop_0. cbn [take drop app Nat.add]. rewrite (take_0 tl). cbn [app]. set (rest := drop _ tl).
  assert (Hrest : length rest = (Z.to_nat 1500 - 8 - Z.to_nat datalen)%nat) by (unfold rest; rewrite length_drop; lia).
  eapply seen_time; [done|]. intros tv s1 Htv Hs1. pose proof (length_stamp tv) as Hst. unfold stamp in Hst.
  rewrite memcpy_ok by (rewrite Hst; cbn [length]; rewrite length_app, length_replicate; lia). apply ends_pure.
  exists tv, [x2; x3], rest. split; [done|]. split; [done|]. split; [done|]. rewrite Hst. cbn [take drop app Nat.add]. rewrite take_0. cbn [app].
  assert (Ed : drop 16 (replicate (Z.to_nat datalen) 165 ++ rest) = replicate (Z.to_nat datalen - 16) 165 ++ rest).
  { rewrite drop_app_le by (rewrite length_replicate; lia). by rewrite drop_replicate. }
  rewrite Ed. split.
  - unfold echo_body, stamp. rewrite Ei, Eq. cbn [app]. by rewrite <- !app_assoc.
  - cbn [length]. rewrite !length_app, !length_replicate, !length_bytes64, Hrest. lia.
Qed.

Abbreviation body seq tv := (echo_body seq tv (replicate (Z.to_nat datalen - 16) 165)).

Lemma length_body seq tv : length (body seq tv) = Z.to_nat (4 + datalen).
Proof using datalen_ok.
  unfold echo_body. rewrite !length_app, !length_bytes16, length_stamp, length_replicate. lia.
Qed.

Lemma bytes_ok_body seq tv : bytes_ok (body seq tv).
Proof using.
  unfold echo_body, stamp. repeat apply Forall_app_2; try apply bytes_ok_bytes64; try (apply bytes16_spec, Z.mod_pos_bound; lia).
  by apply Forall_replicate.
Qed.

(** Storing the two bytes of the checksum. *)
Lemma put_cksum ty ck ck' seq tv rest :
  length ck = 2%nat -> length ck' = 2%nat ->
  memcpy ([ty; 0] ++ ck ++ body seq tv ++ rest) 2 ck' = Some ([ty; 0] ++ ck' ++ body seq tv ++ rest).
Proof using.
  intros Hc Hc'. destruct ck as [|a [|b [|]]], ck' as [|a' [|b' [|]]]; try discriminate. rewrite memcpy_ok by (cbn; lia). done.
Qed.

Lemma load_request ty ck seq tv rest :
  length ck = 2%nat -> load ([ty; 0] ++ ck ++ body seq tv ++ rest) 0 (Z.to_nat (8 + datalen)) = Some ([ty; 0] ++ ck ++ body seq tv).
Proof using datalen_ok.
  intros Hc. pose proof (length_body seq tv) as Hb.
  assert (El : length ([ty; 0] ++ ck ++ body seq tv) = Z.to_nat (8 + datalen)) by (rewrite !length_app, Hc, Hb; cbn; lia).
  rewrite (app_assoc ck), (app_assoc [ty; 0]), load_prefix by (rewrite El; lia). f_equal. rewrite drop_0.
  apply take_ge. by rewrite El.
Qed.

(** One request is sent, with the time just read. *)
Definition has_sent R A Ms P (g g' : ping) (s' : st) : Prop :=
  exists tv d, sane tv /\ is_request (nsent g) tv d /\ ping_ok g' /\ g' = sent_one (sendbuf g') g /\
    seen (R ++ [(d, Some sasend, Some tv)]) A (timed tv <$> Ms) P (Some tv) s'.

Lemma request_sent R A Ms P sockfd g buf d tv s :
  ping_ok g -> seen R A (timed tv <$> Ms) P (Some tv) s -> sane tv -> is_request (nsent g) tv d -> length buf = Z.to_nat PING_BUFSIZE ->
  wp (Sendto sockfd d 0 (Some sasend) ;;; mpure (sent_one buf g)) (goes (fun g' s' => has_sent R A Ms P g g' s')) s.
Proof using.
  intros Hg Hs Htv Hd Hb. unfold Sendto.
  eapply (ends_then _ _ _ _ (fun _ s' => seen (R ++ [(d, Some sasend, Some tv)]) A (timed tv <$> Ms) P (Some tv) s')).
  - eapply (ends_then _ _ _ _ (fun _ s' => seen (R ++ [(d, Some sasend, Some tv)]) A (timed tv <$> Ms) P (Some tv) s')).
    + eapply seen_call; [done|done|done|]. intros _ H. cbn in H. by rewrite !app_nil_r in H.
    + intros _ s' H. by apply ends_pure.
  - intros _ s' H. apply ends_pure. exists tv, d. split; [done|]. split; [done|]. split; [destruct Hg; by constructor|done].
Qed.

Lemma send_v4_spec R A Ms P T sockfd g s :
  six = false -> ping_ok g -> seen R A Ms P T s ->
  wp (send_v4 sasend pid datalen sockfd g) (goes (fun g' s' => has_sent R A Ms P g g' s')) s.
Proof using All.
  intros H4 Hg Hs. unfold send_v4. eapply ends_then; [by eapply fill_request_spec|].
  intros buf s1 (tv & ck & rest & Hs1 & Htv & Hck & -> & Hl). rewrite (put_cksum _ ck [0; 0]) by done. eapply wp_checked; [done|].
  rewrite load_request by done. eapply wp_checked; [done|]. set (d0 := [ICMP_ECHO; 0] ++ [0; 0] ++ body (nsent g) tv).
  set (ck' := bytes16 little_endian (in_cksum little_endian d0)). assert (Hck' : length ck' = 2%nat) by apply length_bytes16.
  rewrite (put_cksum _ [0; 0] ck') by done. eapply wp_checked; [done|]. rewrite load_request by done. eapply wp_checked; [done|].
  assert (El : length ([ICMP_ECHO; 0] ++ ck' ++ body (nsent g) tv) = Z.to_nat (8 + datalen))
    by (rewrite !length_app, Hck', length_body; cbn; lia).
  apply (request_sent _ _ _ _ _ _ _ _ tv); [done|done|done| |].
  - constructor; [exists ck'; by rewrite H4|done|]. intros _. apply (in_cksum_insert little_endian [ICMP_ECHO; 0] (body (nsent g) tv) 1); [done| |].
    + apply Forall_app_2; [by apply bytes_ok_bool|]. apply Forall_app_2; [by apply bytes_ok_bool|apply bytes_ok_body].
    + rewrite !length_app, length_body. cbn. lia.
  - rewrite <- Hl, !length_app, Hck, Hck'. done.
Qed.

Lemma send_v6_spec R A Ms P T sockfd g s :
  six = true -> ping_ok g -> seen R A Ms P T s ->
  wp (send_v6 sasend pid datalen sockfd g) (goes (fun g' s' => has_sent R A Ms P g g' s')) s.
Proof using All.
  intros H6 Hg Hs. unfold send_v6. eapply ends_then; [by eapply fill_request_spec|].
  intros buf s1 (tv & ck & rest & Hs1 & Htv & Hck & -> & Hl). rewrite load_request by done. eapply wp_checked; [done|].
  apply (request_sent _ _ _ _ _ _ _ _ tv); [done|done|done| |done].
  constructor; [exists ck; by rewrite H6| |by rewrite H6]. rewrite !length_app, Hck, length_body. cbn. lia.
Qed.

(** The handler: a request and the next alarm. *)
Lemma sig_alrm_spec R A Ms P T sockfd g s :
  ping_ok g -> seen R A Ms P T s ->
  wp (sig_alrm six sasend pid datalen sockfd g) (goes (fun g' s' => has_sent R (A ++ [1]) Ms P g g' s')) s.
Proof using All.
  intros Hg Hs. unfold sig_alrm. eapply (ends_then _ _ _ _ (fun g' s' => has_sent R A Ms P g g' s')).
  { destruct six eqn:E; [by eapply send_v6_spec|by eapply send_v4_spec]. }
  intros g' s1 (tv & d & H1 & H2 & H3 & H4 & Hs1). apply wp_then, wp_sys. cbn [andthen]. apply ends_pure. exists tv, d. split_and!; try done.
  pose proof (seen_after _ _ _ _ _ (sys_alarm 1) (answer (sys_alarm 1) s1) s1 eq_refl Hs1) as H. cbn in H. by rewrite !app_nil_r in H.
Qed.

(** * Replies *)

(** An echo reply to the request [seq]; [hdr] is the IPv4 header in front of it. *)
Definition echo_reply (p : list Z) (seq : Z) (tv : Z * Z) (ttl : Z) : Prop :=
  exists hdr code c1 c2 rest,
    p = hdr ++ [if six then ICMP6_ECHO_REPLY else ICMP_ECHOREPLY; code; c1; c2] ++ echo_body seq tv rest /\
    if six then hdr = []
    else (20 <= length hdr)%nat /\ ip_hlen hdr 0 = Some (Z.of_nat (length hdr)) /\
         hdr !! 9%nat = Some IPPROTO_ICMP /\ hdr !! 8%nat = Some ttl.

(** The ICMP message, of 8 bytes at least, begins at [k]. *)
Definition icmp_at (p : list Z) (k : nat) : Prop :=
  (if six then k = 0%nat else ip_hlen p 0 = Some (Z.of_nat k) /\ p !! 9%nat = Some IPPROTO_ICMP) /\ (k + 8 <= length p)%nat.

Definition reply_type : Z := if six then ICMP6_ECHO_REPLY else ICMP_ECHOREPLY.

(** It is a reply with our identifier and with 8 bytes of data at least, whatever they are. *)
Definition to_us (p : list Z) (k : nat) : Prop :=
  icmp_at p k /\ (k + 16 <= length p)%nat /\ p !! k = Some reply_type /\ word_at p (k + 4) = Some pid.

(** The time that is taken from its data: its microseconds are in the packet when there are 16 bytes. *)
Definition carries (p : list Z) (k : nat) (tv : Z * Z) : Prop :=
  (exists b, load p (k + 8) 8 = Some b /\ tv.1 = long_at little_endian b) /\
  ((k + 24 <= length p)%nat -> timeval_at p (k + 8) = Some tv).

(** What is printed for a reply of [len] bytes from [sa]. *)
Definition reply_line (len : Z) (sa : sockaddr) (seq ttl : Z) (cmsgs : list Z) (rtt : Z * Z) : cstring :=
  print_d len ++ c[" bytes from "] ++ host_text sa ++ c[": seq="] ++ print_u 10 (u32 seq) ++
  (if six then c[", hlim="] ++ (if hop_limit cmsgs =? -1 then c["???"] else print_d (hop_limit cmsgs))
   else c[", ttl="] ++ print_d ttl) ++
  c[", rtt="] ++ ms_text rtt ++ c[" ms"] ++ [10].

(** What is printed for another message. *)
Definition message_line (len : Z) (sa : sockaddr) (ty code : Z) : cstring :=
  c["  "] ++ print_d len ++ c[" bytes from "] ++ host_text sa ++ c[": type = "] ++ print_d ty ++ c[", code = "] ++ print_d code ++ [10].

(** What is printed for the message [r], which came from [sa], when the clock stood at [now]. *)
Inductive told (r : sysret) (sa : sockaddr) (now : Z * Z) : cstring -> Prop :=
| told_none : (forall k, ~ icmp_at (rbytes r) k) -> told r sa now []
| told_foreign k :
    icmp_at (rbytes r) k -> rbytes r !! k = Some reply_type -> ~ to_us (rbytes r) k -> told r sa now []
| told_reply k tv rtt seq ttl :
    to_us (rbytes r) k -> carries (rbytes r) k tv -> tv_sub_long now tv = Some rtt ->
    word_at (rbytes r) (k + 6) = Some seq -> (six = false -> rbytes r !! 8%nat = Some ttl) ->
    told r sa now (reply_line (Z.of_nat (length (rbytes r) - k)) sa seq ttl (rints r) rtt)
| told_other k ty code :
    icmp_at (rbytes r) k -> rbytes r !! k = Some ty -> ty <> reply_type -> rbytes r !! (k + 1)%nat = Some code ->
    told r sa now (if verbose then message_line (Z.of_nat (length (rbytes r) - k)) sa ty code else []).

(** A reply to us whose time makes the subtraction overflow. *)
Definition overflowing (r : sysret) (now : Z * Z) : Prop :=
  exists k tv, to_us (rbytes r) k /\ carries (rbytes r) k tv /\ tv_sub_long now tv = None.

Lemma word_prefix p tail off : (off + 2 <= length p)%nat -> word_at (p ++ tail) off = word_at p off.
Proof using. intros H. unfold word_at. rewrite load_prefix by done. by rewrite load_ok. Qed.

Lemma timeval_prefix p tail off : (off + 16 <= length p)%nat -> timeval_at (p ++ tail) off = timeval_at p off.
Proof using. intros H. unfold timeval_at. rewrite !load_prefix by lia. by rewrite !load_ok by lia. Qed.

Lemma load_middle (a d b : list Z) n : length d = n -> load (a ++ d ++ b) (length a) n = Some d.
Proof. intros <-. rewrite load_ok by llia. by rewrite drop_app_length, take_app_length. Qed.

Lemma word_middle (a b : list Z) w : 0 <= w < 65536 -> word_at (a ++ bytes16 little_endian w ++ b) (length a) = Some w.
Proof using.
  intros Hw. unfold word_at. rewrite load_middle by apply length_bytes16. cbn. by rewrite port_field_bytes16.
Qed.

Lemma timeval_middle (a b : list Z) tv : sane tv -> timeval_at (a ++ stamp tv ++ b) (length a) = Some tv.
Proof using.
  intros [H1 H2]. unfold timeval_at, stamp. rewrite <- app_assoc. rewrite load_middle by apply length_bytes64. cbn [mbind option_bind].
  replace (length a + 8)%nat with (length (a ++ bytes64 little_endian tv.1)) by (rewrite length_app, length_bytes64; lia).
  rewrite app_assoc, load_middle by apply length_bytes64. cbn [mbind option_bind].
  rewrite !long_bytes64 by lia. by destruct tv.
Qed.

(** Where the parts of an echo reply are. *)
Lemma echo_reply_fields p seq tv ttl :
  echo_reply p seq tv ttl -> sane tv ->
  exists k, to_us p k /\ carries p k tv /\ (k + 24 <= length p)%nat /\ word_at p (k + 6) = Some (u16 seq) /\
    (six = false -> p !! 8%nat = Some ttl).
Proof using pid16.
  intros (hdr & code & c1 & c2 & rest & -> & Hh) Htv. exists (length hdr).
  fold reply_type. set (ty := reply_type). unfold echo_body.
  assert (Hu : u16 pid = pid) by (unfold wrap; by apply Z.mod_small). rewrite Hu.
  set (ib := bytes16 little_endian pid). set (sb := bytes16 little_endian (u16 seq)).
  assert (Hi : length ib = 2%nat) by apply length_bytes16. assert (Hs : length sb = 2%nat) by apply length_bytes16.
  set (p := hdr ++ _).
  assert (Hl : (length hdr + 24 <= length p)%nat) by (unfold p; rewrite !length_app, Hi, Hs, length_stamp; cbn; lia).
  assert (Hw4 : word_at p (length hdr + 4) = Some pid).
  { unfold p. replace (length hdr + 4)%nat with (length (hdr ++ [ty; code; c1; c2])) by llia. rewrite app_assoc. by apply word_middle. }
  assert (Hw6 : word_at p (length hdr + 6) = Some (u16 seq)).
  { unfold p. replace (length hdr + 6)%nat with (length ((hdr ++ [ty; code; c1; c2]) ++ ib)) by (rewrite !length_app, Hi; cbn; lia).
    rewrite (app_assoc hdr), (app_assoc _ ib). apply word_middle. unfold wrap. apply Z.mod_pos_bound. lia. }
  assert (Ht8 : timeval_at p (length hdr + 8) = Some tv).
  { unfold p. replace (length hdr + 8)%nat with (length (((hdr ++ [ty; code; c1; c2]) ++ ib) ++ sb)) by (rewrite !length_app, Hi, Hs; cbn; lia).
    rewrite (app_assoc hdr), (app_assoc _ ib), (app_assoc _ sb). by apply timeval_middle. }
  split; [split; [split; [|lia]|split_and!; [lia|unfold p; by rewrite lookup_app_r, Nat.sub_diag by lia|done]]|].
  { unfold p. destruct six; [by subst hdr|]. destruct Hh as (H20 & E1 & E2 & E3). rewrite ip_hlen_prefix by lia. split; [done|].
    rewrite !lookup_app_l by lia. done. }
  split; [split; [|done]|split_and!; [done|done|]].
  - unfold timeval_at in Ht8. destruct (load p (length hdr + 8) 8) as [b|]; [|discriminate Ht8]. exists b. split; [done|].
    cbn [mbind option_bind] in Ht8. destruct (load p _ 8); [|discriminate Ht8]. cbn [mbind option_bind] in Ht8. by injection Ht8 as <-.
  - intros E4. rewrite E4 in Hh. unfold p. destruct Hh as (H20 & _ & _ & E). by rewrite lookup_app_l by lia.
Qed.

Lemma icmp_at_inj p k k' : icmp_at p k -> icmp_at p k' -> k = k'.
Proof using.
  intros [H _] [H' _]. destruct six; [congruence|]. destruct H as [H _], H' as [H' _]. rewrite H in H'. injection H'. lia.
Qed.

Lemma icmp_at_early p k : icmp_at p k -> (k <= 60)%nat.
Proof using.
  intros [H _]. destruct six; [lia|]. destruct H as [H _]. apply ip_hlen_range in H. lia.
Qed.

(** The reply to a request with a time of day: the text is determined. *)
Lemma told_echo r sa now seq tv ttl text :
  told r sa now text -> echo_reply (rbytes r) seq tv ttl -> sane tv -> sane now ->
  exists k, icmp_at (rbytes r) k /\
    text = reply_line (Z.of_nat (length (rbytes r) - k)) sa (u16 seq) ttl (rints r) (tv_sub now tv).
Proof using pid16.
  intros Ht Hr Htv Hnow. destruct (echo_reply_fields _ _ _ _ Hr Htv) as (k & Hu & [_ Hc] & Hl & Hs & Httl).
  specialize (Hc Hl). exists k. split; [apply Hu|]. destruct Ht as [Hno|k' Hat _ Hn|k' tv' rtt seq' ttl' Hu' [_ Hc'] Hsub Hs' Httl'|k' ty code Hat Hty Hne _].
  - exfalso. apply (Hno k), Hu.
  - exfalso. apply Hn. by rewrite (icmp_at_inj _ _ _ Hat (proj1 Hu)).
  - assert (k' = k) as -> by (apply (icmp_at_inj (rbytes r)); [apply Hu'|apply Hu]). specialize (Hc' Hl).
    assert (tv' = tv) as -> by congruence. assert (seq' = u16 seq) as -> by congruence.
    rewrite tv_sub_long_ok in Hsub by done. injection Hsub as <-. unfold reply_line. destruct six; [done|].
    specialize (Httl eq_refl). specialize (Httl' eq_refl). congruence.
  - exfalso. assert (k' = k) as -> by (by apply (icmp_at_inj (rbytes r)); [|apply Hu]). destruct Hu as (_ & _ & E & _). congruence.
Qed.

Definition set_host (g : ping) (str : list Z) : ping := Ping (sendbuf g) (nsent g) (recvbuf g) (sarecv g) str.

(** One message has been dealt with. *)
Definition dealt (r : sysret) (now : Z * Z) R A Ms P T (g g' : ping) (s' : st) : Prop :=
  exists text str, length str = 128%nat /\ g' = set_host g str /\ told r (sarecv g) now text /\ seen R A Ms (P ++ text) T s'.

Lemma dealt_nothing r now R A Ms P T g s :
  length (host_str g) = 128%nat -> seen R A Ms P T s -> told r (sarecv g) now [] ->
  wp (mpure g) (surely (fun g' s' => dealt r now R A Ms P T g g' s')) s.
Proof using.
  intros Hg Hs H. apply ends_pure. exists [], (host_str g). rewrite app_nil_r. split; [done|]. split; [by destruct g|]. by split.
Qed.

Lemma sender_spec g s :
  host_ok (sarecv g) -> length (host_str g) = 128%nat ->
  exists str, sender salen g s = (Val (host_text (sarecv g), set_host g str), s) /\ length str = 128%nat.
Proof using ipv6_on.
  intros Hh Hl. destruct (Sock_ntop_host_text (sarecv g) salen (host_str g) s Hh Hl ipv6_on) as (str & E & Hs & Ht).
  exists str. split; [|done]. unfold sender, mthen. rewrite E. cbn. by rewrite Ht.
Qed.

Lemma print_message_spec len ty code k r now R A Ms P T g s :
  host_ok (sarecv g) -> length (host_str g) = 128%nat -> seen R A Ms P T s ->
  icmp_at (rbytes r) k -> rbytes r !! k = Some ty -> ty <> reply_type -> rbytes r !! (k + 1)%nat = Some code ->
  len = Z.of_nat (length (rbytes r) - k) ->
  wp (print_message salen verbose len ty code g) (surely (fun g' s' => dealt r now R A Ms P T g g' s')) s.
Proof using ipv6_on.
  intros Hh Hl Hs Hat Hty Hne Hcode ->. pose proof (told_other r (sarecv g) now k ty code Hat Hty Hne Hcode) as Htold.
  unfold print_message. destruct verbose eqn:Hv; [|by apply dealt_nothing].
  destruct (sender_spec g s Hh Hl) as (str & E & Hstr). apply wp_then. unfold wp at 1. rewrite E. cbn [andthen fst snd].
  eapply (ends_then _ _ _ _ (fun _ s' => seen R A Ms (P ++ message_line (Z.of_nat (length (rbytes r) - k)) (sarecv g) ty code) T s')).
  { eapply seen_printf; [done|reflexivity|]. intros s' H. exact H. }
  intros _ s' Hs'. apply ends_pure. by eexists _, str.
Qed.

(** A message in the buffer. *)
Record arrived (r : sysret) (g : ping) : Prop := {
  ar_buf : exists tail, recvbuf g = rbytes r ++ tail;
  ar_size : length (recvbuf g) = Z.to_nat PING_BUFSIZE;
  ar_len : rv r = Z.of_nat (length (rbytes r));
  ar_host : host_ok (sarecv g);
  ar_str : length (host_str g) = 128%nat;
}.

Lemma word_at_ok buf off : (off + 2 <= length buf)%nat -> is_Some (word_at buf off).
Proof using. intros H. unfold word_at. rewrite load_ok by done. by eexists. Qed.

Lemma timeval_at_ok buf off : (off + 16 <= length buf)%nat -> is_Some (timeval_at buf off).
Proof using. intros H. unfold timeval_at. rewrite !load_ok by lia. by eexists. Qed.

(** The time that is read from the buffer is the one that the packet carries. *)
Lemma carries_buffer p tail k tv :
  (k + 16 <= length p)%nat -> timeval_at (p ++ tail) (k + 8) = Some tv -> carries p k tv.
Proof using.
  intros Hk Ht. split.
  - unfold timeval_at in Ht. rewrite (load_prefix p tail (k + 8) 8) in Ht by lia. cbn [mbind option_bind] in Ht.
    destruct (load (p ++ tail) _ 8); [|discriminate Ht]. injection Ht as <-. rewrite load_ok by lia. by eexists.
  - intros Hl. by rewrite timeval_prefix in Ht by lia.
Qed.

(** A message has been dealt with, or its time makes the subtraction overflow. *)
Definition dealt_or_overflow r now R A Ms P T g s (o : outcome ping) (s' : st) : Prop :=
  match o with
  | Undefined => overflowing r now /\ s' = s
  | _ => surely (fun g' s' => dealt r now R A Ms P T g g' s') o s'
  end.

Lemma dealt_with r now R A Ms P T g s m :
  wp m (surely (fun g' s' => dealt r now R A Ms P T g g' s')) s -> wp m (dealt_or_overflow r now R A Ms P T g s) s.
Proof using. intros H. eapply wp_mono; [exact H|]. intros o s' Ho. by destruct o. Qed.

Lemma proc_v4_spec r now R A Ms P T g s :
  six = false -> (20 <= length (rbytes r))%nat -> arrived r g -> seen R A Ms P T s ->
  wp (proc_v4 salen pid verbose (rv r) now g) (dealt_or_overflow r now R A Ms P T g s) s.
Proof using pid16 ipv6_on.
  intros H4 H20 [[tail Eb] Hsz Hlen Hh Hstr] Hs. unfold proc_v4. rewrite Eb.
  set (p := rbytes r) in *.
  assert (Hty : reply_type = ICMP_ECHOREPLY) by (unfold reply_type; by rewrite H4).
  destruct (ip_hlen_ok p 0 ltac:(lia)) as (hl & Ehl & Hhl). rewrite ip_hlen_prefix by lia. eapply wp_checked; [exact Ehl|].
  set (k := Z.to_nat hl). assert (Ek : hl = Z.of_nat k) by (unfold k; lia).
  assert (Hat : forall k', icmp_at p k' -> k' = k /\ p !! 9%nat = Some IPPROTO_ICMP /\ (k + 8 <= length p)%nat).
  { intros k' [H Hl]. rewrite H4 in H. destruct H as [E ?]. rewrite Ehl in E. injection E as E. assert (k' = k) as -> by lia. done. }
  destruct (lookup_lt_is_Some_2 p 9 ltac:(lia)) as [x Ex]. rewrite lookup_app_l by lia. eapply wp_checked; [exact Ex|].
  destruct (Z.eqb_spec x IPPROTO_ICMP) as [->|Hx]; cbn [negb].
  2: { apply dealt_with, dealt_nothing; [done|done|]. apply told_none. intros k' (_ & E & _)%Hat. congruence. }
  rewrite Hlen. destruct (Z.ltb_spec (Z.of_nat (length p) - hl) 8) as [Hs8|Hs8].
  { apply dealt_with, dealt_nothing; [done|done|]. apply told_none. intros k' (_ & _ & ?)%Hat. lia. }
  assert (Hk : icmp_at p k) by (split; [rewrite H4, <- Ek; done|lia]).
  assert (Elen : Z.of_nat (length p) - hl = Z.of_nat (length p - k)) by lia.
  destruct (lookup_lt_is_Some_2 p k ltac:(lia)) as [ty Ety]. rewrite lookup_app_l by lia. eapply wp_checked; [exact Ety|].
  destruct (Z.eqb_spec ty ICMP_ECHOREPLY) as [->|Hne].
  2: { destruct (lookup_lt_is_Some_2 p (k + 1) ltac:(lia)) as [code Ecode]. rewrite lookup_app_l by lia. eapply wp_checked; [exact Ecode|].
       apply dealt_with. by apply (print_message_spec _ ty code k); try congruence. }
  rewrite <- Hty in Ety. destruct (word_at_ok p (k + 4) ltac:(lia)) as [id Eid]. rewrite word_prefix by lia. eapply wp_checked; [exact Eid|].
  destruct (Z.eqb_spec id pid) as [->|Hid]; cbn [negb].
  2: { apply dealt_with, dealt_nothing; [done|done|]. apply (told_foreign _ _ _ k); [done|done|]. intros (_ & _ & _ & E). change (word_at p (k + 4) = Some pid) in E. congruence. }
  destruct (Z.ltb_spec (Z.of_nat (length p) - hl) 16) as [Hs16|Hs16].
  { apply dealt_with, dealt_nothing; [done|done|]. apply (told_foreign _ _ _ k); [done|done|]. intros (_ & E & _). change (k + 16 <= length p)%nat in E. lia. }
  assert (Hus : to_us p k) by (split_and!; [done|lia|done|done]).
  destruct (timeval_at_ok (p ++ tail) (k + 8)) as [tv Etv].
  { rewrite <- Eb, Hsz. pose proof (icmp_at_early _ _ Hk). unfold PING_BUFSIZE. lia. }
  eapply wp_checked; [exact Etv|]. destruct (tv_sub_long now tv) as [rtt|] eqn:Ertt.
  2: { split; [|done]. exists k, tv. split; [done|]. split; [|done]. apply (carries_buffer p tail); [lia|done]. }
  apply dealt_with. eapply wp_checked; [done|].
  destruct (sender_spec g s Hh Hstr) as (str & Es & Hl'). apply wp_then. unfold wp at 1. rewrite Es. cbn [andthen fst snd].
  destruct (word_at_ok p (k + 6) ltac:(lia)) as [seq Eq]. rewrite word_prefix by lia. eapply wp_checked; [exact Eq|].
  destruct (lookup_lt_is_Some_2 p 8 ltac:(lia)) as [ttl Et]. rewrite lookup_app_l by lia. eapply wp_checked; [exact Et|].
  rewrite Elen.
  eapply (ends_then _ _ _ _ (fun _ s' => seen R A Ms (P ++ reply_line (Z.of_nat (length p - k)) (sarecv g) seq ttl (rints r) rtt) T s')).
  { eapply seen_printf; [done|reflexivity|]. intros s' H. unfold reply_line. rewrite H4. exact H. }
  intros _ s' Hs'. apply ends_pure. eexists _, str. split; [done|]. split; [done|]. split; [|exact Hs'].
  apply (told_reply _ _ _ k tv); [done| |done|done|done]. apply (carries_buffer p tail); [lia|done].
Qed.

Lemma proc_v6_spec r now R A Ms P T g s :
  six = true -> arrived r g -> seen R A Ms P T s ->
  wp (proc_v6 salen pid verbose (rv r) (rints r) now g) (dealt_or_overflow r now R A Ms P T g s) s.
Proof using pid16 ipv6_on.
  intros H6 [[tail Eb] Hsz Hlen Hh Hstr] Hs. unfold proc_v6. rewrite Eb.
  set (p := rbytes r) in *.
  assert (Hty : reply_type = ICMP6_ECHO_REPLY) by (unfold reply_type; by rewrite H6).
  assert (Hat : forall k', icmp_at p k' -> k' = 0%nat /\ (8 <= length p)%nat).
  { intros k' [H Hl]. rewrite H6 in H. subst k'. split; [done|lia]. }
  rewrite Hlen. destruct (Z.ltb_spec (Z.of_nat (length p)) 8) as [Hs8|Hs8].
  { apply dealt_with, dealt_nothing; [done|done|]. apply told_none. intros k' [_ ?]%Hat. lia. }
  assert (Hk : icmp_at p 0) by (split; [by rewrite H6|lia]).
  assert (Elen : Z.of_nat (length p) = Z.of_nat (length p - 0)) by lia.
  destruct (lookup_lt_is_Some_2 p 0 ltac:(lia)) as [ty Ety]. rewrite lookup_app_l by lia. eapply wp_checked; [exact Ety|].
  destruct (Z.eqb_spec ty ICMP6_ECHO_REPLY) as [->|Hne].
  2: { destruct (lookup_lt_is_Some_2 p 1 ltac:(lia)) as [code Ecode]. rewrite lookup_app_l by lia. eapply wp_checked; [exact Ecode|].
       apply dealt_with. by apply (print_message_spec _ ty code 0); try congruence. }
  rewrite <- Hty in Ety. destruct (word_at_ok p 4 ltac:(lia)) as [id Eid]. rewrite word_prefix by lia. eapply wp_checked; [exact Eid|].
  destruct (Z.eqb_spec id pid) as [->|Hid]; cbn [negb].
  2: { apply dealt_with, dealt_nothing; [done|done|]. apply (told_foreign _ _ _ 0); [done|done|]. intros (_ & _ & _ & E). change (word_at p 4 = Some pid) in E. congruence. }
  destruct (Z.ltb_spec (Z.of_nat (length p)) 16) as [Hs16|Hs16].
  { apply dealt_with, dealt_nothing; [done|done|]. apply (told_foreign _ _ _ 0); [done|done|]. intros (_ & E & _). change (0 + 16 <= length p)%nat in E. lia. }
  assert (Hus : to_us p 0) by (split_and!; [done|lia|done|done]).
  destruct (timeval_at_ok (p ++ tail) 8) as [tv Etv]; [rewrite <- Eb, Hsz; unfold PING_BUFSIZE; lia|].
  eapply wp_checked; [exact Etv|]. destruct (tv_sub_long now tv) as [rtt|] eqn:Ertt.
  2: { split; [|done]. exists 0%nat, tv. split; [done|]. split; [|done]. apply (carries_buffer p tail); [lia|done]. }
  apply dealt_with. eapply wp_checked; [done|].
  destruct (sender_spec g s Hh Hstr) as (str & Es & Hl'). apply wp_then. unfold wp at 1. rewrite Es. cbn [andthen fst snd].
  destruct (word_at_ok p 6 ltac:(lia)) as [seq Eq]. rewrite word_prefix by lia. eapply wp_checked; [exact Eq|].
  rewrite Elen.
  set (t1 := print_d (Z.of_nat (length p - 0)) ++ c[" bytes from "] ++ host_text (sarecv g) ++ c[": seq="] ++ print_u 10 (u32 seq) ++ c[", hlim="]).
  set (t2 := if hop_limit (rints r) =? -1 then c["???"] else print_d (hop_limit (rints r))).
  set (t3 := c[", rtt="] ++ ms_text rtt ++ c[" ms"] ++ [10]).
  eapply (ends_then _ _ _ _ (fun _ s' => seen R A Ms (P ++ t1) T s')); [by eapply seen_printf|]. intros _ s1 Hs1.
  eapply (ends_then _ _ _ _ (fun _ s' => seen R A Ms ((P ++ t1) ++ t2) T s')).
  { unfold t2. destruct (hop_limit (rints r) =? -1).
    - by eapply seen_printf.
    - eapply seen_printf; [done|reflexivity|]. intros s' H. by rewrite (app_nil_r (print_d _)) in H. }
  intros _ s2 Hs2. eapply (ends_then _ _ _ _ (fun _ s' => seen R A Ms (((P ++ t1) ++ t2) ++ t3) T s')); [by eapply seen_printf|].
  assert (E : reply_line (Z.of_nat (length p - 0)) (sarecv g) seq 0 (rints r) rtt = t1 ++ t2 ++ t3).
  { unfold reply_line, t1, t2, t3. rewrite H6, <- !app_assoc. done. }
  intros _ s3 Hs3. apply ends_pure. exists (t1 ++ t2 ++ t3), str. split; [done|]. split; [done|].
  split; [|by rewrite <- !app_assoc in Hs3]. rewrite <- E.
  apply (told_reply _ _ _ 0 tv); [done| |done|done|by rewrite H6]. apply (carries_buffer p tail); [lia|done].
Qed.
End Ping.

(** * What the program guarantees *)

(** What [recvmsg] delivers on a raw ICMP socket: a message of at most the size asked for, behind its
    header in the case of IPv4, with the address of the sender. *)
Class ReplyLaw `{OS} (six : bool) : Prop :=
  reply_law : forall h fd n controllen flags, 0 <= n -> let r := os_answer h (sys_recvmsg fd [n] controllen flags) in
    read_ok n r /\ (0 <= rv r -> (exists sa, rsa r = Some sa /\ host_ok sa) /\ (six = false -> (20 <= length (rbytes r))%nat)).

Section Claims.
Context {os : OS} {SE : Strerror} {CF : Config} {TK : Ticks} {CL : ClockLaw}.
Context (six : bool) (sasend : sockaddr) (salen pid datalen : Z) (verbose : bool).
Context {RL : ReplyLaw six}.
Hypothesis pid16 : 0 <= pid < 65536.
Hypothesis datalen_ok : 16 <= datalen <= 1492.
Hypothesis ipv6_on : ipv6 = true.

Abbreviation goes := (ends anything (fun _ => False)).

(** The time in the last message makes the subtraction overflow. *)
Definition forged (h : list event) : Prop :=
  exists r now, last (messages h) = Some (r, Some now) /\ overflowing six pid r now.

Definition pings {B} (Q : B -> st -> Prop) (o : outcome B) (s : st) : Prop :=
  match o with Undefined => forged (trace s) | _ => goes Q o s end.

Lemma goes_pings {B} (m : M B) (Q : B -> st -> Prop) s : wp m (goes Q) s -> wp m (pings Q) s.
Proof. intros H. eapply wp_mono; [exact H|]. intros o s' Ho. by destruct o. Qed.

Lemma pings_then {A B} (m : M A) (k : A -> M B) R Q s :
  wp m (pings R) s -> (forall a s', R a s' -> wp (k a) (pings Q) s') -> wp (mthen m k) (pings Q) s.
Proof. intros Hm Hk. apply wp_then. eapply wp_mono; [exact Hm|]. intros o s' Ho. destruct o; try done. by apply Hk. Qed.

(** ** The loop *)

(** The requests sent are those numbered from 0 on, each with the time at which it was sent. *)
Definition asked (R : list request) : Prop :=
  forall k d sa t, R !! k = Some (d, sa, t) -> sa = Some sasend /\
    exists tv, t = Some tv /\ sane tv /\ is_request six pid datalen (Z.of_nat k) tv d.

(** Messages that have been read, with the time of each. *)
Definition settled (Hs : list (sysret * (Z * Z))) : list message := (fun m => (m.1, Some m.2)) <$> Hs.

(** What was printed is what had to be told about each message. *)
Definition answered (Hs : list (sysret * (Z * Z))) (P : cstring) : Prop :=
  exists texts, P = concat texts /\
    Forall2 (fun m text => exists sa, rsa m.1 = Some sa /\ told six pid verbose m.1 sa m.2 text) Hs texts.

Definition pinging (g : ping) (s : st) : Prop :=
  ping_ok g /\ exists R Hs P T, seen R (replicate (length R) 1) (settled Hs) P T s /\ nsent g = Z.of_nat (length R) /\
    asked R /\ answered Hs P.

Lemma timed_settled tv Hs : timed tv <$> settled Hs = settled Hs.
Proof using. unfold settled. rewrite <- list_fmap_compose. by apply list_fmap_ext. Qed.

Lemma asked_snoc R d tv :
  asked R -> sane tv -> is_request six pid datalen (Z.of_nat (length R)) tv d -> asked (R ++ [(d, Some sasend, Some tv)]).
Proof using.
  intros HR Htv Hd k d' sa t Hk. apply lookup_app_Some in Hk as [Hk|[Hge Hk]]; [by eapply HR|].
  apply list_lookup_singleton_Some in Hk as [Hk [= <- <- <-]]. split; [done|]. exists tv.
  by replace k with (length R) by lia.
Qed.

Lemma answered_snoc Hs P r now text sa :
  answered Hs P -> rsa r = Some sa -> told six pid verbose r sa now text -> answered (Hs ++ [(r, now)]) (P ++ text).
Proof using.
  intros (texts & -> & HF) Hsa Ht. exists (texts ++ [text]). split; [rewrite concat_app; cbn; by rewrite app_nil_r|].
  apply Forall2_app; [done|]. constructor; [by exists sa|constructor].
Qed.

Lemma pinging_alarm sockfd g s : pinging g s -> wp (sig_alrm six sasend pid datalen sockfd g) (goes (fun g' s' => pinging g' s')) s.
Proof using TK pid16 datalen_ok ipv6_on CL.
  intros [Hg (R & Hs & P & T & Hseen & Hn & HR & HM)]. eapply ends_mono; [by eapply sig_alrm_spec|].
  intros g' s' (tv & d & Htv & Hd & Hg' & E & Hs'). split; [done|]. exists (R ++ [(d, Some sasend, Some tv)]), Hs, P, (Some tv).
  rewrite timed_settled in Hs'. rewrite length_app. cbn [length]. rewrite Nat.add_1_r, replicate_S_end. split; [exact Hs'|].
  split; [rewrite E; cbn; lia|]. split; [|done]. rewrite Hn in Hd. by eapply asked_snoc.
Qed.

Lemma read_round_spec sockfd g s : pinging g s ->
  wp (read_round six sasend salen pid datalen verbose sockfd g) (pings (fun g' s' => pinging g' s')) s.
Proof using All.
  intros Hp. unfold read_round. apply wp_then. unfold wp at 1. cbn [andthen].
  eapply (pings_then _ _ (fun g' s' => pinging g' s')); [apply goes_pings; destruct (ticks _); [by apply pinging_alarm|by apply ends_pure]|].
  clear Hp. intros g1 s1 [[Hb1 Hb2 Hb3] (R & Hs & P & T & Hseen & Hn & HR & HM)]. apply wp_then, wp_sys. cbn [andthen].
  set (c := sys_recvmsg _ _ _ _). set (r := answer c s1). set (s2 := after c r s1).
  destruct (reply_law (trace s1) sockfd PING_BUFSIZE PING_BUFSIZE 0 ltac:(done)) as [[Hby Hrd] Hlaw].
  fold c in Hby, Hrd, Hlaw. change (os_answer (trace s1) c) with r in *.
  pose proof (seen_after _ _ _ _ _ c r s1 eq_refl Hseen) as Hs2. fold s2 in Hs2. cbn [request_of alarm_of message_of text_of c fst snd] in Hs2.
  rewrite !app_nil_r in Hs2.
  destruct (Z.ltb_spec (rv r) 0) as [Hneg|Hpos].
  { rewrite (proj2 (Z.leb_gt 0 (rv r))), app_nil_r in Hs2 by done. apply wp_then. unfold get_errno, wp at 1. cbn [andthen].
    apply goes_pings. destruct (_ =? EINTR); [|by apply ends_err_sys; [apply anything_output|done|apply Hs2|]].
    apply ends_pure. split; [done|]. by exists R, Hs, P, T. }
  rewrite (proj2 (Z.leb_le 0 (rv r))) in Hs2 by done.
  destruct (Hlaw Hpos) as ((sa & Esa & Hhost) & H20). destruct Hrd as [[? _]|[Hlen Hle]]; [lia|].
  unfold PING_BUFSIZE in *. eapply wp_checked; [apply received_into; lia|].
  set (g2 := Ping _ _ _ _ _).
  eapply (pings_then _ _ (fun t s3 => exists now, t = [now.1; now.2] /\ seen R (replicate (length R) 1) (settled (Hs ++ [(r, now)])) P (Some now) s3)).
  { apply goes_pings. eapply read_clock; [exact Hs2|]. intros tv s3 _ H3. exists tv. split; [done|].
    rewrite fmap_app, timed_settled in H3. unfold settled. rewrite fmap_app. exact H3. }
  intros t s3 (now & -> & Hs3). eapply wp_checked; [done|]. destruct now as [nows nowu]. cbn [fst snd]. set (now := (nows, nowu)) in *.
  assert (Ha : arrived r g2).
  { constructor; try done; [by eexists|cbn; unfold PING_BUFSIZE; llia|cbn; by rewrite Esa]. }
  eapply wp_mono.
  { assert (Hproc : wp (if six then proc_v6 salen pid verbose (rv r) (rints r) now g2 else proc_v4 salen pid verbose (rv r) now g2)
      (dealt_or_overflow six pid verbose r now R (replicate (length R) 1) (settled (Hs ++ [(r, now)])) P (Some now) g2 s3) s3); [|exact Hproc].
    destruct six eqn:E6; [by eapply (proc_v6_spec true)|eapply (proc_v4_spec false); try done; by apply H20]. }
  intros o s4. destruct o as [g3| | | |]; try done; [|by intros [_ []]| |by intros [[] _]].
  - intros (text & str & Hstr & -> & Ht & Hs4). split; [constructor; [done|cbn; unfold PING_BUFSIZE; llia|done]|].
    exists R, (Hs ++ [(r, now)]), (P ++ text), (Some now). split; [done|]. split; [done|]. split; [done|].
    cbn [g2 sarecv] in Ht. rewrite Esa in Ht. by eapply answered_snoc.
  - intros [Hov ->]. exists r, now. split; [|done]. rewrite (se_messages _ _ _ _ _ _ Hs3). unfold settled.
    rewrite fmap_app. apply last_snoc.
Qed.

Lemma read_rounds_spec sockfd rounds : forall g s, pinging g s ->
  wp (read_rounds six sasend salen pid datalen verbose rounds sockfd g) (pings (fun g' s' => pinging g' s')) s.
Proof using All.
  induction rounds as [|k IH]; intros g s Hp; cbn [read_rounds]; [done|].
  eapply pings_then; [by apply read_round_spec|]. intros. by apply IH.
Qed.

Lemma pinging_unseen g c r s : unseen c = true -> pinging g s -> pinging g (after c r s).
Proof using.
  intros Hc [Hg (R & Hs & P & T & Hseen & H)]. split; [done|]. exists R, Hs, P, T. split; [by apply seen_unseen|done].
Qed.

Lemma readloop_spec rounds g s :
  pinging g s -> wp (readloop six sasend salen pid datalen verbose rounds g) (pings (fun g' s' => pinging g' s')) s.
Proof using All.
  intros Hp. unfold readloop, Socket. assert (Hd : daemon_proc s = 0) by by destruct Hp as (_ & R & Hs & P & T & [? _ _ _ _ _] & _).
  eapply (pings_then _ _ (fun _ s' => pinging g s')).
  { apply goes_pings. eapply (ends_then _ _ _ _ (fun _ s' => pinging g s')); [|by intros].
    apply ends_call; [apply anything_output|done|done|done|]. intros _. by apply pinging_unseen. }
  intros sockfd s1 H1. do 2 (apply wp_then, wp_sys; cbn [andthen]).
  eapply (pings_then _ _ (fun _ s' => pinging g s')).
  { assert (Hi : forall s, pinging g s -> wp (init_v6 verbose sockfd) (goes (fun _ s' => pinging g s')) s).
    { intros s0 H0. unfold init_v6. eapply (ends_then _ _ _ _ (fun _ s' => pinging g s')).
      - destruct (negb verbose); [|by apply ends_pure]. apply wp_then, wp_sys. cbn [andthen]. apply ends_pure. by apply pinging_unseen.
      - intros _ s' H'. apply wp_then, wp_sys. cbn [andthen]. apply ends_pure. by apply pinging_unseen. }
    apply goes_pings. destruct six; [apply Hi|apply ends_pure]; by do 2 (apply pinging_unseen; [done|]). }
  intros _ s2 H2. apply wp_then, wp_sys. cbn [andthen].
  eapply pings_then; [by apply goes_pings, pinging_alarm, pinging_unseen|]. intros g1 s3 H3. by apply read_rounds_spec.
Qed.

(** C29: [ping] asks and reports for ever.  Started in a fresh process and observed after any number of
    iterations of its loop, before whichever of its calls of [recvmsg] the alarm goes off: the requests sent
    are numbered from 0 on, without gaps, [nsent] is their number, each goes to the host with our
    identifier, the full data and the time that the clock showed last before it, with a checksum that is
    valid in the case of IPv4, and sets the alarm for the next one.  For each message received, in order,
    what had to be told about it is printed: for a reply with our identifier the line with the difference
    between the first reading of the clock after it and the time in the packet, whoever put it there; for a
    message of another type the line with its type and code if verbose; and nothing for any other.  If the
    process ends, it is with an error report and status 1.  The only undefined behaviour is the overflow of
    that difference, which takes a reply with our identifier and a forged time ([forged_time]). *)
Theorem ping_run rounds g s :
  ping_ok g -> nsent g = 0 -> daemon_proc s = 0 -> trace s = [] ->
  let '(o, s') := readloop six sasend salen pid datalen verbose rounds g s in
  match o with
  | Val g' =>
      nsent g' = Z.of_nat (length (requests (trace s'))) /\ asked (requests (trace s')) /\
      alarms (trace s') = replicate (length (requests (trace s'))) 1 /\
      exists heard texts, messages (trace s') = settled heard /\ printed (trace s') = concat texts /\
        Forall2 (fun m text => exists sa, rsa m.1 = Some sa /\ told six pid verbose m.1 sa m.2 text) heard texts
  | Exited code => code = 1
  | Undefined => forged (trace s')
  | _ => False
  end.
Proof using All.
  intros Hg Hn Hd Ht. assert (Hp : pinging g s).
  { split; [done|]. exists [], [], [], None. split; [by constructor; rewrite ?Ht|]. split; [done|]. split; [by intros ? ? ? ?|].
    exists []. split; [done|constructor]. }
  pose proof (readloop_spec rounds g s Hp) as H. unfold wp in H. destruct (readloop _ _ _ _ _ _ _ _ _) as [o s'].
  destruct o as [g'| | | |]; try done; [|by destruct H|by destruct H].
  destruct H as [_ (R & Hs & P & T & [_ -> -> -> -> _] & ? & ? & (texts & ? & ?))]. split_and!; try done. by exists Hs, texts.
Qed.

(** ** A request and its reply *)

(** C28: a ping finds its way back.  The handler reads the clock and sends one request, in the case of IPv4
    with a valid checksum; whenever the same data come back later in an echo reply, behind any IPv4 header
    or with any control data, [proc_v4] or [proc_v6] prints exactly one line: the length, the sender, the
    number of that request, the time to live, and the time that has passed between that reading of the
    clock, the last one in the history before the request was sent, and [now], the one after the reply. *)
Theorem ping_echo sockfd g s :
  ping_ok g -> daemon_proc s = 0 ->
  let '(o, s1) := sig_alrm six sasend pid datalen sockfd g s in
  match o with
  | Val g1 =>
      exists d tv, requests (trace s1) = requests (trace s) ++ [(d, Some sasend, Some tv)] /\ clock (trace s1) = Some tv /\
        nsent g1 = nsent g + 1 /\ sane tv /\
        length d = Z.to_nat (8 + datalen) /\ (six = false -> in_cksum little_endian d = 0) /\
        forall hdr c1 c2 ttl cmsgs tail now g2 s2,
          let p := hdr ++ [if six then ICMP6_ECHO_REPLY else ICMP_ECHOREPLY; 0; c1; c2] ++ drop 4 d in
          (if six then hdr = []
           else (20 <= length hdr)%nat /\ ip_hlen hdr 0 = Some (Z.of_nat (length hdr)) /\
                hdr !! 9%nat = Some IPPROTO_ICMP /\ hdr !! 8%nat = Some ttl) ->
          recvbuf g2 = p ++ tail -> ping_ok g2 -> host_ok (sarecv g2) -> sane now -> daemon_proc s2 = 0 ->
          exists g3 s3,
            (if six then proc_v6 salen pid verbose (Z.of_nat (length p)) cmsgs now g2
             else proc_v4 salen pid verbose (Z.of_nat (length p)) now g2) s2 = (Val g3, s3) /\
            printed (trace s3) = printed (trace s2) ++
              reply_line six (8 + datalen) (sarecv g2) (u16 (nsent g)) ttl cmsgs (tv_sub now tv)
  | Exited code => code = 1
  | _ => False
  end.
Proof using CL TK pid16 datalen_ok ipv6_on.
  clear RL. intros Hg Hd. pose proof (sig_alrm_spec six sasend salen pid datalen verbose pid16 datalen_ok ipv6_on (requests (trace s)) (alarms (trace s))
    (messages (trace s)) (printed (trace s)) (clock (trace s)) sockfd g s Hg ltac:(by constructor)) as H.
  unfold wp in H. destruct (sig_alrm _ _ _ _ _ _ _) as [o s1]. destruct o as [g1| | | |]; try done; [|by destruct H|by destruct H].
  destruct H as (tv & d & Htv & [(ck & Hck & Ed) Hl Hcs] & _ & E & Hs1). exists d, tv. split; [apply Hs1|]. split; [apply Hs1|].
  split; [by rewrite E|].
  do 3 (split; [done|]). intros hdr c1 c2 ttl cmsgs tail now g2 s2 p Hhdr Hb [_ Hb2 Hb3] Hh Hnow Hd2.
  set (r := SR (Z.of_nat (length p)) None p cmsgs (Some (sarecv g2))).
  assert (Edrop : drop 4 d = echo_body pid (nsent g) tv (replicate (Z.to_nat datalen - 16) 165)).
  { rewrite Ed. destruct ck as [|a [|b [|]]]; try discriminate. done. }
  assert (Hr : echo_reply six pid p (nsent g) tv ttl).
  { exists hdr, 0, c1, c2, (replicate (Z.to_nat datalen - 16) 165). unfold p. by rewrite Edrop. }
  assert (Ha : arrived r g2) by (constructor; try done; by exists tail).
  set (S2 := seen (requests (trace s2)) (alarms (trace s2)) (messages (trace s2)) (printed (trace s2)) (clock (trace s2)) s2).
  assert (Hs2 : S2) by by constructor.
  assert (Hlen : forall k, icmp_at six p k -> Z.of_nat (length p - k) = 8 + datalen).
  { intros k [Hk _]. unfold p in *. rewrite !length_app, length_drop, Hl. cbn [length]. destruct six; [subst hdr k; cbn; lia|].
    destruct Hhdr as (H20 & Eh & _), Hk as [Hk _]. rewrite ip_hlen_prefix, Eh in Hk by lia. injection Hk as Hk. lia. }
  assert (Hdealt : wp (if six then proc_v6 salen pid verbose (Z.of_nat (length p)) cmsgs now g2
             else proc_v4 salen pid verbose (Z.of_nat (length p)) now g2)
    (dealt_or_overflow six pid verbose r now (requests (trace s2)) (alarms (trace s2)) (messages (trace s2)) (printed (trace s2)) (clock (trace s2)) g2 s2) s2).
  { destruct six eqn:E6; [by apply (proc_v6_spec true salen pid verbose pid16 ipv6_on r)|].
    apply (proc_v4_spec false salen pid verbose pid16 ipv6_on r); try done. destruct Hhdr as [? _]. change (rbytes r) with p. unfold p. rewrite length_app. lia. }
  unfold wp in Hdealt. destruct ((if six then proc_v6 _ _ _ _ _ _ _ else _) s2) as [o' s3] eqn:Er.
  destruct o' as [g3| | | |]; try done; [|by destruct Hdealt| |by destruct Hdealt].
  - exists g3, s3. split; [done|].
    destruct Hdealt as (text & str & _ & _ & Htold & Hs3). rewrite (se_printed _ _ _ _ _ _ Hs3). f_equal.
    destruct (told_echo six pid verbose pid16 r _ now _ _ _ _ Htold Hr Htv Hnow) as (k & Hk & ->). change (rbytes r) with p. by rewrite (Hlen k Hk).
  - destruct Hdealt as [(k & tv' & Hu & [_ Hc] & Hsub) _]. exfalso.
    destruct (echo_reply_fields six pid pid16 p _ _ _ Hr Htv) as (k' & Hu' & [_ Hc'] & Hl' & _).
    assert (k' = k) as -> by (apply (icmp_at_inj six p); [apply Hu'|apply Hu]).
    specialize (Hc' Hl'). specialize (Hc Hl'). change (rbytes r) with p in Hc. assert (tv' = tv) as -> by congruence.
    by rewrite tv_sub_long_ok in Hsub.
Qed.
End Claims.

(** * Concrete runs

    A host that answers each request at once; the clock stands at 1000 s plus a microsecond for each
    call made so far. *)

#[local] Instance ping_config : Config := {| ipv6 := true; have_sockaddr_dl := false; little_endian := true |}.
#[local] Existing Instance numeric_strerror.

Definition ip_header : list Z := [69; 0; 0; 84; 0; 0; 0; 0; 64; 1; 0; 0; 10; 0; 0; 7; 10; 0; 0; 9].
Definition reply_to (seq : Z) : list Z := ip_header ++ [ICMP_ECHOREPLY; 0; 0; 0] ++ echo_body 4660 seq (1000, 3) (replicate 40 165).
Definition peer : sockaddr := SockIn [0; 0] [10; 0; 0; 7].

Definition echo_os : OS := fun h c =>
  match c with
  | sys_recvmsg _ [n] _ _ =>
      let p := reply_to (Z.of_nat (length (requests h)) - 1) in
      if n <? Z.of_nat (length p) then failed (-1) EINTR else SR (Z.of_nat (length p)) None p [] (Some peer)
  | sys_gettimeofday => SR 0 None [] [1000; Z.of_nat (length h) mod 1000000] None
  | sys_sendto _ d _ _ => ok (Z.of_nat (length d))
  | _ => ok 0
  end.

Lemma echo_os_clock : @ClockLaw echo_os.
Proof.
  intros h _. exists (1000, Z.of_nat (length h) mod 1000000). split; [done|]. pose proof (Z.mod_pos_bound (Z.of_nat (length h)) 1000000).
  split; cbn [fst snd]; lia.
Qed.

Lemma reply_to_bytes seq : bytes_ok (reply_to seq).
Proof.
  unfold reply_to, echo_body, stamp. repeat apply Forall_app_2; try apply bytes_ok_bytes64; try (by apply bytes_ok_bool);
    apply bytes16_spec, Z.mod_pos_bound; lia.
Qed.

Lemma length_reply_to seq : length (reply_to seq) = 84%nat.
Proof. unfold reply_to, echo_body. rewrite !length_app, !length_bytes16, length_stamp, length_replicate. done. Qed.

Lemma echo_os_reply : @ReplyLaw echo_os false.
Proof.
  intros h fd n cl fl Hn. cbv zeta. unfold os_answer, echo_os. set (q := Z.of_nat _ - 1). rewrite length_reply_to.
  destruct (Z.ltb_spec n (Z.of_nat 84)).
  - split; [split; [by apply bytes_ok_bool|left; split; [done|split; [by eexists|done]]]|cbn; lia].
  - cbn [rv rbytes rsa]. split; [split; [apply reply_to_bytes|right; cbn [rv rbytes]; rewrite length_reply_to; lia]|]. intros _. split.
    + exists peer. split; [done|]. split; [done|by apply bytes_ok_bool].
    + rewrite length_reply_to. lia.
Qed.

Definition ping0 : ping := Ping (replicate 1500 0) 0 (replicate 1500 0) (SockOther 0) (replicate 128 0).
Lemma ping0_ok : ping_ok ping0.
Proof. constructor; [exact (length_replicate 1500 0)|exact (length_replicate 1500 0)|exact (length_replicate 128 0)]. Qed.

(** The alarm goes off before the second message. *)
Definition second_tick : Ticks := fun h => bool_decide (length (messages h) = 1%nat).

Abbreviation ping_runs n := (@readloop echo_os numeric_strerror ping_config second_tick false peer 16 4660 56 false n ping0 init).

Lemma ping_runs_value :
  exists g s', ping_runs 2 = (Val g, s') /\ nsent g = 2 /\ length (messages (trace s')) = 2%nat.
Proof. eexists _, _. split; [vm_compute; reflexivity|]. split; vm_compute; reflexivity. Qed.

Lemma ping_run_witness :
  exists g s' heard texts, (ping_runs 2) = (Val g, s') /\ nsent g = 2 /\ asked false peer 4660 56 (requests (trace s')) /\
    length (requests (trace s')) = 2%nat /\ messages (trace s') = settled heard /\ printed (trace s') = concat texts /\
    length texts = 2%nat.
Proof.
  pose proof (@ping_run echo_os numeric_strerror ping_config second_tick echo_os_clock false peer 16 4660 56 false echo_os_reply
    ltac:(lia) ltac:(lia) eq_refl 2 ping0 init ping0_ok eq_refl eq_refl eq_refl) as H.
  destruct ping_runs_value as (g & s' & Hv & Hn & Hm). rewrite Hv in H. destruct H as (Hr & Ha & _ & heard & texts & Hh & Hp & HF).
  exists g, s', heard, texts. split; [exact Hv|]. split; [exact Hn|]. split; [exact Ha|]. split; [rewrite Hn in Hr; lia|].
  split; [exact Hh|]. split; [exact Hp|]. apply Forall2_length in HF. rewrite Hh in Hm. unfold settled in Hm. rewrite length_fmap in Hm. congruence.
Defined.

(** The first request and its reply, 0.007 ms later. *)
Lemma first_request :
  exists g s', @sig_alrm echo_os numeric_strerror ping_config false peer 4660 56 3 ping0 init = (Val g, s').
Proof. eexists _, _. vm_compute. reflexivity. Qed.

Lemma ping_echo_witness :
  exists d tv, length d = 64%nat /\ in_cksum true d = 0 /\ forall tail g2, let p := ip_header ++ [0; 0; 0; 0] ++ drop 4 d in
    recvbuf g2 = p ++ tail -> ping_ok g2 -> sarecv g2 = peer ->
    exists g3 s3, @proc_v4 echo_os numeric_strerror ping_config 16 4660 false (Z.of_nat (length p)) (1000, 10) g2 init = (Val g3, s3) /\
      printed (trace s3) = reply_line false 64 peer 0 64 [] (tv_sub (1000, 10) tv).
Proof.
  pose proof (@ping_echo echo_os numeric_strerror ping_config second_tick echo_os_clock false peer 16 4660 56 false
    ltac:(lia) ltac:(lia) eq_refl 3 ping0 init ping0_ok eq_refl) as H.
  destruct first_request as (g & s' & Hv). rewrite Hv in H. destruct H as (d & tv & _ & _ & _ & _ & Hl & Hc & H).
  exists d, tv. split; [exact Hl|]. split; [exact (Hc eq_refl)|]. intros tail g2 p Hb Hg Hsa. rewrite <- Hsa.
  apply (H ip_header 0 0 64 [] tail (1000, 10) g2 init); [by split_and!; [cbn; lia| | |]|exact Hb|exact Hg| |split; cbn; lia|reflexivity].
  rewrite Hsa. split; [done|by apply bytes_ok_bool].
Defined.

(** * Limits

    The time in a reply is not checked: one that was forged makes the subtraction overflow.  And it
    is read from 16 bytes behind the header although only 8 are asked for. *)
Lemma forged_time :
  (@proc_v4 echo_os numeric_strerror ping_config 16 4660 false 84 (1000, 0)
     (Ping [] 1 ((ip_header ++ [0; 0; 0; 0] ++ echo_body 4660 0 (- 2 ^ 63, - 2 ^ 63) (replicate 40 0)) ++ replicate 1416 0) peer (replicate 128 0)) init).1
    = Undefined.
Proof. vm_compute. reflexivity. Qed.
