(* ===== verification/WebClient.v ===== *)
(** A web client that fetches files over several nonblocking connections at a time:
    [nonblock/web.c], [start_connect.c], [write_get_cmd.c], [home_page.c], [web.h].

    The files are in a table with a state for each: not started, connecting, reading, done.  The
    main loop starts connections until [maxnconn] are in use and then waits in [select].  Writing may
    need several calls: [wfuel] is enough for those of one command. *)

From S2P Require Import Prelude CText Sys Error Wrappers SockUtil Gai Connect RobustIO Servers Packet.

Definition MAXFILES : Z := 20.
Definition SERV : cstring := c["80"].
Definition F_CONNECTING : Z := 1.       (* connect() in progress *)
Definition F_READING : Z := 2.          (* connect() complete; now reading *)
Definition F_DONE : Z := 4.             (* all done *)
Definition GET_CMD : cstring := c["GET %s HTTP/1.0"] ++ [13; 10; 13; 10].

Record file : Type := File {
  f_name : cstring;
  f_host : cstring;
  f_fd : Z;
  f_flags : Z;
}.

Record web : Type := Web {
  files : list file;
  nconn : Z;
  nlefttoconn : Z;
  nlefttoread : Z;
  maxfd : Z;
  rset : list Z;
  wset : list Z;
}.

Section WebClient.
Context {os : OS} {SE : Strerror} {RS : Resolver}.

(** [n = snprintf(line, sizeof(line), GET_CMD, name)]: the text is cut to fit, [n] is its full length. *)
Definition get_cmd (name : cstring) (line : list Z) : option (Z * list Z) :=
  text ← vformat GET_CMD [AStr name];
  line ← put_text line 0 (take (length line - 1) text);
  Some (Z.of_nat (length text), line).

(** [Writen(fd, line, n)]: the bytes must be in the array. *)
Definition write_line (wfuel : nat) (fd : Z) (line : list Z) (n : Z) : M unit :=
  d <~ checked (load line 0 (Z.to_nat n)) ;; Writen wfuel fd d n.

(** Replacing entry [i]. *)
Definition set_file (i : nat) (f : file) (w : web) : option web :=
  fs ← store (files w) i f;
  Some (Web fs (nconn w) (nlefttoconn w) (nlefttoread w) (maxfd w) (rset w) (wset w)).

Definition set_sets (rs ws : list Z) (maxfd : Z) (w : web) : web :=
  Web (files w) (nconn w) (nlefttoconn w) (nlefttoread w) maxfd rs ws.

(** [line] is the uninitialised array of the function. *)
Definition write_get_cmd (wfuel : nat) (line : list Z) (i : nat) (w : web) : M web :=
  f <~ checked (files w !! i) ;;
  p <~ checked (get_cmd (f_name f) line) ;;
  let '(n, line) := p in
  write_line wfuel (f_fd f) line n ;;;
  printf (c["wrote %d bytes for %s"] ++ [10]) [AInt n; AStr (f_name f)] ;;;
  w <~ checked (set_file i (File (f_name f) (f_host f) (f_fd f) F_READING) w) ;;   (* clears F_CONNECTING *)
  rs <~ checked (FD_SET (f_fd f) (rset w)) ;;          (* will read server's reply *)
  mpure (set_sets rs (wset w) (if f_fd f >? maxfd w then f_fd f else maxfd w) w).

Definition start_connect (wfuel : nat) (line : list Z) (i : nat) (w : web) : M web :=
  f <~ checked (files w !! i) ;;
  res <~ Host_serv (Some (f_host f)) (Some SERV) 0 SOCK_STREAM ;;
  ai <~ checked (head res) ;;
  fd <~ Socket (ai_family ai) (ai_socktype ai) (ai_protocol ai) ;;
  let f := File (f_name f) (f_host f) fd (f_flags f) in
  printf (c["start_connect for %s, fd %d"] ++ [10]) [AStr (f_name f); AInt fd] ;;;
  (* set socket nonblocking *)
  flags <~ Fcntl fd F_GETFL 0 ;;
  Fcntl fd F_SETFL (Z.lor flags O_NONBLOCK) ;;;
  (* initiate nonblocking connect to the server *)
  n <~ sys (sys_connect fd (addr_of ai)) ;;
  if rv n <? 0 then
    e <~ get_errno ;;
    if negb (e =? EINPROGRESS) then err_sys c["nonblocking connect error"] []
    else
      w <~ checked (set_file i (File (f_name f) (f_host f) fd F_CONNECTING) w) ;;
      rs <~ checked (FD_SET fd (rset w)) ;;            (* select for reading and writing *)
      ws <~ checked (FD_SET fd (wset w)) ;;
      mpure (set_sets rs ws (if fd >? maxfd w then fd else maxfd w) w)
  else
    w <~ checked (set_file i f w) ;;
    write_get_cmd wfuel line i w.                      (* connect is already done *)

(** [for (i = 0; i < nfiles; i++) if (file[i].f_flags == 0) break;] *)
Fixpoint first_fresh (fs : list file) : nat :=
  match fs with
  | [] => 0
  | f :: fs' => if f_flags f =? 0 then 0 else S (first_fresh fs')
  end.

(** [while (nconn < maxnconn && nlefttoconn > 0)] *)
Fixpoint connect_more (fuel wfuel : nat) (line : list Z) (maxnconn : Z) (w : web) : M web :=
  if (nconn w <? maxnconn) && (nlefttoconn w >? 0) then
    match fuel with
    | O => no_fuel
    | S k =>
        let i := first_fresh (files w) in
        if (i =? length (files w))%nat then
          err_quit c["nlefttoconn = %d but nothing found"] [AInt (nlefttoconn w)]
        else
          w <~ start_connect wfuel line i w ;;
          connect_more k wfuel line maxnconn
            (Web (files w) (nconn w + 1) (nlefttoconn w - 1) (nlefttoread w) (maxfd w) (rset w) (wset w))
    end
  else mpure w.

(** One file after [select]. *)
Definition check_file (wfuel : nat) (line : list Z) (rs ws : list Z) (i : nat) (w : web) : M web :=
  f <~ checked (files w !! i) ;;
  let flags := f_flags f in
  let fd := f_fd f in
  if (flags =? 0) || has_flag flags F_DONE then mpure w
  else
    ready <~ (if has_flag flags F_CONNECTING then
                a <~ checked (FD_ISSET fd rs) ;; if a : bool then mpure true else checked (FD_ISSET fd ws)
              else mpure false) ;;
    if ready : bool then
      g <~ sys (sys_getsockopt fd SOL_SOCKET SO_ERROR 4) ;;
      (if (rv g <? 0) || negb (hd 0 (rints g) =? 0)
       then err_ret c["nonblocking connect failed for %s"] [AStr (f_name f)]
       else mpure tt) ;;;
      (* connection established *)
      printf (c["connection established for %s"] ++ [10]) [AStr (f_name f)] ;;;
      ws <~ checked (FD_CLR fd (wset w)) ;;            (* no more writeability test *)
      write_get_cmd wfuel line i (set_sets (rset w) ws (maxfd w) w)
    else
      readable <~ (if has_flag flags F_READING then checked (FD_ISSET fd rs) else mpure false) ;;
      if readable : bool then
        r <~ Read fd MAXLINE ;;
        if rv r =? 0 then
          printf (c["end-of-file on %s"] ++ [10]) [AStr (f_name f)] ;;;
          Close fd ;;;
          w <~ checked (set_file i (File (f_name f) (f_host f) fd F_DONE) w) ;;      (* clears F_READING *)
          rs <~ checked (FD_CLR fd (rset w)) ;;
          mpure (Web (files w) (nconn w - 1) (nlefttoconn w) (nlefttoread w - 1) (maxfd w) rs (wset w))
        else
          printf (c["read %d bytes from %s"] ++ [10]) [AInt (rv r); AStr (f_name f)] ;;; mpure w
      else mpure w.

Fixpoint check_files (wfuel : nat) (line : list Z) (rs ws : list Z) (idx : list nat) (w : web) : M web :=
  match idx with
  | [] => mpure w
  | i :: idx' => w <~ check_file wfuel line rs ws i w ;; check_files wfuel line rs ws idx' w
  end.

(** One iteration of [while (nlefttoread > 0)]. *)
Definition web_round (wfuel : nat) (line : list Z) (maxnconn : Z) (w : web) : M web :=
  w <~ connect_more (length (files w)) wfuel line maxnconn w ;;
  r <~ Select (maxfd w + 1) (rset w) (wset w) [] None ;;
  check_files wfuel line (rset_of r) (wset_of r) (seq 0 (length (files w))) w.

Fixpoint web_loop (rounds wfuel : nat) (line : list Z) (maxnconn : Z) (w : web) : M web :=
  if nlefttoread w >? 0 then
    match rounds with
    | O => mpure w
    | S k => w <~ web_round wfuel line maxnconn w ;; web_loop k wfuel line maxnconn w
    end
  else mpure w.

Definition web_files (host : cstring) (names : list cstring) : list file :=
  (fun name => File name host 0 0) <$> take (Z.to_nat MAXFILES) names.

Definition web_start (host : cstring) (names : list cstring) : web :=
  let fs := web_files host names in
  Web fs 0 (Z.of_nat (length fs)) (Z.of_nat (length fs)) (-1) [] [].

(** ** home_page.c *)

Fixpoint read_page (fuel : nat) (fd : Z) : M unit :=
  match fuel with
  | O => no_fuel
  | S k =>
      r <~ Read fd MAXLINE ;;
      if rv r =? 0 then mpure tt                       (* server closed connection *)
      else printf (c["read %d bytes of home page"] ++ [10]) [AInt (rv r)] ;;; read_page k fd
  end.

Definition home_page (rfuel wfuel : nat) (line : list Z) (host fname : cstring) : M unit :=
  fd <~ Tcp_connect (Some host) (Some SERV) ;;         (* blocking connect() *)
  p <~ checked (get_cmd fname line) ;;
  let '(n, line) := p in
  write_line wfuel fd line n ;;;
  read_page rfuel fd ;;;
  printf (c["end-of-file on home page"] ++ [10]) [] ;;;
  Close fd.

(** [argv], the name of the program first: the number of connections, the host, its home page, the files. *)
Definition web_main (rfuel rounds wfuel : nat) (line : list Z) (argv : list cstring) : M web :=
  match argv with
  | _ :: conns :: host :: page :: ((_ :: _) as names) =>
      let maxnconn := atoi conns in
      let w := web_start host names in
      printf (c["nfiles = %d"] ++ [10]) [AInt (Z.of_nat (length (files w)))] ;;;
      home_page rfuel wfuel line host page ;;;
      w <~ web_loop rounds wfuel line maxnconn w ;;
      if nlefttoread w >? 0 then mpure w               (* observed before it has ended *)
      else exit_ 0
  | _ => err_quit c["usage: web <#conns> <hostname> <homepage> <file1> ..."] []
  end.

End WebClient.
