(* ===== verification/WebClientFacts.v ===== *)
(** The invariant of the web client: the counters and the two sets describe the states of the files,
    and the connections that are open are those of the files being fetched. *)

From S2P Require Import Prelude CText Sys Traces Error Wrappers SockUtil Gai Connect RobustIO StreamFacts.
From S2P Require Import Servers Packet OpenFds WebClient.

(** * States of a file *)

Definition fresh (f : file) : Prop := f_flags f = 0.
Definition connecting (f : file) : Prop := f_flags f = F_CONNECTING.
Definition active (f : file) : Prop := f_flags f = F_CONNECTING \/ f_flags f = F_READING.
Definition finished (f : file) : Prop := f_flags f = F_DONE.
Definition requested (f : file) : Prop := f_flags f = F_READING \/ f_flags f = F_DONE.

#[export] Instance fresh_dec f : Decision (fresh f) := decide (f_flags f = 0).
#[export] Instance connecting_dec f : Decision (connecting f) := decide (f_flags f = F_CONNECTING).
#[export] Instance active_dec f : Decision (active f) := decide (f_flags f = F_CONNECTING \/ f_flags f = F_READING).
#[export] Instance finished_dec f : Decision (finished f) := decide (f_flags f = F_DONE).
#[export] Instance requested_dec f : Decision (requested f) := decide (f_flags f = F_READING \/ f_flags f = F_DONE).

Definition fds (P : file -> Prop) `{forall f, Decision (P f)} (fs : list file) : list Z := f_fd <$> filter P fs.

(** The command for a file. *)
Definition get_text (name : cstring) : cstring := c["GET "] ++ name ++ c[" HTTP/1.0"] ++ [13; 10; 13; 10].

Definition name_ok (name : cstring) : Prop := nul_free name /\ (length (get_text name) < Z.to_nat MAXLINE)%nat.

Lemma get_cmd_spec name line :
  name_ok name -> length line = Z.to_nat MAXLINE ->
  exists rest, get_cmd name line = Some (Z.of_nat (length (get_text name)), get_text name ++ 0 :: rest).
Proof.
  intros [_ Hl] Hline. assert (E : vformat GET_CMD [AStr name] = Some (get_text name)) by reflexivity.
  unfold get_cmd. rewrite E. cbn [mbind option_bind]. rewrite take_ge by lia. rewrite put_text_ok by llia.
  cbn [mbind option_bind]. by eexists.
Qed.

(** * The history *)

Definition written_of (e : event) : list Z :=
  match e.1 with sys_write _ d => take (Z.to_nat (rv e.2)) d | _ => [] end.
Definition written : list event -> list Z := collect written_of.

Lemma written_on_write fd evs : Forall (on_write fd) evs -> written evs = sent fd evs.
Proof.
  intros H. unfold written, sent, collect. f_equal. apply Forall_rev in H. induction H as [|e evs' [d He] _ IH]; [done|].
  cbn [fmap list_fmap]. rewrite IH. f_equal. unfold written_of, write_data. rewrite He. by rewrite Z.eqb_refl.
Qed.

Lemma opened_on_write fd evs h : Forall (on_write fd) evs -> opened (evs ++ h) = opened h.
Proof.
  induction 1 as [|[c r] evs [d He] _ IH]; [done|]. cbn [app]. etrans; [|exact IH]. apply (opened_steady c r (evs ++ h)).
  cbn in He. by rewrite He.
Qed.

Lemma lost_on_write fd evs h : Forall (on_write fd) evs -> lost (evs ++ h) = lost h.
Proof.
  induction 1 as [|[c r] evs [d He] _ IH]; [done|]. cbn [app]. etrans; [|exact IH]. apply (lost_steady c r (evs ++ h)).
  cbn in He. by rewrite He.
Qed.

Lemma written_app a b : written (a ++ b) = written b ++ written a.
Proof. apply collect_app. Qed.

(** The descriptors on which a [read] has found the end of the file. *)
Definition ended_of (e : event) : list Z :=
  match e.1 with sys_read fd _ => if rv e.2 =? 0 then [fd] else [] | _ => [] end.
Definition ended : list event -> list Z := collect ended_of.

Lemma ended_app a b : ended (a ++ b) = ended b ++ ended a.
Proof. apply collect_app. Qed.

(** Open descriptors, the bytes written, and the connections that were read to their end. *)
Definition has (L : list Z) (W D : list Z) (s : st) : Prop :=
  (exists K, owns K L s) /\ written (trace s) = W /\ ended (trace s) = D.

Definition mute (c : syscall) : bool :=
  steady c && match c with sys_write _ _ | sys_read _ _ => false | _ => true end.

Lemma ended_mute c r h : mute c = true -> ended ((c, r) :: h) = ended h.
Proof.
  intros H. unfold ended. rewrite collect_cons. destruct c; try discriminate H; apply app_nil_r.
Qed.

Lemma ended_silent evs : Forall (fun e => match e.1 with sys_read _ _ => False | _ => True end) evs -> ended evs = [].
Proof. intros H. apply collect_nil_of. eapply Forall_impl; [exact H|]. intros [c r] He. by destruct c. Qed.

Lemma has_fore L W D s : has L W D s -> daemon_proc s = 0.
Proof. intros [[K Ho] _]. apply Ho. Qed.

Lemma has_distinct L W D s : has L W D s -> NoDup L.
Proof. intros [[K Ho] _]. apply Ho. Qed.

Lemma written_mute c r h : mute c = true -> written ((c, r) :: h) = written h.
Proof.
  intros H. unfold written. rewrite collect_cons. destruct c; try discriminate H; apply app_nil_r.
Qed.

Lemma has_mute L W D c r s : mute c = true -> has L W D s -> has L W D (after c r s).
Proof.
  intros Hm [[K Ho] [Hw He]]. split; [exists K; apply owns_steady; [done|by destruct c]|]. cbn [after trace].
  by rewrite written_mute, ended_mute.
Qed.

(** What the client relies on: [read] and [write] keep their contracts, new descriptors are new; and a
    lookup opens, reads and writes nothing that the client sees and returns a list that is not empty. *)
Class LookupLaw `{Resolver} : Prop :=
  lookup_law : forall host serv hints L W D s, has L W D s ->
    wp (resolve host serv hints) (ends anything (fun _ => False) (fun r s' =>
      has L W D s' /\ match r with inr ais => ais <> [] | inl _ => True end)) s.

Section Calls.
Context {os : OS} {SE : Strerror} {RS : Resolver} {FL : FreshLaw} {WL : WriteLaw} {LL : LookupLaw}.
Context (wfuel : nat).

(** One command was interrupted more often than there is fuel for. *)
Definition hungry (h : list event) : Prop := Z.of_nat wfuel < MAXLINE + Z.of_nat (interrupts h).

Abbreviation goes := (ends anything hungry).

Lemma has_call L W D c bad msg s (Q : sysret -> st -> Prop) :
  has L W D s -> mute c = true -> plain msg = true ->
  (forall s', has L W D s' -> bad (rv (answer c s)) = false -> Q (answer c s) s') -> wp (call c bad msg) (goes Q) s.
Proof using.
  intros Hh Hc Hm HQ. apply ends_call; [apply anything_output|done|by eapply has_fore|done|]. intros Hb. apply HQ; [by apply has_mute|done].
Qed.

Lemma has_printf L W D fmt args text s :
  has L W D s -> vformat fmt args = Some text -> wp (printf fmt args) (goes (fun _ s' => has L W D s')) s.
Proof using.
  intros Hh E. unfold printf. eapply wp_checked; [exact E|]. apply wp_then, wp_sys. cbn [andthen]. apply ends_pure. by apply has_mute.
Qed.

Lemma has_err_ret L W D fmt ap text s :
  has L W D s -> vformat fmt ap = Some text -> nul_free text -> wp (err_ret fmt ap) (goes (fun _ s' => has L W D s')) s.
Proof using.
  intros [[K [Hd Hop Hnd Hlo]] [Hw He]] Ef Hn. unfold err_ret, wp. rewrite (err_doit_line _ _ _ _ text) by done. cbv zeta. rewrite Hd. cbn [Z.eqb].
  destruct (reported_history (report_line true text (errno s)) s) as (evs & Ht & Ho & Hd'). split.
  - exists K. constructor; [done| |done|]; rewrite Ht; [by rewrite opened_output|by rewrite lost_output].
  - assert (E1 : written evs = [] /\ ended evs = []).
    { split; apply collect_nil_of; (eapply Forall_impl; [exact Ho|]); intros [c r] Hx; unfold output in Hx; by destruct c. }
    destruct E1 as [E1 E2]. by rewrite Ht, written_app, ended_app, Hw, He, E1, E2, !app_nil_r.
Qed.

Lemma has_writen L W D fd d s :
  has L W D s -> (length d <= Z.to_nat MAXLINE)%nat ->
  wp (Writen wfuel fd d (Z.of_nat (length d))) (goes (fun _ s' => has L (W ++ d) D s')) s.
Proof using WL.
  intros [[K [Hd Hop Hnd Hlo]] [Hw He]] Hl. unfold Writen, writen. apply wp_then.
  eapply wp_mono; [apply writen_loop_spec; lia|]. intros o s1 (evs & Ht & Hd1 & Hall & Ho). rewrite Hd in Hd1.
  assert (Hop1 : opened (trace s1) = opened (trace s) /\ lost (trace s1) = lost (trace s))
    by (rewrite Ht; split; [by eapply opened_on_write|by eapply lost_on_write]).
  assert (Hw1 : written (trace s1) = W ++ sent fd evs) by (by rewrite Ht, written_app, Hw, (written_on_write fd)).
  assert (He1 : ended (trace s1) = D).
  { rewrite Ht, ended_app, He, ended_silent; [apply app_nil_r|]. eapply Forall_impl; [exact Hall|]. intros [c r] [x Hx]. cbn in Hx. by rewrite Hx. }
  destruct o as [k| | | |]; try done; cbn [andthen].
  - destruct Ho as [[-> Hs]|(-> & m & _ & Hm & _)].
    + rewrite Z.eqb_refl. apply ends_pure. split; [exists K; constructor; [done|by rewrite (proj1 Hop1)|done|by rewrite (proj2 Hop1)]|].
      split; [|done]. rewrite Hw1, Hs. f_equal. unfold slice. rewrite drop_0, Nat2Z.id. by apply take_ge.
    + rewrite (proj2 (Z.eqb_neq _ _)) by lia. cbn [negb]. by apply ends_err_sys.
  - destruct Ho as (_ & Hf & _). split; [done|]. unfold hungry. rewrite Ht, interrupts_app. unfold MAXLINE in *. lia.
Qed.

Lemma has_write_line L W D fd name line s :
  has L W D s -> name_ok name -> length line = Z.to_nat MAXLINE ->
  exists n rest, get_cmd name line = Some (n, rest) /\
    wp (write_line wfuel fd rest n) (goes (fun _ s' => has L (W ++ get_text name) D s')) s.
Proof using WL.
  intros Hh Hn Hl. destruct (get_cmd_spec name line Hn Hl) as [rest E]. eexists _, _. split; [exact E|].
  unfold write_line. rewrite Nat2Z.id. eapply wp_checked.
  { rewrite load_prefix by lia. by rewrite drop_0, take_ge by lia. }
  apply has_writen; [done|]. destruct Hn as [_ ?]. lia.
Qed.

Lemma has_close L W D fd s : has (fd :: L) W D s -> wp (Close fd) (goes (fun _ s' => has L W D s')) s.
Proof using.
  intros [[K Ho] [Hw He]]. unfold Close. eapply (ends_then _ _ _ _ (fun _ s' => has L W D s')); [|by intros].
  apply ends_call; [apply anything_output|done|apply Ho|done|]. intros _. split.
  - destruct Ho as [Hd Hop Hnd Hlo]. apply NoDup_cons in Hnd as [Hfd Hnd]. exists K. constructor; [done| |done|done].
    cbn [after trace opened fst]. rewrite Hop, filter_cons_False by tauto. by rewrite filter_absent.
  - cbn [after trace]. unfold written, ended in *. by rewrite !collect_cons, !app_nil_r.
Qed.

Lemma has_socket L W D f t p s :
  has L W D s -> wp (Socket f t p) (goes (fun fd s' => 0 <= fd < FD_SETSIZE /\ has (fd :: L) W D s')) s.
Proof using FL.
  intros [[K [Hd Hop Hnd Hlo]] [Hw He]]. unfold Socket. set (c := sys_socket f t p).
  eapply (ends_then _ _ _ _ (fun r s' => 0 <= rv r < FD_SETSIZE /\ has (rv r :: L) W D s')); [|by intros].
  apply ends_call; [apply anything_output|done|done|done|]. unfold negative. intros Hr%Z.ltb_ge.
  assert (Hn : new_fds (c, answer c s) = [rv (answer c s)]) by (cbn; by rewrite (proj2 (Z.leb_le 0 _))).
  destruct (fresh_law (trace s) c (rv (answer c s))) as [? Hf]; [unfold answer in Hn; rewrite Hn; by left|].
  split; [done|]. split; [|cbn [after trace]; unfold written, ended in *; by rewrite !collect_cons, !app_nil_r].
  exists K. constructor; [done| | |done].
  - cbn [after trace opened fst c]. fold c. rewrite Hn. cbn [app]. by rewrite Hop.
  - apply NoDup_cons. split; [by rewrite <- Hop|done].
Qed.

Lemma has_read L W D fd n s :
  has L W D s ->
  wp (Read fd n) (goes (fun r s' => has L W (if rv r =? 0 then D ++ [fd] else D) s')) s.
Proof using.
  intros Hh. unfold Read. apply ends_call; [apply anything_output|done|by eapply has_fore|done|]. intros _.
  destruct Hh as [[K Ho] [Hw He]]. split; [exists K; by apply owns_steady|]. cbn [after trace].
  unfold written, ended in *. rewrite !collect_cons, Hw, He. cbn. destruct (_ =? 0); by rewrite !app_nil_r.
Qed.

Lemma has_fcntl L W D fd cmd arg s : has L W D s -> wp (Fcntl fd cmd arg) (goes (fun _ s' => has L W D s')) s.
Proof using.
  intros Hh. unfold Fcntl. eapply (ends_then _ _ _ _ (fun _ s' => has L W D s')); [by eapply has_call|]. intros r s' H. by apply ends_pure.
Qed.
End Calls.

(** * The invariant *)

(** The invariant does not depend on the order of the files.  [B] are other descriptors that are open, [W0] is
    what was written before, [E0] are the connections read to their end before. *)
Record fetch_ok (B W0 E0 : list Z) (fs : list file) (nc nl nr mf : Z) (rs ws : list Z) (s : st) : Prop := {
  ft_conn : nc = Z.of_nat (length (filter active fs));
  ft_left : nl = Z.of_nat (length (filter fresh fs));
  ft_read : nr = nc + nl;
  ft_flags : Forall (fun f => fresh f \/ active f \/ f_flags f = F_DONE) fs;
  ft_names : Forall (fun f => name_ok (f_name f) /\ nul_free (f_host f)) fs;
  ft_rset : forall fd, fd ∈ rs <-> fd ∈ fds active fs;
  ft_wset : forall fd, fd ∈ ws <-> fd ∈ fds connecting fs;
  ft_range : Forall (fun fd => 0 <= fd < FD_SETSIZE) (fds active fs);
  ft_maxfd : Forall (fun fd => fd <= mf) (fds active fs);
  ft_has : exists order eofs, order ≡ₚ f_name <$> filter requested fs /\ eofs ≡ₚ fds finished fs /\
    has (fds active fs ++ B) (W0 ++ concat (get_text <$> order)) (E0 ++ eofs) s;
}.

Definition fetching (B W0 E0 : list Z) (w : web) (s : st) : Prop :=
  fetch_ok B W0 E0 (files w) (nconn w) (nlefttoconn w) (nlefttoread w) (maxfd w) (rset w) (wset w) s.

Lemma has_perm L L' W D s : L ≡ₚ L' -> has L W D s -> has L' W D s.
Proof. intros HL [[K Ho] Hw]. split; [exists K; by eapply owns_perm|done]. Qed.

Lemma fetch_perm B W0 E0 fs fs' nc nl nr mf rs ws s :
  fs ≡ₚ fs' -> fetch_ok B W0 E0 fs nc nl nr mf rs ws s -> fetch_ok B W0 E0 fs' nc nl nr mf rs ws s.
Proof.
  intros HP [H1 H2 H3 H4 H5 H6 H7 H8 H9 (order & eofs & Ho & He & Hh)].
  assert (Ha : fds active fs ≡ₚ fds active fs') by (unfold fds; by rewrite HP).
  constructor; try done; try (by rewrite <- HP); try (by rewrite <- Ha).
  - intros fd. rewrite H6. by rewrite Ha.
  - intros fd. rewrite H7. unfold fds. by rewrite HP.
  - exists order, eofs. split; [by rewrite <- HP|]. split; [unfold fds; by rewrite <- HP|].
    eapply has_perm; [|exact Hh]. by rewrite Ha.
Qed.

(** Nothing has changed but the history. *)
Lemma fetch_later B W0 E0 fs nc nl nr mf rs ws s s' order eofs :
  fetch_ok B W0 E0 fs nc nl nr mf rs ws s -> order ≡ₚ f_name <$> filter requested fs -> eofs ≡ₚ fds finished fs ->
  has (fds active fs ++ B) (W0 ++ concat (get_text <$> order)) (E0 ++ eofs) s' -> fetch_ok B W0 E0 fs nc nl nr mf rs ws s'.
Proof. intros [] Ho He Hh. constructor; try done. by exists order, eofs. Qed.

(** Replacing one file. *)
Lemma file_out (fs : list file) i f : fs !! i = Some f -> fs ≡ₚ f :: delete i fs.
Proof. apply delete_Permutation. Qed.

Lemma file_in (fs : list file) i f f' : fs !! i = Some f -> <[i := f']> fs ≡ₚ f' :: delete i fs.
Proof.
  intros H. pose proof (lookup_lt_Some _ _ _ H) as Hl.
  rewrite (delete_Permutation (<[i := f']> fs) i f') by (by apply list_lookup_insert_eq).
  by rewrite !delete_take_drop, take_insert_ge, drop_insert_lt by lia.
Qed.

(** ** What each state counts for *)

Lemma filters_fresh f R : fresh f ->
  filter active (f :: R) = filter active R /\ filter fresh (f :: R) = f :: filter fresh R /\
  filter connecting (f :: R) = filter connecting R /\ filter requested (f :: R) = filter requested R /\
  filter finished (f :: R) = filter finished R.
Proof.
  unfold fresh. intros H. rewrite (filter_cons_True fresh) by done. rewrite !filter_cons_False; [done|..];
    unfold active, connecting, requested, finished; rewrite H; (by intros [?|?]) || done.
Qed.

Lemma filters_connecting f R : connecting f ->
  filter active (f :: R) = f :: filter active R /\ filter fresh (f :: R) = filter fresh R /\
  filter connecting (f :: R) = f :: filter connecting R /\ filter requested (f :: R) = filter requested R /\
  filter finished (f :: R) = filter finished R.
Proof.
  unfold connecting. intros H. rewrite (filter_cons_True active) by (by left). rewrite (filter_cons_True connecting) by done.
  rewrite !filter_cons_False; [done|..]; unfold fresh, requested, finished; rewrite H; (by intros [?|?]) || done.
Qed.

Lemma filters_reading f R : f_flags f = F_READING ->
  filter active (f :: R) = f :: filter active R /\ filter fresh (f :: R) = filter fresh R /\
  filter connecting (f :: R) = filter connecting R /\ filter requested (f :: R) = f :: filter requested R /\
  filter finished (f :: R) = filter finished R.
Proof.
  intros H. rewrite (filter_cons_True active) by (by right). rewrite (filter_cons_True requested) by (by left).
  rewrite !filter_cons_False; [done|..]; unfold fresh, connecting, finished; rewrite H; done.
Qed.

Lemma filters_done f R : f_flags f = F_DONE ->
  filter active (f :: R) = filter active R /\ filter fresh (f :: R) = filter fresh R /\
  filter connecting (f :: R) = filter connecting R /\ filter requested (f :: R) = f :: filter requested R /\
  filter finished (f :: R) = f :: filter finished R.
Proof.
  intros H. rewrite (filter_cons_True requested) by (by right). rewrite (filter_cons_True finished) by done.
  rewrite !filter_cons_False; [done|..]; unfold active, fresh, connecting; rewrite H; (by intros [?|?]) || done.
Qed.

Section Steps.
Context (B W0 E0 : list Z) (f : file) (R : list file) (nc nl nr mf : Z) (rs ws : list Z) (s s' : st).
Context (f' : file) (fd : Z).
Hypothesis Hok : fetch_ok B W0 E0 (f :: R) nc nl nr mf rs ws s.
Hypothesis Hname : f_name f' = f_name f.
Hypothesis Hhost : f_host f' = f_host f.
Hypothesis Hfd : f_fd f' = fd.

Abbreviation mf' := (if fd >? mf then fd else mf).

Lemma bounded_above l : Forall (fun x => x <= mf) l -> Forall (fun x => x <= mf') (fd :: l).
Proof using.
  intros H. constructor; [destruct (Z.gtb_spec fd mf); lia|]. eapply Forall_impl; [exact H|]. cbn. intros x Hx.
  destruct (Z.gtb_spec fd mf); lia.
Qed.

(** A connection has been started. *)
Lemma step_start order eofs rs' ws' :
  fresh f -> connecting f' -> 0 <= fd < FD_SETSIZE -> order ≡ₚ f_name <$> filter requested (f :: R) ->
  eofs ≡ₚ fds finished (f :: R) ->
  has (fd :: fds active (f :: R) ++ B) (W0 ++ concat (get_text <$> order)) (E0 ++ eofs) s' ->
  (forall x, x ∈ rs' <-> x = fd \/ x ∈ rs) -> (forall x, x ∈ ws' <-> x = fd \/ x ∈ ws) ->
  fetch_ok B W0 E0 (f' :: R) (nc + 1) (nl - 1) nr mf' rs' ws' s'.
Proof using Hok Hname Hhost Hfd.
  intros Hf Hf' Hr Ho He Hh Hrs Hws. destruct Hok as [H1 H2 H3 H4 H5 H6 H7 H8 H9 _]. unfold fds in *.
  destruct (filters_fresh f R Hf) as (E1 & E2 & E3 & E4 & E5), (filters_connecting f' R Hf') as (F1 & F2 & F3 & F4 & F5).
  rewrite E1, ?E2, ?E3, ?E4, ?E5 in *. apply Forall_cons in H4 as [_ H4], H5 as [H5f H5].
  constructor; unfold fds; rewrite ?F1, ?F2, ?F3, ?F4, ?F5; cbn [fmap list_fmap length] in *; rewrite ?Hfd; try lia.
  - constructor; [right; left; by left|done].
  - constructor; [by rewrite Hname, Hhost|done].
  - intros x. rewrite Hrs, H6. by rewrite elem_of_cons.
  - intros x. rewrite Hws, H7. by rewrite elem_of_cons.
  - by constructor.
  - by apply bounded_above.
  - exists order, eofs. by split.
Qed.

(** A connection was there at once, and the command has been sent. *)
Lemma step_start_now order eofs rs' :
  fresh f -> f_flags f' = F_READING -> 0 <= fd < FD_SETSIZE -> order ≡ₚ f_name <$> filter requested (f :: R) ->
  eofs ≡ₚ fds finished (f :: R) ->
  has (fd :: fds active (f :: R) ++ B) (W0 ++ concat (get_text <$> order) ++ get_text (f_name f)) (E0 ++ eofs) s' ->
  (forall x, x ∈ rs' <-> x = fd \/ x ∈ rs) ->
  fetch_ok B W0 E0 (f' :: R) (nc + 1) (nl - 1) nr mf' rs' ws s'.
Proof using Hok Hname Hhost Hfd.
  intros Hf Hf' Hr Ho He Hh Hrs. destruct Hok as [H1 H2 H3 H4 H5 H6 H7 H8 H9 _]. unfold fds in *.
  destruct (filters_fresh f R Hf) as (E1 & E2 & E3 & E4 & E5), (filters_reading f' R Hf') as (F1 & F2 & F3 & F4 & F5).
  rewrite E1, ?E2, ?E3, ?E4, ?E5 in *. apply Forall_cons in H4 as [_ H4], H5 as [H5f H5].
  constructor; unfold fds; rewrite ?F1, ?F2, ?F3, ?F4, ?F5; cbn [fmap list_fmap length] in *; rewrite ?Hfd; try lia; try done.
  - constructor; [right; left; by right|done].
  - constructor; [by rewrite Hname, Hhost|done].
  - intros x. rewrite Hrs, H6. by rewrite elem_of_cons.
  - by constructor.
  - by apply bounded_above.
  - exists (order ++ [f_name f]), eofs. split; [rewrite Hname, <- Ho; symmetry; apply Permutation_cons_append|].
    split; [done|]. rewrite fmap_app, concat_app. cbn. by rewrite app_nil_r.
Qed.

(** A connection is established, and the command has been sent. *)
Lemma step_established order eofs rs' ws' :
  connecting f -> f_fd f = fd -> f_flags f' = F_READING -> order ≡ₚ f_name <$> filter requested (f :: R) ->
  eofs ≡ₚ fds finished (f :: R) ->
  has (fds active (f :: R) ++ B) (W0 ++ concat (get_text <$> order) ++ get_text (f_name f)) (E0 ++ eofs) s' ->
  (forall x, x ∈ rs' <-> x = fd \/ x ∈ rs) -> (forall x, x ∈ ws' <-> x <> fd /\ x ∈ ws) ->
  fetch_ok B W0 E0 (f' :: R) nc nl nr mf' rs' ws' s'.
Proof using Hok Hname Hhost Hfd.
  intros Hf Hffd Hf' Ho He Hh Hrs Hws. destruct Hok as [H1 H2 H3 H4 H5 H6 H7 H8 H9 _]. unfold fds in *.
  destruct (filters_connecting f R Hf) as (E1 & E2 & E3 & E4 & E5), (filters_reading f' R Hf') as (F1 & F2 & F3 & F4 & F5).
  rewrite E1, ?E2, ?E3, ?E4, ?E5 in *. apply Forall_cons in H4 as [_ H4], H5 as [H5f H5].
  pose proof (has_distinct _ _ _ _ Hh) as Hnd. cbn [fmap list_fmap length app] in *. rewrite Hffd in *.
  constructor; unfold fds; rewrite ?F1, ?F2, ?F3, ?F4, ?F5; cbn [fmap list_fmap length] in *; rewrite ?Hfd; try lia; try done.
  - constructor; [right; left; by right|done].
  - constructor; [by rewrite Hname, Hhost|done].
  - intros x. rewrite Hrs, H6, elem_of_cons. tauto.
  - intros x. rewrite Hws, H7, elem_of_cons. apply NoDup_cons in Hnd as [Hnd _]. split; [tauto|].
    intros Hx. split; [|by right]. intros ->. apply Hnd, elem_of_app. left.
    apply list_elem_of_fmap in Hx as (g & -> & [Hg Hin]%list_elem_of_filter). apply list_elem_of_fmap. exists g. split; [done|].
    apply list_elem_of_filter. split; [by left|done].
  - apply Forall_cons in H9 as [_ H9]. by apply bounded_above.
  - exists (order ++ [f_name f]), eofs. split; [rewrite Hname, <- Ho; symmetry; apply Permutation_cons_append|].
    split; [done|]. rewrite fmap_app, concat_app. cbn. by rewrite app_nil_r.
Qed.

(** A file is complete. *)
Lemma step_done order eofs rs' :
  f_flags f = F_READING -> f_fd f = fd -> f_flags f' = F_DONE -> order ≡ₚ f_name <$> filter requested (f :: R) ->
  eofs ≡ₚ fds finished (f :: R) ->
  NoDup (fds active (f :: R) ++ B) ->
  has (fds active R ++ B) (W0 ++ concat (get_text <$> order)) (E0 ++ eofs ++ [fd]) s' -> (forall x, x ∈ rs' <-> x <> fd /\ x ∈ rs) ->
  fetch_ok B W0 E0 (f' :: R) (nc - 1) nl (nr - 1) mf rs' ws s'.
Proof using Hok Hname Hhost Hfd.
  intros Hf Hffd Hf' Ho He Hnd Hh Hrs. destruct Hok as [H1 H2 H3 H4 H5 H6 H7 H8 H9 _]. unfold fds in *.
  destruct (filters_reading f R Hf) as (E1 & E2 & E3 & E4 & E5), (filters_done f' R Hf') as (F1 & F2 & F3 & F4 & F5).
  rewrite E1, ?E2, ?E3, ?E4, ?E5 in *. apply Forall_cons in H4 as [_ H4], H5 as [H5f H5].
  cbn [fmap list_fmap length app] in *. rewrite Hffd in *.
  constructor; unfold fds; rewrite ?F1, ?F2, ?F3, ?F4, ?F5; cbn [fmap list_fmap length] in *; rewrite ?Hfd; try lia; try done.
  - constructor; [by right; right|done].
  - constructor; [by rewrite Hname, Hhost|done].
  - intros x. rewrite Hrs, H6, elem_of_cons. apply NoDup_cons in Hnd as [Hnd _]. split; [tauto|]. intros Hx. split; [|by right].
    intros ->. apply Hnd, elem_of_app. by left.
  - by apply Forall_cons in H8 as [_ H8].
  - by apply Forall_cons in H9 as [_ H9].
  - exists order, (eofs ++ [fd]). split; [by rewrite Hname|]. split; [|done]. rewrite <- He. symmetry. apply Permutation_cons_append.
Qed.
End Steps.

(** * The operations *)

Section Operations.
Context {os : OS} {SE : Strerror} {RS : Resolver} {FL : FreshLaw} {WL : WriteLaw} {LL : LookupLaw}.
Context (wfuel : nat) (line : list Z).
Hypothesis line_size : length line = Z.to_nat MAXLINE.

Abbreviation goes := (ends anything (hungry wfuel)).

(** The file [i] is being read from now on. *)
Definition now_reading (i : nat) (f : file) (w w' : web) : Prop :=
  exists rs, (forall x, x ∈ rs <-> x = f_fd f \/ x ∈ rset w) /\
    w' = Web (<[i := File (f_name f) (f_host f) (f_fd f) F_READING]> (files w)) (nconn w) (nlefttoconn w) (nlefttoread w)
           (if f_fd f >? maxfd w then f_fd f else maxfd w) rs (wset w).

Lemma set_file_spec i f0 f w :
  files w !! i = Some f0 -> set_file i f w = Some (Web (<[i := f]> (files w)) (nconn w) (nlefttoconn w) (nlefttoread w) (maxfd w) (rset w) (wset w)).
Proof using. intros H%lookup_lt_Some. unfold set_file, store. by rewrite decide_True. Qed.

Lemma write_get_cmd_spec i f w L W D s :
  files w !! i = Some f -> name_ok (f_name f) -> 0 <= f_fd f < FD_SETSIZE -> has L W D s ->
  wp (write_get_cmd wfuel line i w) (goes (fun w' s' => now_reading i f w w' /\ has L (W ++ get_text (f_name f)) D s')) s.
Proof using WL line_size.
  intros Hi Hn Hr Hh. unfold write_get_cmd. eapply wp_checked; [exact Hi|].
  destruct (has_write_line wfuel L W D (f_fd f) (f_name f) line s Hh Hn line_size) as (n & rest & E & Hw). eapply wp_checked; [exact E|].
  eapply ends_then; [exact Hw|]. intros ? s1 H1. eapply (ends_then _ _ _ _ (fun _ s' => has L (W ++ get_text (f_name f)) D s')).
  { eapply has_printf; [exact H1|reflexivity]. }
  intros _ s2 H2. rewrite (set_file_spec _ f) by done. eapply wp_checked; [done|].
  destruct (FD_SET_spec (f_fd f) (rset w) Hr) as (rs & E' & Hrs). eapply wp_checked; [exact E'|]. apply ends_pure.
  split; [|done]. by exists rs.
Qed.

Lemma names_insert (fs : list file) i f f' : fs !! i = Some f -> f_name f' = f_name f -> f_name <$> <[i := f']> fs = f_name <$> fs.
Proof using. intros H E. rewrite list_fmap_insert, E. apply list_insert_id. by rewrite list_lookup_fmap, H. Qed.

Lemma names_length (fs fs' : list file) : f_name <$> fs' = f_name <$> fs -> length fs' = length fs.
Proof using. intros H. apply (f_equal length) in H. by rewrite !length_fmap in H. Qed.

(** The counters after a connection has been started. *)
Definition counted (w : web) : web :=
  Web (files w) (nconn w + 1) (nlefttoconn w - 1) (nlefttoread w) (maxfd w) (rset w) (wset w).

Lemma gai_strerror_nul_free n : nul_free (gai_strerror n).
Proof using. unfold gai_strerror. repeat case_match; by repeat constructor. Qed.

Lemma Host_serv_spec host L W D s :
  nul_free host -> has L W D s ->
  wp (Host_serv (Some host) (Some SERV) 0 SOCK_STREAM) (goes (fun res s' => res <> [] /\ has L W D s')) s.
Proof using LL.
  intros Hn Hh. unfold Host_serv.
  eapply (ends_then _ _ _ _ (fun r s1 => has L W D s1 /\ match r with inr ais => ais <> [] | inl _ => True end)).
  - eapply wp_mono; [by apply lookup_law|]. intros o s1 H. destruct o; try done. by destruct H.
  - intros [n|ais] s1 [H1 Hne]; [|by apply ends_pure].
    eapply (ends_err_quit_text anything); [apply anything_output|reflexivity| |by eapply has_fore|done].
    pose proof (gai_strerror_nul_free n). cbn [default].
    repeat first [apply Forall_app; split; [assumption|] | apply Forall_cons; split; [done|] | apply Forall_nil; done].
Qed.

Lemma start_connect_spec B W0 E0 i f w s :
  fetching B W0 E0 w s -> files w !! i = Some f -> fresh f ->
  wp (start_connect wfuel line i w) (goes (fun w' s' => fetching B W0 E0 (counted w') s' /\ f_name <$> files w' = f_name <$> files w /\
    nconn w' = nconn w /\ nlefttoconn w' = nlefttoconn w /\ nlefttoread w' = nlefttoread w)) s.
Proof using FL WL LL line_size.
  intros Hw Hi Hf. pose proof (fetch_perm _ _ _ _ _ _ _ _ _ _ _ _ (file_out _ _ _ Hi) Hw) as Hp.
  destruct (ft_has _ _ _ _ _ _ _ _ _ _ _ Hp) as (order & eofs & Ho & He & Hh). pose proof (ft_names _ _ _ _ _ _ _ _ _ _ _ Hp) as Hnm.
  apply Forall_cons in Hnm as [[Hnm Hhost] _]. unfold start_connect. eapply wp_checked; [exact Hi|].
  set (L := fds active (f :: delete i (files w)) ++ B) in *. set (W := W0 ++ _) in Hh. set (D := E0 ++ eofs) in Hh.
  eapply ends_then; [by apply Host_serv_spec|]. intros res s1 [Hne H1]. destruct res as [|ai res]; [done|].
  eapply wp_checked; [done|]. eapply ends_then; [by apply has_socket|]. intros fd s2 [Hfd H2]. cbv zeta. cbn [f_name f_host].
  eapply (ends_then _ _ _ _ (fun _ s' => has (fd :: L) W D s')); [eapply has_printf; [exact H2|reflexivity]|]. intros _ s3 H3.
  eapply ends_then; [by apply has_fcntl|]. intros flags s4 H4. cbv beta in H4. eapply ends_then; [by apply has_fcntl|]. intros ? s5 H5. cbv beta in H5.
  apply wp_then, wp_sys. cbn [andthen]. set (c := sys_connect _ _).
  assert (H6 : has (fd :: L) W D (after c (answer c s5) s5)) by by apply has_mute.
  destruct (Z.ltb_spec (rv (answer c s5)) 0) as [Hneg|Hpos].
  - apply wp_then. unfold get_errno, wp at 1. cbn [andthen].
    destruct (_ =? EINPROGRESS); cbn [negb]; [|by apply ends_err_sys; [apply anything_output|done|by eapply has_fore|]].
    rewrite (set_file_spec _ f) by done. eapply wp_checked; [done|]. cbn [rset wset].
    destruct (FD_SET_spec fd (rset w) Hfd) as (rs & Ers & Hrs). eapply wp_checked; [exact Ers|].
    destruct (FD_SET_spec fd (wset w) Hfd) as (ws & Ews & Hws). eapply wp_checked; [exact Ews|]. apply ends_pure.
    split; [|cbn; by rewrite (names_insert _ _ _ _ Hi)]. unfold fetching. cbn. eapply fetch_perm; [symmetry; by eapply file_in|].
    eapply (step_start _ _ _ _ _ _ _ _ _ _ _ _ _ (File (f_name f) (f_host f) fd F_CONNECTING) fd Hp eq_refl eq_refl eq_refl order eofs); done.
  - rewrite (set_file_spec _ f) by done. eapply wp_checked; [done|]. set (f1 := File (f_name f) (f_host f) fd (f_flags f)).
    set (w1 := Web _ _ _ _ _ _ _). pose proof (lookup_lt_Some _ _ _ Hi) as Hlt.
    assert (Hi1 : files w1 !! i = Some f1) by (cbn; by apply list_lookup_insert_eq).
    eapply ends_mono; [by apply (write_get_cmd_spec i f1 w1 (fd :: L) W D)|].
    intros w' s' [(rs & Hrs & ->) H7]. cbn [w1 files] in *. rewrite list_insert_insert_eq. split; [|cbn; by rewrite (names_insert _ _ _ _ Hi)].
    unfold fetching. cbn. eapply fetch_perm; [symmetry; by eapply file_in|].
    eapply (step_start_now _ _ _ _ _ _ _ _ _ _ _ _ _ (File (f_name f) (f_host f) fd F_READING) fd Hp eq_refl eq_refl eq_refl order eofs); try done.
    unfold W in H7. by rewrite <- app_assoc in H7.
Qed.

(** The first file that has not been started. *)
Lemma first_fresh_spec fs :
  (first_fresh fs = length fs /\ filter fresh fs = []) \/ exists f, fs !! first_fresh fs = Some f /\ fresh f.
Proof using.
  induction fs as [|f fs IH]; cbn [first_fresh]; [by left|]. destruct (Z.eqb_spec (f_flags f) 0) as [E|E]; [right; by exists f|].
  rewrite filter_cons_False by done. destruct IH as [[-> ->]|(g & Hg & Hf)]; [by left|right; by exists g].
Qed.

Lemma connect_more_spec B W0 E0 maxnconn fuel : forall w s,
  fetching B W0 E0 w s -> nlefttoconn w <= Z.of_nat fuel ->
  wp (connect_more fuel wfuel line maxnconn w) (goes (fun w' s' => fetching B W0 E0 w' s' /\ f_name <$> files w' = f_name <$> files w /\
    (maxnconn <= nconn w' \/ nlefttoconn w' = 0) /\ nconn w' <= Z.max (nconn w) maxnconn /\ nlefttoread w' = nlefttoread w)) s.
Proof using FL WL LL line_size.
  induction fuel as [|k IH]; intros w s Hw Hfuel; cbn [connect_more];
    (destruct (Z.ltb_spec (nconn w) maxnconn) as [Hc|Hc], (Z.gtb_spec (nlefttoconn w) 0) as [Hl|Hl]; cbn [andb];
      try (apply ends_pure; pose proof (ft_left _ _ _ _ _ _ _ _ _ _ _ Hw); split_and!; [done|done|lia|lia|done])); [lia|].
  destruct (first_fresh_spec (files w)) as [[_ E]|(f & Hf & Hfr)].
  { exfalso. pose proof (ft_left _ _ _ _ _ _ _ _ _ _ _ Hw) as H. rewrite E in H. cbn in H. lia. }
  pose proof (lookup_lt_Some _ _ _ Hf) as Hlt. rewrite (proj2 (Nat.eqb_neq _ _)) by lia.
  eapply ends_then; [by eapply start_connect_spec|]. intros w1 s1 (H1 & Hlen & En & El & Er).
  eapply ends_mono; [apply IH; [exact H1|cbn; lia]|]. intros w2 s2 (H2 & E2 & H3 & H4 & H5). cbn in E2, H4, H5.
  split_and!; [done|congruence|done|lia|lia].
Qed.

(** A file whose connection is established, or has failed, which the client does not distinguish. *)
Lemma established_spec B W0 E0 i f w s :
  fetching B W0 E0 w s -> files w !! i = Some f -> connecting f -> 0 <= f_fd f < FD_SETSIZE ->
  wp (g <~ sys (sys_getsockopt (f_fd f) SOL_SOCKET SO_ERROR 4) ;;
      (if (rv g <? 0) || negb (hd 0 (rints g) =? 0)
       then err_ret c["nonblocking connect failed for %s"] [AStr (f_name f)] else mpure tt) ;;;
      printf (c["connection established for %s"] ++ [10]) [AStr (f_name f)] ;;;
      ws <~ checked (FD_CLR (f_fd f) (wset w)) ;;
      write_get_cmd wfuel line i (set_sets (rset w) ws (maxfd w) w))
    (goes (fun w' s' => fetching B W0 E0 w' s' /\ f_name <$> files w' = f_name <$> files w /\ nconn w' = nconn w)) s.
Proof using WL line_size.
  intros Hw Hi Hf Hfd. pose proof (fetch_perm _ _ _ _ _ _ _ _ _ _ _ _ (file_out _ _ _ Hi) Hw) as Hp.
  destruct (ft_has _ _ _ _ _ _ _ _ _ _ _ Hp) as (order & eofs & Ho & He & Hh). pose proof (ft_names _ _ _ _ _ _ _ _ _ _ _ Hp) as Hnm.
  apply Forall_cons in Hnm as [[Hnm _] _]. set (L := fds active (f :: delete i (files w)) ++ B) in *. set (W := W0 ++ _) in Hh. set (D := E0 ++ eofs) in Hh.
  apply wp_then, wp_sys. cbn [andthen]. set (c := sys_getsockopt _ _ _ _). set (s1 := after _ _ _).
  assert (H1 : has L W D s1) by by apply has_mute.
  eapply (ends_then _ _ _ _ (fun _ s' => has L W D s')).
  { destruct (_ || _); [|by apply ends_pure]. eapply has_err_ret; [exact H1|reflexivity|].
    destruct Hnm as [Hnul _]. repeat first [apply Forall_app; split; [assumption|] | apply Forall_cons; split; [done|] | apply Forall_nil; done]. }
  intros _ s2 H2. eapply (ends_then _ _ _ _ (fun _ s' => has L W D s')); [eapply has_printf; [exact H2|reflexivity]|]. intros _ s3 H3.
  destruct (FD_CLR_spec (f_fd f) (wset w) Hfd) as (ws & Ews & Hws). eapply wp_checked; [exact Ews|].
  eapply ends_mono; [by apply (write_get_cmd_spec i f (set_sets (rset w) ws (maxfd w) w) L W D)|].
  intros w' s' [(rs & Hrs & ->) H7]. cbn [set_sets files rset wset maxfd nconn nlefttoconn nlefttoread] in *.
  split; [|cbn; by rewrite (names_insert _ _ _ _ Hi)]. unfold fetching. cbn. eapply fetch_perm; [symmetry; by eapply file_in|].
  eapply (step_established _ _ _ _ _ _ _ _ _ _ _ _ _ (File (f_name f) (f_host f) (f_fd f) F_READING) (f_fd f) Hp eq_refl eq_refl eq_refl order eofs); try done.
  unfold W in H7. by rewrite <- app_assoc in H7.
Qed.

(** A file of which something has arrived. *)
Lemma readable_spec B W0 E0 i f w s :
  fetching B W0 E0 w s -> files w !! i = Some f -> f_flags f = F_READING -> 0 <= f_fd f < FD_SETSIZE ->
  wp (r <~ Read (f_fd f) MAXLINE ;;
      if rv r =? 0 then
        printf (c["end-of-file on %s"] ++ [10]) [AStr (f_name f)] ;;;
        Close (f_fd f) ;;;
        w <~ checked (set_file i (File (f_name f) (f_host f) (f_fd f) F_DONE) w) ;;
        rs <~ checked (FD_CLR (f_fd f) (rset w)) ;;
        mpure (Web (files w) (nconn w - 1) (nlefttoconn w) (nlefttoread w - 1) (maxfd w) rs (wset w))
      else printf (c["read %d bytes from %s"] ++ [10]) [AInt (rv r); AStr (f_name f)] ;;; mpure w)
    (goes (fun w' s' => fetching B W0 E0 w' s' /\ f_name <$> files w' = f_name <$> files w /\ nconn w' <= nconn w)) s.
Proof using line_size.
  intros Hw Hi Hf Hfd. pose proof (fetch_perm _ _ _ _ _ _ _ _ _ _ _ _ (file_out _ _ _ Hi) Hw) as Hp.
  destruct (ft_has _ _ _ _ _ _ _ _ _ _ _ Hp) as (order & eofs & Ho & He & Hh).
  destruct (filters_reading f (delete i (files w)) Hf) as (E1 & _ & _ & _ & E5). set (W := W0 ++ _) in Hh. set (D := E0 ++ eofs) in Hh.
  pose proof (has_distinct _ _ _ _ Hh) as Hnd. set (R := delete i (files w)) in *.
  assert (EL : fds active (f :: R) ++ B = f_fd f :: fds active R ++ B) by (unfold fds; by rewrite E1). rewrite EL in Hh.
  eapply ends_then; [by apply has_read|]. intros r s1 H1. cbv beta in H1. destruct (rv r =? 0).
  - eapply (ends_then _ _ _ _ (fun _ s' => has (f_fd f :: fds active R ++ B) W (D ++ [f_fd f]) s')); [eapply has_printf; [exact H1|reflexivity]|]. intros _ s2 H2.
    eapply ends_then; [by apply has_close|]. intros ? s3 H3. rewrite (set_file_spec _ f) by done. eapply wp_checked; [done|]. cbn [rset].
    destruct (FD_CLR_spec (f_fd f) (rset w) Hfd) as (rs & Ers & Hrs). eapply wp_checked; [exact Ers|]. apply ends_pure.
    split; [|cbn; rewrite (names_insert _ _ _ _ Hi) by done; split; [done|lia]]. unfold fetching. cbn. eapply fetch_perm; [symmetry; by eapply file_in|].
    cbv beta in H3. unfold D in H3. rewrite <- app_assoc in H3.
    by eapply (step_done _ _ _ _ _ _ _ _ _ _ _ _ _ (File (f_name f) (f_host f) (f_fd f) F_DONE) (f_fd f) Hp eq_refl eq_refl eq_refl order eofs).
  - eapply (ends_then _ _ _ _ (fun _ s' => has (f_fd f :: fds active R ++ B) W D s')); [eapply has_printf; [exact H1|reflexivity]|]. intros _ s2 H2.
    apply ends_pure. split; [|done]. eapply fetch_perm; [symmetry; by eapply file_out|]. eapply fetch_later; [exact Hp|exact Ho|exact He|].
    change (has (fds active (f :: R) ++ B) W D s2). rewrite EL. exact H2.
Qed.

Lemma check_file_spec B W0 E0 rs ws i w s :
  fetching B W0 E0 w s -> (i < length (files w))%nat ->
  wp (check_file wfuel line rs ws i w)
    (goes (fun w' s' => fetching B W0 E0 w' s' /\ f_name <$> files w' = f_name <$> files w /\ nconn w' <= nconn w)) s.
Proof using WL line_size.
  intros Hw Hi. destruct (lookup_lt_is_Some_2 _ _ Hi) as [f Hf]. unfold check_file. eapply wp_checked; [exact Hf|]. cbv zeta.
  assert (Hsame : wp (mpure w) (goes (fun w' s' => fetching B W0 E0 w' s' /\ f_name <$> files w' = f_name <$> files w /\ nconn w' <= nconn w)) s)
    by (apply ends_pure; split_and!; done || lia).
  pose proof (ft_flags _ _ _ _ _ _ _ _ _ _ _ Hw) as Hfl. eapply Forall_lookup_1 in Hfl; [|exact Hf].
  assert (Hfd : active f -> 0 <= f_fd f < FD_SETSIZE).
  { intros Ha. pose proof (ft_range _ _ _ _ _ _ _ _ _ _ _ Hw) as Hr. rewrite Forall_forall in Hr. apply Hr, list_elem_of_fmap. exists f.
    split; [done|]. apply list_elem_of_filter. split; [done|by eapply list_elem_of_lookup_2]. }
  destruct Hfl as [E|[[E|E]|E]].
  - unfold fresh in E. by rewrite E.
  - rewrite E. cbn [Z.eqb orb]. specialize (Hfd (or_introl E)).
    eapply (ends_then _ _ _ _ (fun _ s' => s' = s)).
    { change (has_flag F_CONNECTING F_CONNECTING) with true. cbv iota.
      eapply wp_checked; [by apply FD_ISSET_spec|]. case_bool_decide; [by apply ends_pure|].
      rewrite FD_ISSET_spec by done. by apply ends_pure. }
    intros ready s1 ->. destruct ready.
    + eapply ends_mono; [by apply established_spec|]. intros w' s' (? & ? & ->). split_and!; done || lia.
    + apply Hsame.
  - rewrite E. change (has_flag F_READING F_DONE) with false. change (has_flag F_READING F_CONNECTING) with false.
    change (has_flag F_READING F_READING) with true. cbn [Z.eqb orb F_READING Pos.eqb]. specialize (Hfd (or_intror E)).
    apply wp_then. cbn [mpure wp andthen].
    rewrite FD_ISSET_spec by done. apply wp_then. cbn [checked mpure wp andthen].
    case_bool_decide; [by apply readable_spec|apply Hsame].
  - rewrite E. apply Hsame.
Qed.

Lemma check_files_spec B W0 E0 rs ws idx : forall w s,
  fetching B W0 E0 w s -> Forall (fun i => (i < length (files w))%nat) idx ->
  wp (check_files wfuel line rs ws idx w)
    (goes (fun w' s' => fetching B W0 E0 w' s' /\ f_name <$> files w' = f_name <$> files w /\ nconn w' <= nconn w)) s.
Proof using WL line_size.
  induction idx as [|i idx IH]; intros w s Hw Hidx; cbn [check_files].
  - apply ends_pure. split_and!; done || lia.
  - apply Forall_cons in Hidx as [Hi Hidx]. eapply ends_then; [by apply check_file_spec|]. intros w1 s1 (H1 & E1 & N1).
    eapply ends_mono; [apply IH; [done|by rewrite (names_length _ _ E1)]|]. intros w2 s2 (H2 & E2 & N2). split_and!; [done|congruence|lia].
Qed.

Lemma left_at_most B W0 E0 w s : fetching B W0 E0 w s -> nlefttoconn w <= Z.of_nat (length (files w)).
Proof using. clear line_size. intros Hw. rewrite (ft_left _ _ _ _ _ _ _ _ _ _ _ Hw). pose proof (length_filter fresh (files w)). lia. Qed.

Lemma web_round_spec B W0 E0 maxnconn w s :
  fetching B W0 E0 w s ->
  wp (web_round wfuel line maxnconn w)
    (goes (fun w' s' => fetching B W0 E0 w' s' /\ f_name <$> files w' = f_name <$> files w /\ nconn w' <= Z.max (nconn w) maxnconn)) s.
Proof using FL WL LL line_size.
  intros Hw. unfold web_round. eapply ends_then; [apply connect_more_spec; [exact Hw|by eapply left_at_most]|].
  intros w1 s1 (H1 & E1 & _ & N1 & _). unfold Select.
  eapply (ends_then _ _ _ _ (fun _ s' => fetching B W0 E0 w1 s')).
  { destruct (ft_has _ _ _ _ _ _ _ _ _ _ _ H1) as (order & eofs & Ho & He & Hh). eapply has_call; [exact Hh|done|done|].
    intros s' Hh' _. by eapply fetch_later. }
  intros r s2 H2. eapply ends_mono; [apply check_files_spec; [done|]|].
  - apply Forall_forall. intros i Hi%elem_of_seq. lia.
  - intros w3 s3 (H3 & E3 & N3). split_and!; [done|congruence|lia].
Qed.

Lemma web_loop_spec B W0 E0 maxnconn rounds : forall w s,
  fetching B W0 E0 w s ->
  wp (web_loop rounds wfuel line maxnconn w)
    (goes (fun w' s' => fetching B W0 E0 w' s' /\ f_name <$> files w' = f_name <$> files w /\ nconn w' <= Z.max (nconn w) maxnconn)) s.
Proof using FL WL LL line_size.
  induction rounds as [|k IH]; intros w s Hw; cbn [web_loop]; (destruct (nlefttoread w >? 0); [|apply ends_pure; split_and!; done || lia]).
  - apply ends_pure. split_and!; done || lia.
  - eapply ends_then; [by apply web_round_spec|]. intros w1 s1 (H1 & E1 & N1).
    eapply ends_mono; [by apply IH|]. intros w2 s2 (H2 & E2 & N2). split_and!; [done|congruence|lia].
Qed.
End Operations.
