(* ===== verification/WebClientClaims.v ===== *)
(** What the web client guarantees. *)

From S2P Require Import Prelude CText Sys Traces Error Wrappers SockUtil Gai Connect RobustIO StreamFacts.
From S2P Require Import Servers Packet OpenFds WebClient WebClientFacts.

Section Claims.
Context {os : OS} {SE : Strerror} {RS : Resolver} {FL : FreshLaw} {WL : WriteLaw} {LL : LookupLaw}.
Context (wfuel : nat) (line : list Z).
Hypothesis line_size : length line = Z.to_nat MAXLINE.





(** As long as a file is missing and connections are allowed, the client waits for at least one. *)
Lemma waits_for_something B W0 E0 maxnconn w s w' s' :
  fetching B W0 E0 w s -> 1 <= maxnconn -> 0 < nlefttoread w ->
  connect_more (length (files w)) wfuel line maxnconn w s = (Val w', s') -> rset w' <> [].
Proof using All.
  intros Hw Hm Hl E. pose proof (connect_more_spec wfuel line line_size B W0 E0 maxnconn (length (files w)) w s Hw (left_at_most _ _ _ _ _ Hw)) as H.
  unfold wp in H. rewrite E in H. destruct H as ([H1 _ H3 _ _ H6 _ _ _ _] & _ & Hc & _ & Er).
  intros Hr. assert (Ha : filter active (files w') = []).
  { apply elem_of_nil_inv. intros f Hf. apply (not_elem_of_nil (f_fd f)). rewrite <- Hr. apply H6. by apply list_elem_of_fmap_2. }
  rewrite Ha in H1. cbn in H1. lia.
Qed.
End Claims.

(** * Concrete runs

    Connections take a while to come up, everything is always ready, and each second read meets the end
    of the file. *)

#[local] Existing Instance numeric_strerror.

Definition page_os : OS := fun h c =>
  match c with
  | sys_socket _ _ _ => ok (next_open h)
  | sys_connect _ _ => failed (-1) EINPROGRESS
  | sys_select _ rs ws _ _ => SR (Z.of_nat (length rs + length ws)) None ws rs None
  | sys_getsockopt _ _ _ _ => SR 0 None [] [0] None
  | sys_read _ _ => if Nat.even (length (collect (fun e => match e.1 with sys_read _ _ => [0] | _ => [] end) h)) then data c["x"] else data []
  | sys_write _ d => ok (Z.of_nat (length d))
  | sys_accept _ _ => failed (-1) EINTR
  | _ => ok 0
  end.



Definition one_address : Resolver :=
  {| resolve := fun _ _ _ => mpure (inr [AI 1 0 AF_INET SOCK_STREAM 0 16 None (Some (2, SockIn (htons 80) [10; 0; 0; 7]))]);
     release := fun _ => mpure tt |}.


Definition three_names : list cstring := [c["/a"]; c["/b"]; c["/c"]].

Abbreviation web_run n := (@web_loop page_os numeric_strerror one_address n 1 (replicate (Z.to_nat MAXLINE) 0) 2 (web_start c["www"] three_names) init).



(** * Limits

    [snprintf] returns the length that the text would have had: for a name that does not fit, the command is
    written from behind the end of the line. *)
Lemma long_name_overrun :
  (@write_get_cmd page_os numeric_strerror 1 (replicate (Z.to_nat MAXLINE) 0) 0
     (web_start c["www"] [replicate (Z.to_nat MAXLINE) 97]) init).1 = Undefined.
Proof. vm_compute. reflexivity. Qed.

(** With a limit of no connections the client waits for nothing, for ever. *)
Lemma no_connections :
  (@web_loop page_os numeric_strerror one_address 1 1 (replicate (Z.to_nat MAXLINE) 0) 0 (web_start c["www"] three_names) init)
    = (Val (web_start c["www"] three_names), after (sys_select 0 [] [] [] None) (SR 0 None [] [] None) init).
Proof. vm_compute. reflexivity. Qed.

(** A connection that has failed is reported and then written to all the same. *)
Lemma failed_connection_written :
  let os : OS := fun h c => match c with
    | sys_socket _ _ _ => ok 3 | sys_connect _ _ => failed (-1) EINPROGRESS
    | sys_select _ rs ws _ _ => SR 2 None ws rs None
    | sys_getsockopt _ _ _ _ => SR 0 None [] [111] None
    | sys_write _ d => ok (Z.of_nat (length d)) | _ => ok 0 end in
  written (trace (@web_loop os numeric_strerror one_address 1 1 (replicate (Z.to_nat MAXLINE) 0) 1 (web_start c["www"] [c["/a"]]) init).2)
    = get_text c["/a"].
Proof. vm_compute. reflexivity. Qed.
