(* ===== verification/ThreadWeb.v ===== *)
(** The threaded web clients: [threads/web01.c], [web02.c], [web03.c].

    One thread fetches each file; the main thread keeps at most [maxnconn] of them running and
    collects those that have ended.  The programs differ in how the main thread learns that a
    thread has ended: [web01.c] joins any thread; in [web02.c] and [web03.c] a thread sets the flag
    [F_DONE] of its file and then counts itself in [ndone], and the main thread, when [ndone] is not
    zero, looks for the flags.  [web02.c] asks again and again, [web03.c] waits on a condition
    variable.

    A move is one statement of one thread, as in [ThreadPool]; statements that touch only what no
    other thread uses are put together.  Any wrapper may report an error and end the process. *)

From S2P Require Import Prelude CText Sys Packet Gai WebClient.

Inductive program : Type := Web01 | Web02 | Web03.

#[export] Instance program_eq_dec : EqDecision program.
Proof. solve_decision. Defined.

Definition F_JOINED : Z := 8.       (* main has pthread_join'ed *)

(** [struct file] *)
Record tfile : Type := TFile {
  tf_name : cstring;
  tf_host : cstring;
  tf_fd : Z;
  tf_flags : Z;
  tf_tid : Z;
}.

Definition set_flags (flags : Z) (f : tfile) : tfile :=
  TFile (tf_name f) (tf_host f) (tf_fd f) flags (tf_tid f).
Definition set_fd (fd : Z) (f : tfile) : tfile :=
  TFile (tf_name f) (tf_host f) fd (tf_flags f) (tf_tid f).
Definition set_tid (t : Z) (f : tfile) : tfile :=
  TFile (tf_name f) (tf_host f) (tf_fd f) (tf_flags f) t.

(** * Where the threads are *)

Inductive getter_pc : Type :=
| GConnect                    (* before fd = Tcp_connect *)
| GPrint                      (* before printf, which reads f_tid *)
| GWrite                      (* in write_get_cmd, before Writen *)
| GReading                    (* before f_flags = F_READING *)
| GRead                       (* before Read *)
| GClose                      (* before Close *)
| GDone                       (* before f_flags = F_DONE *)
| GLock
| GIncr                       (* before ndone++ *)
| GSignal
| GUnlock
| GReturned.

#[export] Instance getter_pc_eq_dec : EqDecision getter_pc.
Proof. solve_decision. Defined.

(** What a thread has done on its connection. *)
Inductive io : Type :=
| Connected (fd : Z)
| Reported (tid : Z)
| Sent (fd : Z) (text : list Z)
| Got (fd : Z) (data : list Z)
| Eof (fd : Z)
| Shut (fd : Z).

(** A thread of [do_get_read]: the file it was given, its place, what it has done, and whether it
    was joined. *)
Record getter : Type := Getter {
  g_file : nat;
  g_pc : getter_pc;
  g_io : list io;
  g_joined : bool;
}.

Definition goto (pc : getter_pc) (g : getter) : getter :=
  Getter (g_file g) pc (g_io g) (g_joined g).
Definition did (e : io) (g : getter) : getter :=
  Getter (g_file g) (g_pc g) (g_io g ++ [e]) (g_joined g).
Definition joined (g : getter) : getter :=
  Getter (g_file g) (g_pc g) (g_io g) true.

Inductive master_pc : Type :=
| HHome                       (* before home_page *)
| HWhile                      (* before while (nlefttoread > 0) *)
| HConnect                    (* before while (nconn < maxnconn && nlefttoconn > 0) *)
| HFind (i : nat)             (* in the search for a file *)
| HFlag (i : nat)             (* before f_flags = F_CONNECTING *)
| HCreate (i : nat)           (* before Pthread_create *)
| HTid (i : nat) (tid : Z)    (* before f_tid = tid *)
| HCount                      (* before nconn++, nlefttoconn-- *)
| HJoinAny                    (* before thr_join (0, ...) *)
| HLock
| HTest                       (* before the test of ndone *)
| HAsleep                     (* in Pthread_cond_wait *)
| HWoken                      (* in Pthread_cond_wait, waiting for the mutex *)
| HScan (i : nat)             (* in the loop over the files *)
| HJoin (i : nat)             (* before Pthread_join *)
| HMark (i j : nat)           (* joined the thread of file j, before f_flags = F_JOINED *)
| HTally (i : nat)            (* before ndone--, nconn--, nlefttoread-- *)
| HUnlock.

#[export] Instance master_pc_eq_dec : EqDecision master_pc.
Proof. solve_decision. Defined.

Inductive holder : Type := Master | Getting (k : nat).

(** How the process has ended: [exit (0)], its own error message, an error of a wrapper, a write
    outside an array. *)
Inductive ending : Type := Finished | Failed | Stopped | Wild.

Record wconfig : Type := WConfig {
  master_at : master_pc;
  table : list tfile;
  getters : list getter;      (* the threads that have been created; thread k has the ID k + 1 *)
  t_nconn : Z;
  t_nlefttoconn : Z;
  t_nlefttoread : Z;
  ndone : Z;
  ndone_mutex : option holder;
  ending_of : option ending;
}.

Definition at_master (m : master_pc) (c : wconfig) : wconfig :=
  WConfig m (table c) (getters c) (t_nconn c) (t_nlefttoconn c) (t_nlefttoread c) (ndone c)
    (ndone_mutex c) (ending_of c).
Definition set_table (t : list tfile) (c : wconfig) : wconfig :=
  WConfig (master_at c) t (getters c) (t_nconn c) (t_nlefttoconn c) (t_nlefttoread c) (ndone c)
    (ndone_mutex c) (ending_of c).
Definition set_getters (g : list getter) (c : wconfig) : wconfig :=
  WConfig (master_at c) (table c) g (t_nconn c) (t_nlefttoconn c) (t_nlefttoread c) (ndone c)
    (ndone_mutex c) (ending_of c).
Definition set_counts (a b d : Z) (c : wconfig) : wconfig :=
  WConfig (master_at c) (table c) (getters c) a b d (ndone c) (ndone_mutex c) (ending_of c).
Definition set_ndone (n : Z) (c : wconfig) : wconfig :=
  WConfig (master_at c) (table c) (getters c) (t_nconn c) (t_nlefttoconn c) (t_nlefttoread c) n
    (ndone_mutex c) (ending_of c).
Definition set_holder (h : option holder) (c : wconfig) : wconfig :=
  WConfig (master_at c) (table c) (getters c) (t_nconn c) (t_nlefttoconn c) (t_nlefttoread c)
    (ndone c) h (ending_of c).
Definition end_with (e : ending) (c : wconfig) : wconfig :=
  WConfig (master_at c) (table c) (getters c) (t_nconn c) (t_nlefttoconn c) (t_nlefttoread c)
    (ndone c) (ndone_mutex c) (Some e).

(** [Pthread_mutex_lock]: possible when the mutex is free. *)
Definition take_mutex (h : holder) (c : wconfig) : option wconfig :=
  match ndone_mutex c with None => Some (set_holder (Some h) c) | Some _ => None end.

(** Storing into an entry of the table, and into a thread. *)
Definition on_file (i : nat) (f : tfile -> tfile) (c : wconfig) : option wconfig :=
  x ← table c !! i; Some (set_table (<[i := f x]> (table c)) c).
Definition on_getter (k : nat) (f : getter -> getter) (c : wconfig) : option wconfig :=
  x ← getters c !! k; Some (set_getters (<[k := f x]> (getters c)) c).

Section ThreadWeb.
Context (v : program) (maxnconn : Z) (page : cstring).

(** * The command

    [web02.c] puts it together with [strcpy] and [strcat], which must stay in [line]; the others
    use [snprintf] and send as many bytes as the full text has. *)
Definition web_command (name : cstring) : option (list Z) :=
  match v with
  | Web02 =>
      let text := c["GET "] ++ name ++ c[" HTTP/1.0"] ++ [13; 10; 13; 10] in
      if Z.of_nat (length text) <? MAXLINE then Some text else None
  | _ =>
      p ← get_cmd name (replicate (Z.to_nat MAXLINE) 0);
      load p.2 0 (Z.to_nat p.1)
  end.

(** * The main thread *)

Definition master_move (c : wconfig) : option wconfig :=
  match master_at c with
  | HHome =>
      match web_command page with
      | Some _ => Some (at_master HWhile c)
      | None => Some (end_with Wild c)
      end
  | HWhile =>
      if t_nlefttoread c >? 0 then Some (at_master HConnect c) else Some (end_with Finished c)
  | HConnect =>
      if (t_nconn c <? maxnconn) && (t_nlefttoconn c >? 0) then Some (at_master (HFind 0) c)
      else Some (at_master (match v with Web01 => HJoinAny | _ => HLock end) c)
  | HFind i =>
      match table c !! i with
      | Some f =>
          if tf_flags f =? 0
          then Some (at_master (match v with Web02 => HCreate i | _ => HFlag i end) c)
          else Some (at_master (HFind (S i)) c)
      | None => Some (end_with Failed c)               (* nothing found *)
      end
  | HFlag i =>
      at_master (match v with Web02 => HCount | _ => HCreate i end)
        <$> on_file i (set_flags F_CONNECTING) c
  | HCreate i =>
      let k := length (getters c) in
      Some (at_master (HTid i (Z.of_nat k + 1))
              (set_getters (getters c ++ [Getter i GConnect [] false]) c))
  | HTid i tid =>
      at_master (match v with Web02 => HFlag i | _ => HCount end) <$> on_file i (set_tid tid) c
  | HCount =>
      Some (at_master HConnect
              (set_counts (t_nconn c + 1) (t_nlefttoconn c - 1) (t_nlefttoread c) c))
  | HJoinAny =>
      if forallb g_joined (getters c) then Some (end_with Failed c)      (* no thread to wait for *)
      else None
  | HLock | HWoken => at_master HTest <$> take_mutex Master c
  | HTest =>
      match v with
      | Web02 =>
          if ndone c >? 0 then Some (at_master (HScan 0) c) else Some (at_master HUnlock c)
      | _ =>
          if ndone c =? 0 then Some (at_master HAsleep (set_holder None c))
          else Some (at_master (HScan 0) c)
      end
  | HAsleep => None
  | HScan i =>
      match table c !! i with
      | Some f =>
          if has_flag (tf_flags f) F_DONE then Some (at_master (HJoin i) c)
          else Some (at_master (HScan (S i)) c)
      | None => Some (at_master HUnlock c)
      end
  | HJoin i =>
      f ← table c !! i;
      let k := Z.to_nat (tf_tid f - 1) in
      match getters c !! k with
      | Some g =>
          if g_joined g then Some (end_with Failed c)
          else match g_pc g with
               | GReturned => at_master (HMark i (g_file g)) <$> on_getter k joined c
               | _ => None
               end
      | None => Some (end_with Failed c)
      end
  | HMark i j =>
      if (i =? j)%nat then at_master (HTally i) <$> on_file i (set_flags F_JOINED) c
      else Some (end_with Failed c)                    (* file[i] != fptr *)
  | HTally i =>
      Some (at_master (HScan (S i))
              (set_ndone (ndone c - 1)
                 (set_counts (t_nconn c - 1) (t_nlefttoconn c) (t_nlefttoread c - 1) c)))
  | HUnlock => Some (at_master HWhile (set_holder None c))
  end.

(** [thr_join (0, ...)] returns with thread [k]. *)
Definition join_any (k : nat) (c : wconfig) : option wconfig :=
  match master_at c, getters c !! k with
  | HJoinAny, Some g =>
      match g_pc g, g_joined g with
      | GReturned, false =>
          at_master HWhile
            <$> on_getter k joined
                  (set_counts (t_nconn c - 1) (t_nlefttoconn c) (t_nlefttoread c - 1) c)
      | _, _ => None
      end
  | _, _ => None
  end.

(** * The other threads *)

(** A statement of [do_get_read] whose result does not depend on the network. *)
Definition getter_move (k : nat) (c : wconfig) : option wconfig :=
  g ← getters c !! k;
  let i := g_file g in
  f ← table c !! i;
  match g_pc g with
  | GConnect | GRead | GReturned => None
  | GPrint => on_getter k (fun g => goto GWrite (did (Reported (tf_tid f)) g)) c
  | GWrite =>
      match web_command (tf_name f) with
      | Some text => on_getter k (fun g => goto GReading (did (Sent (tf_fd f) text) g)) c
      | None => Some (end_with Wild c)
      end
  | GReading =>
      c ← on_file i (set_flags F_READING) c;           (* clears F_CONNECTING *)
      on_getter k (goto GRead) c
  | GClose => on_getter k (fun g => goto GDone (did (Shut (tf_fd f)) g)) c
  | GDone =>
      c ← on_file i (set_flags F_DONE) c;              (* clears F_READING *)
      on_getter k (goto (match v with Web01 => GReturned | _ => GLock end)) c
  | GLock => c ← take_mutex (Getting k) c; on_getter k (goto GIncr) c
  | GIncr =>
      on_getter k (goto (match v with Web02 => GUnlock | _ => GSignal end))
        (set_ndone (ndone c + 1) c)
  | GSignal =>
      on_getter k (goto GUnlock)
        (match master_at c with HAsleep => at_master HWoken c | _ => c end)
  | GUnlock => on_getter k (goto GReturned) (set_holder None c)
  end.

(** [Tcp_connect] returns [fd]. *)
Definition connect_move (k : nat) (fd : Z) (c : wconfig) : option wconfig :=
  g ← getters c !! k;
  match g_pc g with
  | GConnect =>
      c ← on_file (g_file g) (set_fd fd) c;
      on_getter k (fun g => goto GPrint (did (Connected fd) g)) c
  | _ => None
  end.

(** [Read] returns [data]. *)
Definition read_move (k : nat) (data : list Z) (c : wconfig) : option wconfig :=
  g ← getters c !! k;
  f ← table c !! g_file g;
  match g_pc g, data with
  | GRead, [] => on_getter k (fun g => goto GClose (did (Eof (tf_fd f)) g)) c
  | GRead, _ => on_getter k (did (Got (tf_fd f) data)) c
  | _, _ => None
  end.

(** * Moves *)

Inductive wmove : Type :=
| MasterM                              (* the next statement of main *)
| JoinAnyM (k : nat)                   (* thr_join returns with thread k *)
| GetterM (k : nat)                    (* the next statement of thread k *)
| ConnectM (k : nat) (fd : Z)          (* Tcp_connect returns in thread k *)
| ReadM (k : nat) (data : list Z)      (* Read returns in thread k *)
| SpuriousM                            (* main wakes up without a signal *)
| StopM.                               (* an error of a wrapper ends the process *)

Definition wfire (m : wmove) (c : wconfig) : option wconfig :=
  match ending_of c with
  | Some _ => None
  | None =>
      match m with
      | MasterM => master_move c
      | JoinAnyM k => join_any k c
      | GetterM k => getter_move k c
      | ConnectM k fd => connect_move k fd c
      | ReadM k data => read_move k data c
      | SpuriousM => match master_at c with HAsleep => Some (at_master HWoken c) | _ => None end
      | StopM => Some (end_with Stopped c)
      end
  end.

Definition wstep (c c' : wconfig) : Prop := exists m, wfire m c = Some c'.

(** A schedule. *)
Definition wrun (ms : list wmove) (c : wconfig) : option wconfig :=
  foldl (fun c m => c ≫= wfire m) (Some c) ms.

(** The table: the static array, filled from the command line. *)
Definition web_table (host : cstring) (names : list cstring) : list tfile :=
  (fun name => TFile name host 0 0 0) <$> take (Z.to_nat MAXFILES) names.

Definition wstart (host : cstring) (names : list cstring) : wconfig :=
  let t := web_table host names in
  WConfig HHome t [] 0 (Z.of_nat (length t)) (Z.of_nat (length t)) 0 None None.

End ThreadWeb.

(** [argv], the name of the program first: the number of connections, the host, its home page,
    the files.  Without them the program ends with a message about its usage. *)
Definition threads_main (argv : list cstring) : option (Z * cstring * wconfig) :=
  match argv with
  | _ :: conns :: host :: page :: ((_ :: _) as names) => Some (atoi conns, page, wstart host names)
  | _ => None
  end.
