(* ===== verification/ThreadWebFacts.v ===== *)
(** The moves of the threaded web clients as rules, and the invariants of [web01.c] and [web03.c]: which thread works on which file,
    what the flags and the counters say, mutual exclusion, and what each thread has done. *)

From S2P Require Import Prelude CText Sys Packet Gai WebClient ThreadWeb.

(** * Classification of places *)

Inductive phase : Type := PConnecting | PReading | PFinished.

Definition phase_of (p : getter_pc) : phase :=
  match p with
  | GConnect | GPrint | GWrite | GReading => PConnecting
  | GRead | GClose | GDone => PReading
  | GLock | GIncr | GSignal | GUnlock | GReturned => PFinished
  end.

Definition master_holds (m : master_pc) : bool :=
  match m with HTest | HScan _ | HJoin _ | HMark _ _ | HTally _ | HUnlock => true | _ => false end.

Definition getter_holds (p : getter_pc) : bool :=
  match p with GIncr | GSignal | GUnlock => true | _ => false end.

(** The thread has counted itself. *)
Definition counted (p : getter_pc) : bool :=
  match p with GSignal | GUnlock | GReturned => true | _ => false end.

(** * Moves of a thread on its own connection *)

Inductive local (v : program) (f : tfile) (g : getter) : tfile -> getter -> Prop :=
| l_connect fd : g_pc g = GConnect -> local v f g (set_fd fd f) (goto GPrint (did (Connected fd) g))
| l_print : g_pc g = GPrint -> local v f g f (goto GWrite (did (Reported (tf_tid f)) g))
| l_write text : g_pc g = GWrite -> web_command v (tf_name f) = Some text ->
    local v f g f (goto GReading (did (Sent (tf_fd f) text) g))
| l_got data : g_pc g = GRead -> data <> [] -> local v f g f (did (Got (tf_fd f) data) g)
| l_eof : g_pc g = GRead -> local v f g f (goto GClose (did (Eof (tf_fd f)) g))
| l_close : g_pc g = GClose -> local v f g f (goto GDone (did (Shut (tf_fd f)) g)).

(** * The moves as rules *)

Section Rules.
Context (v : program) (maxnconn : Z) (page : cstring).

Local Abbreviation C m t gs a b d n mx := (WConfig m t gs a b d n mx None).

Inductive wrule : wconfig -> wconfig -> Prop :=
| w_end m t gs a b d n mx e : e = Stopped \/ e = Wild ->
    wrule (C m t gs a b d n mx) (WConfig m t gs a b d n mx (Some e))
| w_home t gs a b d n mx : wrule (C HHome t gs a b d n mx) (C HWhile t gs a b d n mx)
| w_more t gs a b d n mx : d > 0 -> wrule (C HWhile t gs a b d n mx) (C HConnect t gs a b d n mx)
| w_exit t gs a b d n mx : d <= 0 ->
    wrule (C HWhile t gs a b d n mx) (WConfig HWhile t gs a b d n mx (Some Finished))
| w_connect t gs a b d n mx : a < maxnconn -> b > 0 ->
    wrule (C HConnect t gs a b d n mx) (C (HFind 0) t gs a b d n mx)
| w_full m t gs a b d n mx : maxnconn <= a \/ b <= 0 ->
    m = match v with Web01 => HJoinAny | _ => HLock end ->
    wrule (C HConnect t gs a b d n mx) (C m t gs a b d n mx)
| w_found i f t gs a b d n mx : t !! i = Some f -> tf_flags f = 0 ->
    wrule (C (HFind i) t gs a b d n mx) (C (HFlag i) t gs a b d n mx)
| w_next i f t gs a b d n mx : t !! i = Some f -> tf_flags f <> 0 ->
    wrule (C (HFind i) t gs a b d n mx) (C (HFind (S i)) t gs a b d n mx)
| w_nothing i t gs a b d n mx : t !! i = None ->
    wrule (C (HFind i) t gs a b d n mx) (WConfig (HFind i) t gs a b d n mx (Some Failed))
| w_flag i f t gs a b d n mx : t !! i = Some f ->
    wrule (C (HFlag i) t gs a b d n mx)
      (C (HCreate i) (<[i := set_flags F_CONNECTING f]> t) gs a b d n mx)
| w_create i t gs a b d n mx :
    wrule (C (HCreate i) t gs a b d n mx)
      (C (HTid i (Z.of_nat (length gs) + 1)) t (gs ++ [Getter i GConnect [] false]) a b d n mx)
| w_tid i x f t gs a b d n mx : t !! i = Some f ->
    wrule (C (HTid i x) t gs a b d n mx) (C HCount (<[i := set_tid x f]> t) gs a b d n mx)
| w_count t gs a b d n mx :
    wrule (C HCount t gs a b d n mx) (C HConnect t gs (a + 1) (b - 1) d n mx)
| w_nobody t gs a b d n mx : forallb g_joined gs = true ->
    wrule (C HJoinAny t gs a b d n mx) (WConfig HJoinAny t gs a b d n mx (Some Failed))
| w_joinany k g t gs a b d n mx : gs !! k = Some g -> g_pc g = GReturned -> g_joined g = false ->
    wrule (C HJoinAny t gs a b d n mx) (C HWhile t (<[k := joined g]> gs) (a - 1) b (d - 1) n mx)
| w_lock m t gs a b d n : m = HLock \/ m = HWoken ->
    wrule (C m t gs a b d n None) (C HTest t gs a b d n (Some Master))
| w_sleep t gs a b d mx : wrule (C HTest t gs a b d 0 mx) (C HAsleep t gs a b d 0 None)
| w_scan t gs a b d n mx : n <> 0 -> wrule (C HTest t gs a b d n mx) (C (HScan 0) t gs a b d n mx)
| w_hit i f t gs a b d n mx : t !! i = Some f -> has_flag (tf_flags f) F_DONE = true ->
    wrule (C (HScan i) t gs a b d n mx) (C (HJoin i) t gs a b d n mx)
| w_miss i f t gs a b d n mx : t !! i = Some f -> has_flag (tf_flags f) F_DONE = false ->
    wrule (C (HScan i) t gs a b d n mx) (C (HScan (S i)) t gs a b d n mx)
| w_scanned i t gs a b d n mx : t !! i = None ->
    wrule (C (HScan i) t gs a b d n mx) (C HUnlock t gs a b d n mx)
| w_join i f k g t gs a b d n mx : t !! i = Some f -> k = Z.to_nat (tf_tid f - 1) ->
    gs !! k = Some g -> g_joined g = false -> g_pc g = GReturned ->
    wrule (C (HJoin i) t gs a b d n mx) (C (HMark i (g_file g)) t (<[k := joined g]> gs) a b d n mx)
| w_nojoin i f k t gs a b d n mx : t !! i = Some f -> k = Z.to_nat (tf_tid f - 1) ->
    (gs !! k = None \/ exists g, gs !! k = Some g /\ g_joined g = true) ->
    wrule (C (HJoin i) t gs a b d n mx) (WConfig (HJoin i) t gs a b d n mx (Some Failed))
| w_mark i f t gs a b d n mx : t !! i = Some f ->
    wrule (C (HMark i i) t gs a b d n mx) (C (HTally i) (<[i := set_flags F_JOINED f]> t) gs a b d n mx)
| w_other i j t gs a b d n mx : i <> j ->
    wrule (C (HMark i j) t gs a b d n mx) (WConfig (HMark i j) t gs a b d n mx (Some Failed))
| w_tally i t gs a b d n mx :
    wrule (C (HTally i) t gs a b d n mx) (C (HScan (S i)) t gs (a - 1) b (d - 1) (n - 1) mx)
| w_unlock t gs a b d n mx : wrule (C HUnlock t gs a b d n mx) (C HWhile t gs a b d n None)
| w_local k g f g' f' m t gs a b d n mx : gs !! k = Some g -> t !! g_file g = Some f ->
    local v f g f' g' ->
    wrule (C m t gs a b d n mx) (C m (<[g_file g := f']> t) (<[k := g']> gs) a b d n mx)
| w_reading k g f m t gs a b d n mx : gs !! k = Some g -> t !! g_file g = Some f ->
    g_pc g = GReading ->
    wrule (C m t gs a b d n mx)
      (C m (<[g_file g := set_flags F_READING f]> t) (<[k := goto GRead g]> gs) a b d n mx)
| w_done k g f p m t gs a b d n mx : gs !! k = Some g -> t !! g_file g = Some f ->
    g_pc g = GDone -> p = match v with Web01 => GReturned | _ => GLock end ->
    wrule (C m t gs a b d n mx)
      (C m (<[g_file g := set_flags F_DONE f]> t) (<[k := goto p g]> gs) a b d n mx)
| w_glock k g m t gs a b d n : gs !! k = Some g -> g_pc g = GLock ->
    wrule (C m t gs a b d n None) (C m t (<[k := goto GIncr g]> gs) a b d n (Some (Getting k)))
| w_incr k g m t gs a b d n mx : gs !! k = Some g -> g_pc g = GIncr ->
    wrule (C m t gs a b d n mx) (C m t (<[k := goto GSignal g]> gs) a b d (n + 1) mx)
| w_signal k g m m' t gs a b d n mx : gs !! k = Some g -> g_pc g = GSignal ->
    m' = match m with HAsleep => HWoken | _ => m end ->
    wrule (C m t gs a b d n mx) (C m' t (<[k := goto GUnlock g]> gs) a b d n mx)
| w_gunlock k g m t gs a b d n mx : gs !! k = Some g -> g_pc g = GUnlock ->
    wrule (C m t gs a b d n mx) (C m t (<[k := goto GReturned g]> gs) a b d n None)
| w_spurious t gs a b d n mx : wrule (C HAsleep t gs a b d n mx) (C HWoken t gs a b d n mx).

Context (Hv : v <> Web02).

Ltac rule_cbn H :=
  cbn [master_at table getters t_nconn t_nlefttoconn t_nlefttoread ndone ndone_mutex ending_of
       at_master set_table set_getters set_counts set_ndone set_holder end_with mbind option_bind
       fmap option_fmap option_map] in H.

Ltac start_rule H :=
  unfold master_move, join_any, getter_move, connect_move, read_move, on_file, on_getter, take_mutex in H;
  rule_cbn H.

Lemma master_wrule m t gs a b d n mx c' :
  master_move v maxnconn page (C m t gs a b d n mx) = Some c' -> wrule (C m t gs a b d n mx) c'.
Proof using Hv.
  intros H. start_rule H. destruct m as [| | |i|i|i|i x| | | | | | |i|i|i j|i|].
  - destruct (web_command v page); injection H as <-; [apply w_home|apply w_end; auto].
  - destruct (Z.gtb_spec d 0); injection H as <-; [apply w_more; lia|by apply w_exit].
  - destruct (Z.ltb_spec a maxnconn), (Z.gtb_spec b 0); cbn [andb] in H; injection H as <-;
      [apply w_connect; lia|eapply w_full; [by right|done]|eapply w_full; [by left|done]..].
  - destruct (t !! i) as [f|] eqn:E; [|injection H as <-; by apply w_nothing].
    destruct (Z.eqb_spec (tf_flags f) 0); injection H as <-; [|by eapply w_next].
    destruct v; try done; by eapply w_found.
  - destruct (t !! i) as [f|] eqn:E; [|discriminate]. rule_cbn H. injection H as <-.
    destruct v; try done; by eapply w_flag.
  - injection H as <-. apply w_create.
  - destruct (t !! i) as [f|] eqn:E; [|discriminate]. rule_cbn H. injection H as <-.
    destruct v; try done; by eapply w_tid.
  - injection H as <-. apply w_count.
  - destruct (forallb g_joined gs) eqn:E; [|discriminate]. injection H as <-. by apply w_nobody.
  - destruct mx; [discriminate|]. rule_cbn H. injection H as <-. apply w_lock; auto.
  - assert (H' : (if n =? 0 then Some (C HAsleep t gs a b d n None)
                  else Some (C (HScan 0) t gs a b d n mx)) = Some c') by (destruct v; done).
    destruct (Z.eqb_spec n 0) as [->|]; injection H' as <-; [apply w_sleep|by apply w_scan].
  - discriminate.
  - destruct mx; [discriminate|]. rule_cbn H. injection H as <-. apply w_lock; auto.
  - destruct (t !! i) as [f|] eqn:E; [|injection H as <-; by apply w_scanned].
    destruct (has_flag _ _) eqn:Ef; injection H as <-; [by eapply w_hit|by eapply w_miss].
  - destruct (t !! i) as [f|] eqn:E; [|discriminate]. rule_cbn H.
    destruct (gs !! _) as [g|] eqn:Eg; [|injection H as <-; eapply w_nojoin; eauto].
    destruct (g_joined g) eqn:Ej; [injection H as <-; eapply w_nojoin; eauto|].
    destruct (g_pc g) eqn:Ep; try discriminate. rule_cbn H. injection H as <-. by eapply w_join.
  - destruct (Nat.eqb_spec i j) as [<-|]; [|injection H as <-; by apply w_other].
    destruct (t !! i) as [f|] eqn:E; [|discriminate]. rule_cbn H. injection H as <-. by apply w_mark.
  - injection H as <-. apply w_tally.
  - injection H as <-. apply w_unlock.
Qed.

Lemma w_local_same k g f g' m t gs a b d n mx :
  gs !! k = Some g -> t !! g_file g = Some f -> local v f g f g' ->
  wrule (C m t gs a b d n mx) (C m t (<[k := g']> gs) a b d n mx).
Proof.
  intros Hk Hf Hl. pose proof (w_local k g f g' f m t gs a b d n mx Hk Hf Hl) as H.
  by rewrite list_insert_id in H.
Qed.

Ltac fetch E H := rule_cbn H; try (rewrite E in H; rule_cbn H).

Lemma getter_wrule k m t gs a b d n mx c' :
  getter_move v k (C m t gs a b d n mx) = Some c' -> wrule (C m t gs a b d n mx) c'.
Proof using Hv.
  intros H. start_rule H. destruct (gs !! k) as [g|] eqn:Eg; [|discriminate]. rule_cbn H.
  destruct (t !! g_file g) as [f|] eqn:Ef; [|discriminate]. rule_cbn H.
  destruct (g_pc g) eqn:Ep; try discriminate.
  - fetch Eg H. injection H as <-. eapply w_local_same; eauto. by apply l_print.
  - destruct (web_command v (tf_name f)) as [text|] eqn:Et; [|injection H as <-; apply w_end; auto].
    fetch Eg H. injection H as <-. eapply w_local_same; eauto. by apply l_write.
  - fetch Eg H. injection H as <-. by apply w_reading.
  - fetch Eg H. injection H as <-. eapply w_local_same; eauto. by apply l_close.
  - fetch Eg H. injection H as <-. by eapply w_done.
  - destruct mx; [discriminate|]. rule_cbn H. fetch Eg H. injection H as <-. by apply w_glock.
  - fetch Eg H. injection H as <-. destruct v; try done; by apply w_incr.
  - destruct m; fetch Eg H; injection H as <-; by eapply w_signal.
  - fetch Eg H. injection H as <-. by apply w_gunlock.
Qed.

Lemma wfire_wrule mv c c' : wfire v maxnconn page mv c = Some c' -> wrule c c'.
Proof using Hv.
  intros H. destruct c as [m t gs a b d n mx [e|]]; [done|]. unfold wfire in H. rule_cbn H.
  destruct mv as [|k|k|k fd|k data| |].
  - by apply master_wrule.
  - start_rule H. destruct m; try discriminate. destruct (gs !! k) as [g|] eqn:Eg; [|discriminate].
    destruct (g_pc g) eqn:Ep, (g_joined g) eqn:Ej; try discriminate. rule_cbn H. injection H as <-.
    by eapply w_joinany.
  - by eapply getter_wrule.
  - start_rule H. destruct (gs !! k) as [g|] eqn:Eg; [|discriminate]. rule_cbn H.
    destruct (g_pc g) eqn:Ep; try discriminate.
    destruct (t !! g_file g) as [f|] eqn:Ef; [|discriminate]. rule_cbn H. fetch Eg H.
    injection H as <-. eapply w_local; eauto. by apply l_connect.
  - start_rule H. destruct (gs !! k) as [g|] eqn:Eg; [|discriminate]. rule_cbn H.
    destruct (t !! g_file g) as [f|] eqn:Ef; [|discriminate]. rule_cbn H.
    destruct (g_pc g) eqn:Ep; try discriminate. destruct data as [|x data]; fetch Eg H;
      injection H as <-; eapply w_local_same; eauto; [by apply l_eof|by apply l_got].
  - destruct m; try discriminate. injection H as <-. apply w_spurious.
  - injection H as <-. apply w_end. auto.
Qed.

End Rules.

(** * Threads, files and flags

    Thread [k] works on file [k].  The flags of a file say how far its thread is. *)

Definition flags_for (v : program) (m : master_pc) (i : nat) (og : option getter) : Z :=
  match og with
  | None => if decide (m = HCreate i) then F_CONNECTING else 0
  | Some g =>
      match phase_of (g_pc g) with
      | PConnecting => F_CONNECTING
      | PReading => F_READING
      | PFinished =>
          if g_joined g && bool_decide (v = Web03) && negb (bool_decide (m = HMark i i))
          then F_JOINED else F_DONE
      end
  end.

(** What is known at each place of the main thread. *)
Definition master_fact (v : program) (m : master_pc) (t : list tfile) (gs : list getter) : Prop :=
  match m with
  | HFind i => (i <= length gs)%nat /\ (length gs < length t)%nat
  | HFlag i | HCreate i => i = length gs /\ (length gs < length t)%nat
  | HTid i x => S i = length gs /\ x = Z.of_nat (length gs)
  | HJoinAny => v = Web01
  | HLock | HTest | HAsleep | HWoken | HScan _ | HUnlock => v = Web03
  | HJoin i => v = Web03 /\ exists g, gs !! i = Some g /\ g_joined g = false /\ phase_of (g_pc g) = PFinished
  | HMark i j => v = Web03 /\ i = j /\ exists g, gs !! i = Some g /\ g_joined g = true
  | HTally i => v = Web03 /\ exists g, gs !! i = Some g /\ g_joined g = true
  | HHome | HWhile | HConnect | HCount => True
  end.

Definition plain_pc (p : getter_pc) : Prop :=
  match p with GLock | GIncr | GSignal | GUnlock => False | _ => True end.

Record shape (v : program) (m : master_pc) (t : list tfile) (gs : list getter) : Prop := {
  sh_file : forall k g, gs !! k = Some g -> g_file g = k;
  sh_len : (length gs <= length t)%nat;
  sh_flags : forall i f, t !! i = Some f -> tf_flags f = flags_for v m i (gs !! i);
  sh_tid : forall i f, (i < length gs)%nat -> t !! i = Some f -> (forall x, m <> HTid i x) ->
    tf_tid f = Z.of_nat i + 1;
  sh_joined : forall k g, gs !! k = Some g -> g_joined g = true -> g_pc g = GReturned;
  sh_plain : forall k g, gs !! k = Some g -> v = Web01 -> plain_pc (g_pc g);
  sh_master : master_fact v m t gs;
}.

(** The places that [flags_for] and [sh_tid] look at. *)
Definition special (m : master_pc) : bool :=
  match m with HCreate _ | HTid _ _ | HMark _ _ => true | _ => false end.

Lemma flags_for_master v m m' i og :
  special m = false -> special m' = false -> flags_for v m i og = flags_for v m' i og.
Proof.
  intros Hm Hm'. unfold flags_for. destruct og as [g|].
  - assert (bool_decide (m = HMark i i) = bool_decide (m' = HMark i i)) as ->; [|done].
    rewrite !bool_decide_eq_false_2; [done|by intros ->..].
  - rewrite !decide_False; [done|by intros ->..].
Qed.

Section Shape.
Context {v : program} {t : list tfile} {gs : list getter}.

Lemma shape_master m m' :
  shape v m t gs -> special m = false -> special m' = false -> master_fact v m' t gs ->
  shape v m' t gs.
Proof.
  intros [H1 H2 H3 H4 H5 H6 H7] Hm Hm' Hf. split; try done.
  - intros i f Hi. rewrite (H3 i f Hi). by apply flags_for_master.
  - intros i f Hi Hf' _. apply H4; [done..|]. intros x ->. done.
Qed.

Lemma shape_getter m k g f g' f' :
  shape v m t gs -> gs !! k = Some g -> t !! k = Some f ->
  g_file g' = k -> g_joined g' = g_joined g -> tf_tid f' = tf_tid f ->
  tf_flags f' = flags_for v m k (Some g') -> (g_joined g' = true -> g_pc g' = GReturned) ->
  (v = Web01 -> plain_pc (g_pc g')) ->
  (phase_of (g_pc g) = PFinished -> phase_of (g_pc g') = PFinished) ->
  shape v m (<[k := f']> t) (<[k := g']> gs).
Proof.
  intros [H1 H2 H3 H4 H5 H6 H7] Hk Hf Hfile Hj Htid Hfl Hjr Hp Hph.
  assert (Hkl : (k < length gs)%nat) by by eapply lookup_lt_Some.
  assert (Hother : forall i h, gs !! i = Some h -> i <> k -> <[k := g']> gs !! i = Some h)
    by (intros; by rewrite list_lookup_insert_ne).
  split; rewrite ?length_insert; try done.
  - intros i h [(<- & <- & _)|[_ ?]]%list_lookup_insert_Some; eauto.
  - intros i h [(<- & <- & _)|[? ?]]%list_lookup_insert_Some.
    + by rewrite list_lookup_insert_eq.
    + rewrite list_lookup_insert_ne by done. auto.
  - intros i h Hi [(<- & <- & _)|[? ?]]%list_lookup_insert_Some Hm; [|eauto].
    rewrite Htid. eauto.
  - intros i h [(<- & <- & _)|[_ ?]]%list_lookup_insert_Some; eauto.
  - intros i h [(<- & <- & _)|[_ ?]]%list_lookup_insert_Some; eauto.
  - assert (Hex : forall i (P : getter -> Prop), (exists h, gs !! i = Some h /\ P h) ->
      (i = k -> P g -> P g') -> exists h, <[k := g']> gs !! i = Some h /\ P h).
    { intros i P (h & Hi & HP) HPg. destruct (decide (i = k)) as [->|Hne].
      - exists g'. rewrite list_lookup_insert_eq by done. split; [done|]. apply HPg; [done|].
        rewrite Hk in Hi. by injection Hi as <-.
      - exists h. by rewrite list_lookup_insert_ne. }
    unfold master_fact in *. destruct m; rewrite ?length_insert; try done.
    + destruct H7 as [? H7]. split; [done|]. apply Hex; [done|]. intros _ [? ?]. rewrite Hj. auto.
    + destruct H7 as (? & ? & H7). split_and!; [done..|]. apply Hex; [done|]. intros _ ?. by rewrite Hj.
    + destruct H7 as [? H7]. split; [done|]. apply Hex; [done|]. intros _ ?. by rewrite Hj.
Qed.

(** The file of a thread. *)
Lemma shape_lookup m k g :
  shape v m t gs -> gs !! k = Some g -> exists f, t !! k = Some f /\ g_file g = k.
Proof.
  intros Hs Hk. destruct (lookup_lt_is_Some_2 t k) as [f Hf].
  - apply lookup_lt_Some in Hk. pose proof (sh_len _ _ _ _ Hs). lia.
  - exists f. split; [done|]. by eapply sh_file.
Qed.
End Shape.

(** A thread that changes place within its phase. *)
Lemma shape_goto v m t gs k g p :
  shape v m t gs -> gs !! k = Some g -> phase_of p = phase_of (g_pc g) ->
  (v = Web01 -> plain_pc p) -> g_joined g = false ->
  shape v m t (<[k := goto p g]> gs).
Proof.
  intros Hs Hk Hp Hpl Hj. destruct (shape_lookup m k g Hs Hk) as (f & Hf & Hfile).
  rewrite <- (list_insert_id t k f Hf).
  apply (shape_getter m k g f (goto p g) f); try done; cbn [goto g_pc g_joined g_file].
  - rewrite (sh_flags _ _ _ _ Hs k f Hf), Hk. unfold flags_for. cbn. by rewrite Hp.
  - by rewrite Hj.
  - by rewrite Hp.
Qed.

(** What a move on the connection keeps. *)
Lemma local_keeps v f g f' g' :
  local v f g f' g' ->
  g_file g' = g_file g /\ g_joined g' = g_joined g /\ phase_of (g_pc g') = phase_of (g_pc g) /\
  phase_of (g_pc g) <> PFinished /\ plain_pc (g_pc g') /\
  tf_flags f' = tf_flags f /\ tf_tid f' = tf_tid f /\ tf_name f' = tf_name f.
Proof. intros []; cbn; rewrite ?H; done. Qed.

(** * The counters *)

Definition cnt (p : getter -> bool) (gs : list getter) : Z :=
  foldr (fun g z => Z.b2z (p g) + z) 0 gs.

Lemma cnt_cons p g gs : cnt p (g :: gs) = Z.b2z (p g) + cnt p gs.
Proof. done. Qed.

Lemma cnt_snoc p gs g : cnt p (gs ++ [g]) = cnt p gs + Z.b2z (p g).
Proof.
  induction gs as [|h gs IH]; cbn [app]; rewrite ?cnt_cons; [cbn; lia|]. rewrite IH. lia.
Qed.

Lemma cnt_insert p gs k g g' :
  gs !! k = Some g -> cnt p (<[k := g']> gs) = cnt p gs - Z.b2z (p g) + Z.b2z (p g').
Proof.
  revert k. induction gs as [|h gs IH]; intros [|k] Hk; try done.
  - injection Hk as ->. change (<[0%nat := g']> (g :: gs)) with (g' :: gs). rewrite !cnt_cons. lia.
  - change (<[S k := g']> (h :: gs)) with (h :: <[k := g']> gs). rewrite !cnt_cons, (IH k Hk). lia.
Qed.

Lemma cnt_bound p gs : 0 <= cnt p gs <= Z.of_nat (length gs).
Proof.
  induction gs as [|g gs IH]; [cbn; lia|]. rewrite cnt_cons. cbn [length].
  destruct (p g); cbn [Z.b2z]; lia.
Qed.

Lemma cnt_all p gs : cnt p gs = Z.of_nat (length gs) <-> forallb p gs = true.
Proof.
  induction gs as [|g gs IH]; [done|]. rewrite cnt_cons. cbn [length forallb].
  pose proof (cnt_bound p gs). destruct (p g); cbn [Z.b2z andb]; [rewrite <- IH; lia|].
  split; [lia|done].
Qed.

Lemma cnt_mono p q gs :
  (forall k g, gs !! k = Some g -> p g = true -> q g = true) -> cnt p gs <= cnt q gs.
Proof.
  induction gs as [|g gs IH]; intros H; [done|]. rewrite !cnt_cons.
  specialize (IH (fun k h Hk => H (S k) h Hk)). pose proof (H 0%nat g eq_refl) as Hg.
  destruct (p g), (q g); cbn [Z.b2z]; lia.
Qed.

Lemma cnt_below p gs :
  cnt p gs < Z.of_nat (length gs) -> exists k g, gs !! k = Some g /\ p g = false.
Proof.
  induction gs as [|g gs IH]; [cbn; lia|]. rewrite cnt_cons. cbn [length]. intros H.
  destruct (p g) eqn:E; cbn [Z.b2z] in H; [|by exists 0%nat, g].
  destruct IH as (k & h & ? & ?); [lia|]. by exists (S k), h.
Qed.

(** A thread was created and not yet counted; a thread was joined and not yet counted. *)
Definition new_of (m : master_pc) : Z := match m with HTid _ _ | HCount => 1 | _ => 0 end.
Definition half_of (m : master_pc) : Z := match m with HMark _ _ | HTally _ => 1 | _ => 0 end.

Definition opening (m : master_pc) : bool :=
  match m with HFind _ | HFlag _ | HCreate _ | HTid _ _ | HCount => true | _ => false end.
Definition waiting (m : master_pc) : bool :=
  match m with HJoinAny | HLock | HTest | HAsleep | HWoken => true | _ => false end.
Definition left_over (m : master_pc) : bool :=
  match m with HConnect => true | _ => opening m || waiting m end.

Definition done_by (g : getter) : bool := counted (g_pc g).

Section Counts.
Context (v : program) (maxnconn : Z).

Record counts (m : master_pc) (len : Z) (gs : list getter) (a b d n : Z) : Prop := {
  ct_b : b = len - Z.of_nat (length gs) + new_of m;
  ct_a : a = Z.of_nat (length gs) - new_of m - (cnt g_joined gs - half_of m);
  ct_d : d = len - (cnt g_joined gs - half_of m);
  ct_n : v = Web03 -> n = cnt done_by gs - (cnt g_joined gs - half_of m);
  ct_max : a <= Z.max 0 maxnconn;
  ct_open : opening m = true -> a < maxnconn;
  ct_wait : waiting m = true -> maxnconn <= a \/ b <= 0;
  ct_left : left_over m = true -> d > 0;
  ct_awake : m = HAsleep -> n <> 0 -> exists k g, gs !! k = Some g /\ g_pc g = GSignal;
}.

(** Only the main thread moves. *)
Lemma counts_master m m' len gs a b d n :
  counts m len gs a b d n -> new_of m' = new_of m -> half_of m' = half_of m ->
  (opening m' = true -> a < maxnconn) -> (waiting m' = true -> maxnconn <= a \/ b <= 0) ->
  (left_over m' = true -> d > 0) -> (m' = HAsleep -> n = 0) ->
  counts m' len gs a b d n.
Proof.
  intros [H1 H2 H3 H4 H5 H6 H7 H8 H9] Hn Hh Ho Hw Hl Ha. split; rewrite ?Hn, ?Hh; try done.
  intros Hm Hne. by destruct (Hne (Ha Hm)).
Qed.

(** A thread moves without counting itself. *)
Lemma counts_getter m len gs a b d n k g g' :
  counts m len gs a b d n -> gs !! k = Some g -> g_joined g' = g_joined g ->
  (v = Web03 -> done_by g' = done_by g) -> g_pc g <> GSignal ->
  counts m len (<[k := g']> gs) a b d n.
Proof.
  intros [H1 H2 H3 H4 H5 H6 H7 H8 H9] Hk Hj Hd Hs.
  assert (HJ : cnt g_joined (<[k := g']> gs) = cnt g_joined gs)
    by (rewrite (cnt_insert _ _ _ _ _ Hk), Hj; lia).
  split; rewrite ?length_insert, ?HJ; try done.
  - intros Hv. rewrite (cnt_insert _ _ _ _ _ Hk), (Hd Hv), (H4 Hv). lia.
  - intros Hm Hne. destruct (H9 Hm Hne) as (i & h & Hi & Hp). exists i, h. split; [|done].
    rewrite list_lookup_insert_ne; [done|]. intros ->. rewrite Hk in Hi. by injection Hi as ->.
Qed.
End Counts.

(** * Both are preserved *)

Section Preserved.
Context (v : program) (maxnconn : Z) (Hv : v <> Web02).

Definition shaped (c : wconfig) : Prop := shape v (master_at c) (table c) (getters c).
Definition tallied (c : wconfig) : Prop :=
  counts v maxnconn (master_at c) (Z.of_nat (length (table c))) (getters c)
    (t_nconn c) (t_nlefttoconn c) (t_nlefttoread c) (ndone c).

(** The search stops at the first file without a thread. *)
Lemma shape_flag_zero m t gs i f :
  shape v m t gs -> t !! i = Some f -> special m = false ->
  tf_flags f = 0 <-> (length gs <= i)%nat.
Proof.
  intros Hs Hf Hm. rewrite (sh_flags _ _ _ _ Hs i f Hf). unfold flags_for.
  destruct (gs !! i) as [g|] eqn:E.
  - apply lookup_lt_Some in E. split; [|lia].
    destruct (phase_of _); [done..|]. by destruct (_ && _).
  - apply lookup_ge_None in E. rewrite decide_False; [done|]. by intros ->.
Qed.

(** A flag [F_DONE]: the thread has finished and is not joined. *)
Lemma shape_flag_done m t gs i f :
  shape v m t gs -> t !! i = Some f -> special m = false -> v = Web03 ->
  has_flag (tf_flags f) F_DONE = true <->
  exists g, gs !! i = Some g /\ g_joined g = false /\ phase_of (g_pc g) = PFinished.
Proof.
  intros Hs Hf Hm ->. rewrite (sh_flags _ _ _ _ Hs i f Hf). unfold flags_for.
  assert (Hk : bool_decide (m = HMark i i) = false)
    by (apply bool_decide_eq_false_2; by intros ->).
  rewrite Hk. destruct (gs !! i) as [g|] eqn:E.
  - destruct (phase_of (g_pc g)) eqn:Ep; [split; [done|intros (h & [= <-] & _ & ?); congruence]..|].
    destruct (g_joined g) eqn:Ej; cbn.
    + split; [done|]. intros (h & [= <-] & ? & _). congruence.
    + split; [|done]. intros _. eauto.
  - rewrite decide_False by by intros ->. split; [done|]. by intros (g & ? & _).
Qed.

Lemma shape_flag_set m t gs i f :
  shape v (HFlag i) t gs -> t !! i = Some f -> m = HCreate i ->
  shape v m (<[i := set_flags F_CONNECTING f]> t) gs.
Proof.
  intros [H1 H2 H3 H4 H5 H6 [Hi Hl]] Hf ->. split; rewrite ?length_insert; try done.
  - intros j h [(<- & <- & _)|[Hne Hj]]%list_lookup_insert_Some.
    + unfold flags_for. rewrite (lookup_ge_None_2 gs) by lia. by rewrite decide_True.
    + rewrite (H3 j h Hj). unfold flags_for. destruct (gs !! j) as [g|].
      * by rewrite !(bool_decide_eq_false_2 (_ = HMark j j)).
      * rewrite !decide_False; [done|congruence|done].
  - intros j h Hj [(<- & _)|[Hne Hh]]%list_lookup_insert_Some _; [lia|]. by apply H4.
  - cbn. by rewrite length_insert.
Qed.

Lemma shape_create t gs i :
  shape v (HCreate i) t gs ->
  shape v (HTid i (Z.of_nat (length gs) + 1)) t (gs ++ [Getter i GConnect [] false]).
Proof.
  intros [H1 H2 H3 H4 H5 H6 [Hi Hl]].
  assert (Hlk : forall k g, (gs ++ [Getter i GConnect [] false]) !! k = Some g ->
    gs !! k = Some g \/ (k = length gs /\ g = Getter i GConnect [] false)).
  { intros k g [?|[Hk Hg]]%lookup_app_Some; [by left|right].
    apply list_lookup_singleton_Some in Hg as [? <-]. split; [lia|done]. }
  split; rewrite ?length_app; cbn [length].
  - intros k g [?|[-> ->]]%Hlk; [eauto|done].
  - lia.
  - intros j f Hj. rewrite (H3 j f Hj). unfold flags_for.
    destruct (decide (j = length gs)) as [->|Hne].
    + rewrite (lookup_ge_None_2 gs), decide_True by (done || congruence).
      by rewrite lookup_app_r, Nat.sub_diag by lia.
    + destruct (gs !! j) as [g|] eqn:E.
      * rewrite (lookup_app_l_Some _ _ _ _ E).
        by rewrite !(bool_decide_eq_false_2 (_ = HMark j j)).
      * rewrite lookup_app_r by by apply lookup_ge_None.
        apply lookup_ge_None in E.
        destruct (j - length gs)%nat eqn:Ed; [lia|]. cbn. rewrite !decide_False; [done|done|congruence].
  - intros j f Hj Hf Hm. apply H4; [|done..]. destruct (decide (j = i)) as [->|]; [|lia].
    by destruct (Hm (Z.of_nat (length gs) + 1)).
  - intros k g [?|[-> ->]]%Hlk; [eauto|done].
  - intros k g [?|[-> ->]]%Hlk; [eauto|done].
  - cbn. rewrite length_app. cbn. lia.
Qed.

Lemma shape_settid t gs i x f :
  shape v (HTid i x) t gs -> t !! i = Some f -> shape v HCount (<[i := set_tid x f]> t) gs.
Proof.
  intros [H1 H2 H3 H4 H5 H6 [Hi ->]] Hf. split; rewrite ?length_insert; try done.
  - intros j h Hj. replace (flags_for v HCount j (gs !! j)) with
      (flags_for v (HTid i (Z.of_nat (length gs))) j (gs !! j)).
    + apply list_lookup_insert_Some in Hj as [(<- & <- & _)|[Hne Hj]]; [by apply (H3 i f)|auto].
    + unfold flags_for. destruct (gs !! j); [|by rewrite !decide_False].
      by rewrite !(bool_decide_eq_false_2 (_ = HMark j j)).
  - intros j h Hj [(<- & <- & _)|[Hne Hh]]%list_lookup_insert_Some _; [cbn; lia|].
    apply H4; [done..|]. intros y [= ? _]. by destruct Hne.
Qed.

Lemma shape_join t gs i g :
  shape v (HJoin i) t gs -> gs !! i = Some g -> g_joined g = false -> g_pc g = GReturned ->
  shape v (HMark i i) t (<[i := joined g]> gs).
Proof.
  intros [H1 H2 H3 H4 H5 H6 [-> Hex]] Hi Hj Hp.
  assert (Hlt : (i < length gs)%nat) by by eapply lookup_lt_Some.
  split; rewrite ?length_insert; try done.
  - intros k h [(<- & <- & _)|[_ ?]]%list_lookup_insert_Some; [cbn; eauto|eauto].
  - intros j f Hf. rewrite (H3 j f Hf). unfold flags_for. destruct (decide (i = j)) as [<-|Hne].
    + rewrite list_lookup_insert_eq, Hi by done. cbn [joined g_pc g_joined]. rewrite Hp, Hj.
      by rewrite (bool_decide_eq_true_2 (HMark i i = HMark i i)).
    + rewrite list_lookup_insert_ne by done. destruct (gs !! j) as [h|]; [|by rewrite !decide_False].
      rewrite !(bool_decide_eq_false_2 (_ = HMark j j)); [done|congruence|done].
  - intros j f Hl Hf _. by apply H4.
  - intros k h [(<- & <- & _)|[_ ?]]%list_lookup_insert_Some; [done|eauto].
  - cbn. split_and!; [done..|]. exists (joined g). by rewrite list_lookup_insert_eq.
Qed.

Lemma shape_mark t gs i f :
  shape v (HMark i i) t gs -> t !! i = Some f ->
  shape v (HTally i) (<[i := set_flags F_JOINED f]> t) gs.
Proof.
  intros [H1 H2 H3 H4 H5 H6 (-> & _ & g & Hg & Hj)] Hf. split; rewrite ?length_insert; try done.
  - intros j h [(<- & <- & _)|[Hne Hh]]%list_lookup_insert_Some.
    + unfold flags_for. rewrite Hg, (H5 i g Hg Hj), Hj. done.
    + rewrite (H3 j h Hh). unfold flags_for. destruct (gs !! j); [|by rewrite !decide_False].
      rewrite !(bool_decide_eq_false_2 (_ = HMark j j)); [done|done|congruence].
  - intros j h Hl [(<- & <- & _)|[Hne Hh]]%list_lookup_insert_Some _;
      [by apply (H4 i f)|by apply H4].
  - cbn. eauto.
Qed.

Lemma shape_joinany t gs k g :
  shape v HJoinAny t gs -> gs !! k = Some g -> g_pc g = GReturned -> g_joined g = false ->
  shape v HWhile t (<[k := joined g]> gs).
Proof.
  intros Hs. apply (shape_master HJoinAny HWhile) in Hs as Hs'; try done.
  pose proof (sh_master _ _ _ _ Hs) as Hm. cbn in Hm. clear Hs. rename Hs' into Hs.
  intros Hk Hp Hj. destruct Hs as [H1 H2 H3 H4 H5 H6 _].
  assert (Hlt : (k < length gs)%nat) by by eapply lookup_lt_Some.
  split; rewrite ?length_insert; try done.
  - intros i h [(<- & <- & _)|[_ ?]]%list_lookup_insert_Some; [cbn; eauto|eauto].
  - intros i f Hf. rewrite (H3 i f Hf). destruct (decide (k = i)) as [<-|Hne].
    + rewrite list_lookup_insert_eq, Hk by done. unfold flags_for. cbn [joined g_pc g_joined].
      rewrite (bool_decide_eq_false_2 (v = Web03)) by congruence.
      by rewrite !andb_false_r.
    + by rewrite list_lookup_insert_ne.
  - intros i h [(<- & <- & _)|[_ ?]]%list_lookup_insert_Some; [done|eauto].
  - intros i h [(<- & <- & _)|[_ ?]]%list_lookup_insert_Some; [cbn; by rewrite Hp|eauto].
Qed.

(** The thread that the main thread joins is that of the file. *)
Lemma join_target t gs i f :
  shape v (HJoin i) t gs -> t !! i = Some f ->
  Z.to_nat (tf_tid f - 1) = i /\ exists g, gs !! i = Some g /\ g_joined g = false /\ g_file g = i.
Proof.
  intros Hs Hf. destruct (sh_master _ _ _ _ Hs) as (_ & g & Hg & Hj & _).
  rewrite (sh_tid _ _ _ _ Hs i f); [|by eapply lookup_lt_Some|done|done].
  split; [lia|]. exists g. split_and!; try done. by eapply sh_file.
Qed.

(** A thread that is not joined, at a place before the end. *)
Lemma shape_unjoined m t gs k g :
  shape v m t gs -> gs !! k = Some g -> g_pc g <> GReturned -> g_joined g = false.
Proof.
  intros Hs Hk Hp. destruct (g_joined g) eqn:E; [|done]. by destruct Hp; eapply sh_joined.
Qed.

Lemma shape_flags_change m t gs k g f fl p :
  shape v m t gs -> gs !! k = Some g -> t !! g_file g = Some f -> g_joined g = false ->
  fl = flags_for v m k (Some (goto p g)) -> (v = Web01 -> plain_pc p) ->
  phase_of (g_pc g) <> PFinished ->
  shape v m (<[g_file g := set_flags fl f]> t) (<[k := goto p g]> gs).
Proof.
  intros Hs Hk Hf Hj Hfl Hp Hph. pose proof (sh_file _ _ _ _ Hs k g Hk) as Hfile.
  rewrite Hfile in *. apply (shape_getter m k g f); try done. cbn. by rewrite Hj.
Qed.

Lemma shaped_rule c c' : shaped c -> tallied c -> wrule v maxnconn c c' -> shaped c'.
Proof using Hv.
  unfold shaped, tallied. intros Hs Ht Hr.
  destruct Hr; cbn [master_at table getters t_nconn t_nlefttoconn t_nlefttoread ndone] in *;
    try exact Hs; pose proof (sh_master _ _ _ _ Hs) as Hm; cbn in Hm;
    try (by apply (shape_master _ _ Hs)).
  - apply (shape_master _ _ Hs); [done..|]. pose proof (ct_b _ _ _ _ _ _ _ _ _ Ht) as Hb. cbn in *. lia.
  - subst m. apply (shape_master _ _ Hs); [done|by destruct v|]. by destruct v.
  - apply (shape_master _ _ Hs); [done..|]. apply (shape_flag_zero _ _ _ i f Hs) in H0; try done. cbn. lia.
  - apply (shape_master _ _ Hs); [done..|].
    assert (~ (length gs <= i)%nat) by (by rewrite <- (shape_flag_zero _ _ _ i f Hs)). cbn. lia.
  - by eapply shape_flag_set.
  - by apply shape_create.
  - by eapply shape_settid.
  - by apply shape_joinany.
  - apply (shape_master _ _ Hs); try done; [by destruct H as [-> | ->]|]. destruct H as [-> | ->]; done.
  - apply (shape_master _ _ Hs); [done..|]. cbn. split; [done|].
    by apply (shape_flag_done (HScan i) t gs i f Hs).
  - destruct (join_target _ _ _ _ Hs H) as (Hk & g0 & Hg0 & _ & Hfile). rewrite H0, Hk in H1.
    rewrite Hg0 in H1. injection H1 as ->. rewrite Hfile, H0, Hk. by apply shape_join.
  - by eapply shape_mark.
  - apply (shape_master _ _ Hs); [done..|]. by destruct Hm.
  - destruct (local_keeps _ _ _ _ _ H1) as (Hfi & Hj & Hp & Hnf & Hpl & Hfl & Htid & _).
    pose proof (sh_file _ _ _ _ Hs k g H) as Hfile. rewrite Hfile in *.
    apply (shape_getter m k g f); try done.
    + rewrite Hfl, (sh_flags _ _ _ _ Hs k f H0), H. unfold flags_for. rewrite Hp.
      by destruct (phase_of (g_pc g)).
    + intros Hj'. rewrite Hj in Hj'. pose proof (sh_joined _ _ _ _ Hs k g H Hj') as E.
      by rewrite E in Hnf.
  - apply (shape_flags_change m t gs k g f); try done; [|by rewrite H1].
    eapply shape_unjoined; eauto. by rewrite H1.
  - assert (Hj : g_joined g = false) by (eapply shape_unjoined; eauto; by rewrite H1).
    apply (shape_flags_change m t gs k g f); try done; [| |by rewrite H1].
    + unfold flags_for. cbn [goto g_pc g_joined]. rewrite Hj, H2. by destruct v.
    + rewrite H2. by destruct v.
  - apply shape_goto; try done; [by rewrite H0| |eapply shape_unjoined; eauto; by rewrite H0].
    intros Hw. pose proof (sh_plain _ _ _ _ Hs k g H Hw) as E. by rewrite H0 in E.
  - apply shape_goto; try done; [by rewrite H0| |eapply shape_unjoined; eauto; by rewrite H0].
    intros Hw. pose proof (sh_plain _ _ _ _ Hs k g H Hw) as E. by rewrite H0 in E.
  - assert (Hg : shape v m t (<[k := goto GUnlock g]> gs)).
    { apply shape_goto; try done; [by rewrite H0| |eapply shape_unjoined; eauto; by rewrite H0].
      intros Hw. pose proof (sh_plain _ _ _ _ Hs k g H Hw) as E. by rewrite H0 in E. }
    subst m'. destruct m; try exact Hg. by apply (shape_master _ _ Hg).
  - apply shape_goto; try done; [by rewrite H0|]. eapply shape_unjoined; eauto. by rewrite H0.
Qed.

(** The counters. *)
Lemma tallied_rule c c' : shaped c -> tallied c -> wrule v maxnconn c c' -> tallied c'.
Proof using Hv.
  unfold shaped, tallied. intros Hs Ht Hr.
  destruct Hr; cbn [master_at table getters t_nconn t_nlefttoconn t_nlefttoread ndone] in *;
    rewrite ?length_insert; try exact Ht; pose proof Ht as [H1' H2' H3' H4' H5' H6' H7' H8' H9'];
    cbn in H6', H7', H8';
    try (by apply (counts_master _ _ _ _ _ _ _ _ _ _ Ht); try done; auto).
  - subst m. apply (counts_master _ _ _ _ _ _ _ _ _ _ Ht); try (by destruct v); auto.
  - split; rewrite ?length_app, ?cnt_snoc; cbn in *; try done; try lia.
    intros Hw. rewrite (H4' Hw). lia.
  - split; cbn in *; try done; lia.
  - split; rewrite ?length_insert, ?(cnt_insert _ _ _ _ _ H); cbn in *; rewrite ?H1; cbn in *; try done; try lia.
    intros ->. by pose proof (sh_master _ _ _ _ Hs).
  - apply (counts_master _ _ _ _ _ _ _ _ _ _ Ht); try (by destruct H as [-> | ->]);
      destruct H as [-> | ->]; auto.
  - split; rewrite ?length_insert, ?(cnt_insert _ _ _ _ _ H1); unfold done_by in *; cbn in *;
      rewrite ?H2, ?H3; cbn in *; try done; try lia.
    intros Hw. rewrite (H4' Hw). lia.
  - split; cbn in *; try done; try lia. intros Hw. rewrite (H4' Hw). lia.
  - destruct (local_keeps _ _ _ _ _ H1) as (_ & Hj & Hp & Hnf & _).
    eapply counts_getter; eauto.
    + intros _. unfold done_by. by destruct (g_pc g), (g_pc g').
    + intros E. by rewrite E in Hnf.
  - eapply counts_getter; eauto; [|by rewrite H1]. intros _. unfold done_by. cbn. by rewrite H1.
  - eapply counts_getter; eauto; [|by rewrite H1]. intros Hw. unfold done_by. cbn.
    rewrite H1, H2, Hw. done.
  - eapply counts_getter; eauto; [|by rewrite H0]. intros _. unfold done_by. cbn. by rewrite H0.
  - split; rewrite ?length_insert, ?(cnt_insert _ _ _ _ _ H); unfold done_by in *; cbn in *;
      rewrite ?H0; cbn in *; try done; try lia.
    + intros Hw. rewrite (H4' Hw). lia.
    + intros _ _. exists k, (goto GSignal g). split; [|done].
      apply list_lookup_insert_eq. by eapply lookup_lt_Some.
  - assert (Hm' : new_of m' = new_of m /\ half_of m' = half_of m /\ opening m' = opening m /\
      waiting m' = waiting m /\ left_over m' = left_over m /\ m' <> HAsleep)
      by (subst m'; by destruct m).
    destruct Hm' as (E1 & E2 & E3 & E4 & E5 & E6).
    split; rewrite ?length_insert, ?(cnt_insert _ _ _ _ _ H), ?E1, ?E2, ?E3, ?E4, ?E5;
      unfold done_by in *; cbn in *; rewrite ?H0; cbn in *; try done; try lia.
    intros Hw. rewrite (H4' Hw). lia.
  - eapply counts_getter; eauto; [|by rewrite H0]. intros _. unfold done_by. cbn. by rewrite H0.
Qed.
End Preserved.

(** * Mutual exclusion *)

Record guarded (m : master_pc) (gs : list getter) (mx : option holder) : Prop := {
  gd_master : mx = Some Master <-> master_holds m = true;
  gd_getter : forall k g, gs !! k = Some g -> (mx = Some (Getting k) <-> getter_holds (g_pc g) = true);
  gd_owner : forall k, mx = Some (Getting k) -> is_Some (gs !! k);
}.

(** The main thread keeps, takes or gives back the mutex. *)
Lemma guarded_master m m' gs mx mx' :
  guarded m gs mx ->
  (mx' = mx /\ master_holds m' = master_holds m) \/
  (mx = None /\ mx' = Some Master /\ master_holds m' = true) \/
  (master_holds m = true /\ mx' = None /\ master_holds m' = false) ->
  guarded m' gs mx'.
Proof.
  intros [Hm Hw Ho] [(-> & He)|[(-> & -> & He)|(Hh & -> & He)]]; split; rewrite ?He; try done.
  - intros k g Hk. specialize (Hw k g Hk). split; [congruence|]. intros ?%Hw. congruence.
  - apply Hm in Hh. subst mx. intros k g Hk. specialize (Hw k g Hk).
    split; [done|]. intros ?%Hw. congruence.
Qed.

(** Another thread does. *)
Lemma guarded_getter m gs mx k g g' mx' :
  guarded m gs mx -> gs !! k = Some g ->
  (mx' = mx /\ getter_holds (g_pc g') = getter_holds (g_pc g)) \/
  (mx = None /\ mx' = Some (Getting k) /\ getter_holds (g_pc g') = true) \/
  (getter_holds (g_pc g) = true /\ mx' = None /\ getter_holds (g_pc g') = false) ->
  guarded m (<[k := g']> gs) mx'.
Proof.
  intros [Hm Hw Ho] Hk Hcase.
  assert (Hlt : (k < length gs)%nat) by by eapply lookup_lt_Some.
  pose proof (Hw k g Hk) as Hwk. split.
  - destruct Hcase as [(-> & _)|[(-> & -> & _)|(Hh & -> & _)]]; [done|..].
    + split; [done|]. intros ?%Hm. congruence.
    + apply Hwk in Hh. subst mx. split; [done|]. intros ?%Hm. congruence.
  - intros j h [(<- & <- & _)|[Hj Hv]]%list_lookup_insert_Some.
    + destruct Hcase as [(-> & ->)|[(-> & -> & ->)|(Hh & -> & ->)]]; done.
    + specialize (Hw j h Hv). destruct Hcase as [(-> & _)|[(-> & -> & _)|(Hh & -> & _)]]; [done|..].
      * split; [congruence|]. intros ?%Hw. congruence.
      * apply Hwk in Hh. subst mx. split; [done|]. intros ?%Hw. congruence.
  - intros j Hj. apply lookup_lt_is_Some. rewrite length_insert.
    destruct Hcase as [(-> & _)|[(-> & -> & _)|(Hh & -> & _)]];
      [by apply lookup_lt_is_Some, Ho|congruence..].
Qed.

(** A thread that is new, or joined. *)
Lemma guarded_create m m' gs mx i :
  guarded m gs mx -> master_holds m' = master_holds m ->
  guarded m' (gs ++ [Getter i GConnect [] false]) mx.
Proof.
  intros [Hm Hw Ho] He. split; rewrite ?He; try done.
  - intros k g [Hk|[Hk Hg]]%lookup_app_Some; [by apply Hw|].
    apply list_lookup_singleton_Some in Hg as [? <-]. cbn. split; [|done]. intros Hmx.
    apply Ho, lookup_lt_is_Some in Hmx. lia.
  - intros k Hk. destruct (Ho k Hk) as [g Hg]. exists g. by apply lookup_app_l_Some.
Qed.

Definition guarded_c (c : wconfig) : Prop := guarded (master_at c) (getters c) (ndone_mutex c).

Lemma guarded_rule v maxnconn c c' : guarded_c c -> wrule v maxnconn c c' -> guarded_c c'.
Proof.
  unfold guarded_c. intros Hg Hr.
  destruct Hr; cbn [master_at table getters ndone_mutex] in *; try exact Hg;
    try (by apply (guarded_master _ _ _ _ _ Hg); auto).
  - apply (guarded_master _ _ _ _ _ Hg). left. split; [done|]. subst m. by destruct v.
  - by apply (guarded_create _ _ _ _ _ Hg).
  - apply (guarded_master HJoinAny HWhile _ mx mx); [|by left].
    apply (guarded_getter HJoinAny gs mx k g (joined g) mx); auto.
  - apply (guarded_master (HJoin i) _ _ mx mx); [|by left].
    apply (guarded_getter (HJoin i) gs mx k g (joined g) mx); auto.
  - eapply guarded_getter; eauto. left. split; [done|].
    destruct (local_keeps _ _ _ _ _ H1) as (_ & _ & Hp & Hnf & _). by destruct (g_pc g), (g_pc g').
  - eapply guarded_getter; eauto. left. cbn. by rewrite H1.
  - eapply guarded_getter; eauto. left. cbn. rewrite H1, H2. by destruct v.
  - eapply guarded_getter; eauto.
  - eapply guarded_getter; eauto. left. cbn. by rewrite H0.
  - assert (Hg' : guarded m (<[k := goto GUnlock g]> gs) mx)
      by (eapply guarded_getter; eauto; left; cbn; by rewrite H0).
    eapply guarded_master; [exact Hg'|]. left. split; [done|]. subst m'. by destruct m.
  - eapply guarded_getter; eauto. right. right. cbn. by rewrite H0.
Qed.

(** * What a thread has done *)

(** Everything after the report: the command, the replies, the end. *)
Definition spoken (v : program) (f : tfile) (p : getter_pc) (l : list io) : Prop :=
  let fd := tf_fd f in
  match p with
  | GConnect => l = []
  | GPrint => l = [Connected fd]
  | GWrite => exists x, l = [Connected fd; Reported x]
  | GReading =>
      exists x text, web_command v (tf_name f) = Some text /\
        l = [Connected fd; Reported x; Sent fd text]
  | _ =>
      exists x text ds, web_command v (tf_name f) = Some text /\ Forall (fun d => d <> []) ds /\
        l = [Connected fd; Reported x; Sent fd text] ++ (Got fd <$> ds) ++
            match p with GRead => [] | GClose => [Eof fd] | _ => [Eof fd; Shut fd] end
  end.

Definition all_spoken (v : program) (c : wconfig) : Prop :=
  forall k g f, getters c !! k = Some g -> table c !! k = Some f -> spoken v f (g_pc g) (g_io g).

Lemma spoken_local v f g f' g' :
  local v f g f' g' -> spoken v f (g_pc g) (g_io g) -> spoken v f' (g_pc g') (g_io g').
Proof.
  intros [fd Hp|Hp|text Hp Ht|data Hp Hd|Hp|Hp]; rewrite Hp; cbn [goto did g_pc g_io set_fd tf_fd tf_name].
  - by intros ->.
  - intros ->. by eexists.
  - intros (x & ->). by exists x, text.
  - rewrite Hp. intros (x & t & ds & Ht & Hds & ->). exists x, t, (ds ++ [data]). split_and!; [done| |].
    + apply Forall_app. by split; [|constructor].
    + by rewrite fmap_app, !app_nil_r, <- !app_assoc.
  - intros (x & t & ds & Ht & Hds & ->). exists x, t, ds. split_and!; [done..|].
    by rewrite app_nil_r, <- !app_assoc.
  - intros (x & t & ds & Ht & Hds & ->). exists x, t, ds. split_and!; [done..|].
    by rewrite <- !app_assoc.
Qed.

(** The fields a thread's history depends on. *)
Definition same_io (f f' : tfile) : Prop := tf_fd f' = tf_fd f /\ tf_name f' = tf_name f.

Lemma spoken_same v f f' p l : same_io f f' -> spoken v f p l -> spoken v f' p l.
Proof. intros [Hf Hn]. unfold spoken. by rewrite Hf, Hn. Qed.

(** A thread that goes on without using its connection. *)
Definition goes_on (p p' : getter_pc) : bool :=
  match p, p' with
  | GReading, GRead | GDone, GLock | GDone, GReturned | GLock, GIncr | GIncr, GSignal
  | GSignal, GUnlock | GUnlock, GReturned => true
  | _, _ => false
  end.

Lemma spoken_goes_on v f p p' l : goes_on p p' = true -> spoken v f p l -> spoken v f p' l.
Proof.
  destruct p, p'; try done. cbn. intros _ (x & text & Ht & ->). exists x, text, [].
  split_and!; [done|constructor|done].
Qed.

Definition all_spoken_in (v : program) (t : list tfile) (gs : list getter) : Prop :=
  forall k g f, gs !! k = Some g -> t !! k = Some f -> spoken v f (g_pc g) (g_io g).

Lemma all_spoken_file v t gs i f f' :
  all_spoken_in v t gs -> t !! i = Some f -> same_io f f' -> all_spoken_in v (<[i := f']> t) gs.
Proof.
  intros Ha Hi Hs k g h Hk [(<- & <- & _)|[_ ?]]%list_lookup_insert_Some; [|eauto].
  eapply spoken_same; eauto.
Qed.

Lemma all_spoken_getter v t gs k g g' :
  all_spoken_in v t gs -> gs !! k = Some g ->
  (forall f, t !! k = Some f -> spoken v f (g_pc g) (g_io g) -> spoken v f (g_pc g') (g_io g')) ->
  all_spoken_in v t (<[k := g']> gs).
Proof.
  intros Ha Hk Hg j h f [(<- & <- & _)|[_ ?]]%list_lookup_insert_Some Hf; eauto.
Qed.

Lemma all_spoken_goto v t gs k g p :
  all_spoken_in v t gs -> gs !! k = Some g -> goes_on (g_pc g) p = true ->
  all_spoken_in v t (<[k := goto p g]> gs).
Proof.
  intros Ha Hk Hp. apply (all_spoken_getter v t gs k g); [done..|]. intros f _.
  by apply spoken_goes_on.
Qed.

Lemma all_spoken_rule v maxnconn c c' :
  shaped v c -> all_spoken v c -> wrule v maxnconn c c' -> all_spoken v c'.
Proof.
  unfold shaped, all_spoken. fold (all_spoken_in v (table c) (getters c)).
  fold (all_spoken_in v (table c') (getters c')). intros Hs Ha Hr.
  destruct Hr; cbn [master_at table getters] in *; try exact Ha;
    try (by eapply all_spoken_file; eauto).
  - intros k g f [Hk|[Hk Hg]]%lookup_app_Some Hf; [eauto|].
    by apply list_lookup_singleton_Some in Hg as [_ <-].
  - by eapply all_spoken_getter; eauto.
  - by eapply all_spoken_getter; eauto.
  - pose proof (sh_file _ _ _ _ Hs k g H) as Hfile. rewrite Hfile in *.
    intros j h f0 [(<- & <- & _)|[? ?]]%list_lookup_insert_Some;
      (intros [(E1 & <- & _)|[? ?]]%list_lookup_insert_Some; [|eauto]); subst; try done.
    + eapply spoken_local; eauto.
  - eapply (all_spoken_goto v _ gs k g); try done; [|by rewrite H1].
    by eapply all_spoken_file; eauto.
  - eapply (all_spoken_goto v _ gs k g); try done.
    + by eapply all_spoken_file; eauto.
    + rewrite H1, H2. by destruct v.
  - by apply all_spoken_goto; [..|rewrite H0].
  - by apply all_spoken_goto; [..|rewrite H0].
  - by apply all_spoken_goto; [..|rewrite H0].
  - by apply all_spoken_goto; [..|rewrite H0].
Qed.

(** * The invariant *)

Definition file_names (c : wconfig) : list cstring := tf_name <$> table c.

Section Invariant.
Context (v : program) (maxnconn : Z) (page : cstring) (Hv : v <> Web02).

Record winv (c : wconfig) : Prop := {
  wi_shape : shaped v c;
  wi_counts : tallied v maxnconn c;
  wi_guard : guarded_c c;
  wi_io : all_spoken v c;
  wi_fail : 0 < maxnconn -> ending_of c <> Some Failed;
  wi_finished : ending_of c = Some Finished -> master_at c = HWhile /\ t_nlefttoread c <= 0;
}.

(** The messages about an inconsistent state are never printed. *)
Lemma no_failure c c' :
  winv c -> 0 < maxnconn -> wrule v maxnconn c c' -> ending_of c' <> Some Failed.
Proof using Hv.
  intros [Hs Ht _ _ Hf _] Hmax Hr. specialize (Hf Hmax). unfold shaped, tallied in *.
  destruct Hr; cbn [master_at table getters ending_of t_nconn t_nlefttoconn t_nlefttoread ndone] in *;
    try done; pose proof (sh_master _ _ _ _ Hs) as Hm; cbn in Hm.
  - by destruct H as [-> | ->].
  - apply lookup_ge_None in H. lia.
  - destruct Ht as [Hb Ha Hd _ _ _ Hw Hl _]. cbn in *. apply cnt_all in H.
    specialize (Hw eq_refl). specialize (Hl eq_refl). lia.
  - destruct (join_target v _ _ _ _ Hs H) as (Hk & g0 & Hg0 & Hj & _). rewrite H0, Hk in H1.
    destruct H1 as [H1|(g & H1 & Hj')]; [congruence|]. rewrite Hg0 in H1. injection H1 as ->. congruence.
  - by destruct Hm as (_ & -> & _).
Qed.

Lemma winv_rule c c' : winv c -> wrule v maxnconn c c' -> winv c'.
Proof using Hv.
  intros Hi Hr. pose proof Hi as [Hs Ht Hg Ha Hf Hfin]. split.
  - by eapply shaped_rule.
  - by eapply tallied_rule.
  - by eapply guarded_rule.
  - by eapply all_spoken_rule.
  - intros Hmax. by eapply no_failure.
  - destruct Hr; cbn [ending_of master_at t_nlefttoread] in *; try done. by destruct H as [-> | ->].
Qed.

Lemma winv_start host names : winv (wstart host names).
Proof using Hv.
  unfold wstart. set (t := web_table host names).
  assert (Hz : forall i f, t !! i = Some f -> tf_flags f = 0).
  { intros i f. unfold t, web_table. rewrite list_lookup_fmap.
    destruct (take _ names !! i); cbn; [|done]. by intros [= <-]. }
  split; unfold shaped, tallied, guarded_c, all_spoken; cbn; try done.
  - split; cbn; try done; lia.
  - split; cbn; try done; lia.
Qed.

Lemma winv_reachable host names c :
  rtc (wstep v maxnconn page) (wstart host names) c -> winv c.
Proof using Hv.
  intros Hr. remember (wstart host names) as c0 eqn:E.
  assert (H0 : winv c0) by (subst; apply winv_start). clear E.
  induction Hr as [|c0 c1 c2 [m Hm] _ IH]; [done|]. apply IH.
  eapply winv_rule; [done|]. by eapply wfire_wrule.
Qed.

(** The names stay what they are. *)
Lemma names_rule c c' : wrule v maxnconn c c' -> file_names c' = file_names c.
Proof.
  unfold file_names. intros Hr. destruct Hr; cbn [table]; try done;
    rewrite list_fmap_insert; apply list_insert_id; rewrite list_lookup_fmap.
  all: try by rewrite H.
  all: rewrite H0; cbn; try done.
  f_equal. symmetry. eapply local_keeps; eauto.
Qed.
End Invariant.
