(* ===== verification/ThreadWebClaims.v ===== *)
(** What the threaded web clients guarantee under every interleaving: each file is fetched by one
    thread, and the client can finish unless it is caught in one deadlock, which is described
    exactly. *)

From S2P Require Import Prelude CText Sys Packet Gai WebClient ThreadWeb ThreadWebFacts.

(** * The deadlock

    The main thread looks through the flags with the mutex in its hands, from position [i] on; a
    thread behind has set its flag and still has to lock the mutex to count itself.  The main
    thread will wait for that thread to end. *)
Definition ahead (m : master_pc) (n : Z) : option nat :=
  match m with
  | HTest => if n =? 0 then None else Some 0%nat
  | HScan i | HJoin i => Some i
  | HMark i _ | HTally i => Some (S i)
  | _ => None
  end.

Definition doomed (c : wconfig) : Prop :=
  exists i j g, ahead (master_at c) (ndone c) = Some i /\ (i <= j)%nat /\
    getters c !! j = Some g /\ g_pc g = GLock.

Section Doomed.
Context (v : program) (maxnconn : Z) (page : cstring) (Hv : v <> Web02).

Lemma ahead_holds m n i : ahead m n = Some i -> master_holds m = true.
Proof. by destruct m. Qed.

(** While the main thread has the mutex no other thread is between lock and unlock. *)
Lemma master_alone c k g :
  winv v maxnconn c -> master_holds (master_at c) = true -> getters c !! k = Some g ->
  ndone_mutex c = Some Master /\ getter_holds (g_pc g) = false.
Proof.
  intros Hi Hm Hk. destruct (wi_guard _ _ _ Hi) as [H1 H2 _].
  assert (Hx : ndone_mutex c = Some Master) by by apply H1. split; [done|].
  destruct (getter_holds _) eqn:E; [|done]. apply (H2 k g Hk) in E. congruence.
Qed.

(** A deadlock stays one. *)
Lemma doomed_rule c c' :
  winv v maxnconn c -> doomed c -> wrule v maxnconn c c' ->
  doomed c' \/ (exists e, ending_of c' = Some e /\ e <> Finished).
Proof using Hv.
  intros Hi (i & j & g & Ha & Hij & Hj & Hp) Hr.
  pose proof (ahead_holds _ _ _ Ha) as Hm.
  assert (Halone := fun k h => master_alone c k h Hi Hm).
  destruct (Halone j g Hj) as [Hx _].
  pose proof (wi_shape _ _ _ Hi) as Hs. unfold shaped in Hs.
  assert (Hkeep : forall k h h', getters c !! k = Some h -> g_pc h <> GLock ->
            <[k := h']> (getters c) !! j = Some g).
  { intros k h h' Hk Hne. rewrite list_lookup_insert_ne; [done|]. intros ->. congruence. }
  destruct Hr; cbn [master_at table getters ndone ndone_mutex ending_of] in *; try discriminate Ha;
    try (right; eexists; split; [reflexivity|done]).
  - right. exists e. split; [done|]. by destruct H as [-> | ->].
  - by destruct H as [-> | ->].
  - destruct (Z.eqb_spec n 0); [done|]. left. exists 0%nat, j, g. by split_and!; [| lia | |].
  - injection Ha as <-. left. by exists i0, j, g.
  - injection Ha as <-. left. exists (S i0), j, g. split_and!; try done.
    assert (i0 <> j); [|lia]. intros ->.
    pose proof (sh_master _ _ _ _ Hs) as Hw. cbn in Hw.
    assert (has_flag (tf_flags f) F_DONE = true); [|congruence].
    apply (shape_flag_done v Hv (HScan j) t gs j f Hs); try done. exists g. rewrite Hp.
    split_and!; try done. eapply shape_unjoined; eauto. by rewrite Hp.
  - injection Ha as <-. apply lookup_ge_None in H. apply lookup_lt_Some in Hj.
    pose proof (sh_len _ _ _ _ Hs). lia.
  - injection Ha as <-. left. exists (S i0), j, g. split_and!; try done.
    + assert (i0 <> j); [|lia]. intros ->.
      destruct (join_target v _ _ _ _ Hs H) as (Hk & _). rewrite H0, Hk in H1. congruence.
    + apply (Hkeep k g0); [done|]. by rewrite H3.
  - injection Ha as <-. left. by exists (S i0), j, g.
  - injection Ha as <-. left. by exists (S i0), j, g.
  - left. exists i, j, g. split_and!; try done. apply (Hkeep k g0); [done|].
    destruct (local_keeps _ _ _ _ _ H1) as (_ & _ & _ & Hnf & _). intros E. by rewrite E in Hnf.
  - left. exists i, j, g. split_and!; try done. apply (Hkeep k g0); [done|]. by rewrite H1.
  - left. exists i, j, g. split_and!; try done. apply (Hkeep k g0); [done|]. by rewrite H1.
  - destruct (Halone k g0 H) as [_ Hh]. by rewrite H0 in Hh.
  - destruct (Halone k g0 H) as [_ Hh]. by rewrite H0 in Hh.
  - destruct (Halone k g0 H) as [_ Hh]. by rewrite H0 in Hh.
  - destruct (Halone k g0 H) as [_ Hh]. by rewrite H0 in Hh.
Qed.

(** From it the client never finishes. *)
Lemma doomed_forever c c' :
  winv v maxnconn c -> doomed c -> rtc (wstep v maxnconn page) c c' -> ending_of c' <> Some Finished.
Proof using Hv.
  intros Hi Hd Hr.
  assert (Hend : forall x y, (exists e, ending_of x = Some e /\ e <> Finished) ->
            rtc (wstep v maxnconn page) x y -> ending_of y <> Some Finished).
  { intros x y (e & He & Hne) Hxy. inversion Hxy as [|? z ? [m Hm] _]; subst; [congruence|].
    unfold wfire in Hm. by rewrite He in Hm. }
  induction Hr as [c|c c1 c2 [m Hm] Hr IH].
  - intros E. destruct (wi_finished _ _ _ Hi E) as [Hw _]. destruct Hd as (i & j & g & Ha & _).
    by rewrite Hw in Ha.
  - apply wfire_wrule in Hm; [|done].
    destruct (doomed_rule c c1 Hi Hd Hm) as [Hd'|He]; [|by apply (Hend c1)].
    apply IH; [by eapply winv_rule|done].
Qed.
End Doomed.

(** * Finishing *)

Section Finishing.
Context (v : program) (maxnconn : Z) (page : cstring) (Hv : v <> Web02) (Hmax : 0 < maxnconn).

(** There is a schedule, without wake-ups that nobody sent, that ends the process by [exit (0)]. *)
Definition finishes (c : wconfig) : Prop :=
  exists ms c', Forall (fun m => m <> SpuriousM) ms /\ wrun v maxnconn page ms c = Some c' /\
    ending_of c' = Some Finished.

Lemma finishes_step m c c' :
  m <> SpuriousM -> wfire v maxnconn page m c = Some c' -> finishes c' -> finishes c.
Proof.
  intros Hm Hf (ms & c2 & Hms & Hr & He). exists (m :: ms), c2. split_and!; [by constructor| |done].
  unfold wrun in *. cbn. by rewrite Hf.
Qed.

(** The commands fit in the buffer. *)
Definition names_fit (c : wconfig) : Prop :=
  Forall (fun name => web_command v name <> None) (file_names c).

Record good (c : wconfig) : Prop := {
  gd_inv : winv v maxnconn c;
  gd_names : names_fit c;
  gd_runs : ending_of c = None;
}.

Lemma good_step m c c' :
  good c -> wfire v maxnconn page m c = Some c' -> ending_of c' = None -> good c'.
Proof using Hv.
  intros [Hi Hn _] Hf He. apply wfire_wrule in Hf; [|done]. split; [by eapply winv_rule| |done].
  unfold names_fit. by rewrite (names_rule v maxnconn c c').
Qed.

(** ** The other threads can run to their end *)

Definition weight (p : getter_pc) : nat :=
  match p with
  | GConnect => 11 | GPrint => 10 | GWrite => 9 | GReading => 8 | GRead => 7 | GClose => 6
  | GDone => 5 | GLock => 4 | GIncr => 3 | GSignal => 2 | GUnlock => 1 | GReturned => 0
  end.

Definition total (gs : list getter) : nat := sum_list_with (fun g => weight (g_pc g)) gs.

Lemma getter_total_insert gs k g g' :
  gs !! k = Some g -> (total (<[k := g']> gs) + weight (g_pc g) = total gs + weight (g_pc g'))%nat.
Proof.
  intros Hk. pose proof (lookup_lt_Some _ _ _ Hk). unfold total.
  rewrite insert_take_drop by done. rewrite <- (take_drop_middle gs k g Hk) at 3.
  rewrite !sum_list_with_app. cbn. lia.
Qed.

Lemma total_zero gs : total gs = 0%nat -> forall k g, gs !! k = Some g -> g_pc g = GReturned.
Proof.
  induction gs as [|h gs IH]; intros H [|k] g Hk; try done; cbn in *.
  - injection Hk as <-. destruct (g_pc h); cbn in H; try lia. done.
  - apply (IH ltac:(unfold total; lia) k g Hk).
Qed.

Lemma total_pos gs : total gs <> 0%nat -> exists k g, gs !! k = Some g /\ g_pc g <> GReturned.
Proof.
  induction gs as [|h gs IH]; intros H; [done|]. destruct (decide (weight (g_pc h) = 0%nat)) as [E|E].
  - destruct IH as (k & g & ? & ?); [unfold total in *; cbn in H; lia|]. by exists (S k), g.
  - exists 0%nat, h. split; [done|]. intros E'. by rewrite E' in E.
Qed.

(** What the other threads do to the main thread. *)
Definition woken (m m' : master_pc) : Prop := m' = m \/ (m = HAsleep /\ m' = HWoken).

Ltac fire_by Hk Hfile Hf Ep :=
  unfold wfire, getter_move, connect_move, read_move, take_mutex, on_file, on_getter; cbn;
  repeat (first [rewrite Hk | rewrite Hfile | rewrite Hf | rewrite Ep]; cbn); try reflexivity.

Lemma getter_advances c k g :
  good c -> getters c !! k = Some g -> g_pc g <> GReturned ->
  (g_pc g = GLock -> ndone_mutex c = None) ->
  exists mv c', mv <> SpuriousM /\ wfire v maxnconn page mv c = Some c' /\ ending_of c' = None /\
    (total (getters c') < total (getters c))%nat /\ woken (master_at c) (master_at c') /\
    t_nlefttoread c' = t_nlefttoread c.
Proof using Hv.
  intros [Hi Hn He] Hk Hp Hl. destruct (shape_lookup _ _ _ (wi_shape _ _ _ Hi) Hk) as (f & Hf & Hfile).
  assert (Hw : web_command v (tf_name f) <> None).
  { apply (proj1 (Forall_lookup _ _) Hn k). unfold file_names. by rewrite list_lookup_fmap, Hf. }
  destruct c as [m t gs a b d n mx e]. cbn in He, Hk, Hf, Hl. subst e.
  pose proof (fun g' => getter_total_insert gs k g g' Hk) as Htot. cbn [getters master_at t_nlefttoread].
  assert (Hgo : forall mv m' t' g' n' mx', mv <> SpuriousM ->
    wfire v maxnconn page mv (WConfig m t gs a b d n mx None)
      = Some (WConfig m' t' (<[k := g']> gs) a b d n' mx' None) ->
    (weight (g_pc g') < weight (g_pc g))%nat -> woken m m' ->
    exists mv c', mv <> SpuriousM /\ wfire v maxnconn page mv (WConfig m t gs a b d n mx None) = Some c' /\
      ending_of c' = None /\ (total (getters c') < total gs)%nat /\ woken m (master_at c') /\
      t_nlefttoread c' = d).
  { intros mv m' t' g' n' mx' Hm Hfire Hlt Hwk. exists mv. eexists. split_and!; [done|exact Hfire|..]; try done.
    cbn [getters]. specialize (Htot g'). lia. }
  destruct (g_pc g) eqn:Ep; try done; cbn [weight] in Hgo.
  - apply (Hgo (ConnectM k 0) m (<[k := set_fd 0 f]> t) (goto GPrint (did (Connected 0) g)) n mx);
      [done| |cbn; lia|by left].
    fire_by Hk Hfile Hf Ep.
  - apply (Hgo (GetterM k) m t (goto GWrite (did (Reported (tf_tid f)) g)) n mx); [done| |cbn; lia|by left].
    fire_by Hk Hfile Hf Ep.
  - destruct (web_command v (tf_name f)) as [text|] eqn:Et; [|done].
    apply (Hgo (GetterM k) m t (goto GReading (did (Sent (tf_fd f) text) g)) n mx); [done| |cbn; lia|by left].
    fire_by Hk Hfile Hf Ep. by rewrite Et.
  - apply (Hgo (GetterM k) m (<[k := set_flags F_READING f]> t) (goto GRead g) n mx); [done| |cbn; lia|by left].
    fire_by Hk Hfile Hf Ep.
  - apply (Hgo (ReadM k []) m t (goto GClose (did (Eof (tf_fd f)) g)) n mx); [done| |cbn; lia|by left].
    fire_by Hk Hfile Hf Ep.
  - apply (Hgo (GetterM k) m t (goto GDone (did (Shut (tf_fd f)) g)) n mx); [done| |cbn; lia|by left].
    fire_by Hk Hfile Hf Ep.
  - apply (Hgo (GetterM k) m (<[k := set_flags F_DONE f]> t)
             (goto (match v with Web01 => GReturned | _ => GLock end) g) n mx);
      [done| |destruct v; cbn; lia|by left].
    fire_by Hk Hfile Hf Ep.
  - rewrite (Hl eq_refl) in *. apply (Hgo (GetterM k) m t (goto GIncr g) n (Some (Getting k)));
      [done| |cbn; lia|by left].
    fire_by Hk Hfile Hf Ep.
  - apply (Hgo (GetterM k) m t (goto GSignal g) (n + 1) mx); [done| |cbn; lia|by left].
    fire_by Hk Hfile Hf Ep. by destruct v.
  - apply (Hgo (GetterM k) (match m with HAsleep => HWoken | _ => m end) t (goto GUnlock g) n mx);
      [done| |cbn; lia|destruct m; (by left) || by right].
    destruct m; fire_by Hk Hfile Hf Ep.
  - apply (Hgo (GetterM k) m t (goto GReturned g) n None); [done| |cbn; lia|by left].
    fire_by Hk Hfile Hf Ep.
Qed.

Lemma woken_trans m m' m'' : woken m m' -> woken m' m'' -> woken m m''.
Proof. intros [-> |[-> ->]] [-> |[? ->]]; try done; unfold woken; auto. Qed.

Lemma woken_holds m m' : woken m m' -> master_holds m' = master_holds m.
Proof. by intros [-> |[-> ->]]. Qed.

Definition all_returned (c : wconfig) : Prop :=
  forall k g, getters c !! k = Some g -> g_pc g = GReturned.

(** With the main thread outside the mutex, all others run to their end. *)
Lemma drain c :
  good c -> master_holds (master_at c) = false ->
  (forall c', good c' -> all_returned c' -> ndone_mutex c' = None ->
     woken (master_at c) (master_at c') -> t_nlefttoread c' = t_nlefttoread c -> finishes c') ->
  finishes c.
Proof using Hv.
  remember (total (getters c)) as w eqn:Ew. revert c Ew.
  induction w as [w IH] using lt_wf_ind. intros c -> Hg Hm K.
  destruct (wi_guard _ _ _ (gd_inv _ Hg)) as [Gm Gg Go].
  assert (Hadv : forall k g, getters c !! k = Some g -> g_pc g <> GReturned ->
            (g_pc g = GLock -> ndone_mutex c = None) -> finishes c).
  { intros k g Hk Hp Hl.
    destruct (getter_advances c k g Hg Hk Hp Hl) as (mv & c1 & Hmv & Hf & He & Ht & Hw & Hd).
    eapply finishes_step; [exact Hmv|exact Hf|].
    apply (IH (total (getters c1)) Ht c1 eq_refl); [by eapply good_step|by rewrite (woken_holds _ _ Hw)|].
    intros c' Hg' Hr Hx Hw' Hd'. apply K; try done; [by eapply woken_trans|congruence]. }
  destruct (ndone_mutex c) as [[|k]|] eqn:Ex.
  - by rewrite (proj1 Gm eq_refl) in Hm.
  - destruct (Go k eq_refl) as [g Hk]. pose proof (proj1 (Gg k g Hk) eq_refl) as Hh.
    apply (Hadv k g Hk); intros E; by rewrite E in Hh.
  - destruct (decide (total (getters c) = 0%nat)) as [Hz|Hz].
    + apply K; try done; [|by left]. intros k g. by apply total_zero.
    + destruct (total_pos _ Hz) as (k & g & Hk & Hp). by apply (Hadv k g Hk).
Qed.

(** ** The main thread looks through the flags *)

Lemma master_step c c' :
  good c -> wfire v maxnconn page MasterM c = Some c' -> ending_of c' = None ->
  (good c' -> finishes c') -> finishes c.
Proof using Hv.
  intros Hg Hf He K. eapply finishes_step; [|exact Hf|]; [done|]. apply K. by eapply good_step.
Qed.

(** A thread that has finished and is not in the way. *)
Lemma finished_returned c i j g :
  good c -> ahead (master_at c) (ndone c) = Some i -> ~ doomed c -> (i <= j)%nat ->
  getters c !! j = Some g -> phase_of (g_pc g) = PFinished -> g_pc g = GReturned.
Proof.
  intros Hg Ha Hnd Hij Hj Hp. apply ahead_holds in Ha as Hm.
  destruct (master_alone v maxnconn c j g (gd_inv _ Hg) Hm Hj) as [_ Hh].
  destruct (g_pc g) eqn:E; try done. destruct Hnd. by exists i, j, g.
Qed.

(** Joining a thread takes four statements. *)
Lemma scan_hit c i f :
  good c -> master_at c = HScan i -> ~ doomed c -> table c !! i = Some f ->
  has_flag (tf_flags f) F_DONE = true ->
  (forall c', good c' -> master_at c' = HScan (S i) -> ~ doomed c' ->
     length (table c') = length (table c) -> t_nlefttoread c' = t_nlefttoread c - 1 -> finishes c') ->
  finishes c.
Proof using Hv.
  intros Hg Hm Hnd Hf Hfl K. pose proof Hg as [Hi Hn He].
  destruct c as [m t gs a b d n mx e]. cbn in Hm, He, Hf. subst m e.
  pose proof (wi_shape _ _ _ Hi) as Hs. unfold shaped in Hs. cbn in Hs.
  pose proof (sh_master _ _ _ _ Hs) as Hw. cbn in Hw.
  pose proof (proj1 (shape_flag_done v Hv _ _ _ _ _ Hs Hf eq_refl Hw) Hfl) as (g & Hgi & Hj & Hp).
  assert (Hpc : g_pc g = GReturned) by by eapply (finished_returned _ i i g Hg).
  eapply (master_step _ (WConfig (HJoin i) t gs a b d n mx None)); [done| |done|].
  { unfold wfire, master_move. cbn. by rewrite Hf, Hfl. }
  intros Hg1. pose proof (wi_shape _ _ _ (gd_inv _ Hg1)) as Hs1. unfold shaped in Hs1. cbn in Hs1.
  destruct (join_target v _ _ _ _ Hs1 Hf) as (Hk & g0 & Hg0 & _ & Hfile).
  rewrite Hgi in Hg0. injection Hg0 as <-.
  eapply (master_step _ (WConfig (HMark i i) t (<[i := joined g]> gs) a b d n mx None)); [done| |done|].
  { unfold wfire, master_move, on_getter. cbn. rewrite Hf. cbn. rewrite Hk, Hgi. cbn.
    by rewrite Hj, Hpc, Hfile. }
  intros Hg2.
  eapply (master_step _ (WConfig (HTally i) (<[i := set_flags F_JOINED f]> t) (<[i := joined g]> gs) a b d n mx None));
    [done| |done|].
  { unfold wfire, master_move, on_file. cbn. by rewrite Nat.eqb_refl, Hf. }
  intros Hg3. eapply master_step; [done|reflexivity|done|]. intros Hg4. apply K; cbn; try done.
  - intros (i' & j & h & Ha & Hij & Hh & Hph). cbn in Ha, Hh. injection Ha as <-. apply Hnd.
    exists i, j, h. split_and!; try done; [lia|]. cbn.
    rewrite list_lookup_insert_ne in Hh by lia. done.
  - by rewrite length_insert.
Qed.

Lemma scan c i :
  good c -> master_at c = HScan i -> ~ doomed c ->
  (forall c', good c' -> master_at c' = HWhile -> t_nlefttoread c' <= t_nlefttoread c ->
     ((exists j g, (i <= j)%nat /\ getters c !! j = Some g /\ g_pc g = GReturned /\ g_joined g = false) ->
      t_nlefttoread c' < t_nlefttoread c) -> finishes c') ->
  finishes c.
Proof using Hv.
  remember (length (table c) - i)%nat as r eqn:Er. revert c i Er.
  induction r as [|r IH]; intros c i Er Hg Hm Hnd K.
  - destruct c as [m t gs a b d n mx e]. destruct Hg as [Hi Hn He]. cbn in Hm, He, Er. subst m e.
    assert (Ht : t !! i = None) by (apply lookup_ge_None; lia).
    eapply (master_step _ (WConfig HUnlock t gs a b d n mx None)); [by split| |done|].
    { unfold wfire, master_move. cbn. by rewrite Ht. }
    intros Hg1. eapply (master_step _ (WConfig HWhile t gs a b d n None None)); [done|done|done|].
    intros Hg2. apply K; try done. cbn. intros (j & g & Hij & Hj & _).
    apply lookup_lt_Some in Hj. pose proof (sh_len _ _ _ _ (wi_shape _ _ _ Hi)) as Hl. cbn in Hl. lia.
  - destruct (lookup_lt_is_Some_2 (table c) i) as [f Hf]; [lia|].
    destruct (has_flag (tf_flags f) F_DONE) eqn:Hfl.
    + apply (scan_hit c i f); try done. intros c' Hg' Hm' Hnd' Hl' Hd'.
      apply (IH c' (S i)); try done; [lia|]. intros c2 Hg2 Hm2 Hd2 _. apply K; try done; [lia|]. lia.
    + pose proof Hg as [Hi Hn He]. destruct c as [m t gs a b d n mx e]. cbn in Hm, He, Hf, Er. subst m e.
      pose proof (wi_shape _ _ _ Hi) as Hs. unfold shaped in Hs. cbn in Hs.
      pose proof (sh_master _ _ _ _ Hs) as Hw. cbn in Hw.
      eapply (master_step _ (WConfig (HScan (S i)) t gs a b d n mx None)); [done| |done|].
      { unfold wfire, master_move. cbn. by rewrite Hf, Hfl. }
      intros Hg1. apply (IH _ (S i)); try done; [cbn; lia| |].
      * intros (i' & j & h & Ha & Hij & Hh & Hph). cbn in Ha, Hh. injection Ha as <-. apply Hnd.
        exists i, j, h. split_and!; try done. lia.
      * cbn. intros c2 Hg2 Hm2 Hd2 Hlt. apply K; try done. cbn.
        intros (j & g & Hij & Hj & Hp & Hjo). apply Hlt. exists j, g. split_and!; try done.
        assert (i <> j); [|lia]. intros ->.
        assert (has_flag (tf_flags f) F_DONE = true); [|congruence].
        apply (shape_flag_done v Hv _ _ _ _ _ Hs Hf eq_refl Hw). exists g. by rewrite Hp.
Qed.

(** ** The main thread starts threads *)

Definition starting (m : master_pc) : bool := match m with HConnect => true | _ => opening m end.

Definition open_rank (c : wconfig) : nat :=
  let n := length (table c) in
  ((n - length (getters c)) * (n + 10) +
   match master_at c with
   | HTid _ _ => n + 8 | HCount => n + 7 | HConnect => n + 6 | HFind i => n + 5 - i
   | HFlag _ => 4 | HCreate _ => 3 | _ => 0
   end)%nat.

Lemma start_step c :
  good c -> starting (master_at c) = true ->
  exists c', wfire v maxnconn page MasterM c = Some c' /\ ending_of c' = None /\
    t_nlefttoread c' = t_nlefttoread c /\
    (starting (master_at c') = true /\ (open_rank c' < open_rank c)%nat \/
     master_at c' = HLock \/ master_at c' = HJoinAny).
Proof using Hv.
  intros [Hi Hn He] Hm. destruct c as [m t gs a b d n mx e]. cbn in Hm, He. subst e.
  pose proof (wi_shape _ _ _ Hi) as Hs. unfold shaped in Hs. cbn in Hs.
  pose proof (sh_master _ _ _ _ Hs) as Hf. unfold wfire, master_move, on_file, open_rank.
  cbn [master_at ending_of table getters t_nconn t_nlefttoconn]. destruct m; try done; cbn in Hf.
  - destruct (_ && _); eexists; split_and!; try done; [left; cbn; split; [done|lia]|].
    right. cbn. destruct v; auto.
  - destruct (lookup_lt_is_Some_2 t i) as [f Hti]; [lia|]. rewrite Hti.
    destruct (Z.eqb_spec (tf_flags f) 0) as [E|E]; eexists; split_and!; try done; left;
      cbn [at_master master_at table getters].
    + destruct v; try done; split; try done; lia.
    + split; [done|]. assert (~ (length gs <= i)%nat) by (by rewrite <- (shape_flag_zero v _ _ _ i f Hs)). lia.
  - destruct Hf as [-> Hl]. destruct (lookup_lt_is_Some_2 t (length gs)) as [f Hti]; [lia|]. rewrite Hti.
    eexists. split_and!; try done. left. cbn. rewrite length_insert. destruct v; try done; split; try done; lia.
  - destruct Hf as [-> Hl]. eexists. split_and!; try done. left. cbn. rewrite length_app. cbn.
    split; [done|]. replace (length t - length gs)%nat with (S (length t - (length gs + 1)))%nat by lia. lia.
  - destruct Hf as [Hf ->]. pose proof (sh_len _ _ _ _ Hs).
    destruct (lookup_lt_is_Some_2 t i) as [f Hti]; [lia|]. rewrite Hti.
    eexists. split_and!; try done. left. cbn. rewrite length_insert. destruct v; try done; split; try done; lia.
  - eexists. split_and!; try done. left. cbn. split; [done|lia].
Qed.

Lemma start_threads c :
  good c -> starting (master_at c) = true ->
  (forall c', good c' -> master_at c' = HLock \/ master_at c' = HJoinAny ->
     t_nlefttoread c' = t_nlefttoread c -> finishes c') ->
  finishes c.
Proof using Hv.
  remember (open_rank c) as w eqn:Ew. revert c Ew.
  induction w as [w IH] using lt_wf_ind. intros c -> Hg Hm K.
  destruct (start_step c Hg Hm) as (c' & Hf & He & Hd & Hc).
  apply (master_step c c'); try done. intros Hg'. destruct Hc as [[Hm' Hr]|Hm'].
  - apply (IH _ Hr c' eq_refl Hg' Hm'). intros c2 Hg2 Hm2 Hd2. apply K; try done. congruence.
  - by apply K.
Qed.

(** ** The main thread collects threads *)

(** Some thread is not joined. *)
Lemma waiting_running c :
  good c -> waiting (master_at c) = true -> 0 < t_nconn c.
Proof using Hmax.
  intros [Hi _ _] Hw. destruct (wi_counts _ _ _ Hi) as [Hb Ha Hd _ _ _ Hwt Hl _].
  specialize (Hwt Hw). assert (Hd' : t_nlefttoread c > 0) by (apply Hl; by destruct (master_at c)).
  assert (Hz : new_of (master_at c) = 0 /\ half_of (master_at c) = 0) by (by destruct (master_at c)).
  destruct Hz as [Hz1 Hz2]. rewrite Hz1, Hz2 in *. lia.
Qed.

Lemma collect c :
  good c -> master_at c = HLock \/ master_at c = HJoinAny \/ master_at c = HAsleep \/ master_at c = HWoken ->
  (forall c', good c' -> master_at c' = HWhile -> t_nlefttoread c' < t_nlefttoread c -> finishes c') ->
  finishes c.
Proof using Hv Hmax.
  intros Hg Hm K. apply drain; [done|by destruct Hm as [-> |[-> |[-> | ->]]]|].
  intros c1 Hg1 Hr Hx Hw Hd. rewrite <- Hd in K. clear Hd.
  assert (Hm1 : master_at c1 = HLock \/ master_at c1 = HJoinAny \/ master_at c1 = HAsleep \/ master_at c1 = HWoken).
  { destruct Hw as [-> |[_ ->]]; auto. }
  clear Hw Hm Hg c. rename c1 into c.
  assert (Hrun : 0 < t_nconn c) by (apply waiting_running; [done|]; by destruct Hm1 as [-> |[-> |[-> | ->]]]).
  pose proof Hg1 as [Hi Hn He]. destruct (wi_counts _ _ _ Hi) as [Hb Ha Hdd Hnn _ _ _ Hl Hwake].
  destruct c as [m t gs a b d n mx e].
  cbn [master_at table getters t_nconn t_nlefttoconn t_nlefttoread ndone ndone_mutex ending_of] in *. subst e mx.
  assert (Hz : new_of m = 0 /\ half_of m = 0) by (by destruct Hm1 as [-> |[-> |[-> | ->]]]).
  destruct Hz as [Hz1 Hz2]. rewrite Hz1, Hz2 in *.
  destruct (cnt_below g_joined gs) as (k & g & Hk & Hj); [lia|].
  assert (Hall : cnt done_by gs = Z.of_nat (length gs)).
  { apply cnt_all, forallb_forall. intros h Hh. apply list_elem_of_In, list_elem_of_lookup in Hh as [j Hj'].
    unfold done_by. by rewrite (Hr j h Hj'). }
  pose proof (sh_master _ _ _ _ (wi_shape _ _ _ Hi)) as Hs. cbn in Hs.
  assert (Hlock : m = HLock \/ m = HWoken -> finishes (WConfig m t gs a b d n None None)).
  { intros Hm. assert (Hw3 : v = Web03) by (by destruct Hm as [-> | ->]).
    eapply (master_step _ (WConfig HTest t gs a b d n (Some Master) None)); [done| |done|].
    { unfold wfire, master_move, take_mutex. by destruct Hm as [-> | ->]. }
    intros Hg2. specialize (Hnn Hw3).
    eapply (master_step _ (WConfig (HScan 0) t gs a b d n (Some Master) None)); [done| |done|].
    { unfold wfire, master_move. cbn. rewrite Hw3, (proj2 (Z.eqb_neq n 0)) by lia. done. }
    intros Hg3. eapply (scan _ 0); [done|done| |].
    - intros (i & j & h & _ & _ & Hh & Hp). cbn in Hh. by rewrite (Hr j h Hh) in Hp.
    - cbn. intros c' Hg' Hm' _ Hlt. apply K; try done. apply Hlt. exists k, g. split_and!; try done; [lia|by eapply Hr]. }
  destruct Hm1 as [-> |[-> |[-> | ->]]]; [by apply Hlock; left| | |by apply Hlock; right].
  - eapply (finishes_step (JoinAnyM k)); [done| |].
    { unfold wfire, join_any, on_getter. cbn. rewrite Hk. cbn. rewrite (Hr k g Hk), Hj. reflexivity. }
    apply K; cbn; [|done|lia]. eapply (good_step (JoinAnyM k)); [exact Hg1| |done].
    unfold wfire, join_any, on_getter. cbn. rewrite Hk. cbn. rewrite (Hr k g Hk), Hj. reflexivity.
  - destruct (Hwake eq_refl) as (j & h & Hh & Hp); [rewrite (Hnn Hs); lia|]. by rewrite (Hr j h Hh) in Hp.
Qed.

(** ** Rounds *)

Lemma from_while c : good c -> master_at c = HWhile -> finishes c.
Proof using Hv Hmax.
  remember (Z.to_nat (t_nlefttoread c)) as w eqn:Ew. revert c Ew.
  induction w as [w IH] using lt_wf_ind. intros c -> Hg Hm.
  pose proof Hg as [Hi Hn He]. destruct c as [m t gs a b d n mx e]. cbn in Hm, He. subst m e.
  destruct (d >? 0) eqn:Ed; pose proof (Zgt_cases d 0) as Hd; rewrite Ed in Hd.
  - eapply (master_step _ (WConfig HConnect t gs a b d n mx None)); [done| |done|].
    { unfold wfire, master_move. cbn. by rewrite Ed. }
    intros Hg1. apply start_threads; [done|done|]. intros c2 Hg2 Hm2 Hd2.
    apply collect; [done|destruct Hm2; auto|]. intros c3 Hg3 Hm3 Hd3.
    apply (IH (Z.to_nat (t_nlefttoread c3))); try done. cbn in *. lia.
  - exists [MasterM]. eexists. split_and!; [by repeat constructor| |].
    + unfold wrun. cbn. unfold wfire, master_move. cbn. rewrite Ed. reflexivity.
    + done.
Qed.
End Finishing.

(** * Claims *)

Section Claims.
Context (v : program) (maxnconn : Z) (page : cstring).

Lemma wrun_rtc ms c c' : wrun v maxnconn page ms c = Some c' -> rtc (wstep v maxnconn page) c c'.
Proof.
  revert c. induction ms as [|m ms IH]; intros c; unfold wrun; cbn; [by intros [= ->]|].
  destruct (wfire v maxnconn page m c) as [c1|] eqn:E.
  - intros H. eapply rtc_l; [by exists m|]. by apply IH.
  - assert (Hn : foldl (fun c m => c ≫= wfire v maxnconn page m) None ms = None)
      by (clear; by induction ms). by rewrite Hn.
Qed.

Lemma names_reachable host names c :
  v <> Web02 -> rtc (wstep v maxnconn page) (wstart host names) c ->
  file_names c = take (Z.to_nat MAXFILES) names.
Proof.
  intros Hv Hr. assert (H0 : file_names (wstart host names) = take (Z.to_nat MAXFILES) names).
  { unfold file_names, wstart, web_table. cbn [table]. rewrite <- list_fmap_compose.
    by apply list_fmap_id. }
  rewrite <- H0. clear H0. induction Hr as [|c0 c1 c2 [m Hm] _ IH]; [done|]. rewrite IH.
  by apply (names_rule v maxnconn), (wfire_wrule v maxnconn page Hv m).
Qed.

(** The counters tell how many threads run. *)
Lemma running_bound c :
  winv v maxnconn c -> 0 < maxnconn ->
  Z.of_nat (length (getters c)) - cnt g_joined (getters c) <= maxnconn.
Proof.
  intros Hi Hmax. destruct (wi_counts _ _ _ Hi) as [_ Ha _ _ Hm Ho _ _ _].
  assert (0 <= half_of (master_at c)) by (by destruct (master_at c)).
  destruct (opening (master_at c)) eqn:E.
  - specialize (Ho eq_refl). assert (new_of (master_at c) <= 1) by (by destruct (master_at c)). lia.
  - assert (new_of (master_at c) = 0) by (by destruct (master_at c)). lia.
Qed.

(** C33: the threaded web clients [web01.c] and [web03.c] fetch each file once.  In every
    configuration that any interleaving reaches: thread [k] works on the [k]-th file of the command
    line, and what it has done on its connection is a prefix of: connect, send the request for its
    file, read replies up to the end of file, close; at most [maxnconn] threads have been started
    and not yet joined; the messages about an inconsistent state have not been printed; and when
    the program has ended by [exit (0)], there was a thread for each of the files (at most 20),
    each has read its reply to the end, closed its connection and was joined. *)
Theorem threads_fetch_each_file host names c :
  v <> Web02 -> 0 < maxnconn ->
  rtc (wstep v maxnconn page) (wstart host names) c ->
  (forall k g, getters c !! k = Some g ->
     exists f name, g_file g = k /\ table c !! k = Some f /\ names !! k = Some name /\
       tf_name f = name /\ spoken v f (g_pc g) (g_io g)) /\
  Z.of_nat (length (getters c)) - cnt g_joined (getters c) <= maxnconn /\
  ending_of c <> Some Failed /\
  (ending_of c = Some Finished ->
     length (getters c) = length (take (Z.to_nat MAXFILES) names) /\
     Forall (fun g => g_joined g = true /\ g_pc g = GReturned) (getters c)).
Proof.
  intros Hv Hmax Hr. pose proof (winv_reachable v maxnconn page Hv host names c Hr) as Hi.
  pose proof (names_reachable host names c Hv Hr) as Hn.
  pose proof (wi_shape _ _ _ Hi) as Hs. split_and!.
  - intros k g Hk. destruct (shape_lookup _ _ _ Hs Hk) as (f & Hf & Hfile).
    assert (Hname : file_names c !! k = Some (tf_name f)).
    { unfold file_names. by rewrite list_lookup_fmap, Hf. }
    rewrite Hn in Hname. apply lookup_take_Some in Hname as [Hname _].
    exists f, (tf_name f). split_and!; try done. by apply (wi_io _ _ _ Hi k).
  - by apply running_bound.
  - by apply (wi_fail _ _ _ Hi).
  - intros Hf. destruct (wi_finished _ _ _ Hi Hf) as [Hm Hd].
    destruct (wi_counts _ _ _ Hi) as [_ _ Hd' _ _ _ _ _ _]. rewrite Hm in Hd'. cbn in Hd'.
    pose proof (cnt_bound g_joined (getters c)). pose proof (sh_len _ _ _ _ Hs).
    assert (Hl : length (table c) = length (take (Z.to_nat MAXFILES) names)).
    { rewrite <- Hn. unfold file_names. by rewrite length_fmap. }
    split; [lia|]. apply Forall_lookup. intros k g Hk.
    assert (Hj : g_joined g = true).
    { assert (Hall : forallb g_joined (getters c) = true) by (apply cnt_all; lia).
      rewrite forallb_forall in Hall. apply Hall, list_elem_of_In. by eapply list_elem_of_lookup_2. }
    split; [done|]. by eapply sh_joined.
Qed.

(** A single connection at a time: whenever the main thread looks at the flags, all threads have
    ended. *)
Lemma single_lock m t gs a b d n :
  maxnconn = 1 -> m = HLock \/ m = HWoken -> winv v maxnconn (WConfig m t gs a b d n None None) ->
  n <> 0 -> forall k g, gs !! k = Some g -> g_pc g = GReturned.
Proof.
  intros Hone Hm Hi Hne k g Hk. pose proof (running_bound _ Hi ltac:(lia)) as Hrun. cbn [getters] in Hrun.
  pose proof (wi_shape _ _ _ Hi) as Hs. unfold shaped in Hs. cbn in Hs.
  assert (Hw : v = Web03) by (pose proof (sh_master _ _ _ _ Hs) as H; by destruct Hm as [-> | ->]).
  pose proof (ct_n _ _ _ _ _ _ _ _ _ (wi_counts _ _ _ Hi) Hw) as Hn.
  cbn [getters master_at ndone] in Hn.
  replace (half_of m) with 0 in Hn by (by destruct Hm as [-> | ->]).
  assert (Hij : cnt g_joined gs <= cnt done_by gs).
  { apply cnt_mono. intros j h Hj Hjo. unfold done_by. by rewrite (sh_joined _ _ _ _ Hs j h Hj Hjo). }
  pose proof (cnt_bound done_by gs).
  destruct (decide (g_pc g = GReturned)) as [|Hp]; [done|exfalso].
  assert (Hall : cnt done_by gs = Z.of_nat (length gs)) by lia.
  apply cnt_all in Hall. rewrite forallb_forall in Hall.
  assert (Hd : done_by g = true) by (apply Hall, list_elem_of_In; by eapply list_elem_of_lookup_2).
  destruct (gd_getter _ _ _ (wi_guard _ _ _ Hi) k g Hk) as [_ Hh]. cbn in Hh. unfold done_by in Hd.
  by destruct (g_pc g); try done; specialize (Hh eq_refl).
Qed.

Lemma single_returned c c' :
  v <> Web02 -> maxnconn = 1 -> winv v maxnconn c ->
  (ahead (master_at c) (ndone c) <> None -> all_returned c) ->
  wrule v maxnconn c c' ->
  ahead (master_at c') (ndone c') <> None -> all_returned c'.
Proof.
  intros Hv Hone Hi Hq Hr.
  assert (Halone := fun k h => master_alone v maxnconn c k h Hi).
  unfold all_returned in *.
  destruct Hr; cbn [master_at table getters ndone ndone_mutex] in *; try exact Hq; try done.
  - subst m. by destruct v.
  - intros Ha. cbn in Ha. destruct (Z.eqb_spec n 0); [done|]. by eapply (single_lock m t gs a b d n).
  - intros _. apply Hq. cbn. by rewrite (proj2 (Z.eqb_neq n 0) H).
  - intros _. by apply Hq.
  - intros _ j h [(<- & <- & _)|[_ Hj]]%list_lookup_insert_Some; [done|]. by apply (Hq ltac:(done) j).
  - intros Ha. pose proof (Hq Ha k g H) as E. destruct (local_keeps _ _ _ _ _ H1) as (_ & _ & _ & Hnf & _).
    by rewrite E in Hnf.
  - intros Ha. pose proof (Hq Ha k g H). congruence.
  - intros Ha. pose proof (Hq Ha k g H). congruence.
  - intros Ha. pose proof (Hq Ha k g H). congruence.
  - intros Ha. destruct (ahead m (n + 1)) as [i|] eqn:Ea; [|done].
    destruct (Halone k g (ahead_holds _ _ _ Ea) H) as [_ E]. by rewrite H0 in E.
  - intros Ha. assert (Ha' : ahead m n <> None) by (subst m'; by destruct m).
    pose proof (Hq Ha' k g H). congruence.
  - intros Ha. pose proof (Hq Ha k g H). congruence.
Qed.

Lemma single_not_doomed host names c :
  v <> Web02 -> maxnconn = 1 -> rtc (wstep v maxnconn page) (wstart host names) c -> ~ doomed c.
Proof.
  intros Hv Hone Hr.
  assert (Hq : ahead (master_at c) (ndone c) <> None -> all_returned c).
  { assert (H0 : winv v maxnconn (wstart host names)) by by apply winv_start.
    assert (Hq0 : ahead (master_at (wstart host names)) (ndone (wstart host names)) <> None ->
              all_returned (wstart host names)) by done.
    revert H0 Hq0. induction Hr as [|c0 c1 c2 [m Hm] _ IH]; intros H0 Hq0; [done|].
    apply wfire_wrule in Hm; [|done]. apply IH; [by eapply winv_rule|by eapply single_returned]. }
  intros (i & j & g & Ha & _ & Hj & Hp). assert (g_pc g = GReturned); [|congruence].
  apply (Hq ltac:(congruence) j g Hj).
Qed.

(** Only [web03.c] can be caught. *)
Lemma web01_not_doomed c : v = Web01 -> winv v maxnconn c -> ~ doomed c.
Proof.
  intros Hw Hi (i & j & g & Ha & _). pose proof (sh_master _ _ _ _ (wi_shape _ _ _ Hi)) as Hm.
  rewrite Hw in Hm. destruct (master_at c); try done; by destruct Hm.
Qed.

(** In the middle of the loop over the flags. *)
Lemma finish_scan c i :
  v <> Web02 -> 0 < maxnconn -> good v maxnconn c -> master_at c = HScan i -> ~ doomed c ->
  finishes v maxnconn page c.
Proof. intros Hv Hmax Hg Hm Hnd. apply (scan v maxnconn page Hv c i); auto using from_while. Qed.

Lemma finish_tally t gs a b d n mx i :
  v <> Web02 -> 0 < maxnconn -> good v maxnconn (WConfig (HTally i) t gs a b d n mx None) ->
  ~ doomed (WConfig (HTally i) t gs a b d n mx None) ->
  finishes v maxnconn page (WConfig (HTally i) t gs a b d n mx None).
Proof.
  intros Hv Hmax Hg Hnd. eapply master_step; [done|done|reflexivity|done|]. intros Hg'.
  eapply finish_scan; [done|done|done|reflexivity|]. intros (i' & j & g & Ha & H).
  apply Hnd. by exists i', j, g.
Qed.

Lemma finish_mark t gs a b d n mx i j :
  v <> Web02 -> 0 < maxnconn -> good v maxnconn (WConfig (HMark i j) t gs a b d n mx None) ->
  ~ doomed (WConfig (HMark i j) t gs a b d n mx None) ->
  finishes v maxnconn page (WConfig (HMark i j) t gs a b d n mx None).
Proof.
  intros Hv Hmax Hg Hnd. pose proof (wi_shape _ _ _ (gd_inv _ _ _ Hg)) as Hs.
  destruct (sh_master _ _ _ _ Hs) as (_ & <- & g & Hgi & _).
  destruct (shape_lookup _ _ _ Hs Hgi) as (f & Hf & _). cbn [table] in Hf.
  apply (master_step v maxnconn page Hv _
    (WConfig (HTally i) (<[i := set_flags F_JOINED f]> t) gs a b d n mx None)); [done| |done|].
  { unfold wfire, master_move, on_file. cbn [ending_of master_at table]. by rewrite Nat.eqb_refl, Hf. }
  intros Hg'. apply finish_tally; try done.
Qed.

Lemma finish_join t gs a b d n mx i :
  v <> Web02 -> 0 < maxnconn -> good v maxnconn (WConfig (HJoin i) t gs a b d n mx None) ->
  ~ doomed (WConfig (HJoin i) t gs a b d n mx None) ->
  finishes v maxnconn page (WConfig (HJoin i) t gs a b d n mx None).
Proof.
  intros Hv Hmax Hg Hnd. pose proof (wi_shape _ _ _ (gd_inv _ _ _ Hg)) as Hs.
  destruct (sh_master _ _ _ _ Hs) as (_ & g & Hgi & Hj & Hp). cbn [getters] in Hgi.
  destruct (shape_lookup _ _ _ Hs Hgi) as (f & Hf & Hfile). cbn [table] in Hf.
  destruct (join_target v _ _ _ _ Hs Hf) as (Hk & _).
  assert (Hpc : g_pc g = GReturned) by by eapply (finished_returned v maxnconn _ i i g Hg).
  apply (master_step v maxnconn page Hv _
    (WConfig (HMark i i) t (<[i := joined g]> gs) a b d n mx None)); [done| |done|].
  { unfold wfire, master_move, on_getter. cbn [ending_of master_at table getters mbind option_bind].
    rewrite Hf. cbn [mbind option_bind]. rewrite Hk, Hgi. cbn [mbind option_bind].
    by rewrite Hj, Hpc, Hfile. }
  intros Hg'. apply finish_mark; try done. intros (i' & j & h & Ha & Hij & Hh & Hph).
  cbn [master_at ahead getters ndone] in *. injection Ha as <-. apply Hnd. exists i, j, h.
  split_and!; try done; [lia|]. rewrite list_lookup_insert_ne in Hh by lia. done.
Qed.

(** Whatever the main thread is doing. *)
Lemma undoomed_finishes c :
  v <> Web02 -> 0 < maxnconn -> web_command v page <> None ->
  good v maxnconn c -> ~ doomed c -> finishes v maxnconn page c.
Proof.
  intros Hv Hmax Hp Hg Hnd.
  assert (Hcol : forall c', good v maxnconn c' ->
    master_at c' = HLock \/ master_at c' = HJoinAny \/ master_at c' = HAsleep \/ master_at c' = HWoken ->
    finishes v maxnconn page c') by (intros; apply collect; auto using from_while).
  pose proof Hg as [Hi Hn He]. destruct (starting (master_at c)) eqn:Est.
  { apply start_threads; [done..|]. intros c' Hg' Hm' _. apply Hcol; [done|]. destruct Hm'; auto. }
  pose proof (sh_master _ _ _ _ (wi_shape _ _ _ Hi)) as Hf.
  destruct c as [m t gs a b d n mx e].
  cbn [ending_of master_at table getters starting] in He, Est, Hf. subst e.
  destruct m; try discriminate Est; cbn [master_fact] in Hf.
  - apply (master_step v maxnconn page Hv _ (WConfig HWhile t gs a b d n mx None)); [done| |done|].
    + unfold wfire, master_move. cbn [ending_of master_at]. by destruct (web_command v page).
    + intros. by apply from_while.
  - by apply from_while.
  - apply Hcol; auto.
  - apply Hcol; auto.
  - destruct (Z.eqb_spec n 0) as [->|Hne].
    + apply (master_step v maxnconn page Hv _ (WConfig HAsleep t gs a b d 0 None None)); [done| |done|].
      { unfold wfire, master_move. cbn [ending_of master_at ndone]. by rewrite Hf. }
      intros. apply Hcol; auto.
    + apply (master_step v maxnconn page Hv _ (WConfig (HScan 0) t gs a b d n mx None)); [done| |done|].
      { unfold wfire, master_move. cbn [ending_of master_at ndone]. by rewrite Hf, (proj2 (Z.eqb_neq n 0) Hne). }
      intros Hg'. apply (finish_scan _ 0); try done. intros (i & j & g & Ha & H). apply Hnd.
      exists i, j, g. cbn [master_at ndone ahead] in *. by rewrite (proj2 (Z.eqb_neq n 0) Hne).
  - apply Hcol; auto.
  - apply Hcol; auto.
  - by apply (finish_scan _ i).
  - by apply finish_join.
  - by apply finish_mark.
  - by apply finish_tally.
  - apply (master_step v maxnconn page Hv _ (WConfig HWhile t gs a b d n None None)); [done..|].
    intros. by apply from_while.
Qed.

(** C34: when the threaded web clients can finish.  For any number of connections above zero and
    names that fit in the buffer, from every configuration that is reached and in which the process
    still runs, there is a schedule (without wake-ups that nobody sent) that ends the program by
    [exit (0)] exactly when the main thread is not caught with the mutex in its hands waiting for a
    thread that has set its flag but not locked the mutex yet; once caught, no schedule finishes.
    [web01.c] is never caught, and neither program is when it uses one connection at a time. *)
Theorem threads_finish_unless_caught host names c :
  v <> Web02 -> 0 < maxnconn -> web_command v page <> None ->
  Forall (fun name => web_command v name <> None) names ->
  rtc (wstep v maxnconn page) (wstart host names) c -> ending_of c = None ->
  (finishes v maxnconn page c <-> ~ doomed c) /\
  (doomed c -> forall c', rtc (wstep v maxnconn page) c c' -> ending_of c' <> Some Finished) /\
  (v = Web01 \/ maxnconn = 1 -> ~ doomed c).
Proof.
  intros Hv Hmax Hp Hn Hr He. pose proof (winv_reachable v maxnconn page Hv host names c Hr) as Hi.
  split_and!.
  - split.
    + intros (ms & c' & _ & Hrun & Hfin) Hd.
      by apply (doomed_forever v maxnconn page Hv c c' Hi Hd (wrun_rtc _ _ _ Hrun)).
    + intros Hnd. apply undoomed_finishes; try done. split; try done.
      unfold names_fit. rewrite (names_reachable host names c Hv Hr). by apply Forall_take.
  - intros Hd c'. by apply doomed_forever.
  - intros [Hw|Hone]; [by apply web01_not_doomed|by apply (single_not_doomed host names)].
Qed.
End Claims.

(** * Concrete runs *)

Definition two_files : list cstring := [c["/a"]; c["/b"]].

Lemma threads_fetch_each_file_witness :
  exists c, wrun Web01 2 c["/"]
      ([MasterM; MasterM; MasterM; MasterM; MasterM; MasterM; MasterM; MasterM] ++
       [ConnectM 0 5; GetterM 0; GetterM 0; GetterM 0; ReadM 0 [104; 105]; ReadM 0 []; GetterM 0;
        GetterM 0; MasterM; JoinAnyM 0; MasterM])
      (wstart c["host"] [c["/a"]]) = Some c /\
    ending_of c = Some Finished /\
    length (getters c) = 1%nat /\
    Forall (fun g => g_joined g = true /\ g_pc g = GReturned) (getters c).
Proof.
  eexists. split; [vm_compute; reflexivity|]. split; [reflexivity|].
  refine (proj2 (proj2 (proj2 (threads_fetch_each_file Web01 2 c["/"] c["host"] [c["/a"]] _ _ _ _))) _).
  - discriminate.
  - lia.
  - eapply (wrun_rtc Web01 2 c["/"]
      ([MasterM; MasterM; MasterM; MasterM; MasterM; MasterM; MasterM; MasterM] ++
       [ConnectM 0 5; GetterM 0; GetterM 0; GetterM 0; ReadM 0 [104; 105]; ReadM 0 []; GetterM 0;
        GetterM 0; MasterM; JoinAnyM 0; MasterM])).
    vm_compute. reflexivity.
  - reflexivity.
Defined.

Lemma threads_finish_unless_caught_witness :
  finishes Web03 2 c["/"] (wstart c["host"] two_files) /\ ~ doomed (wstart c["host"] two_files).
Proof.
  assert (Hnd : ~ doomed (wstart c["host"] two_files)).
  { intros (i & j & g & Ha & _). discriminate Ha. }
  split; [|exact Hnd].
  refine (proj2 (proj1 (threads_finish_unless_caught Web03 2 c["/"] c["host"] two_files
            (wstart c["host"] two_files) _ _ _ _ (rtc_refl _ _) eq_refl)) Hnd).
  - discriminate.
  - lia.
  - vm_compute. discriminate.
  - repeat constructor; vm_compute; discriminate.
Defined.

(** * What modelling showed *)

(** A thread of file [k] from the connection to the flag [F_DONE]. *)
Definition fetch (k : nat) : list wmove :=
  [ConnectM k 5; GetterM k; GetterM k; GetterM k; ReadM k []; GetterM k; GetterM k].

(** The deadlock happens: both threads have set their flags and only the first has counted itself
    when the main thread looks. *)
Definition caught : list wmove :=
  replicate 18 MasterM ++ fetch 0 ++ fetch 1 ++ [GetterM 0; GetterM 0; GetterM 0; GetterM 0] ++
  replicate 7 MasterM.

Lemma web03_deadlock :
  exists c, wrun Web03 2 c["/"] caught (wstart c["host"] two_files) = Some c /\
    ending_of c = None /\ doomed c.
Proof.
  eexists. split; [vm_compute; reflexivity|]. split; [reflexivity|].
  eexists 1%nat, 1%nat, _. split; [reflexivity|]. split; [lia|]. split; reflexivity.
Qed.

(** The first statement of [web02.c] after the creation of a thread sets [F_CONNECTING]; when the
    thread has set [F_DONE] before, the flag is lost and the main thread polls forever. *)
Definition lost_flag : list wmove :=
  replicate 5 MasterM ++ fetch 0 ++ [GetterM 0; GetterM 0; GetterM 0] ++ replicate 3 MasterM.

Lemma web02_lost_flag :
  exists c, wrun Web02 2 c["/"] lost_flag (wstart c["host"] [c["/a"]]) = Some c /\
    (exists g, getters c = [g] /\ g_pc g = GReturned /\ g_joined g = false) /\
    (exists f, table c = [f] /\ tf_flags f = F_CONNECTING) /\ t_nlefttoread c = 1 /\
    wrun Web02 2 c["/"] (replicate 7 MasterM) c = Some c.
Proof.
  eexists. split; [vm_compute; reflexivity|]. split; [eexists; repeat split|].
  split; [eexists; repeat split|]. split; [reflexivity|]. vm_compute. reflexivity.
Qed.

(** A thread may print [f_tid] before the main thread has stored it. *)
Lemma tid_not_stored :
  exists c g, wrun Web03 2 c["/"] (replicate 6 MasterM ++ [ConnectM 0 5; GetterM 0])
      (wstart c["host"] two_files) = Some c /\
    getters c !! 0%nat = Some g /\ g_io g = [Connected 5; Reported 0].
Proof. eexists _, _. split; [vm_compute; reflexivity|]. split; reflexivity. Qed.

(** With zero connections [web03.c] sleeps for ever, no thread was started. *)
Lemma no_connection_sleeps :
  exists c, wrun Web03 0 c["/"] (replicate 5 MasterM) (wstart c["host"] two_files) = Some c /\
    master_at c = HAsleep /\ getters c = [] /\ ending_of c = None.
Proof. eexists. split; [vm_compute; reflexivity|]. repeat split. Qed.
