(* ===== verification/ThreadExamples.v ===== *)
(** Threads that share memory: [threads/example01.c], [example02.c], [example03.c].

    In the first two programs two threads increment a counter, without and with a mutex; in the
    third a producer and a consumer share a ring of integers, with a mutex and two condition
    variables.  A move is one statement of one thread, so that all interleavings are executions.
    [pthread_mutex_lock] is possible only when the mutex is free, [pthread_cond_wait] releases the
    mutex and sleeps in one move, [pthread_cond_signal] wakes the sleeper if there is one, and a
    sleeping thread may also wake up without a signal; a thread that wakes up has to get the
    mutex again.  Any call of the threads library may report an error, which ends the process
    with status 1.  The lines that show addresses are moves whose text is left out. *)

From S2P Require Import Prelude.

(** * A counter: [example01.c] and [example02.c] *)

Module Counter.

Definition NLOOP : Z := 5000.

Inductive tid : Type := A | B.

#[export] Instance tid_eq_dec : EqDecision tid.
Proof. solve_decision. Defined.

(** The programs differ in the mutex. *)
Inductive program : Type := Example01 | Example02.

Inductive doit_pc : Type :=
| NotCreated
| Loop                        (* before i < NLOOP *)
| Lock
| Fetch                       (* before val = counter *)
| Show (val : Z)              (* before printf *)
| Assign (val : Z)            (* before counter = val + 1 *)
| Unlock
| Next                        (* before i++ *)
| Returned.

Record thread : Type := Thread { pc : doit_pc; loop_i : Z }.

Inductive main_pc : Type := CreateA | CreateB | JoinA | JoinB | Exit.

Record config : Type := Config {
  main_at : main_pc;
  thread_of : tid -> thread;
  counter : Z;
  counter_mutex : option tid;
  out : list (tid * Z);       (* the lines of printf, oldest first *)
  status : option Z;          (* of a process that has ended *)
}.

Definition set_thread (t : tid) (th : thread) (f : tid -> thread) : tid -> thread :=
  fun t' => if decide (t' = t) then th else f t'.

Definition start : config := Config CreateA (fun _ => Thread NotCreated 0) 0 None [] None.

Definition go (t : tid) (p : doit_pc) (c : config) : config :=
  Config (main_at c) (set_thread t (Thread p (loop_i (thread_of c t))) (thread_of c))
    (counter c) (counter_mutex c) (out c) (status c).
Definition set_main (m : main_pc) (c : config) : config :=
  Config m (thread_of c) (counter c) (counter_mutex c) (out c) (status c).

(** [main]. *)
Definition main_move (c : config) : option config :=
  match main_at c with
  | CreateA => Some (set_main CreateB (go A Loop c))
  | CreateB => Some (set_main JoinA (go B Loop c))
  | JoinA => match pc (thread_of c A) with Returned => Some (set_main JoinB c) | _ => None end
  | JoinB => match pc (thread_of c B) with Returned => Some (set_main Exit c) | _ => None end
  | Exit => Some (Config Exit (thread_of c) (counter c) (counter_mutex c) (out c) (Some 0))
  end.

(** [doit]. *)
Definition doit_move (p : program) (t : tid) (c : config) : option config :=
  let th := thread_of c t in
  match pc th with
  | NotCreated | Returned => None
  | Loop =>
      if loop_i th <? NLOOP then Some (go t (match p with Example01 => Fetch | Example02 => Lock end) c)
      else Some (go t Returned c)
  | Lock =>
      match counter_mutex c with
      | None => Some (go t Fetch (Config (main_at c) (thread_of c) (counter c) (Some t) (out c) (status c)))
      | Some _ => None
      end
  | Fetch => Some (go t (Show (counter c)) c)
  | Show val =>
      Some (go t (Assign val) (Config (main_at c) (thread_of c) (counter c) (counter_mutex c) (out c ++ [(t, val + 1)]) (status c)))
  | Assign val =>
      Some (go t (match p with Example01 => Next | Example02 => Unlock end)
              (Config (main_at c) (thread_of c) (val + 1) (counter_mutex c) (out c) (status c)))
  | Unlock => Some (go t Next (Config (main_at c) (thread_of c) (counter c) None (out c) (status c)))
  | Next =>
      Some (Config (main_at c) (set_thread t (Thread Loop (loop_i th + 1)) (thread_of c))
              (counter c) (counter_mutex c) (out c) (status c))
  end.

Inductive move : Type := Main | Doit (t : tid) | Fail_.

Definition fire (p : program) (m : move) (c : config) : option config :=
  match status c with
  | Some _ => None
  | None =>
      match m with
      | Main => main_move c
      | Doit t => doit_move p t c
      | Fail_ => Some (Config (main_at c) (thread_of c) (counter c) (counter_mutex c) (out c) (Some 1))
      end
  end.

Inductive reachable (p : program) : config -> Prop :=
| reach_start : reachable p start
| reach_step m c c' : reachable p c -> fire p m c = Some c' -> reachable p c'.

Definition run_moves (p : program) (ms : list move) (c : config) : option config :=
  foldl (fun c m => c ≫= fire p m) (Some c) ms.

End Counter.

(** * A bounded buffer: [example03.c] *)

Module Buffer.

Definition NLOOP : Z := 50.
Definition BUFFSIZE : nat := 10.

Inductive tid : Type := Producer | Consumer.

Record buf_t : Type := Buf {
  b_buf : list Z;             (* the buffer which contains integer items *)
  b_nitems : Z;               (* #items currently in buffer *)
  b_nextget : nat;
  b_nextput : nat;
  b_mutex : option tid;
}.

(** [produce_loop] and [produce]. *)
Inductive produce_pc : Type :=
| PNotCreated | PStart
| PLoop                       (* before i < NLOOP *)
| PLock
| PTest                       (* before while (bptr->b_nitems >= BUFFSIZE) *)
| PAsleep | PWoken            (* in Pthread_cond_wait *)
| PShow                       (* before printf *)
| PStore                      (* before b_buf[b_nextput] = val *)
| PAdvance                    (* before ++b_nextput *)
| PCount                      (* before b_nitems++ *)
| PSignal | PUnlock
| PNext                       (* before i++ *)
| PReturned.

(** [consume_loop] and [consume]. *)
Inductive consume_pc : Type :=
| CNotCreated | CStart
| CLoop
| CLock
| CTest                       (* before while (bptr->b_nitems <= 0) *)
| CAsleep | CWoken
| CFetch                      (* before val = b_buf[b_nextget] *)
| CShow (val : Z)
| CAdvance                    (* before ++b_nextget *)
| CCount                      (* before b_nitems-- *)
| CSignal | CUnlock
| CNext
| CReturned.

Inductive main_pc : Type := Greet | CreateA | CreateB | JoinA | JoinB | Exit.

(** The lines that are printed. *)
Inductive line : Type := Produced (val : Z) | Consumed (val : Z).

Record config : Type := Config {
  main_at : main_pc;
  p_at : produce_pc; p_i : Z;
  c_at : consume_pc; c_i : Z;
  buf : buf_t;
  out : list line;            (* oldest first *)
  status : option Z;
}.

(** [buf_t] is a static variable: all zero. *)
Definition start : config :=
  Config Greet PNotCreated 0 CNotCreated 0 (Buf (replicate BUFFSIZE 0) 0 0 0 None) [] None.

(** [if (++i >= BUFFSIZE) i = 0;] *)
Definition next_index (i : nat) : nat := if (BUFFSIZE <=? S i)%nat then 0%nat else S i.

Definition set_main (m : main_pc) (c : config) : config :=
  Config m (p_at c) (p_i c) (c_at c) (c_i c) (buf c) (out c) (status c).
Definition p_go (p : produce_pc) (c : config) : config :=
  Config (main_at c) p (p_i c) (c_at c) (c_i c) (buf c) (out c) (status c).
Definition c_go (k : consume_pc) (c : config) : config :=
  Config (main_at c) (p_at c) (p_i c) k (c_i c) (buf c) (out c) (status c).
Definition set_buf (b : buf_t) (c : config) : config :=
  Config (main_at c) (p_at c) (p_i c) (c_at c) (c_i c) b (out c) (status c).
Definition show (l : line) (c : config) : config :=
  Config (main_at c) (p_at c) (p_i c) (c_at c) (c_i c) (buf c) (out c ++ [l]) (status c).

Definition set_mutex (m : option tid) (b : buf_t) : buf_t :=
  Buf (b_buf b) (b_nitems b) (b_nextget b) (b_nextput b) m.
Definition lock (t : tid) (c : config) : option config :=
  match b_mutex (buf c) with
  | None => Some (set_buf (set_mutex (Some t) (buf c)) c)
  | Some _ => None
  end.
Definition unlock (c : config) : config := set_buf (set_mutex None (buf c)) c.

(** [main]. *)
Definition main_move (c : config) : option config :=
  match main_at c with
  | Greet => Some (set_main CreateA c)
  | CreateA => Some (set_main CreateB (p_go PStart c))
  | CreateB => Some (set_main JoinA (c_go CStart c))
  | JoinA => match p_at c with PReturned => Some (set_main JoinB c) | _ => None end
  | JoinB => match c_at c with CReturned => Some (set_main Exit c) | _ => None end
  | Exit => Some (Config Exit (p_at c) (p_i c) (c_at c) (c_i c) (buf c) (out c) (Some 0))
  end.

Definition produce_move (c : config) : option config :=
  let b := buf c in
  match p_at c with
  | PNotCreated | PReturned | PAsleep => None
  | PStart => Some (p_go PLoop c)
  | PLoop => Some (p_go (if p_i c <? NLOOP then PLock else PReturned) c)
  | PLock | PWoken => p_go PTest <$> lock Producer c
  | PTest => if Z.of_nat BUFFSIZE <=? b_nitems b then Some (p_go PAsleep (unlock c)) else Some (p_go PShow c)
  | PShow => Some (p_go PStore (show (Produced (p_i c)) c))
  | PStore =>
      a ← store (b_buf b) (b_nextput b) (p_i c);
      Some (p_go PAdvance (set_buf (Buf a (b_nitems b) (b_nextget b) (b_nextput b) (b_mutex b)) c))
  | PAdvance =>
      Some (p_go PCount (set_buf (Buf (b_buf b) (b_nitems b) (b_nextget b) (next_index (b_nextput b)) (b_mutex b)) c))
  | PCount =>
      Some (p_go PSignal (set_buf (Buf (b_buf b) (b_nitems b + 1) (b_nextget b) (b_nextput b) (b_mutex b)) c))
  | PSignal =>
      Some (p_go PUnlock (match c_at c with CAsleep => c_go CWoken c | _ => c end))
  | PUnlock => Some (p_go PNext (unlock c))
  | PNext => Some (Config (main_at c) PLoop (p_i c + 1) (c_at c) (c_i c) b (out c) (status c))
  end.

Definition consume_move (c : config) : option config :=
  let b := buf c in
  match c_at c with
  | CNotCreated | CReturned | CAsleep => None
  | CStart => Some (c_go CLoop c)
  | CLoop => Some (c_go (if c_i c <? NLOOP then CLock else CReturned) c)
  | CLock | CWoken => c_go CTest <$> lock Consumer c
  | CTest => if b_nitems b <=? 0 then Some (c_go CAsleep (unlock c)) else Some (c_go CFetch c)
  | CFetch => val ← b_buf b !! b_nextget b; Some (c_go (CShow val) c)
  | CShow val => Some (c_go CAdvance (show (Consumed val) c))
  | CAdvance =>
      Some (c_go CCount (set_buf (Buf (b_buf b) (b_nitems b) (next_index (b_nextget b)) (b_nextput b) (b_mutex b)) c))
  | CCount =>
      Some (c_go CSignal (set_buf (Buf (b_buf b) (b_nitems b - 1) (b_nextget b) (b_nextput b) (b_mutex b)) c))
  | CSignal =>
      Some (c_go CUnlock (match p_at c with PAsleep => p_go PWoken c | _ => c end))
  | CUnlock => Some (c_go CNext (unlock c))
  | CNext => Some (Config (main_at c) (p_at c) (p_i c) CLoop (c_i c + 1) b (out c) (status c))
  end.

Inductive move : Type :=
| Main | Produce | Consume
| Spurious (t : tid)          (* a thread wakes up without a signal *)
| Fail_.                      (* an error report ends the process *)

Definition fire (m : move) (c : config) : option config :=
  match status c with
  | Some _ => None
  | None =>
      match m with
      | Main => main_move c
      | Produce => produce_move c
      | Consume => consume_move c
      | Spurious Producer => match p_at c with PAsleep => Some (p_go PWoken c) | _ => None end
      | Spurious Consumer => match c_at c with CAsleep => Some (c_go CWoken c) | _ => None end
      | Fail_ => Some (Config (main_at c) (p_at c) (p_i c) (c_at c) (c_i c) (buf c) (out c) (Some 1))
      end
  end.

Inductive reachable : config -> Prop :=
| reach_start : reachable start
| reach_step m c c' : reachable c -> fire m c = Some c' -> reachable c'.

Definition run_moves (ms : list move) (c : config) : option config := foldl (fun c m => c ≫= fire m) (Some c) ms.

End Buffer.
