(* ===== verification/ThreadExamplesClaims.v ===== *)
(** What the threads of [threads/example01.c], [example02.c] and [example03.c] compute, for every
    interleaving. *)

From S2P Require Import Prelude ThreadExamples.

(** * The counter *)

Module CounterFacts.
Import Counter.

(** The assignments to the counter a thread has executed. *)
Definition assigned (th : thread) : Z := loop_i th + match pc th with Unlock | Next => 1 | _ => 0 end.

(** The value a thread has fetched. *)
Definition fetched (th : thread) : option Z := match pc th with Show v | Assign v => Some v | _ => None end.

Record thread_ok (n : Z) (th : thread) : Prop := {
  t_i : 0 <= loop_i th <= NLOOP;
  t_in : pc th <> NotCreated -> pc th <> Loop -> pc th <> Returned -> loop_i th < NLOOP;
  t_first : pc th = NotCreated -> loop_i th = 0;
  t_last : pc th = Returned -> loop_i th = NLOOP;
  t_val : forall v, fetched th = Some v -> 0 <= v <= n /\ (1 <= loop_i th -> 1 <= v);
}.

(** Whatever the mutex does. *)
Record counted (f : tid -> thread) (n : Z) : Prop := {
  k_thread : forall t, thread_ok (assigned (f A) + assigned (f B)) (f t);
  k_upper : 0 <= n <= assigned (f A) + assigned (f B);
  k_one : forall t, 1 <= assigned (f t) -> 1 <= n;
  k_two : (forall t, NLOOP <= assigned (f t)) -> 2 <= n;
}.

(** What the main thread knows of the others. *)
Definition created (m : main_pc) (t : tid) : bool := match m, t with CreateA, _ | CreateB, B => false | _, _ => true end.
Definition joined (m : main_pc) (t : tid) : bool := match m, t with JoinB, A | Exit, _ => true | _, _ => false end.

Record main_ok (m : main_pc) (f : tid -> thread) (s : option Z) : Prop := {
  m_created : forall t, pc (f t) = NotCreated <-> created m t = false;
  m_joined : forall t, joined m t = true -> pc (f t) = Returned;
  m_status : s = Some 0 -> m = Exit;
}.

Lemma thread_ok_mono n n' th : n <= n' -> thread_ok n th -> thread_ok n' th.
Proof. intros Hn []. split; try done. intros v Hv. destruct (t_val0 v Hv). split; [lia|done]. Qed.

Lemma fetched_assigned th v : fetched th = Some v -> assigned th = loop_i th.
Proof. destruct th as [p i]. unfold fetched, assigned. cbn. destruct p; try done; lia. Qed.

Lemma set_thread_same t th f : set_thread t th f t = th.
Proof. unfold set_thread. by rewrite decide_True. Qed.
Lemma set_thread_other t t' th f : t' <> t -> set_thread t th f t' = f t'.
Proof. intros H. unfold set_thread. by rewrite decide_False. Qed.

Lemma forall_set (P : tid -> thread -> Prop) t th f :
  P t th -> (forall t', t' <> t -> P t' (f t')) -> forall t', P t' (set_thread t th f t').
Proof.
  intros Ht Ho t'. destruct (decide (t' = t)) as [->|Hne]; [by rewrite set_thread_same|].
  rewrite set_thread_other by done. by apply Ho.
Qed.

Lemma total_set (g : thread -> Z) t th f :
  g (set_thread t th f A) + g (set_thread t th f B) = g (f A) + g (f B) + (g th - g (f t)).
Proof. unfold set_thread. destruct t; repeat case_decide; try done; lia. Qed.

(** The counter after a statement of a thread: only an assignment changes it. *)
Definition counts (th th' : thread) (n n' : Z) : Prop :=
  n' = n /\ assigned th' = assigned th \/
  assigned th' = assigned th + 1 /\ exists v, fetched th = Some v /\ n' = v + 1.

(** A thread executes a statement. *)
Lemma counted_thread f n t th n' :
  counted f n -> counts (f t) th n n' ->
  thread_ok (assigned (f A) + assigned (f B) + (assigned th - assigned (f t))) th ->
  counted (set_thread t th f) n'.
Proof.
  intros [Ht Hu H1 H2] Hn Hok.
  assert (Hall : forall k, (n' = n /\ assigned th = assigned (f t)) ->
    forall t', k <= assigned (set_thread t th f t') <-> k <= assigned (f t')).
  { intros k [_ Ha]. apply (forall_set (fun t' th' => k <= assigned th' <-> k <= assigned (f t'))); [by rewrite Ha|done]. }
  split; rewrite ?total_set.
  - apply (forall_set (fun _ th' => thread_ok _ th')); [done|]. intros t' _. eapply thread_ok_mono; [|apply Ht].
    destruct Hn as [[_ ->]|[-> _]]; lia.
  - destruct Hn as [[-> ->]|[-> (v & Hv & ->)]]; [lia|]. destruct (t_val _ _ (Ht t) v Hv). lia.
  - destruct Hn as [Ha|[_ (v & Hv & ->)]]; [|destruct (t_val _ _ (Ht t) v Hv); lia].
    intros t' Hl%Hall; [|done]. destruct Ha as [-> _]. by apply (H1 t').
  - intros Hl. destruct Hn as [Ha|[Ha (v & Hv & ->)]].
    + pose proof Ha as [-> _]. apply H2. intros t'. by apply Hall.
    + destruct (t_val _ _ (Ht t) v Hv) as [_ Hv1]. specialize (Hl t). rewrite set_thread_same, Ha in Hl.
      rewrite (fetched_assigned _ _ Hv) in Hl. unfold NLOOP in Hl. specialize (Hv1 ltac:(lia)). lia.
Qed.

Lemma main_ok_thread m f s t th :
  main_ok m f s -> pc (f t) <> NotCreated -> pc (f t) <> Returned -> pc th <> NotCreated -> main_ok m (set_thread t th f) s.
Proof.
  intros [Hc Hj Hs] H1 H2 H3. split; [| |done].
  - apply (forall_set (fun t' th' => pc th' = NotCreated <-> created m t' = false)); [|intros t' _; apply Hc].
    split; [done|intros ?%Hc; done].
  - apply (forall_set (fun t' th' => joined m t' = true -> pc th' = Returned)); [intros ?%Hj; done|intros t' _; apply Hj].
Qed.

(** The statement takes the thread from one place to another, and the other thread stays where it is. *)
Ltac thread_step Hc Hok Hm Ep :=
  match goal with H : Some _ = Some _ |- _ => injection H as <- end; cbn [main_at thread_of counter counter_mutex out status]; split;
  [ eapply counted_thread;
    [ exact Hc
    | unfold counts, assigned, fetched; rewrite Ep; cbn [pc loop_i]; first [by left; split; lia | by right; split; [lia|eauto]]
    | destruct Hok as [Hi Hin Hf Hl Hv]; unfold assigned, fetched in *; rewrite Ep in *;
      try specialize (Hin ltac:(discriminate) ltac:(discriminate) ltac:(discriminate));
      split; cbn [pc loop_i] in *;
      [ lia | intros; (lia || congruence) | discriminate | intros; (lia || discriminate)
      | intros ? [=]; try (destruct (Hv _ eq_refl)); subst; (split; [lia|intros; lia]) ] ]
  | apply main_ok_thread; [exact Hm|by rewrite Ep|by rewrite Ep|discriminate] ].

Definition counter_ok (c : config) : Prop :=
  counted (thread_of c) (counter c) /\ main_ok (main_at c) (thread_of c) (status c).

Lemma counter_ok_doit p t c c' : counter_ok c -> doit_move p t c = Some c' -> counter_ok c'.
Proof.
  destruct c as [m f n mx o s]. intros [Hc Hm] H. unfold counter_ok.
  pose proof (k_thread _ _ Hc t) as Hok. pose proof (k_upper _ _ Hc) as Hu. pose proof (k_one _ _ Hc t) as H1.
  unfold doit_move, go in H. cbn [main_at thread_of counter counter_mutex out status] in *.
  destruct (pc (f t)) as [| | | |v|v| | |] eqn:Ep; try discriminate H.
  - destruct (Z.ltb_spec (loop_i (f t)) NLOOP) as [Hlt|Hge]; [destruct p|]; thread_step Hc Hok Hm Ep.
  - destruct mx; [discriminate H|]. thread_step Hc Hok Hm Ep.
  - thread_step Hc Hok Hm Ep.
  - thread_step Hc Hok Hm Ep.
  - destruct p; thread_step Hc Hok Hm Ep.
  - thread_step Hc Hok Hm Ep.
  - thread_step Hc Hok Hm Ep.
Qed.

Lemma counted_create f n t : counted f n -> pc (f t) = NotCreated -> counted (set_thread t (Thread Loop (loop_i (f t))) f) n.
Proof.
  intros Hc Ep. apply (counted_thread f n); [done|left; split; [done|]; unfold assigned; by rewrite Ep|].
  destruct (k_thread _ _ Hc t) as [Hi _ _ _ _]. split; cbn; try done.
Qed.

Lemma counter_ok_main c c' : counter_ok c -> status c = None -> main_move c = Some c' -> counter_ok c'.
Proof.
  destruct c as [m f n mx o s]. intros [Hc [Hcr Hj Hs]] Hs0 H. unfold counter_ok.
  unfold main_move, set_main, go in H. cbn [main_at thread_of counter counter_mutex out status] in *. subst s.
  destruct m; [| |destruct (pc (f A)) eqn:EA; try discriminate H|destruct (pc (f B)) eqn:EB; try discriminate H|];
    injection H as <-; cbn [main_at thread_of counter counter_mutex out status].
  - split; [apply counted_create; [done|by apply Hcr]|]. split; [|by intros []|done].
    apply (forall_set (fun t' th' => pc th' = NotCreated <-> _)); [done|]. intros [] Hne; [done|]. by rewrite Hcr.
  - split; [apply counted_create; [done|by apply Hcr]|]. split; [|by intros []|done].
    apply (forall_set (fun t' th' => pc th' = NotCreated <-> _)); [done|]. intros [] Hne; [|done]. by rewrite Hcr.
  - split; [done|]. split; [intros t; rewrite Hcr; by destruct t|by intros [] ?|done].
  - split; [done|]. split; [intros t; rewrite Hcr; by destruct t|intros [] ?; [by apply (Hj A)|done]|done].
  - split; [done|]. by split.
Qed.

Lemma counter_ok_step p m c c' : counter_ok c -> fire p m c = Some c' -> counter_ok c'.
Proof.
  intros Hc H. unfold fire in H. destruct (status c) eqn:Es; [discriminate H|]. destruct m as [|t|].
  - by eapply counter_ok_main.
  - by eapply counter_ok_doit.
  - injection H as <-. destruct Hc as [Hc [Hcr Hj _]]. split; [done|by split].
Qed.

Lemma counter_ok_start : counter_ok start.
Proof.
  split; split; cbn; try done. intros H. specialize (H A). unfold assigned, NLOOP in H. cbn in H. lia.
Qed.

Lemma reachable_counter_ok p c : reachable p c -> counter_ok c.
Proof. induction 1 as [|m c c' _ IH H]; [apply counter_ok_start|by eapply counter_ok_step]. Qed.

(** ** With the mutex *)

Definition holds (th : thread) : bool := match pc th with Fetch | Show _ | Assign _ | Unlock => true | _ => false end.

(** The line of the value that has not been assigned yet. *)
Definition shown (th : thread) : Z := match pc th with Assign _ => 1 | _ => 0 end.

Record locked (f : tid -> thread) (n : Z) (mx : option tid) (o : list (tid * Z)) : Prop := {
  l_mutex : forall t, mx = Some t <-> holds (f t) = true;
  l_val : forall t v, fetched (f t) = Some v -> v = n;
  l_count : n = assigned (f A) + assigned (f B);
  l_out : o.*2 = seqZ 1 (n + shown (f A) + shown (f B));
}.

(** A thread without the mutex has neither fetched nor shown a value. *)
Lemma not_holding th : holds th = false -> fetched th = None /\ shown th = 0.
Proof. unfold holds, fetched, shown. by destruct (pc th). Qed.

Lemma locked_others f n mx o t t' : locked f n mx o -> mx = Some t -> t' <> t -> holds (f t') = false.
Proof.
  intros Hl Hm Hne. destruct (holds (f t')) eqn:Eh; [|done]. apply (l_mutex _ _ _ _ Hl) in Eh. congruence.
Qed.

Lemma other_shown f n mx o t : locked f n mx o -> mx = Some t -> shown (f A) + shown (f B) = shown (f t).
Proof.
  intros Hl Hm. destruct t.
  - rewrite (proj2 (not_holding (f B) ltac:(by eapply locked_others))). lia.
  - rewrite (proj2 (not_holding (f A) ltac:(by eapply locked_others))). lia.
Qed.

(** What the statement of a thread does to the mutex, the counter and the output. *)
Inductive effect (t : tid) (th : thread) (n : Z) (mx : option tid) (o : list (tid * Z)) :
    thread -> Z -> option tid -> list (tid * Z) -> Prop :=
| e_free th' : holds th = false -> holds th' = false -> assigned th' = assigned th -> effect t th n mx o th' n mx o
| e_lock th' : holds th = false -> mx = None -> holds th' = true -> fetched th' = None -> shown th' = 0 -> assigned th' = assigned th ->
    effect t th n mx o th' n (Some t) o
| e_fetch th' : holds th = true -> holds th' = true -> shown th = 0 -> fetched th' = Some n -> shown th' = 0 -> assigned th' = assigned th ->
    effect t th n mx o th' n mx o
| e_show th' v : holds th = true -> holds th' = true -> fetched th = Some v -> fetched th' = Some v -> shown th = 0 -> shown th' = 1 ->
    assigned th' = assigned th -> effect t th n mx o th' n mx (o ++ [(t, v + 1)])
| e_assign th' v : holds th = true -> holds th' = true -> fetched th = Some v -> fetched th' = None -> shown th = 1 -> shown th' = 0 ->
    assigned th' = assigned th + 1 -> effect t th n mx o th' (v + 1) mx o
| e_unlock th' : holds th = true -> holds th' = false -> shown th = 0 -> assigned th' = assigned th ->
    effect t th n mx o th' n None o.

Lemma doit_effect t c c' : doit_move Example02 t c = Some c' ->
  exists th', thread_of c' = set_thread t th' (thread_of c) /\ main_at c' = main_at c /\ status c' = status c /\
    effect t (thread_of c t) (counter c) (counter_mutex c) (out c) th' (counter c') (counter_mutex c') (out c').
Proof.
  destruct c as [m f n mx o s]. unfold doit_move, go. cbn [main_at thread_of counter counter_mutex out status].
  destruct (f t) as [p i] eqn:Ef. cbn [pc loop_i].
  destruct p as [| | | |v|v| | |]; intros H; try discriminate H.
  1: destruct (i <? NLOOP).
  3: destruct mx; [discriminate H|].
  all: injection H as <-; eexists; split; [reflexivity|]; cbn [main_at thread_of counter counter_mutex out status].
  all: split; [done|]; split; [done|].
  1-2: by apply e_free.
  - by apply e_lock.
  - by apply e_fetch.
  - by eapply e_show.
  - eapply e_assign; try done. unfold assigned. cbn. lia.
  - by apply e_unlock.
  - apply e_free; try done. unfold assigned. cbn. lia.
Qed.

Lemma locked_set f n mx o t th n' mx' o' :
  locked f n mx o ->
  (mx' = Some t <-> holds th = true) -> (forall t', t' <> t -> mx' = Some t' <-> holds (f t') = true) ->
  (forall v, fetched th = Some v -> v = n') -> (forall t' v, t' <> t -> fetched (f t') = Some v -> v = n') ->
  n' = n + (assigned th - assigned (f t)) ->
  o'.*2 = seqZ 1 (n' + (shown (f A) + shown (f B) + (shown th - shown (f t)))) ->
  locked (set_thread t th f) n' mx' o'.
Proof.
  intros Hl Hm Hmo Hv Hvo Hn Ho. split.
  - by apply (forall_set (fun t' th' => mx' = Some t' <-> holds th' = true)).
  - intros t' v. revert t'. apply (forall_set (fun t' th' => fetched th' = Some v -> v = n')); [apply Hv|].
    intros t' Hne. by apply Hvo.
  - rewrite total_set, Hn, (l_count _ _ _ _ Hl). lia.
  - by rewrite <- Z.add_assoc, total_set.
Qed.

Lemma locked_effect f n mx o t th n' mx' o' :
  locked f n mx o -> 0 <= n -> effect t (f t) n mx o th n' mx' o' -> locked (set_thread t th f) n' mx' o'.
Proof.
  intros Hl Hpos He. pose proof (l_mutex _ _ _ _ Hl) as Hm. pose proof (l_val _ _ _ _ Hl) as Hv.
  pose proof (l_out _ _ _ _ Hl) as Ho. rewrite <- Z.add_assoc in Ho.
  assert (Hmine : holds (f t) = true -> mx = Some t /\ (forall t', t' <> t -> holds (f t') = false /\ fetched (f t') = None) /\
    shown (f A) + shown (f B) = shown (f t)).
  { intros Hmx%Hm. split_and!; [done| |by eapply other_shown]. intros t' Hne.
    pose proof (locked_others _ _ _ _ _ _ Hl Hmx Hne) as Hh. split; [done|by apply not_holding]. }
  destruct He as [th Hh Hh' Ha|th Hh Hn Hh' Hf Hs Ha|th Hh Hh' Hs Hf Hs' Ha|th v Hh Hh' Hf Hf' Hs Hs' Ha|th v Hh Hh' Hf Hf' Hs Hs' Ha|th Hh Hh' Hs Ha];
    apply (locked_set f n mx o); try done; try lia.
  - by rewrite Hm, Hh, Hh'.
  - by rewrite (proj1 (not_holding th Hh')).
  - intros ?? _. apply Hv.
  - rewrite Ho, (proj2 (not_holding th Hh')), (proj2 (not_holding (f t) Hh)). f_equal. lia.
  - intros t' Hne. rewrite <- Hm, Hn. split; [by intros [= ->]|done].
  - by rewrite Hf.
  - intros ?? _. apply Hv.
  - rewrite Ho, Hs, (proj2 (not_holding (f t) Hh)). f_equal. lia.
  - by rewrite Hm, Hh, Hh'.
  - rewrite Hf. by intros ? [= ->].
  - intros ?? _. apply Hv.
  - rewrite Ho, Hs, Hs'. f_equal. lia.
  - by rewrite Hm, Hh, Hh'.
  - rewrite Hf', <- Hf. apply Hv.
  - intros ?? _. apply Hv.
  - destruct (Hmine Hh) as (_ & _ & Hsum). rewrite fmap_app, Ho, (Hv t v Hf), Hsum, Hs, Hs'. cbn [fmap list_fmap snd].
    replace (n + (0 + (1 - 0))) with (n + 1) by lia. rewrite Z.add_0_r, seqZ_snoc by done. by rewrite Z.add_comm.
  - by rewrite Hm, Hh, Hh'.
  - by rewrite Hf'.
  - intros t' v' Hne. by rewrite (proj2 (proj1 (proj2 (Hmine Hh)) t' Hne)).
  - rewrite (Hv t v Hf). lia.
  - rewrite Ho, Hs, Hs', (Hv t v Hf). f_equal. lia.
  - rewrite Hh'. split; [done|done].
  - intros t' Hne. rewrite (proj1 (proj1 (proj2 (Hmine Hh)) t' Hne)). done.
  - by rewrite (proj1 (not_holding th Hh')).
  - intros ?? _. apply Hv.
  - rewrite Ho, (proj2 (not_holding th Hh')), Hs. f_equal. lia.
Qed.

Definition all_locked (c : config) : Prop := locked (thread_of c) (counter c) (counter_mutex c) (out c).

Lemma locked_create f n mx o t :
  locked f n mx o -> pc (f t) = NotCreated -> locked (set_thread t (Thread Loop (loop_i (f t))) f) n mx o.
Proof.
  intros Hl Ep. assert (Eh : holds (f t) = false) by (unfold holds; by rewrite Ep).
  assert (Ea : assigned (f t) = loop_i (f t) + 0) by (unfold assigned; by rewrite Ep).
  assert (Es : shown (f t) = 0) by (unfold shown; by rewrite Ep).
  apply (locked_set f n mx o); try done; rewrite ?Ea, ?Es.
  - by rewrite (l_mutex _ _ _ _ Hl), Eh.
  - intros t' _. apply (l_mutex _ _ _ _ Hl).
  - intros t' v _. apply (l_val _ _ _ _ Hl).
  - unfold assigned. cbn. lia.
  - rewrite (l_out _ _ _ _ Hl), Z.add_assoc. f_equal. cbn. lia.
Qed.

Lemma locked_step m c c' : counter_ok c -> all_locked c -> fire Example02 m c = Some c' -> all_locked c'.
Proof.
  intros [Hc Hm] Hl H. unfold fire in H. destruct (status c) eqn:Es; [discriminate H|]. destruct m as [|t|].
  - unfold main_move, set_main, go, all_locked in *. destruct c as [m f n mx o s].
    cbn [main_at thread_of counter counter_mutex out status] in *. destruct Hm as [Hcr _ _].
    destruct m; [| |destruct (pc (f A)); try discriminate H|destruct (pc (f B)); try discriminate H|];
      injection H as <-; cbn [main_at thread_of counter counter_mutex out status]; try done.
    all: apply locked_create; [done|by apply Hcr].
  - destruct (doit_effect t c c' H) as (th & Ef & _ & _ & He). unfold all_locked in *. rewrite Ef.
    eapply locked_effect; [done|apply Hc|done].
  - by injection H as <-.
Qed.

(** ** The end *)

(** The statements that a thread, and the program, has yet to execute, at most. *)
Definition thread_work (th : thread) : Z :=
  8 * (NLOOP - loop_i th) +
  match pc th with
  | NotCreated => 8 | Loop => 7 | Lock => 6 | Fetch => 5 | Show _ => 4 | Assign _ => 3 | Unlock => 2 | Next => 1 | Returned => 0
  end.
Definition main_work (m : main_pc) : Z := match m with CreateA => 5 | CreateB => 4 | JoinA => 3 | JoinB => 2 | Exit => 1 end.
Definition program_work (c : config) : nat :=
  match status c with
  | None => Z.to_nat (main_work (main_at c) + (thread_work (thread_of c A) + thread_work (thread_of c B)))
  | Some _ => 0
  end.

(** Errors are not part of the schedules that lead to the end. *)
Definition error_cost (m : move) : nat := match m with Fail_ => 1 | _ => 0 end.

Lemma thread_work_nonneg n th : thread_ok n th -> 0 <= thread_work th.
Proof. intros [Hi _ _ _ _]. unfold thread_work. destruct (pc th); lia. Qed.

Lemma doit_works p t c c' : doit_move p t c = Some c' ->
  main_at c' = main_at c /\ status c' = status c /\
  thread_work (thread_of c' A) + thread_work (thread_of c' B) < thread_work (thread_of c A) + thread_work (thread_of c B).
Proof.
  unfold doit_move, go. intros H. pose proof (eq_refl (thread_work (thread_of c t))) as Ew. unfold thread_work in Ew at 2.
  destruct (pc (thread_of c t)) as [| | | |v|v| | |] eqn:Ep; try discriminate H;
    [destruct (loop_i (thread_of c t) <? NLOOP), p|destruct (counter_mutex c); [discriminate H|]| | |destruct p| |];
    injection H as <-; cbn [main_at thread_of counter counter_mutex out status]; rewrite total_set, Ew;
    (split; [done|]; split; [done|]); generalize (thread_work (thread_of c A)) (thread_work (thread_of c B)); intros; unfold thread_work; cbn [pc loop_i]; lia.
Qed.

Lemma main_works c c' : counter_ok c -> status c = None -> main_move c = Some c' -> (program_work c' < program_work c)%nat.
Proof.
  intros [Hc Hm] Hs H. unfold main_move, set_main, go in H. destruct c as [m f n mx o s].
  cbn [main_at thread_of counter counter_mutex out status] in *. subst s.
  pose proof (thread_work_nonneg _ _ (k_thread _ _ Hc A)). pose proof (thread_work_nonneg _ _ (k_thread _ _ Hc B)).
  assert (Hcr : forall t, pc (f t) = NotCreated -> thread_work (Thread Loop (loop_i (f t))) - thread_work (f t) = -1).
  { intros t Ep. unfold thread_work. rewrite Ep. cbn. lia. }
  destruct Hm as [Hn _ _]. unfold program_work.
  destruct m; [| |destruct (pc (f A)); try discriminate H|destruct (pc (f B)); try discriminate H|];
    injection H as <-; cbn [main_at thread_of counter counter_mutex out status main_work];
    rewrite ?total_set; try rewrite Hcr by (by apply Hn); lia.
Qed.

Lemma program_work_step p m c c' :
  counter_ok c -> fire p m c = Some c' -> (S (program_work c') <= program_work c)%nat.
Proof.
  intros Hok H. unfold fire in H. destruct (status c) eqn:Es; [discriminate H|]. destruct m as [|t|].
  - pose proof (main_works _ _ Hok Es H). lia.
  - destruct (doit_works _ _ _ _ H) as (Em & Es' & Hw). unfold program_work. rewrite Em, Es', Es.
    destruct (counter_ok_doit _ _ _ _ Hok H) as [Hc _].
    pose proof (thread_work_nonneg _ _ (k_thread _ _ Hc A)). pose proof (thread_work_nonneg _ _ (k_thread _ _ Hc B)).
    destruct (main_at c); cbn [main_work]; lia.
  - injection H as <-. destruct Hok as [Hc _]. unfold program_work. cbn [status]. rewrite Es.
    pose proof (thread_work_nonneg _ _ (k_thread _ _ Hc A)). pose proof (thread_work_nonneg _ _ (k_thread _ _ Hc B)).
    destruct (main_at c); cbn [main_work]; lia.
Qed.

(** What the two programs do with the mutex. *)
Definition mutex_ok (p : program) (c : config) : Prop :=
  match p with
  | Example01 => forall t, pc (thread_of c t) <> Lock
  | Example02 => all_locked c
  end.

Definition program_ok (p : program) (c : config) : Prop := counter_ok c /\ mutex_ok p c.

Lemma unlocked_step m c c' : mutex_ok Example01 c -> fire Example01 m c = Some c' -> mutex_ok Example01 c'.
Proof.
  intros Hl H. unfold fire in H. destruct (status c); [discriminate H|].
  assert (Hset : forall t th, pc th <> Lock -> forall t', pc (set_thread t th (thread_of c) t') <> Lock).
  { intros t th Ht. apply (forall_set (fun _ th' => pc th' <> Lock)); [done|]. intros t' _. apply Hl. }
  destruct m as [|t|]; [unfold main_move, set_main, go in H|unfold doit_move, go in H|by injection H as <-].
  - repeat case_match; try discriminate H; injection H as <-; cbn [mutex_ok thread_of]; done || by apply Hset.
  - repeat case_match; try discriminate H; injection H as <-; cbn [mutex_ok thread_of]; by apply Hset.
Qed.

Lemma program_ok_step p m c c' : program_ok p c -> fire p m c = Some c' -> program_ok p c'.
Proof.
  intros [Hc Hm] H. split; [by eapply counter_ok_step|]. destruct p; [by eapply unlocked_step|by eapply locked_step].
Qed.

Lemma program_ok_start p : program_ok p start.
Proof. split; [apply counter_ok_start|]. destruct p; [done|]. by split. Qed.

(** A thread that has been created and has not returned can move, or waits for the other, which can. *)
Lemma doit_progress p c t :
  mutex_ok p c -> pc (thread_of c t) <> NotCreated -> pc (thread_of c t) <> Returned -> exists t', is_Some (doit_move p t' c).
Proof.
  intros Hl Hn Hr. unfold doit_move.
  destruct (pc (thread_of c t)) eqn:Ep; try done; try (exists t; rewrite Ep; by destruct p).
  - exists t. rewrite Ep. by destruct (loop_i (thread_of c t) <? NLOOP).
  - destruct (counter_mutex c) as [t'|] eqn:Em; [|exists t; by rewrite Ep].
    destruct p; [by specialize (Hl t)|]. exists t'. apply (l_mutex _ _ _ _ Hl) in Em.
    unfold holds in Em. by destruct (pc (thread_of c t')).
Qed.

Lemma program_progress p c :
  program_ok p c -> status c = None -> exists m c', fire p m c = Some c' /\ error_cost m = 0%nat.
Proof.
  intros [[_ Hm] Hl] Hs. unfold fire. rewrite Hs.
  assert (Hwait : forall t, created (main_at c) t = true -> pc (thread_of c t) <> Returned ->
    exists m c', fire p m c = Some c' /\ error_cost m = 0%nat).
  { intros t Ht Hr. destruct (doit_progress p c t Hl) as (t' & c' & H); [|done|].
    { intros E%(m_created _ _ _ Hm). congruence. }
    exists (Doit t'), c'. unfold fire. by rewrite Hs. }
  unfold fire in Hwait. rewrite Hs in Hwait.
  destruct (main_at c) eqn:Em; try (eexists Main, _; unfold main_move; rewrite Em; done).
  - destruct (pc (thread_of c A)) eqn:Ep; try (apply (Hwait A); [done|by rewrite Ep]).
    eexists Main, _. unfold main_move. by rewrite Em, Ep.
  - destruct (pc (thread_of c B)) eqn:Ep; try (apply (Hwait B); [done|by rewrite Ep]).
    eexists Main, _. unfold main_move. by rewrite Em, Ep.
Qed.

Lemma done_threads c : counter_ok c -> status c = Some 0 -> forall t, thread_of c t = Thread Returned NLOOP.
Proof.
  intros [Hc Hm] Hs t. pose proof (m_status _ _ _ Hm Hs) as Em. pose proof (m_joined _ _ _ Hm t ltac:(by rewrite Em)) as Ep.
  pose proof (t_last _ _ (k_thread _ _ Hc t) Ep). destruct (thread_of c t). cbn in *. congruence.
Qed.

Definition running (c : config) : Prop := status c = None \/ status c = Some 0.

Lemma counter_running_step p m c c' :
  running c -> ~ status c <> None -> error_cost m = 0%nat -> fire p m c = Some c' -> running c'.
Proof.
  intros _ Hn Hcost H. unfold fire in H. destruct (status c) eqn:Es; [discriminate H|]. unfold running.
  destruct m as [|t|]; [|destruct (doit_works _ _ _ _ H) as (_ & -> & _); auto|done].
  unfold main_move, set_main, go in H. repeat case_match; try discriminate H; injection H as <-; cbn; auto.
Qed.

Lemma program_completes p c :
  program_ok p c -> status c = None -> exists more c', run_moves p more c = Some c' /\ status c' = Some 0.
Proof.
  intros Hok Hs.
  assert (Hw : forall m c c', program_ok p c -> fire p m c = Some c' -> (S (program_work c') <= program_work c + error_cost m)%nat).
  { intros m c0 c1 [Hc _] H. pose proof (program_work_step _ _ _ _ Hc H). lia. }
  destruct (runs_complete (fire p) (program_ok p) program_work error_cost (program_ok_step p) Hw running (fun c => status c <> None)
    (counter_running_step p)) with (c := c) as (more & c' & Hr & Hf & Hl & _); [|done|by left|].
  - intros c0 Hok0 _ Hn. apply program_progress; [done|]. by destruct (status c0); [destruct Hn|].
  - exists more, c'. split; [done|]. by destruct Hl.
Qed.
End CounterFacts.

Section CounterClaims.
Import Counter CounterFacts.

(** The programs [example01.c] and [example02.c] end, and what their counter is then.
    Whatever the scheduler does, a run is finite (the bound is the work of the start) and, unless
    a call of the threads library fails, can be continued until the program exits with status 0.
    With the mutex the lines that are printed are 1, 2, 3, ... at any time, and at the end the
    counter is the number of iterations of both threads.  Without it the counter is at the end
    only known to be between 2 and that number. *)
Theorem counter_programs p ms c :
  run_moves p ms start = Some c ->
  (length ms <= program_work start)%nat /\
  (status c = None -> exists more c', run_moves p more c = Some c' /\ status c' = Some 0) /\
  (p = Example02 -> (out c).*2 = seqZ 1 (Z.of_nat (length (out c)))) /\
  (status c = Some 0 ->
     match p with
     | Example01 => 2 <= counter c <= 2 * NLOOP
     | Example02 => counter c = 2 * NLOOP /\ length (out c) = Z.to_nat (2 * NLOOP)
     end).
Proof.
  intros Hrun. assert (Hok : program_ok p c) by (eapply (runs_inv (fire p)); [apply program_ok_step|apply program_ok_start|exact Hrun]).
  split_and!.
  - pose proof (runs_bounded (fire p) (program_ok p) program_work (fun _ => 0%nat) (program_ok_step p)) as Hb.
    specialize (Hb ltac:(intros m c0 c1 [Hc _] H; pose proof (program_work_step _ _ _ _ Hc H); lia) ms start c (program_ok_start p) Hrun).
    replace (sum_list_with (fun _ : move => 0%nat) ms) with 0%nat in Hb by (clear; induction ms; done). lia.
  - by apply program_completes.
  - intros ->. destruct Hok as [[Hc _] Hl]. pose proof (l_out _ _ _ _ Hl) as Ho. rewrite Ho. f_equal.
    apply (f_equal length) in Ho. rewrite length_fmap, length_seqZ in Ho. rewrite Ho, Z2Nat.id; [done|].
    pose proof (k_upper _ _ Hc). unfold shown. repeat case_match; lia.
  - intros Hs. destruct Hok as [Hc Hl]. pose proof (done_threads c Hc Hs) as Hd. destruct Hc as [Hc _]. destruct p.
    + split; [|pose proof (k_upper _ _ Hc) as Hu; rewrite !Hd in Hu; unfold assigned in Hu; cbn [pc loop_i] in Hu; lia].
      apply (k_two _ _ Hc). intros t. rewrite Hd. unfold assigned. cbn [pc loop_i]. lia.
    + pose proof (l_count _ _ _ _ Hl) as Hn. pose proof (l_out _ _ _ _ Hl) as Ho. rewrite !Hd in Hn, Ho.
      unfold assigned, shown in Hn, Ho. cbn [pc loop_i] in Hn, Ho. split; [lia|].
      apply (f_equal length) in Ho. rewrite length_fmap, length_seqZ in Ho. rewrite Ho. f_equal. lia.
Qed.

(** Two iterations of thread B between fetch and assignment of thread A. *)
Definition race : list move :=
  [Main; Main; Doit A; Doit A] ++ replicate 10 (Doit B) ++ [Doit A; Doit A].

Lemma counter_programs_witness :
  (length race <= program_work start)%nat /\
  exists c, run_moves Example01 race start = Some c /\ out c = [(B, 1); (B, 2); (A, 1)] /\ counter c = 1 /\
    exists more c', run_moves Example01 more c = Some c' /\ status c' = Some 0.
Proof.
  destruct (run_moves Example01 race start) as [c|] eqn:E; [|vm_compute in E; discriminate E].
  destruct (counter_programs Example01 race c E) as (Hb & Hend & _). split; [exact Hb|].
  exists c. split; [reflexivity|].
  assert (H : (out <$> run_moves Example01 race start, counter <$> run_moves Example01 race start, status <$> run_moves Example01 race start)
    = (Some [(B, 1); (B, 2); (A, 1)], Some 1, Some None)) by (vm_compute; reflexivity).
  rewrite E in H. injection H as Ho Hn Hs. split; [exact Ho|]. split; [exact Hn|]. exact (Hend Hs).
Defined.

(** Without the mutex the values that are printed do not increase: after three lines the counter
    has gone back to 1. *)
Lemma example01_not_monotonic :
  (fun c => ((out c).*2, counter c)) <$> run_moves Example01 race start = Some ([1; 2; 1], 1).
Proof. vm_compute. reflexivity. Qed.
End CounterClaims.

(** * The bounded buffer *)

Module BufferFacts.
Import Buffer.

(** How often a thread has executed the statements of its loop: index advanced, items counted,
    line shown, item stored. *)
Definition put (p : produce_pc) : Z := match p with PCount | PSignal | PUnlock | PNext => 1 | _ => 0 end.
Definition put_counted (p : produce_pc) : Z := match p with PSignal | PUnlock | PNext => 1 | _ => 0 end.
Definition put_shown (p : produce_pc) : Z :=
  match p with PStore | PAdvance | PCount | PSignal | PUnlock | PNext => 1 | _ => 0 end.
Definition stored (p : produce_pc) : Z := match p with PAdvance | PCount | PSignal | PUnlock | PNext => 1 | _ => 0 end.
Definition got (k : consume_pc) : Z := match k with CCount | CSignal | CUnlock | CNext => 1 | _ => 0 end.
Definition got_counted (k : consume_pc) : Z := match k with CSignal | CUnlock | CNext => 1 | _ => 0 end.
Definition got_shown (k : consume_pc) : Z := match k with CAdvance | CCount | CSignal | CUnlock | CNext => 1 | _ => 0 end.

(** The statements that are executed with the mutex, and those behind the loop that waits. *)
Definition p_room (p : produce_pc) : bool := match p with PShow | PStore | PAdvance | PCount => true | _ => false end.
Definition c_data (k : consume_pc) : bool := match k with CFetch | CShow _ | CAdvance | CCount => true | _ => false end.
Definition p_holds (p : produce_pc) : bool := match p with PTest | PSignal | PUnlock => true | _ => p_room p end.
Definition c_holds (k : consume_pc) : bool := match k with CTest | CSignal | CUnlock => true | _ => c_data k end.

Definition p_inside (p : produce_pc) : bool := match p with PNotCreated | PStart | PLoop | PReturned => false | _ => true end.
Definition c_inside (k : consume_pc) : bool := match k with CNotCreated | CStart | CLoop | CReturned => false | _ => true end.

Definition p_new (p : produce_pc) : bool := match p with PNotCreated => true | _ => false end.
Definition c_new (k : consume_pc) : bool := match k with CNotCreated => true | _ => false end.

Record loops_ok (c : config) : Prop := {
  lp_i : 0 <= p_i c <= NLOOP /\ (p_inside (p_at c) = true -> p_i c < NLOOP);
  lc_i : 0 <= c_i c <= NLOOP /\ (c_inside (c_at c) = true -> c_i c < NLOOP);
  lp_first : p_at c = PNotCreated -> p_i c = 0;
  lc_first : c_at c = CNotCreated -> c_i c = 0;
  lp_last : p_at c = PReturned -> p_i c = NLOOP;
  lc_last : c_at c = CReturned -> c_i c = NLOOP;
  lp_main : p_new (p_at c) = match main_at c with Greet | CreateA => true | _ => false end;
  lc_main : c_new (c_at c) = match main_at c with Greet | CreateA | CreateB => true | _ => false end;
  lp_join : match main_at c with JoinB | Exit => true | _ => false end = true -> p_at c = PReturned;
  lc_join : match main_at c with Exit => true | _ => false end = true -> c_at c = CReturned;
  l_status : status c = Some 0 -> main_at c = Exit;
}.

(** At most one thread is between lock and unlock. *)
Record exclusive (c : config) : Prop := {
  x_p : b_mutex (buf c) = Some Producer <-> p_holds (p_at c) = true;
  x_c : b_mutex (buf c) = Some Consumer <-> c_holds (c_at c) = true;
}.

Definition spurious (mv : move) : bool := match mv with Spurious _ => true | _ => false end.

(** The moves as rules; [true] marks a thread that wakes up without a signal. *)
Inductive rule : bool -> config -> config -> Prop :=
| r_greet p i k j b o : rule false (Config Greet p i k j b o None) (Config CreateA p i k j b o None)
| r_createA p i k j b o : rule false (Config CreateA p i k j b o None) (Config CreateB PStart i k j b o None)
| r_createB p i k j b o : rule false (Config CreateB p i k j b o None) (Config JoinA p i CStart j b o None)
| r_joinA i k j b o : rule false (Config JoinA PReturned i k j b o None) (Config JoinB PReturned i k j b o None)
| r_joinB p i j b o : rule false (Config JoinB p i CReturned j b o None) (Config Exit p i CReturned j b o None)
| r_exit p i k j b o : rule false (Config Exit p i k j b o None) (Config Exit p i k j b o (Some 0))
| r_fail m p i k j b o : rule false (Config m p i k j b o None) (Config m p i k j b o (Some 1))
| r_pstart m i k j b o : rule false (Config m PStart i k j b o None) (Config m PLoop i k j b o None)
| r_ploop m i k j b o : i < NLOOP -> rule false (Config m PLoop i k j b o None) (Config m PLock i k j b o None)
| r_preturn m i k j b o : NLOOP <= i -> rule false (Config m PLoop i k j b o None) (Config m PReturned i k j b o None)
| r_plock m p i k j a n g u o : p = PLock \/ p = PWoken ->
    rule false (Config m p i k j (Buf a n g u None) o None) (Config m PTest i k j (Buf a n g u (Some Producer)) o None)
| r_pwait m i k j a n g u mx o : Z.of_nat BUFFSIZE <= n ->
    rule false (Config m PTest i k j (Buf a n g u mx) o None) (Config m PAsleep i k j (Buf a n g u None) o None)
| r_proom m i k j a n g u mx o : n < Z.of_nat BUFFSIZE ->
    rule false (Config m PTest i k j (Buf a n g u mx) o None) (Config m PShow i k j (Buf a n g u mx) o None)
| r_pshow m i k j b o : rule false (Config m PShow i k j b o None) (Config m PStore i k j b (o ++ [Produced i]) None)
| r_pstore m i k j a n g u mx o : (u < length a)%nat ->
    rule false (Config m PStore i k j (Buf a n g u mx) o None) (Config m PAdvance i k j (Buf (<[u := i]> a) n g u mx) o None)
| r_padvance m i k j a n g u mx o :
    rule false (Config m PAdvance i k j (Buf a n g u mx) o None) (Config m PCount i k j (Buf a n g (next_index u) mx) o None)
| r_pcount m i k j a n g u mx o :
    rule false (Config m PCount i k j (Buf a n g u mx) o None) (Config m PSignal i k j (Buf a (n + 1) g u mx) o None)
| r_pwake m i j b o : rule false (Config m PSignal i CAsleep j b o None) (Config m PUnlock i CWoken j b o None)
| r_pnobody m i k j b o : k <> CAsleep -> rule false (Config m PSignal i k j b o None) (Config m PUnlock i k j b o None)
| r_punlock m i k j a n g u mx o :
    rule false (Config m PUnlock i k j (Buf a n g u mx) o None) (Config m PNext i k j (Buf a n g u None) o None)
| r_pnext m i k j b o : rule false (Config m PNext i k j b o None) (Config m PLoop (i + 1) k j b o None)
| r_pspurious m i k j b o : rule true (Config m PAsleep i k j b o None) (Config m PWoken i k j b o None)
| r_cstart m p i j b o : rule false (Config m p i CStart j b o None) (Config m p i CLoop j b o None)
| r_cloop m p i j b o : j < NLOOP -> rule false (Config m p i CLoop j b o None) (Config m p i CLock j b o None)
| r_creturn m p i j b o : NLOOP <= j -> rule false (Config m p i CLoop j b o None) (Config m p i CReturned j b o None)
| r_clock m p i k j a n g u o : k = CLock \/ k = CWoken ->
    rule false (Config m p i k j (Buf a n g u None) o None) (Config m p i CTest j (Buf a n g u (Some Consumer)) o None)
| r_cwait m p i j a n g u mx o : n <= 0 ->
    rule false (Config m p i CTest j (Buf a n g u mx) o None) (Config m p i CAsleep j (Buf a n g u None) o None)
| r_cdata m p i j a n g u mx o : 0 < n ->
    rule false (Config m p i CTest j (Buf a n g u mx) o None) (Config m p i CFetch j (Buf a n g u mx) o None)
| r_cfetch m p i j a n g u mx o v : a !! g = Some v ->
    rule false (Config m p i CFetch j (Buf a n g u mx) o None) (Config m p i (CShow v) j (Buf a n g u mx) o None)
| r_cshow m p i j b o v : rule false (Config m p i (CShow v) j b o None) (Config m p i CAdvance j b (o ++ [Consumed v]) None)
| r_cadvance m p i j a n g u mx o :
    rule false (Config m p i CAdvance j (Buf a n g u mx) o None) (Config m p i CCount j (Buf a n (next_index g) u mx) o None)
| r_ccount m p i j a n g u mx o :
    rule false (Config m p i CCount j (Buf a n g u mx) o None) (Config m p i CSignal j (Buf a (n - 1) g u mx) o None)
| r_cwake m i j b o : rule false (Config m PAsleep i CSignal j b o None) (Config m PWoken i CUnlock j b o None)
| r_cnobody m p i j b o : p <> PAsleep -> rule false (Config m p i CSignal j b o None) (Config m p i CUnlock j b o None)
| r_cunlock m p i j a n g u mx o :
    rule false (Config m p i CUnlock j (Buf a n g u mx) o None) (Config m p i CNext j (Buf a n g u None) o None)
| r_cnext m p i j b o : rule false (Config m p i CNext j b o None) (Config m p i CLoop (j + 1) b o None)
| r_cspurious m p i j b o : rule true (Config m p i CAsleep j b o None) (Config m p i CWoken j b o None).

Ltac unfold_moves :=
  unfold main_move, produce_move, consume_move, lock, unlock, set_main, p_go, c_go, set_buf, show, set_mutex, store;
  cbn [main_at p_at p_i c_at c_i buf out status b_buf b_nitems b_nextget b_nextput b_mutex].

Lemma buffer_main_rule m p i k j b o c' : main_move (Config m p i k j b o None) = Some c' -> rule false (Config m p i k j b o None) c'.
Proof.
  unfold_moves. destruct m; [| | |destruct p; try discriminate|destruct k; try discriminate|]; intros [= <-]; constructor.
Qed.

Lemma produce_rule m p i k j b o c' : produce_move (Config m p i k j b o None) = Some c' -> rule false (Config m p i k j b o None) c'.
Proof.
  destruct b as [a n g u mx]. unfold_moves. destruct p; try discriminate.
  - intros [= <-]. constructor.
  - destruct (Z.ltb_spec i NLOOP); intros [= <-]; by constructor.
  - destruct mx; intros [= <-]. constructor. auto.
  - destruct (Z.leb_spec (Z.of_nat BUFFSIZE) n); intros [= <-]; by constructor.
  - destruct mx; intros [= <-]. constructor. auto.
  - intros [= <-]. constructor.
  - case_decide; cbn [mbind option_bind]; intros [= <-]. by constructor.
  - intros [= <-]. constructor.
  - intros [= <-]. constructor.
  - destruct k; intros [= <-]; by constructor.
  - intros [= <-]. constructor.
  - intros [= <-]. constructor.
Qed.

Lemma consume_rule m p i k j b o c' : consume_move (Config m p i k j b o None) = Some c' -> rule false (Config m p i k j b o None) c'.
Proof.
  destruct b as [a n g u mx]. unfold_moves. destruct k; try discriminate.
  - intros [= <-]. constructor.
  - destruct (Z.ltb_spec j NLOOP); intros [= <-]; by constructor.
  - destruct mx; intros [= <-]. constructor. auto.
  - destruct (Z.leb_spec n 0); intros [= <-]; by constructor.
  - destruct mx; intros [= <-]. constructor. auto.
  - destruct (a !! g) eqn:E; cbn [mbind option_bind]; intros [= <-]. by constructor.
  - intros [= <-]. constructor.
  - intros [= <-]. constructor.
  - intros [= <-]. constructor.
  - destruct p; intros [= <-]; by constructor.
  - intros [= <-]. constructor.
  - intros [= <-]. constructor.
Qed.

Lemma buffer_fire_rule mv c c' : fire mv c = Some c' -> rule (spurious mv) c c'.
Proof.
  destruct c as [m p i k j b o [s|]]; [discriminate|]. unfold fire. cbn [status].
  destruct mv as [| | |[]|]; [apply buffer_main_rule|apply produce_rule|apply consume_rule| | |].
  - unfold_moves. destruct p; intros [= <-]. constructor.
  - unfold_moves. destruct k; intros [= <-]. constructor.
  - intros [= <-]. constructor.
Qed.

(** The cases of a rule, with the places of the threads. *)
Ltac by_rule Hr :=
  destruct Hr as [p i k j b o|p i k j b o|p i k j b o|i k j b o|p i j b o|p i k j b o|m p i k j b o
    |m i k j b o|m i k j b o Hi|m i k j b o Hi|m p i k j a n g u o [-> | ->]|m i k j a n g u mx o Hn|m i k j a n g u mx o Hn
    |m i k j b o|m i k j a n g u mx o Hu|m i k j a n g u mx o|m i k j a n g u mx o|m i j b o|m i k j b o Hk
    |m i k j a n g u mx o|m i k j b o|m i k j b o
    |m p i j b o|m p i j b o Hj|m p i j b o Hj|m p i k j a n g u o [-> | ->]|m p i j a n g u mx o Hn|m p i j a n g u mx o Hn
    |m p i j a n g u mx o v Hv|m p i j b o v|m p i j a n g u mx o|m p i j a n g u mx o|m i j b o|m p i j b o Hp
    |m p i j a n g u mx o|m p i j b o|m p i j b o];
  cbn [main_at p_at p_i c_at c_i buf out status b_buf b_nitems b_nextget b_nextput b_mutex
       p_inside c_inside p_new c_new p_holds c_holds p_room c_data put put_counted put_shown stored got got_counted got_shown] in *.

Lemma loops_ok_rule s c c' : loops_ok c -> rule s c c' -> loops_ok c'.
Proof.
  intros [Hpr Hcr Hpf Hcf Hpl Hcl Hpm Hcm Hpj Hcj Hs] Hr.
  by_rule Hr; split; cbn [main_at p_at p_i c_at c_i buf out status p_inside c_inside p_new c_new];
    first [done | lia | congruence | by intros ?%Hpj | by intros ?%Hcj | by destruct p | by destruct k].
Qed.

Lemma held (mx : option tid) t t' b : mx = Some t -> t <> t' -> mx = Some t' <-> b = true -> b = false.
Proof. intros -> Hne H. destruct b; [|done]. destruct H as [_ H]. specialize (H eq_refl). congruence. Qed.

Lemma exclusive_rule s c c' : loops_ok c -> exclusive c -> rule s c c' -> exclusive c'.
Proof.
  intros Hl [Hxp Hxc] Hr. pose proof (lp_main _ Hl) as Hpm. pose proof (lc_main _ Hl) as Hcm. clear Hl.
  by_rule Hr; split; cbn; first
    [ done | by destruct p | by destruct k | by rewrite <- Hxc | by rewrite <- Hxp
    | rewrite (held mx Producer Consumer _ (proj2 Hxp eq_refl) ltac:(done) Hxc); done
    | rewrite (held mx Consumer Producer _ (proj2 Hxc eq_refl) ltac:(done) Hxp); done ].
Qed.

(** ** The items in the buffer *)

Definition produced (l : list line) : list Z := omap (fun x => match x with Produced v => Some v | _ => None end) l.
Definition consumed (l : list line) : list Z := omap (fun x => match x with Consumed v => Some v | _ => None end) l.

Lemma produced_snoc l x : produced (l ++ [x]) = produced l ++ match x with Produced v => [v] | _ => [] end.
Proof. unfold produced. rewrite omap_app. by destruct x. Qed.
Lemma consumed_snoc l x : consumed (l ++ [x]) = consumed l ++ match x with Consumed v => [v] | _ => [] end.
Proof. unfold consumed. rewrite omap_app. by destruct x. Qed.

(** Item [k] is kept in this entry. *)
Definition slot (k : Z) : nat := Z.to_nat (k mod Z.of_nat BUFFSIZE).

Record items_ok (c : config) : Prop := {
  i_len : length (b_buf (buf c)) = BUFFSIZE;
  i_put : b_nextput (buf c) = slot (p_i c + put (p_at c));
  i_get : b_nextget (buf c) = slot (c_i c + got (c_at c));
  i_count : b_nitems (buf c) = p_i c + put_counted (p_at c) - (c_i c + got_counted (c_at c));
  i_range : 0 <= b_nitems (buf c) <= Z.of_nat BUFFSIZE;
  i_room : p_room (p_at c) = true -> b_nitems (buf c) < Z.of_nat BUFFSIZE;
  i_data : c_data (c_at c) = true -> 0 < b_nitems (buf c);
  i_kept : forall k, c_i c + got (c_at c) <= k < p_i c + stored (p_at c) -> b_buf (buf c) !! slot k = Some k;
  i_val : forall v, c_at c = CShow v -> v = c_i c;
  i_produced : produced (out c) = seqZ 0 (p_i c + put_shown (p_at c));
  i_consumed : consumed (out c) = seqZ 0 (c_i c + got_shown (c_at c));
}.

Lemma slot_lt k : (slot k < BUFFSIZE)%nat.
Proof. unfold slot. pose proof (Z.mod_pos_bound k (Z.of_nat BUFFSIZE) ltac:(done)). lia. Qed.

Lemma slot_next k : 0 <= k -> next_index (slot k) = slot (k + 1).
Proof.
  intros Hk. unfold next_index, slot. change (Z.of_nat BUFFSIZE) with 10.
  destruct (Nat.leb_spec BUFFSIZE (S (Z.to_nat (k mod 10)))) as [H|H]; unfold BUFFSIZE in H; Z.to_euclidean_division_equations; lia.
Qed.

Lemma slot_ne k l : k < l < k + Z.of_nat BUFFSIZE -> slot k <> slot l.
Proof. unfold slot. change (Z.of_nat BUFFSIZE) with 10. intros H. Z.to_euclidean_division_equations. lia. Qed.

(** A thread without the mutex is not in the middle of an item. *)
Lemma c_free k : c_holds k = false -> got k = got_counted k.
Proof. by destruct k. Qed.
Lemma p_free p : p_holds p = false -> stored p = put_counted p.
Proof. by destruct p. Qed.

Lemma items_ok_rule s c c' : loops_ok c -> exclusive c -> items_ok c -> rule s c c' -> items_ok c'.
Proof.
  intros Hl [Hxp Hxc] [Hlen Hput Hget Hcnt Hrg Hroom Hdata Hkept Hval Hpo Hco] Hr.
  pose proof (lp_i _ Hl) as [Hpi _]. pose proof (lc_i _ Hl) as [Hci _].
  pose proof (lp_main _ Hl) as Hpm. pose proof (lc_main _ Hl) as Hcm. clear Hl.
  by_rule Hr; split; cbn [main_at p_at p_i c_at c_i buf out status b_buf b_nitems b_nextget b_nextput b_mutex
       p_inside c_inside p_new c_new p_holds c_holds p_room c_data put put_counted put_shown stored got got_counted got_shown]; try done; try lia.
  1-4: by destruct p.
  1-4: by destruct k.
  - rewrite produced_snoc, Hpo, Z.add_0_r, seqZ_snoc by lia. done.
  - by rewrite consumed_snoc, app_nil_r.
  - by rewrite length_insert.
  - intros k' Hk'. assert (Hf : c_holds k = false) by (by eapply held; [apply Hxp| |apply Hxc]).
    rewrite (c_free _ Hf) in Hk'. rewrite Z.add_0_r in Hput. specialize (Hroom eq_refl). subst u.
    destruct (decide (k' = i)) as [->|Hne]; [by rewrite list_lookup_insert_eq by (rewrite Hlen; apply slot_lt)|].
    rewrite list_lookup_insert_ne by (intros E; symmetry in E; revert E; apply slot_ne; lia).
    apply Hkept. rewrite (c_free _ Hf). lia.
  - rewrite Hput, Z.add_0_r. apply slot_next. lia.
  - by rewrite Hput, Z.add_0_r.
  - intros k' Hk'. apply Hkept. lia.
  - by rewrite Hpo, Z.add_0_r.
  - intros v' [= <-]. assert (Hf : p_holds p = false) by (by eapply held; [apply Hxc| |apply Hxp]).
    specialize (Hdata eq_refl). specialize (Hkept j). rewrite Z.add_0_r in Hget, Hkept. rewrite Hget, Hkept in Hv; [congruence|].
    rewrite (p_free _ Hf). lia.
  - by rewrite produced_snoc, app_nil_r.
  - rewrite consumed_snoc, Hco, (Hval v eq_refl), Z.add_0_r, seqZ_snoc by lia. done.
  - rewrite Hget, Z.add_0_r. apply slot_next. lia.
  - intros k' Hk'. apply Hkept. lia.
  - by rewrite Hget, Z.add_0_r.
  - intros k' Hk'. apply Hkept. lia.
  - by rewrite Hco, Z.add_0_r.
Qed.

(** ** No wake-up is lost *)

Record awaited (c : config) : Prop := {
  a_p : p_at c = PAsleep -> b_nitems (buf c) = Z.of_nat BUFFSIZE \/ c_at c = CSignal;
  a_c : c_at c = CAsleep -> b_nitems (buf c) = 0 \/ p_at c = PSignal;
}.

Lemma awaited_rule s c c' : loops_ok c -> exclusive c -> items_ok c -> awaited c -> rule s c c' -> awaited c'.
Proof.
  intros Hl [Hxp Hxc] Hi [Hwp Hwc] Hr. pose proof (i_range _ Hi) as Hrg. clear Hi.
  pose proof (lp_main _ Hl) as Hpm. pose proof (lc_main _ Hl) as Hcm. clear Hl.
  by_rule Hr; split; cbn [main_at p_at p_i c_at c_i buf out status b_buf b_nitems b_nextget b_nextput b_mutex];
    first [ done | by destruct p | by destruct k | intros _; left; lia | by intros _; right
          | intros Es; destruct (Hwc Es) as [Hz|Hz]; [by left|discriminate Hz]
          | intros Es; destruct (Hwp Es) as [Hz|Hz]; [by left|discriminate Hz || by rewrite Hz in Hcm] ].
Qed.

Record buffer_ok (c : config) : Prop := {
  bo_loops : loops_ok c;
  bo_exclusive : exclusive c;
  bo_items : items_ok c;
  bo_awaited : awaited c;
}.

Lemma buffer_ok_start : buffer_ok start.
Proof.
  split; split; try done. cbn. intros k Hk. lia.
Qed.

Lemma buffer_ok_step mv c c' : buffer_ok c -> fire mv c = Some c' -> buffer_ok c'.
Proof.
  intros [Hl Hx Hi Ha] H%buffer_fire_rule. split; [by eapply loops_ok_rule|by eapply exclusive_rule|by eapply items_ok_rule|by eapply awaited_rule].
Qed.

(** ** The end *)

(** The statements that are left, at most, when no thread wakes up without a signal. *)
Definition p_work (p : produce_pc) (i : Z) : Z :=
  20 * (NLOOP - i) +
  match p with
  | PNotCreated => 17 | PStart => 16 | PLoop => 15 | PLock => 14 | PWoken => 13 | PTest => 12 | PAsleep => 10
  | PShow => 11 | PStore => 10 | PAdvance => 9 | PCount => 8 | PSignal => 7 | PUnlock => 2 | PNext => 1 | PReturned => 0
  end.
Definition c_work (k : consume_pc) (j : Z) : Z :=
  20 * (NLOOP - j) +
  match k with
  | CNotCreated => 17 | CStart => 16 | CLoop => 15 | CLock => 14 | CWoken => 13 | CTest => 12 | CAsleep => 10
  | CFetch => 11 | CShow _ => 10 | CAdvance => 9 | CCount => 8 | CSignal => 7 | CUnlock => 2 | CNext => 1 | CReturned => 0
  end.
Definition m_work (m : main_pc) : Z :=
  match m with Greet => 6 | CreateA => 5 | CreateB => 4 | JoinA => 3 | JoinB => 2 | Exit => 1 end.
Definition buffer_work (c : config) : nat :=
  match status c with
  | None => Z.to_nat (m_work (main_at c) + p_work (p_at c) (p_i c) + c_work (c_at c) (c_i c))
  | Some _ => 0
  end.

Lemma p_work_nonneg p i : 0 <= i <= NLOOP -> 0 <= p_work p i.
Proof. intros Hi. unfold p_work. destruct p; lia. Qed.
Lemma c_work_nonneg k j : 0 <= j <= NLOOP -> 0 <= c_work k j.
Proof. intros Hj. unfold c_work. destruct k; lia. Qed.
Lemma m_work_pos m : 0 < m_work m.
Proof. by destruct m. Qed.

Lemma work_rule s c c' : loops_ok c -> rule s c c' -> (S (buffer_work c') <= buffer_work c + (if s then 4 else 0))%nat.
Proof.
  intros Hl Hr. destruct (loops_ok_rule _ _ _ Hl Hr) as [[Hpi' _] [Hci' _] _ _ _ _ _ _ _ _ _].
  apply (p_work_nonneg (p_at c')) in Hpi'. apply (c_work_nonneg (c_at c')) in Hci'.
  destruct Hl as [[Hpi _] [Hci _] _ _ _ _ Hpm Hcm _ _ _].
  apply (p_work_nonneg (p_at c)) in Hpi. apply (c_work_nonneg (c_at c)) in Hci. pose proof (m_work_pos (main_at c)) as Hm.
  unfold buffer_work. by_rule Hr; unfold p_work, c_work in *; cbn [m_work] in *;
    first [lia | destruct p; try discriminate Hpm; lia | destruct k; try discriminate Hcm; lia].
Qed.

Definition move_cost (mv : move) : nat := match mv with Spurious _ => 4 | Fail_ => 1 | _ => 0 end.

Definition p_idle (p : produce_pc) : bool := match p with PNotCreated | PReturned | PAsleep => true | _ => false end.
Definition c_idle (k : consume_pc) : bool := match k with CNotCreated | CReturned | CAsleep => true | _ => false end.

(** A thread that has something to do can move when it has the mutex or the mutex is free. *)
Lemma produce_moves c :
  items_ok c -> p_idle (p_at c) = false -> p_holds (p_at c) = true \/ b_mutex (buf c) = None -> is_Some (produce_move c).
Proof.
  intros Hi Hidle Hm. pose proof (i_len _ Hi) as Hlen. pose proof (i_put _ Hi) as Hput. unfold produce_move, lock.
  destruct (p_at c); try done; try (destruct Hm as [Hm|Hm]; [discriminate Hm|by rewrite Hm]).
  - by destruct (_ <=? _).
  - unfold store. rewrite decide_True; [done|]. rewrite Hlen, Hput. apply slot_lt.
Qed.

Lemma consume_moves c :
  items_ok c -> c_idle (c_at c) = false -> c_holds (c_at c) = true \/ b_mutex (buf c) = None -> is_Some (consume_move c).
Proof.
  intros Hi Hidle Hm. pose proof (i_len _ Hi) as Hlen. pose proof (i_get _ Hi) as Hget. unfold consume_move, lock.
  destruct (c_at c); try done; try (destruct Hm as [Hm|Hm]; [discriminate Hm|by rewrite Hm]).
  - by destruct (_ <=? _).
  - destruct (lookup_lt_is_Some_2 (b_buf (buf c)) (b_nextget (buf c))) as [v ->]; [|done].
    rewrite Hlen, Hget. apply slot_lt.
Qed.

(** When neither thread can move, the main thread can. *)
Lemma idle_main c : buffer_ok c -> p_idle (p_at c) = true -> c_idle (c_at c) = true -> is_Some (main_move c).
Proof.
  intros [Hl _ Hi [Hap Hac]] Hp Hc. unfold main_move.
  pose proof (lp_main _ Hl) as Hpm. pose proof (lc_main _ Hl) as Hcm. pose proof (lp_join _ Hl) as Hpj.
  pose proof (lp_i _ Hl) as [Hpi _]. pose proof (lc_i _ Hl) as [Hci Hcin].
  pose proof (lp_last _ Hl) as Hpl. pose proof (lc_last _ Hl) as Hcl. pose proof (i_count _ Hi) as Hn.
  destruct (main_at c); try done.
  - destruct (p_at c); try done. specialize (Hap eq_refl). destruct (c_at c); try done.
    + destruct Hap as [Hap|]; [|done]. destruct (Hac eq_refl) as [Hz|]; [|done]. rewrite Hap in Hz. discriminate Hz.
    + destruct Hap as [Hap|]; [|done]. specialize (Hcl eq_refl). cbn [put_counted got_counted] in Hn.
      change (Z.of_nat BUFFSIZE) with 10 in Hap. lia.
  - specialize (Hpj eq_refl). rewrite Hpj in Hn, Hpl, Hac. specialize (Hpl eq_refl). destruct (c_at c); try done.
    destruct (Hac eq_refl) as [Hz|]; [|done]. specialize (Hcin eq_refl). cbn [put_counted got_counted] in Hn. lia.
Qed.

Lemma buffer_progress c : buffer_ok c -> status c = None -> exists mv c', fire mv c = Some c' /\ move_cost mv = 0%nat.
Proof.
  intros Hok Hs. unfold fire. rewrite Hs. pose proof Hok as [_ [Hxp Hxc] Hi _].
  assert (Hp : is_Some (produce_move c) -> exists mv c', fire mv c = Some c' /\ move_cost mv = 0%nat).
  { intros [c' H]. exists Produce, c'. unfold fire. by rewrite Hs. }
  assert (Hc : is_Some (consume_move c) -> exists mv c', fire mv c = Some c' /\ move_cost mv = 0%nat).
  { intros [c' H]. exists Consume, c'. unfold fire. by rewrite Hs. }
  unfold fire in Hp, Hc. rewrite Hs in Hp, Hc.
  destruct (b_mutex (buf c)) as [[]|] eqn:Em.
  - destruct Hxp as [Hh _]. specialize (Hh eq_refl). apply Hp, produce_moves; [done|by destruct (p_at c)|by left].
  - destruct Hxc as [Hh _]. specialize (Hh eq_refl). apply Hc, consume_moves; [done|by destruct (c_at c)|by left].
  - destruct (p_idle (p_at c)) eqn:Ep; [|apply Hp, produce_moves; auto].
    destruct (c_idle (c_at c)) eqn:Ec; [|apply Hc, consume_moves; auto].
    destruct (idle_main c Hok Ep Ec) as [c' H]. by exists Main, c'.
Qed.

Definition running (c : config) : Prop := status c = None \/ status c = Some 0.

Lemma buffer_running_step mv c c' :
  running c -> ~ status c <> None -> move_cost mv = 0%nat -> fire mv c = Some c' -> running c'.
Proof.
  intros _ Hn Hcost H. unfold fire in H. destruct (status c) eqn:Es; [discriminate H|]. unfold running.
  destruct mv as [| | | |]; try discriminate Hcost.
  - unfold main_move, set_main, p_go, c_go in H. repeat case_match; try discriminate H; injection H as <-; cbn; auto.
  - unfold produce_move, lock, unlock, show, set_buf, p_go, c_go in H.
    destruct (p_at c); repeat (case_match || simplify_option_eq); cbn; auto.
  - unfold consume_move, lock, unlock, show, set_buf, p_go, c_go in H.
    destruct (c_at c); repeat (case_match || simplify_option_eq); cbn; auto.
Qed.

Lemma buffer_completes c :
  buffer_ok c -> status c = None ->
  exists more c', run_moves more c = Some c' /\ status c' = Some 0 /\ forall t, Spurious t ∉ more.
Proof.
  intros Hok Hs.
  assert (Hw : forall mv c c', buffer_ok c -> fire mv c = Some c' -> (S (buffer_work c') <= buffer_work c + move_cost mv)%nat).
  { intros mv c0 c1 Hc H. pose proof (work_rule _ _ _ (bo_loops _ Hc) (buffer_fire_rule _ _ _ H)). destruct mv; cbn in *; lia. }
  destruct (runs_complete fire buffer_ok buffer_work move_cost buffer_ok_step Hw running (fun c => status c <> None)
    buffer_running_step) with (c := c) as (more & c' & Hr & Hf & Hl & Hcost); [|done|by left|].
  - intros c0 Hok0 _ Hn. apply buffer_progress; [done|]. by destruct (status c0); [destruct Hn|].
  - exists more, c'. split_and!; [done|by destruct Hl|]. intros t (l1 & l2 & ->)%list_elem_of_split.
    rewrite sum_list_with_app in Hcost. cbn in Hcost. lia.
Qed.

Lemma reachable_buffer_ok c : reachable c -> buffer_ok c.
Proof. induction 1 as [|mv c c' _ IH H]; [apply buffer_ok_start|by eapply buffer_ok_step]. Qed.
End BufferFacts.

Section BufferClaims.
Import Buffer BufferFacts.

(** C37: in [example03.c] the consumer gets what the producer stored, in order.  In every
    configuration that any interleaving reaches:
    - the producer has announced the numbers from 0 on, and the consumer has shown the first of
      them: none is lost, repeated or reordered, and at most [BUFFSIZE] of them are waiting;
    - at most one thread is between lock and unlock;
    - the indexes are inside the array and [b_nitems] is between 0 and its size;
    - when the program has ended without an error, all [NLOOP] numbers have been handed over. *)
Theorem buffer_in_order c :
  reachable c ->
  (exists waiting, produced (out c) = consumed (out c) ++ waiting /\ (length waiting <= BUFFSIZE)%nat) /\
  produced (out c) = seqZ 0 (Z.of_nat (length (produced (out c)))) /\
  (p_holds (p_at c) = true -> c_holds (c_at c) = false) /\
  (length (b_buf (buf c)) = BUFFSIZE /\ (b_nextput (buf c) < BUFFSIZE)%nat /\ (b_nextget (buf c) < BUFFSIZE)%nat /\
   0 <= b_nitems (buf c) <= Z.of_nat BUFFSIZE) /\
  (status c = Some 0 -> consumed (out c) = seqZ 0 NLOOP /\ produced (out c) = seqZ 0 NLOOP).
Proof.
  intros [Hl [Hxp Hxc] Hi _]%reachable_buffer_ok. pose proof Hi as [Hlen Hput Hget Hn Hrg Hroom Hdata _ _ Hpo Hco].
  pose proof (lp_i _ Hl) as [Hpi _]. pose proof (lc_i _ Hl) as [Hci _]. split_and!; try done; try apply Hrg.
  - exists (seqZ (c_i c + got_shown (c_at c)) (p_i c + put_shown (p_at c) - (c_i c + got_shown (c_at c)))).
    rewrite Hpo, Hco, length_seqZ.
    assert (0 <= c_i c + got_shown (c_at c) <= p_i c + put_shown (p_at c) /\
            p_i c + put_shown (p_at c) - (c_i c + got_shown (c_at c)) <= Z.of_nat BUFFSIZE) as [Hr1 Hr2].
    { destruct (p_at c), (c_at c); cbn [p_room c_data put_counted got_counted put_shown got_shown] in *; lia. }
    split; [|lia].
    replace (p_i c + put_shown (p_at c)) with (c_i c + got_shown (c_at c) + (p_i c + put_shown (p_at c) - (c_i c + got_shown (c_at c)))) at 1 by lia.
    rewrite seqZ_app by lia. by rewrite Z.add_0_l.
  - rewrite Hpo, length_seqZ, Z2Nat.id; [done|]. destruct (p_at c); cbn [put_shown]; lia.
  - intros Hh%Hxp. by eapply held; [apply Hh| |apply Hxc].
  - rewrite Hput. apply slot_lt.
  - rewrite Hget. apply slot_lt.
  - intros Hs. pose proof (l_status _ Hl Hs) as Em. pose proof (lp_join _ Hl) as Hp. pose proof (lc_join _ Hl) as Hc.
    rewrite Em in Hp, Hc. specialize (Hp eq_refl). specialize (Hc eq_refl).
    rewrite Hpo, Hco, (lp_last _ Hl Hp), (lc_last _ Hl Hc), Hp, Hc. cbn. by rewrite Z.add_0_r.
Qed.

(** C36: [example03.c] ends, whatever the scheduler does.  The length of a run is bounded by the
    work of the start and the number of times a thread wakes up without a signal, and, unless a
    call of the threads library fails, every run can be continued, without such wake-ups, until the
    program exits with status 0: neither a deadlock nor a lost wake-up is possible. *)
Theorem buffer_ends ms c :
  run_moves ms start = Some c ->
  (length ms <= buffer_work start + 4 * length (filter (fun mv => spurious mv = true) ms))%nat /\
  (status c = None ->
     exists more c', run_moves more c = Some c' /\ status c' = Some 0 /\ forall t, Spurious t ∉ more).
Proof.
  intros Hrun. assert (Hok : buffer_ok c) by (eapply (runs_inv fire); [apply buffer_ok_step|apply buffer_ok_start|exact Hrun]).
  split; [|by apply buffer_completes].
  pose proof (runs_bounded fire buffer_ok buffer_work (fun mv => if spurious mv then 4 else 0)%nat buffer_ok_step) as Hb.
  specialize (Hb ltac:(intros mv c0 c1 Hc H; apply work_rule; [apply Hc|by apply buffer_fire_rule]) ms start c buffer_ok_start Hrun).
  assert (E : (sum_list_with (fun mv => if spurious mv then 4 else 0) ms = 4 * length (filter (fun mv => spurious mv = true) ms))%nat).
  { clear. induction ms as [|mv ms IH]; [done|]. cbn [sum_list_with]. rewrite filter_cons, IH.
    destruct (spurious mv); [rewrite decide_True by done; cbn; lia|by rewrite decide_False]. }
  lia.
Qed.

(** The consumer finds the buffer empty and sleeps, wakes up once without a signal, and gets the
    first item. *)
Definition handover : list move :=
  [Main; Main; Main] ++ replicate 4 Consume ++ [Spurious Consumer] ++ replicate 2 Consume ++
  replicate 11 Produce ++ replicate 6 Consume.

Definition after_handover : config := default start (run_moves handover start).

Lemma handover_run : run_moves handover start = Some after_handover.
Proof. vm_compute. reflexivity. Qed.

Lemma buffer_run_reachable ms : forall c c', reachable c -> run_moves ms c = Some c' -> reachable c'.
Proof. intros c c' Hr H. eapply (runs_inv fire reachable); [|exact Hr|exact H]. intros mv c0 c1 H0 H1. by eapply reach_step. Qed.

Lemma buffer_in_order_witness :
  out after_handover = [Produced 0; Consumed 0] /\
  exists waiting, produced (out after_handover) = consumed (out after_handover) ++ waiting /\ (length waiting <= BUFFSIZE)%nat.
Proof.
  split; [vm_compute; reflexivity|].
  destruct (buffer_in_order after_handover (buffer_run_reachable _ _ _ reach_start handover_run)) as [H _]. exact H.
Defined.

Lemma buffer_ends_witness :
  (length handover <= buffer_work start + 4)%nat /\
  exists more c', run_moves more after_handover = Some c' /\ status c' = Some 0.
Proof.
  destruct (buffer_ends handover after_handover handover_run) as [Hb He].
  split; [exact Hb|]. assert (Hs : status after_handover = None) by (vm_compute; reflexivity).
  destruct (He Hs) as (more & c' & Hr & Hc & _). exists more, c'. split; [exact Hr|exact Hc].
Defined.
End BufferClaims.
