(* ===== verification/Bcast.v ===== *)
(** The broadcast clients: [bcast/dgclibcast1.c] to [dgclibcast6.c].

    [dg_cli] sends each line of its input to a broadcast address and prints the replies until an
    alarm goes off.  How the alarm ends the wait for replies is what the six versions differ in:
    - 1, 2: the handler interrupts [recvfrom] (2 also sleeps before each line it prints);
    - 3: the same, with the signal blocked except around [recvfrom];
    - 4: the signal is blocked except inside [pselect];
    - 5: the handler jumps out of the loop with [siglongjmp];
    - 6: the handler writes a byte into a pipe that [select] watches.

    A move is one statement of the process, the expiry of the alarm, or the arrival of a reply.
    A call that may block has two places: before the call, and waiting inside it.  A signal that
    is not blocked runs the handler in the move that generates it; a blocked one stays pending
    until it is unblocked, and then the handler runs in the move that unblocks it.  Reading a
    socket or a pipe that [select] has reported does not block, since no one else reads it.  Any
    wrapper may report an error and end the process with status 1. *)

From S2P Require Import Prelude CText.

Inductive version : Type := V1 | V2 | V3 | V4 | V5 | V6.

#[export] Instance version_eq_dec : EqDecision version.
Proof. solve_decision. Defined.

(** A datagram with the text of its sender's address. *)
Record dgram : Type := Dgram { from : cstring; payload : list Z }.

(** [recvline[n] = 0; printf("from %s: %s", Sock_ntop_host(preply_addr, len), recvline);] *)
Definition shown (d : dgram) : cstring :=
  c["from "] ++ from d ++ c[": "] ++ cstring_at (take (Z.to_nat MAXLINE) (payload d) ++ [0]) 0.

(** Where the process is. *)
Inductive place : Type :=
| Gets                        (* before Fgets *)
| Send (line : cstring)       (* before Sendto *)
| MaskFirst                   (* 4: before Sigprocmask(SIG_BLOCK, ...) *)
| SetAlarm                    (* before alarm *)
| SetJump                     (* 5: before sigsetjmp *)
| Unmask                      (* 3: before Sigprocmask(SIG_UNBLOCK, ...) *)
| Recv | InRecv               (* before recvfrom; waiting in it *)
| Mask (n : option dgram)     (* 3: before Sigprocmask(SIG_BLOCK, ...); None: recvfrom was interrupted *)
| Test (n : option dgram)     (* before if (n < 0) *)
| Sleep (d : dgram)           (* 2: before sleep *)
| Print (d : dgram)           (* before printf *)
| Select | InSelect           (* 4, 6: before pselect or select; waiting in it *)
| Selected (n : option (bool * bool))  (* before if (n < 0); None: interrupted; socket and pipe ready *)
| RecvReady (pipe : bool)     (* 4, 6: before Recvfrom of a readable socket *)
| PrintReady (d : dgram) (pipe : bool) (* 6: before printf *)
| TestPipe (pipe : bool)      (* 6: before if (FD_ISSET(pipefd[0], &rset)) *)
| Finished.                   (* dg_cli has returned *)

Inductive condition : Type := Running | Exited_ (code : Z) | Undefined_.

#[export] Instance condition_eq_dec : EqDecision condition.
Proof. solve_decision. Defined.

Record client : Type := Client {
  at_ : place;
  input : list cstring;       (* the lines that Fgets will return *)
  sent_lines : list cstring;
  armed : bool;               (* the alarm has been set and has not gone off *)
  blocked : bool;             (* SIGALRM is blocked *)
  pending : bool;             (* SIGALRM has been generated while it was blocked *)
  jmpbuf : bool;              (* 5: sigsetjmp has been called *)
  torn : bool;                (* 5: the handler has jumped out of printf *)
  pipe_bytes : nat;           (* 6: bytes in the pipe *)
  queue : list dgram;         (* replies in the buffer of the socket *)
  arrived : list dgram;       (* all replies so far *)
  out : list cstring;         (* what has been printed *)
  cond : condition;
}.

Definition start (lines : list cstring) : client :=
  Client Gets lines [] false false false false false 0 [] [] [] Running.

(** * Updates *)

Definition go (p : place) (c : client) : client :=
  Client p (input c) (sent_lines c) (armed c) (blocked c) (pending c) (jmpbuf c) (torn c) (pipe_bytes c)
    (queue c) (arrived c) (out c) (cond c).
Definition set_signal (a b p : bool) (c : client) : client :=
  Client (at_ c) (input c) (sent_lines c) a b p (jmpbuf c) (torn c) (pipe_bytes c) (queue c) (arrived c) (out c) (cond c).
Definition set_jump (j t : bool) (c : client) : client :=
  Client (at_ c) (input c) (sent_lines c) (armed c) (blocked c) (pending c) j t (pipe_bytes c) (queue c) (arrived c) (out c) (cond c).
Definition set_pipe (n : nat) (c : client) : client :=
  Client (at_ c) (input c) (sent_lines c) (armed c) (blocked c) (pending c) (jmpbuf c) (torn c) n (queue c) (arrived c) (out c) (cond c).
Definition set_queue (q : list dgram) (c : client) : client :=
  Client (at_ c) (input c) (sent_lines c) (armed c) (blocked c) (pending c) (jmpbuf c) (torn c) (pipe_bytes c) q (arrived c) (out c) (cond c).
Definition print_line (l : cstring) (c : client) : client :=
  Client (at_ c) (input c) (sent_lines c) (armed c) (blocked c) (pending c) (jmpbuf c) (torn c) (pipe_bytes c)
    (queue c) (arrived c) (out c ++ [l]) (cond c).
Definition set_cond (x : condition) (c : client) : client :=
  Client (at_ c) (input c) (sent_lines c) (armed c) (blocked c) (pending c) (jmpbuf c) (torn c) (pipe_bytes c)
    (queue c) (arrived c) (out c) x.

(** * The handler *)

(** What becomes of a call that is waiting when the handler returns. *)
Definition interrupted (v : version) (p : place) : place :=
  match p with
  | InRecv => match v with V3 => Mask None | _ => Test None end
  | InSelect => Selected None
  | _ => p
  end.

Definition recvfrom_alarm (v : version) (c : client) : client :=
  match v with
  | V1 | V2 | V3 | V4 => go (interrupted v (at_ c)) c                        (* just interrupt the recvfrom() *)
  | V5 =>                                                                    (* siglongjmp: break *)
      if jmpbuf c then set_jump true (torn c || match at_ c with Print _ => true | _ => false end) (go Gets c)
      else set_cond Undefined_ c
  | V6 => set_pipe (S (pipe_bytes c)) (go (interrupted v (at_ c)) c)         (* write one null byte to pipe *)
  end.

(** [alarm] has expired.  Inside [pselect] the signal is not blocked. *)
Definition expire (v : version) (c : client) : option client :=
  if armed c then
    if blocked c && match at_ c with InSelect => false | _ => true end
    then Some (set_signal false true true c)
    else Some (recvfrom_alarm v (set_signal false (blocked c) false c))
  else None.

(** * The statements *)

(** The beginning of the loop [for ( ; ; )]. *)
Definition loop_start (v : version) : place :=
  match v with V1 | V2 => Recv | V3 => Unmask | V4 | V6 => Select | V5 => SetJump end.

(** [recvfrom] returns: the datagram, or the interruption. *)
Definition received_ (v : version) (n : option dgram) : place :=
  match v, n with
  | V3, _ => Mask n
  | V5, Some d => Print d
  | _, _ => Test n
  end.

(** What [select] and [pselect] report. *)
Definition readable (c : client) : option (bool * bool) :=
  let sock := match queue c with [] => false | _ => true end in
  let pipe := (0 <? pipe_bytes c)%nat in
  if sock || pipe then Some (sock, pipe) else None.

(** The loop of versions 1, 2, 3 and 5, which waits in [recvfrom]. *)
Definition recv_move (v : version) (c : client) : option client :=
  match at_ c with
  | SetJump => Some (go Recv (set_jump true (torn c) c))
  | Unmask =>
      let c' := go Recv (set_signal (armed c) false false c) in
      Some (if pending c then recvfrom_alarm v c' else c')
  | Recv | InRecv =>
      match queue c with
      | [] => match at_ c with Recv => Some (go InRecv c) | _ => None end
      | d :: q => Some (go (received_ v (Some d)) (set_queue q c))
      end
  | Mask n => Some (go (Test n) (set_signal (armed c) true (pending c) c))
  | Test None => Some (go Gets c)                        (* waited long enough for replies *)
  | Test (Some d) => Some (go (match v with V2 => Sleep d | _ => Print d end) c)
  | Sleep d => Some (go (Print d) c)
  | _ => None
  end.

(** The loop of versions 4 and 6, which waits in [pselect] or [select].  [ready_first] says what
    [pselect] does when a datagram and a pending signal are there: report the datagram, or let the
    handler interrupt it. *)
Definition select_move (v : version) (ready_first : bool) (c : client) : option client :=
  match at_ c with
  | Select =>
      if pending c && negb (ready_first && match readable c with Some _ => true | None => false end)
      then Some (go (Selected None) (set_signal (armed c) (blocked c) false c))
      else match readable c with
           | Some r => Some (go (Selected (Some r)) c)
           | None => Some (go InSelect c)
           end
  | InSelect => match readable c with Some r => Some (go (Selected (Some r)) c) | None => None end
  | Selected None => Some (go (match v with V4 => Gets | _ => Select end) c)
  | Selected (Some (sock, pipe)) => Some (go (if sock : bool then RecvReady pipe else TestPipe pipe) c)
  | RecvReady pipe =>
      match queue c with
      | [] => None
      | d :: q => Some (go (match v with V6 => PrintReady d pipe | _ => Print d end) (set_queue q c))
      end
  | _ => None
  end.

(** The end of the loop of version 6. *)
Definition pipe_move (c : client) : option client :=
  match at_ c with
  | PrintReady d pipe => Some (go (TestPipe pipe) (print_line (shown d) c))
  | TestPipe true => Some (go Gets (set_pipe (pred (pipe_bytes c)) c))       (* timer expired *)
  | TestPipe false => Some (go Select c)
  | _ => None
  end.

(** One statement of [dg_cli]. *)
Definition dg_cli_move (v : version) (ready_first : bool) (c : client) : option client :=
  match at_ c with
  | Gets =>
      match input c with
      | [] => Some (go Finished c)
      | l :: rest =>
          Some (Client (Send l) rest (sent_lines c) (armed c) (blocked c) (pending c) (jmpbuf c) (torn c) (pipe_bytes c)
                  (queue c) (arrived c) (out c) (cond c))
      end
  | Send l =>
      Some (Client (match v with V4 => MaskFirst | _ => SetAlarm end) (input c) (sent_lines c ++ [l])
              (armed c) (blocked c) (pending c) (jmpbuf c) (torn c) (pipe_bytes c) (queue c) (arrived c) (out c) (cond c))
  | MaskFirst => Some (go SetAlarm (set_signal (armed c) true (pending c) c))
  | SetAlarm => Some (go (loop_start v) (set_signal true (blocked c) (pending c) c))
  | SetJump | Unmask | Recv | InRecv | Mask _ | Test _ | Sleep _ => recv_move v c
  | Print d => Some (go (loop_start v) (print_line (shown d) c))
  | Select | InSelect | Selected _ | RecvReady _ => select_move v ready_first c
  | PrintReady _ _ | TestPipe _ => pipe_move c
  | Finished => None
  end.

Inductive move : Type :=
| Main (ready_first : bool)
| Expire
| Arrive (d : dgram)
| Fail_.

Definition fire (v : version) (m : move) (c : client) : option client :=
  match cond c with
  | Running =>
      match m with
      | Main r => dg_cli_move v r c
      | Expire => expire v c
      | Arrive d =>
          Some (Client (at_ c) (input c) (sent_lines c) (armed c) (blocked c) (pending c) (jmpbuf c) (torn c) (pipe_bytes c)
                  (queue c ++ [d]) (arrived c ++ [d]) (out c) (cond c))
      | Fail_ => Some (set_cond (Exited_ 1) c)
      end
  | _ => None
  end.

Inductive reachable (v : version) (lines : list cstring) : client -> Prop :=
| reach_start : reachable v lines (start lines)
| reach_step m c c' : reachable v lines c -> fire v m c = Some c' -> reachable v lines c'.

Definition run_moves (v : version) (ms : list move) (c : client) : option client :=
  foldl (fun c m => c ≫= fire v m) (Some c) ms.
