(* ===== verification/BcastClaims.v ===== *)
(** What the broadcast clients print, and how they stop waiting for replies. *)

From S2P Require Import Prelude CText Bcast.

(** * The signal, the alarm and the pipe at each place *)

(** In the loop that receives the replies. *)
Definition in_loop (p : place) : bool :=
  match p with Gets | Send _ | MaskFirst | SetAlarm | Finished => false | _ => true end.

(** The places of each version. *)
Definition place_ok (v : version) (p : place) : bool :=
  match p with
  | Gets | Send _ | SetAlarm | Finished => true
  | MaskFirst => match v with V4 => true | _ => false end
  | SetJump => match v with V5 => true | _ => false end
  | Unmask | Mask _ => match v with V3 => true | _ => false end
  | Recv | InRecv => match v with V1 | V2 | V3 | V5 => true | _ => false end
  | Test _ => match v with V1 | V2 | V3 => true | _ => false end
  | Sleep _ => match v with V2 => true | _ => false end
  | Print _ => match v with V6 => false | _ => true end
  | Select | InSelect | Selected _ | RecvReady _ => match v with V4 | V6 => true | _ => false end
  | PrintReady _ _ | TestPipe _ => match v with V6 => true | _ => false end
  end.

(** The alarm has interrupted the wait, or has not been set yet. *)
Definition settled (p : place) : bool := negb (in_loop p) || match p with Test None | Mask None => true | _ => false end.

Definition receiving (p : place) : bool := match p with Recv | InRecv => true | _ => false end.
Definition behind_jump (p : place) : bool := match p with Recv | InRecv | Print _ => true | _ => false end.

(** The alarm of version 4 is set or pending, but not both, until it has interrupted [pselect]. *)
Definition signals4 (p : place) (a b pd : bool) : Prop :=
  if in_loop p then
    b = true /\
    match p with
    | Selected None => a = false /\ pd = false
    | InSelect => a = true /\ pd = false
    | _ => xorb a pd = true
    end
  else a = false /\ pd = false /\ match p with SetAlarm => b = true | _ => True end.

(** The byte of version 6 is in the pipe once the alarm has gone off, until the loop ends. *)
Definition signals6 (p : place) (a : bool) (n : nat) : Prop :=
  if in_loop p then
    match p with
    | InSelect => a = true /\ n = 0%nat
    | Selected None | Selected (Some (_, true)) | RecvReady true | PrintReady _ true | TestPipe true => a = false /\ n = 1%nat
    | _ => n = if a then 0%nat else 1%nat
    end
  else a = false /\ n = 0%nat.

Definition signals (v : version) (p : place) (a b pd j : bool) (n : nat) : Prop :=
  match v with
  | V1 | V2 => b = false /\ pd = false /\ n = 0%nat /\ (settled p = true -> a = false)
  | V3 =>
      n = 0%nat /\ (pd = true -> b = true /\ a = false) /\
      (settled p = true -> a = false /\ pd = false) /\
      (receiving p = true -> b = false)
  | V4 => n = 0%nat /\ signals4 p a b pd
  | V5 => b = false /\ pd = false /\ n = 0%nat /\ a = in_loop p /\ (behind_jump p = true -> j = true)
  | V6 => b = false /\ pd = false /\ signals6 p a n
  end.

(** The socket has a datagram where [select] has reported one. *)
Definition readable_ok (v : version) (p : place) (q : list dgram) : Prop :=
  match p with
  | Selected (Some (true, _)) | RecvReady _ => q <> []
  | Selected (Some (false, pipe)) => match v with V6 => pipe = true | _ => False end
  | _ => True
  end.

Record client_ok (v : version) (c : client) : Prop := {
  k_place : place_ok v (at_ c) = true;
  k_signals : signals v (at_ c) (armed c) (blocked c) (pending c) (jmpbuf c) (pipe_bytes c);
  k_readable : readable_ok v (at_ c) (queue c);
}.

Ltac client_cbn :=
  cbn [at_ input sent_lines armed blocked pending jmpbuf torn pipe_bytes queue arrived out cond go set_signal set_jump set_pipe
       set_queue print_line set_cond loop_start received_ interrupted recvfrom_alarm place_ok signals signals4 signals6 in_loop
       readable_ok settled receiving behind_jump andb orb negb xorb] in *.

(** All cases of a statement. *)
Ltac statements H Hp p v :=
  destruct p as [|l| | | | | | |[d|]|[d|]|d|d| | |[[[] pp]|]|pp|d pp|[]|]; destruct v; try discriminate Hp; client_cbn;
  try discriminate H.

Lemma client_ok_move v r c c' :
  client_ok v c -> cond c = Running -> dg_cli_move v r c = Some c' -> cond c' = Running -> client_ok v c'.
Proof.
  destruct c as [p i sl a b pd j t n q ar o x]. intros [Hp Hs Hr] Hx H Hx'. client_cbn. subst x.
  unfold dg_cli_move, recv_move, select_move, pipe_move, readable in H. client_cbn. statements H Hp p v.
  all: repeat (case_match; client_cbn; try discriminate H); try discriminate H; injection H as <-; split; client_cbn; try done.
  all: destruct_and?; try destruct a; try destruct pd; try destruct b; destruct_and?; simplify_eq; split_and?; first [done|lia|naive_solver].
Qed.

Lemma client_ok_expire v c c' :
  client_ok v c -> cond c = Running -> expire v c = Some c' -> cond c' = Running -> client_ok v c'.
Proof.
  destruct c as [p i sl a b pd j t n q ar o x]. intros [Hp Hs Hr] Hx H Hx'. client_cbn. subst x.
  unfold expire in H. client_cbn. destruct a; [|discriminate H].
  statements H Hp p v.
  all: repeat (case_match; client_cbn; try discriminate H); try discriminate H; injection H as <-; try discriminate Hx'; split; client_cbn; try done.
  all: destruct_and?; try destruct pd; try destruct b; destruct_and?; simplify_eq; split_and?; first [done|lia|naive_solver].
Qed.

Lemma client_ok_step v m c c' :
  (cond c = Running -> client_ok v c) -> fire v m c = Some c' -> cond c' = Running -> client_ok v c'.
Proof.
  intros Hok H Hx. unfold fire in H. destruct (cond c) eqn:Ex; try discriminate H. specialize (Hok eq_refl).
  destruct m as [r| |d|].
  - by eapply client_ok_move.
  - by eapply client_ok_expire.
  - injection H as <-. destruct Hok as [Hp Hs Hr]. split; [done|done|]. cbn [at_ queue].
    destruct (at_ c) as [| | | | | | | | | | | | | |[[[] ?]|]| | | |]; cbn [readable_ok] in *; try done; by destruct (queue c).
  - injection H as <-. discriminate Hx.
Qed.

Lemma client_ok_start v lines : client_ok v (start lines).
Proof. split; [done| |done]. by destruct v. Qed.

Lemma reachable_client_ok v lines c : reachable v lines c -> cond c = Running -> client_ok v c.
Proof. induction 1 as [|m c c' _ IH H]; [intros _; apply client_ok_start|by eapply client_ok_step]. Qed.


(** * The replies *)

(** The reply that has been received and not printed yet. *)
Definition in_hand (p : place) : list dgram :=
  match p with Mask (Some d) | Test (Some d) | Sleep d | Print d | PrintReady d _ => [d] | _ => [] end.

(** What the process has made of the replies, in order. *)
Definition accounted (c : client) : list cstring := out c ++ (shown <$> in_hand (at_ c)) ++ (shown <$> queue c).

Definition replies_ok (v : version) (c : client) : Prop :=
  match v with
  | V5 => accounted c `sublist_of` (shown <$> arrived c)
  | _ => accounted c = shown <$> arrived c
  end.

Lemma replies_ok_same v c c' :
  accounted c' = accounted c -> arrived c' = arrived c -> replies_ok v c -> replies_ok v c'.
Proof. intros Ha Hr. unfold replies_ok. by rewrite Ha, Hr. Qed.

Lemma in_hand_interrupted v p : in_hand (interrupted v p) = in_hand p.
Proof. destruct p; try done. by destruct v. Qed.

Lemma replies_ok_alarm v c : replies_ok v c -> replies_ok v (recvfrom_alarm v c).
Proof.
  intros H. destruct v; cbn [recvfrom_alarm]; try (eapply replies_ok_same; [| |exact H]; [|done];
    unfold accounted; cbn [out at_ queue go set_pipe]; by rewrite in_hand_interrupted).
  destruct (jmpbuf c); [|done]. unfold replies_ok, accounted in *. cbn [out at_ queue go set_jump in_hand arrived fmap list_fmap app] in *.
  etrans; [|exact H]. apply sublist_app; [done|]. by apply sublist_inserts_l.
Qed.

Lemma replies_ok_move v r c c' : replies_ok v c -> dg_cli_move v r c = Some c' -> replies_ok v c'.
Proof.
  intros Hok H.
  assert (Hsame : forall x, out x = out c -> in_hand (at_ x) = in_hand (at_ c) -> queue x = queue c -> arrived x = arrived c -> replies_ok v x).
  { intros x H1 H2 H3 H4. eapply replies_ok_same; [|exact H4|exact Hok]. unfold accounted. by rewrite H1, H2, H3. }
  assert (Htake : forall x d q, queue c = d :: q -> in_hand (at_ c) = [] -> out x = out c -> in_hand (at_ x) = [d] -> queue x = q ->
    arrived x = arrived c -> replies_ok v x).
  { intros x d q H1 H2 H3 H4 H5 H6. eapply replies_ok_same; [|exact H6|exact Hok]. unfold accounted. by rewrite H1, H2, H3, H4, H5. }
  assert (Hput : forall x d, in_hand (at_ c) = [d] -> in_hand (at_ x) = [] -> out x = out c ++ [shown d] -> queue x = queue c ->
    arrived x = arrived c -> replies_ok v x).
  { intros x d H1 H2 H3 H4 H5. eapply replies_ok_same; [|exact H5|exact Hok]. unfold accounted. rewrite H1, H2, H3, H4.
    cbn [fmap list_fmap app]. by rewrite <- app_assoc. }
  assert (Hstart : in_hand (loop_start v) = []) by (by destruct v).
  unfold dg_cli_move, recv_move, select_move, pipe_move in H. destruct (at_ c) as [|l| | | | | | |[d|]|[d|]|d|d| | |[[[] pp]|]|pp|d pp|[]|] eqn:Ep; try discriminate H.
  6: { injection H as <-. destruct (pending c); [apply replies_ok_alarm|]; by apply Hsame. }
  all: repeat (case_match; try discriminate H); try discriminate H; injection H as <-;
    first [ by apply Hsame | by eapply Htake | by eapply Hput | by (eapply Htake; [done|done|done|by destruct v|done|done]) ].
Qed.

Lemma replies_ok_step v m c c' : replies_ok v c -> fire v m c = Some c' -> replies_ok v c'.
Proof.
  intros Hok H. unfold fire in H. destruct (cond c); try discriminate H. destruct m as [r| |d|].
  - by eapply replies_ok_move.
  - unfold expire in H. repeat case_match; try discriminate H; injection H as <-; try (apply replies_ok_alarm); exact Hok.
  - injection H as <-. unfold replies_ok, accounted in *. cbn [out at_ queue arrived]. rewrite !fmap_app, (app_assoc (shown <$> in_hand _)), (app_assoc (out c)).
    destruct v; try (by rewrite Hok). by apply sublist_app.
  - by injection H as <-.
Qed.

Lemma reachable_replies v lines c : reachable v lines c -> replies_ok v c.
Proof. induction 1 as [|m c c' _ IH H]; [destruct v; first [done|apply sublist_nil_l]|by eapply replies_ok_step]. Qed.

(** Version 5: nothing is lost unless the handler has jumped out of [printf], and then at most one reply for each
    alarm that has gone off; the alarm that is set, or about to be, has not taken one yet. *)
Definition credit (c : client) : nat := if armed c || match at_ c with SetAlarm => true | _ => false end then 1 else 0.

Definition losses_ok (c : client) : Prop :=
  (torn c = false -> accounted c = shown <$> arrived c) /\
  (length (arrived c) + credit c <= length (accounted c) + length (sent_lines c))%nat.

Lemma losses_ok_move r c c' :
  client_ok V5 c -> losses_ok c -> dg_cli_move V5 r c = Some c' -> losses_ok c'.
Proof.
  destruct c as [p i sl a b pd j t n q ar o x]. intros [Hp Hs _] [Ht Hn] H. unfold losses_ok, accounted, credit in *.
  unfold dg_cli_move, recv_move in H. client_cbn. destruct Hs as (-> & -> & _ & -> & _).
  destruct p; try discriminate Hp; client_cbn; try discriminate H; try destruct q; try destruct i; try discriminate H.
  all: injection H as <-; client_cbn; cbn [in_hand fmap list_fmap app] in *; rewrite <- ?app_assoc; cbn [app]; (split; [exact Ht|]).
  all: rewrite ?length_app in *; cbn [length] in *; rewrite ?length_fmap, ?length_app in *; cbn [length] in *; lia.
Qed.

Lemma losses_ok_step m c c' :
  (cond c = Running -> client_ok V5 c) -> losses_ok c -> fire V5 m c = Some c' -> losses_ok c'.
Proof.
  intros Hok H Hf. unfold fire in Hf. destruct (cond c) eqn:Ex; try discriminate Hf. specialize (Hok eq_refl).
  destruct m as [r| |d|]; [by eapply losses_ok_move| | |by injection Hf as <-].
  - destruct Hok as [Hp (Hb & _ & _ & _ & _) _], H as [Ht Hn]. unfold expire in Hf. destruct (armed c) eqn:Ea; [|discriminate Hf].
    rewrite Hb in Hf. injection Hf as <-. unfold losses_ok, accounted, credit in *. rewrite Ea in Hn.
    destruct c as [p i sl a b pd j t n q ar o x]. client_cbn. destruct j; client_cbn; [|split; [done|]; destruct p; cbn in *; lia].
    destruct p; try discriminate Hp; cbn [in_hand fmap list_fmap app] in *; (split; [by destruct t|]);
      rewrite ?length_app in *; cbn [length] in *; lia.
  - injection Hf as <-. destruct H as [Ht Hn]. unfold losses_ok, accounted, credit in *. client_cbn.
    rewrite !fmap_app, (app_assoc (shown <$> in_hand _)), (app_assoc (out c)).
    split; [intros E; by rewrite (Ht E)|]. rewrite !length_app, !length_fmap in *. cbn [length]. lia.
Qed.

Lemma reachable_losses lines c : reachable V5 lines c -> losses_ok c.
Proof.
  induction 1 as [|m c c' Hr IH H]; [split; [done|cbn; lia]|]. eapply losses_ok_step; [|done|done]. by apply reachable_client_ok with lines.
Qed.

(** * The end of the wait *)

(** The versions in which the alarm cannot be missed. *)
Definition ends_wait (v : version) : bool := match v with V4 | V5 | V6 => true | _ => false end.

(** The process and the alarm, while it waits for replies and none arrives. *)
Definition wait_fire (v : version) (m : move) (c : client) : option client :=
  if in_loop (at_ c) then match m with Main _ | Expire => fire v m c | _ => None end else None.
Definition wait_run (v : version) : list move -> client -> option client := runs (wait_fire v).

(** The moves that are left, at most. *)
Definition place_work (p : place) : nat :=
  match p with
  | SetJump | Selected None => 11 | Recv | Select => 10 | InRecv | InSelect => 9 | Selected (Some _) => 8 | RecvReady _ => 7
  | Print _ | PrintReady _ _ => 26 | TestPipe true => 5 | TestPipe false => 15 | _ => 0
  end.
Definition wait_work (c : client) : nat :=
  20 * length (queue c) + place_work (at_ c) + (if armed c then 12 else 0) + (if pending c then 10 else 0).

Lemma wait_work_step v m c c' :
  ends_wait v = true -> (cond c = Running -> client_ok v c) -> wait_fire v m c = Some c' -> (S (wait_work c') <= wait_work c)%nat.
Proof.
  intros Hv Hok H. unfold wait_fire, fire in H. destruct (in_loop (at_ c)) eqn:El; [|discriminate H].
  destruct (cond c) eqn:Ex; [|by destruct m|by destruct m]. specialize (Hok eq_refl). destruct Hok as [Hp Hs Hr]. unfold wait_work.
  destruct c as [p i sl a b pd j t n q ar o x]. client_cbn. destruct m as [r| | |]; try discriminate H.
  - unfold dg_cli_move, recv_move, select_move, pipe_move, readable in H. client_cbn. statements H Hp p v; try discriminate Hv; try discriminate El.
    all: repeat (case_match; client_cbn; try discriminate H); try discriminate H; injection H as <-; client_cbn; cbn [place_work length]; subst; lia.
  - unfold expire in H. client_cbn. destruct a; [|discriminate H]. statements H Hp p v; try discriminate Hv; try discriminate El.
    all: repeat (case_match; client_cbn; try discriminate H); try discriminate H; injection H as <-; client_cbn; cbn [place_work length]; subst;
      try lia.
    all: destruct_and?; try destruct pd; try discriminate; cbn in *; lia.
Qed.

(** A process that cannot move waits, and the alarm is still to go off. *)
Lemma moves_or_armed v c :
  ends_wait v = true -> client_ok v c -> in_loop (at_ c) = true -> is_Some (dg_cli_move v false c) \/ armed c = true.
Proof.
  intros Hv [Hp Hs Hr] Hl. destruct c as [p i sl a b pd j t n q ar o x]. unfold dg_cli_move, recv_move, select_move, pipe_move, readable. client_cbn.
  destruct p as [|l| | | | | | |[d|]|[d|]|d|d| | |[[[] pp]|]|pp|d pp|[]|]; try discriminate Hl; try (by left).
  - destruct q; by left.
  - destruct v; try discriminate Hv; try discriminate Hp. right. client_cbn. tauto.
  - left. repeat case_match; done.
  - destruct v; try discriminate Hv; try discriminate Hp; right; client_cbn; tauto.
  - destruct q; [done|by left].
Qed.

Lemma wait_progress v c :
  ends_wait v = true -> client_ok v c -> cond c = Running -> in_loop (at_ c) = true -> exists m c', wait_fire v m c = Some c'.
Proof.
  intros Hv Hok Hx Hl. unfold wait_fire, fire. rewrite Hl, Hx.
  destruct (moves_or_armed v c Hv Hok Hl) as [[c' H]|Ha]; [by exists (Main false), c'|].
  exists Expire. unfold expire. rewrite Ha. by case_match; eexists.
Qed.

(** The process is in the loop, or has left it for the next line; or version 5 has jumped to nowhere. *)
Definition waiting (v : version) (c : client) : Prop :=
  cond c = Running /\ (in_loop (at_ c) = true \/ at_ c = Gets) \/ v = V5 /\ cond c = Undefined_ /\ jmpbuf c = false.

Lemma waiting_step v m c c' :
  ends_wait v = true -> (cond c = Running -> client_ok v c) -> wait_fire v m c = Some c' -> waiting v c'.
Proof.
  intros Hv Hok H. unfold wait_fire, fire in H. destruct (in_loop (at_ c)) eqn:El; [|discriminate H].
  destruct (cond c) eqn:Ex; [|by destruct m|by destruct m]. specialize (Hok eq_refl). destruct Hok as [Hp _ _]. unfold waiting.
  destruct c as [p i sl a b pd j t n q ar o x]. client_cbn. subst x. destruct m as [r| | |]; try discriminate H.
  - unfold dg_cli_move, recv_move, select_move, pipe_move, readable in H. client_cbn. statements H Hp p v; try discriminate Hv; try discriminate El.
    all: repeat (case_match; client_cbn; try discriminate H); try discriminate H; injection H as <-; client_cbn; auto.
  - unfold expire in H. client_cbn. destruct a; [|discriminate H]. statements H Hp p v; try discriminate Hv; try discriminate El.
    all: repeat (case_match; client_cbn; try discriminate H); try discriminate H; injection H as <-; client_cbn; auto.
Qed.

Lemma wait_fire_ok v m c c' :
  (cond c = Running -> client_ok v c) -> wait_fire v m c = Some c' -> cond c' = Running -> client_ok v c'.
Proof.
  intros Hok H. unfold wait_fire in H. repeat case_match; try discriminate H; by eapply client_ok_step.
Qed.

(** * Properties *)

(** C36: the broadcast clients print the replies in the order in which they arrive, each once.
    In every configuration of the six versions, whenever replies arrive and the alarm goes off:
    what has been printed, followed by the reply in hand and those in the buffer of the socket,
    are all the replies that arrived.  In version 5 this holds as long as the handler has not jumped
    out of [printf]; after such jumps the order is still that of arrival, and at most one reply is
    missing for each line sent (one less while its alarm has not gone off).  And between two lines
    of input there is nothing left of the alarm of the last one: it is not set, not pending, and no
    byte is in the pipe, so that the wait for the next replies is not cut short. *)
Theorem bcast_replies_in_order v lines c :
  reachable v lines c ->
  match v with
  | V5 => accounted c `sublist_of` (shown <$> arrived c) /\ (torn c = false -> accounted c = shown <$> arrived c) /\
      (length (arrived c) + (if armed c then 1 else 0) <= length (accounted c) + length (sent_lines c))%nat
  | _ => accounted c = shown <$> arrived c
  end /\
  (cond c = Running -> in_loop (at_ c) = false -> armed c = false /\ pending c = false /\ pipe_bytes c = 0%nat).
Proof.
  intros Hr. split.
  { pose proof (reachable_replies v lines c Hr) as H. destruct v; try exact H. destruct (reachable_losses lines c Hr) as [Ht Hn].
    split; [exact H|]. split; [exact Ht|]. unfold credit in Hn. destruct (armed c); cbn [orb] in Hn; lia. }
  intros Hx Hl.
  destruct (reachable_client_ok v lines c Hr Hx) as [_ Hs _].
  assert (Hset : settled (at_ c) = true) by (unfold settled; by rewrite Hl).
  destruct v; unfold signals, signals4, signals6 in Hs; rewrite ?Hl in Hs; intuition auto.
Qed.

(** C35: versions 4, 5 and 6 of the broadcast client cannot wait for ever.  From every
    configuration in which such a client waits for replies, with no more replies arriving: every
    run of the process and its alarm ends after a bounded number of moves, and can be continued to
    the next line of input, with nothing left of the alarm.  Only in version 5 it may end otherwise:
    the handler jumps without a target when the alarm goes off before the first [sigsetjmp]. *)
Theorem bcast_wait_ends v lines c :
  ends_wait v = true -> reachable v lines c -> cond c = Running -> in_loop (at_ c) = true ->
  forall ms c', wait_run v ms c = Some c' ->
    (length ms <= wait_work c)%nat /\
    exists more c'', wait_run v more c' = Some c'' /\
      (cond c'' = Running /\ at_ c'' = Gets /\ armed c'' = false /\ pending c'' = false /\ pipe_bytes c'' = 0%nat \/
       v = V5 /\ cond c'' = Undefined_ /\ jmpbuf c'' = false).
Proof.
  intros Hv Hr Hx Hl ms c' Hrun. set (inv := fun c => (cond c = Running -> client_ok v c) /\ waiting v c).
  assert (Hstep : forall m c c', inv c -> wait_fire v m c = Some c' -> inv c').
  { intros m c0 c1 [H0 _] H. split; [by eapply wait_fire_ok|by eapply waiting_step]. }
  assert (Hwork : forall m c c', inv c -> wait_fire v m c = Some c' -> (S (wait_work c') <= wait_work c + 0)%nat).
  { intros m c0 c1 [H0 _] H. rewrite Nat.add_0_r. by eapply wait_work_step. }
  assert (Hinv : inv c) by (split; [by apply (reachable_client_ok v lines)|left; auto]).
  pose proof (runs_inv (wait_fire v) inv Hstep ms c c' Hinv Hrun) as Hinv'. split.
  - pose proof (runs_bounded (wait_fire v) inv wait_work (fun _ => 0%nat) Hstep Hwork ms c c' Hinv Hrun) as Hb.
    replace (sum_list_with (fun _ : move => 0%nat) ms) with 0%nat in Hb by (clear; induction ms; done). lia.
  - destruct (runs_complete (wait_fire v) inv wait_work (fun _ => 0%nat) Hstep Hwork (fun _ => True)
      (fun c => ~ (cond c = Running /\ in_loop (at_ c) = true))) with (c := c') as (more & c'' & Hm & Hf & _ & _); try done.
    { intros c0 [H0 _] _ Hn. apply dec_stable in Hn as [Hx0 Hl0]. destruct (wait_progress v c0 Hv (H0 Hx0) Hx0 Hl0) as (m & c1 & H).
      by exists m, c1. }
    exists more, c''. split; [done|]. destruct (runs_inv (wait_fire v) inv Hstep more c' c'' Hinv' Hm) as [Hok Hw].
    destruct Hw as [[Hx'' Hp]|Hw]; [left|by right]. destruct Hp as [Hp|Hp]; [by destruct Hf|].
    destruct (Hok Hx'') as [_ Hs _]. rewrite Hp in Hs.
    destruct v; try discriminate Hv; cbn [signals signals4 signals6 in_loop] in Hs; intuition auto.
Qed.

(** * Concrete runs *)

Definition hello : dgram := Dgram c["192.168.0.9"] (c["hello"] ++ [10]).

Lemma bcast_run_reachable v lines ms c' : run_moves v ms (start lines) = Some c' -> reachable v lines c'.
Proof.
  intros H. eapply (runs_inv (fire v) (reachable v lines)); [|apply reach_start|exact H].
  intros m c0 c1 H0 H1. by eapply reach_step.
Qed.

(** Version 4: a reply arrives, and the alarm goes off while it is printed. *)
Definition reply_then_alarm : list move :=
  [Main true; Main true; Main true; Main true; Main true; Arrive hello; Main true; Main true; Main true; Expire].

Definition alarm_pending : client := default (start []) (run_moves V4 reply_then_alarm (start [c["hi"]])).

Lemma alarm_pending_reachable : reachable V4 [c["hi"]] alarm_pending.
Proof. apply (bcast_run_reachable V4 _ reply_then_alarm). vm_compute. reflexivity. Qed.

Lemma bcast_replies_in_order_witness :
  pending alarm_pending = true /\ accounted alarm_pending = [shown hello] /\
  accounted alarm_pending = shown <$> arrived alarm_pending.
Proof.
  split; [vm_compute; reflexivity|]. split; [vm_compute; reflexivity|].
  destruct (bcast_replies_in_order V4 [c["hi"]] alarm_pending alarm_pending_reachable) as [H _]. exact H.
Defined.

Lemma bcast_wait_ends_witness :
  (length [Main false; Main false] <= wait_work alarm_pending)%nat /\
  (at_ <$> wait_run V4 [Main false; Main false; Main false] alarm_pending) = Some Gets.
Proof.
  split; [|vm_compute; reflexivity].
  destruct (wait_run V4 [Main false; Main false] alarm_pending) as [c'|] eqn:E; [|vm_compute in E; discriminate E].
  apply (bcast_wait_ends V4 [c["hi"]] alarm_pending eq_refl alarm_pending_reachable eq_refl eq_refl [Main false; Main false] c' E).
Defined.

(** Nothing but a reply can end the wait: the process waits in [recvfrom], and the alarm has gone off. *)
Definition waits_for_ever (v : version) (c : client) : Prop :=
  at_ c = InRecv /\ cond c = Running /\ forall m, match m with Main _ | Expire => fire v m c = None | _ => True end.

(** The alarm goes off after [alarm] and before [recvfrom]: in versions 1, 2 and 3 it is lost. *)
Definition early_alarm (v : version) : list move :=
  [Main true; Main true; Main true; Expire; Main true] ++ match v with V3 => [Main true] | _ => [] end.

Lemma bcast_alarm_lost v :
  ends_wait v = false ->
  match run_moves v (early_alarm v) (start [c["hi"]]) with Some c => waits_for_ever v c | None => False end.
Proof. intros Hv. destruct v; try discriminate Hv; vm_compute; (split; [done|]; split; [done|]; by intros []). Qed.

(** Version 5: the alarm goes off before the first [sigsetjmp]. *)
Lemma bcast_jump_undefined :
  (cond <$> run_moves V5 [Main true; Main true; Main true; Expire] (start [c["hi"]])) = Some Undefined_.
Proof. vm_compute. reflexivity. Qed.

(** Version 5: the handler jumps out of [printf]; the reply is lost, and standard output is used again
    afterwards. *)
Lemma bcast_jump_out_of_printf :
  match run_moves V5 [Main true; Main true; Main true; Arrive hello; Main true; Main true; Expire] (start [c["hi"]; c["hi"]]) with
  | Some c => torn c = true /\ at_ c = Gets /\ out c = [] /\ arrived c = [hello] /\ queue c = []
  | None => False
  end.
Proof. vm_compute. done. Qed.
