(* ===== verification/Route.v ===== *)
(** [libroute/]: the interface names and indexes, from the messages that [sysctl] stores.

    The kernel hands out a block of messages, each with a header and, behind it, the socket addresses
    whose bits are set in the header.  The headers are those of <net/if.h>: length (two bytes), version,
    type, the bits of the addresses (four bytes), flags (four bytes), index (two bytes), and more that
    the library does not look at.  A socket address starts with its length and family, one of an
    interface goes on with index (two bytes), type, length of the name, length of the address, length
    of the selector, and the name.

    A block of memory from [malloc] is its address and its contents, which are [uninit] at first.  A
    loop over messages ends if their lengths are not zero, so its fuel is the length of the block. *)

From S2P Require Import Prelude CText Sys Error Wrappers SockUtil Gai Packet Words.

Definition CTL_NET : Z := 4.
Definition AF_ROUTE : Z := 17.
Definition NET_RT_DUMP : Z := 1.
Definition NET_RT_IFLIST : Z := 3.
Definition RTM_NEWADDR : Z := 12.
Definition RTM_IFINFO : Z := 14.
Definition RTAX_DST : nat := 0.
Definition RTAX_GATEWAY : nat := 1.
Definition RTAX_NETMASK : nat := 2.
Definition RTAX_GENMASK : nat := 3.
Definition RTAX_IFP : nat := 4.
Definition RTAX_IFA : nat := 5.
Definition RTAX_BRD : nat := 7.
Definition RTAX_MAX : nat := 8.
Definition IFNAMSIZ : Z := 16.
Definition SIZEOF_LONG : Z := 8.
Definition SIZEOF_NAMEINDEX : nat := 16.     (* index, four bytes of padding, pointer *)

(** The sizes of the headers, and what a new block of memory holds. *)
Class RouteHost : Type := {
  SIZEOF_IF_MSGHDR : nat;
  SIZEOF_IFA_MSGHDR : nat;
  SIZEOF_RT_MSGHDR : nat;
  uninit : nat -> list Z;
}.

(** ** get_rtaddrs.c *)

Definition ROUNDUP (a size : Z) : Z :=
  if negb (Z.land a (size - 1) =? 0) then 1 + Z.lor a (size - 1) else a.

(** The offset of the socket address behind that at [ap]. *)
Definition NEXT_SA (buf : list Z) (ap : nat) : option nat :=
  len ← buf !! ap;
  let n := if negb (len =? 0) then ROUNDUP len SIZEOF_LONG else SIZEOF_LONG in
  Some (ap + Z.to_nat n)%nat.

Fixpoint rtaddrs_loop (buf : list Z) (addrs : Z) (idx : list nat) (sa : nat) : option (list (option nat)) :=
  match idx with
  | [] => Some []
  | i :: idx' =>
      if has_flag addrs (Z.shiftl 1 (Z.of_nat i)) then
        sa' ← NEXT_SA buf sa;
        rest ← rtaddrs_loop buf addrs idx' sa';
        Some (Some sa :: rest)
      else
        rest ← rtaddrs_loop buf addrs idx' sa;
        Some (None :: rest)
  end.

(** The entries of [rti_info] are offsets in [buf]; [None] is a null pointer. *)
Definition get_rtaddrs (buf : list Z) (addrs : Z) (sa : nat) : option (list (option nat)) :=
  rtaddrs_loop buf addrs (seq 0 RTAX_MAX) sa.

Definition slot (info : list (option nat)) (i : nat) : option nat := mjoin (info !! i).

Section Route.
Context {os : OS} {SE : Strerror} {CF : Config} {RH : RouteHost}.

Definition byte_at (buf : list Z) (off : nat) : M Z := checked (buf !! off).
Definition u16_at (buf : list Z) (off : nat) : M Z := checked (uint_at little_endian 2 buf off).
Definition u32_at (buf : list Z) (off : nat) : M Z := checked (uint_at little_endian 4 buf off).

(** ** net_rt_iflist.c, net_rt_dump.c

    The address of the block, its contents, and the length of the messages. *)

Definition net_rt_iflist (family flags : Z) : M (option (Z * list Z * nat)) :=
  let mib := [CTL_NET; AF_ROUTE; 0; family; NET_RT_IFLIST; flags] in
  r <~ sys (sys_sysctl mib None []) ;;
  if rv r <? 0 then mpure None
  else
    let len := hd 0 (rints r) in
    p <~ sys (sys_malloc len) ;;
    if rv p =? 0 then mpure None
    else
      r <~ sys (sys_sysctl mib (Some len) []) ;;
      if rv r <? 0 then free (rv p) ;;; mpure None
      else
        buf <~ checked (memcpy (uninit (Z.to_nat len)) 0 (rbytes r)) ;;
        mpure (Some (rv p, buf, Z.to_nat (hd 0 (rints r)))).

Definition Net_rt_iflist (family flags : Z) : M (Z * list Z * nat) :=
  b <~ net_rt_iflist family flags ;;
  match b with None => err_sys c["net_rt_iflist error"] [] | Some b => mpure b end.

Definition net_rt_dump (family flags : Z) : M (option (Z * list Z * nat)) :=
  let mib := [CTL_NET; AF_ROUTE; 0; family; NET_RT_DUMP; flags] in
  r <~ sys (sys_sysctl mib None []) ;;
  if rv r <? 0 then mpure None
  else
    let len := hd 0 (rints r) in
    p <~ sys (sys_malloc len) ;;
    if rv p =? 0 then mpure None
    else
      r <~ sys (sys_sysctl mib (Some len) []) ;;
      if rv r <? 0 then mpure None
      else
        buf <~ checked (memcpy (uninit (Z.to_nat len)) 0 (rbytes r)) ;;
        mpure (Some (rv p, buf, Z.to_nat (hd 0 (rints r)))).

Definition Net_rt_dump (family flags : Z) : M (Z * list Z * nat) :=
  b <~ net_rt_dump family flags ;;
  match b with None => err_sys c["net_rt_dump error"] [] | Some b => mpure b end.

(** [for (next = buf; next < lim; next += ifm->ifm_msglen)] with a body that may return. *)
Fixpoint each_msg {X R} (fuel : nat) (buf : list Z) (lim next : nat) (body : nat -> X -> M (flow X R)) (x : X) : M (flow X R) :=
  if (next <? lim)%nat then
    match fuel with
    | O => no_fuel
    | S k =>
        f <~ body next x ;;
        match f with
        | Next x =>
            len <~ u16_at buf next ;;
            each_msg k buf lim (next + Z.to_nat len) body x
        | stop => mpure stop
        end
    end
  else mpure (Next x).

(** The address of the interface in the message at [next], if it is one of the link layer. *)
Definition link_sa (buf : list Z) (next : nat) : M (option nat) :=
  t <~ byte_at buf (next + 3) ;;
  if t =? RTM_IFINFO then
    addrs <~ u32_at buf (next + 4) ;;
    info <~ checked (get_rtaddrs buf addrs (next + SIZEOF_IF_MSGHDR)) ;;
    match slot info RTAX_IFP with
    | Some sa =>
        f <~ byte_at buf (sa + 1) ;;
        mpure (if f =? AF_LINK then Some sa else None)
    | None => mpure None
    end
  else mpure None.

Definition sdl_index (buf : list Z) (sdl : nat) : M Z := u16_at buf (sdl + 2).
Definition sdl_nlen (buf : list Z) (sdl : nat) : M Z := byte_at buf (sdl + 5).
Definition sdl_data (sdl : nat) : nat := sdl + 8.

(** ** if_nametoindex.c *)

Definition if_nametoindex (name : cstring) : M Z :=
  b <~ net_rt_iflist 0 0 ;;
  match b with
  | None => mpure 0
  | Some (p, buf, len) =>
      f <~ each_msg (length buf) buf len 0 (fun next (_ : unit) =>
        sa <~ link_sa buf next ;;
        match sa with
        | Some sdl =>
            nlen <~ sdl_nlen buf sdl ;;
            if nlen =? Z.of_nat (length name) then
              eq <~ checked (strncmp_eq (drop (sdl_data sdl) buf) name (Z.to_nat nlen)) ;;
              if eq : bool then
                idx <~ sdl_index buf sdl ;;              (* save before free() *)
                free p ;;; mpure (Return idx)
              else mpure (Next tt)
            else mpure (Next tt)
        | None => mpure (Next tt)
        end) tt ;;
      match f with
      | Return idx => mpure idx
      | _ => free p ;;; mpure 0                          (* no match for name *)
      end
  end.

Definition If_nametoindex (name : cstring) : M Z :=
  idx <~ if_nametoindex name ;;
  if s32 idx =? 0 then err_quit c["if_nametoindex error for %s"] [AStr name] else mpure (s32 idx).

(** ** if_indextoname.c: the name is stored in the array [name] of the caller. *)

Definition if_indextoname (idx : Z) (name : list Z) : M (option (list Z)) :=
  b <~ net_rt_iflist 0 (s32 idx) ;;
  match b with
  | None => mpure None
  | Some (p, buf, len) =>
      f <~ each_msg (length buf) buf len 0 (fun next (_ : unit) =>
        sa <~ link_sa buf next ;;
        match sa with
        | Some sdl =>
            i <~ sdl_index buf sdl ;;
            if i =? u32 idx then
              nlen <~ sdl_nlen buf sdl ;;
              let slen := Z.to_nat (Z.min (IFNAMSIZ - 1) nlen) in
              text <~ checked (strncpy_text (drop (sdl_data sdl) buf) slen) ;;
              name <~ checked (memcpy name 0 text) ;;
              name <~ checked (store name slen 0) ;;     (* null terminate *)
              free p ;;; mpure (Return name)
            else mpure (Next tt)
        | None => mpure (Next tt)
        end) tt ;;
      match f with
      | Return name => mpure (Some name)
      | _ => free p ;;; mpure None                       (* no match for index *)
      end
  end.

Definition If_indextoname (idx : Z) (name : list Z) : M (list Z) :=
  r <~ if_indextoname idx name ;;
  match r with None => err_quit c["if_indextoname error for %d"] [AInt (s32 idx)] | Some name => mpure name end.

(** ** if_nameindex.c

    The result is a block of memory: the array of structures grows from its start, the names from its
    end.  [ifptr] is the number of structures stored, [namptr] the offset of the last name. *)

Record nameindex : Type := NameIndex {
  result : list Z;
  ifptr : nat;
  namptr : Z;
}.

(** [ifptr->if_name = ...; ifptr->if_index = ...;] *)
Definition put_entry (block : list Z) (k : nat) (if_name if_index : Z) : option (list Z) :=
  block ← memcpy block (SIZEOF_NAMEINDEX * k + 8) (uint_bytes little_endian 8 if_name);
  memcpy block (SIZEOF_NAMEINDEX * k) (uint_bytes little_endian 4 if_index).

Definition add_name (buf : list Z) (rp : Z) (sdl : nat) (n : nameindex) : M nameindex :=
  nlen <~ sdl_nlen buf sdl ;;
  let at_ := namptr n - (nlen + 1) in
  text <~ checked (strncpy_text (drop (sdl_data sdl) buf) (Z.to_nat nlen)) ;;
  block <~ checked (if at_ <? 0 then None else memcpy (result n) (Z.to_nat at_) text) ;;
  block <~ checked (store block (Z.to_nat (at_ + nlen)) 0) ;;          (* null terminate *)
  idx <~ sdl_index buf sdl ;;
  block <~ checked (put_entry block (ifptr n) (rp + at_) idx) ;;
  mpure (NameIndex block (S (ifptr n)) at_).

(** The address of the block and its contents. *)
Definition if_nameindex : M (option (Z * list Z)) :=
  b <~ net_rt_iflist 0 0 ;;
  match b with
  | None => mpure None
  | Some (p, buf, len) =>
      rp <~ sys (sys_malloc (Z.of_nat len)) ;;                          (* overestimate *)
      if rv rp =? 0 then mpure None
      else
        f <~ each_msg (R := unit) (length buf) buf len 0 (fun next n =>
          sa <~ link_sa buf next ;;
          match sa with
          | Some sdl => n <~ add_name buf (rv rp) sdl n ;; mpure (Next n)
          | None => mpure (Next n)
          end) (NameIndex (uninit len) 0 (Z.of_nat len)) ;;
        match f with
        | Next n =>
            block <~ checked (put_entry (result n) (ifptr n) 0 0) ;;    (* mark end of array of structs *)
            free p ;;;
            mpure (Some (rv rp, block))
        | _ => undefined                                                (* the body does not return *)
        end
  end.

Definition If_nameindex : M (Z * list Z) :=
  r <~ if_nameindex ;;
  match r with None => err_quit c["if_nameindex error"] [] | Some b => mpure b end.

Definition if_freenameindex (ptr : Z) : M unit := free ptr.

(** ** sock_masktop.c

    [sa] are the bytes of the mask; [str] is the static array of the function. *)

Definition mask_text (sa : list Z) : option cstring :=
  sa_len ← sa !! 0%nat;
  let at_ i := sa !! (4 + i)%nat in
  if sa_len =? 5 then a ← at_ 0%nat; vformat c["%d.0.0.0"] [AInt a]
  else if sa_len =? 6 then a ← at_ 0%nat; b ← at_ 1%nat; vformat c["%d.%d.0.0"] [AInt a; AInt b]
  else if sa_len =? 7 then
    a ← at_ 0%nat; b ← at_ 1%nat; d ← at_ 2%nat; vformat c["%d.%d.%d.0"] [AInt a; AInt b; AInt d]
  else if sa_len =? 8 then
    a ← at_ 0%nat; b ← at_ 1%nat; d ← at_ 2%nat; e ← at_ 3%nat; vformat c["%d.%d.%d.%d"] [AInt a; AInt b; AInt d; AInt e]
  else
    fam ← sa !! 1%nat;
    vformat c["(unknown mask, len = %d, family = %d)"] [AInt sa_len; AInt fam].

Definition sock_masktop (str sa : list Z) : option (list Z * cstring) :=
  sa_len ← sa !! 0%nat;
  if sa_len =? 0 then Some (str, c["0.0.0.0"])
  else
    text ← mask_text sa;
    str ← put_text str 0 (snprintf_text INET6_ADDRSTRLEN text);
    Some (str, cstring_at str 0).

(** ** route/prifnameindex.c, prifindex.c, prifname.c

    The entries of the array at [rp], which [ifptr] numbers. *)

Definition if_index (block : list Z) (ifptr : nat) : M Z := u32_at block (SIZEOF_NAMEINDEX * ifptr).

Definition if_name (rp : Z) (block : list Z) (ifptr : nat) : M cstring :=
  p <~ checked (uint_at little_endian 8 block (SIZEOF_NAMEINDEX * ifptr + 8)) ;;
  checked (if p <? rp then None else string_in (drop (Z.to_nat (p - rp)) block)).

(** The lookups must agree with the entry; [ifname] is the array of the function. *)
Definition check_entry (name : cstring) (idx : Z) (ifname : list Z) : M (list Z) :=
  n <~ If_nametoindex name ;;
  if negb (n =? idx) then
    err_quit c["if_nametoindex returned %d, expected %d, for %s"] [AInt n; AInt idx; AStr name]
  else
    ifname <~ If_indextoname idx ifname ;;
    if negb (bool_decide (cstring_at ifname 0 = name)) then
      err_quit c["if_indextoname returned %s, expected %s, for %d"] [AStr (cstring_at ifname 0); AStr name; AInt idx]
    else mpure ifname.

Fixpoint check_entries (fuel : nat) (rp : Z) (block : list Z) (ifptr : nat) (ifname : list Z) : M (list Z) :=
  idx <~ if_index block ifptr ;;
  if idx >? 0 then
    match fuel with
    | O => no_fuel
    | S k =>
        name <~ if_name rp block ifptr ;;
        printf (c["name = %s, index = %d"] ++ [10]) [AStr name; AInt idx] ;;;
        ifname <~ check_entry name idx ifname ;;
        check_entries k rp block (S ifptr) ifname
    end
  else mpure ifname.

Definition no_such_name : cstring := c["fkjhkjhgjhgjhgdjhguyetiuyiuyhkjhkjdh"].

Definition prifnameindex (ifname : list Z) : M unit :=
  save <~ If_nameindex ;;
  let '(rp, block) := save in
  ifname <~ check_entries (length block) rp block 0 ifname ;;
  n <~ if_nametoindex no_such_name ;;
  if negb (s32 n =? 0) then err_quit c["if_nametoindex returned %d for fkjh..."] [AInt (s32 n)]
  else
    n <~ if_nametoindex [] ;;
    if negb (s32 n =? 0) then err_quit c["if_nametoindex returned %d for (null)"] [AInt (s32 n)]
    else
      r <~ if_indextoname 0 ifname ;;
      match r with
      | Some _ => err_quit c["if_indextoname error for 0"] []
      | None =>
          r <~ if_indextoname 888888 ifname ;;
          match r with
          | Some _ => err_quit c["if_indextoname error for 888888"] []
          | None => if_freenameindex rp ;;; exit_ 0
          end
      end.

Definition prifindex (name : cstring) : M unit :=
  idx <~ If_nametoindex name ;;
  printf (c["interface index = %d"] ++ [10]) [AInt idx] ;;; exit_ 0.

Definition prifname (arg : cstring) (name : list Z) : M unit :=
  name <~ If_indextoname (u32 (atoi arg)) name ;;
  printf (c["interface name = %s"] ++ [10]) [AStr (cstring_at name 0)] ;;; exit_ 0.

End Route.
