(* ===== verification/RouteFacts.v ===== *)
(** The messages of routing sockets and what [libroute/] makes of them.

    [ifmsg] is a message as the kernel composes it and [msg_bytes] how it is laid out in memory.  The lemmas
    follow the functions of the library over a block of such messages. *)

From S2P Require Import Prelude CText Sys Traces Error Wrappers SockUtil Gai GaiFacts RobustIO Servers Packet Words Route.

(** * Messages *)

(** A socket address of the link layer, of another family, or one of length 0. *)
Inductive rtsa : Type :=
| SaLink (index type : Z) (name addr pad : list Z)
| SaRaw (family : Z) (rest : list Z)
| SaEmpty (rest : list Z).

Record ifmsg : Type := IfMsg {
  m_type : Z;
  m_flags : Z;
  m_rest : list Z;                  (* the header from the index on *)
  m_addrs : list (option rtsa);
}.

Section Messages.
Context {CF : Config} {RH : RouteHost}.

Abbreviation zlen l := (Z.of_nat (length l)).

Definition sa_bytes (sa : rtsa) : list Z :=
  match sa with
  | SaLink i t n a pad =>
      [8 + zlen (n ++ a ++ pad); AF_LINK] ++ uint_bytes little_endian 2 i ++ [t; zlen n; zlen a; 0] ++ n ++ a ++ pad
  | SaRaw f r => [2 + zlen r; f] ++ r
  | SaEmpty r => 0 :: r
  end.

Definition sa_ok (sa : rtsa) : Prop :=
  match sa with
  | SaLink i t n a pad => 8 + zlen (n ++ a ++ pad) < 256 /\ 0 <= i < 65536 /\ nul_free n
  | SaRaw f r => 2 + zlen r < 256 /\ f <> AF_LINK
  | SaEmpty r => length r = 7%nat /\ hd 0 r <> AF_LINK
  end.

(** The addresses are rounded up to a multiple of the size of a [long]. *)
Definition round8 (n : nat) : nat := 8 * ((n + 7) / 8).
Definition sa_padded (sa : rtsa) : list Z :=
  sa_bytes sa ++ replicate (round8 (length (sa_bytes sa)) - length (sa_bytes sa)) 0.

Definition slot_bytes (x : option rtsa) : list Z := match x with Some sa => sa_padded sa | None => [] end.

(** The bits of the addresses that are there. *)
Definition mask_of (l : list (option rtsa)) : Z :=
  foldr (fun x m => (match x with Some _ => 1 | None => 0 end) + 2 * m) 0 l.

Definition header_size (type : Z) : nat := if type =? RTM_IFINFO then SIZEOF_IF_MSGHDR else SIZEOF_IFA_MSGHDR.

Definition msg_len (m : ifmsg) : nat := header_size (m_type m) + length (concat (slot_bytes <$> m_addrs m)).

Definition msg_bytes (m : ifmsg) : list Z :=
  uint_bytes little_endian 2 (Z.of_nat (msg_len m)) ++ [5; m_type m] ++ uint_bytes little_endian 4 (mask_of (m_addrs m)) ++
  uint_bytes little_endian 4 (m_flags m) ++ m_rest m ++ concat (slot_bytes <$> m_addrs m).

Definition msg_ok (m : ifmsg) : Prop :=
  (12 + length (m_rest m) = header_size (m_type m))%nat /\ length (m_addrs m) = RTAX_MAX /\
  Forall (fun x => match x with Some sa => sa_ok sa | None => True end) (m_addrs m) /\ Z.of_nat (msg_len m) < 65536 /\ 0 <= m_flags m < 2 ^ 32.

(** The index and the name of the interface that a message is about. *)
Definition link_of (m : ifmsg) : option (Z * cstring) :=
  if m_type m =? RTM_IFINFO then
    match m_addrs m !! RTAX_IFP with
    | Some (Some (SaLink i _ n _ _)) => Some (i, n)
    | _ => None
    end
  else None.

Definition interfaces (ms : list ifmsg) : list (Z * cstring) := omap link_of ms.

Definition block (ms : list ifmsg) : list Z := concat (msg_bytes <$> ms).

(** ** Addresses *)

Lemma roundup_8 n : (n < 256)%nat -> Z.to_nat (ROUNDUP (Z.of_nat n) SIZEOF_LONG) = round8 n.
Proof using.
  intros Hn. assert (H : forallb (fun k => (Z.to_nat (ROUNDUP (Z.of_nat k) SIZEOF_LONG) =? round8 k)%nat) (seq 0 256) = true) by by vm_compute.
  rewrite forallb_forall in H. apply Nat.eqb_eq, H, in_seq. lia.
Qed.

Lemma round8_ge n : (n <= round8 n)%nat.
Proof using. unfold round8. pose proof (Nat.div_mod (n + 7) 8 ltac:(lia)). pose proof (Nat.mod_upper_bound (n + 7) 8). lia. Qed.

Lemma length_sa_bytes_link i t n a pad : length (sa_bytes (SaLink i t n a pad)) = (8 + length (n ++ a ++ pad))%nat.
Proof using. cbn [sa_bytes]. rewrite !length_app, length_uint_bytes. cbn [length]. lia. Qed.

Lemma length_sa_padded sa : length (sa_padded sa) = round8 (length (sa_bytes sa)).
Proof using. unfold sa_padded. pose proof (round8_ge (length (sa_bytes sa))). llia. Qed.

Lemma next_sa_ok pre sa post :
  sa_ok sa -> NEXT_SA (pre ++ sa_padded sa ++ post) (length pre) = Some (length pre + length (sa_padded sa))%nat.
Proof using.
  intros Hok. rewrite length_sa_padded. unfold NEXT_SA, sa_padded.
  assert (H : exists b r, sa_bytes sa = b :: r /\ (b = Z.of_nat (length (sa_bytes sa)) /\ 0 < b < 256 \/ b = 0 /\ length (sa_bytes sa) = 8%nat)).
  { destruct sa as [i t n a pad|f r|r]; cbn in Hok; [|cbn [sa_bytes] in *..].
    - eexists _, _. split; [done|]. left. rewrite length_sa_bytes_link. lia.
    - eexists _, _. split; [done|]. left. cbn [length app]. lia.
    - eexists _, _. split; [done|]. right. cbn [length]. lia. }
  destruct H as (b & r & E & H). rewrite lookup_app_r, Nat.sub_diag by lia. rewrite E at 1. cbn [app lookup list_lookup option_bind].
  destruct H as [[Hb Hr]|[-> Hl]].
  - cbn [mbind option_bind]. destruct (Z.eqb_spec b 0); [lia|]. cbn [negb]. rewrite Hb, roundup_8 by lia. done.
  - by rewrite Hl.
Qed.

(** The offsets of the addresses from [o] on. *)
Fixpoint offsets (o : nat) (l : list (option rtsa)) : list (option nat) :=
  match l with
  | [] => []
  | None :: l' => None :: offsets o l'
  | Some sa :: l' => Some o :: offsets (o + length (sa_padded sa)) l'
  end.

Lemma mask_of_cons x l : mask_of (x :: l) = (match x with Some _ => 1 | None => 0 end) + 2 * mask_of l.
Proof using. done. Qed.

Lemma mask_of_range l : 0 <= mask_of l < 2 ^ zlen l.
Proof using.
  induction l as [|x l IH]; [done|]. rewrite mask_of_cons. cbn [length]. rewrite Nat2Z.inj_succ, Z.pow_succ_r by lia. destruct x; lia.
Qed.

Lemma mask_bit l i : Z.testbit (mask_of l) (Z.of_nat i) = match l !! i with Some (Some _) => true | _ => false end.
Proof using.
  revert i. induction l as [|x l IH]; intros [|i].
  - done.
  - by rewrite Z.testbit_0_l.
  - rewrite mask_of_cons. cbn [lookup list_lookup]. change (Z.of_nat 0) with 0. rewrite Z.bit0_odd, Z.odd_add_mul_2. by destruct x.
  - rewrite mask_of_cons. cbn [lookup list_lookup]. rewrite <- IH, Nat2Z.inj_succ.
    pose proof (mask_of_range l). rewrite Z.add_comm. destruct x as [sa|]; [by rewrite Z.testbit_odd_succ by lia|].
    by rewrite Z.add_0_r, Z.testbit_even_succ by lia.
Qed.

Lemma has_flag_bit addrs i : has_flag addrs (Z.shiftl 1 (Z.of_nat i)) = Z.testbit addrs (Z.of_nat i).
Proof using.
  unfold has_flag. rewrite Z.shiftl_1_l. destruct (Z.testbit addrs (Z.of_nat i)) eqn:E.
  - apply negb_true_iff, Z.eqb_neq. intros H. apply (f_equal (fun z => Z.testbit z (Z.of_nat i))) in H.
    rewrite Z.land_spec, E, Z.pow2_bits_true, Z.bits_0 in H by lia. done.
  - apply negb_false_iff, Z.eqb_eq, Z.bits_inj'. intros k Hk. rewrite Z.land_spec, Z.bits_0.
    destruct (decide (Z.of_nat i = k)) as [<-|]; [by rewrite E|]. rewrite Z.pow2_bits_false by done. by rewrite andb_false_r.
Qed.

Lemma rtaddrs_loop_ok addrs l i0 pre post :
  Forall (fun x => match x with Some sa => sa_ok sa | None => True end) l ->
  (forall k, (k < length l)%nat -> Z.testbit addrs (Z.of_nat (i0 + k)) = match l !! k with Some (Some _) => true | _ => false end) ->
  rtaddrs_loop (pre ++ concat (slot_bytes <$> l) ++ post) addrs (seq i0 (length l)) (length pre) = Some (offsets (length pre) l).
Proof using.
  intros Hok. revert i0 pre. induction Hok as [|x l Hx _ IH]; intros i0 pre Hb; [done|].
  cbn [length seq rtaddrs_loop]. pose proof (Hb 0%nat ltac:(cbn; lia)) as Hb0. rewrite Nat.add_0_r in Hb0. rewrite has_flag_bit, Hb0.
  assert (Hb' : forall k, (k < length l)%nat -> Z.testbit addrs (Z.of_nat (S i0 + k)) = match l !! k with Some (Some _) => true | _ => false end).
  { intros k Hk. specialize (Hb (S k) ltac:(cbn; lia)). replace (S i0 + k)%nat with (i0 + S k)%nat by lia. exact Hb. }
  destruct x as [sa|]; cbn [lookup list_lookup fmap list_fmap concat slot_bytes offsets].
  - rewrite <- app_assoc, next_sa_ok by done. cbn [mbind option_bind].
    rewrite app_assoc, <- length_app, (IH _ _ Hb'). cbn. by rewrite length_app.
  - cbn [app]. by rewrite (IH _ _ Hb').
Qed.

(** Where an address that is there is found. *)
Lemma offsets_lookup l i sa pre post :
  l !! i = Some (Some sa) ->
  exists pre' post', offsets (length pre) l !! i = Some (Some (length pre')) /\
    pre ++ concat (slot_bytes <$> l) ++ post = pre' ++ sa_bytes sa ++ post'.
Proof using.
  revert i pre. induction l as [|x l IH]; intros [|i] pre H; try done; cbn [lookup list_lookup] in H.
  - injection H as ->. cbn [fmap list_fmap concat slot_bytes offsets]. unfold sa_padded. eexists pre, _. split; [done|].
    rewrite <- !app_assoc. done.
  - destruct x as [y|]; cbn [fmap list_fmap concat slot_bytes offsets lookup list_lookup].
    + destruct (IH i (pre ++ sa_padded y) H) as (pre' & post' & E1 & E2). exists pre', post'.
      rewrite length_app in E1. split; [done|]. rewrite <- E2. by rewrite <- !app_assoc.
    + destruct (IH i pre H) as (pre' & post' & E1 & E2). by exists pre', post'.
Qed.

Lemma offsets_absent l i o : l !! i = Some None -> offsets o l !! i = Some None.
Proof using.
  revert i o. induction l as [|x l IH]; intros [|i] o H; try done; cbn [lookup list_lookup] in H.
  - by injection H as ->.
  - destruct x; cbn [offsets lookup list_lookup]; by apply IH.
Qed.

(** ** Fields of a message *)

Lemma length_msg_bytes m : msg_ok m -> length (msg_bytes m) = msg_len m.
Proof using.
  intros (Hh & _). unfold msg_bytes, msg_len. rewrite !length_app, !length_uint_bytes. cbn [length]. lia.
Qed.

Lemma msg_len_min m : msg_ok m -> (12 <= msg_len m)%nat.
Proof using. intros (Hh & _). unfold msg_len. lia. Qed.

(** A field of the header: [a] is what is in front of it in the message. *)
Lemma field_at pre a b post n w :
  0 <= w < 2 ^ (8 * Z.of_nat n) ->
  uint_at little_endian n (pre ++ (a ++ uint_bytes little_endian n w ++ b) ++ post) (length pre + length a) = Some w.
Proof using.
  intros Hw. rewrite uint_at_app_r, <- !app_assoc, <- (Nat.add_0_r (length a)), uint_at_app_r. by apply uint_at_front.
Qed.

Lemma msg_fields pre m post :
  msg_ok m -> let buf := pre ++ msg_bytes m ++ post in
  uint_at little_endian 2 buf (length pre) = Some (Z.of_nat (msg_len m)) /\ buf !! (length pre + 3)%nat = Some (m_type m) /\
  uint_at little_endian 4 buf (length pre + 4) = Some (mask_of (m_addrs m)) /\
  uint_at little_endian 4 buf (length pre + 8) = Some (m_flags m).
Proof using.
  intros (_ & Ha & _ & Hl & Hf). cbv zeta. unfold msg_bytes. pose proof (mask_of_range (m_addrs m)) as Hm. rewrite Ha in Hm.
  set (l2 := uint_bytes little_endian 2 (Z.of_nat (msg_len m))). assert (Hl2 : length l2 = 2%nat) by apply length_uint_bytes.
  split_and!.
  - rewrite <- (Nat.add_0_r (length pre)). apply (field_at pre [] _ _ 2). cbn. lia.
  - rewrite lookup_app_r by lia. replace (length pre + 3 - length pre)%nat with 3%nat by lia.
    rewrite lookup_app_l by (rewrite !length_app, Hl2; cbn; lia). by rewrite lookup_app_r, Hl2 by lia.
  - rewrite (app_assoc l2). assert (Hk : length (l2 ++ [5; m_type m]) = 4%nat) by (by rewrite length_app, Hl2).
    rewrite <- Hk at 4. apply field_at. change (2 ^ Z.of_nat RTAX_MAX) with 256 in Hm. change (2 ^ (8 * Z.of_nat 4)) with 4294967296. lia.
  - set (l4 := uint_bytes little_endian 4 (mask_of (m_addrs m))). assert (Hl4 : length l4 = 4%nat) by apply length_uint_bytes.
    rewrite (app_assoc [5; m_type m] l4), (app_assoc l2). assert (Hk : length (l2 ++ [5; m_type m] ++ l4) = 8%nat) by (by rewrite !length_app, Hl2, Hl4).
    rewrite <- Hk. apply field_at. exact Hf.
Qed.

(** The addresses of a message. *)
Lemma msg_addrs pre m post :
  msg_ok m -> let buf := pre ++ msg_bytes m ++ post in
  exists pre' post', length pre' = (length pre + header_size (m_type m))%nat /\ buf = pre' ++ concat (slot_bytes <$> m_addrs m) ++ post' /\
    get_rtaddrs buf (mask_of (m_addrs m)) (length pre + header_size (m_type m)) = Some (offsets (length pre') (m_addrs m)).
Proof using.
  intros (Hh & Ha & Hok & _ & _). cbv zeta. set (b := concat (slot_bytes <$> m_addrs m)).
  assert (E : exists hd, msg_bytes m = hd ++ b /\ length hd = header_size (m_type m)).
  { unfold msg_bytes. fold b. exists (uint_bytes little_endian 2 (Z.of_nat (msg_len m)) ++ [5; m_type m] ++ uint_bytes little_endian 4 (mask_of (m_addrs m)) ++
      uint_bytes little_endian 4 (m_flags m) ++ m_rest m). split; [by rewrite <- !app_assoc|].
    rewrite !length_app, !length_uint_bytes. cbn [length]. lia. }
  destruct E as (hd & E & Hl). exists (pre ++ hd), post. rewrite E, length_app, Hl. split; [done|]. split; [by rewrite <- !app_assoc|].
  unfold get_rtaddrs. rewrite <- Ha. replace (pre ++ (hd ++ b) ++ post) with ((pre ++ hd) ++ b ++ post) by (by rewrite <- !app_assoc).
  rewrite <- Hl, <- length_app. apply rtaddrs_loop_ok; [done|]. intros k Hk. rewrite Nat.add_0_l. apply mask_bit.
Qed.

(** A socket address of the link layer at an offset. *)
Definition link_at (buf : list Z) (sdl : nat) (i : Z) (n : cstring) : Prop :=
  exists pre t a pad post, buf = pre ++ sa_bytes (SaLink i t n a pad) ++ post /\ length pre = sdl /\ sa_ok (SaLink i t n a pad).

End Messages.

Section Library.
Context {os : OS} {SE : Strerror} {CF : Config} {RH : RouteHost}.

Lemma at_offset (pre b post : list Z) k : (k < length b)%nat -> (pre ++ b ++ post) !! (length pre + k)%nat = b !! k.
Proof using. intros Hk. rewrite lookup_app_r by lia. replace (length pre + k - length pre)%nat with k by lia. by rewrite lookup_app_l. Qed.

Definition sa_family_of (sa : rtsa) : Z :=
  match sa with SaLink _ _ _ _ _ => AF_LINK | SaRaw f _ => f | SaEmpty r => hd 0 r end.

Lemma sa_family_at pre sa post : sa_ok sa -> (pre ++ sa_bytes sa ++ post) !! (length pre + 1)%nat = Some (sa_family_of sa).
Proof using.
  intros Hok. destruct sa as [i t n a pad|f r|r].
  - rewrite at_offset by (rewrite length_sa_bytes_link; lia). done.
  - rewrite at_offset by (cbn; lia). done.
  - destruct Hok as [Hl _]. destruct r as [|x r]; [done|]. rewrite at_offset by (cbn; lia). done.
Qed.

(** ** The address of the interface *)

Lemma link_sa_ok pre m post s :
  msg_ok m -> let buf := pre ++ msg_bytes m ++ post in
  match link_of m with
  | Some (i, n) => exists sdl, link_sa buf (length pre) s = (Val (Some sdl), s) /\ link_at buf sdl i n
  | None => link_sa buf (length pre) s = (Val None, s)
  end.
Proof using.
  intros Hm buf. destruct (msg_fields pre m post Hm) as (_ & Ht & Ha & _). destruct (msg_addrs pre m post Hm) as (pre' & post' & Hl & Hb & Hr).
  fold buf in Ht, Ha, Hr, Hb. unfold link_sa, link_of, byte_at, u32_at. rewrite Ht. cbn [checked]. rewrite then_pure.
  destruct (Z.eqb_spec (m_type m) RTM_IFINFO) as [Et|]; [|done].
  rewrite Ha. cbn [checked]. rewrite then_pure. unfold header_size in Hr. rewrite Et in Hr. cbn [Z.eqb RTM_IFINFO Pos.eqb] in Hr.
  rewrite Hr. cbn [checked]. rewrite then_pure. unfold slot.
  destruct Hm as (_ & H8 & Hok & _). assert (Hi : (RTAX_IFP < length (m_addrs m))%nat) by (rewrite H8; unfold RTAX_IFP, RTAX_MAX; lia).
  destruct (lookup_lt_is_Some_2 _ _ Hi) as [[sa|] E]; rewrite E; [|by rewrite (offsets_absent _ _ _ E)].
  destruct (offsets_lookup _ _ _ pre' post' E) as (q & r & Eo & Eb). rewrite Eo. cbn [mjoin option_join].
  rewrite <- Hb in Eb. rewrite Forall_lookup in Hok. specialize (Hok _ _ E). cbn in Hok.
  pose proof (sa_family_at q sa r Hok) as Hf. rewrite <- Eb in Hf. rewrite Hf. cbn [checked]. rewrite then_pure.
  destruct sa as [i t n a pad|f b|b]; cbn [sa_family_of].
  - eexists. split; [done|]. by exists q, t, a, pad, r.
  - destruct Hok as [_ Hn]. by rewrite (proj2 (Z.eqb_neq f AF_LINK) Hn).
  - destruct Hok as [_ Hn]. by rewrite (proj2 (Z.eqb_neq _ AF_LINK) Hn).
Qed.

Lemma link_fields buf sdl i n s :
  link_at buf sdl i n ->
  sdl_index buf sdl s = (Val i, s) /\ sdl_nlen buf sdl s = (Val (Z.of_nat (length n)), s) /\
  (exists rest, drop (sdl_data sdl) buf = n ++ rest) /\ 0 <= i < 65536 /\ nul_free n /\ (length n < 248)%nat.
Proof using.
  intros (pre & t & a & pad & post & -> & <- & Hl & Hi & Hn). unfold sdl_index, sdl_nlen, sdl_data, u16_at, byte_at.
  assert (E : sa_bytes (SaLink i t n a pad) = ([8 + Z.of_nat (length (n ++ a ++ pad)); AF_LINK] ++ uint_bytes little_endian 2 i) ++
    [t; Z.of_nat (length n); Z.of_nat (length a); 0] ++ n ++ a ++ pad) by done.
  assert (Hu : length (uint_bytes little_endian 2 i) = 2%nat) by apply length_uint_bytes.
  split_and!; [..|lia|lia|done|rewrite length_app in Hl; lia].
  - cbn [sa_bytes]. rewrite (field_at pre [_; _] _ post 2) by done. done.
  - rewrite at_offset by (rewrite length_sa_bytes_link; lia). rewrite E, lookup_app_r by (rewrite length_app, Hu; cbn; lia).
    rewrite length_app, Hu. done.
  - exists (a ++ pad ++ post). rewrite drop_app_ge by lia. replace (length pre + 8 - length pre)%nat with 8%nat by lia.
    rewrite E, (app_assoc (_ ++ _)). rewrite <- app_assoc. rewrite drop_app_length' by (rewrite !length_app, Hu; done). by rewrite <- !app_assoc.
Qed.

(** ** Loops over the messages of a block

    [P ms x s]: what holds when the messages [ms] are left; [Q]: what a body that returns establishes. *)
Lemma each_msg_ends {X R} (I Y : list event -> Prop) (body : nat -> X -> M (flow X R)) (P : list ifmsg -> X -> st -> Prop) (Q : R -> st -> Prop) msgs tail :
  Forall msg_ok msgs ->
  (forall front m ms x s, msgs = front ++ m :: ms -> P (m :: ms) x s ->
     wp (body (length (block front)) x) (ends I Y (fun f s' => match f with Next x' => P ms x' s' | Return r => Q r s' | Break _ => False end)) s) ->
  forall x s, P msgs x s ->
  wp (each_msg (length (block msgs ++ tail)) (block msgs ++ tail) (length (block msgs)) 0 body x)
    (ends I Y (fun f s' => match f with Next x' => P [] x' s' | Return r => Q r s' | Break _ => False end)) s.
Proof using.
  intros Hok Hbody x s HP. set (buf := block msgs ++ tail).
  assert (H : forall ms front fuel x s, msgs = front ++ ms -> (length (block ms) <= fuel)%nat -> P ms x s ->
    wp (each_msg fuel buf (length (block msgs)) (length (block front)) body x)
      (ends I Y (fun f s' => match f with Next x' => P [] x' s' | Return r => Q r s' | Break _ => False end)) s).
  { clear x s HP. induction ms as [|m ms IH]; intros front fuel x s E Hf HP.
    - rewrite app_nil_r in E. subst front. unfold wp. destruct fuel; cbn [each_msg]; by rewrite Nat.ltb_irrefl.
    - assert (Hm : msg_ok m) by (rewrite E in Hok; apply Forall_app in Hok as [_ Hok]; by inversion Hok).
      pose proof (length_msg_bytes m Hm) as Hl. pose proof (msg_len_min m Hm) as Hmin.
      assert (Eb : block (m :: ms) = msg_bytes m ++ block ms) by done.
      assert (Em : block msgs = block front ++ msg_bytes m ++ block ms) by (rewrite E; unfold block; by rewrite fmap_app, concat_app).
      rewrite Eb, length_app in Hf. destruct fuel as [|fuel]; [lia|]. cbn [each_msg].
      destruct (Nat.ltb_spec (length (block front)) (length (block msgs))); [|rewrite Em, !length_app in *; lia].
      apply wp_then. eapply wp_mono; [exact (Hbody front m ms x s E HP)|]. intros [f| | | |] s'; try done. cbn [ends andthen]. intros Hq.
      destruct f as [x'| |r]; [|done|done]. destruct (msg_fields (block front) m (block ms ++ tail) Hm) as (Hlen & _).
      assert (Ebuf : buf = block front ++ msg_bytes m ++ block ms ++ tail) by (unfold buf; rewrite Em; by rewrite <- !app_assoc).
      unfold u16_at. rewrite Ebuf at 1. rewrite Hlen. cbn [checked]. rewrite then_pure, Nat2Z.id, <- Hl.
      replace (length (block front) + length (msg_bytes m))%nat with (length (block (front ++ [m]))).
      + apply IH; [by rewrite <- app_assoc|lia|done].
      + unfold block. rewrite fmap_app, concat_app, length_app. cbn. by rewrite app_nil_r. }
  apply (H msgs [] _ x s); [done|unfold buf; llia|done].
Qed.

(** The same for a body that always returns a value. *)
Lemma ends_value {A} (m : M A) (Q : A -> st -> Prop) s : wp m (value Q) s <-> wp m (ends (fun _ => False) (fun _ => False) Q) s.
Proof using. split; intros H; (eapply wp_mono; [exact H|]); intros [] ? Ho; cbn in *; tauto. Qed.

Lemma each_msg_rule {X R} (body : nat -> X -> M (flow X R)) (P : list ifmsg -> X -> st -> Prop) (Q : R -> st -> Prop) msgs tail :
  Forall msg_ok msgs ->
  (forall front m ms x s, msgs = front ++ m :: ms -> P (m :: ms) x s ->
     wp (body (length (block front)) x) (value (fun f s' => match f with Next x' => P ms x' s' | Return r => Q r s' | Break _ => False end)) s) ->
  forall x s, P msgs x s ->
  wp (each_msg (length (block msgs ++ tail)) (block msgs ++ tail) (length (block msgs)) 0 body x)
    (value (fun f s' => match f with Next x' => P [] x' s' | Return r => Q r s' | Break _ => False end)) s.
Proof using.
  intros Hok Hbody x s HP. refine (proj2 (ends_value _ _ _) _). apply (each_msg_ends _ _ body P Q msgs tail Hok); [|done].
  intros front m ms x' s' E HP'. refine (proj1 (ends_value _ _ _) _). exact (Hbody front m ms x' s' E HP').
Qed.

End Library.

(** * The kernel *)

Definition iflist_mib (family flags : Z) : list Z := [CTL_NET; AF_ROUTE; 0; family; NET_RT_IFLIST; flags].

(** [tbl family flags] are the messages of the interface list: [sysctl] stores them if they fit. *)
Class IflistLaw {os : OS} {CF : Config} {RH : RouteHost} (tbl : Z -> Z -> list ifmsg) : Prop := {
  iflist_ok : forall family flags, Forall msg_ok (tbl family flags);
  iflist_law : forall h family flags len, let r := os_answer h (sys_sysctl (iflist_mib family flags) (Some len) []) in
    0 <= rv r -> rbytes r = block (tbl family flags) /\ rints r = [Z.of_nat (length (rbytes r))] /\ Z.of_nat (length (rbytes r)) <= len;
}.

(** A new block has the size that was asked for. *)
Class UninitLaw {RH : RouteHost} : Prop := uninit_law : forall n, length (uninit n) = n.

(** A call for the list or for memory has failed. *)
Definition refusal (e : event) : Prop :=
  match e.1 with sys_sysctl _ _ _ => rv e.2 < 0 | sys_malloc _ => rv e.2 = 0 | _ => False end.
Definition refused (evs : list event) : Prop := Exists refusal evs.

(** What was written on the terminal. *)
Definition shown_of (e : event) : cstring :=
  match e.1 with sys_fputs t fp => if fp =? stdout then t else [] | _ => [] end.
Definition shown : list event -> cstring := collect shown_of.

Fixpoint index_of (name : cstring) (l : list (Z * cstring)) : Z :=
  match l with
  | [] => 0
  | (i, n) :: l' => if decide (n = name) then i else index_of name l'
  end.

Fixpoint name_of (idx : Z) (l : list (Z * cstring)) : option cstring :=
  match l with
  | [] => None
  | (i, n) :: l' => if decide (i = idx) then Some n else name_of idx l'
  end.

Section Names.
Context {os : OS} {SE : Strerror} {CF : Config} {RH : RouteHost} {UL : UninitLaw}.
Context (tbl : Z -> Z -> list ifmsg) {IL : IflistLaw tbl}.

(** What the library did since state [s]: everything it allocated, but [held], it has freed, and it
    has not written anything. *)
Definition since (s s' : st) (held : list Z) (evs : list event) : Prop :=
  trace s' = evs ++ trace s /\ allocated evs ≡ₚ freed evs ++ held /\ daemon_proc s' = daemon_proc s /\ shown evs = [].

Lemma net_rt_iflist_spec family flags s :
  wp (net_rt_iflist family flags) (value (fun b s' => exists evs, match b with
      | None => since s s' [] evs /\ refused evs
      | Some (p, buf, len) => since s s' [p] evs /\ p <> 0 /\ len = length (block (tbl family flags)) /\
          exists tail, buf = block (tbl family flags) ++ tail
      end)) s.
Proof using All.
  unfold net_rt_iflist. fold (iflist_mib family flags). apply wp_then, wp_sys. cbn [andthen].
  set (r1 := answer _ s). set (s1 := after _ r1 s). destruct (Z.ltb_spec (rv r1) 0) as [H1|H1].
  { apply wp_pure. cbn. exists [(sys_sysctl (iflist_mib family flags) None [], r1)]. split; [done|]. by left. }
  set (len := hd 0 (rints r1)). apply wp_then, wp_sys. cbn [andthen]. set (r2 := answer _ s1). set (s2 := after _ r2 s1).
  destruct (Z.eqb_spec (rv r2) 0) as [H2|H2].
  { apply wp_pure. cbn. exists [(sys_malloc len, r2); (sys_sysctl (iflist_mib family flags) None [], r1)]. split; [|by left].
    split; [done|]. split; [|done]. unfold allocated, freed. rewrite !collect_cons. cbn. unfold alloc_data. cbn. by rewrite H2. }
  apply wp_then, wp_sys. cbn [andthen]. pose proof (iflist_law (trace s2) family flags len) as HL.
  fold (answer (sys_sysctl (iflist_mib family flags) (Some len) []) s2) in HL. set (r3 := answer _ s2) in *. set (s3 := after _ r3 s2).
  pose (evs := [(sys_sysctl (iflist_mib family flags) (Some len) [], r3); (sys_malloc len, r2); (sys_sysctl (iflist_mib family flags) None [], r1)]).
  assert (Ha : forall more, allocated (more ++ evs) = [rv r2] ++ allocated more).
  { intros more. unfold allocated. rewrite collect_app. f_equal. unfold evs. rewrite !collect_cons. cbn. unfold alloc_data. cbn.
    by rewrite (proj2 (Z.eqb_neq _ _) H2). }
  destruct (Z.ltb_spec (rv r3) 0) as [H3|H3].
  - unfold free, wp, mthen, sys, mpure. cbn [value].
    exists ([(sys_free (rv r2), answer (sys_free (rv r2)) s3)] ++ evs). split; [|by right; left]. split; [done|]. split; [by rewrite Ha|done].
  - destruct (HL H3) as (Hb & Hi & Hl). rewrite memcpy_ok by (rewrite uninit_law; lia). cbn [checked]. rewrite then_pure.
    apply wp_pure. cbn [value]. exists evs. split; [split; [done|split; [by rewrite (Ha [] : allocated evs = [rv r2])|done]]|]. split; [done|].
    rewrite Hi, <- Hb. cbn [hd]. rewrite Nat2Z.id. split; [done|]. eexists. cbn [take app]. done.
Qed.

(** [free] at the end. *)
Lemma since_free s s1 p evs held : since s s1 (p :: held) evs ->
  exists evs', since s (after (sys_free p) (answer (sys_free p) s1) s1) held evs' /\ (refused evs -> refused evs').
Proof using.
  intros (Ht & Ha & Hd & Hw). exists ((sys_free p, answer (sys_free p) s1) :: evs). split; [split_and!|].
  - cbn. by rewrite Ht.
  - unfold allocated, freed in *. rewrite !collect_cons. cbn. rewrite app_nil_r, Ha, <- app_assoc. done.
  - done.
  - unfold shown in *. by rewrite collect_cons, Hw.
  - intros H. by right.
Qed.

Lemma interfaces_cons m ms : interfaces (m :: ms) = match link_of m with Some x => x :: interfaces ms | None => interfaces ms end.
Proof using. unfold interfaces. cbn. by destruct (link_of m). Qed.

(** One message in the middle of the block. *)
Lemma block_split msgs front m ms tail : msgs = front ++ m :: ms -> block msgs ++ tail = block front ++ msg_bytes m ++ block ms ++ tail.
Proof using. intros ->. unfold block. rewrite fmap_app, concat_app. cbn. by rewrite <- !app_assoc. Qed.

(** A loop over the messages of the list: the body sees the interface of each message. *)
Lemma each_link_rule {X R} family flags tail s1 (body : nat -> X -> M (flow X R)) (P : list ifmsg -> X -> Prop) (Q : R -> st -> Prop) :
  let buf := block (tbl family flags) ++ tail in
  (forall next x s, link_sa buf next s = (Val None, s) -> body next x s = (Val (Next x), s)) ->
  (forall next x m ms sdl i n, link_sa buf next s1 = (Val (Some sdl), s1) -> link_at buf sdl i n -> link_of m = Some (i, n) -> P (m :: ms) x ->
     wp (body next x) (value (fun f s' => match f with Next x' => s' = s1 /\ P ms x' | Return r => Q r s' | Break _ => False end)) s1) ->
  (forall m ms x, link_of m = None -> P (m :: ms) x -> P ms x) ->
  forall x, P (tbl family flags) x ->
  wp (each_msg (length buf) buf (length (block (tbl family flags))) 0 body x)
    (value (fun f s' => match f with Next x' => s' = s1 /\ P [] x' | Return r => Q r s' | Break _ => False end)) s1.
Proof using All.
  intros buf Hskip Hlink Hnone x HP.
  apply (each_msg_rule body (fun ms x s' => s' = s1 /\ P ms x) Q); [apply iflist_ok| |done].
  intros front m ms x' s' E [-> Hx]. pose proof (iflist_ok family flags) as Hok. rewrite E in Hok.
  apply Forall_app in Hok as [_ Hok]. apply Forall_cons in Hok as [Hm _].
  pose proof (link_sa_ok (block front) m (block ms ++ tail) s1 Hm) as Hl. cbv zeta in Hl. rewrite <- (block_split _ _ _ _ tail E) in Hl. fold buf in Hl.
  destruct (link_of m) as [[i n]|] eqn:El.
  - destruct Hl as (sdl & Hl & Hat). eapply Hlink; eauto.
  - unfold wp. rewrite Hskip by done. cbn. split; [done|]. by eapply Hnone.
Qed.

Lemma interfaces_none m ms : link_of m = None -> interfaces (m :: ms) = interfaces ms.
Proof using. intros H. by rewrite interfaces_cons, H. Qed.
Lemma interfaces_some m ms x : link_of m = Some x -> interfaces (m :: ms) = x :: interfaces ms.
Proof using. intros H. by rewrite interfaces_cons, H. Qed.

Lemma if_nametoindex_spec name s :
  nul_free name ->
  wp (if_nametoindex name) (value (fun idx s' => exists evs, since s s' [] evs /\
      (idx = 0 /\ refused evs \/ idx = index_of name (interfaces (tbl 0 0))))) s.
Proof using All.
  intros Hname. unfold if_nametoindex. apply wp_then. eapply wp_mono; [apply net_rt_iflist_spec|].
  intros [b| | | |] s1; try done. cbn [value andthen]. intros (evs & H). destruct b as [[[p buf] len]|].
  2: { apply wp_pure. cbn. exists evs. destruct H as [? ?]. split; [done|by left]. }
  destruct H as (Hs & Hp & -> & tail & ->). set (msgs := tbl 0 0) in *. apply wp_then.
  eapply wp_mono.
  { apply (each_link_rule 0 0 tail s1 _ (fun ms (_ : unit) => index_of name (interfaces ms) = index_of name (interfaces msgs))
      (fun idx s' => idx = index_of name (interfaces msgs) /\ exists evs', since s s' [] evs')).
    - intros next [] s' E. by rewrite (then_val _ _ _ _ _ E).
    - intros next [] m ms sdl i n E Hat El Hx. rewrite (interfaces_some _ _ _ El) in Hx. cbn [index_of] in Hx.
      unfold wp. rewrite (then_val _ _ _ _ _ E). destruct (link_fields _ sdl i n s1 Hat) as (Hi & Hn & (rest & Hd) & _ & Hnf & _).
      rewrite (then_val _ _ _ _ _ Hn). destruct (Z.eqb_spec (Z.of_nat (length n)) (Z.of_nat (length name))) as [Eq|Eq].
      2: { cbn. split; [done|]. rewrite decide_False in Hx; [done|]. intros ->. lia. }
      fold msgs in Hd. rewrite Hd, Eq, Nat2Z.id. rewrite strncmp_eq_spec by (done || lia). cbn [checked]. rewrite then_pure. case_decide as Hd'.
      + rewrite bool_decide_eq_true_2 by done. rewrite (then_val _ _ _ _ _ Hi). cbn. split; [done|].
        destruct (since_free _ _ _ _ _ Hs) as (evs' & ? & _). by exists evs'.
      + by rewrite bool_decide_eq_false_2 by done.
    - intros m ms [] El. by rewrite interfaces_none.
    - done. }
  intros [f| | | |] s2; try done. cbn [value andthen]. destruct f as [[]| |idx]; [|done|].
  - intros [-> Hx]. cbn in Hx. destruct (since_free _ _ _ _ _ Hs) as (evs' & Hs' & _).
    unfold free, wp, mthen. cbn. exists evs'. split; [exact Hs'|]. by right.
  - intros (-> & evs' & Hs'). apply wp_pure. cbn. exists evs'. split; [done|by right].
Qed.

Lemma if_indextoname_spec idx name s :
  (16 <= length name)%nat -> 0 <= idx < 2 ^ 31 ->
  wp (if_indextoname idx name) (value (fun r s' => exists evs, since s s' [] evs /\
      (r = None /\ refused evs \/
       match name_of idx (interfaces (tbl 0 idx)) with
       | None => r = None
       | Some n => exists name', r = Some name' /\ length name' = length name /\ cstring_at name' 0 = take 15 n
       end))) s.
Proof using All.
  intros Hlen Hidx. unfold if_indextoname. assert (Es : s32 idx = idx) by (unfold swrap; rewrite Z.mod_small; lia).
  assert (Eu : u32 idx = idx) by (unfold wrap; rewrite Z.mod_small; lia). rewrite Es.
  apply wp_then. eapply wp_mono; [apply net_rt_iflist_spec|].
  intros [b| | | |] s1; try done. cbn [value andthen]. intros (evs & H). destruct b as [[[p buf] len]|].
  2: { apply wp_pure. cbn. exists evs. destruct H as [? ?]. split; [done|by left]. }
  destruct H as (Hs & Hp & -> & tail & ->). set (msgs := tbl 0 idx) in *. apply wp_then.
  eapply wp_mono.
  { apply (each_link_rule 0 idx tail s1 _ (fun ms (_ : unit) => name_of idx (interfaces ms) = name_of idx (interfaces msgs))
      (fun r s' => (exists evs', since s s' [] evs') /\ exists n, name_of idx (interfaces msgs) = Some n /\ length r = length name /\ cstring_at r 0 = take 15 n)).
    - intros next [] s' E. by rewrite (then_val _ _ _ _ _ E).
    - intros next [] m ms sdl i n E Hat El Hx. rewrite (interfaces_some _ _ _ El) in Hx. cbn [name_of] in Hx.
      unfold wp. rewrite (then_val _ _ _ _ _ E). destruct (link_fields _ sdl i n s1 Hat) as (Hi & Hn & (rest & Hd) & _ & Hnf & _).
      rewrite (then_val _ _ _ _ _ Hi). rewrite Eu. case_decide as Hd'.
      2: { rewrite (proj2 (Z.eqb_neq i idx) Hd'). done. }
      fold msgs in Hd. subst i. rewrite Z.eqb_refl, (then_val _ _ _ _ _ Hn). rewrite Hd. unfold IFNAMSIZ.
      set (k := Z.to_nat (Z.min (16 - 1) (Z.of_nat (length n)))). assert (Hk : k = Nat.min 15 (length n)) by lia.
      rewrite strncpy_text_same by (done || lia). cbn [checked]. rewrite then_pure, memcpy_ok by llia. cbn [checked]. rewrite then_pure.
      unfold store. rewrite decide_True by llia. cbn [checked]. rewrite then_pure. cbn. split.
      { destruct (since_free _ _ _ _ _ Hs) as (evs' & ? & _). by exists evs'. }
      exists n. split; [done|]. split; [llia|]. unfold cstring_at. rewrite drop_0.
      assert (Ek : length (take k n) = k) by llia. destruct (drop k name) as [|z t] eqn:Et; [apply (f_equal length) in Et; rewrite length_drop in Et; cbn in Et; lia|].
      rewrite Ek, Et, take_0. cbn [app]. rewrite <- Ek at 1. rewrite insert_at_length. rewrite until_nul_text by (by apply Forall_take).
      destruct (Nat.le_ge_cases 15 (length n)); [by replace k with 15%nat by lia|]. by rewrite !take_ge by lia.
    - intros m ms [] El. by rewrite interfaces_none.
    - done. }
  intros [f| | | |] s2; try done. cbn [value andthen]. destruct f as [[]| |r]; [|done|].
  - intros [-> Hx]. cbn in Hx. destruct (since_free _ _ _ _ _ Hs) as (evs' & Hs' & _).
    unfold free, wp, mthen. cbn. exists evs'. split; [exact Hs'|]. right. by rewrite <- Hx.
  - intros ((evs' & Hs') & n & Hn & Hl & Hc). apply wp_pure. cbn. exists evs'. split; [done|]. right. rewrite Hn. by exists r.
Qed.

End Names.

(** * The array of names and indexes that [if_nameindex] builds in one block of memory

    [filled rp B len l]: the block [B] of length [len] at address [rp] holds the structures of the
    interfaces [l] from its start on and their names at its end. *)

(** The room that names take at the end of the block. *)
Definition names_size (l : list (Z * cstring)) : nat := sum_list_with (fun x => S (length x.2)) l.

Lemma names_size_app a b : names_size (a ++ b) = (names_size a + names_size b)%nat.
Proof. apply sum_list_with_app. Qed.

Lemma names_size_take k l : (names_size (take k l) <= names_size l)%nat.
Proof. rewrite <- (take_drop k l) at 2. rewrite names_size_app. lia. Qed.

Lemma store_as_memcpy {A} (b : list A) i v : store b i v = memcpy b i [v].
Proof.
  unfold store, memcpy. cbn [length]. repeat case_decide; try lia; [|done]. f_equal.
  rewrite insert_take_drop by lia. cbn. by replace (i + 1)%nat with (S i) by lia.
Qed.

Lemma field_text B off t : field B off (S (length t)) = t ++ [0] -> nul_free t -> cstring_at B off = t.
Proof.
  intros E Ht. unfold cstring_at. rewrite <- (take_drop (S (length t)) (drop off B)). fold (field B off (S (length t))). rewrite E, <- app_assoc.
  by apply until_nul_text.
Qed.

Lemma string_in_text t rest : nul_free t -> string_in (t ++ 0 :: rest) = Some t.
Proof. induction 1 as [|x t Hx _ IH]; [done|]. cbn. by rewrite (proj2 (Z.eqb_neq x 0) Hx), IH. Qed.

Lemma field_string B off t : field B off (S (length t)) = t ++ [0] -> nul_free t -> string_in (drop off B) = Some t.
Proof.
  intros E Ht. rewrite <- (take_drop (S (length t)) (drop off B)). fold (field B off (S (length t))). rewrite E, <- app_assoc.
  by apply string_in_text.
Qed.

Lemma load_field B off n : (off + n <= length B)%nat -> load B off n = Some (field B off n).
Proof. apply load_ok. Qed.

Section Names.
Context {CF : Config}.

(** The structure and the name of the interface that is number [k] of [l]. *)
Definition entry_at (rp : Z) (B : list Z) (k : nat) (l : list (Z * cstring)) (i : Z) (n : cstring) : Prop :=
  let at_ := (length B - names_size (take (S k) l))%nat in
  field B (16 * k) 4 = uint_bytes little_endian 4 i /\ field B (16 * k + 8) 8 = uint_bytes little_endian 8 (rp + Z.of_nat at_) /\
  field B at_ (S (length n)) = n ++ [0].

Definition filled (rp : Z) (B : list Z) (l : list (Z * cstring)) : Prop :=
  (16 * length l + names_size l <= length B)%nat /\
  forall k i n, l !! k = Some (i, n) -> entry_at rp B k l i n.

Lemma put_entry_ok B k name idx :
  (16 * k + 16 <= length B)%nat ->
  exists B', put_entry B k name idx = Some B' /\ length B' = length B /\
    field B' (16 * k) 4 = uint_bytes little_endian 4 idx /\ field B' (16 * k + 8) 8 = uint_bytes little_endian 8 name /\
    (forall o n, (o + n <= 16 * k \/ 16 * k + 16 <= o)%nat -> field B' o n = field B o n).
Proof using.
  intros H. unfold put_entry. change SIZEOF_NAMEINDEX with 16%nat.
  destruct (memcpy_some B (uint_bytes little_endian 8 name) (16 * k + 8)) as (B1 & E1 & L1); [rewrite length_uint_bytes; lia|].
  destruct (memcpy_some B1 (uint_bytes little_endian 4 idx) (16 * k)) as (B2 & E2 & L2); [rewrite length_uint_bytes; lia|].
  rewrite E1. cbn [mbind option_bind]. exists B2. split; [done|]. split; [lia|].
  pose proof (field_stored _ _ _ _ E1) as F1. pose proof (field_stored _ _ _ _ E2) as F2. rewrite length_uint_bytes in F1, F2.
  split; [done|]. split.
  - rewrite (field_kept _ _ _ _ _ _ E2); [done|]. rewrite length_uint_bytes. lia.
  - intros o n Ho. rewrite (field_kept _ _ _ _ _ _ E2), (field_kept _ _ _ _ _ _ E1); [done|rewrite length_uint_bytes; lia..].
Qed.

(** One more interface: its name goes below the others, its structure behind the others. *)
Lemma filled_snoc rp B l i n B1 B2 :
  let at_ := (length B - names_size (l ++ [(i, n)]))%nat in
  filled rp B l -> (16 * S (length l) + names_size (l ++ [(i, n)]) <= length B)%nat ->
  memcpy B at_ (n ++ [0]) = Some B1 -> put_entry B1 (length l) (rp + Z.of_nat at_) i = Some B2 ->
  filled rp B2 (l ++ [(i, n)]) /\ length B2 = length B.
Proof using.
  intros at_ [Hsz Hent] Hroom E1 E2. pose proof (memcpy_length _ _ _ _ E1) as L1.
  assert (Hns : names_size (l ++ [(i, n)]) = (names_size l + S (length n))%nat) by (rewrite names_size_app; cbn; lia).
  destruct (put_entry_ok B1 (length l) (rp + Z.of_nat at_) i) as (B2' & E & L2 & F1 & F2 & K); [lia|]. rewrite E2 in E. injection E as <-.
  assert (Hl1 : length (n ++ [0]) = S (length n)) by llia.
  split; [|lia]. split; [rewrite length_app; cbn; lia|]. intros k i' n' Hk. unfold entry_at. rewrite L2, L1.
  destruct (decide (k < length l)%nat) as [Hlt|Hge].
  - rewrite lookup_app_l in Hk by done. destruct (Hent k i' n' Hk) as (H1 & H2 & H3).
    rewrite take_app_le by lia. set (a := (length B - names_size (take (S k) l))%nat) in *.
    assert (Ha : (names_size (take (S k) l) <= names_size l)%nat) by apply names_size_take.
    assert (Hn' : (S (length n') <= names_size (take (S k) l))%nat).
    { rewrite (take_S_r _ _ _ Hk), names_size_app. cbn. lia. }
    rewrite !K by lia. rewrite !(field_kept _ _ _ _ _ _ E1); [done|rewrite Hl1; lia..].
  - assert (Ek : k = length l) by (apply lookup_lt_Some in Hk; rewrite length_app in Hk; cbn in Hk; lia). subst k.
    rewrite list_lookup_middle in Hk by done. injection Hk as <- <-. rewrite take_ge by llia. fold at_.
    split_and!; [done|done|]. rewrite K by lia. pose proof (field_stored _ _ _ _ E1) as F. by rewrite Hl1 in F.
Qed.

End Names.

(** * if_nameindex *)

(** An address that [malloc] returns, and the end of the block, are addresses. *)
Class MallocLaw {os : OS} : Prop :=
  malloc_law : forall h n, let p := rv (os_answer h (sys_malloc n)) in p <> 0 -> 0 < p /\ p + n < 2 ^ 64.

Section Build.
Context {os : OS} {SE : Strerror} {CF : Config} {RH : RouteHost} {UL : UninitLaw}.
Context (tbl : Z -> Z -> list ifmsg) {IL : IflistLaw tbl}.
Hypothesis header_min : (32 <= SIZEOF_IF_MSGHDR)%nat.

(** Each interface takes more room in its message than in the result. *)
Lemma link_room m i n : msg_ok m -> link_of m = Some (i, n) -> (40 + length n <= length (msg_bytes m))%nat.
Proof using header_min.
  intros Hm El. rewrite (length_msg_bytes _ Hm). unfold link_of in El. destruct (Z.eqb_spec (m_type m) RTM_IFINFO) as [Et|]; [|done].
  destruct (m_addrs m !! RTAX_IFP) as [[[i' t n' a pad|f r|r]|]|] eqn:E; try done. injection El as -> ->.
  unfold msg_len, header_size. rewrite Et. cbn [Z.eqb RTM_IFINFO Pos.eqb].
  apply list_elem_of_split_length in E as (l1 & l2 & -> & _). rewrite fmap_app, concat_app. cbn [fmap list_fmap concat slot_bytes].
  rewrite !length_app, length_sa_padded. pose proof (round8_ge (length (sa_bytes (SaLink i t n a pad)))) as Hr.
  rewrite length_sa_bytes_link, !length_app in Hr. rewrite length_sa_bytes_link, !length_app. lia.
Qed.

Lemma interfaces_room ms :
  Forall msg_ok ms -> (39 * length (interfaces ms) + names_size (interfaces ms) <= length (block ms))%nat.
Proof using header_min.
  induction 1 as [|m ms Hm _ IH]; [done|]. unfold block in *. cbn [fmap list_fmap concat]. rewrite length_app, interfaces_cons.
  destruct (link_of m) as [[i n]|] eqn:El; [|lia]. pose proof (link_room m i n Hm El). cbn [length names_size sum_list_with snd]. fold (names_size (interfaces ms)). lia.
Qed.

Lemma add_name_ok buf sdl i n rp B l s :
  link_at buf sdl i n -> filled rp B l -> (16 * S (length l) + names_size (l ++ [(i, n)]) <= length B)%nat ->
  exists B', add_name buf rp sdl (NameIndex B (length l) (Z.of_nat (length B - names_size l))) s =
      (Val (NameIndex B' (length (l ++ [(i, n)])) (Z.of_nat (length B' - names_size (l ++ [(i, n)])))), s) /\
    filled rp B' (l ++ [(i, n)]) /\ length B' = length B.
Proof using.
  clear header_min. intros Hat Hf Hroom. destruct (link_fields buf sdl i n s Hat) as (Hi & Hn & (rest & Hd) & _ & Hnf & _).
  assert (Hns : names_size (l ++ [(i, n)]) = (names_size l + S (length n))%nat) by (rewrite names_size_app; cbn; lia).
  unfold add_name. rewrite (then_val _ _ _ _ _ Hn). cbn [result ifptr namptr]. rewrite Hd, Nat2Z.id, strncpy_text_same by (done || lia).
  cbn [checked]. rewrite then_pure, take_ge by lia.
  set (at_ := (length B - names_size (l ++ [(i, n)]))%nat).
  replace (Z.of_nat (length B - names_size l) - (Z.of_nat (length n) + 1)) with (Z.of_nat at_) by lia.
  destruct (Z.ltb_spec (Z.of_nat at_) 0); [lia|]. rewrite Nat2Z.id.
  destruct (memcpy_some B (n ++ [0]) at_) as (B1 & E1 & L1); [rewrite length_app; cbn; lia|].
  destruct (memcpy_some B n at_) as (B0 & E0 & L0); [lia|]. rewrite E0. cbn [checked]. rewrite then_pure.
  rewrite store_as_memcpy. replace (Z.to_nat (Z.of_nat at_ + Z.of_nat (length n))) with (at_ + length n)%nat by lia.
  rewrite (memcpy_app _ _ _ [0] _ E0), E1 by (cbn; lia). cbn [checked]. rewrite then_pure, (then_val _ _ _ _ _ Hi).
  destruct (put_entry_ok B1 (length l) (rp + Z.of_nat at_) i) as (B2 & E2 & L2 & _); [lia|]. rewrite E2. cbn [checked]. rewrite then_pure.
  destruct (filled_snoc rp B l i n B1 B2 Hf Hroom E1 E2) as [Hf' Hl']. exists B2. split; [|done].
  unfold mpure. do 3 f_equal; [llia|]. rewrite Hl'. done.
Qed.

Lemma if_nameindex_spec s :
  interfaces (tbl 0 0) <> [] ->
  wp if_nameindex (value (fun r s' => exists evs, match r with
      | None => trace s' = evs ++ trace s /\ refused evs /\ daemon_proc s' = daemon_proc s
      | Some (rp, B) => since s s' [rp] evs /\ rp <> 0 /\ filled rp B (interfaces (tbl 0 0)) /\
          field B (16 * length (interfaces (tbl 0 0))) 4 = uint_bytes little_endian 4 0 /\
          (16 * S (length (interfaces (tbl 0 0))) <= length B)%nat /\ length B = length (block (tbl 0 0)) /\
          exists s1, rp = rv (answer (sys_malloc (Z.of_nat (length (block (tbl 0 0))))) s1)
      end)) s.
Proof using All.
  intros Hne. unfold if_nameindex. apply wp_then. eapply wp_mono; [apply net_rt_iflist_spec; exact IL|].
  intros [b| | | |] s1; try done. cbn [value andthen]. intros (evs & H). destruct b as [[[p buf] len]|].
  2: { apply wp_pure. cbn. exists evs. destruct H as [(Ht & _ & Hd & _) Hr]. by rewrite Hd. }
  destruct H as ((Ht & Ha & Hdp & Hw) & Hp & -> & tail & ->). set (msgs := tbl 0 0) in *. set (l := interfaces msgs) in *.
  assert (Hroom : (39 * length l + names_size l <= length (block msgs))%nat) by (apply interfaces_room, iflist_ok).
  assert (Hlen : (1 <= length l)%nat) by (destruct l; [done|cbn; lia]).
  apply wp_then, wp_sys. cbn [andthen]. set (r2 := answer _ s1). set (s2 := after _ r2 s1).
  destruct (Z.eqb_spec (rv r2) 0) as [H2|H2].
  { apply wp_pure. cbn. exists ((sys_malloc (Z.of_nat (length (block msgs))), r2) :: evs). split; [by rewrite Ht|]. split; [by left|done]. }
  assert (Hs2 : since s s2 [p; rv r2] ((sys_malloc (Z.of_nat (length (block msgs))), r2) :: evs)).
  { split; [cbn; by rewrite Ht|]. split; [|split; [done|unfold shown in *; by rewrite collect_cons, Hw]]. unfold allocated, freed in *. rewrite !collect_cons, Ha. cbn. unfold alloc_data. cbn.
    rewrite (proj2 (Z.eqb_neq _ _) H2), app_nil_r, <- app_assoc. done. }
  apply wp_then. eapply wp_mono.
  { apply (each_link_rule tbl 0 0 tail s2 _ (fun ms x => exists l1 B, l = l1 ++ interfaces ms /\ length B = length (block msgs) /\
        filled (rv r2) B l1 /\ x = NameIndex B (length l1) (Z.of_nat (length B - names_size l1))) (fun (_ : unit) _ => False)).
    - intros next x s' E. by rewrite (then_val _ _ _ _ _ E).
    - intros next x m ms sdl i n E Hat El (l1 & B & El1 & HB & Hf & ->). rewrite (interfaces_some _ _ _ El) in El1.
      unfold wp. rewrite (then_val _ _ _ _ _ E).
      assert (El2 : l = (l1 ++ [(i, n)]) ++ interfaces ms) by (by rewrite <- app_assoc).
      destruct (add_name_ok _ sdl i n (rv r2) B l1 s2 Hat Hf) as (B' & Ea & Hf' & HB').
      { rewrite HB. rewrite El2, names_size_app, !length_app in Hroom. cbn [length] in Hroom. lia. }
      fold msgs in Ea. rewrite (then_val _ _ _ _ _ Ea). cbn. split; [done|]. exists (l1 ++ [(i, n)]), B'. split_and!; [done|lia|done|done].
    - intros m ms x El (l1 & B & El1 & Hr). rewrite (interfaces_none _ _ El) in El1. by exists l1, B.
    - exists [], (uninit (length (block msgs))). rewrite uninit_law. split; [done|]. split; [done|]. split; [split; [cbn; lia|done]|]. f_equal. cbn. lia. }
  intros [f| | | |] s3; try done. cbn [value andthen]. destruct f as [x| |r]; [|done|done].
  intros [-> (l1 & B & El1 & HB & Hf & ->)]. cbn in El1. rewrite app_nil_r in El1. subst l1. cbn [result ifptr].
  destruct (put_entry_ok B (length l) 0 0) as (B' & E & L & F1 & F2 & K); [lia|]. rewrite E. cbn [checked]. rewrite then_pure.
  destruct (since_free _ _ _ _ _ Hs2) as (evs' & Hs3 & _). unfold free, wp, mthen, sys, mpure. cbn [value].
  exists evs'. split_and!; [exact Hs3|done| |done|lia|lia|by exists s1].
  destruct Hf as [Hsz Hent]. split; [lia|]. intros k i n Hk. destruct (Hent k i n Hk) as (G1 & G2 & G3). pose proof (lookup_lt_Some _ _ _ Hk) as Hkl.
  pose proof (names_size_take (S k) l). assert (Hn' : (S (length n) <= names_size (take (S k) l))%nat) by (rewrite (take_S_r _ _ _ Hk), names_size_app; cbn; lia).
  unfold entry_at. rewrite L, !K by lia. done.
Qed.

End Build.
