(* ===== verification/RouteClaims.v ===== *)
(** What the interface functions of [libroute/] guarantee, and the program that checks them. *)

From S2P Require Import Prelude CText Sys Traces Error Wrappers SockUtil Gai GaiFacts RobustIO Servers Packet Words.
From S2P Require Import Route RouteFacts.

(** An interface list as the kernel keeps it: there is an interface, names and indexes are not empty
    and tell the interfaces apart, names fit in [IFNAMSIZ] characters, and the list for one index holds the
    interfaces with that index. *)
Record table_ok (tbl : Z -> Z -> list ifmsg) : Prop := {
  t_some : interfaces (tbl 0 0) <> [];
  t_idx : NoDup (interfaces (tbl 0 0)).*1;
  t_names : NoDup (interfaces (tbl 0 0)).*2;
  t_each : Forall (fun x => 1 <= x.1 /\ x.2 <> [] /\ (length x.2 <= 15)%nat) (interfaces (tbl 0 0));
  t_filter : forall i, i <> 0 -> interfaces (tbl 0 i) = filter (fun x => x.1 = i) (interfaces (tbl 0 0));
}.

Lemma index_of_unique l i n : NoDup l.*2 -> (i, n) ∈ l -> index_of n l = i.
Proof.
  induction l as [|[j m] l IH]; [by intros _ ?%elem_of_nil|]. cbn. rewrite NoDup_cons, elem_of_cons. intros [Hn Hd] [[= -> ->]|Hl].
  - by rewrite decide_True.
  - rewrite decide_False; [by apply IH|]. intros ->. apply Hn. by apply (list_elem_of_fmap_2 snd _ _ Hl).
Qed.

Lemma index_of_absent l n : n ∉ l.*2 -> index_of n l = 0.
Proof.
  induction l as [|[j m] l IH]; [done|]. cbn. rewrite not_elem_of_cons. intros [Hn Hl]. rewrite decide_False by congruence. by apply IH.
Qed.

Lemma name_of_absent l i : i ∉ l.*1 -> name_of i l = None.
Proof.
  induction l as [|[j m] l IH]; [done|]. cbn. rewrite not_elem_of_cons. intros [Hn Hl]. rewrite decide_False by congruence. by apply IH.
Qed.

Lemma name_of_unique l i n : NoDup l.*1 -> (i, n) ∈ l -> name_of i l = Some n.
Proof.
  induction l as [|[j m] l IH]; [by intros _ ?%elem_of_nil|]. cbn. rewrite NoDup_cons, elem_of_cons. intros [Hn Hd] [[= -> ->]|Hl].
  - by rewrite decide_True.
  - rewrite decide_False; [by apply IH|]. intros ->. apply Hn. by apply (list_elem_of_fmap_2 fst _ _ Hl).
Qed.

Lemma name_of_filter l i : name_of i (filter (fun x => x.1 = i) l) = name_of i l.
Proof.
  induction l as [|[j m] l IH]; [done|]. destruct (decide (j = i)) as [->|Hn].
  - rewrite filter_cons_True by done. cbn. by rewrite !decide_True.
  - rewrite filter_cons_False by done. cbn. by rewrite decide_False.
Qed.

Section Claims.
Context {os : OS} {SE : Strerror} {CF : Config} {RH : RouteHost} {UL : UninitLaw} {ML : MallocLaw}.
Context (tbl : Z -> Z -> list ifmsg) {IL : IflistLaw tbl}.
Hypothesis header_min : (32 <= SIZEOF_IF_MSGHDR)%nat.
Hypothesis Htbl : table_ok tbl.

Abbreviation l := (interfaces (tbl 0 0)).

Lemma interfaces_ok ms : Forall msg_ok ms -> Forall (fun x => 0 <= x.1 < 65536 /\ nul_free x.2) (interfaces ms).
Proof using.
  induction 1 as [|m ms Hm _ IH]; [done|]. rewrite interfaces_cons. destruct (link_of m) as [[i n]|] eqn:El; [|done].
  constructor; [|done]. unfold link_of in El. destruct (m_type m =? RTM_IFINFO); [|done].
  destruct (m_addrs m !! RTAX_IFP) as [[[i' t n' a pad|f r|r]|]|] eqn:E; try done. injection El as -> ->.
  destruct Hm as (_ & _ & Hok & _). rewrite Forall_lookup in Hok. specialize (Hok _ _ E). cbn in Hok. tauto.
Qed.

Lemma each_ok i n : (i, n) ∈ l -> 1 <= i < 65536 /\ nul_free n /\ n <> [] /\ (length n <= 15)%nat.
Proof using All.
  intros H. pose proof (interfaces_ok _ (iflist_ok (tbl := tbl) 0 0)) as H1. pose proof (t_each _ Htbl) as H2.
  rewrite Forall_forall in H1, H2. specialize (H1 _ H). specialize (H2 _ H). cbn in *. intuition lia.
Qed.

Lemma absent_name n : (15 < length n)%nat \/ n = [] -> n ∉ l.*2.
Proof using All.
  intros Hn Hin. apply list_elem_of_fmap in Hin as ([i m] & -> & Hin). destruct (each_ok i m Hin) as (_ & _ & H1 & H2). cbn in Hn. destruct Hn; [lia|done].
Qed.

Lemma absent_index i : i <= 0 \/ 65536 <= i -> i ∉ l.*1.
Proof using All.
  intros Hi Hin. apply list_elem_of_fmap in Hin as ([j m] & -> & Hin). destruct (each_ok j m Hin) as (H1 & _). cbn in Hi. lia.
Qed.
(** The line for an interface. *)
Definition entry_line (x : Z * cstring) : cstring := c["name = "] ++ x.2 ++ c[", index = "] ++ print_d x.1 ++ [10].

Lemma entry_line_format i n : vformat (c["name = %s, index = %d"] ++ [10]) [AStr n; AInt i] = Some (entry_line (i, n)).
Proof using. reflexivity. Qed.

(** ** The state of the program [prifnameindex]

    [T0] is the history before it started. *)
Section Run.
Context (T0 : list event) (rp : Z).

Definition failing (h : list event) : Prop := exists evs, h = evs ++ T0 /\ refused evs.
Definition never (h : list event) : Prop := False.

Lemma failing_output evs h : Forall output evs -> failing h -> failing (evs ++ h).
Proof using. intros _ (e & -> & Hr). exists (evs ++ e). split; [by rewrite app_assoc|]. apply Exists_app. by right. Qed.

Definition so_far (k : nat) (s : st) : Prop :=
  daemon_proc s = 0 /\ exists evs, trace s = evs ++ T0 /\ shown evs = concat (entry_line <$> take k l) /\ allocated evs ≡ₚ freed evs ++ [rp].

Lemma so_far_since k s s' evs : so_far k s -> since s s' [] evs -> so_far k s'.
Proof using.
  intros (Hd & e & Ht & Hs & Ha) (Ht' & Ha' & Hd' & Hs'). split; [congruence|]. exists (evs ++ e). unfold shown, allocated, freed in *.
  rewrite Ht', Ht, !collect_app, Hs, Hs', app_nil_r. split; [by rewrite app_assoc|]. split; [done|]. rewrite Ha, Ha'.
  rewrite app_nil_r, <- !app_assoc. f_equiv. apply Permutation_app_comm.
Qed.

Lemma so_far_refused k s s' held evs : so_far k s -> since s s' held evs -> refused evs -> failing (trace s').
Proof using.
  intros (_ & e & Ht & _) (Ht' & _) Hr. exists (evs ++ e). rewrite Ht', Ht. split; [by rewrite app_assoc|]. apply Exists_app. by left.
Qed.

Abbreviation stage Q := (ends failing never Q).

Lemma If_nametoindex_entry k i n s :
  (i, n) ∈ l -> so_far k s -> wp (If_nametoindex n) (stage (fun idx s' => idx = i /\ so_far k s')) s.
Proof using All.
  intros Hin Hs. destruct (each_ok i n Hin) as (Hi & Hnf & _). unfold If_nametoindex. apply wp_then.
  eapply wp_mono; [by apply (if_nametoindex_spec tbl)|]. intros [idx| | | |] s1; try done. cbn [value andthen]. intros (evs & He & Hc).
  assert (Es : forall z, 0 <= z < 65536 -> s32 z = z) by (intros z Hz; unfold swrap; rewrite Z.mod_small; lia).
  destruct Hc as [[-> Hr]| ->].
  - rewrite Es by lia. cbn [Z.eqb].
    apply (ends_err_quit_text _ _ failing_output _ _ (c["if_nametoindex error for "] ++ n)).
    + apply (vformat_one_string c["if_nametoindex error for "]). by apply plain_of_bool.
    + apply Forall_app. split; [by repeat constructor|done].
    + destruct He as (_ & _ & -> & _). apply Hs.
    + by eapply so_far_refused.
  - rewrite (index_of_unique _ _ _ (t_names _ Htbl) Hin), Es by lia. destruct (Z.eqb_spec i 0); [lia|].
    apply ends_pure. split; [done|]. by eapply so_far_since.
Qed.

Lemma If_indextoname_entry k i n ifname s :
  (i, n) ∈ l -> (16 <= length ifname)%nat -> so_far k s ->
  wp (If_indextoname i ifname) (stage (fun r s' => cstring_at r 0 = n /\ length r = length ifname /\ so_far k s')) s.
Proof using All.
  intros Hin Hl Hs. destruct (each_ok i n Hin) as (Hi & Hnf & _ & H15). unfold If_indextoname. apply wp_then.
  eapply wp_mono; [apply (if_indextoname_spec tbl); [done|lia]|]. intros [r| | | |] s1; try done. cbn [value andthen]. intros (evs & He & Hc).
  destruct Hc as [[-> Hr]|Hc].
  - eapply (ends_err_quit_int _ _ failing_output c["if_indextoname error for "] []); [done|done| |by eapply so_far_refused].
    destruct He as (_ & _ & -> & _). apply Hs.
  - rewrite (t_filter _ Htbl), name_of_filter in Hc by lia. rewrite (name_of_unique _ _ _ (t_idx _ Htbl) Hin) in Hc.
    destruct Hc as (name' & -> & Hln & Hc). apply ends_pure. rewrite Hc, take_ge by lia. split_and!; [done|done|]. by eapply so_far_since.
Qed.

Lemma check_entry_ok k i n ifname s :
  (i, n) ∈ l -> (16 <= length ifname)%nat -> so_far k s ->
  wp (check_entry n i ifname) (stage (fun r s' => (16 <= length r)%nat /\ so_far k s')) s.
Proof using All.
  intros Hin Hl Hs. unfold check_entry.
  apply (ends_then _ _ _ _ (fun idx s' => idx = i /\ so_far k s')); [by apply If_nametoindex_entry|]. intros idx s1 [-> Hs1].
  rewrite Z.eqb_refl. cbn [negb].
  apply (ends_then _ _ _ _ (fun r s' => cstring_at r 0 = n /\ length r = length ifname /\ so_far k s')); [by apply If_indextoname_entry|].
  intros r s2 (Hc & Hlr & Hs2). rewrite bool_decide_eq_true_2 by done. apply ends_pure. split; [lia|done].
Qed.

(** ** The array *)

Lemma field_uint B off n w : (off + n <= length B)%nat -> 0 <= w < 2 ^ (8 * Z.of_nat n) ->
  field B off n = uint_bytes little_endian n w -> uint_at little_endian n B off = Some w.
Proof using. intros H Hw E. unfold uint_at. rewrite load_field, E by done. cbn. by rewrite uint_of_bytes. Qed.

Lemma read_entry B k i n s :
  filled rp B l -> l !! k = Some (i, n) -> 0 <= rp -> rp + Z.of_nat (length B) < 2 ^ 64 ->
  if_index B k s = (Val i, s) /\ if_name rp B k s = (Val n, s).
Proof using All.
  intros [Hsz Hent] Hk Hrp Hb. destruct (Hent k i n Hk) as (F1 & F2 & F3). pose proof (lookup_lt_Some _ _ _ Hk) as Hkl.
  destruct (each_ok i n) as (Hi & Hnf & _); [by eapply list_elem_of_lookup_2|].
  pose proof (names_size_take (S k) l). set (at_ := (length B - names_size (take (S k) l))%nat) in *.
  unfold if_index, if_name, u32_at. change SIZEOF_NAMEINDEX with 16%nat. split.
  - rewrite (field_uint B (16 * k) 4 i); [done|lia|change (2 ^ (8 * Z.of_nat 4)) with 4294967296; lia|done].
  - rewrite (field_uint B (16 * k + 8) 8 (rp + Z.of_nat at_)); [|lia|change (2 ^ (8 * Z.of_nat 8)) with (2 ^ 64); lia|done].
    cbn [checked]. rewrite then_pure. destruct (Z.ltb_spec (rp + Z.of_nat at_) rp); [lia|].
    replace (Z.to_nat (rp + Z.of_nat at_ - rp)) with at_ by lia. by rewrite (field_string _ _ n).
Qed.

Lemma check_entries_ok B k fuel ifname s :
  filled rp B l -> field B (16 * length l) 4 = uint_bytes little_endian 4 0 -> (16 * S (length l) <= length B)%nat ->
  0 <= rp -> rp + Z.of_nat (length B) < 2 ^ 64 ->
  (k <= length l)%nat -> (length l - k <= fuel)%nat -> (16 <= length ifname)%nat -> so_far k s ->
  wp (check_entries fuel rp B k ifname) (stage (fun r s' => (16 <= length r)%nat /\ so_far (length l) s')) s.
Proof using All.
  intros Hf Hterm Hroom Hrp Hb. revert k ifname s. induction fuel as [|fuel IH]; intros k ifname s Hk Hfu Hl Hs; cbn [check_entries].
  all: destruct (decide (k = length l)) as [->|Hne]; [|destruct (lookup_lt_is_Some_2 l k ltac:(lia)) as [[i n] E]].
  1,3: unfold if_index, u32_at; change SIZEOF_NAMEINDEX with 16%nat;
    rewrite (field_uint B (16 * length l) 4 0) by (lia || done); by apply ends_pure.
  1: lia.
  destruct (read_entry B k i n s Hf E Hrp Hb) as [E1 E2]. unfold wp. rewrite (then_val _ _ _ _ _ E1).
  assert (Hin : (i, n) ∈ l) by (by eapply list_elem_of_lookup_2). destruct (each_ok i n Hin) as (Hi & Hnf & _).
  destruct (Z.gtb_spec i 0); [|lia]. rewrite (then_val _ _ _ _ _ E2).
  unfold printf. rewrite entry_line_format. cbn [checked]. rewrite then_pure. set (s1 := after (sys_fputs (entry_line (i, n)) stdout) (answer (sys_fputs (entry_line (i, n)) stdout) s) s).
  rewrite (then_val _ _ s tt s1) by done.
  assert (Hs1 : so_far (S k) s1).
  { destruct Hs as (Hd & evs & Ht & Hsh & Ha). split; [done|]. exists ((sys_fputs (entry_line (i, n)) stdout, answer (sys_fputs (entry_line (i, n)) stdout) s) :: evs).
    unfold shown, allocated, freed in *. rewrite !collect_cons, Hsh. split; [cbn; by rewrite Ht|]. split.
    - rewrite (take_S_r _ _ _ E), fmap_app, concat_app. cbn. by rewrite app_nil_r.
    - cbn. by rewrite !app_nil_r. }
  change (wp (ifname0 <~ check_entry n i ifname ;; check_entries fuel rp B (S k) ifname0) (stage (fun r s' => (16 <= length r)%nat /\ so_far (length l) s')) s1).
  apply (ends_then _ _ _ _ (fun r s' => (16 <= length r)%nat /\ so_far (S k) s')); [by apply check_entry_ok|].
  intros r s2 [Hlr Hs2]. apply IH; [lia|lia|done|done].
Qed.

(** ** Lookups that must fail *)

Lemma if_nametoindex_absent k n s :
  n ∉ l.*2 -> nul_free n -> so_far k s -> wp (if_nametoindex n) (value (fun idx s' => idx = 0 /\ so_far k s')) s.
Proof using All.
  intros Hn Hnf Hs. eapply wp_mono; [by apply (if_nametoindex_spec tbl)|]. intros [idx| | | |] s1; try done. cbn [value].
  intros (evs & He & Hc). split; [|by eapply so_far_since]. destruct Hc as [[-> _]| ->]; [done|by apply index_of_absent].
Qed.

Lemma if_indextoname_absent k i ifname s :
  i ∉ l.*1 -> 0 <= i < 2 ^ 31 -> (16 <= length ifname)%nat -> so_far k s ->
  wp (if_indextoname i ifname) (value (fun r s' => r = None /\ so_far k s')) s.
Proof using All.
  intros Hn Hi Hl Hs. eapply wp_mono; [by apply (if_indextoname_spec tbl)|]. intros [r| | | |] s1; try done. cbn [value].
  intros (evs & He & Hc). split; [|by eapply so_far_since]. destruct Hc as [[-> _]|Hc]; [done|].
  assert (E : name_of i (interfaces (tbl 0 i)) = None).
  { destruct (decide (i = 0)) as [->|Hne]; [by apply name_of_absent|]. rewrite (t_filter _ Htbl), name_of_filter by done. by apply name_of_absent. }
  by rewrite E in Hc.
Qed.

End Run.

Lemma ends_of_value {A} I Y (m : M A) (Q : A -> st -> Prop) s : wp m (value Q) s -> wp m (ends I Y Q) s.
Proof using. intros H. eapply wp_mono; [exact H|]. by intros [] ?. Qed.

(** The result of the program. *)
Definition passed (T0 : list event) (o : outcome unit) (s' : st) : Prop :=
  exists evs, trace s' = evs ++ T0 /\
    match o with
    | Exited c => c = 0 /\ shown evs = concat (entry_line <$> l) /\ allocated evs ≡ₚ freed evs \/ c = 1 /\ refused evs
    | _ => False
    end.

Lemma passed_then {A} T0 (m : M A) (k : A -> M unit) (Q : A -> st -> Prop) s :
  wp m (ends (failing T0) never Q) s -> (forall a s', Q a s' -> wp (k a) (passed T0) s') -> wp (mthen m k) (passed T0) s.
Proof using.
  intros Hm Hk. apply wp_then. eapply wp_mono; [exact Hm|]. intros [a| | | |] s' H; cbn in H |- *; try done.
  - by apply Hk.
  - destruct H as (-> & evs & Ht & Hr). exists evs. split; [done|]. by right.
  - by destruct H.
Qed.

(** C38: the interface functions agree with each other and with the kernel.  The program [prifnameindex], which
    looks up each entry of [if_nameindex] with [if_nametoindex] and [if_indextoname] and asks for names and
    indexes that do not exist, never finds a difference, for every list of at least one interface that has unique
    indexes from 1 on and unique names of at most 15 characters, and that does not change between the calls (for an
    empty list see [no_interface_overrun]): it prints each
    interface with its name and index, in the order of the kernel, and ends with status 0, with no access
    outside its blocks of memory and all memory freed; unless a call to the kernel or for memory has
    failed, when it ends with status 1.  The array of structures and the names never overlap in
    the block that [if_nameindex] fills from both ends. *)
Theorem prifnameindex_passes ifname s :
  (16 <= length ifname)%nat -> daemon_proc s = 0 ->
  let '(o, s') := prifnameindex ifname s in passed (trace s) o s'.
Proof using All.
  intros Hl Hd. change (wp (prifnameindex ifname) (passed (trace s)) s). set (T0 := trace s). unfold prifnameindex, If_nameindex.
  apply (passed_then T0 _ _ (fun r s' => let '(rp, B) := r in filled rp B l /\ field B (16 * length l) 4 = uint_bytes little_endian 4 0 /\
    (16 * S (length l) <= length B)%nat /\ 0 <= rp /\ rp + Z.of_nat (length B) < 2 ^ 64 /\ so_far T0 rp 0 s')).
  { apply wp_then. eapply wp_mono; [apply (if_nameindex_spec tbl header_min), (t_some _ Htbl)|]. intros [r| | | |] s1; try done. cbn [value andthen].
    intros (evs & H). destruct r as [[rp B]|].
    - destruct H as ((Ht & Ha & Hd1 & Hs1) & Hnz & Hf & Hterm & Hroom & HB & s0 & Hrp). apply ends_pure.
      pose proof (malloc_law (trace s0) (Z.of_nat (length (block (tbl 0 0))))) as HM. cbv zeta in HM.
      fold (answer (sys_malloc (Z.of_nat (length (block (tbl 0 0))))) s0) in HM. rewrite <- Hrp in HM. specialize (HM Hnz). rewrite HB.
      split_and!; [done|done|lia|lia|lia|split; [congruence|by exists evs]].
    - destruct H as (Ht & Hr & Hd1). apply (ends_err_quit _ _ (failing_output T0)); [done|congruence|]. by exists evs. }
  intros [rp B] s1 (Hf & Hterm & Hroom & Hrp & Hb & Hs1).
  apply (passed_then T0 _ _ (fun r s' => (16 <= length r)%nat /\ so_far T0 rp (length l) s')).
  { by apply check_entries_ok; [..|lia|lia|lia|]. }
  intros name s2 [Hln Hs2].
  apply (passed_then T0 _ _ (fun idx s' => idx = 0 /\ so_far T0 rp (length l) s')).
  { apply ends_of_value, if_nametoindex_absent; [apply absent_name; left; vm_compute; lia|by repeat constructor|done]. }
  intros idx s3 [-> Hs3]. change (s32 0) with 0. cbn [Z.eqb negb].
  apply (passed_then T0 _ _ (fun idx s' => idx = 0 /\ so_far T0 rp (length l) s')).
  { apply ends_of_value, if_nametoindex_absent; [apply absent_name; by right|done|done]. }
  intros idx s4 [-> Hs4]. change (s32 0) with 0. cbn [Z.eqb negb].
  apply (passed_then T0 _ _ (fun r s' => r = None /\ so_far T0 rp (length l) s')).
  { apply ends_of_value, if_indextoname_absent; [apply absent_index; lia|lia|done|done]. }
  intros r s5 [-> Hs5].
  apply (passed_then T0 _ _ (fun r s' => r = None /\ so_far T0 rp (length l) s')).
  { apply ends_of_value, if_indextoname_absent; [apply absent_index; lia|lia|done|done]. }
  intros r s6 [-> (Hd6 & evs & Ht & Hsh & Ha)]. unfold if_freenameindex, free, wp, mthen, sys, mpure, exit_.
  exists ((sys_free rp, answer (sys_free rp) s6) :: evs). split; [cbn; by rewrite Ht|]. left. split; [done|].
  unfold shown, allocated, freed in *. rewrite !collect_cons, Hsh, take_ge by lia. cbn. rewrite !app_nil_r. split; [done|exact Ha].
Qed.
End Claims.

(** * A host with two interfaces *)

#[local] Existing Instance numeric_strerror.
#[local] Instance bsd_config : Config := {| ipv6 := true; have_sockaddr_dl := true; little_endian := true |}.
#[local] Instance bsd_host : RouteHost :=
  {| SIZEOF_IF_MSGHDR := 168; SIZEOF_IFA_MSGHDR := 20; SIZEOF_RT_MSGHDR := 152; uninit := fun n => replicate n 165 |}.

Lemma bsd_uninit : UninitLaw.
Proof. intros n. apply length_replicate. Qed.

Definition if_msg (i : Z) (name : cstring) (flags : Z) : ifmsg :=
  IfMsg RTM_IFINFO flags (replicate 156 0) [None; None; None; None; Some (SaLink i 6 name [0; 1; 2; 3; 4; 5] (replicate 2 0)); None; None; None].
Definition addr_msg (a : list Z) : ifmsg :=
  IfMsg RTM_NEWADDR 0 (replicate 8 0)
    [None; None; Some (SaRaw 0 [0; 0; 255; 255; 255]); None; None; Some (SaRaw AF_INET ([0; 0] ++ a ++ replicate 8 0)); None; None].

Definition two_interfaces (family flags : Z) : list ifmsg :=
  let lo := [if_msg 1 c["lo0"] 73; addr_msg [127; 0; 0; 1]] in
  let em := [if_msg 2 c["em0"] 67; addr_msg [10; 0; 0; 2]] in
  if flags =? 0 then lo ++ em else if flags =? 1 then lo else if flags =? 2 then em else [].

Definition bsd_os : OS := fun h c =>
  match c with
  | sys_sysctl [_; _; _; family; _; flags] None _ => SR 0 None [] [4096] None
  | sys_sysctl [_; _; _; family; _; flags] (Some len) _ =>
      let b := block (two_interfaces family flags) in
      if Z.of_nat (length b) <=? len then SR 0 None b [Z.of_nat (length b)] None else failed (-1) 12
  | sys_calloc _ _ => ok (65536 * Z.of_nat (S (length (allocated h) mod 1000)))
  | sys_malloc n => if (n <? 0) || (n >? 65536) then ok 0 else ok (65536 * Z.of_nat (S (length (allocated h) mod 1000)))
  | _ => ok 0
  end.
#[local] Existing Instance bsd_os.

Lemma if_msg_ok i name flags : 0 <= i < 65536 -> 0 <= flags < 2 ^ 32 -> nul_free name -> (length name <= 15)%nat -> msg_ok (if_msg i name flags).
Proof.
  intros Hi Hf Hn Hl. split_and!; [done|done| | |apply Hf|apply Hf].
  - do 4 (constructor; [done|]). constructor; [|by repeat (constructor; [done|])]. cbn. rewrite length_app. cbn. split; [lia|]. by split.
  - change (msg_len (if_msg i name flags)) with (168 + length (sa_padded (SaLink i 6 name [0; 1; 2; 3; 4; 5]%Z [0; 0]%Z) ++ []))%nat.
    rewrite app_nil_r, length_sa_padded, length_sa_bytes_link, length_app. cbn [length app]. unfold round8.
    pose proof (Nat.Div0.mul_div_le (8 + (length name + 8) + 7) 8). lia.
Qed.

Lemma addr_msg_ok a b c0 d : msg_ok (addr_msg [a; b; c0; d]).
Proof. split_and!; [done|done| |by vm_compute|done|done]. by repeat (constructor; [try done|]). Qed.

Lemma two_interfaces_ok family flags : Forall msg_ok (two_interfaces family flags).
Proof.
  assert (Hi : forall i name flags', 0 <= i < 65536 -> 0 <= flags' < 2 ^ 32 -> nul_free name -> (length name <= 15)%nat ->
    forall a b c0 d ms, Forall msg_ok ms -> Forall msg_ok (if_msg i name flags' :: addr_msg [a; b; c0; d] :: ms)).
  { intros. apply Forall_cons. split; [by apply if_msg_ok|]. apply Forall_cons. split; [apply addr_msg_ok|done]. }
  unfold two_interfaces. repeat case_match; cbn [app]; repeat (apply Hi; [lia|lia|by repeat constructor|cbn; lia|]); apply Forall_nil; done.
Qed.

Lemma bsd_os_iflist : IflistLaw two_interfaces.
Proof.
  constructor; [apply two_interfaces_ok|]. intros h family flags len. cbn [os_answer bsd_os iflist_mib]. cbv zeta.
  destruct (Z.leb_spec (Z.of_nat (length (block (two_interfaces family flags)))) len); cbn; [done|lia].
Qed.

Lemma bsd_os_malloc : MallocLaw.
Proof.
  intros h n. cbn [os_answer bsd_os]. destruct ((n <? 0) || (n >? 65536)) eqn:E; cbv zeta; cbn [rv ok]; [done|].
  intros _. pose proof (Nat.mod_upper_bound (length (allocated h)) 1000). blia.
Qed.

Lemma two_interfaces_table : table_ok two_interfaces.
Proof.
  assert (E : interfaces (two_interfaces 0 0) = [(1, c["lo0"]); (2, c["em0"])]) by reflexivity.
  constructor; rewrite ?E; [done|by apply (bool_decide_unpack _)|by apply (bool_decide_unpack _)|by repeat constructor; cbn; try lia|].
  intros i Hi. unfold two_interfaces. rewrite (proj2 (Z.eqb_neq i 0) Hi). destruct (Z.eqb_spec i 1) as [->|]; [reflexivity|].
  destruct (Z.eqb_spec i 2) as [->|]; [reflexivity|]. rewrite !filter_cons_False by (cbn; lia). done.
Qed.

(** Both interfaces are printed, with status 0. *)
Lemma prifnameindex_value :
  exists s', prifnameindex (replicate 16 0) init = (Exited 0, s') /\
    shown (trace s') = c["name = lo0, index = 1"] ++ [10] ++ c["name = em0, index = 2"] ++ [10].
Proof. eexists. split; vm_compute; reflexivity. Qed.

Lemma prifnameindex_passes_witness :
  exists s', prifnameindex (replicate 16 0) init = (Exited 0, s') /\ passed two_interfaces [] (Exited 0) s'.
Proof.
  pose proof (@prifnameindex_passes bsd_os numeric_strerror bsd_config bsd_host bsd_uninit bsd_os_malloc two_interfaces bsd_os_iflist
    ltac:(cbn; lia) two_interfaces_table (replicate 16 0) init ltac:(cbn; lia) eq_refl) as H.
  destruct prifnameindex_value as (s' & E & _). exists s'. split; [exact E|]. rewrite E in H. exact H.
Defined.

(** * Limits

    With no message in the list the block for the result is empty, and the end mark is stored behind it. *)
Lemma no_interface_overrun :
  let os : OS := fun h c => match c with sys_sysctl _ _ _ => SR 0 None [] [0] None | sys_malloc _ => ok 4096 | _ => ok 0 end in
  (@if_nameindex os bsd_config bsd_host init).1 = Undefined.
Proof. vm_compute. reflexivity. Qed.

(** When the second [malloc] of [if_nameindex] fails, the messages are not freed. *)
Lemma nameindex_leak :
  let os : OS := fun h c => match c with sys_sysctl _ _ _ => SR 0 None [] [0] None
    | sys_malloc _ => match allocated h with [] => ok 4096 | _ => ok 0 end | _ => ok 0 end in
  let '(o, s') := @if_nameindex os bsd_config bsd_host init in
  o = Val None /\ allocated (trace s') = [4096] /\ freed (trace s') = [].
Proof. by vm_compute. Qed.

(** The same for the table of [net_rt_dump], when [sysctl] fails at the second call. *)
Lemma dump_leak :
  let os : OS := fun h c => match c with sys_sysctl _ None _ => SR 0 None [] [0] None
    | sys_sysctl _ (Some _) _ => failed (-1) 12 | sys_malloc _ => ok 4096 | _ => ok 0 end in
  let '(o, s') := @net_rt_dump os bsd_host 0 0 init in
  o = Val None /\ allocated (trace s') = [4096] /\ freed (trace s') = [].
Proof. by vm_compute. Qed.
