(* ===== verification/Ifi.v ===== *)
(** Interface information: [struct ifi_info] of [lib/unpifi.h], the function that builds the list of it from the
    messages of [sysctl] ([route/get_ifi_info.c]), and the program that prints the list
    ([route/prifinfo.c]).

    The linked list is a list of structures with their addresses; a socket address is the address of its
    memory and its bytes.  The messages, the offsets in them and the fuel of the loop over them are
    those of [Route.v]. *)

From S2P Require Import Prelude CText Sys Error Wrappers SockUtil Gai Packet Words Route.

Definition IFI_NAME : Z := 16.
Definition IFI_HADDR : Z := 8.
Definition SIZEOF_IFI_INFO : Z := 80.
Definition IFF_UP : Z := 1.
Definition IFF_BROADCAST : Z := 2.
Definition IFF_LOOPBACK : Z := 8.
Definition IFF_POINTOPOINT : Z := 16.
Definition IFF_MULTICAST : Z := 32768.

Abbreviation s16 := (swrap 16).

Record ifi_info : Type := Ifi {
  ifi_self : Z;                      (* the address of the structure *)
  ifi_name : list Z;
  ifi_index : Z;
  ifi_mtu : Z;
  ifi_haddr : list Z;
  ifi_hlen : Z;
  ifi_flags : Z;
  ifi_myflags : Z;
  ifi_addr : option (Z * list Z);
  ifi_brdaddr : option (Z * list Z);
  ifi_dstaddr : option (Z * list Z);
}.

(** A structure from [calloc]. *)
Definition blank_ifi (p : Z) : ifi_info :=
  Ifi p (replicate (Z.to_nat IFI_NAME) 0) 0 0 (replicate (Z.to_nat IFI_HADDR) 0) 0 0 0 None None None.

(** What the loop keeps: [flags] of the last interface (not set at first), and the list.  [ifi] is its last
    structure, and not set when there is none. *)
Record ifi_state : Type := IfiState {
  st_flags : option Z;
  st_list : list ifi_info;
}.

Section Ifi.
Context {os : OS} {SE : Strerror} {CF : Config} {RH : RouteHost}.

(** The text of [snprintf(buf, size, "%*s", width, s)]. *)
Definition padded_text (size width : Z) (s : cstring) : cstring :=
  snprintf_text size (replicate (Z.to_nat width - length s) 32 ++ s).

(** [ifi->ifi_name] and the hardware address, from the socket address of the link layer at [sdl]. *)
Definition set_link (buf : list Z) (sdl : nat) (ifi : ifi_info) : M ifi_info :=
  idx <~ sdl_index buf sdl ;;
  nlen <~ sdl_nlen buf sdl ;;
  text <~ (if nlen >? 0 then
             s <~ checked (string_in (drop (sdl_data sdl) buf)) ;; mpure (padded_text IFI_NAME nlen s)
           else
             s <~ checked (vformat c["index %d"] [AInt idx]) ;; mpure (snprintf_text IFI_NAME s)) ;;
  name <~ checked (put_text (ifi_name ifi) 0 text) ;;
  alen <~ byte_at buf (sdl + 6) ;;
  haddr <~ (if alen >? 0 then
              d <~ checked (load buf (sdl_data sdl + Z.to_nat nlen) (Z.to_nat (Z.min IFI_HADDR alen))) ;;
              checked (memcpy (ifi_haddr ifi) 0 d)
            else mpure (ifi_haddr ifi)) ;;
  mpure (Ifi (ifi_self ifi) name (s16 idx) (ifi_mtu ifi) haddr alen (ifi_flags ifi) (ifi_myflags ifi)
    (ifi_addr ifi) (ifi_brdaddr ifi) (ifi_dstaddr ifi)).

(** [Calloc(1, sa->sa_len)] and [memcpy]. *)
Definition copy_sa (buf : list Z) (sa : nat) : M (Z * list Z) :=
  len <~ byte_at buf sa ;;
  p <~ Calloc 1 len ;;
  b <~ checked (load buf sa (Z.to_nat len)) ;;
  mpure (p, b).

Definition copy_if (test : bool) (buf : list Z) (sa : option nat) : M (option (Z * list Z)) :=
  match sa with
  | Some sa => if test then r <~ copy_sa buf sa ;; mpure (Some r) else mpure None
  | None => mpure None
  end.

(** [RTM_IFINFO] *)
Definition new_interface (buf : list Z) (next : nat) (x : ifi_state) : M ifi_state :=
  flags <~ u32_at buf (next + 8) ;;
  let flags := s32 flags in
  let x := IfiState (Some flags) (st_list x) in
  if negb (has_flag flags IFF_UP) then mpure x            (* ignore if interface not up *)
  else
    addrs <~ u32_at buf (next + 4) ;;
    info <~ checked (get_rtaddrs buf addrs (next + SIZEOF_IF_MSGHDR)) ;;
    match slot info RTAX_IFP with
    | Some sa =>
        p <~ Calloc 1 SIZEOF_IFI_INFO ;;
        let ifi := blank_ifi p in
        let ifi := Ifi p (ifi_name ifi) (ifi_index ifi) (ifi_mtu ifi) (ifi_haddr ifi) (ifi_hlen ifi) (s16 flags) (ifi_myflags ifi) None None None in
        fam <~ byte_at buf (sa + 1) ;;
        ifi <~ (if fam =? AF_LINK then set_link buf sa ifi else mpure ifi) ;;
        mpure (IfiState (Some flags) (st_list x ++ [ifi]))
    | None => mpure x
    end.

(** The addresses of an [RTM_NEWADDR] message go into the structure [ifi], the last of the list; [or_else] keeps
    a field that is not assigned. *)
Definition or_else {A} (new old : option A) : option A := match new with Some v => Some v | None => old end.

Definition fill_addrs (buf : list Z) (next : nat) (fl : option Z) (front : list ifi_info) (ifi : ifi_info) : M ifi_state :=
  addrs <~ u32_at buf (next + 4) ;;
  info <~ checked (get_rtaddrs buf addrs (next + SIZEOF_IFA_MSGHDR)) ;;
  a <~ copy_if true buf (slot info RTAX_IFA) ;;
  flags <~ checked fl ;;
  b <~ copy_if (has_flag flags IFF_BROADCAST) buf (slot info RTAX_BRD) ;;
  d <~ copy_if (has_flag flags IFF_POINTOPOINT) buf (slot info RTAX_BRD) ;;
  mpure (IfiState (Some flags) (front ++ [Ifi (ifi_self ifi) (ifi_name ifi) (ifi_index ifi) (ifi_mtu ifi) (ifi_haddr ifi) (ifi_hlen ifi)
    (ifi_flags ifi) (ifi_myflags ifi) (or_else a (ifi_addr ifi)) (or_else b (ifi_brdaddr ifi)) (or_else d (ifi_dstaddr ifi))])).

(** [RTM_NEWADDR]: the last structure, or a new one for an alias. *)
Definition new_address (doaliases : Z) (buf : list Z) (next : nat) (x : ifi_state) : M ifi_state :=
  cur <~ checked (last (st_list x)) ;;
  match ifi_addr cur with
  | Some _ =>                                             (* already have an IP addr for i/f *)
      if doaliases =? 0 then mpure x
      else
        p <~ Calloc 1 SIZEOF_IFI_INFO ;;
        fill_addrs buf next (st_flags x) (st_list x)
          (Ifi p (ifi_name cur) (ifi_index cur) 0 (ifi_haddr cur) (ifi_hlen cur) (ifi_flags cur) 0 None None None)
  | None => fill_addrs buf next (st_flags x) (take (length (st_list x) - 1) (st_list x)) cur
  end.

Definition get_ifi_info (family doaliases : Z) : M (list ifi_info) :=
  b <~ Net_rt_iflist family 0 ;;
  let '(p, buf, len) := b in
  f <~ each_msg (R := unit) (length buf) buf len 0 (fun next x =>
    t <~ byte_at buf (next + 3) ;;
    if t =? RTM_IFINFO then x <~ new_interface buf next x ;; mpure (Next x)
    else if t =? RTM_NEWADDR then x <~ new_address doaliases buf next x ;; mpure (Next x)
    else err_quit c["unexpected message type %d"] [AInt t]) (IfiState None []) ;;
  match f with
  | Next x => mpure (st_list x)
  | _ => undefined                                        (* the body does not return *)
  end.

Definition Get_ifi_info (family doaliases : Z) : M (list ifi_info) :=
  l <~ get_ifi_info family doaliases ;;
  match l with [] => err_quit c["get_ifi_info error"] [] | _ => mpure l end.

Definition free_opt (x : option (Z * list Z)) : M unit := match x with Some (p, _) => free p | None => mpure tt end.

Fixpoint free_ifi_info (l : list ifi_info) : M unit :=
  match l with
  | [] => mpure tt
  | ifi :: rest =>
      free_opt (ifi_addr ifi) ;;;
      free_opt (ifi_brdaddr ifi) ;;;
      free_opt (ifi_dstaddr ifi) ;;;
      free (ifi_self ifi) ;;;                             (* the ifi_info{} itself *)
      free_ifi_info rest
  end.

End Ifi.
