(* ===== verification/IfiFacts.v ===== *)
(** What [get_ifi_info] makes of the messages of the kernel.

    [info] is what a structure of the list says, without addresses of memory, and [see] what one message adds to a
    list of it; the lemmas show that the function follows [see] and account for its memory. *)

From S2P Require Import Prelude CText Sys Traces Error Wrappers SockUtil Gai GaiFacts RobustIO Servers Packet Words.
From S2P Require Import Route RouteFacts Ifi.

Record info : Type := Info {
  n_name : cstring;
  n_index : Z;
  n_mtu : Z;
  n_hw : list Z;
  n_flags : Z;
  n_myflags : Z;
  n_addr : option (list Z);
  n_brd : option (list Z);
  n_dst : option (list Z);
}.

Section Spec.
Context {CF : Config} {RH : RouteHost}.

Definition abs (ifi : ifi_info) : info :=
  Info (cstring_at (ifi_name ifi) 0) (ifi_index ifi) (ifi_mtu ifi) (take (Z.to_nat (Z.min IFI_HADDR (ifi_hlen ifi))) (ifi_haddr ifi))
    (ifi_flags ifi) (ifi_myflags ifi)
    (snd <$> ifi_addr ifi) (snd <$> ifi_brdaddr ifi) (snd <$> ifi_dstaddr ifi).

(** The name: what [sdl_data] holds up to a NUL, cut, or the index. *)
Definition link_name (i : Z) (n a pad : list Z) : cstring :=
  take 15 (match n with [] => c["index "] ++ print_d i | _ => until_nul (n ++ a ++ pad) end).

(** A socket address as it is copied: as many bytes as its length says. *)
Definition copied (sa : rtsa) : list Z := match sa with SaEmpty _ => [] | _ => sa_bytes sa end.

Definition addr_slot (m : ifmsg) (i : nat) : option rtsa := mjoin (m_addrs m !! i).

Definition with_addrs (flags : Z) (n : info) (m : ifmsg) : info :=
  Info (n_name n) (n_index n) (n_mtu n) (n_hw n) (n_flags n) (n_myflags n)
    (or_else (copied <$> addr_slot m RTAX_IFA) (n_addr n))
    (or_else (if has_flag flags IFF_BROADCAST then copied <$> addr_slot m RTAX_BRD else None) (n_brd n))
    (or_else (if has_flag flags IFF_POINTOPOINT then copied <$> addr_slot m RTAX_BRD else None) (n_dst n)).

Definition without_addrs (n : info) : info := Info (n_name n) (n_index n) 0 (n_hw n) (n_flags n) 0 None None None.

(** The flags of the last interface and the list so far. *)
Abbreviation progress := (option Z * list info)%type.

(** One message; [None] if the function is not defined for it. *)
Definition see (doaliases : Z) (m : ifmsg) (p : progress) : option progress :=
  if m_type m =? RTM_IFINFO then
    let flags := s32 (m_flags m) in
    if negb (has_flag flags IFF_UP) then Some (Some flags, p.2)
    else
      match addr_slot m RTAX_IFP with
      | None => Some (Some flags, p.2)
      | Some (SaLink i t n a pad) =>
          if decide (0 ∈ a ++ pad) then
            Some (Some flags, p.2 ++ [Info (link_name i n a pad) (s16 i) 0 (take 8 a) (s16 flags) 0 None None None])
          else None
      | Some _ => None
      end
  else if m_type m =? RTM_NEWADDR then
    match last p.2, p.1, addr_slot m RTAX_IFA with
    | Some cur, Some flags, Some _ =>
        match n_addr cur with
        | None => Some (Some flags, take (length p.2 - 1) p.2 ++ [with_addrs flags cur m])
        | Some _ => if doaliases =? 0 then Some p else Some (Some flags, p.2 ++ [with_addrs flags (without_addrs cur) m])
        end
    | _, _, _ => None
    end
  else None.

Fixpoint see_all (doaliases : Z) (ms : list ifmsg) (p : progress) : option progress :=
  match ms with
  | [] => Some p
  | m :: ms' => p' ← see doaliases m p; see_all doaliases ms' p'
  end.
End Spec.

Section Facts.
Context {os : OS} {SE : Strerror} {CF : Config} {RH : RouteHost}.
Context (T0 : list event).

(** ** Memory: what has been allocated since the history [T0] and is still held *)

Definition never (h : list event) : Prop := False.
Abbreviation stage Q := (ends anything never Q).

Definition holding (H : list Z) (s : st) : Prop :=
  daemon_proc s = 0 /\ exists evs, trace s = evs ++ T0 /\ allocated evs ≡ₚ freed evs ++ H.

Lemma holding_perm H H' s : H ≡ₚ H' -> holding H s -> holding H' s.
Proof using. intros E (Hd & evs & Ht & Ha). split; [done|]. exists evs. split; [done|]. by rewrite Ha, E. Qed.

Lemma Calloc_holding n size H s : holding H s -> wp (Calloc n size) (stage (fun p s' => holding (p :: H) s')) s.
Proof using.
  intros (Hd & evs & Ht & Ha). unfold Calloc.
  apply (ends_then _ _ _ _ (fun r s' => holding (rv r :: H) s')); [|by intros r s' Hh].
  apply (ends_call _ _ anything_output); [done|done|done|]. unfold null. intros Hz. split; [done|].
  eexists (_ :: evs). split; [cbn; by rewrite Ht|]. unfold allocated, freed in *. rewrite !collect_cons, Ha. cbn. unfold alloc_data. cbn. rewrite Hz. cbn.
  rewrite app_nil_r, <- app_assoc. f_equiv. by rewrite Permutation_app_comm.
Qed.

Lemma free_holding p H s : holding (p :: H) s -> wp (free p) (stage (fun _ s' => holding H s')) s.
Proof using.
  intros (Hd & evs & Ht & Ha). unfold free, wp, mthen, sys, mpure. cbn [ends]. split; [done|].
  eexists (_ :: evs). split; [cbn; by rewrite Ht|]. unfold allocated, freed in *. rewrite !collect_cons. cbn. rewrite app_nil_r, Ha, <- app_assoc. done.
Qed.

Definition owned_ifi (ifi : ifi_info) : list Z :=
  ifi_self ifi :: ptr (ifi_addr ifi) ++ ptr (ifi_brdaddr ifi) ++ ptr (ifi_dstaddr ifi).
Definition owned_list (l : list ifi_info) : list Z := concat (owned_ifi <$> l).

Lemma owned_snoc l ifi H : owned_list (l ++ [ifi]) ++ H ≡ₚ owned_ifi ifi ++ owned_list l ++ H.
Proof using. unfold owned_list. rewrite fmap_app, concat_app. cbn [fmap list_fmap concat]. rewrite app_nil_r. solve_Permutation. Qed.

(** ** Copies of socket addresses *)

Lemma length_byte pre sa post :
  sa_ok sa -> (pre ++ sa_bytes sa ++ post) !! length pre = Some (Z.of_nat (length (copied sa))).
Proof using.
  intros Hok. rewrite <- (Nat.add_0_r (length pre)), at_offset by (destruct sa; cbn; lia).
  destruct sa as [i t n a pad|f r|r]; cbn [copied]; rewrite ?length_sa_bytes_link; cbn [sa_bytes app length lookup list_lookup]; f_equal; lia.
Qed.

Lemma load_copied pre sa post : load (pre ++ sa_bytes sa ++ post) (length pre) (length (copied sa)) = Some (copied sa).
Proof using.
  rewrite <- (Nat.add_0_r (length pre)), load_app_r. destruct sa as [i t n a pad|f r|r]; cbn [copied]; try apply load_front.
  rewrite load_ok by (cbn; lia). done.
Qed.

Lemma copy_sa_ok pre sa post H s :
  sa_ok sa -> holding H s ->
  wp (copy_sa (pre ++ sa_bytes sa ++ post) (length pre)) (stage (fun r s' => snd r = copied sa /\ holding (fst r :: H) s')) s.
Proof using.
  intros Hok Hh. unfold copy_sa, byte_at. rewrite (length_byte pre sa post Hok). cbn [checked]. rewrite then_pure.
  apply (ends_then _ _ _ _ (fun p s' => holding (p :: H) s')); [by apply Calloc_holding|]. intros p s' Hp.
  rewrite Nat2Z.id, load_copied. cbn [checked]. rewrite then_pure. by apply ends_pure.
Qed.

(** A slot of a message: where it points to. *)
Definition points_to (buf : list Z) (x : option nat) (sa : option rtsa) : Prop :=
  match x, sa with
  | None, None => True
  | Some o, Some sa => sa_ok sa /\ exists pre post, buf = pre ++ sa_bytes sa ++ post /\ o = length pre
  | _, _ => False
  end.

Lemma slots_point pre m post :
  msg_ok m -> let buf := pre ++ msg_bytes m ++ post in
  exists info, get_rtaddrs buf (mask_of (m_addrs m)) (length pre + header_size (m_type m)) = Some info /\
    forall i, (i < RTAX_MAX)%nat -> points_to buf (slot info i) (addr_slot m i).
Proof using.
  intros Hm buf. destruct (msg_addrs pre m post Hm) as (pre' & post' & Hl & Hb & Hr). fold buf in Hb, Hr. exists (offsets (length pre') (m_addrs m)).
  split; [done|]. intros i Hi. destruct Hm as (_ & H8 & Hok & _). unfold slot, addr_slot.
  destruct (lookup_lt_is_Some_2 (m_addrs m) i ltac:(rewrite H8; lia)) as [[sa|] E]; rewrite E; [|by rewrite (offsets_absent _ _ _ E)].
  destruct (offsets_lookup _ _ _ pre' post' E) as (q & r & Eo & Eb). rewrite Eo. cbn. rewrite Forall_lookup in Hok. split; [apply (Hok _ _ E)|].
  exists q, r. split; [|done]. by rewrite <- Eb.
Qed.

Lemma copy_if_ok test buf x sa H s :
  points_to buf x sa -> holding H s ->
  wp (copy_if test buf x) (stage (fun r s' => snd <$> r = (if test then copied <$> sa else None) /\ holding (ptr r ++ H) s')) s.
Proof using.
  intros Hx Hh. destruct x as [o|], sa as [sa|]; try done; cbn [copy_if].
  - destruct Hx as (Hok & pre & post & -> & ->). destruct test; [|by apply ends_pure].
    apply (ends_then _ _ _ _ (fun r s' => snd r = copied sa /\ holding (fst r :: H) s')); [by apply copy_sa_ok|].
    intros [p b] s' [Hb Hh']. apply ends_pure. cbn in *. by rewrite Hb.
  - apply ends_pure. by destruct test.
Qed.
End Facts.

(** * Names and hardware addresses *)

Lemma string_in_nul b rest : 0 ∈ b -> string_in (b ++ rest) = Some (until_nul b).
Proof.
  induction b as [|x b IH]; [by intros ?%elem_of_nil|]. rewrite elem_of_cons. intros Hx. cbn [app string_in until_nul].
  destruct (Z.eqb_spec x 0); [done|]. destruct Hx as [|Hx]; [done|]. by rewrite IH.
Qed.

Lemma until_nul_app t rest : nul_free t -> until_nul (t ++ rest) = t ++ until_nul rest.
Proof. induction 1 as [|x t Hx _ IH]; [done|]. cbn. by rewrite (proj2 (Z.eqb_neq x 0) Hx), IH. Qed.

Lemma until_nul_free b : nul_free (until_nul b).
Proof. induction b as [|x b IH]; [constructor|]. cbn. destruct (Z.eqb_spec x 0); by constructor. Qed.

Lemma put_name name text :
  length name = 16%nat -> nul_free text -> (length text <= 15)%nat ->
  exists name', put_text name 0 text = Some name' /\ length name' = 16%nat /\ cstring_at name' 0 = text.
Proof.
  intros Hn Ht Hl. unfold put_text. rewrite memcpy_ok by llia. eexists. split; [done|]. split; [llia|].
  unfold cstring_at. rewrite drop_0. cbn [take app]. rewrite <- app_assoc. by apply until_nul_text.
Qed.

Section Links.
Context {os : OS} {SE : Strerror} {CF : Config} {RH : RouteHost}.

Lemma set_link_ok pre i t n a pad post ifi s :
  sa_ok (SaLink i t n a pad) -> 0 ∈ a ++ pad -> length (ifi_name ifi) = 16%nat -> length (ifi_haddr ifi) = 8%nat ->
  exists r, set_link (pre ++ sa_bytes (SaLink i t n a pad) ++ post) (length pre) ifi s = (Val r, s) /\
    abs r = Info (link_name i n a pad) (s16 i) (ifi_mtu ifi) (take 8 a) (ifi_flags ifi) (ifi_myflags ifi) (snd <$> ifi_addr ifi) (snd <$> ifi_brdaddr ifi) (snd <$> ifi_dstaddr ifi) /\
    ifi_self r = ifi_self ifi /\ ifi_addr r = ifi_addr ifi /\ ifi_brdaddr r = ifi_brdaddr ifi /\ ifi_dstaddr r = ifi_dstaddr ifi.
Proof using.
  intros Hok Hnul Hln Hlh. set (buf := pre ++ _ ++ post).
  assert (Hat : link_at buf (length pre) i n) by (by exists pre, t, a, pad, post).
  destruct (link_fields buf (length pre) i n s Hat) as (Hi & Hn & _ & Hir & Hnf & _).
  assert (Hd : drop (sdl_data (length pre)) buf = (n ++ a ++ pad) ++ post).
  { assert (Eb : exists hd, sa_bytes (SaLink i t n a pad) = hd ++ n ++ a ++ pad /\ length hd = 8%nat).
    { exists ([8 + Z.of_nat (length (n ++ a ++ pad)); AF_LINK] ++ uint_bytes little_endian 2 i ++ [t; Z.of_nat (length n); Z.of_nat (length a); 0]).
      split; [cbn [sa_bytes]; by rewrite <- !app_assoc|]. rewrite !length_app, length_uint_bytes. done. }
    destruct Eb as (hd & Eb & Hh). unfold buf, sdl_data. rewrite Eb, drop_app_ge by lia.
    replace (length pre + 8 - length pre)%nat with 8%nat by lia. rewrite <- (app_assoc hd). by apply drop_app_length'. }
  assert (Hal : buf !! (length pre + 6)%nat = Some (Z.of_nat (length a))).
  { unfold buf. rewrite at_offset by (rewrite length_sa_bytes_link; lia). cbn [sa_bytes].
    rewrite app_assoc, lookup_app_r by (rewrite length_app, length_uint_bytes; cbn; lia). by rewrite length_app, length_uint_bytes. }
  unfold set_link. rewrite (then_val _ _ _ _ _ Hi), (then_val _ _ _ _ _ Hn).
  assert (Htext : (if Z.of_nat (length n) >? 0 then s0 <~ checked (string_in (drop (sdl_data (length pre)) buf)) ;; mpure (padded_text IFI_NAME (Z.of_nat (length n)) s0)
      else s0 <~ checked (vformat c["index %d"] [AInt i]) ;; mpure (snprintf_text IFI_NAME s0)) s = (Val (link_name i n a pad), s)).
  { unfold link_name, snprintf_text, padded_text. destruct n as [|x n'].
    { change (Z.of_nat (length (@nil Z)) >? 0) with false. cbv iota. pose proof (proj1 (vformat_int c["index "] [] i eq_refl eq_refl)) as Hv.
      rewrite !app_nil_r in Hv. change (c["index "] ++ c["%d"]) with c["index %d"] in Hv. rewrite Hv. cbn [checked]. by rewrite then_pure. }
    destruct (Z.gtb_spec (Z.of_nat (length (x :: n'))) 0) as [_|Hz]; [|cbn [length] in Hz; lia]. rewrite Hd, string_in_nul by (apply elem_of_app; by right).
    cbn [checked]. rewrite then_pure. rewrite (until_nul_app (x :: n')) by done. rewrite Nat2Z.id.
    replace (length (x :: n') - length ((x :: n') ++ until_nul (a ++ pad)))%nat with 0%nat by llia. done. }
  rewrite (then_val _ _ _ _ _ Htext).
  destruct (put_name (ifi_name ifi) (link_name i n a pad) Hln) as (name' & En & Ln & Cn).
  { unfold link_name. apply Forall_take. destruct n; [|apply until_nul_free]. apply Forall_app. split; [by repeat constructor|apply print_d_nul_free]. }
  { unfold link_name. rewrite length_take. lia. }
  rewrite En. cbn [checked]. rewrite then_pure. unfold byte_at. rewrite Hal. cbn [checked]. rewrite then_pure.
  assert (Hh : exists h, (if Z.of_nat (length a) >? 0 then
      d <~ checked (load buf (sdl_data (length pre) + Z.to_nat (Z.of_nat (length n))) (Z.to_nat (Z.min IFI_HADDR (Z.of_nat (length a))))) ;; checked (memcpy (ifi_haddr ifi) 0 d)
      else mpure (ifi_haddr ifi)) s = (Val h, s) /\ take (Z.to_nat (Z.min IFI_HADDR (Z.of_nat (length a)))) h = take 8 a).
  { unfold IFI_HADDR. destruct (Z.gtb_spec (Z.of_nat (length a)) 0) as [Hz|Hz].
    2: { exists (ifi_haddr ifi). split; [done|]. destruct a; [done|cbn [length] in Hz; lia]. }
    set (k := Z.to_nat (Z.min 8 (Z.of_nat (length a)))). assert (Hk : (k <= length a)%nat) by lia.
    assert (Hdr : drop (sdl_data (length pre) + length n) buf = a ++ pad ++ post).
    { rewrite <- drop_drop, Hd, <- !app_assoc. by apply drop_app_length'. }
    rewrite Nat2Z.id. assert (Hll : (length (a ++ pad ++ post) = length buf - (sdl_data (length pre) + length n))%nat) by (by rewrite <- Hdr, length_drop).
    rewrite length_app in Hll. rewrite load_ok by lia. rewrite Hdr, take_app_le by lia. cbn [checked]. rewrite then_pure, memcpy_ok by (rewrite length_take; lia).
    eexists. split; [done|]. rewrite take_0, app_nil_l, (take_app_le (take k a)) by (rewrite length_take; lia). rewrite take_take, Nat.min_id.
    destruct (Nat.le_ge_cases 8 (length a)); [by replace k with 8%nat by lia|]. by rewrite !take_ge by lia. }
  destruct Hh as (h & Eh & Th). rewrite (then_val _ _ _ _ _ Eh). eexists. split; [done|]. split; [|done].
  unfold abs. cbn [ifi_name ifi_index ifi_mtu ifi_haddr ifi_hlen ifi_flags ifi_myflags ifi_addr ifi_brdaddr ifi_dstaddr]. by rewrite Cn, Th.
Qed.
End Links.

(** * The messages *)

Section Messages.
Context {os : OS} {SE : Strerror} {CF : Config} {RH : RouteHost}.
Context (T0 : list event) (B : list Z) (doaliases : Z).

Abbreviation stage Q := (ends anything never Q).

(** A structure without an address has none of the others either. *)
Definition ifi_wf (r : ifi_info) : Prop := ifi_addr r = None -> ifi_brdaddr r = None /\ ifi_dstaddr r = None.

(** The state of the loop stands for [p] and holds the memory of its list, and [B]. *)
Definition stands_for (p : option Z * list info) (x : ifi_state) (s : st) : Prop :=
  st_flags x = p.1 /\ abs <$> st_list x = p.2 /\ Forall ifi_wf (st_list x) /\ holding T0 (owned_list (st_list x) ++ B) s.

Lemma new_interface_ok pre m post p p' x s :
  msg_ok m -> m_type m = RTM_IFINFO -> see doaliases m p = Some p' -> stands_for p x s ->
  wp (new_interface (pre ++ msg_bytes m ++ post) (length pre) x) (stage (fun x' s' => stands_for p' x' s')) s.
Proof using.
  intros Hm Ht Hsee (Hf & Hl & Hw & Hh). destruct (msg_fields pre m post Hm) as (_ & _ & Ha & Hfl).
  destruct (slots_point pre m post Hm) as (inf & Hinf & Hpts). set (buf := pre ++ msg_bytes m ++ post) in *.
  unfold see in Hsee. rewrite Ht in Hsee. cbn [Z.eqb RTM_IFINFO Pos.eqb] in Hsee.
  unfold new_interface, u32_at. rewrite Hfl. cbn [checked]. rewrite then_pure. set (flags := s32 (m_flags m)) in *.
  destruct (negb (has_flag flags IFF_UP)). { injection Hsee as <-. by apply ends_pure. }
  rewrite Ha. cbn [checked]. rewrite then_pure. unfold header_size in Hinf. rewrite Ht in Hinf. cbn [Z.eqb RTM_IFINFO Pos.eqb] in Hinf.
  rewrite Hinf. cbn [checked]. rewrite then_pure. specialize (Hpts RTAX_IFP ltac:(unfold RTAX_IFP, RTAX_MAX; lia)).
  destruct (slot inf RTAX_IFP) as [o|], (addr_slot m RTAX_IFP) as [sa|]; cbn in Hpts; try done. 2: { injection Hsee as <-. by apply ends_pure. }
  destruct sa as [i t n a pad|f r|r]; try done. case_decide as Hnul; [|done]. injection Hsee as <-.
  destruct Hpts as (Hok & q & r & Eb & ->).
  apply (ends_then _ _ _ _ (fun p1 s' => holding T0 (p1 :: owned_list (st_list x) ++ B) s')); [by apply Calloc_holding|].
  intros p1 s1 Hh1. unfold byte_at. pose proof (sa_family_at q _ r Hok) as Hfam. rewrite <- Eb in Hfam. rewrite Hfam. cbn [checked sa_family_of]. rewrite then_pure, Z.eqb_refl.
  destruct (set_link_ok q i t n a pad r (Ifi p1 (replicate 16 0) 0 0 (replicate 8 0) 0 (s16 flags) 0 None None None) s1 Hok Hnul) as (ifi & Es & Eabs & E1 & E2 & E3 & E4); [done|done|].
  rewrite <- Eb in Es. unfold wp. rewrite (then_val _ _ _ _ _ Es). cbn [mpure ends]. split; [done|]. cbn [st_list st_flags fst snd].
  split; [rewrite fmap_app, Hl; cbn [fmap list_fmap]; by rewrite Eabs|]. split; [apply Forall_app; split; [done|]; by repeat constructor; rewrite ?E3, ?E4|].
  eapply holding_perm; [symmetry; apply owned_snoc|]. unfold owned_ifi. rewrite E1, E2, E3, E4. exact Hh1.
Qed.

(** The list with the current structure apart. *)
Lemma split_last {A} (l : list A) y : last l = Some y -> l = take (length l - 1) l ++ [y].
Proof using.
  rewrite last_lookup. intros H. rewrite <- (take_drop (length l - 1) l) at 1. f_equal.
  assert (Hl : (length l <> 0)%nat) by (destruct l; [done|cbn; lia]). replace (Nat.pred (length l)) with (length l - 1)%nat in H by lia.
  rewrite (drop_S _ _ _ H). rewrite drop_ge by lia. done.
Qed.

(** The copies of the addresses of a message, into a structure [ifi] that has no address. *)
Lemma fill_addrs_ok pre m post flags front ifi s :
  msg_ok m -> m_type m = RTM_NEWADDR -> is_Some (addr_slot m RTAX_IFA) -> Forall ifi_wf front ->
  ifi_addr ifi = None -> ifi_brdaddr ifi = None -> ifi_dstaddr ifi = None ->
  holding T0 (ifi_self ifi :: owned_list front ++ B) s ->
  wp (fill_addrs (pre ++ msg_bytes m ++ post) (length pre) (Some flags) front ifi)
    (stage (fun x' s' => stands_for (Some flags, (abs <$> front) ++ [with_addrs flags (abs ifi) m]) x' s')) s.
Proof using.
  intros Hm Ht [sa0 Hifa] Hw E1 E2 E3 Hh. destruct (msg_fields pre m post Hm) as (_ & _ & Ha & _).
  destruct (slots_point pre m post Hm) as (inf & Hinf & Hpts). set (buf := pre ++ msg_bytes m ++ post) in *.
  unfold fill_addrs, u32_at. rewrite Ha. cbn [checked]. rewrite then_pure. unfold header_size in Hinf. rewrite Ht in Hinf. cbn [Z.eqb RTM_IFINFO RTM_NEWADDR Pos.eqb] in Hinf.
  rewrite Hinf. cbn [checked]. rewrite then_pure. pose proof (Hpts RTAX_IFA ltac:(unfold RTAX_IFA, RTAX_MAX; lia)) as Hp1.
  specialize (Hpts RTAX_BRD ltac:(unfold RTAX_BRD, RTAX_MAX; lia)).
  eapply ends_then; [apply (copy_if_ok T0 true _ _ _ _ _ Hp1 Hh)|]. intros a s1 [Ea H1]. cbn [checked]. rewrite then_pure.
  eapply ends_then; [apply (copy_if_ok T0 (has_flag flags IFF_BROADCAST) _ _ _ _ _ Hpts H1)|]. intros b s2 [Eb H2].
  eapply ends_then; [apply (copy_if_ok T0 (has_flag flags IFF_POINTOPOINT) _ _ _ _ _ Hpts H2)|]. intros d s3 [Ed H3].
  apply ends_pure. rewrite Hifa in Ea. destruct a as [a|]; [|done]. cbn [or_else]. split; [done|]. cbn [st_list st_flags fst snd]. split_and!.
  - rewrite fmap_app. cbn [fmap list_fmap]. f_equal. f_equal. unfold abs, with_addrs.
    cbn [ifi_name ifi_index ifi_mtu ifi_haddr ifi_hlen ifi_flags ifi_myflags ifi_addr ifi_brdaddr ifi_dstaddr n_name n_index n_mtu n_hw n_flags n_myflags n_addr n_brd n_dst].
    rewrite E1, E2, E3, Hifa, Ea, <- Eb, <- Ed. by destruct b, d.
  - apply Forall_app. split; [done|]. repeat constructor; cbn in *; done.
  - eapply holding_perm; [symmetry; apply owned_snoc|]. eapply holding_perm; [|exact H3]. unfold owned_ifi.
    cbn [ifi_self ifi_addr ifi_brdaddr ifi_dstaddr]. rewrite E2, E3.
    replace (or_else b None) with b by (by destruct b). replace (or_else d None) with d by (by destruct d). cbn [ptr app]. destruct a as [pa ba]. cbn [ptr app]. solve_Permutation.
Qed.
Lemma new_address_ok pre m post p p' x s :
  msg_ok m -> m_type m = RTM_NEWADDR -> see doaliases m p = Some p' -> stands_for p x s ->
  wp (new_address doaliases (pre ++ msg_bytes m ++ post) (length pre) x) (stage (fun x' s' => stands_for p' x' s')) s.
Proof using.
  intros Hm Ht Hsee (Hf & Hl & Hw & Hh). unfold see in Hsee. rewrite Ht in Hsee. cbn [Z.eqb RTM_IFINFO RTM_NEWADDR Pos.eqb] in Hsee.
  destruct p as [fl infos]. cbn [fst snd] in *. subst infos. rewrite fmap_last in Hsee. unfold new_address.
  destruct (last (st_list x)) as [cur|] eqn:Elast; [|done]. cbn [fmap option_fmap option_map] in Hsee. destruct fl as [flags|]; [|done].
  destruct (addr_slot m RTAX_IFA) as [sa|] eqn:Eifa; [|done]. cbn [checked]. rewrite then_pure.
  pose proof (split_last _ _ Elast) as Esp. set (front := take _ (st_list x)) in *.
  unfold abs at 1 in Hsee. cbn [n_addr] in Hsee. destruct (ifi_addr cur) as [[pa ba]|] eqn:Ea; cbn [fmap option_fmap option_map] in Hsee.
  - destruct (doaliases =? 0); injection Hsee as <-; [by apply ends_pure|].
    apply (ends_then _ _ _ _ (fun p1 s' => holding T0 (p1 :: owned_list (st_list x) ++ B) s')); [by apply Calloc_holding|].
    intros p1 s1 H1. rewrite Hf. by apply fill_addrs_ok.
  - injection Hsee as <-. rewrite Hf. assert (Hcur : ifi_wf cur) by (rewrite Esp in Hw; apply Forall_app in Hw as [_ Hw]; by inversion Hw).
    destruct (Hcur Ea) as [E2 E3]. rewrite length_fmap, <- fmap_take. fold front. apply fill_addrs_ok; try done.
    + rewrite Esp in Hw. by apply Forall_app in Hw as [? _].
    + rewrite Esp in Hh. eapply holding_perm; [|exact Hh]. rewrite owned_snoc. unfold owned_ifi. by rewrite Ea, E2, E3.
Qed.

Lemma free_opt_holding y H s : holding T0 (ptr y ++ H) s -> wp (free_opt y) (stage (fun _ s' => holding T0 H s')) s.
Proof using. destruct y as [[p b]|]; [apply free_holding|by intros; apply ends_pure]. Qed.

(** The list is freed, and nothing else. *)
Lemma free_ifi_info_ok l H s : holding T0 (owned_list l ++ H) s -> wp (free_ifi_info l) (stage (fun _ s' => holding T0 H s')) s.
Proof using.
  revert s. induction l as [|ifi l IH]; intros s Hh; [by apply ends_pure|]. cbn [free_ifi_info].
  assert (E : owned_list (ifi :: l) ++ H ≡ₚ ptr (ifi_addr ifi) ++ ptr (ifi_brdaddr ifi) ++ ptr (ifi_dstaddr ifi) ++ ifi_self ifi :: owned_list l ++ H).
  { unfold owned_list. cbn [fmap list_fmap concat]. unfold owned_ifi. solve_Permutation. }
  apply (holding_perm _ _ _ _ E) in Hh.
  set (H3 := ifi_self ifi :: owned_list l ++ H) in *. set (H2 := ptr (ifi_dstaddr ifi) ++ H3) in *. set (H1 := ptr (ifi_brdaddr ifi) ++ H2) in *.
  apply (ends_then _ _ _ _ (fun _ s' => holding T0 H1 s')); [by apply free_opt_holding|]. intros ? s1 K1.
  apply (ends_then _ _ _ _ (fun _ s' => holding T0 H2 s')); [by apply free_opt_holding|]. intros ? s2 K2.
  apply (ends_then _ _ _ _ (fun _ s' => holding T0 H3 s')); [by apply free_opt_holding|]. intros ? s3 K3.
  apply (ends_then _ _ _ _ (fun _ s' => holding T0 (owned_list l ++ H) s')); [by apply free_holding|]. intros ? s4 K4. by apply IH.
Qed.
End Messages.

Section Whole.
Context {os : OS} {SE : Strerror} {CF : Config} {RH : RouteHost} {UL : UninitLaw}.
Context (tbl : Z -> Z -> list ifmsg) {IL : IflistLaw tbl}.

(** [get_ifi_info] follows [see]. *)
Lemma get_ifi_info_spec family doaliases p s :
  daemon_proc s = 0 -> see_all doaliases (tbl family 0) (None, []) = Some p ->
  wp (get_ifi_info family doaliases) (ends anything never (fun l s' => abs <$> l = p.2 /\ exists buf, holding (trace s) (owned_list l ++ [buf]) s')) s.
Proof using All.
  intros Hd Hsee. unfold get_ifi_info, Net_rt_iflist.
  apply (ends_then _ _ _ _ (fun b s' => let '(q, buf, len) := b in holding (trace s) [q] s' /\ len = length (block (tbl family 0)) /\
    exists tail, buf = block (tbl family 0) ++ tail)).
  { apply wp_then. eapply wp_mono; [apply (net_rt_iflist_spec tbl)|]. intros [b| | | |] s1; try done. cbn [value andthen]. intros (evs & H).
    destruct b as [[[q buf] len]|].
    - destruct H as ((Ht & Ha & Hd1 & _) & _ & Hlen & Hbuf). apply ends_pure. split; [split; [congruence|by exists evs]|done].
    - destruct H as ((_ & _ & Hd1 & _) & _). apply (ends_err_sys _ _ anything_output); [done|congruence|done]. }
  intros [[q buf] len] s1 (Hh & -> & tail & ->).
  apply (ends_then _ _ _ _ (fun f s' => match f with Next x => stands_for (trace s) [q] p x s' | _ => False end)).
  - eapply ends_mono.
    { apply (each_msg_ends anything never _ (fun ms x s' => exists p1, see_all doaliases ms p1 = Some p /\ stands_for (trace s) [q] p1 x s')
        (fun (_ : unit) _ => False)); [apply iflist_ok| |].
      - intros front m ms x s' E (p1 & Hs1 & Hst). pose proof (iflist_ok (tbl := tbl) family 0) as Hok. rewrite E in Hok.
        apply Forall_app in Hok as [_ Hok]. apply Forall_cons in Hok as [Hm _].
        rewrite (block_split _ _ _ _ tail E). cbn [see_all] in Hs1. destruct (see doaliases m p1) as [p2|] eqn:E2; [|done]. cbn [mbind option_bind] in Hs1.
        destruct (msg_fields (block front) m (block ms ++ tail) Hm) as (_ & Hty & _). unfold byte_at. rewrite Hty. cbn [checked]. rewrite then_pure.
        destruct (Z.eqb_spec (m_type m) RTM_IFINFO) as [Et|Et].
        { eapply ends_then; [by eapply new_interface_ok|]. intros x' s2 H2. apply ends_pure. by exists p2. }
        destruct (Z.eqb_spec (m_type m) RTM_NEWADDR) as [Et'|Et'].
        { eapply ends_then; [by eapply new_address_ok|]. intros x' s2 H2. apply ends_pure. by exists p2. }
        unfold see in E2. rewrite (proj2 (Z.eqb_neq _ _) Et), (proj2 (Z.eqb_neq _ _) Et') in E2. discriminate E2.
      - exists (None, []). split; [done|]. split; [done|]. split; [done|]. split; [constructor|done]. }
    intros [x| |r] s2; [|done|done]. intros (p1 & [= ->] & Hst). done.
  - intros [x| |r] s2 H; try done. apply ends_pure. destruct H as (_ & Hl & _ & Hh2). split; [done|]. by exists q.
Qed.
End Whole.
