(* ===== verification/IfiClaims.v ===== *)
(** What the list of interfaces says. *)

From S2P Require Import Prelude CText Sys Traces Error Wrappers SockUtil Gai GaiFacts RobustIO Servers Packet Words.
From S2P Require Import Route RouteFacts RouteClaims Ifi IfiFacts.

(** The messages of one interface: the interface, then its addresses. *)
Record ifgroup : Type := Group {
  g_if : ifmsg;
  g_addrs : list ifmsg;
}.

Definition g_msgs (g : ifgroup) : list ifmsg := g_if g :: g_addrs g.
Definition g_flags (g : ifgroup) : Z := s32 (m_flags (g_if g)).
Definition g_up (g : ifgroup) : bool := has_flag (g_flags g) IFF_UP.

Section Claims.
Context {os : OS} {SE : Strerror} {CF : Config} {RH : RouteHost} {UL : UninitLaw}.

(** The interface alone. *)
Definition base_info (g : ifgroup) : info :=
  match addr_slot (g_if g) RTAX_IFP with
  | Some (SaLink i t n a pad) => Info (link_name i n a pad) (s16 i) 0 (take 8 a) (s16 (g_flags g)) 0 None None None
  | _ => Info [] 0 0 [] 0 0 None None None
  end.

(** An interface that is up has an entry for its first address, or one without an address, and entries for the
    other addresses if these are asked for. *)
Definition group_infos (doaliases : Z) (g : ifgroup) : list info :=
  if g_up g then
    match g_addrs g with
    | [] => [base_info g]
    | a :: more => with_addrs (g_flags g) (base_info g) a :: (if doaliases =? 0 then [] else with_addrs (g_flags g) (base_info g) <$> more)
    end
  else [].

(** Each interface has a name, terminated in its socket address, the address messages have an address, and an
    interface that is not up has no addresses. *)
Record group_ok (g : ifgroup) : Prop := {
  gr_type : m_type (g_if g) = RTM_IFINFO;
  gr_link : exists i t n a pad, addr_slot (g_if g) RTAX_IFP = Some (SaLink i t n a pad) /\ 0 ∈ a ++ pad;
  gr_addrs : Forall (fun m => m_type m = RTM_NEWADDR /\ is_Some (addr_slot m RTAX_IFA)) (g_addrs g);
  gr_down : g_up g = false -> g_addrs g = [];
}.

Lemma see_address doaliases m flags l cur :
  m_type m = RTM_NEWADDR -> is_Some (addr_slot m RTAX_IFA) ->
  see doaliases m (Some flags, l ++ [cur]) =
    Some (Some flags, match n_addr cur with
      | None => l ++ [with_addrs flags cur m]
      | Some _ => if doaliases =? 0 then l ++ [cur] else (l ++ [cur]) ++ [with_addrs flags (without_addrs cur) m]
      end).
Proof using.
  intros Ht [sa Hs]. unfold see. rewrite Ht. cbn [Z.eqb RTM_IFINFO RTM_NEWADDR Pos.eqb fst snd]. rewrite last_snoc, Hs.
  destruct (n_addr cur); [by destruct (doaliases =? 0)|]. replace (length (l ++ [cur]) - 1)%nat with (length l) by llia. by rewrite take_app_length.
Qed.

(** Further addresses of an interface that has one. *)
Lemma see_aliases doaliases flags base ms l cur :
  Forall (fun m => m_type m = RTM_NEWADDR /\ is_Some (addr_slot m RTAX_IFA)) ms ->
  without_addrs cur = base -> is_Some (n_addr cur) ->
  see_all doaliases ms (Some flags, l ++ [cur]) =
    Some (Some flags, l ++ cur :: (if doaliases =? 0 then [] else with_addrs flags base <$> ms)).
Proof using.
  intros Hms. revert l cur. induction Hms as [|m ms [Ht Hs] _ IH]; intros l cur Hb [a Ha]; cbn [see_all]; [by destruct (doaliases =? 0)|].
  rewrite (see_address _ _ _ _ _ Ht Hs), Ha. cbn [mbind option_bind]. destruct (doaliases =? 0) eqn:Ed.
  - by rewrite IH by done.
  - rewrite IH; [rewrite Hb; cbn [fmap list_fmap]; by rewrite <- app_assoc|by rewrite <- Hb|].
    destruct Hs as [sa Hs]. rewrite Hb. unfold with_addrs. rewrite Hs. cbn. by eexists.
Qed.

Lemma see_group doaliases g ms fl l :
  group_ok g ->
  see_all doaliases (g_msgs g ++ ms) (fl, l) = see_all doaliases ms (Some (g_flags g), l ++ group_infos doaliases g).
Proof using.
  intros [Ht (i & t & n & a & pad & Hl & Hnul) Ha Hd]. unfold g_msgs, group_infos. cbn [app see_all].
  assert (Hsee : see doaliases (g_if g) (fl, l) = Some (Some (g_flags g), if g_up g then l ++ [base_info g] else l)).
  { unfold see. rewrite Ht. cbn [Z.eqb RTM_IFINFO Pos.eqb snd]. fold (g_flags g). fold (g_up g). destruct (g_up g); [|done]. cbn [negb].
    rewrite Hl. rewrite decide_True by done. unfold base_info. by rewrite Hl. }
  rewrite Hsee. cbn [mbind option_bind]. destruct (g_up g); [|rewrite Hd by done; by rewrite app_nil_r].
  destruct (g_addrs g) as [|m1 more]; [done|]. apply Forall_cons in Ha as [[Ht1 Hs1] Ha]. cbn [app see_all].
  assert (Hb : n_addr (base_info g) = None) by (unfold base_info; by rewrite Hl).
  rewrite (see_address _ _ _ _ _ Ht1 Hs1), Hb. cbn [mbind option_bind].
  assert (Hmore : forall ms' p, see_all doaliases (more ++ ms') p = (q ← see_all doaliases more p; see_all doaliases ms' q)).
  { intros ms'. generalize more. intros mo. induction mo as [|m mo IH]; intros p; [done|]. cbn [app see_all]. destruct (see doaliases m p); [|done]. cbn. apply IH. }
  rewrite Hmore. rewrite (see_aliases doaliases (g_flags g) (base_info g)); [done|done|unfold base_info; by rewrite Hl|].
  destruct Hs1 as [sa Hs1]. unfold with_addrs. rewrite Hs1. cbn. by eexists.
Qed.

Lemma see_groups doaliases gs fl l :
  Forall group_ok gs -> exists fl', see_all doaliases (concat (g_msgs <$> gs)) (fl, l) = Some (fl', l ++ concat (group_infos doaliases <$> gs)).
Proof using.
  intros Hg. revert fl l. induction Hg as [|g gs Hg _ IH]; intros fl l; [exists fl; cbn; by rewrite app_nil_r|].
  cbn [fmap list_fmap concat]. rewrite see_group by done. destruct (IH (Some (g_flags g)) (l ++ group_infos doaliases g)) as [fl' E].
  exists fl'. by rewrite E, <- app_assoc.
Qed.

(** The list and its release, as the program [prifinfo] has them. *)
Definition list_and_free (family doaliases : Z) : M (list ifi_info) :=
  l <~ get_ifi_info family doaliases ;; free_ifi_info l ;;; mpure l.

(** C39: [get_ifi_info] lists the interfaces that are up, in the order of the kernel, if interfaces that are down
    have no addresses in the messages (otherwise see [down_interface_alias] and [first_down_undefined]) and there is
    a zero byte behind each name.  Each interface has its name (all bytes up to the zero byte, at most 15, the
    hardware address included if it follows: [name_runs_on]), index, hardware address and flags: an entry with the first address, or without one, and further entries for the
    other addresses if aliases are asked for, with the broadcast or destination address that the flags call
    for.  It accesses nothing outside the messages, and fails only by ending the process with status 1.  When
    the list has been freed, all memory is, but for the block of the messages. *)
Theorem get_ifi_info_lists (tbl : Z -> Z -> list ifmsg) (IL : IflistLaw tbl) gs family doaliases s :
  tbl family 0 = concat (g_msgs <$> gs) -> Forall group_ok gs -> daemon_proc s = 0 ->
  let '(o, s') := list_and_free family doaliases s in
  match o with
  | Val l => abs <$> l = concat (group_infos doaliases <$> gs) /\
      exists evs buf, trace s' = evs ++ trace s /\ allocated evs ≡ₚ buf :: freed evs
  | Exited code => code = 1
  | _ => False
  end.
Proof using All.
  intros Et Hg Hd. destruct (see_groups doaliases gs None [] Hg) as [fl' E]. rewrite <- Et in E.
  assert (H : wp (list_and_free family doaliases) (ends anything never (fun l s' => abs <$> l = concat (group_infos doaliases <$> gs) /\
      exists evs buf, trace s' = evs ++ trace s /\ allocated evs ≡ₚ buf :: freed evs)) s).
  { unfold list_and_free. eapply ends_then; [by apply (get_ifi_info_spec tbl _ _ _ _ Hd E)|]. intros l s1 (Hl & buf & Hh).
    apply (ends_then _ _ _ _ (fun _ s' => holding (trace s) [buf] s')); [by apply free_ifi_info_ok|].
    intros ? s2 (_ & evs & Ht & Ha). apply ends_pure. split; [done|]. exists evs, buf. split; [done|]. by rewrite Ha, Permutation_app_comm. }
  unfold wp in H. destruct (list_and_free _ _ _) as [o s']. destruct o; cbn in H; try done; [by destruct H|by destruct H].
Qed.
End Claims.

(** * Two interfaces *)

#[local] Existing Instance numeric_strerror.
#[local] Existing Instance bsd_config.
#[local] Existing Instance bsd_host.
#[local] Existing Instance bsd_os.

Definition two_groups : list ifgroup :=
  [Group (if_msg 1 c["lo0"] 73) [addr_msg [127; 0; 0; 1]]; Group (if_msg 2 c["em0"] 67) [addr_msg [10; 0; 0; 2]]].

Lemma two_groups_ok : Forall group_ok two_groups.
Proof.
  assert (H : forall i n fl a, g_up (Group (if_msg i n fl) [addr_msg a]) = true -> group_ok (Group (if_msg i n fl) [addr_msg a])).
  { intros i n fl a Hup. constructor; [done| | |by rewrite Hup].
    - exists i, 6, n, [0; 1; 2; 3; 4; 5], [0; 0]. split; [done|]. by left.
    - constructor; [|constructor]. split; [done|]. by eexists. }
  repeat (constructor; [by apply H|]). constructor.
Qed.

Lemma list_value : exists l s', list_and_free AF_INET 1 init = (Val l, s') /\ length l = 2%nat.
Proof. eexists _, _. split; vm_compute; reflexivity. Qed.

Lemma get_ifi_info_lists_witness :
  exists l s', list_and_free AF_INET 1 init = (Val l, s') /\ n_name <$> (abs <$> l) = [c["lo0"]; c["em0"]] /\
    exists evs buf, trace s' = evs ++ [] /\ allocated evs ≡ₚ buf :: freed evs.
Proof.
  pose proof (@get_ifi_info_lists bsd_os numeric_strerror bsd_config bsd_host bsd_uninit two_interfaces bsd_os_iflist two_groups AF_INET 1 init
    eq_refl two_groups_ok eq_refl) as H.
  destruct list_value as (l & s' & E & _). exists l, s'. split; [exact E|]. rewrite E in H. destruct H as [Ha Hm]. split; [|exact Hm].
  rewrite Ha. vm_compute. reflexivity.
Defined.

(** * Limits *)

Definition answering (ms : list ifmsg) : OS := fun h c =>
  match c with
  | sys_sysctl _ None _ => SR 0 None [] [4096] None
  | sys_sysctl _ (Some len) _ => SR 0 None (block ms) [Z.of_nat (length (block ms))] None
  | sys_malloc _ | sys_calloc _ _ => ok (65536 * Z.of_nat (S (length (allocated h))))
  | _ => ok 0
  end.

(** An address of an interface that is down becomes an alias of the interface before it. *)
Lemma down_interface_alias :
  match (@get_ifi_info (answering [if_msg 1 c["lo0"] 73; addr_msg [127; 0; 0; 1]; if_msg 2 c["em0"] 66; addr_msg [10; 0; 0; 2]])
      numeric_strerror bsd_config bsd_host AF_INET 1 init).1 with
  | Val l => (fun ifi => (cstring_at (ifi_name ifi) 0, snd <$> ifi_addr ifi)) <$> l =
      [(c["lo0"], Some ([16; 2; 0; 0; 127; 0; 0; 1] ++ replicate 8 0)); (c["lo0"], Some ([16; 2; 0; 0; 10; 0; 0; 2] ++ replicate 8 0))]
  | _ => False
  end.
Proof. vm_compute. reflexivity. Qed.

(** If the first interface is down, its address goes to a structure that does not exist. *)
Lemma first_down_undefined :
  (@get_ifi_info (answering [if_msg 1 c["em0"] 66; addr_msg [10; 0; 0; 2]]) numeric_strerror bsd_config bsd_host AF_INET 1 init).1 = Undefined.
Proof. vm_compute. reflexivity. Qed.

(** The name in a socket address is not terminated, so the hardware address is taken for a part of it. *)
Lemma name_runs_on :
  let m := IfMsg RTM_IFINFO 67 (replicate 156 0)
    [None; None; None; None; Some (SaLink 2 6 c["em0"] [65; 66; 67; 68; 69; 70] (replicate 2 0)); None; None; None] in
  match (@get_ifi_info (answering [m]) numeric_strerror bsd_config bsd_host AF_INET 1 init).1 with
  | Val l => (fun ifi => cstring_at (ifi_name ifi) 0) <$> l = [c["em0ABCDEF"]]
  | _ => False
  end.
Proof. vm_compute. reflexivity. Qed.
