(* ===== verification/IfConf.v ===== *)
(** [lib/get_ifi_info.c]: the list of interfaces from [ioctl (SIOCGIFCONF)].

    The kernel fills a buffer with one structure [ifreq] per address: the name of the interface in
    [IFNAMSIZ] bytes, then a socket address, which on hosts with [sa_len] takes as many bytes as it says,
    at least those of a [struct sockaddr].  The function replaces a colon in a name by a NUL in that
    buffer, so the buffer is a part of its state.  The buffer of a successful call is found in a loop, which takes
    fuel; the loop over the entries ends because each takes more than [IFNAMSIZ] bytes. *)

From S2P Require Import Prelude CText Sys Error Wrappers SockUtil Gai Packet Words Route Ifi.

Definition SIOCGIFCONF : Z := 35090.
Definition SIOCGIFFLAGS : Z := 35091.
Definition SIOCGIFDSTADDR : Z := 35095.
Definition SIOCGIFBRDADDR : Z := 35097.
Definition SIOCGIFMTU : Z := 35105.
Definition IFI_ALIAS : Z := 1.
Definition SIZEOF_SOCKADDR : Z := 16.
Definition SIZEOF_SOCKADDR_IN : Z := 16.
Definition SIZEOF_SOCKADDR_IN6 : Z := 28.

(** What [configure] finds out, and the size of a [struct ifreq]. *)
Class IfConfig : Type := {
  have_sa_len : bool;
  have_ifr_mtu : bool;
  SIZEOF_IFREQ : nat;
}.

(** The variables of the loop; [sdlname] and [haddr] are offsets in the buffer. *)
Record ifc_state : Type := Ifc {
  c_buf : list Z;
  c_lastname : list Z;
  c_sdlname : option nat;
  c_idx : Z;
  c_hlen : Z;
  c_haddr : option nat;
  c_list : list ifi_info;
}.

Section IfConf.
Context {os : OS} {SE : Strerror} {CF : Config} {RH : RouteHost} {IC : IfConfig}.

(** [Ioctl] with a [struct ifreq], of which the kernel reads the name. *)
Definition Ioctl_ifreq (fd request : Z) (name : cstring) : M sysret :=
  call (sys_ioctl_ifreq fd request name) minus1 c["ioctl error"].

(** The address of the buffer, its contents, and [ifc.ifc_len]. *)
Fixpoint get_ifconf (fuel : nat) (sockfd len lastlen : Z) : M (Z * list Z * nat) :=
  match fuel with
  | O => no_fuel
  | S k =>
      p <~ Malloc len ;;
      r <~ sys (sys_ioctl sockfd SIOCGIFCONF len) ;;
      let again lastlen := free p ;;; get_ifconf k sockfd (len + 10 * Z.of_nat SIZEOF_IFREQ) lastlen in
      if rv r <? 0 then
        e <~ get_errno ;;
        if negb (e =? EINVAL) || negb (lastlen =? 0) then err_sys c["ioctl error"] []
        else again lastlen
      else
        let ifc_len := hd 0 (rints r) in
        if ifc_len =? lastlen then                        (* success, len has not changed *)
          buf <~ checked (memcpy (uninit (Z.to_nat len)) 0 (rbytes r)) ;;
          mpure (p, buf, Z.to_nat ifc_len)
        else again ifc_len
  end.

(** [ifr->ifr_addr] and its family. *)
Definition ifr_addr (ifr : nat) : nat := ifr + 16.

Definition ifr_family (buf : list Z) (ifr : nat) : M Z :=
  if have_sa_len then byte_at buf (ifr_addr ifr + 1) else u16_at buf (ifr_addr ifr).

Definition ifr_len (buf : list Z) (ifr : nat) : M Z :=
  if have_sa_len then
    sa_len <~ byte_at buf (ifr_addr ifr) ;; mpure (Z.max SIZEOF_SOCKADDR sa_len)
  else
    family <~ ifr_family buf ifr ;;
    mpure (if ipv6 && (family =? AF_INET6) then SIZEOF_SOCKADDR_IN6 else SIZEOF_SOCKADDR).

Definition ifr_name (buf : list Z) (ifr : nat) : M cstring := checked (string_in (drop ifr buf)).

(** An address of [AF_LINK]: it is remembered for the addresses that follow. *)
Definition note_link (ifr : nat) (family : Z) (x : ifc_state) : M ifc_state :=
  if have_sockaddr_dl && (family =? AF_LINK) then
    let sdl := ifr_addr ifr in
    idx <~ sdl_index (c_buf x) sdl ;;
    nlen <~ sdl_nlen (c_buf x) sdl ;;
    alen <~ byte_at (c_buf x) (sdl + 6) ;;
    mpure (Ifc (c_buf x) (c_lastname x) (Some ifr) idx alen (Some (sdl_data sdl + Z.to_nat nlen)%nat) (c_list x))
  else mpure x.

(** [if ( (cptr = strchr(ifr->ifr_name, ':')) != NULL) *cptr = 0;] *)
Definition cut_colon (buf : list Z) (ifr : nat) : M (list Z) :=
  name <~ ifr_name buf ifr ;;
  match strchr name 58 with
  | Some i => checked (store buf (ifr + i) 0)
  | None => mpure buf
  end.

(** A copy of [size] bytes, in new memory, of the socket address at offset [off] of [b]. *)
Definition copy_addr (size : Z) (b : list Z) (off : nat) : M (Z * list Z) :=
  p <~ Calloc 1 size ;;
  d <~ checked (load b off (Z.to_nat size)) ;;
  mpure (p, d).

(** The address that [ioctl] stores in [ifrcopy], copied if [test]. *)
Definition other_addr (test : bool) (sockfd request : Z) (name : cstring) (size : Z) (ifrcopy : list Z) : M (option (Z * list Z) * list Z) :=
  if test then
    r <~ Ioctl_ifreq sockfd request name ;;
    ifrcopy <~ checked (memcpy ifrcopy 16 (rbytes r)) ;;
    d <~ copy_addr size ifrcopy 16 ;;
    mpure (Some d, ifrcopy)
  else mpure (None, ifrcopy).

(** [switch (ifr->ifr_addr.sa_family)] *)
Definition ifr_addrs (sockfd family flags : Z) (buf : list Z) (ifr : nat) (name : cstring) (ifrcopy : list Z)
    : M (option (Z * list Z) * option (Z * list Z) * option (Z * list Z)) :=
  if family =? AF_INET then
    a <~ copy_addr SIZEOF_SOCKADDR_IN buf (ifr_addr ifr) ;;
    b <~ other_addr (has_flag flags IFF_BROADCAST) sockfd SIOCGIFBRDADDR name SIZEOF_SOCKADDR_IN ifrcopy ;;
    d <~ other_addr (has_flag flags IFF_POINTOPOINT) sockfd SIOCGIFDSTADDR name SIZEOF_SOCKADDR_IN b.2 ;;
    mpure (Some a, b.1, d.1)
  else if family =? AF_INET6 then
    a <~ copy_addr SIZEOF_SOCKADDR_IN6 buf (ifr_addr ifr) ;;
    d <~ other_addr (has_flag flags IFF_POINTOPOINT) sockfd SIOCGIFDSTADDR name SIZEOF_SOCKADDR_IN6 ifrcopy ;;
    mpure (Some a, None, d.1)
  else mpure (None, None, None).

(** The new structure for an interface that is up. *)
Definition add_ifi (sockfd family flags myflags : Z) (ifr : nat) (name : cstring) (ifrcopy : list Z) (x : ifc_state) : M ifc_state :=
  p <~ Calloc 1 SIZEOF_IFI_INFO ;;
  mtu <~ (if have_ifr_mtu then r <~ Ioctl_ifreq sockfd SIOCGIFMTU name ;; mpure (hd 0 (rints r)) else mpure 0) ;;
  text <~ checked (load (c_buf x) ifr (Z.to_nat IFI_NAME)) ;;
  ifi_name <~ checked (store text (Z.to_nat IFI_NAME - 1) 0) ;;
  (* if the sockaddr_dl is from a different interface, ignore it *)
  same <~ (match c_sdlname x with
           | Some sdlname => n <~ ifr_name (c_buf x) sdlname ;; mpure (bool_decide (n = name))
           | None => mpure false
           end) ;;
  let idx := if same : bool then c_idx x else 0 in
  let hlen := if same : bool then c_hlen x else 0 in
  let ifi_hlen := if hlen >? IFI_HADDR then IFI_HADDR else hlen in
  haddr <~ (if negb (hlen =? 0) then
              off <~ checked (c_haddr x) ;;
              d <~ checked (load (c_buf x) off (Z.to_nat ifi_hlen)) ;;
              checked (memcpy (replicate (Z.to_nat IFI_HADDR) 0) 0 d)
            else mpure (replicate (Z.to_nat IFI_HADDR) 0)) ;;
  addrs <~ ifr_addrs sockfd family flags (c_buf x) ifr name ifrcopy ;;
  let '(a, b, d) := addrs in
  mpure (Ifc (c_buf x) (c_lastname x) (c_sdlname x) idx hlen (c_haddr x)
    (c_list x ++ [Ifi p ifi_name (s16 idx) (s16 mtu) haddr ifi_hlen (s16 flags) myflags a b d])).

(** The entry at [ifr]. *)
Definition ifr_entry (sockfd family doaliases : Z) (ifr : nat) (x : ifc_state) : M ifc_state :=
  fam <~ ifr_family (c_buf x) ifr ;;
  x <~ note_link ifr fam x ;;
  if negb (fam =? family) then mpure x                    (* ignore if not desired address family *)
  else
    buf <~ cut_colon (c_buf x) ifr ;;
    let x := Ifc buf (c_lastname x) (c_sdlname x) (c_idx x) (c_hlen x) (c_haddr x) (c_list x) in
    name <~ ifr_name buf ifr ;;
    same <~ checked (strncmp_eq (c_lastname x) name 16) ;;
    if same && (doaliases =? 0) then mpure x              (* already processed this interface *)
    else
      let myflags := if same : bool then IFI_ALIAS else 0 in
      lastname <~ checked (load buf ifr 16) ;;
      let x := Ifc buf lastname (c_sdlname x) (c_idx x) (c_hlen x) (c_haddr x) (c_list x) in
      ifrcopy <~ checked (load buf ifr SIZEOF_IFREQ) ;;
      r <~ Ioctl_ifreq sockfd SIOCGIFFLAGS name ;;
      let flags := s16 (hd 0 (rints r)) in
      if negb (has_flag flags IFF_UP) then mpure x        (* ignore if interface not up *)
      else add_ifi sockfd fam flags myflags ifr name ifrcopy x.

(** [for (ptr = buf; ptr < buf + ifc.ifc_len; )] *)
Fixpoint ifr_entries (fuel : nat) (sockfd family doaliases : Z) (lim ptr : nat) (x : ifc_state) : M ifc_state :=
  if (ptr <? lim)%nat then
    match fuel with
    | O => no_fuel
    | S k =>
        len <~ ifr_len (c_buf x) ptr ;;
        x <~ ifr_entry sockfd family doaliases ptr x ;;
        ifr_entries k sockfd family doaliases lim (ptr + 16 + Z.to_nat len) x
    end
  else mpure x.

Definition lib_get_ifi_info (fuel : nat) (family doaliases : Z) : M (list ifi_info) :=
  sockfd <~ Socket AF_INET SOCK_DGRAM 0 ;;
  b <~ get_ifconf fuel sockfd (100 * Z.of_nat SIZEOF_IFREQ) 0 ;;
  let '(p, buf, len) := b in
  x <~ ifr_entries (length buf) sockfd family doaliases len 0 (Ifc buf (0 :: uninit 15) None 0 0 None []) ;;
  free p ;;;
  mpure (c_list x).

Definition lib_Get_ifi_info (fuel : nat) (family doaliases : Z) : M (list ifi_info) :=
  l <~ lib_get_ifi_info fuel family doaliases ;;
  match l with [] => err_quit c["get_ifi_info error"] [] | _ => mpure l end.

End IfConf.
