(* ===== verification/IfConfFacts.v ===== *)
(** What the list of interfaces of [lib/get_ifi_info.c] is made of, on hosts with [sa_len].

    [ifentry] is an entry of the kernel's list; the first part shows that the loop over buffer sizes ends with the
    whole list, the second that each entry is taken as [note_entry] says. *)

From S2P Require Import Prelude CText Sys Traces Error Wrappers SockUtil Gai GaiFacts RobustIO Servers Packet Words.
From S2P Require Import Route RouteFacts Ifi IfiFacts IfConf.

Record ifentry : Type := Entry {
  e_name : cstring;
  e_sa : rtsa;
}.

Section Entries.
Context {CF : Config} {RH : RouteHost}.

(** Sixteen bytes of name, and the socket address, with at least sixteen bytes. *)
Definition entry_bytes (e : ifentry) : list Z :=
  (e_name e ++ replicate (16 - length (e_name e)) 0) ++ sa_bytes (e_sa e) ++ replicate (16 - length (sa_bytes (e_sa e))) 0.

Definition entry_ok (e : ifentry) : Prop :=
  nul_free (e_name e) /\ (length (e_name e) <= 15)%nat /\ sa_ok (e_sa e) /\ sa_family_of (e_sa e) <> 0 /\
  match e_sa e with
  | SaRaw f r => (f = AF_INET -> length r = 14%nat) /\ (f = AF_INET6 -> length r = 26%nat)
  | SaEmpty _ => False
  | SaLink _ _ _ _ _ => True
  end.

Definition ifc_block (es : list ifentry) : list Z := concat (entry_bytes <$> es).

(** The entries that fit in [room] bytes. *)
Fixpoint fitting (room : nat) (es : list ifentry) : list ifentry :=
  match es with
  | [] => []
  | e :: es' => if decide (length (entry_bytes e) <= room)%nat then e :: fitting (room - length (entry_bytes e)) es' else []
  end.

Lemma length_entry_bytes e : entry_ok e -> length (entry_bytes e) = (16 + Nat.max 16 (length (sa_bytes (e_sa e))))%nat.
Proof using. intros (_ & Hl & _). unfold entry_bytes. llia. Qed.

Lemma sa_bytes_length sa : sa_ok sa -> (length (sa_bytes sa) < 256)%nat.
Proof using.
  intros H. destruct sa as [i t n a pad|f r|r]; cbn in H; [rewrite length_sa_bytes_link; lia|cbn; lia|cbn; lia].
Qed.

Lemma entry_size e : entry_ok e -> (32 <= length (entry_bytes e) < 320)%nat.
Proof using. intros H. rewrite (length_entry_bytes _ H). pose proof (sa_bytes_length (e_sa e)). destruct H as (_ & _ & Hs & _). specialize (H0 Hs). lia. Qed.

Lemma ifc_block_cons e es : ifc_block (e :: es) = entry_bytes e ++ ifc_block es.
Proof using. done. Qed.

Lemma fitting_length room es : (length (ifc_block (fitting room es)) <= room)%nat.
Proof using.
  revert room. induction es as [|e es IH]; intros room; [cbn; lia|]. cbn [fitting]. case_decide; [|cbn; lia].
  rewrite ifc_block_cons, length_app. specialize (IH (room - length (entry_bytes e))%nat). lia.
Qed.

(** If [320] more bytes make no difference, all entries were there. *)
Lemma fitting_stable room es :
  Forall entry_ok es -> length (ifc_block (fitting (room + 320) es)) = length (ifc_block (fitting room es)) -> fitting room es = es.
Proof using.
  intros Hok. revert room. induction Hok as [|e es He _ IH]; intros room; [done|]. pose proof (entry_size e He) as Hs. cbn [fitting].
  rewrite decide_True by lia. case_decide as Hd.
  - rewrite !ifc_block_cons, !length_app. intros E. f_equal. apply IH.
    replace (room - length (entry_bytes e) + 320)%nat with (room + 320 - length (entry_bytes e))%nat by lia. lia.
  - rewrite ifc_block_cons, length_app. cbn. lia.
Qed.

Lemma fitting_all room es : Forall entry_ok es -> (length (ifc_block es) <= room)%nat -> fitting room es = es.
Proof using.
  intros Hok. revert room. induction Hok as [|e es He _ IH]; intros room Hl; [done|]. rewrite ifc_block_cons, length_app in Hl.
  cbn [fitting]. rewrite decide_True by lia. f_equal. apply IH. lia.
Qed.

Lemma fitting_none room es : Forall entry_ok es -> (320 <= room)%nat -> length (ifc_block (fitting room es)) = 0%nat -> es = [].
Proof using.
  intros Hok Hr. destruct es as [|e es]; [done|]. apply Forall_cons in Hok as [He _]. pose proof (entry_size e He). cbn [fitting].
  rewrite decide_True by lia. rewrite ifc_block_cons, length_app. lia.
Qed.
End Entries.

(** * The kernel *)

(** The entries, and what the kernel knows of an interface. *)
Record iftable : Type := IfTable {
  t_entries : list ifentry;
  t_flags : cstring -> Z;
  t_mtu : cstring -> Z;
  t_brd : cstring -> list Z;
  t_dst : cstring -> list Z;
}.

(** [ioctl] stores the entries that fit, and [EINVAL] means that not all do; the calls for one interface store what
    the kernel knows of it, an address in sixteen bytes. *)
Class IfconfLaw {os : OS} {CF : Config} {RH : RouteHost} (T : iftable) : Prop := {
  ifconf_ok : Forall entry_ok (t_entries T);
  ifconf_law : forall h fd len, 0 <= len -> let r := os_answer h (sys_ioctl fd SIOCGIFCONF len) in
    (0 <= rv r -> rbytes r = ifc_block (fitting (Z.to_nat len) (t_entries T)) /\ rints r = [Z.of_nat (length (rbytes r))]) /\
    (rv r < 0 -> exists e, rerrno r = Some e /\ (e = EINVAL -> len < Z.of_nat (length (ifc_block (t_entries T)))));
  ifreq_law : forall h fd name,
    (rv (os_answer h (sys_ioctl_ifreq fd SIOCGIFFLAGS name)) <> -1 -> rints (os_answer h (sys_ioctl_ifreq fd SIOCGIFFLAGS name)) = [t_flags T name]) /\
    (rv (os_answer h (sys_ioctl_ifreq fd SIOCGIFMTU name)) <> -1 -> rints (os_answer h (sys_ioctl_ifreq fd SIOCGIFMTU name)) = [t_mtu T name]) /\
    (rv (os_answer h (sys_ioctl_ifreq fd SIOCGIFBRDADDR name)) <> -1 -> rbytes (os_answer h (sys_ioctl_ifreq fd SIOCGIFBRDADDR name)) = t_brd T name) /\
    (rv (os_answer h (sys_ioctl_ifreq fd SIOCGIFDSTADDR name)) <> -1 -> rbytes (os_answer h (sys_ioctl_ifreq fd SIOCGIFDSTADDR name)) = t_dst T name);
  ifaddr_size : forall name, length (t_brd T name) = 16%nat /\ length (t_dst T name) = 16%nat;
}.

Section Buffer.
Context {os : OS} {SE : Strerror} {CF : Config} {RH : RouteHost} {UL : UninitLaw} {IC : IfConfig}.
Context (T : iftable) {KL : IfconfLaw T} (T0 : list event).
Hypothesis ifreq_size : SIZEOF_IFREQ = 32%nat.

Abbreviation stage Q := (ends anything never Q).
Abbreviation holding := (IfiFacts.holding T0).

(** Calls that neither allocate nor free. *)
Lemma holding_after H c r s : alloc_data (c, r) = [] -> free_data (c, r) = [] -> holding H s -> holding H (after c r s).
Proof using.
  intros E1 E2 (Hd & evs & Ht & Ha). split; [done|]. exists ((c, r) :: evs). split; [cbn; by rewrite Ht|].
  unfold allocated, freed in *. rewrite !collect_cons, E1, E2, !app_nil_r. done.
Qed.

Lemma Malloc_holding size H s : holding H s -> wp (Malloc size) (stage (fun p s' => holding (p :: H) s')) s.
Proof using.
  intros (Hd & evs & Ht & Ha). unfold Malloc.
  apply (ends_then _ _ _ _ (fun r s' => holding (rv r :: H) s')); [|by intros r s' Hh].
  apply (ends_call _ _ anything_output); [done|done|done|]. unfold null. intros Hz. split; [done|].
  eexists (_ :: evs). split; [cbn; by rewrite Ht|]. unfold allocated, freed in *. rewrite !collect_cons, Ha. cbn. unfold alloc_data. cbn. rewrite Hz. cbn.
  rewrite app_nil_r, <- app_assoc. f_equiv. by rewrite Permutation_app_comm.
Qed.

Abbreviation full := (length (ifc_block (t_entries T))).

Definition enough (fuel : nat) (len lastlen : Z) : Prop :=
  (2 <= fuel)%nat /\ Z.of_nat full + 640 <= len + 320 * Z.of_nat fuel \/
  (1 <= fuel)%nat /\ lastlen = Z.of_nat full /\ Z.of_nat full + 320 <= len.

(** The loop ends with the whole list in the buffer; it makes at most one call for each [320] bytes of the list from
    the size that it starts with on, and two more. *)
Lemma get_ifconf_ok fuel sockfd len lastlen H s :
  3200 <= len ->
  (lastlen = 0 \/ 3520 <= len /\ lastlen = Z.of_nat (length (ifc_block (fitting (Z.to_nat (len - 320)) (t_entries T))))) ->
  enough fuel len lastlen -> holding H s ->
  wp (get_ifconf fuel sockfd len lastlen)
    (stage (fun b s' => let '(p, buf, n) := b in holding (p :: H) s' /\ n = full /\ exists tail, buf = ifc_block (t_entries T) ++ tail)) s.
Proof using All.
  revert len lastlen s. induction fuel as [|fuel IH]; intros len lastlen s Hlen Hlast Hfuel Hh; [unfold enough in Hfuel; lia|]. cbn [get_ifconf].
  apply (ends_then _ _ _ _ (fun p s' => holding (p :: H) s')); [by apply Malloc_holding|]. intros p s1 H1.
  apply wp_then, wp_sys. cbn [andthen]. destruct (ifconf_law (T := T) (trace s1) sockfd len ltac:(lia)) as [Hok Herr].
  fold (answer (sys_ioctl sockfd SIOCGIFCONF len) s1) in Hok, Herr. set (r := answer _ s1) in *. set (s2 := after _ r s1).
  assert (H2 : holding (p :: H) s2) by (by apply holding_after). cbv zeta. rewrite ifreq_size.
  assert (Hagain : forall last', (last' = 0 \/ last' = Z.of_nat (length (ifc_block (fitting (Z.to_nat len) (t_entries T))))) ->
    enough fuel (len + 320) last' ->
    wp (free p ;;; get_ifconf fuel sockfd (len + 10 * Z.of_nat 32) last')
      (stage (fun b s' => let '(p, buf, n) := b in holding (p :: H) s' /\ n = full /\ exists tail, buf = ifc_block (t_entries T) ++ tail)) s2).
  { intros last' Hl' Hf'. apply (ends_then _ _ _ _ (fun _ s' => holding H s')); [by apply free_holding|]. intros ? s3 H3.
    change (10 * Z.of_nat 32) with 320. apply IH; [lia| |exact Hf'|done]. destruct Hl' as [->| ->]; [by left|]. right. split; [lia|]. do 4 f_equal. lia. }
  destruct (Z.ltb_spec (rv r) 0) as [Hneg|Hpos].
  - destruct (Herr Hneg) as (e & Ee & Hinv). apply wp_then. unfold wp, get_errno. cbn [andthen].
    assert (Es : errno s2 = e) by (unfold s2, after; cbn; by rewrite Ee). rewrite Es.
    destruct (Z.eqb_spec e EINVAL) as [->|Hne]; cbn [negb orb].
    2: { apply (ends_err_sys _ _ anything_output); [done|apply H2|done]. }
    destruct (Z.eqb_spec lastlen 0) as [->|Hl0]; cbn [negb].
    2: { apply (ends_err_sys _ _ anything_output); [done|apply H2|done]. }
    apply Hagain; [by left|]. specialize (Hinv eq_refl). unfold enough in *. lia.
  - destruct (Hok Hpos) as (Hb & Hi). rewrite Hi. cbn [hd]. rewrite Hb.
    set (got := length (ifc_block (fitting (Z.to_nat len) (t_entries T)))).
    destruct (Z.eqb_spec (Z.of_nat got) lastlen) as [El|El].
    + assert (Hall : fitting (Z.to_nat len) (t_entries T) = t_entries T).
      { destruct Hlast as [->|[Hl3 Hl4]].
        - assert (E0 : t_entries T = []) by (apply (fitting_none (Z.to_nat len)); [apply ifconf_ok|lia|unfold got in El; lia]). by rewrite E0.
        - rewrite <- El in Hl4. apply Nat2Z.inj in Hl4. assert (Ee : fitting (Z.to_nat (len - 320)) (t_entries T) = t_entries T).
          { apply fitting_stable; [apply ifconf_ok|]. rewrite <- Hl4. unfold got. do 3 f_equal. lia. }
          apply fitting_all; [apply ifconf_ok|]. pose proof (fitting_length (Z.to_nat (len - 320)) (t_entries T)) as Hf. rewrite Ee in Hf. lia. }
      pose proof (fitting_length (Z.to_nat len) (t_entries T)) as Hfl.
      rewrite memcpy_ok by (rewrite uninit_law; lia). cbn [checked]. rewrite then_pure. apply ends_pure. split; [done|].
      unfold got. rewrite Hall, Nat2Z.id. split; [done|]. eexists. cbn [take app]. done.
    + apply Hagain; [by right|]. fold got. pose proof (fitting_length (Z.to_nat len) (t_entries T)) as Hfl. fold got in Hfl.
      unfold enough in *. destruct (Z.le_gt_cases (Z.of_nat full) len) as [Hle|Hgt]; [|lia].
      assert (Hall : fitting (Z.to_nat len) (t_entries T) = t_entries T) by (apply fitting_all; [apply ifconf_ok|lia]).
      assert (Eg : got = full) by (unfold got; by rewrite Hall). lia.
Qed.
End Buffer.

(** * The entries of the interface list, one by one

    [note_entry] says what an entry adds to the list, without buffers and memory; the lemmas show that the
    function follows it. *)

(** The name of the interface of the last entry, the last address of the link layer with the name of its interface,
    its index and the hardware address, and the list. *)
Record ifseen : Type := Seen {
  v_last : cstring;
  v_link : option (cstring * Z * list Z);
  v_infos : list info;
}.

(** [eth0:1] is an alias of [eth0]. *)
Definition before_colon (n : cstring) : cstring := match strchr n 58 with Some i => take i n | None => n end.

Definition see_link (e : ifentry) (v : ifseen) : ifseen :=
  match e_sa e with
  | SaLink i _ _ a _ => Seen (v_last v) (Some (e_name e, i, a)) (v_infos v)
  | _ => v
  end.

(** The hardware address counts only for the interface that it came with. *)
Definition link_for (n : cstring) (l : option (cstring * Z * list Z)) : option (cstring * Z * list Z) :=
  match l with
  | Some (ln, i, hw) => if decide (ln = n) then Some (ln, i, hw) else Some (ln, 0, [])
  | None => None
  end.
Definition link_index (l : option (cstring * Z * list Z)) : Z := match l with Some (_, i, _) => i | None => 0 end.
Definition link_hw (l : option (cstring * Z * list Z)) : list Z := match l with Some (_, _, hw) => hw | None => [] end.

Section Spec.
Context {CF : Config} {IC : IfConfig} (T : iftable) (family doaliases : Z).

Definition new_info (e : ifentry) (n : cstring) (alias : bool) (l : option (cstring * Z * list Z)) : info :=
  let flags := s16 (t_flags T n) in
  let v4 test := (family =? AF_INET) && has_flag flags test in
  Info n (s16 (link_index l)) (if have_ifr_mtu then s16 (t_mtu T n) else s16 0) (take 8 (link_hw l)) (s16 flags) (if alias then IFI_ALIAS else 0)
    (Some (sa_bytes (e_sa e))) (if v4 IFF_BROADCAST then Some (t_brd T n) else None) (if v4 IFF_POINTOPOINT then Some (t_dst T n) else None).

Definition note_entry (e : ifentry) (v : ifseen) : option ifseen :=
  let v := see_link e v in
  if sa_family_of (e_sa e) =? family then
    let n := before_colon (e_name e) in
    let alias := bool_decide (v_last v = n) in
    if alias && (doaliases =? 0) then Some v
    else if negb (has_flag (s16 (t_flags T n)) IFF_UP) then Some (Seen n (v_link v) (v_infos v))
    else if (family =? AF_INET6) && has_flag (s16 (t_flags T n)) IFF_POINTOPOINT then None
    else let l := link_for n (v_link v) in Some (Seen n l (v_infos v ++ [new_info e n alias l]))
  else Some v.

Fixpoint note_all (es : list ifentry) (v : ifseen) : option ifseen :=
  match es with
  | [] => Some v
  | e :: es' => v' ← note_entry e v; note_all es' v'
  end.
End Spec.

(** * Names in the buffer *)

(** Sixteen bytes that hold the name [n]. *)
Definition name_field (n : cstring) (b : list Z) : Prop := nul_free n /\ length b = 16%nat /\ exists pad, b = n ++ 0 :: pad.

Lemma name_field_entry n : nul_free n -> (length n <= 15)%nat -> name_field n (n ++ replicate (16 - length n) 0).
Proof.
  intros Hn Hl. split; [done|]. split; [llia|]. exists (replicate (15 - length n) 0). by replace (16 - length n)%nat with (S (15 - length n)) by lia.
Qed.

Lemma name_field_string n b front post : name_field n b -> string_in (drop (length front) (front ++ b ++ post)) = Some n.
Proof.
  intros (Hn & _ & pad & ->). rewrite drop_app_length. rewrite <- app_assoc. cbn. by apply string_in_text.
Qed.

Lemma name_field_load n b front post : name_field n b -> load (front ++ b ++ post) (length front) 16 = Some b.
Proof. intros (_ & Hl & _). rewrite <- (Nat.add_0_r (length front)), load_app_r, <- Hl. apply load_front. Qed.

Lemma strncmp_names a b n m k : name_field a b -> nul_free n -> (length n <= 15)%nat -> m = 16%nat -> k = n -> strncmp_eq b k m = Some (bool_decide (a = n)).
Proof.
  intros (Ha & Hl & pad & ->) Hn Hln -> ->. rewrite length_app in Hl. cbn in Hl. assert (Hla : (length a <= 15)%nat) by lia. clear Hl.
  assert (H : forall m, (length a < m)%nat -> (length n < m)%nat -> strncmp_eq (a ++ 0 :: pad) n m = Some (bool_decide (a = n))); [|apply H; lia].
  clear Hla Hln. revert n Hn. induction Ha as [|x a Hx _ IH]; intros n Hn m Hm1 Hm2; (destruct m as [|m]; [cbn in *; lia|]); cbn [app strncmp_eq].
  - destruct n as [|y n]; [done|]. apply Forall_cons in Hn as [Hy _]. cbn [hd]. destruct (Z.eqb_spec 0 y); [congruence|].
    by rewrite bool_decide_eq_false_2.
  - destruct n as [|y n]; cbn [hd tl].
    + rewrite (proj2 (Z.eqb_neq x 0) Hx). by rewrite bool_decide_eq_false_2.
    + apply Forall_cons in Hn as [Hy Hn]. destruct (Z.eqb_spec x y) as [->|Hxy].
      * rewrite (proj2 (Z.eqb_neq y 0) Hy), IH by (done || cbn in *; lia). f_equal. apply bool_decide_ext. split; congruence.
      * symmetry. f_equal. apply bool_decide_eq_false. congruence.
Qed.

Lemma strchr_spec n c i : strchr n c = Some i -> exists n2, n = take i n ++ c :: n2 /\ (i < length n)%nat.
Proof.
  revert i. induction n as [|x n IH]; intros i H; [done|]. cbn in H. destruct (Z.eqb_spec x c) as [->|Hx].
  - injection H as <-. exists n. split; [done|cbn; lia].
  - destruct (strchr n c) as [j|]; [|done]. injection H as <-. destruct (IH j eq_refl) as (n2 & E & Hl). exists n2. cbn. split; [by rewrite <- E|lia].
Qed.

Section Cut.
Context {os : OS} {SE : Strerror} {CF : Config} {RH : RouteHost}.

Lemma cut_colon_ok n b front post s :
  name_field n b -> exists b', cut_colon (front ++ b ++ post) (length front) s = (Val (front ++ b' ++ post), s) /\ name_field (before_colon n) b'.
Proof using.
  intros Hf. unfold cut_colon, ifr_name. rewrite (name_field_string _ _ _ _ Hf). cbn [checked]. rewrite then_pure. unfold before_colon.
  destruct (strchr n 58) as [i|] eqn:E; [|by exists b]. destruct (strchr_spec _ _ _ E) as (n2 & En & Hi).
  destruct Hf as (Hn & Hl & pad & Eb). unfold store. rewrite decide_True by (rewrite !length_app; subst b; rewrite !length_app in *; cbn in *; lia).
  cbn [checked]. exists (<[i := 0]> b). split.
  - unfold mpure. do 2 f_equal. rewrite insert_app_r_alt by lia. replace (length front + i - length front)%nat with i by lia.
    rewrite insert_app_l; [done|]. subst b. rewrite length_app in *. cbn in *. lia.
  - split; [by apply Forall_take|]. split; [by rewrite length_insert|]. exists (n2 ++ 0 :: pad). rewrite Eb.
    rewrite En at 1. rewrite <- app_assoc. cbn [app]. assert (Ht : length (take i n) = i) by llia. rewrite <- Ht at 1. apply insert_at_length.
Qed.
End Cut.

(** * One entry *)

Section Steps.
Context {os : OS} {SE : Strerror} {CF : Config} {RH : RouteHost} {IC : IfConfig}.
Context (T : iftable) {KL : IfconfLaw T} (T0 : list event) (B tail : list Z) (sockfd family doaliases : Z).
Hypothesis ifreq_size : SIZEOF_IFREQ = 32%nat.
Hypothesis sa_len : have_sa_len = true.
Hypothesis sockaddr_dl : have_sockaddr_dl = true.
Hypothesis inet : family = AF_INET \/ family = AF_INET6.

Abbreviation stage Q := (ends anything never Q).
Abbreviation holding := (IfiFacts.holding T0).

(** The address of the link layer is in the part of the buffer that has been passed. *)
Definition link_rel (front : list Z) (x : ifc_state) (l : option (cstring * Z * list Z)) : Prop :=
  match l with
  | None => c_sdlname x = None
  | Some (ln, i, hw) => nul_free ln /\ c_idx x = i /\ c_hlen x = Z.of_nat (length hw) /\
      (exists f1 f2, front = f1 ++ ln ++ 0 :: f2 /\ c_sdlname x = Some (length f1)) /\
      (hw = [] \/ exists g1 g2, front = g1 ++ hw ++ g2 /\ c_haddr x = Some (length g1))
  end.

(** The state after the bytes [front], with the entries [rest] to come. *)
Definition stands (front : list Z) (rest : list ifentry) (x : ifc_state) (v : ifseen) (s : st) : Prop :=
  c_buf x = front ++ ifc_block rest ++ tail /\ name_field (v_last v) (c_lastname x) /\ link_rel front x (v_link v) /\
  abs <$> c_list x = v_infos v /\ holding (owned_list (c_list x) ++ B) s.

Lemma link_rel_more front more x l : link_rel front x l -> link_rel (front ++ more) x l.
Proof using All.
  destruct l as [[[ln i] hw]|]; [|done]. intros (H1 & H2 & H3 & (f1 & f2 & -> & H5) & H6). split_and!; try done.
  - exists f1, (f2 ++ more). split; [|done]. by rewrite <- !app_assoc.
  - destruct H6 as [->|(g1 & g2 & E & H7)]; [by left|]. right. exists g1, (g2 ++ more). split; [|done]. rewrite E. by rewrite <- !app_assoc.
Qed.

(** The parts of an entry in the buffer. *)
Lemma entry_parts front e rest post : 
  entry_ok e -> let nb := e_name e ++ replicate (16 - length (e_name e)) 0 in
  let sp := sa_bytes (e_sa e) ++ replicate (16 - length (sa_bytes (e_sa e))) 0 in
  front ++ ifc_block (e :: rest) ++ post = front ++ nb ++ sp ++ ifc_block rest ++ post /\ name_field (e_name e) nb.
Proof using All.
  intros (Hn & Hl & _). cbv zeta. split; [|by apply name_field_entry]. rewrite ifc_block_cons. unfold entry_bytes. by rewrite <- !app_assoc.
Qed.

(** The socket address behind sixteen bytes of name. *)
Lemma sa_behind front nb sa fill post :
  length nb = 16%nat -> exists pre post', front ++ nb ++ (sa_bytes sa ++ fill) ++ post = pre ++ sa_bytes sa ++ post' /\ length pre = (length front + 16)%nat.
Proof using All. intros Hl. exists (front ++ nb), (fill ++ post). split; [by rewrite <- !app_assoc|llia]. Qed.

Lemma ifr_family_ok front nb e fill post s :
  entry_ok e -> length nb = 16%nat ->
  ifr_family (front ++ nb ++ (sa_bytes (e_sa e) ++ fill) ++ post) (length front) s = (Val (sa_family_of (e_sa e)), s).
Proof using All.
  intros (_ & _ & Hs & _) Hl. destruct (sa_behind front nb (e_sa e) fill post Hl) as (pre & post' & -> & Hp).
  unfold ifr_family, ifr_addr, byte_at. rewrite sa_len, <- Hp, sa_family_at by done. done.
Qed.

Lemma ifr_len_ok front nb e fill post s :
  entry_ok e -> length nb = 16%nat ->
  ifr_len (front ++ nb ++ (sa_bytes (e_sa e) ++ fill) ++ post) (length front) s = (Val (Z.of_nat (Nat.max 16 (length (sa_bytes (e_sa e))))), s).
Proof using All.
  intros (_ & _ & Hs & _ & Hk) Hl. destruct (sa_behind front nb (e_sa e) fill post Hl) as (pre & post' & -> & Hp).
  unfold ifr_len, ifr_addr, byte_at. rewrite sa_len, <- Hp, length_byte by done. cbn [checked]. rewrite then_pure. unfold SIZEOF_SOCKADDR, mpure. do 2 f_equal.
  destruct (e_sa e); [cbn [copied]; lia|cbn [copied]; lia|done].
Qed.

(** ** The address of the link layer *)

Lemma note_link_ok front nb e fill post x v s :
  entry_ok e -> name_field (e_name e) nb -> c_buf x = front ++ nb ++ (sa_bytes (e_sa e) ++ fill) ++ post -> link_rel front x (v_link v) ->
  exists x', note_link (length front) (sa_family_of (e_sa e)) x s = (Val x', s) /\
    c_buf x' = c_buf x /\ c_lastname x' = c_lastname x /\ c_list x' = c_list x /\
    link_rel (front ++ nb ++ sa_bytes (e_sa e)) x' (v_link (see_link e v)) /\
    (sa_family_of (e_sa e) <> AF_LINK -> x' = x /\ see_link e v = v).
Proof using All.
  intros (_ & _ & Hs & _ & Hk) Hnf Eb Hl. unfold note_link, see_link. rewrite sockaddr_dl. cbn [andb].
  destruct (e_sa e) as [i t n a pad|f r|r] eqn:Es; [| |done].
  - cbn [sa_family_of]. rewrite Z.eqb_refl. destruct Hnf as (Hnn & Hl16 & pad' & Enb).
    destruct (sa_behind front nb (SaLink i t n a pad) fill post Hl16) as (pre & post' & E & Hp).
    assert (Hat : link_at (c_buf x) (ifr_addr (length front)) i n) by (rewrite Eb, E; by exists pre, t, a, pad, post').
    destruct (link_fields _ _ _ _ s Hat) as (Hi & Hn & _). rewrite (then_val _ _ _ _ _ Hi), (then_val _ _ _ _ _ Hn).
    assert (Hal : byte_at (c_buf x) (ifr_addr (length front) + 6) s = (Val (Z.of_nat (length a)), s)).
    { unfold byte_at, ifr_addr. rewrite Eb, E, <- Hp, at_offset by (rewrite length_sa_bytes_link; lia). cbn [sa_bytes].
      rewrite app_assoc, lookup_app_r by (rewrite length_app, length_uint_bytes; cbn; lia). by rewrite length_app, length_uint_bytes. }
    rewrite (then_val _ _ _ _ _ Hal). eexists. split; [done|]. cbn [c_buf c_lastname c_list v_link]. split_and!; try done.
    cbn [c_idx c_hlen c_sdlname c_haddr]. split_and!; try done.
    + exists front, (pad' ++ sa_bytes (SaLink i t n a pad)). split; [|done]. rewrite Enb, <- !app_assoc. done.
    + right. exists (front ++ nb ++ [8 + Z.of_nat (length (n ++ a ++ pad)); AF_LINK] ++ uint_bytes little_endian 2 i ++ [t; Z.of_nat (length n); Z.of_nat (length a); 0] ++ n), pad.
      split; [cbn [sa_bytes]; by rewrite <- !app_assoc|]. cbn [c_haddr]. f_equal. unfold sdl_data, ifr_addr. rewrite !length_app, length_uint_bytes, Hl16, Nat2Z.id. cbn [length]. lia.
  - destruct Hs as [_ Hf]. cbn [sa_family_of]. rewrite (proj2 (Z.eqb_neq f AF_LINK) Hf). exists x. split_and!; try done. by apply link_rel_more.
Qed.

(** ** The other calls *)

Lemma Ioctl_ifreq_ok request name H s :
  holding H s ->
  wp (Ioctl_ifreq sockfd request name) (stage (fun r s' => (exists h, r = os_answer h (sys_ioctl_ifreq sockfd request name) /\ rv r <> -1) /\ holding H s')) s.
Proof using All.
  intros Hh. unfold Ioctl_ifreq. apply (ends_call _ _ anything_output); [done|apply Hh|done|]. unfold minus1. intros Hz%Z.eqb_neq.
  split; [by exists (trace s)|]. by apply holding_after.
Qed.

Lemma copy_addr_ok size b off d H s :
  load b off (Z.to_nat size) = Some d -> holding H s ->
  wp (copy_addr size b off) (stage (fun r s' => r.2 = d /\ holding (r.1 :: H) s')) s.
Proof using All.
  intros E Hh. unfold copy_addr. apply (ends_then _ _ _ _ (fun p s' => holding (p :: H) s')); [by apply Calloc_holding|].
  intros p s1 H1. rewrite E. cbn [checked]. rewrite then_pure. by apply ends_pure.
Qed.

Lemma other_addr_ok test request name ifrcopy d H s :
  (forall h, rv (os_answer h (sys_ioctl_ifreq sockfd request name)) <> -1 -> rbytes (os_answer h (sys_ioctl_ifreq sockfd request name)) = d) ->
  length d = 16%nat -> length ifrcopy = 32%nat -> holding H s ->
  wp (other_addr test sockfd request name SIZEOF_SOCKADDR_IN ifrcopy)
    (stage (fun r s' => snd <$> r.1 = (if test then Some d else None) /\ length r.2 = 32%nat /\ holding (ptr r.1 ++ H) s')) s.
Proof using All.
  intros Hd Hl Hc Hh. unfold other_addr. destruct test; [|by apply ends_pure].
  eapply ends_then; [by apply Ioctl_ifreq_ok|]. cbv beta. intros r s1 [(h & -> & Hr) H1]. rewrite (Hd h Hr), memcpy_ok by lia. cbn [checked]. rewrite then_pure.
  set (c := take 16 ifrcopy ++ d ++ _). assert (Hlc : length c = 32%nat) by (unfold c; llia).
  assert (E : load c 16 (Z.to_nat SIZEOF_SOCKADDR_IN) = Some d).
  { unfold c. assert (Ht : length (take 16 ifrcopy) = 16%nat) by llia. pose proof (load_app_r (take 16 ifrcopy) (d ++ drop (16 + length d) ifrcopy) 0 16) as HL.
    rewrite Ht in HL. change (16 + 0)%nat with 16%nat in HL. change (Z.to_nat SIZEOF_SOCKADDR_IN) with 16%nat. rewrite HL, <- Hl. apply load_front. }
  apply (ends_then _ _ _ _ (fun r s' => r.2 = d /\ holding (r.1 :: H) s')); [by apply copy_addr_ok|]. intros [p b] s2 [Eb H2]. cbn in Eb. subst b. by apply ends_pure.
Qed.

(** The addresses of an entry of the family that is asked for. *)
Lemma ifr_addrs_ok front nb e fill post flags name ifrcopy H s :
  entry_ok e -> length nb = 16%nat -> sa_family_of (e_sa e) = family -> length ifrcopy = 32%nat ->
  (family =? AF_INET6) && has_flag flags IFF_POINTOPOINT = false -> holding H s ->
  wp (ifr_addrs sockfd family flags (front ++ nb ++ (sa_bytes (e_sa e) ++ fill) ++ post) (length front) name ifrcopy)
    (stage (fun r s' => let '(a, b, d) := r in snd <$> a = Some (sa_bytes (e_sa e)) /\
       snd <$> b = (if (family =? AF_INET) && has_flag flags IFF_BROADCAST then Some (t_brd T name) else None) /\
       snd <$> d = (if (family =? AF_INET) && has_flag flags IFF_POINTOPOINT then Some (t_dst T name) else None) /\
       holding (ptr a ++ ptr b ++ ptr d ++ H) s')) s.
Proof using All.
  intros (_ & _ & Hs & _ & Hk) Hl Hfam Hc Hp2p Hh. destruct (sa_behind front nb (e_sa e) fill post Hl) as (pre & post' & -> & Hp).
  destruct (e_sa e) as [i t n a pad|f r|r] eqn:Es; [|clear Hs|done].
  { cbn in Hfam. exfalso. unfold AF_LINK, AF_INET, AF_INET6 in *. lia. }
  cbn in Hfam. subst f. destruct Hk as [K4 K6]. unfold ifr_addrs, ifr_addr. rewrite <- Hp.
  assert (Hload : forall k, (2 + length r)%nat = k -> load (pre ++ sa_bytes (SaRaw family r) ++ post') (length pre) k = Some (sa_bytes (SaRaw family r))).
  { intros k <-. rewrite <- (Nat.add_0_r (length pre)), load_app_r. exact (load_front (sa_bytes (SaRaw family r)) post'). }
  assert (Kl : forall h, (rv (os_answer h (sys_ioctl_ifreq sockfd SIOCGIFBRDADDR name)) <> -1 -> rbytes (os_answer h (sys_ioctl_ifreq sockfd SIOCGIFBRDADDR name)) = t_brd T name) /\
    (rv (os_answer h (sys_ioctl_ifreq sockfd SIOCGIFDSTADDR name)) <> -1 -> rbytes (os_answer h (sys_ioctl_ifreq sockfd SIOCGIFDSTADDR name)) = t_dst T name)).
  { intros h. destruct (ifreq_law (T := T) h sockfd name) as (_ & _ & ? & ?). done. }
  destruct (ifaddr_size (T := T) name) as [Lb Ld]. destruct (Z.eqb_spec family AF_INET) as [E4|E4].
  - apply (ends_then _ _ _ _ (fun r0 s' => r0.2 = sa_bytes (SaRaw family r) /\ holding (r0.1 :: H) s')).
    { apply copy_addr_ok; [|done]. apply Hload. rewrite K4 by done. done. }
    intros [pa ba] s1 [Eba H1]. cbn [fst snd] in *. subst ba.
    eapply ends_then; [apply (other_addr_ok _ SIOCGIFBRDADDR name ifrcopy (t_brd T name) (pa :: H)); [apply Kl|done|done|done]|]. cbv beta.
    intros [b c1] s2 (Eb & Lc & H2). cbn [fst snd] in *.
    eapply ends_then; [apply (other_addr_ok _ SIOCGIFDSTADDR name c1 (t_dst T name) (ptr b ++ pa :: H)); [apply Kl|done|done|done]|]. cbv beta.
    intros [d c2] s3 (Ed & _ & H3). cbn [fst snd] in *. apply ends_pure. split_and!; [done|done|done|]. eapply holding_perm; [|exact H3]. cbn [ptr app]. solve_Permutation.
  - assert (E6 : family = AF_INET6) by tauto. rewrite (proj2 (Z.eqb_eq _ _) E6) in Hp2p |- *. cbn [andb] in Hp2p |- *. rewrite Hp2p.
    apply (ends_then _ _ _ _ (fun r0 s' => r0.2 = sa_bytes (SaRaw family r) /\ holding (r0.1 :: H) s')).
    { apply copy_addr_ok; [|done]. apply Hload. rewrite K6 by done. done. }
    intros [pa ba] s1 [Eba H1]. cbn [fst snd other_addr] in *. subst ba. rewrite then_pure. by apply ends_pure.
Qed.

(** The hardware address for an interface, if it is known. *)
Lemma link_known front x l n post s :
  link_rel front x l -> c_buf x = front ++ post ->
  (match c_sdlname x with
   | Some sdlname => m <~ ifr_name (c_buf x) sdlname ;; mpure (bool_decide (m = n))
   | None => mpure false
   end) s = (Val (match l with Some (ln, _, _) => bool_decide (ln = n) | None => false end), s).
Proof using All.
  intros Hl Eb. destruct l as [[[ln i] hw]|]; cbn in Hl; [|by rewrite Hl].
  destruct Hl as (Hn & _ & _ & (f1 & f2 & Ef & Es) & _). rewrite Es. unfold ifr_name.
  rewrite Eb, Ef, <- !app_assoc, drop_app_length. cbn [app]. rewrite string_in_text by done. done.
Qed.

Lemma hw_copied front x l n post s :
  link_rel front x l -> c_buf x = front ++ post ->
  let same := match l with Some (ln, _, _) => bool_decide (ln = n) | None => false end in
  let hlen := if same : bool then c_hlen x else 0 in
  let ifi_hlen := if hlen >? IFI_HADDR then IFI_HADDR else hlen in
  hlen = Z.of_nat (length (link_hw (link_for n l))) /\
  exists h, (if negb (hlen =? 0) then
      off <~ checked (c_haddr x) ;; d <~ checked (load (c_buf x) off (Z.to_nat ifi_hlen)) ;; checked (memcpy (replicate (Z.to_nat IFI_HADDR) 0) 0 d)
    else mpure (replicate (Z.to_nat IFI_HADDR) 0)) s = (Val h, s) /\
    take (Z.to_nat (Z.min IFI_HADDR ifi_hlen)) h = take 8 (link_hw (link_for n l)).
Proof using All.
  intros Hl Eb. cbv zeta. assert (Hzero : link_hw (link_for n l) = [] -> forall z, z = 0 ->
    z = Z.of_nat (length (link_hw (link_for n l))) /\ exists h, (if negb (z =? 0) then off <~ checked (c_haddr x) ;;
      d <~ checked (load (c_buf x) off (Z.to_nat (if z >? IFI_HADDR then IFI_HADDR else z))) ;; checked (memcpy (replicate (Z.to_nat IFI_HADDR) 0) 0 d)
      else mpure (replicate (Z.to_nat IFI_HADDR) 0)) s = (Val h, s) /\ take (Z.to_nat (Z.min IFI_HADDR (if z >? IFI_HADDR then IFI_HADDR else z))) h = take 8 (link_hw (link_for n l))).
  { intros E z ->. rewrite E. split; [done|]. eexists. split; [done|]. done. }
  destruct l as [[[ln i] hw]|]; cbn in Hl; [|by apply Hzero]. cbn [link_for] in *.
  destruct (decide (ln = n)) as [->|Hne]; [|rewrite (bool_decide_eq_false_2 _ Hne); by apply Hzero].
  rewrite (bool_decide_eq_true_2 (n = n)) by done. cbn [link_hw] in *. destruct Hl as (_ & _ & -> & _ & Hg).
  destruct (decide (hw = [])) as [->|Hne]; [by apply Hzero|]. destruct Hg as [|(g1 & g2 & Ef & ->)]; [done|].
  assert (Hpos : (1 <= length hw)%nat) by (destruct hw; [done|cbn; lia]). split; [done|].
  rewrite (proj2 (Z.eqb_neq (Z.of_nat (length hw)) 0)) by lia. cbn [negb checked]. rewrite then_pure. unfold IFI_HADDR.
  set (k := if Z.of_nat (length hw) >? 8 then 8 else Z.of_nat (length hw)).
  assert (Hk : 1 <= k <= 8 /\ k <= Z.of_nat (length hw) /\ (k = 8 \/ k = Z.of_nat (length hw))) by (unfold k; destruct (Z.gtb_spec (Z.of_nat (length hw)) 8); lia).
  assert (E : load (c_buf x) (length g1) (Z.to_nat k) = Some (take (Z.to_nat k) hw)).
  { rewrite Eb, Ef, <- !app_assoc, <- (Nat.add_0_r (length g1)), load_app_r, load_app_l, load_ok by lia. by rewrite drop_0. }
  rewrite E. cbn [checked]. rewrite then_pure, memcpy_ok by (rewrite length_take, length_replicate; lia). eexists. split; [done|].
  rewrite take_0, app_nil_l, Z.min_r by lia. rewrite take_app_le by (rewrite length_take; lia). rewrite take_take, Nat.min_id.
  destruct Hk as (Hk8 & _ & [E8|E8]); rewrite E8; [done|]. rewrite Nat2Z.id. rewrite !take_ge by lia. done.
Qed.

Lemma add_ifi_ok front nb e fill post x v n alias s :
  let flags := s16 (t_flags T n) in
  entry_ok e -> name_field n nb -> sa_family_of (e_sa e) = family ->
  (family =? AF_INET6) && has_flag flags IFF_POINTOPOINT = false ->
  c_buf x = front ++ nb ++ (sa_bytes (e_sa e) ++ fill) ++ post -> link_rel front x (v_link v) ->
  abs <$> c_list x = v_infos v -> holding (owned_list (c_list x) ++ B) s ->
  forall ifrcopy, length ifrcopy = 32%nat ->
  wp (add_ifi sockfd family flags (if alias : bool then IFI_ALIAS else 0) (length front) n ifrcopy x)
    (stage (fun x' s' => c_buf x' = c_buf x /\ c_lastname x' = c_lastname x /\ link_rel front x' (link_for n (v_link v)) /\
       abs <$> c_list x' = v_infos v ++ [new_info T family e n alias (link_for n (v_link v))] /\ holding (owned_list (c_list x') ++ B) s')) s.
Proof using All.
  intros flags Hok Hnf Hfam Hp2p Eb Hl Habs Hh ifrcopy Hc. unfold add_ifi.
  apply (ends_then _ _ _ _ (fun p s' => holding (p :: owned_list (c_list x) ++ B) s')); [by apply Calloc_holding|]. intros p s1 H1.
  apply (ends_then _ _ _ _ (fun mtu s' => (if have_ifr_mtu then s16 mtu = s16 (t_mtu T n) else mtu = 0) /\ holding (p :: owned_list (c_list x) ++ B) s')).
  { destruct have_ifr_mtu; [|by apply ends_pure]. eapply ends_then; [by apply Ioctl_ifreq_ok|]. cbv beta. intros r s2 [(h & -> & Hr) H2].
    destruct (ifreq_law (T := T) h sockfd n) as (_ & Hm & _). rewrite (Hm Hr). by apply ends_pure. }
  intros mtu s2 [Hmtu H2]. change (Z.to_nat IFI_NAME) with 16%nat. rewrite Eb at 1. rewrite (name_field_load _ _ _ _ Hnf). cbn [checked]. rewrite then_pure.
  destruct Hnf as (Hn & Hl16 & pad & Enb). unfold store. rewrite decide_True by lia. cbn [checked]. rewrite then_pure.
  unfold wp. rewrite (then_val _ _ _ _ _ (link_known front x (v_link v) n _ s2 Hl Eb)).
  destruct (hw_copied front x (v_link v) n _ s2 Hl Eb) as (Hhl & h & Eh & Th). cbv zeta in Eh, Th, Hhl.
  set (same := match v_link v with Some (ln, _, _) => bool_decide (ln = n) | None => false end) in *.
  rewrite (then_val _ _ _ _ _ Eh). clear Eh.
  match goal with |- let '(o, s') := mthen ?m ?k ?s0 in ends _ _ ?Q o s' => change (wp (mthen m k) (ends anything never Q) s0) end.
  rewrite Eb at 1. eapply ends_then; [by apply (ifr_addrs_ok front nb e fill post flags n ifrcopy _ s2 Hok Hl16 Hfam Hc Hp2p H2)|]. cbv beta.
  intros [[a b] d] s3 (Ea & Ebr & Ed & H3). apply ends_pure. cbn [c_buf c_lastname c_list]. split_and!; [done|done| | |].
  - unfold same in *. destruct (v_link v) as [[[ln i] hw]|]; cbn in Hl |- *; [|done]. destruct Hl as (L1 & L2 & L3 & L4 & L5).
    cbn [link_for] in Hhl. destruct (decide (ln = n)) as [E|E].
    + rewrite (bool_decide_eq_true_2 (ln = n)) by done. done.
    + rewrite (bool_decide_eq_false_2 (ln = n)) by done. split_and!; [done|done|done|done|by left].
  - rewrite fmap_app, Habs. cbn [fmap list_fmap]. do 2 f_equal. unfold abs, new_info.
    cbn [Ifi.ifi_name ifi_index ifi_mtu ifi_haddr ifi_hlen ifi_flags ifi_myflags ifi_addr ifi_brdaddr ifi_dstaddr]. fold flags. rewrite Ea, Ebr, Ed, Th. f_equal.
    + unfold cstring_at. rewrite drop_0, Enb. change (16 - 1)%nat with 15%nat. destruct (decide (length n = 15)%nat) as [E15|E15].
      * rewrite Enb, length_app in Hl16. cbn in Hl16. rewrite (insert_app_r_alt _ _ 15) by lia. replace (15 - length n)%nat with 0%nat by lia. by apply until_nul_text.
      * rewrite Enb, length_app in Hl16. cbn in Hl16. rewrite insert_app_r_alt by lia. replace (15 - length n)%nat with (S (14 - length n)) by lia. by apply until_nul_text.
    + f_equal. unfold same. destruct (v_link v) as [[[ln i] hw]|]; cbn in Hl |- *; [|done]. destruct Hl as (_ & L2 & _).
      destruct (decide (ln = n)) as [E|E]; [by rewrite (bool_decide_eq_true_2 (ln = n))|by rewrite (bool_decide_eq_false_2 (ln = n))].
    + destruct have_ifr_mtu; [done|]. by rewrite Hmtu.
  - eapply holding_perm; [symmetry; apply owned_snoc|]. eapply holding_perm; [|exact H3]. unfold owned_ifi. cbn [ifi_self ifi_addr ifi_brdaddr ifi_dstaddr]. solve_Permutation.
Qed.

Lemma not_link : family <> AF_LINK.
Proof using All. clear -inet. unfold AF_INET, AF_INET6, AF_LINK in *. lia. Qed.

Lemma before_colon_length n : (length (before_colon n) <= length n)%nat.
Proof using All. unfold before_colon. destruct (strchr n 58); [rewrite length_take; lia|lia]. Qed.

(** The entry is passed, its name perhaps cut. *)
Lemma ifr_entry_ok front e rest x v v' s :
  entry_ok e -> stands front (e :: rest) x v s -> note_entry T family doaliases e v = Some v' ->
  wp (ifr_entry sockfd family doaliases (length front) x)
    (stage (fun x' s' => exists mid, length mid = length (entry_bytes e) /\ stands (front ++ mid) rest x' v' s')) s.
Proof using All.
  intros Hok (Eb & Hlast & Hl & Habs & Hh) Hnote. destruct (entry_parts front e rest tail Hok) as [Epart Hnb].
  set (nb := e_name e ++ replicate (16 - length (e_name e)) 0) in *. set (fill := replicate (16 - length (sa_bytes (e_sa e))) 0) in *.
  rewrite Epart in Eb. set (post := ifc_block rest ++ tail) in *. assert (Hl16 : length nb = 16%nat) by (by destruct Hnb as (_ & ? & _)).
  assert (Hmid : forall b, length b = 16%nat -> length (b ++ sa_bytes (e_sa e) ++ fill) = length (entry_bytes e)).
  { intros b Hb. unfold entry_bytes. fold nb fill. rewrite !length_app, Hl16, Hb. lia. }
  assert (Hcat : forall b, front ++ b ++ (sa_bytes (e_sa e) ++ fill) ++ post = (front ++ b ++ sa_bytes (e_sa e) ++ fill) ++ ifc_block rest ++ tail)
    by (intros b; unfold post; by rewrite <- !app_assoc).
  unfold ifr_entry, wp. pose proof (ifr_family_ok front nb e fill post s Hok Hl16) as Hfm. rewrite <- Eb in Hfm. rewrite (then_val _ _ _ _ _ Hfm).
  destruct (note_link_ok front nb e fill post x v s Hok Hnb Eb Hl) as (x1 & E1 & Bb & Bl & Bs & Hl1 & Hsame).
  rewrite (then_val _ _ _ _ _ E1). unfold note_entry in Hnote. cbv zeta in Hnote.
  destruct (Z.eqb_spec (sa_family_of (e_sa e)) family) as [Efam|Efam]; cbn [negb].
  2: { injection Hnote as <-. cbn [mpure ends]. exists (nb ++ sa_bytes (e_sa e) ++ fill). split; [by apply Hmid|]. rewrite <- Bs in Habs, Hh.
    split; [rewrite Bb, Eb; apply Hcat|]. rewrite Bl. split_and!; [by unfold see_link; destruct (e_sa e)| |by unfold see_link; destruct (e_sa e)|done].
    rewrite (app_assoc nb), (app_assoc front). by apply link_rel_more. }
  destruct (Hsame ltac:(rewrite Efam; exact not_link)) as [-> Esee]. rewrite Esee in Hnote. clear E1 Bb Bl Bs Hl1 Hsame.
  destruct (cut_colon_ok (e_name e) nb front ((sa_bytes (e_sa e) ++ fill) ++ post) s Hnb) as (b' & Ec & Hb'). rewrite <- Eb in Ec. rewrite (then_val _ _ _ _ _ Ec).
  set (n := before_colon (e_name e)) in *. cbn [c_lastname c_sdlname c_idx c_hlen c_haddr c_list].
  unfold ifr_name at 1. rewrite (name_field_string _ _ _ _ Hb'). cbn [checked]. rewrite then_pure.
  assert (Hln : (length n <= 15)%nat) by (pose proof (before_colon_length (e_name e)); destruct Hok as (_ & ? & _); unfold n; lia).
  rewrite (strncmp_names (v_last v) (c_lastname x) n 16 n Hlast (proj1 Hb') Hln eq_refl eq_refl). cbn [checked]. rewrite then_pure.
  set (alias := bool_decide (v_last v = n)) in *. assert (Hb16 : length b' = 16%nat) by (by destruct Hb' as (_ & ? & _)).
  destruct (alias && (doaliases =? 0)).
  { injection Hnote as <-. cbn [mpure ends]. exists (b' ++ sa_bytes (e_sa e) ++ fill). split; [by apply Hmid|].
    split; [cbn [c_buf]; apply Hcat|]. split; [done|]. split; [by apply link_rel_more|done]. }
  rewrite (name_field_load _ _ _ _ Hb'). cbn [checked]. rewrite then_pure, ifreq_size.
  assert (Hcopy : exists c, load (front ++ b' ++ (sa_bytes (e_sa e) ++ fill) ++ post) (length front) 32 = Some c /\ length c = 32%nat).
  { rewrite load_ok by (rewrite !length_app, Hb16; unfold fill; rewrite length_replicate; lia). eexists. split; [done|].
    rewrite length_take, length_drop, !length_app, Hb16. unfold fill. rewrite length_replicate. lia. }
  destruct Hcopy as (c & Ecp & Lc). rewrite Ecp. cbn [checked]. rewrite then_pure.
  match goal with |- let '(o, s') := mthen ?m ?k ?s0 in ends _ _ ?Q o s' => change (wp (mthen m k) (ends anything never Q) s0) end.
  eapply ends_then; [by apply Ioctl_ifreq_ok|]. cbv beta. intros r s1 [(h & -> & Hr) H1].
  destruct (ifreq_law (T := T) h sockfd n) as (Hfl & _). rewrite (Hfl Hr). cbn [hd].
  destruct (negb (has_flag (s16 (t_flags T n)) IFF_UP)).
  { injection Hnote as <-. apply ends_pure. exists (b' ++ sa_bytes (e_sa e) ++ fill). split; [by apply Hmid|].
    split; [cbn [c_buf]; apply Hcat|]. split; [done|]. split; [by apply link_rel_more|done]. }
  destruct ((family =? AF_INET6) && has_flag (s16 (t_flags T n)) IFF_POINTOPOINT) eqn:Hp2p; [done|]. injection Hnote as <-.
  rewrite Efam. eapply ends_mono.
  { apply (add_ifi_ok front b' e fill post _ v n alias s1 Hok Hb' Efam Hp2p); [done|exact Hl|exact Habs|exact H1|exact Lc]. }
  cbv beta. intros x2 s2 (Gb & Gl & Glk & Gabs & Gh). exists (b' ++ sa_bytes (e_sa e) ++ fill). split; [by apply Hmid|].
  split; [rewrite Gb; cbn [c_buf]; apply Hcat|]. rewrite Gl. split; [done|]. split; [by apply link_rel_more|done].
Qed.

Lemma ifr_entries_ok es front x v v' fuel s :
  Forall entry_ok es -> stands front es x v s -> note_all T family doaliases es v = Some v' -> (length (ifc_block es) <= fuel)%nat ->
  wp (ifr_entries fuel sockfd family doaliases (length front + length (ifc_block es)) (length front) x)
    (stage (fun x' s' => exists front', stands front' [] x' v' s')) s.
Proof using All.
  intros Hok. revert front x v fuel s. induction Hok as [|e es He Hes IH]; intros front x v fuel s Hst Hnote Hfuel.
  - cbn in Hnote. injection Hnote as <-. rewrite Nat.add_0_r. unfold wp. destruct fuel; cbn [ifr_entries]; rewrite Nat.ltb_irrefl; by exists front.
  - pose proof (entry_size e He) as Hsz. rewrite ifc_block_cons, length_app in *. destruct fuel as [|fuel]; [lia|]. cbn [ifr_entries].
    destruct (Nat.ltb_spec (length front) (length front + (length (entry_bytes e) + length (ifc_block es)))); [|lia].
    cbn [note_all] in Hnote. destruct (note_entry T family doaliases e v) as [v1|] eqn:E1; [|done]. cbn [mbind option_bind] in Hnote.
    destruct (entry_parts front e es tail He) as [Epart Hnb]. pose proof Hst as (Eb & _). rewrite Epart in Eb. destruct Hnb as (_ & Hl16 & _).
    unfold wp. pose proof (ifr_len_ok front _ e (replicate (16 - length (sa_bytes (e_sa e))) 0) (ifc_block es ++ tail) s He Hl16) as Hlen.
    rewrite <- Eb in Hlen. rewrite (then_val _ _ _ _ _ Hlen).
    match goal with |- let '(o, s') := mthen ?m ?k ?s0 in ends _ _ ?Q o s' => change (wp (mthen m k) (ends anything never Q) s0) end.
    eapply ends_then; [by apply (ifr_entry_ok front e es x v v1)|]. cbv beta. intros x1 s1 (mid & Hmid & Hst1).
    rewrite Nat2Z.id. pose proof (length_entry_bytes e He) as Hle.
    replace (length front + 16 + Nat.max 16 (length (sa_bytes (e_sa e))))%nat with (length (front ++ mid)) by (rewrite length_app; lia).
    replace (length front + (length (entry_bytes e) + length (ifc_block es)))%nat with (length (front ++ mid) + length (ifc_block es))%nat by (rewrite length_app; lia).
    eapply IH; [exact Hst1|exact Hnote|lia].
Qed.

End Steps.
