(* ===== verification/IfConfClaims.v ===== *)
(** What the list of interfaces of [lib/get_ifi_info.c] says. *)

From S2P Require Import Prelude CText Sys Traces Error Wrappers SockUtil Gai GaiFacts RobustIO Servers Packet Words.
From S2P Require Import Route RouteFacts RouteClaims Ifi IfiFacts IfConf IfConfFacts.

(** The entry has no IPv6 address, or its interface is down or not point-to-point. *)
Definition no_ipv6_destination (T : iftable) (e : ifentry) : Prop :=
  sa_family_of (e_sa e) = AF_INET6 -> let flags := s16 (t_flags T (before_colon (e_name e))) in
  has_flag flags IFF_UP && has_flag flags IFF_POINTOPOINT = false.

Lemma note_all_some {CF : Config} {IC : IfConfig} T family doaliases es : forall v,
  family = AF_INET \/ family = AF_INET6 /\ Forall (no_ipv6_destination T) es ->
  is_Some (note_all T family doaliases es v).
Proof.
  induction es as [|e es IH]; intros v Hf; [by eexists|]. cbn [note_all].
  assert (He : is_Some (note_entry T family doaliases e v)).
  { unfold note_entry. destruct (Z.eqb_spec (sa_family_of (e_sa e)) family) as [Ef|]; [|by eexists]. cbv zeta.
    destruct (_ && (doaliases =? 0)); [by eexists|]. destruct (has_flag _ IFF_UP) eqn:Eu; cbn [negb]; [|by eexists].
    destruct Hf as [->|[-> [Hd _]%Forall_cons]]; [by eexists|]. specialize (Hd Ef). cbv zeta in Hd. rewrite Eu in Hd. cbn [andb] in Hd.
    rewrite Hd. by eexists. }
  destruct He as [v1 ->]. cbn [mbind option_bind]. apply IH. destruct Hf as [?|[? [_ ?]%Forall_cons]]; auto.
Qed.

Section Claims.
Context {os : OS} {SE : Strerror} {CF : Config} {RH : RouteHost} {UL : UninitLaw} {IC : IfConfig}.
Context (T : iftable) {KL : IfconfLaw T}.
Hypothesis ifreq_size : SIZEOF_IFREQ = 32%nat.
Hypothesis sa_len : have_sa_len = true.
Hypothesis sockaddr_dl : have_sockaddr_dl = true.

(** The list and its release, as the programs have them. *)
Definition lib_list_and_free (fuel : nat) (family doaliases : Z) : M (list ifi_info) :=
  l <~ lib_get_ifi_info fuel family doaliases ;; free_ifi_info l ;;; mpure l.

Lemma Socket_holding T0 family type protocol H s :
  holding T0 H s -> wp (Socket family type protocol) (ends anything never (fun _ s' => holding T0 H s')) s.
Proof using.
  intros Hh. unfold Socket. apply (ends_then _ _ _ _ (fun _ s' => holding T0 H s')); [|by intros ? ? ?; apply ends_pure].
  apply (ends_call _ _ anything_output); [done|apply Hh|done|]. intros _. by apply holding_after.
Qed.

Lemma lib_list_spec fuel family doaliases v s :
  family = AF_INET \/ family = AF_INET6 ->
  note_all T family doaliases (t_entries T) (Seen [] None []) = Some v ->
  (2 <= fuel)%nat -> Z.of_nat (length (ifc_block (t_entries T))) + 640 <= 3200 + 320 * Z.of_nat fuel ->
  daemon_proc s = 0 ->
  let '(o, s') := lib_list_and_free fuel family doaliases s in
  match o with
  | Val l => abs <$> l = v_infos v /\ exists evs, trace s' = evs ++ trace s /\ allocated evs ≡ₚ freed evs
  | Exited code => code = 1
  | _ => False
  end.
Proof using All.
  intros Hfam Hnote Hf2 Hfuel Hd. set (T0 := trace s).
  assert (H0 : holding T0 [] s) by (split; [done|]; by exists []).
  assert (H : wp (lib_list_and_free fuel family doaliases) (ends anything never (fun l s' => abs <$> l = v_infos v /\
      exists evs, trace s' = evs ++ T0 /\ allocated evs ≡ₚ freed evs)) s).
  { unfold lib_list_and_free. apply (ends_then _ _ _ _ (fun l s' => abs <$> l = v_infos v /\ holding T0 (owned_list l ++ []) s')).
    - unfold lib_get_ifi_info. apply (ends_then _ _ _ _ (fun _ s' => holding T0 [] s')); [by apply Socket_holding|]. intros sockfd s1 H1.
      eapply ends_then; [apply (get_ifconf_ok T T0 ifreq_size fuel sockfd (100 * Z.of_nat SIZEOF_IFREQ) 0 [] s1); rewrite ?ifreq_size; [done|by left| |done]|].
      { left. change (100 * Z.of_nat 32) with 3200. lia. }
      cbv beta. intros [[p buf] n] s2 (H2 & -> & tail & ->).
      apply (ends_then _ _ _ _ (fun x' s' => exists front', stands T0 [p] tail front' [] x' v s')).
      { apply (ifr_entries_ok T T0 [p] tail sockfd family doaliases ifreq_size sa_len sockaddr_dl Hfam (t_entries T) [] _ (Seen [] None [])); [apply ifconf_ok| |done|llia].
        split; [done|]. split; [|split; [done|split; [done|done]]]. split; [constructor|]. cbn. rewrite uninit_law. split; [done|]. by eexists. }
      intros x s3 (front' & _ & _ & _ & Habs & Hh).
      apply (ends_then _ _ _ _ (fun _ s' => holding T0 (owned_list (c_list x) ++ []) s')).
      { apply free_holding. eapply holding_perm; [|exact Hh]. rewrite app_nil_r. by rewrite Permutation_app_comm. }
      intros ? s4 H4. by apply ends_pure.
    - intros l s1 [Hl H1]. apply (ends_then _ _ _ _ (fun _ s' => holding T0 [] s')); [by apply free_ifi_info_ok|].
      intros ? s2 (_ & evs & Ht & Ha). apply ends_pure. split; [done|]. exists evs. split; [done|]. by rewrite Ha, app_nil_r. }
  unfold wp in H. destruct (lib_list_and_free _ _ _ _) as [o s']. destruct o; cbn in H; try done; [by destruct H|by destruct H].
Qed.
(** C40: [get_ifi_info] of the library finds all interfaces, on a host whose socket addresses have a length,
    whose list has hardware addresses, and whose [struct ifreq] has [32] bytes (on others see
    [linux_entry_missed]), and for IPv6 as long as no interface with an IPv6 address is up and point-to-point (see
    [ipv6_destination_overrun]).  It asks for the list with buffers that grow until the
    length stays the same, and what it then has is the whole list, after at most one call for each [320] bytes that
    the list has beyond the first buffer, and two more.  Each address of the family that is asked for, of an interface that is up, is in
    the result in the order of the kernel, with the name (up to a colon), the flags, the size of packets, the
    index and the hardware address that came before it for the same interface, and its broadcast or destination
    address; a further address of the interface of the last entry is left out or marked as an alias.  No access is
    outside the buffers, and when the list has been freed all memory is.  An error of a call ends the process
    with status 1. *)
Theorem lib_get_ifi_info_lists fuel family doaliases s :
  family = AF_INET \/ family = AF_INET6 /\ Forall (no_ipv6_destination T) (t_entries T) ->
  (2 <= fuel)%nat -> Z.of_nat (length (ifc_block (t_entries T))) + 640 <= 3200 + 320 * Z.of_nat fuel ->
  daemon_proc s = 0 ->
  let '(o, s') := lib_list_and_free fuel family doaliases s in
  match o with
  | Val l => exists v, note_all T family doaliases (t_entries T) (Seen [] None []) = Some v /\ abs <$> l = v_infos v /\
      exists evs, trace s' = evs ++ trace s /\ allocated evs ≡ₚ freed evs
  | Exited code => code = 1
  | _ => False
  end.
Proof using All.
  intros Hfam Hf2 Hfuel Hd. destruct (note_all_some T family doaliases (t_entries T) (Seen [] None []) Hfam) as [v Hv].
  pose proof (lib_list_spec fuel family doaliases v s ltac:(tauto) Hv Hf2 Hfuel Hd) as H.
  destruct (lib_list_and_free _ _ _ _) as [[l|e| | |] s']; try exact H. by exists v.
Qed.
End Claims.

(** * A host with an alias *)

#[local] Existing Instance numeric_strerror.
#[local] Existing Instance bsd_config.
#[local] Existing Instance bsd_host.
#[local] Instance bsd_ifconfig : IfConfig := {| have_sa_len := true; have_ifr_mtu := true; SIZEOF_IFREQ := 32 |}.

Definition inet_sa (a : list Z) : rtsa := SaRaw AF_INET ([0; 0] ++ a ++ replicate 8 0).
Definition em_table : iftable :=
  IfTable [Entry c["em0"] (SaLink 2 6 c["em0"] [0; 1; 2; 3; 4; 5] []); Entry c["em0"] (inet_sa [10; 0; 0; 2]); Entry c["em0:1"] (inet_sa [10; 0; 0; 3])]
    (fun _ => 67) (fun _ => 1500) (fun _ => sa_bytes (inet_sa [10; 0; 0; 255])) (fun _ => replicate 16 0).

Definition em_os : OS := fun h c =>
  match c with
  | sys_socket _ _ _ => ok 3
  | sys_ioctl _ _ len => let b := ifc_block (fitting (Z.to_nat len) (t_entries em_table)) in SR 0 None b [Z.of_nat (length b)] None
  | sys_ioctl_ifreq _ req name =>
      if req =? SIOCGIFFLAGS then SR 0 None [] [t_flags em_table name] None
      else if req =? SIOCGIFMTU then SR 0 None [] [t_mtu em_table name] None
      else SR 0 None (if req =? SIOCGIFBRDADDR then t_brd em_table name else t_dst em_table name) [] None
  | sys_malloc _ | sys_calloc _ _ => ok (65536 * Z.of_nat (S (length (allocated h))))
  | _ => ok 0
  end.
#[local] Existing Instance em_os.

Lemma em_table_law : IfconfLaw em_table.
Proof.
  constructor.
  - cbn [em_table t_entries]. constructor; [|constructor; [|constructor; [|constructor]]]; split_and!; try done; try (by repeat constructor); cbn; lia.
  - intros h fd len Hl. split; [done|]. intros Hr. cbn in Hr. lia.
  - intros h fd name. by split_and!.
  - by split.
Qed.

Lemma lib_list_value : exists l s', lib_list_and_free 2 AF_INET 1 init = (Val l, s') /\ length l = 2%nat.
Proof. eexists _, _. split; vm_compute; reflexivity. Qed.

Lemma lib_get_ifi_info_lists_witness :
  exists l s', lib_list_and_free 2 AF_INET 1 init = (Val l, s') /\
    (fun n => (n_name n, n_index n, n_hw n, n_myflags n)) <$> (abs <$> l) =
      [(c["em0"], 2, [0; 1; 2; 3; 4; 5], 0); (c["em0"], 2, [0; 1; 2; 3; 4; 5], IFI_ALIAS)] /\
    exists evs, trace s' = evs ++ [] /\ allocated evs ≡ₚ freed evs.
Proof.
  pose proof (@lib_get_ifi_info_lists em_os numeric_strerror bsd_config bsd_host bsd_uninit bsd_ifconfig em_table em_table_law eq_refl eq_refl eq_refl
    2 AF_INET 1 init (or_introl eq_refl) ltac:(lia) ltac:(vm_compute; discriminate) eq_refl) as H.
  destruct lib_list_value as (l & s' & E & _). exists l, s'. split; [exact E|]. rewrite E in H. destruct H as (v & Hv & Ha & Hm). split; [|exact Hm].
  vm_compute in Hv. injection Hv as <-. rewrite Ha. vm_compute. reflexivity.
Defined.

(** * Limits

    The destination address of an IPv6 interface is read from behind the structure that [ioctl] has filled. *)
Lemma ipv6_destination_overrun :
  let os : OS := fun h c => match c with
    | sys_ioctl _ _ _ => let b := ifc_block [Entry c["tun0"] (SaRaw AF_INET6 (replicate 26 0))] in SR 0 None b [Z.of_nat (length b)] None
    | sys_ioctl_ifreq _ req _ => SR 0 None (replicate 16 0) [17] None
    | sys_malloc _ | sys_calloc _ _ => ok 4096 | _ => ok 0 end in
  (@lib_get_ifi_info os numeric_strerror bsd_config bsd_host bsd_ifconfig 2 AF_INET6 0 init).1 = Undefined.
Proof. vm_compute. reflexivity. Qed.

(** The socket is never closed. *)
Lemma socket_left_open :
  match lib_list_and_free 2 AF_INET 1 init with
  | (Val _, s') =>
      existsb (fun e : event => match e.1 with sys_close _ => true | _ => false end) (trace s') = false /\
      existsb (fun e : event => match e.1 with sys_socket _ _ _ => true | _ => false end) (trace s') = true
  | _ => False
  end.
Proof. vm_compute. split; reflexivity. Qed.

(** Where a [struct ifreq] has [40] bytes, as on a host with a 64-bit Linux, the function looks for the second entry
    [32] bytes behind the first, and does not find the interface. *)
Lemma linux_entry_missed :
  let lo := c["lo"] ++ replicate 14 0 ++ [2; 0; 0; 0; 127; 0; 0; 1] ++ replicate 16 0 in
  let eth := c["eth0"] ++ replicate 12 0 ++ [2; 0; 0; 0; 10; 0; 0; 2] ++ replicate 16 0 in
  let os : OS := fun h c => match c with
    | sys_ioctl _ _ _ => SR 0 None (lo ++ eth) [80] None
    | sys_ioctl_ifreq _ req _ => SR 0 None (replicate 16 0) [1] None
    | sys_malloc _ | sys_calloc _ _ => ok 4096 | _ => ok 0 end in
  let cf := {| ipv6 := true; have_sockaddr_dl := false; little_endian := true |} in
  let ic := {| have_sa_len := false; have_ifr_mtu := false; SIZEOF_IFREQ := 40 |} in
  match (@lib_get_ifi_info os numeric_strerror cf bsd_host ic 2 AF_INET 0 init).1 with
  | Val l => (fun ifi => cstring_at (ifi_name ifi) 0) <$> l = [c["lo"]]
  | _ => False
  end.
Proof. vm_compute. reflexivity. Qed.
